(* ===== verification/_CoqProject ===== *)
-Q . S2P
Prelude.v
Fletcher.v
Flash.v
SectorCache.v
FileSys.v
FsUtils.v
BasicJson.v
CString.v
HttpClient.v
HttpRequest.v
HttpResponse.v
HttpDelivery.v
HttpConnect.v
HioHttp.v
Ssbl.v
SsblImage.v
SsblBoot.v
Lookup3.v
HashList.v
Jansson.v
HashTable.v
HashTableProps.v
HashTableSpec.v
JsonArray.v
JsonValue.v
StrBuffer.v
JsonLoad.v
JsonLoadProps.v
JsonDump.v
JsonText.v
JsonRoundTrip.v
Recovery.v
FotaFlash.v
Fota.v
FotaProps.v
Update.v
UpdateConfig.v
MqttPacket.v
MqttCodec.v
MqttRoundTrip.v
MqttRead.v
MqttClient.v
MqttTopics.v
MqttSession.v
MqttCalls.v
WebSock.v
WebSockProps.v
WebSockLib.v
WebSockOpen.v
WebSockThread.v
SslWrap.v
MqttSock.v
MqttNet.v
Enroll.v
Gordon.v
GordonProps.v
FastBoot.v
Storage.v
Sntp.v
IperfJson.v
Iperf3.v
Iperf3Props.v
