(* ===== verification/Prelude.v ===== *)
(** * Verification of the Talaria TWO SDK

    The program is the source part of an SDK for a Wi-Fi microcontroller: a fast
    boot stage and a second-stage boot loader, a flash programmer, an
    over-the-air update client, the flash and file utilities they stand on, network
    clients (HTTP, MQTT, WebSocket, SNTP) with a TLS wrapper for applications, the
    interface a host processor uses them through, and an iperf3 server.

    ** How the parts interact

    The fast boot stage (apps/ssbl/fastboot) interprets boot commands and starts
    the boot loader.  The boot loader (apps/ssbl) repairs the control files from
    their copies, reads which image to start, loads its ELF sections from the
    flash and hands it its arguments.  The update client (components/fota) fetches
    a configuration through the HTTP client, parses it with the JSON library
    (components/json/jansson), fetches firmware images and files, writes
    images through the sector cache into the SPI flash and files into the root file
    system, and commits an update by replacing three control files, each with a
    checksum and a backup.  The flash programmer (apps/gordon) answers messages of
    a host: it writes images through the same sector cache, keeps the partition
    table, enrols a device for secure boot and gives access to files.  The MQTT
    client talks to a broker over a network back end behind two function pointers:
    a socket, the TLS wrapper or the WebSocket client.  The WebSocket client opens
    its connections through the HTTP client and takes over their sockets.  A host
    drives HTTP clients by messages (hio_http_client.c).  The iperf3 server reads
    its parameters with the JSON tokenizer of the boot loader.

    ** Files, in dependency order

    - Prelude: machine integers with their wrap-around ([u8], [u16], [u32],
      [s32]), C buffers as lists ([bget], [memcpy], [zlen]), memories as functions
      ([cells], [overlay]), little-endian words ([le_value], [word_le]), the hint
      database [t2] and the tactics [b2p], [case_if], [zl].
    - Fletcher (components/checksum/src/fletcher32.c): the blocked checksum
      equals the textbook definition on every length and no accumulator
      overflows; it detects changed and swapped words.
    - Flash: the class of the flash driver, whose code is not in the repository,
      with its laws and a device that satisfies them.
    - SectorCache (components/utils/src/sector_cache.c): which pages change and
      whether an erase is needed, programming of a sector, and refinement of a
      plain byte memory by read, write and flush; two cases where the code loses
      data (a lone byte at an odd offset, a cache of two entries).  The class
      [SectorStore] is what the update client needs of the cache.
    - FileSys: the file system as a map with a log of effects; a power failure
      leaves the replay of a prefix of the log, the last append possibly torn.
    - FsUtils (components/utils/src/fs_utils.c, utils.c): presence, size, read,
      store, clone, checksum and version comparison.
    - BasicJson (components/json/basic_json/json.c): the character tokenizer is
      total, and reads back strings and the boot index.
    - CString, Jansson: the C string functions and the jansson values
      (components/json/jansson/src/value.c, utf.c) the components use.
    - Lookup3 (components/json/jansson/src/lookup3.h): the hash of a key in its
      three variants, which agree wherever the key lies; its mixing step can be
      undone.
    - HashList, HashTable, HashTableProps (hashtable.c): the table of a JSON object
      with its buckets and the two circular lists through its pairs, over the
      class [KeyHash].  HashTableSpec: it refines an association list in the order
      of insertion, whichever allocations fail, and releases every value once.
    - JsonArray (value.c): the arrays of a store with their growing tables refine
      lists and lose no reference.  JsonValue: updating, comparing and copying
      values; [json_equal] is equality up to the order of members.
    - StrBuffer (strbuffer.c): the growing text buffer.
    - JsonLoad, JsonLoadProps (load.c, utf.c): the stream, the scanner and the
      parser, with the requests for memory that can fail; the parser ends on every
      input inside its buffers, with a value, an error or a request that failed.
    - JsonDump (dump.c, strconv.c), JsonText, JsonRoundTrip: the printer with its
      flags; the characters of a text, their escapes and the two passes of the
      scanner over them; the parser reads back what the printer wrote.
    - HttpClient, HttpRequest, HttpResponse, HttpDelivery
      (components/http/src/http_client.c): URLs, headers, requests and their
      segments, the reception state machine, and the delivery of a response with
      a length to the callback however it is cut into pieces; chunked bodies are
      cut after the first chunk.  HttpConnect: hosts in dotted decimals, the
      connection, which loses no socket, and the release.
    - HioHttp (components/http/src/hio_http_client.c): the messages of the host
      over the class [HttpApi]; certificates in pieces, headers as a map, and the
      table of clients that only fills up.
    - Ssbl, Recovery (apps/ssbl/src/ssbl.c): the check and repair of the control
      files, and its convergence under any number of power failures.
    - SsblImage, SsblBoot (the same file): part.json, boot arguments, the ELF
      loader and [main]; the boot of an image as a whole.
    - FotaFlash, Fota, FotaProps (components/fota/src/fota.c): the download of
      firmware into flash sectors with its hash, files, the choice of the image
      area and the commit.
    - Update: the commit and the loader together; what a device settles on when
      the power fails at any point of the commit.  UpdateConfig: the same with the
      parser and the printer of the SDK; the client reads back what it committed.
    - MqttPacket, MqttCodec (components/mqtt/src, MQTTPacket.c and the
      serialisers of both sides), MqttRoundTrip: every packet written inside the
      buffer and read back by the other side.
    - MqttRead (MQTTPacket.c): the packet readers; the non-blocking state machine
      puts a packet together from any pieces, as the blocking reader does.
    - MqttClient (MQTTClient.c, platform/mqtt_platform.c): the client over the
      class [Platform] (clock, read, write), in the state monad [C].
    - MqttTopics: topic filters by levels; the table of message handlers as a
      finite map.
    - MqttSession, MqttCalls: rules for the steps of the client over a [Link]
      that delivers, and with them the delivery and acknowledgement of a message
      and the calls for connecting, subscribing and publishing.
    - WebSock, WebSockProps (components/websocket/src/websock.c): messages sent
      in masked frames, against a reference decoder of the frame format, and
      frames received piece by piece with the pings between them answered.
    - WebSockLib (the same file): opening a connection over the HTTP client, the
      list of connections, event handlers, the timer and the polling thread.
      WebSockOpen: the request of the handshake and the upgrade.  WebSockThread:
      the thread hands the frames that arrived to the handler; the connections
      and their timer as a labelled transition system ([lib_step]) that refines a
      finite map from open connections to handlers; a secured connection is closed by the first poll that reads it, and polling
      ends for all when the connection with the timer is closed.
    - SslWrap (components/ssl_wrap/src/ssl_wrap.c): the list of TLS handles, the
      check of a certificate against the bundle of roots, connecting, reading and
      closing; a connection that is given out was authenticated.
    - MqttSock, MqttNet (components/mqtt/platform/mqtt_nw_tcp.c, mqtt_nw_tls.c,
      mqtt_nw_websock.c): the back ends as instances of [Platform] and of [Link],
      so that the theorems of the client hold over each.
    - Enroll (apps/gordon/src/enroll.c): the XEX cipher in software and the
      enrolment, which the boot ROM can undo.
    - Gordon, GordonProps (apps/gordon/src/gordon.c, part.c, hash.c): the messages
      of the flash programmer; images read back as written, the partition table as
      a map that survives a restart, and every typed request answered in type.
    - FastBoot (apps/ssbl/fastboot/fastboot.c): the interpreter of boot commands,
      in the clear and encrypted, and the start of an image.
    - Storage (apps/gordon/src/hio_storage.c): files and directories for a host.
    - Sntp (components/sntp/src/sntp.c): requests, answers, retries and the clock,
      as a transition system ([sntp_step]) over the timers of lwIP.
    - IperfJson, Iperf3, Iperf3Props (apps/iperf3/src/iperf3.c, stringstream.c): the
      search for parameters, the session, its protocol, counters and result.

    ** Conventions

    Definitions keep the names of the code.  A C function becomes a function on
    explicit state, in a small monad where state and errors run through many
    calls ([M] in FileSys, [C] in MqttClient).  Undefined behaviour (an access
    outside of a buffer, a [NULL] dereferenced, a closed stream used, a division by
    0) and a failed [assert] are [None] or [Undefined], so that a theorem that
    gives a result also shows their absence; a variable that is not set is an
    argument where the code only compares it.  [char] is unsigned, as on the
    processor.  Code outside of the repository (flash driver, mbedTLS, lwIP, boot
    ROM with its SHA-256, cipher engine and fuses, kernel) and the conversions of
    floating-point numbers of the C library are parameters or classes; the
    theorems that need their behaviour name it as a law, and a concrete instance
    satisfies it.  The update client takes the JSON library as a parameter too,
    which UpdateConfig replaces by the modelled one.

    ** Fuel

    Loops that are not structural take fuel, and running out of it is [None].
    The fuel of the definitions is the size of what they consume (bytes of a
    buffer, pieces received, boot commands, length digits: 5, since the fifth round
    of the length loops ends them), and the theorems state a result, so it is
    enough.  The loops of MqttClient that the clock ends take a bound [rounds]; the
    theorems hold from 2 on, which is what the exchanges they describe take.
    The rounds of the WebSocket reception answer one ping or read one piece of a
    ping each, so 125 and more than the number of pings are enough; the loop of
    the polling thread takes one round per byte of payload at most, and one more.
    Reading from TLS takes more rounds than bursts of data.  The loops of the JSON
    scanner and parser take as many rounds as there are bytes left, its recursion
    as many as the maximum depth, and a walk over a bucket as many as there are
    pairs; the printer recurses to the height of the value.  Two loops of the code
    do not end ([second_certificate_hangs], [nine_streams_hang]): there no fuel is
    enough, and the theorems say so.

    ** Groups of theorems

    Update and recovery of the control files; boot in both stages; flash contents
    after downloads, programming and flushes; the partition table and enrolment;
    checksum; JSON texts, their parser, printer and tables; HTTP connections, requests, responses and the host's messages;
    MQTT packets, sessions and subscriptions over each back end; TLS
    authentication; WebSocket handshake, frames and polling; the clock and polling
    of SNTP; the protocol of iperf3; and the cases where the code does not do what
    it means to, which are stated as theorems about what it does.

    ** Not modelled

    The vendored stacks (lwIP, mbedTLS and libupnp headers and sources, the AWS IoT
    SDK), of jansson the life of a value behind its reference count, the format
    strings of pack_unpack.c, the floating-point conversions and the choice of the seed;
    driver prototypes under include/,
    sample applications (DLNA, BLE provisioning, the AWS and FOTA samples under
    apps/) and board code; threads and semaphores beyond what is said in the files,
    console output; MQTTFormat.c, which prints packets for debugging, [MQTTRun],
    which repeats the modelled round for ever, and ming.c, an older version of the
    flash programmer.  The reading of a directory by gordon.c answers with an
    uninitialised field and is left out.  An event handler of the WebSocket client
    is taken not to call the library back, and semaphores make each operation on
    the list of connections one step.  In the JSON printer the allocations succeed
    and a value is a tree, so that the check for loops finds nothing; in the parser
    the growth of the buffer of a token's text succeeds. *)

From stdpp Require Export base numbers list strings gmap pretty.
From Stdlib Require Export ZArith Lia.

#[global] Open Scope Z_scope.

(** ** Machine integers

    A w-bit C integer is a [Z]; every operation that can leave the range is
    written with its wrap-around. *)

Definition u8 (x : Z) : Z := x mod 2 ^ 8.
Definition u16 (x : Z) : Z := x mod 2 ^ 16.
Definition u32 (x : Z) : Z := x mod 2 ^ 32.
Definition s32 (x : Z) : Z := (x + 2 ^ 31) mod 2 ^ 32 - 2 ^ 31.
Definition s16 (x : Z) : Z := (x + 2 ^ 15) mod 2 ^ 16 - 2 ^ 15.

#[global] Arguments u8 : simpl never.
#[global] Arguments u16 : simpl never.
#[global] Arguments u32 : simpl never.
#[global] Arguments s32 : simpl never.

Abbreviation bytes := (list Z).

Definition is_byte (b : Z) : Prop := 0 <= b < 256.
Definition is_bytes (l : bytes) : Prop := Forall is_byte l.

(** The length of a list as a C integer. *)
Definition zlen {A} (l : list A) : Z := Z.of_nat (length l).

#[global] Arguments zlen : simpl never.

(** ** Scope, hints and tactics of the development *)

Declare Scope t2_scope.
Delimit Scope t2_scope with t2.

Create HintDb t2.

(** Boolean tests of the code, turned into propositions. *)
Ltac b2p :=
  repeat match goal with
  | H : (_ && _)%bool = true |- _ => apply andb_prop in H; destruct H
  | H : (_ || _)%bool = false |- _ => apply orb_false_elim in H; destruct H
  | H : negb _ = true |- _ => apply negb_true_iff in H
  | H : negb _ = false |- _ => apply negb_false_iff in H
  | H : (_ <? _) = true |- _ => apply Z.ltb_lt in H
  | H : (_ <? _) = false |- _ => apply Z.ltb_ge in H
  | H : (_ <=? _) = true |- _ => apply Z.leb_le in H
  | H : (_ <=? _) = false |- _ => apply Z.leb_gt in H
  | H : (_ =? _) = true |- _ => apply Z.eqb_eq in H
  | H : (_ =? _) = false |- _ => apply Z.eqb_neq in H
  end.

(** Case analysis on the innermost conditional of the goal, recording the
    outcome of its test as a proposition. *)
Ltac case_if :=
  match goal with
  | |- context [if ?b then _ else _] =>
      let E := fresh "E" in destruct b eqn:E; b2p
  end.

(** ** Wrap-around lemmas *)

Lemma u32_range x : 0 <= u32 x < 2 ^ 32.
Proof. unfold u32. apply Z.mod_pos_bound. lia. Qed.

Lemma u32_small x : 0 <= x < 2 ^ 32 -> u32 x = x.
Proof. apply Z.mod_small. Qed.

Lemma u32_add_l x y : u32 (u32 x + y) = u32 (x + y).
Proof. unfold u32. by rewrite Zplus_mod_idemp_l. Qed.

Lemma u16_small x : 0 <= x < 2 ^ 16 -> u16 x = x.
Proof. apply Z.mod_small. Qed.

Lemma u8_small x : 0 <= x < 256 -> u8 x = x.
Proof. apply Z.mod_small. Qed.

Lemma u8_byte x : is_byte (u8 x).
Proof. unfold is_byte, u8. apply (Z.mod_pos_bound x 256). lia. Qed.

Lemma s32_small x : - 2 ^ 31 <= x < 2 ^ 31 -> s32 x = x.
Proof. intros H. unfold s32. rewrite Z.mod_small by lia. lia. Qed.

(** Two parts of a word that do not overlap. *)
Lemma lor_shiftl a b k : 0 <= k -> 0 <= b < 2 ^ k -> Z.lor (Z.shiftl a k) b = a * 2 ^ k + b.
Proof.
  intros Hk Hb. rewrite Z.shiftl_mul_pow2 by lia.
  assert (E : Z.land (a * 2 ^ k) b = 0).
  { apply Z.bits_inj'. intros i Hi. rewrite Z.land_spec, Z.bits_0. destruct (decide (i < k)).
    - by rewrite Z.mul_pow2_bits_low.
    - rewrite <- (Z.mod_small b (2 ^ k)) by done. rewrite Z.mod_pow2_bits_high by lia. apply andb_false_r. }
  pose proof (Z.add_lor_land (a * 2 ^ k) b). lia.
Qed.

Lemma s32_range x : - 2 ^ 31 <= s32 x < 2 ^ 31.
Proof.
  unfold s32. pose proof (Z.mod_pos_bound (x + 2 ^ 31) (2 ^ 32)). lia.
Qed.

#[export] Hint Resolve u8_byte u32_range : t2.

(** ** Lists as C buffers *)

Lemma zlen_nonneg {A} (l : list A) : 0 <= zlen l.
Proof. unfold zlen. lia. Qed.

Lemma zlen_app {A} (l1 l2 : list A) : zlen (l1 ++ l2) = zlen l1 + zlen l2.
Proof. unfold zlen. rewrite length_app. lia. Qed.

Lemma zlen_cons {A} (x : A) l : zlen (x :: l) = zlen l + 1.
Proof. unfold zlen. simpl. lia. Qed.

Lemma zlen_nil {A} : zlen (@nil A) = 0.
Proof. done. Qed.

#[export] Hint Resolve zlen_nonneg : t2.

Lemma zlen_0_nil {A} (l : list A) : zlen l = 0 -> l = [].
Proof. destruct l; [done|]. rewrite zlen_cons. pose proof (zlen_nonneg l). lia. Qed.

(** A prefix of a concatenation that is not longer than its first part. *)
Lemma app_prefix {A} (a r p q : list A) :
  a ++ r = p ++ q -> zlen p <= zlen a -> exists a', a = p ++ a' /\ q = a' ++ r.
Proof.
  intros H Hl. unfold zlen in Hl. exists (drop (length p) a).
  assert (Hp : take (length p) a = p)
    by (rewrite <- (take_app_le a r) by lia; by rewrite H, take_app_length).
  split; [by rewrite <- Hp at 1; rewrite take_drop|].
  by rewrite <- (drop_app_le a r) by lia; rewrite H, drop_app_length.
Qed.

(** Lengths of literal and concatenated lists. *)
Ltac zl :=
  repeat match goal with
  | |- context [@zlen ?A []] => change (@zlen A []) with 0
  | H : context [@zlen ?A []] |- _ => change (@zlen A []) with 0 in H
  end;
  rewrite ?zlen_app, ?zlen_cons in *.

(** [bget l i] is [l[i]]; the accesses of the model are in range wherever a
    theorem uses them. *)
Definition bget (l : bytes) (i : Z) : Z := nth (Z.to_nat i) l 0.

#[global] Arguments bget : simpl never.

(** [memcpy dst off src]: [memcpy(dst + off, src, length src)]. *)
Definition memcpy {A} (dst : list A) (off : Z) (src : list A) : list A :=
  take (Z.to_nat off) dst ++ src ++ drop (Z.to_nat off + length src) dst.

#[global] Arguments memcpy : simpl never.

(** The bytes [cs] stored at [buf + off]. *)
Definition store (buf : bytes) (off : Z) (cs : bytes) : option bytes :=
  if (0 <=? off) && (off + zlen cs <=? zlen buf) then Some (memcpy buf off cs) else None.

Lemma length_memcpy {A} (dst src : list A) off :
  0 <= off -> off + zlen src <= zlen dst -> length (memcpy dst off src) = length dst.
Proof.
  unfold memcpy, zlen. intros. rewrite !length_app, length_take, length_drop. lia.
Qed.

Lemma zlen_memcpy {A} (dst src : list A) off :
  0 <= off -> off + zlen src <= zlen dst -> zlen (memcpy dst off src) = zlen dst.
Proof. intros. unfold zlen. by rewrite length_memcpy. Qed.

(** The bytes up to the end of a copied block. *)
Lemma take_memcpy (dst src : bytes) off :
  0 <= off <= zlen dst -> take (Z.to_nat (off + zlen src)) (memcpy dst off src) = take (Z.to_nat off) dst ++ src.
Proof.
  intros Ho. unfold memcpy. rewrite app_assoc. apply take_app_length'.
  rewrite length_app, length_take. unfold zlen in *. lia.
Qed.

Lemma take_memcpy_0 (dst src : bytes) :
  take (Z.to_nat (zlen src)) (memcpy dst 0 src) = src.
Proof. pose proof (take_memcpy dst src 0) as H. rewrite Z.add_0_l in H. apply H. pose proof (zlen_nonneg dst). lia. Qed.

Lemma bget_memcpy dst src off i :
  0 <= off -> off + zlen src <= zlen dst -> 0 <= i ->
  bget (memcpy dst off src) i
  = if (off <=? i) && (i <? off + zlen src) then bget src (i - off) else bget dst i.
Proof.
  intros H0 H1 Hi. unfold bget, memcpy, zlen in *.
  destruct (decide (i < off)).
  - rewrite (proj2 (Z.leb_gt _ _)) by lia. cbn.
    rewrite app_nth1 by (rewrite length_take; lia). rewrite nth_firstn. by rewrite (proj2 (Nat.ltb_lt _ _)) by lia.
  - rewrite (proj2 (Z.leb_le _ _)) by lia. cbn.
    rewrite app_nth2 by (rewrite length_take; lia). rewrite length_take.
    case_if.
    + rewrite app_nth1 by lia. f_equal. lia.
    + rewrite app_nth2 by lia. rewrite nth_skipn. f_equal. lia.
Qed.

(** The [n] values of [f] from [a] on, and lists determined by their values. *)
Definition cells (f : Z -> Z) (a n : Z) : bytes := map f (seqZ a n).

#[global] Arguments cells : simpl never.

Lemma length_cells f a n : length (cells f a n) = Z.to_nat n.
Proof. unfold cells. by rewrite length_map, length_seqZ. Qed.

Lemma zlen_cells f a n : 0 <= n -> zlen (cells f a n) = n.
Proof. intros. unfold zlen. rewrite length_cells. lia. Qed.

Lemma bget_cells f a n i : 0 <= i < n -> bget (cells f a n) i = f (a + i).
Proof.
  intros H. unfold bget, cells.
  rewrite (nth_indep _ 0 (f 0)) by (rewrite length_map, length_seqZ; lia).
  rewrite map_nth. f_equal. apply nth_lookup_Some. rewrite lookup_seqZ_lt by lia.
  f_equal. lia.
Qed.

Lemma cells_1 f a : cells f a 1 = [f a].
Proof. unfold cells. by rewrite seqZ_cons, seqZ_nil by lia. Qed.

Lemma cells_app f a n m : 0 <= n -> 0 <= m -> cells f a (n + m) = cells f a n ++ cells f (a + n) m.
Proof. intros. unfold cells. by rewrite seqZ_app, map_app by lia. Qed.

Lemma cells_ext f g a n : (forall x, a <= x < a + n -> f x = g x) -> cells f a n = cells g a n.
Proof.
  intros H. unfold cells. apply map_ext_in. intros x Hx.
  apply H. by apply elem_of_seqZ, list_elem_of_In.
Qed.

Lemma bytes_ext (l1 l2 : bytes) :
  length l1 = length l2 -> (forall i, 0 <= i < zlen l1 -> bget l1 i = bget l2 i) -> l1 = l2.
Proof.
  intros Hl H. apply nth_ext with (d := 0) (d' := 0); [done|]. intros n Hn.
  specialize (H (Z.of_nat n)). unfold bget, zlen in H. rewrite Nat2Z.id in H. apply H. lia.
Qed.

Lemma bget_byte l i : is_bytes l -> is_byte (bget l i).
Proof.
  intros H. unfold bget. destruct (nth_in_or_default (Z.to_nat i) l 0) as [Hin| ->].
  - eapply List.Forall_forall in H; done.
  - unfold is_byte. lia.
Qed.

#[export] Hint Resolve bget_byte : t2.

Lemma cells_bget l : cells (bget l) 0 (zlen l) = l.
Proof.
  apply bytes_ext.
  - rewrite length_cells. unfold zlen. lia.
  - rewrite zlen_cells by auto with t2. intros i Hi. by rewrite bget_cells.
Qed.

(** [bs] laid over the memory [f] at address [a]. *)
Definition overlay (f : Z -> Z) (a : Z) (bs : bytes) (x : Z) : Z :=
  if (a <=? x) && (x <? a + zlen bs) then bget bs (x - a) else f x.

Lemma cells_shift f g a b n :
  (forall i, 0 <= i < n -> f (a + i) = g (b + i)) -> cells f a n = cells g b n.
Proof.
  intros H. destruct (Z.le_gt_cases n 0) as [Hn|Hn].
  - unfold cells. by rewrite !seqZ_nil by lia.
  - apply bytes_ext; [by rewrite !length_cells|]. rewrite zlen_cells by lia. intros i Hi.
    rewrite !bget_cells by lia. by apply H.
Qed.

Lemma take_drop_cells l off n :
  0 <= off -> 0 <= n -> off + n <= zlen l ->
  take (Z.to_nat n) (drop (Z.to_nat off) l) = cells (bget l) off n.
Proof.
  intros H0 H1 H2. unfold zlen in H2. apply bytes_ext.
  - rewrite length_take, length_drop, length_cells. lia.
  - unfold zlen. rewrite length_take, length_drop. intros i Hi.
    rewrite bget_cells by lia. unfold bget. rewrite nth_firstn, nth_skipn.
    rewrite (proj2 (Nat.ltb_lt _ _)) by lia. f_equal. lia.
Qed.

Lemma bget_drop l n i : 0 <= n -> 0 <= i -> bget (drop (Z.to_nat n) l) i = bget l (n + i).
Proof. intros. unfold bget. rewrite nth_skipn. f_equal. lia. Qed.

Lemma bget_take l n i : 0 <= i < n -> bget (take (Z.to_nat n) l) i = bget l i.
Proof.
  intros. unfold bget. rewrite nth_firstn. by rewrite (proj2 (Nat.ltb_lt _ _)) by lia.
Qed.

Lemma zlen_take {A} (l : list A) n : 0 <= n <= zlen l -> zlen (take (Z.to_nat n) l) = n.
Proof. unfold zlen. intros. rewrite length_take. lia. Qed.

Lemma zlen_drop {A} (l : list A) n : 0 <= n <= zlen l -> zlen (drop (Z.to_nat n) l) = zlen l - n.
Proof. unfold zlen. intros. rewrite length_drop. lia. Qed.

Lemma overlay_ext f g a bs x : (forall y, f y = g y) -> overlay f a bs x = overlay g a bs x.
Proof. intros H. unfold overlay. by rewrite H. Qed.

(** Two overlays of consecutive pieces are one overlay. *)
Lemma overlay_split f a bs n x :
  0 <= n <= zlen bs ->
  overlay (overlay f a (take (Z.to_nat n) bs)) (a + n) (drop (Z.to_nat n) bs) x = overlay f a bs x.
Proof.
  intros Hn. unfold overlay. rewrite zlen_take, zlen_drop by done.
  destruct (Z.leb_spec a x), (Z.leb_spec (a + n) x), (Z.ltb_spec x (a + n)),
    (Z.ltb_spec x (a + zlen bs)), (Z.ltb_spec x (a + n + (zlen bs - n))); cbn [andb];
    try lia; try done.
  - rewrite bget_drop by lia. f_equal. lia.
  - apply bget_take. lia.
Qed.

Lemma overlay_app (g : Z -> Z) a (p q : bytes) x :
  overlay (overlay g a p) (a + zlen p) q x = overlay g a (p ++ q) x.
Proof.
  pose proof (overlay_split g a (p ++ q) (zlen p) x) as H.
  assert (Hp : Z.to_nat (zlen p) = length p) by (unfold zlen; lia).
  rewrite Hp, take_app_length, drop_app_length in H. apply H. zl. pose proof (zlen_nonneg q).
  pose proof (zlen_nonneg p). lia.
Qed.

(** ** Little-endian words *)

(** The value of bytes, the lowest first. *)
Fixpoint le_value (l : bytes) : Z := match l with [] => 0 | b :: l => b + 256 * le_value l end.

Lemma le_value_range l : is_bytes l -> 0 <= le_value l < 256 ^ zlen l.
Proof.
  induction 1 as [|b l Hb Hl IH]; [done|]. cbn [le_value]. rewrite zlen_cons, Z.pow_add_r by (pose proof (zlen_nonneg l); lia).
  unfold is_byte in Hb. change (256 ^ 1) with 256. nia.
Qed.

(** A 32-bit word. *)
Definition word (v : Z) : Prop := 0 <= v < 2 ^ 32.

(** A word in memory. *)
Definition word_le (v : Z) : bytes := [v mod 256; v / 256 mod 256; v / 65536 mod 256; v / 16777216 mod 256].

Lemma le_word_le v : word v -> forall l, le_value (take 4 (word_le v ++ l)) = v.
Proof.
  intros Hv l. unfold word in Hv. unfold word_le. cbn [app take]. rewrite take_0. cbn [le_value].
  replace (v / 65536) with (v / 256 / 256) by (by rewrite Z.div_div).
  replace (v / 16777216) with (v / 256 / 256 / 256) by (by rewrite !Z.div_div).
  assert (0 <= v / 256 / 256 / 256 < 256) by (rewrite !Z.div_div by lia; Z.div_mod_to_equations; lia).
  rewrite (Z.mod_small (v / 256 / 256 / 256)) by done.
  pose proof (Z.div_mod v 256 ltac:(lia)). pose proof (Z.div_mod (v / 256) 256 ltac:(lia)). pose proof (Z.div_mod (v / 256 / 256) 256 ltac:(lia)). lia.
Qed.
