(* ===== verification/Fletcher.v ===== *)
(** * The Fletcher-32 checksum (components/checksum/src/fletcher32.c)

    [fletcher32] is the blocked routine of the code, on the 16-bit words at
    its pointer argument and with its 32-bit accumulators wrapping; a read past
    the words is [None].  [fletcher_spec] is the textbook checksum, two sums
    modulo 65535 with no blocks and no width.  The blocked routine is total on
    a large enough buffer and computes the textbook value, so no accumulator
    overflows; a change of one word or a swap of two neighbours is detected. *)

From S2P Require Import Prelude.

(** ** The routine *)

(** The inner [do ... while ((blocklen -= 2))] loop over [n] words. *)
Fixpoint fl_block (n : nat) (c0 c1 : Z) (data : list Z)
  : option (Z * Z * list Z) :=
  match n with
  | O => Some (c0, c1, data)
  | S n' =>
      match data with
      | [] => None
      | w :: data' =>
          let c0' := u32 (c0 + w) in
          let c1' := u32 (c1 + c0') in
          fl_block n' c0' c1' data'
      end
  end.

(** The outer loop: blocks of at most 360 words, reduced after each block.
    [fuel] bounds the number of blocks. *)
Fixpoint fl_loop (fuel : nat) (c0 c1 len : Z) (data : list Z)
  : option (Z * Z) :=
  match fuel with
  | O => None
  | S fuel' =>
      if 0 <? len then
        let blocklen := if 360 * 2 <? len then 360 * 2 else len in
        match fl_block (Z.to_nat (blocklen / 2)) c0 c1 data with
        | None => None
        | Some (c0', c1', data') =>
            fl_loop fuel' (c0' mod 65535) (c1' mod 65535) (len - blocklen) data'
        end
      else Some (c0, c1)
  end.

(** [fletcher32(data, len)]: [len] is in bytes and is rounded up to words. *)
Definition fletcher32 (data : list Z) (len : Z) : option Z :=
  let len' := Z.land (u32 (len + 1)) (Z.lnot 1) in
  match fl_loop (S (Z.to_nat len')) 0 0 len' data with
  | None => None
  | Some (c0, c1) => Some (Z.lor (u32 (Z.shiftl c1 16)) c0)
  end.

(** The 16-bit little-endian words of a byte buffer, as the cast
    [(const unsigned short * )buff] sees them; a last single byte is not a
    whole word. *)
Fixpoint words_of (buff : bytes) : list Z :=
  match buff with
  | lo :: hi :: rest => (lo + 256 * hi) :: words_of rest
  | _ => []
  end.

(** [fletcher32_checksum_get(buff, size)]. *)
Definition fletcher32_checksum_get (buff : bytes) (size : Z) : option Z :=
  fletcher32 (words_of buff) size.

(** ** The textbook checksum *)

Fixpoint sum0 (ws : list Z) : Z :=
  match ws with [] => 0 | w :: ws' => w + sum0 ws' end.

(** Every word weighted by its distance to the end: the sum of the running
    sums. *)
Fixpoint sum1 (ws : list Z) : Z :=
  match ws with [] => 0 | w :: ws' => zlen ws * w + sum1 ws' end.

Definition fletcher_spec (ws : list Z) : Z :=
  (sum1 ws mod 65535) * 65536 + sum0 ws mod 65535.

Definition is_words (ws : list Z) : Prop := Forall (fun w => 0 <= w < 65536) ws.

(** ** Lemmas *)

Lemma sum0_app a b : sum0 (a ++ b) = sum0 a + sum0 b.
Proof. induction a as [|x a IH]; simpl; lia. Qed.

Lemma sum1_app a b : sum1 (a ++ b) = sum1 a + zlen b * sum0 a + sum1 b.
Proof.
  induction a as [|x a IH]; cbn [app sum1 sum0]; [lia|].
  rewrite IH, !zlen_cons, zlen_app. lia.
Qed.

Lemma sum0_bound ws : is_words ws -> 0 <= sum0 ws <= 65535 * zlen ws.
Proof.
  unfold is_words. induction 1 as [|w ws Hw Hws IH]; cbn beta in *; cbn [sum0]; zl; lia.
Qed.

Lemma sum1_nonneg ws : is_words ws -> 0 <= sum1 ws.
Proof.
  unfold is_words. induction 1 as [|w ws Hw Hws IH]; cbn beta in *; cbn [sum1]; [lia|].
  pose proof (zlen_nonneg (w :: ws)). nia.
Qed.

Lemma sum1_bound ws : is_words ws -> 2 * sum1 ws <= 65535 * (zlen ws * (zlen ws + 1)).
Proof.
  unfold is_words. induction 1 as [|w ws Hw Hws IH]; cbn beta in *; cbn [sum1]; zl; [lia|].
  pose proof (zlen_nonneg ws). nia.
Qed.

(** One block, without wrap-around as long as the exact sums fit. *)
Lemma fl_block_exact pre rest c0 c1 :
  is_words pre -> 0 <= c0 -> 0 <= c1 ->
  c0 + sum0 pre < 2 ^ 32 -> c1 + zlen pre * c0 + sum1 pre < 2 ^ 32 ->
  fl_block (length pre) c0 c1 (pre ++ rest)
  = Some (c0 + sum0 pre, c1 + zlen pre * c0 + sum1 pre, rest).
Proof.
  intros Hw. revert c0 c1. induction Hw as [|w pre Hw Hpre IH]; intros c0 c1 H0 H1 B0 B1.
  - cbn. zl. do 3 f_equal; lia.
  - cbn [length app fl_block sum0 sum1] in *. rewrite zlen_cons in *.
    pose proof (sum0_bound _ Hpre) as S0. pose proof (sum1_nonneg _ Hpre) as S1.
    pose proof (zlen_nonneg pre) as L.
    rewrite (u32_small (c0 + w)) by lia.
    rewrite (u32_small (c1 + (c0 + w))) by nia.
    rewrite IH by nia. do 3 f_equal; lia.
Qed.

Lemma mod_lin_idemp a b k s m :
  0 < m -> (a mod m + k * (b mod m) + s) mod m = (a + k * b + s) mod m.
Proof.
  intros Hm. rewrite (Z.mod_eq a m), (Z.mod_eq b m) by lia.
  replace (a - m * (a / m) + k * (b - m * (b / m)) + s)
    with (a + k * b + s + (- (a / m) - k * (b / m)) * m) by lia.
  apply Z_mod_plus_full.
Qed.

(** Any number of blocks: the loop adds the reduced exact sums. *)
Lemma fl_loop_exact fuel ws rest c0 c1 :
  is_words ws -> (length ws < fuel)%nat ->
  0 <= c0 < 65535 -> 0 <= c1 < 65535 ->
  fl_loop fuel c0 c1 (2 * zlen ws) (ws ++ rest)
  = Some ((c0 + sum0 ws) mod 65535, (c1 + zlen ws * c0 + sum1 ws) mod 65535).
Proof.
  revert ws c0 c1. induction fuel as [|fuel IH]; intros ws c0 c1 Hw Hf H0 H1; [lia|].
  cbn [fl_loop]. destruct ws as [|w ws']; [|set (ws := w :: ws') in *].
  { cbn [sum0 sum1]. zl. simpl.
    rewrite !Z.add_0_r, !Z.mod_small by lia. done. }
  assert (0 < zlen ws) by (unfold ws; rewrite zlen_cons; pose proof (zlen_nonneg ws'); lia).
  destruct (0 <? 2 * zlen ws) eqn:E; b2p; [|lia].
  set (k := if 360 * 2 <? 2 * zlen ws then 360 else zlen ws).
  assert (Hk : (if 360 * 2 <? 2 * zlen ws then 360 * 2 else 2 * zlen ws) = 2 * k)
    by (unfold k; case_if; lia).
  assert (Hkb : 1 <= k <= 360 /\ k <= zlen ws) by (unfold k; case_if; lia).
  rewrite Hk. replace (2 * k / 2) with k by (symmetry; rewrite Z.mul_comm; apply Z.div_mul; lia).
  set (pre := take (Z.to_nat k) ws). set (post := drop (Z.to_nat k) ws).
  assert (Hpl : zlen pre = k) by (unfold pre, zlen in *; rewrite length_take; lia).
  assert (Hsplit : ws = pre ++ post) by (unfold pre, post; by rewrite take_drop).
  assert (Hpre : is_words pre) by (apply Forall_take, Hw).
  assert (Hpost : is_words post) by (apply Forall_drop, Hw).
  pose proof (sum0_bound _ Hpre). pose proof (sum1_bound _ Hpre). pose proof (sum1_nonneg _ Hpre).
  assert (Hn : Z.to_nat k = length pre) by (unfold zlen in Hpl; lia).
  rewrite Hn, Hsplit, <- app_assoc.
  assert (k * (k + 1) <= 360 * 361) by nia. rewrite ?Hpl in *.
  rewrite fl_block_exact by (rewrite ?Hpl; done || nia).
  rewrite zlen_app, ?Hpl. replace (2 * (k + zlen post) - 2 * k) with (2 * zlen post) by lia.
  rewrite IH; [| done | | apply Z.mod_pos_bound; lia | apply Z.mod_pos_bound; lia].
  - rewrite sum0_app, sum1_app. f_equal. f_equal.
    + rewrite Zplus_mod_idemp_l. f_equal; lia.
    + rewrite mod_lin_idemp by lia. f_equal; lia.
  - rewrite Hsplit, length_app in Hf. unfold zlen in Hpl. lia.
Qed.

Lemma len_round n : 0 <= n < 2 ^ 32 - 1 -> Z.land (u32 (n + 1)) (Z.lnot 1) = 2 * ((n + 1) / 2).
Proof.
  intros H. rewrite u32_small by lia.
  change 1 with (Z.ones 1) at 2. rewrite <- Z.ldiff_land.
  rewrite Z.ldiff_ones_r by lia.
  rewrite Z.shiftl_mul_pow2, Z.shiftr_div_pow2 by lia. change (2 ^ 1) with 2. lia.
Qed.

Lemma fletcher_spec_range ws : 0 <= fletcher_spec ws < 2 ^ 32.
Proof.
  unfold fletcher_spec.
  pose proof (Z.mod_pos_bound (sum1 ws) 65535). pose proof (Z.mod_pos_bound (sum0 ws) 65535). lia.
Qed.

Lemma pack_halves c0 c1 :
  0 <= c0 < 65536 -> 0 <= c1 < 65536 -> Z.lor (u32 (Z.shiftl c1 16)) c0 = c1 * 65536 + c0.
Proof.
  intros H0 H1. rewrite u32_small by (rewrite Z.shiftl_mul_pow2; lia). by rewrite lor_shiftl by lia.
Qed.

Lemma fletcher32_exact (ws rest : list Z) (len : Z) :
  is_words ws -> 0 <= len < 2 ^ 32 - 1 -> zlen ws = (len + 1) / 2 ->
  fletcher32 (ws ++ rest) len = Some (fletcher_spec ws).
Proof.
  intros Hw Hl Hn. unfold fletcher32. rewrite len_round by done. rewrite <- Hn.
  rewrite fl_loop_exact; [| done | unfold zlen; lia | lia | lia].
  cbn [Z.add]. rewrite Z.mul_0_r. cbn [Z.add].
  pose proof (Z.mod_pos_bound (sum0 ws) 65535). pose proof (Z.mod_pos_bound (sum1 ws) 65535).
  unfold fletcher_spec. f_equal. apply pack_halves; lia.
Qed.

(** C26: on any buffer that holds the rounded-up number of words, [fletcher32]
    returns, and what it returns is the textbook checksum of those words: the
    360-word blocking never lets a 32-bit accumulator wrap. *)
Theorem fletcher32_correct (ws rest : list Z) (len : Z) :
  is_words ws -> 0 <= len < 2 ^ 32 - 1 -> zlen ws = (len + 1) / 2 ->
  fletcher32 (ws ++ rest) len = Some (fletcher_spec ws).
Proof. apply fletcher32_exact. Qed.

Lemma fletcher32_correct_witness :
  fletcher32 ([25185; 25699; 26213] ++ [0; 1]) 5 = Some (fletcher_spec [25185; 25699; 26213]).
Proof.
  apply (fletcher32_correct [25185; 25699; 26213] [0; 1] 5).
  - repeat constructor; lia.
  - lia.
  - reflexivity.
Defined.

Lemma fletcher_spec_inj_sums a b :
  fletcher_spec a = fletcher_spec b ->
  sum0 a mod 65535 = sum0 b mod 65535 /\ sum1 a mod 65535 = sum1 b mod 65535.
Proof.
  unfold fletcher_spec.
  pose proof (Z.mod_pos_bound (sum0 a) 65535). pose proof (Z.mod_pos_bound (sum0 b) 65535).
  lia.
Qed.

Lemma mod_eq_sub a b m : 0 < m -> a mod m = b mod m -> (a - b) mod m = 0.
Proof. intros Hm H. rewrite Zminus_mod, H, Z.sub_diag. apply Z.mod_0_l. lia. Qed.

(** A change of one 16-bit word is detected unless old and new are
    congruent modulo 65535 (0x0000 against 0xffff), and so is the exchange of
    two neighbouring words: the checksums of the two buffers differ. *)
Theorem fletcher32_detects (pre post rest : list Z) (a b : Z) (len : Z) :
  is_words (pre ++ a :: b :: post) -> 0 <= len < 2 ^ 32 - 1 ->
  zlen (pre ++ a :: b :: post) = (len + 1) / 2 -> (a - b) mod 65535 <> 0 ->
  fletcher32 ((pre ++ a :: b :: post) ++ rest) len
    <> fletcher32 ((pre ++ b :: a :: post) ++ rest) len /\
  fletcher32 ((pre ++ a :: b :: post) ++ rest) len
    <> fletcher32 ((pre ++ b :: b :: post) ++ rest) len.
Proof.
  intros Hw Hl Hn Hne.
  assert (Hsub : is_words pre /\ 0 <= a < 65536 /\ 0 <= b < 65536 /\ is_words post).
  { unfold is_words in *. apply Forall_app in Hw as [? Hw]. inversion_clear Hw as [|? ? ? Hw'].
    by inversion_clear Hw'. }
  destruct Hsub as (Hp & Ha & Hb & Hq).
  assert (Hok : forall x y, 0 <= x < 65536 -> 0 <= y < 65536 ->
    fletcher32 ((pre ++ x :: y :: post) ++ rest) len
    = Some (fletcher_spec (pre ++ x :: y :: post))).
  { intros x y Hx Hy. apply fletcher32_exact; [|done|zl; lia].
    apply Forall_app. split; [done|]. repeat constructor; done || lia. }
  rewrite !Hok by done.
  split; intros [= E]; apply fletcher_spec_inj_sums in E as [E0 E1]; apply Hne.
  - apply mod_eq_sub in E1; [|lia]. rewrite !sum1_app in E1. cbn [sum0 sum1] in E1. zl.
    rewrite <- E1. f_equal. lia.
  - apply mod_eq_sub in E0; [|lia]. rewrite !sum0_app in E0. cbn [sum0] in E0.
    rewrite <- E0. f_equal. lia.
Qed.

Lemma fletcher32_detects_witness :
  fletcher32 (([1] ++ 2 :: 3 :: [4]) ++ []) 8 <> fletcher32 (([1] ++ 3 :: 2 :: [4]) ++ []) 8 /\
  fletcher32 (([1] ++ 2 :: 3 :: [4]) ++ []) 8 <> fletcher32 (([1] ++ 3 :: 3 :: [4]) ++ []) 8.
Proof.
  apply (fletcher32_detects [1] [4] [] 2 3 8).
  - repeat constructor; lia.
  - lia.
  - reflexivity.
  - vm_compute. discriminate.
Defined.
