(* ===== verification/Flash.v ===== *)
(** * The SPI NOR flash device (include/kernel/spi-mem.h)

    The driver is not part of the repository, only its prototypes are.  Its
    operations are the class [Flash]; what the sector cache relies on is the
    class [FlashLaws]: a page program can only clear bits of the 256-byte page
    it addresses and a sector erase sets the 4096 bytes of its sector to 0xff,
    the semantics of the page-program (0x02) and 4-KiB-erase (0x20) commands the
    header lists.  [nor_flash] is a concrete device that satisfies the laws. *)

From S2P Require Import Prelude.

Definition PAGESIZE : Z := 256.
Definition SECTORSIZE : Z := 4096.

#[global] Arguments PAGESIZE : simpl never.
#[global] Arguments SECTORSIZE : simpl never.

Class Flash (D : Type) := {
  spi_mem_read : D -> Z -> Z -> bytes;
  spi_mem_write : D -> Z -> bytes -> D;
  spi_sector_erase : D -> Z -> D;
}.

Class FlashLaws (D : Type) `{Flash D} := {
  cell : D -> Z -> Z;
  cell_byte : forall d x, is_byte (cell d x);
  read_cells : forall d a n, 0 <= n -> spi_mem_read d a n = cells (cell d) a n;
  write_cells : forall d a bs x,
    a mod PAGESIZE = 0 -> zlen bs = PAGESIZE -> is_bytes bs ->
    cell (spi_mem_write d a bs) x
    = if (a <=? x) && (x <? a + PAGESIZE) then Z.land (cell d x) (bget bs (x - a))
      else cell d x;
  erase_cells : forall d a x,
    a mod SECTORSIZE = 0 ->
    cell (spi_sector_erase d a) x
    = if (a <=? x) && (x <? a + SECTORSIZE) then 255 else cell d x;
}.

#[export] Hint Resolve cell_byte : t2.

(** ** A concrete device: a memory of bytes *)

Definition nor_flash : Type := Z -> Z.

#[export] Instance nor_flash_ops : Flash nor_flash := {
  spi_mem_read d a n := cells (fun x => u8 (d x)) a n;
  spi_mem_write d a bs := fun x =>
    if (a <=? x) && (x <? a + zlen bs) then Z.land (u8 (d x)) (bget bs (x - a)) else d x;
  spi_sector_erase d a := fun x =>
    if (a <=? x) && (x <? a + SECTORSIZE) then 255 else d x;
}.

Lemma land_byte a b : is_byte a -> is_byte b -> is_byte (Z.land a b).
Proof.
  unfold is_byte. intros Ha Hb.
  replace b with (Z.land b (Z.ones 8))
    by (rewrite Z.land_ones by lia; apply Z.mod_small; lia).
  rewrite Z.land_assoc, Z.land_ones by lia. apply (Z.mod_pos_bound _ 256). lia.
Qed.

#[export] Hint Resolve land_byte : t2.

#[export] Program Instance nor_flash_laws : FlashLaws nor_flash := {
  cell d x := u8 (d x);
}.
Next Obligation. intros d x. apply u8_byte. Qed.
Next Obligation. done. Qed.
Next Obligation.
  intros d a bs x _ Hl Hb. cbn. rewrite Hl.
  case_if; [|done]. apply u8_small, land_byte; auto with t2.
Qed.
Next Obligation. intros d a x _. cbn. by case_if. Qed.
