(* ===== verification/SectorCache.v ===== *)
(** * The flash sector cache (components/utils/src/sector_cache.c)

    The write-back cache between the FOTA module and the flash: entries of one
    4096-byte sector with a state and a last-use time, and the programming of a
    sector with the fewest page programs and erases.  [SC] is the whole state
    of the file: the flash device, the entries and the number of times the
    system clock was read.  A failed [assert] is [None].

    The theorems: [check_program_state] decides exactly which pages change and
    whether an erase is needed; [sector_program] leaves the flash with the new
    sector when each page is blank or has programmed bytes at both parities,
    and loses a lone byte at an odd offset otherwise (the scan of
    [check_erased_state] steps by two); a one-entry cache refines a plain
    byte memory through read, write and flush; a two-entry cache does not. *)

From S2P Require Import Prelude Flash.

(** ** Data *)

Inductive sc_state := EMPTY | VALID | DIRTY.

#[export] Instance sc_state_eq_dec : EqDecision sc_state.
Proof. solve_decision. Defined.

Record sector_cache := mkEntry {
  c_address : Z;
  c_lru : Z;
  c_state : sc_state;
  c_data : bytes;
}.

(** An entry as [os_zalloc] leaves it. *)
Definition zero_sector : bytes := replicate (Z.to_nat SECTORSIZE) 0.
Definition blank_entry : sector_cache := mkEntry 0 0 EMPTY zero_sector.

#[global] Arguments zero_sector : simpl never.

Definition MUST_ERASE : Z := 2 ^ 32 - 1.

Definition BIT (n : Z) : Z := u32 (Z.shiftl 1 n).

(** [ALIGN(x, balign)] of include/kernel/cdefs.h. *)
Definition ALIGN (x balign : Z) : Z := Z.land (u32 (x + (balign - 1))) (Z.lnot (balign - 1)).

(** [time_before] of include/kernel/os.h: wrap-around order of timestamps. *)
Definition time_after (a b : Z) : bool := s32 (b - a) <? 0.
Definition time_before (a b : Z) : bool := time_after b a.

(** ** Programming one sector *)

(** The loop of [check_program_state] from [offset] on: [new] and [old] are
    the bytes not yet compared. *)
Fixpoint check_program_loop (new old : bytes) (offset program : Z) : Z :=
  match new, old with
  | n :: new', o :: old' =>
      let program' :=
        if negb (Z.land (Z.lnot n) o =? 0)
        then Z.lor program (BIT (offset / PAGESIZE)) else program in
      if negb (Z.land n (Z.lnot o) =? 0) then MUST_ERASE
      else check_program_loop new' old' (offset + 1) program'
  | _, _ => program
  end.

Definition check_program_state (new old : bytes) (len : Z) : Z :=
  check_program_loop (take (Z.to_nat len) new) (take (Z.to_nat len) old) 0 0.

(** The loop of [check_erased_state]: the body advances [offset] and so does
    the [for] header. *)
Fixpoint check_erased_loop (fuel : nat) (sector : bytes) (len offset program : Z) : Z :=
  match fuel with
  | O => program
  | S fuel' =>
      if offset <? len then
        if negb (bget sector offset =? 255) then
          check_erased_loop fuel' sector len
            (u32 (ALIGN (u32 (offset + 1)) PAGESIZE + 1))
            (Z.lor program (BIT (offset / PAGESIZE)))
        else
          check_erased_loop fuel' sector len (u32 (u32 (offset + 1) + 1)) program
      else program
  end.

Definition check_erased_state (sector : bytes) (len : Z) : Z :=
  check_erased_loop (S (Z.to_nat len)) sector len 0 0.

Section Cache.
Context {D : Type} `{Flash D}.
(** The value of the [n]-th call of [os_systime]. *)
Variable os_systime : nat -> Z.

Definition page_program (dev : D) (sector_address page_index : Z) (sector : bytes) : D :=
  spi_mem_write dev (u32 (sector_address + page_index * PAGESIZE))
    (take (Z.to_nat PAGESIZE) (drop (Z.to_nat (page_index * PAGESIZE)) sector)).

(** The loop over the page indices of a sector. *)
Definition program_pages (dev : D) (sector_address program : Z) (sector : bytes)
  (pages : list Z) : D :=
  fold_left (fun d page_index =>
      if negb (Z.land program (BIT page_index) =? 0)
      then page_program d sector_address page_index sector else d)
    pages dev.

Definition sector_program (dev : D) (sector_address : Z) (sector : bytes) (len : Z)
  : option D :=
  if negb (len <=? SECTORSIZE) then None
  else if negb (Z.land sector_address (SECTORSIZE - 1) =? 0) then None
  else
    let worksector := spi_mem_read dev sector_address SECTORSIZE in
    let program := check_program_state sector worksector len in
    let worksector := memcpy worksector 0 (take (Z.to_nat len) sector) in
    let '(dev, program) :=
      if program =? MUST_ERASE
      then (spi_sector_erase dev sector_address, check_erased_state worksector SECTORSIZE)
      else (dev, program) in
    Some (if negb (program =? 0)
          then program_pages dev sector_address program worksector
                 (seqZ 0 (SECTORSIZE / PAGESIZE))
          else dev).

(** ** The cache *)

Record SC := mkSC {
  sc_dev : D;
  sc_entries : list sector_cache;
  sc_clock : nat;
}.

Definition set_state (c : sector_cache) (s : sc_state) : sector_cache :=
  mkEntry (c_address c) (c_lru c) s (c_data c).

(** [sector_cache_flush(dev, c)] on the entry [c]. *)
Definition sector_cache_flush (dev : D) (c : sector_cache) : option (D * sector_cache) :=
  match c_state c with
  | DIRTY =>
      match sector_program dev (c_address c) (c_data c) SECTORSIZE with
      | None => None
      | Some dev' => Some (dev', set_state c VALID)
      end
  | _ => Some (dev, c)
  end.

Fixpoint flush_entries (dev : D) (cs : list sector_cache)
  : option (D * list sector_cache) :=
  match cs with
  | [] => Some (dev, [])
  | c :: cs' =>
      match sector_cache_flush dev c with
      | None => None
      | Some (dev1, c') =>
          match flush_entries dev1 cs' with
          | None => None
          | Some (dev2, cs'') => Some (dev2, c' :: cs'')
          end
      end
  end.

Definition sector_cache_flush_all (s : SC) : option SC :=
  match flush_entries (sc_dev s) (sc_entries s) with
  | None => None
  | Some (dev', cs') => Some (mkSC dev' cs' (sc_clock s))
  end.

(** [valid == NULL || time_before(c->lru, valid->lru)]. *)
Definition older (c : sector_cache) (best : option (nat * sector_cache)) : bool :=
  match best with
  | None => true
  | Some (_, b) => time_before (c_lru c) (c_lru b)
  end.

Fixpoint find_loop (cs : list sector_cache) (idx : nat)
  (valid dirty : option (nat * sector_cache)) : option nat :=
  match cs with
  | [] =>
      match valid with
      | Some (i, _) => Some i
      | None => match dirty with Some (i, _) => Some i | None => None end
      end
  | c :: cs' =>
      match c_state c with
      | EMPTY => Some idx
      | VALID =>
          find_loop cs' (S idx) (if older c valid then Some (idx, c) else valid) dirty
      | DIRTY =>
          find_loop cs' (S idx) valid (if older c dirty then Some (idx, c) else dirty)
      end
  end.

(** [sector_cache_find(dev, address)]: the address is not looked at. *)
Definition sector_cache_find (s : SC) (address : Z) : option nat :=
  find_loop (sc_entries s) 0 None None.

(** [sector_cache_load(dev, address)]: the index of the entry and the new
    state. *)
Definition sector_cache_load (s : SC) (address : Z) : option (nat * SC) :=
  let sector_address := Z.land address (u32 (Z.lnot (SECTORSIZE - 1))) in
  i ← sector_cache_find s sector_address;
  c ← sc_entries s !! i;
  '(dev, c) ←
    (if negb (c_address c =? sector_address)
     then sector_cache_flush (sc_dev s) c else Some (sc_dev s, c));
  let c :=
    if negb (c_address c =? sector_address) || bool_decide (c_state c = EMPTY)
    then mkEntry sector_address (c_lru c) VALID
           (spi_mem_read dev sector_address SECTORSIZE)
    else c in
  Some (i, mkSC dev (<[i := c]> (sc_entries s)) (sc_clock s)).

(** [c->lru = os_systime()]. *)
Definition touch (s : SC) (i : nat) (c : sector_cache) : SC :=
  mkSC (sc_dev s)
    (<[i := mkEntry (c_address c) (u32 (os_systime (sc_clock s))) (c_state c) (c_data c)]>
       (sc_entries s))
    (S (sc_clock s)).

(** [sector_cache_read(dev, address, data, len)]: the bytes put at [data].
    [fuel] bounds the number of sectors touched. *)
Fixpoint read_loop (fuel : nat) (s : SC) (address len : Z) : option (bytes * SC) :=
  if 0 <? len then
    match fuel with
    | O => None
    | S fuel' =>
        let offset := address mod SECTORSIZE in
        '(i, s) ← sector_cache_load s address;
        c ← sc_entries s !! i;
        let n := Z.min len (SECTORSIZE - offset) in
        let out := take (Z.to_nat n) (drop (Z.to_nat offset) (c_data c)) in
        '(rest, s) ← read_loop fuel' (touch s i c) (u32 (address + n)) (len - n);
        Some (out ++ rest, s)
    end
  else Some ([], s).

Definition sector_cache_read (s : SC) (address len : Z) : option (bytes * SC) :=
  read_loop (Z.to_nat len) s address len.

(** [sector_cache_write(dev, address, data, len)] with [len] the length of
    [data]. *)
Fixpoint write_loop (fuel : nat) (s : SC) (address : Z) (data : bytes) : option SC :=
  if 0 <? zlen data then
    match fuel with
    | O => None
    | S fuel' =>
        let offset := address mod SECTORSIZE in
        '(i, s) ← sector_cache_load s address;
        c ← sc_entries s !! i;
        let n := Z.min (zlen data) (SECTORSIZE - offset) in
        let c := mkEntry (c_address c) (c_lru c) DIRTY
                   (memcpy (c_data c) offset (take (Z.to_nat n) data)) in
        write_loop fuel' (touch s i c) (u32 (address + n)) (drop (Z.to_nat n) data)
    end
  else Some s.

Definition sector_cache_write (s : SC) (address : Z) (data : bytes) : option SC :=
  write_loop (length data) s address data.

(** [sector_cache_init()]: [size] is the boot argument (default 1) and
    [zalloc] tells which allocations succeed.  When both allocations fail the
    entries are absent although [sector_cache_size] is set: [None]. *)
Definition sector_cache_init (dev : D) (clock : nat) (size : Z) (zalloc : Z -> bool)
  : option SC :=
  let size := if size <? 1 then 1 else size in
  let sizeof := 4 + 4 + 4 + SECTORSIZE in
  if zalloc (size * sizeof) then
    Some (mkSC dev (replicate (Z.to_nat size) blank_entry) clock)
  else if (1 <? size) && zalloc (1 * sizeof) then
    Some (mkSC dev [blank_entry] clock)
  else None.
End Cache.

Arguments SC : clear implicits.

(** ** Which pages change *)

Lemma BIT_testbit q p : 0 <= q < 32 -> 0 <= p -> Z.testbit (BIT q) p = (p =? q).
Proof.
  intros Hq Hp. unfold BIT. rewrite Z.shiftl_1_l.
  rewrite u32_small by (split; [lia|apply Z.pow_lt_mono_r; lia]).
  rewrite Z.pow2_bits_eqb by lia. apply Z.eqb_sym.
Qed.

Lemma land_BIT x q : 0 <= q < 32 -> negb (Z.land x (BIT q) =? 0) = Z.testbit x q.
Proof.
  intros Hq. destruct (Z.testbit x q) eqn:E.
  - apply negb_true_iff, Z.eqb_neq. intros E0.
    assert (Hb : Z.testbit (Z.land x (BIT q)) q = true).
    { by rewrite Z.land_spec, E, BIT_testbit, Z.eqb_refl by lia. }
    by rewrite E0, Z.bits_0 in Hb.
  - apply negb_false_iff, Z.eqb_eq, Z.bits_inj'. intros p Hp.
    rewrite Z.land_spec, BIT_testbit, Z.bits_0 by lia.
    destruct (Z.eqb_spec p q) as [->|]; [by rewrite E|apply andb_false_r].
Qed.

Lemma land_lnot_sub n o : Z.land n (Z.lnot o) = 0 -> Z.land o n = n.
Proof.
  intros E. apply Z.bits_inj'. intros p Hp.
  assert (Z.testbit (Z.land n (Z.lnot o)) p = false) as Hb by (rewrite E; apply Z.bits_0).
  rewrite Z.land_spec, Z.lnot_spec in Hb by lia. rewrite Z.land_spec.
  destruct (Z.testbit n p), (Z.testbit o p); done.
Qed.

Lemma land_lnot_eq n o : Z.land n (Z.lnot o) = 0 -> Z.land (Z.lnot n) o = 0 <-> n = o.
Proof.
  intros E. split.
  - intros E'. rewrite Z.land_comm in E'. apply land_lnot_sub in E, E'.
    rewrite <- E. by rewrite Z.land_comm.
  - intros ->. rewrite Z.land_comm. apply Z.land_lnot_diag.
Qed.

(** A byte that has a bit the other does not have. *)
Definition sets_bit (n o : Z) : Prop := Z.land n (Z.lnot o) <> 0.

Lemma check_program_loop_spec new old offset program :
  length new = length old -> 0 <= offset -> offset + zlen new <= 4096 ->
  (forall i, 0 <= i < zlen new -> ~ sets_bit (bget new i) (bget old i)) ->
  forall p, 0 <= p ->
  Z.testbit (check_program_loop new old offset program) p = true <->
  Z.testbit program p = true \/
  exists i, 0 <= i < zlen new /\ (offset + i) / PAGESIZE = p /\ bget new i <> bget old i.
Proof.
  revert old offset program. induction new as [|n new IH]; intros [|o old] offset program Hl H0 Hle Hns p Hp;
    try done; cbn [check_program_loop].
  { split; [tauto|]. intros [?|(i & Hi & _)]; [done|]. zl. lia. }
  zl. assert (Hz := zlen_nonneg new).
  assert (Hn0 : Z.land n (Z.lnot o) = 0).
  { destruct (Z.eq_dec (Z.land n (Z.lnot o)) 0) as [|He]; [done|].
    exfalso. apply (Hns 0); [lia|exact He]. }
  rewrite Hn0. cbn [Z.eqb negb].
  rewrite IH; [|by injection Hl|lia|lia| |done].
  2:{ intros i Hi. specialize (Hns (i + 1)). unfold bget in Hns.
      replace (Z.to_nat (i + 1)) with (S (Z.to_nat i)) in Hns by lia. apply Hns. lia. }
  assert (Hhead : Z.testbit
      (if negb (Z.land (Z.lnot n) o =? 0) then Z.lor program (BIT (offset / PAGESIZE)) else program) p
      = true <-> Z.testbit program p = true \/ (offset / PAGESIZE = p /\ n <> o)).
  { pose proof (land_lnot_eq n o Hn0) as Heq.
    assert (0 <= offset / PAGESIZE < 32).
    { unfold PAGESIZE. split; [apply Z.div_pos; lia|apply Z.div_lt_upper_bound; lia]. }
    destruct (Z.eqb_spec (Z.land (Z.lnot n) o) 0); cbn [negb]; [tauto|].
    rewrite Z.lor_spec, BIT_testbit, orb_true_iff, Z.eqb_eq by lia. naive_solver. }
  rewrite Hhead. clear Hhead IH. split.
  - intros [[?|[Hq Hne]]|(i & Hi & Hq & Hne)]; [by left| |]; right.
    + exists 0. rewrite Z.add_0_r. split; [lia|done].
    + exists (i + 1). unfold bget in *. replace (Z.to_nat (i + 1)) with (S (Z.to_nat i)) by lia.
      split; [lia|]. split; [|done]. rewrite <- Hq. f_equal. lia.
  - intros [?|(i & Hi & Hq & Hne)]; [tauto|].
    destruct (Z.eq_dec i 0) as [->|].
    + left; right. rewrite Z.add_0_r in Hq. done.
    + right. exists (i - 1). unfold bget in *.
      replace (Z.to_nat i) with (S (Z.to_nat (i - 1))) in Hne by lia.
      split; [lia|]. split; [|done]. rewrite <- Hq. f_equal. lia.
Qed.

Lemma check_program_loop_erase new old offset program i :
  length new = length old -> 0 <= i < zlen new -> sets_bit (bget new i) (bget old i) ->
  check_program_loop new old offset program = MUST_ERASE.
Proof.
  revert old offset program i. induction new as [|n new IH]; intros [|o old] offset program i Hl Hi Hs;
    try done; zl; [lia|]. cbn [check_program_loop].
  destruct (Z.eqb_spec (Z.land n (Z.lnot o)) 0) as [E|]; cbn [negb]; [|done].
  destruct (Z.eq_dec i 0) as [->|]; [done|].
  apply (IH _ _ _ (i - 1)); [by injection Hl|lia|].
  unfold bget in *. by replace (Z.to_nat i) with (S (Z.to_nat (i - 1))) in Hs by lia.
Qed.

Lemma check_program_loop_small new old offset :
  length new = length old -> 0 <= offset -> offset + zlen new <= 4096 ->
  (forall i, 0 <= i < zlen new -> ~ sets_bit (bget new i) (bget old i)) ->
  check_program_loop new old offset 0 <> MUST_ERASE.
Proof.
  intros Hl H0 Hle Hns E.
  assert (Z.testbit (check_program_loop new old offset 0) 31 = true) as Hb by (rewrite E; done).
  apply check_program_loop_spec in Hb; try done.
  destruct Hb as [Hb|(i & Hi & Hq & _)]; [by rewrite Z.bits_0 in Hb|].
  assert ((offset + i) / PAGESIZE < 16) by (apply Z.div_lt_upper_bound; unfold PAGESIZE; lia). lia.
Qed.

Lemma sets_bit_dec_all (new old : bytes) :
  (exists i, 0 <= i < zlen new /\ sets_bit (bget new i) (bget old i)) \/
  (forall i, 0 <= i < zlen new -> ~ sets_bit (bget new i) (bget old i)).
Proof.
  destruct (decide (Exists (fun i => sets_bit (bget new i) (bget old i)) (seqZ 0 (zlen new)))) as [He|Hn].
  - left. apply Exists_exists in He as (i & Hi & Hs). apply elem_of_seqZ in Hi.
    exists i. split; [lia|done].
  - right. intros i Hi Hs. apply Hn, Exists_exists. exists i. split; [|done].
    apply elem_of_seqZ. lia.
Qed.

Lemma check_program_state_iff (new old : bytes) :
  zlen new = SECTORSIZE -> zlen old = SECTORSIZE ->
  (check_program_state new old SECTORSIZE = MUST_ERASE <->
   exists i, 0 <= i < SECTORSIZE /\ sets_bit (bget new i) (bget old i)) /\
  (check_program_state new old SECTORSIZE <> MUST_ERASE ->
   forall p, 0 <= p ->
   Z.testbit (check_program_state new old SECTORSIZE) p = true <->
   exists i, 0 <= i < SECTORSIZE /\ i / PAGESIZE = p /\ bget new i <> bget old i).
Proof.
  intros Hn Ho. unfold check_program_state.
  assert (length new = Z.to_nat SECTORSIZE /\ length old = Z.to_nat SECTORSIZE) as [Ln Lo]
    by (unfold zlen in *; lia).
  rewrite !take_ge by lia. rewrite <- Hn.
  assert (Hl : length new = length old) by lia.
  assert (Hle : 0 + zlen new <= 4096) by (rewrite Hn; unfold SECTORSIZE; lia).
  destruct (sets_bit_dec_all new old) as [Hex|Hall].
  - destruct Hex as (i & Hi & Hs). rewrite (check_program_loop_erase _ _ _ _ i) by done.
    split; [|done]. split; [eauto|done].
  - split.
    + split; [intros E|intros (i & Hi & Hs); by destruct (Hall i)].
      by apply check_program_loop_small in E.
    + intros _ p Hp. rewrite check_program_loop_spec by (done || lia).
      rewrite Z.bits_0. setoid_rewrite Z.add_0_l. naive_solver.
Qed.

(** On two 4096-byte sectors [check_program_state] answers [MUST_ERASE]
    exactly when some bit goes from 0 to 1, and otherwise answers the bit mask
    of exactly the pages in which a byte changes. *)
Theorem check_program_state_spec (new old : bytes) :
  zlen new = SECTORSIZE -> zlen old = SECTORSIZE ->
  (check_program_state new old SECTORSIZE = MUST_ERASE <->
   exists i, 0 <= i < SECTORSIZE /\ sets_bit (bget new i) (bget old i)) /\
  (check_program_state new old SECTORSIZE <> MUST_ERASE ->
   forall p, 0 <= p ->
   Z.testbit (check_program_state new old SECTORSIZE) p = true <->
   exists i, 0 <= i < SECTORSIZE /\ i / PAGESIZE = p /\ bget new i <> bget old i).
Proof. apply check_program_state_iff. Qed.

Definition sector_a : bytes := replicate (Z.to_nat SECTORSIZE) 255.
Definition sector_b : bytes := memcpy sector_a 700 [0].

Lemma check_program_state_spec_witness :
  check_program_state sector_b sector_a SECTORSIZE = 4 /\
  (check_program_state sector_b sector_a SECTORSIZE = MUST_ERASE <->
   exists i, 0 <= i < SECTORSIZE /\ sets_bit (bget sector_b i) (bget sector_a i)).
Proof.
  split; [vm_compute; reflexivity|].
  apply (check_program_state_spec sector_b sector_a); vm_compute; reflexivity.
Defined.

(** ** The scan of an erased sector *)

(** A page that the scan cannot miss: blank, or with a byte other than 0xff at
    an even and at an odd offset. *)
Definition nonblank_at (sector : bytes) (p parity : Z) : Prop :=
  exists i, 0 <= i < SECTORSIZE /\ i / PAGESIZE = p /\ i mod 2 = parity /\ bget sector i <> 255.

Definition blank_page (sector : bytes) (p : Z) : Prop :=
  forall i, 0 <= i < SECTORSIZE -> i / PAGESIZE = p -> bget sector i = 255.

Definition dense_page (sector : bytes) (p : Z) : Prop :=
  nonblank_at sector p 0 /\ nonblank_at sector p 1.

Definition programmable (sector : bytes) : Prop :=
  forall p, 0 <= p < SECTORSIZE / PAGESIZE -> blank_page sector p \/ dense_page sector p.

Lemma ALIGN_page x : 0 <= x < 2 ^ 31 -> ALIGN x PAGESIZE = 256 * ((x + 255) / 256).
Proof.
  intros Hx. unfold ALIGN, PAGESIZE. rewrite u32_small by lia.
  change (256 - 1) with (Z.ones 8). rewrite <- Z.ldiff_land, Z.ldiff_ones_r by lia.
  rewrite Z.shiftl_mul_pow2, Z.shiftr_div_pow2 by lia.
  change (2 ^ 8) with 256. change (Z.ones 8) with 255. lia.
Qed.

(** What the scan still owes a dense page: its bit, or a byte of the current
    parity at or after the current offset. *)
Definition scan_owes (sector : bytes) (offset program p : Z) : Prop :=
  Z.testbit program p = true \/
  exists i, offset <= i < SECTORSIZE /\ i / PAGESIZE = p /\
            i mod 2 = offset mod 2 /\ bget sector i <> 255.

Lemma scan_hit sector offset program p :
  0 <= p -> 0 <= offset < SECTORSIZE -> dense_page sector p -> scan_owes sector offset program p ->
  scan_owes sector (u32 (ALIGN (u32 (offset + 1)) PAGESIZE + 1))
    (Z.lor program (BIT (offset / PAGESIZE))) p.
Proof.
  intros Hp Ho Hd Hs. unfold SECTORSIZE, PAGESIZE in *.
  rewrite (u32_small (offset + 1)) by lia. rewrite ALIGN_page by lia.
  assert (0 <= offset / 256 < 16) by (split; [apply Z.div_pos|apply Z.div_lt_upper_bound]; lia).
  replace ((offset + 1 + 255) / 256) with (offset / 256 + 1)
    by (replace (offset + 1 + 255) with (offset + 1 * 256) by lia; symmetry; apply Z.div_add; lia).
  rewrite u32_small by lia. unfold scan_owes, PAGESIZE, SECTORSIZE in *.
  rewrite Z.lor_spec, BIT_testbit by lia.
  destruct (Z.eqb_spec p (offset / 256)) as [->|Hne]; [left; apply orb_true_r|].
  destruct Hs as [Hs|(i & Hi & Hq & _)]; [left; by rewrite Hs|].
  right. destruct Hd as [_ (j & Hj & Hjp & Hjm & Hjb)]. unfold PAGESIZE in Hjp.
  exists j. unfold SECTORSIZE in Hj.
  assert (offset / 256 <= i / 256) by (apply Z.div_le_mono; lia).
  pose proof (Z.div_mod j 256). pose proof (Z.mod_pos_bound j 256).
  replace ((256 * (offset / 256 + 1) + 1) mod 2) with 1.
  2:{ rewrite Z.add_comm. replace (256 * (offset / 256 + 1)) with (128 * (offset / 256 + 1) * 2) by lia.
      rewrite Z.mod_add by lia. done. }
  split; [|done]. split; [|lia].
  assert (256 * (offset / 256 + 1) <= j) by lia.
  destruct (Z.eq_dec j (256 * (offset / 256 + 1))) as [->|]; [|lia].
  exfalso. replace (256 * (offset / 256 + 1)) with (0 + 128 * (offset / 256 + 1) * 2) in Hjm by lia.
  rewrite Z.mod_add in Hjm by lia. done.
Qed.

Lemma scan_miss sector offset program p :
  0 <= offset < SECTORSIZE -> bget sector offset = 255 -> scan_owes sector offset program p ->
  scan_owes sector (u32 (u32 (offset + 1) + 1)) program p.
Proof.
  intros Ho Hb Hs. unfold SECTORSIZE in *. rewrite !u32_small by (rewrite ?u32_small; lia).
  destruct Hs as [Hs|(i & Hi & Hq & Hm & Hi255)]; [by left|right].
  exists i. split; [|split; [done|split; [|done]]].
  - destruct (Z.eq_dec i offset) as [->|]; [done|].
    destruct (Z.eq_dec i (offset + 1)) as [->|]; [|lia].
    exfalso. pose proof (Z.div_mod offset 2). pose proof (Z.div_mod (offset + 1) 2). lia.
  - rewrite Hm. replace (offset + 1 + 1) with (offset + 1 * 2) by lia. by rewrite Z.mod_add by lia.
Qed.

Lemma check_erased_loop_dense fuel sector offset program p :
  0 <= p -> 0 <= offset -> SECTORSIZE - offset < Z.of_nat fuel ->
  dense_page sector p -> scan_owes sector offset program p ->
  Z.testbit (check_erased_loop fuel sector SECTORSIZE offset program) p = true.
Proof.
  intros Hp. revert offset program. induction fuel as [|fuel IH]; intros offset program Ho Hf Hd Hs;
    cbn [check_erased_loop].
  - destruct Hs as [Hs|(i & Hi & _)]; [done|lia].
  - destruct (offset <? SECTORSIZE) eqn:E; b2p.
    2:{ destruct Hs as [Hs|(i & Hi & _)]; [done|lia]. }
    destruct (Z.eqb_spec (bget sector offset) 255) as [Hb|Hb]; cbn [negb].
    + apply IH; [apply u32_range| |done|by apply scan_miss].
      unfold SECTORSIZE in *. rewrite !u32_small by (rewrite ?u32_small; lia). lia.
    + apply IH; [apply u32_range| |done|by apply scan_hit].
      unfold SECTORSIZE in *. rewrite (u32_small (offset + 1)), ALIGN_page by lia.
      pose proof (Z.div_mod (offset + 1 + 255) 256). pose proof (Z.mod_pos_bound (offset + 1 + 255) 256).
      rewrite u32_small by lia. lia.
Qed.

Lemma check_erased_state_dense sector p :
  0 <= p < 16 -> dense_page sector p ->
  Z.testbit (check_erased_state sector SECTORSIZE) p = true.
Proof.
  intros Hp Hd. apply check_erased_loop_dense; [lia|lia|unfold SECTORSIZE; lia|done|].
  destruct Hd as [(i & Hi & Hq & Hm & Hb) _]. right. exists i. by rewrite Z.mod_0_l by lia.
Qed.

(** ** Programming a sector *)

Section Program.
Context {D : Type} `{FlashLaws D}.

Implicit Types (d : D) (a x prog : Z) (ws : bytes).

Lemma page_program_cells d a p ws x :
  0 <= a -> a mod SECTORSIZE = 0 -> a + SECTORSIZE <= 2 ^ 32 -> 0 <= p < 16 ->
  is_bytes ws -> zlen ws = SECTORSIZE ->
  cell (page_program d a p ws) x
  = if (a + p * PAGESIZE <=? x) && (x <? a + p * PAGESIZE + PAGESIZE)
    then Z.land (cell d x) (bget ws (x - a)) else cell d x.
Proof.
  intros Ha Hm Hb Hp Hw Hl. unfold page_program, PAGESIZE, SECTORSIZE in *.
  rewrite u32_small by lia.
  rewrite write_cells; unfold PAGESIZE.
  - case_if; [|done]. f_equal. unfold bget. rewrite nth_firstn, nth_skipn.
    rewrite (proj2 (Nat.ltb_lt _ _)) by lia. f_equal. lia.
  - pose proof (Z.div_mod a 4096). replace (a + p * 256) with (0 + (16 * (a / 4096) + p) * 256) by lia.
    by rewrite Z.mod_add by lia.
  - unfold zlen in *. rewrite length_take, length_drop. lia.
  - by apply Forall_take, Forall_drop.
Qed.

Lemma page_bounds a x p : a <= x ->
  (a + p * PAGESIZE <=? x) && (x <? a + p * PAGESIZE + PAGESIZE) = ((x - a) / PAGESIZE =? p).
Proof.
  intros Hx. unfold PAGESIZE. pose proof (Z.div_mod (x - a) 256). pose proof (Z.mod_pos_bound (x - a) 256).
  destruct (Z.eqb_spec ((x - a) / 256) p) as [<-|Hne].
  - apply andb_true_iff. rewrite Z.leb_le, Z.ltb_lt. lia.
  - apply andb_false_iff. rewrite Z.leb_gt, Z.ltb_ge. lia.
Qed.

(** The pages of the list whose bit is set are programmed, once each. *)
Lemma program_pages_cells d a prog ws pages x :
  0 <= a -> a mod SECTORSIZE = 0 -> a + SECTORSIZE <= 2 ^ 32 ->
  is_bytes ws -> zlen ws = SECTORSIZE -> Forall (fun p => 0 <= p < 16) pages -> NoDup pages ->
  cell (program_pages d a prog ws pages) x
  = if bool_decide (a <= x /\ (x - a) / PAGESIZE ∈ pages) && Z.testbit prog ((x - a) / PAGESIZE)
    then Z.land (cell d x) (bget ws (x - a)) else cell d x.
Proof.
  intros Ha Hm Hb Hw Hl Hp Hnd. revert d. induction pages as [|p pages IH]; intros d.
  { cbn. rewrite bool_decide_false by (intros [_ Hin]; by apply elem_of_nil in Hin). done. }
  apply Forall_cons in Hp as [Hp Hps]. apply NoDup_cons in Hnd as [Hni Hnd].
  unfold program_pages. cbn [fold_left]. fold (program_pages
    (if negb (Z.land prog (BIT p) =? 0) then page_program d a p ws else d) a prog ws pages).
  rewrite IH by done. rewrite land_BIT by lia.
  destruct (decide (a <= x)) as [Hx|Hx].
  2:{ rewrite !bool_decide_false by tauto. cbn [andb]. destruct (Z.testbit prog p); [|done].
      rewrite page_program_cells by done. unfold PAGESIZE.
      by rewrite (proj2 (Z.leb_gt _ _)) by lia. }
  set (q := (x - a) / PAGESIZE).
  assert (Hcell : cell (if Z.testbit prog p then page_program d a p ws else d) x
    = if Z.testbit prog p && (q =? p) then Z.land (cell d x) (bget ws (x - a)) else cell d x).
  { destruct (Z.testbit prog p); cbn [andb]; [|done].
    rewrite page_program_cells, page_bounds by done. done. }
  rewrite Hcell. clear Hcell. clearbody q. destruct (Z.eqb_spec q p) as [->|Hne].
  - rewrite (bool_decide_false (a <= x /\ p ∈ pages)) by tauto.
    rewrite (bool_decide_true (a <= x /\ p ∈ p :: pages)) by (split; [done|left]).
    rewrite andb_true_r. done.
  - rewrite andb_false_r.
    rewrite (bool_decide_ext (a <= x /\ q ∈ p :: pages) (a <= x /\ q ∈ pages)); [done|].
    rewrite elem_of_cons. tauto.
Qed.

Lemma all_pages_cells d a prog ws x :
  0 <= a -> a mod SECTORSIZE = 0 -> a + SECTORSIZE <= 2 ^ 32 -> is_bytes ws -> zlen ws = SECTORSIZE ->
  cell (program_pages d a prog ws (seqZ 0 (SECTORSIZE / PAGESIZE))) x
  = if (a <=? x) && (x <? a + SECTORSIZE) && Z.testbit prog ((x - a) / PAGESIZE)
    then Z.land (cell d x) (bget ws (x - a)) else cell d x.
Proof.
  intros. rewrite program_pages_cells; try done.
  - assert (Hin : bool_decide (a <= x /\ (x - a) / PAGESIZE ∈ seqZ 0 (SECTORSIZE / PAGESIZE))
                  = (a <=? x) && (x <? a + SECTORSIZE)); [|by rewrite Hin].
    apply eq_true_iff_eq.
    rewrite bool_decide_eq_true, elem_of_seqZ, andb_true_iff, Z.leb_le, Z.ltb_lt.
    unfold SECTORSIZE, PAGESIZE in *. change (4096 / 256) with 16.
    pose proof (Z.div_mod (x - a) 256). pose proof (Z.mod_pos_bound (x - a) 256). lia.
  - apply Forall_seqZ. change (SECTORSIZE / PAGESIZE) with 16. lia.
  - apply NoDup_seqZ.
Qed.

Lemma land_255 b : is_byte b -> Z.land 255 b = b.
Proof.
  intros Hb. rewrite Z.land_comm. change 255 with (Z.ones 8). rewrite Z.land_ones by lia.
  apply Z.mod_small. exact Hb.
Qed.

Lemma aligned_land a : 0 <= a -> (Z.land a (SECTORSIZE - 1) =? 0) = (a mod SECTORSIZE =? 0).
Proof.
  intros. unfold SECTORSIZE. change (4096 - 1) with (Z.ones 12). by rewrite Z.land_ones by lia.
Qed.

(** The sector to program and what the flash must hold for [sector_program]
    to be exact: no bit to set, or a sector the scan cannot miss. *)
Definition program_safe d a ws : Prop :=
  programmable ws \/ forall i, 0 <= i < SECTORSIZE -> ~ sets_bit (bget ws i) (cell d (a + i)).

Lemma page_index_range a x :
  a <= x -> x < a + SECTORSIZE -> 0 <= (x - a) / PAGESIZE < SECTORSIZE / PAGESIZE.
Proof.
  unfold PAGESIZE, SECTORSIZE. intros. change (4096 / 256) with 16.
  split; [apply Z.div_pos|apply Z.div_lt_upper_bound]; lia.
Qed.

(** The [if(program != 0)] block at the end of [sector_program]. *)
Lemma program_block_cells d a prog ws x :
  0 <= a -> a mod SECTORSIZE = 0 -> a + SECTORSIZE <= 2 ^ 32 -> is_bytes ws -> zlen ws = SECTORSIZE ->
  cell (if negb (prog =? 0) then program_pages d a prog ws (seqZ 0 (SECTORSIZE / PAGESIZE)) else d) x
  = if (a <=? x) && (x <? a + SECTORSIZE) && Z.testbit prog ((x - a) / PAGESIZE)
    then Z.land (cell d x) (bget ws (x - a)) else cell d x.
Proof.
  intros. destruct (Z.eqb_spec prog 0) as [->|]; cbn [negb].
  - by rewrite Z.bits_0, andb_false_r.
  - by apply all_pages_cells.
Qed.

(** Programming an erased sector with the mask of [check_erased_state]. *)
Lemma erased_program_cells a ws x :
  is_bytes ws -> programmable ws -> a <= x -> x < a + SECTORSIZE ->
  (if Z.testbit (check_erased_state ws SECTORSIZE) ((x - a) / PAGESIZE)
   then Z.land 255 (bget ws (x - a)) else 255) = bget ws (x - a).
Proof.
  intros Hw Hs H1 H2. pose proof (page_index_range a x H1 H2) as Hpg.
  destruct (Hs _ Hpg) as [Hblank|Hdense].
  - rewrite (Hblank (x - a)) by (done || lia). by case_if.
  - rewrite check_erased_state_dense by done. apply land_255. auto with t2.
Qed.

(** Programming in place with the mask of [check_program_state]. *)
Lemma inplace_program_cells d a ws x :
  zlen ws = SECTORSIZE -> a <= x -> x < a + SECTORSIZE ->
  let prog := check_program_state ws (cells (cell d) a SECTORSIZE) SECTORSIZE in
  prog <> MUST_ERASE ->
  (if Z.testbit prog ((x - a) / PAGESIZE)
   then Z.land (cell d x) (bget ws (x - a)) else cell d x) = bget ws (x - a).
Proof.
  intros Hl H1 H2 prog E. set (old := cells (cell d) a SECTORSIZE) in prog.
  assert (Hlo : zlen old = SECTORSIZE) by (apply zlen_cells; unfold SECTORSIZE; lia).
  destruct (check_program_state_iff ws old Hl Hlo) as [Herase Hpages]. fold prog in Herase, Hpages.
  assert (Ho : bget old (x - a) = cell d x).
  { unfold old. rewrite bget_cells by lia. f_equal. lia. }
  assert (Hn0 : Z.land (bget ws (x - a)) (Z.lnot (cell d x)) = 0).
  { destruct (Z.eq_dec (Z.land (bget ws (x - a)) (Z.lnot (cell d x))) 0) as [|Hne]; [done|].
    exfalso. apply E, Herase. exists (x - a). split; [lia|]. by rewrite Ho. }
  destruct (Z.testbit prog ((x - a) / PAGESIZE)) eqn:Eb; [by apply land_lnot_sub|].
  destruct (Z.eq_dec (bget ws (x - a)) (cell d x)) as [|Hne]; [done|]. exfalso.
  assert (Z.testbit prog ((x - a) / PAGESIZE) = true) as Hc; [|congruence].
  apply Hpages; [done|apply page_index_range; done|].
  exists (x - a). split; [lia|]. by rewrite Ho.
Qed.

Lemma memcpy_all (dst src : bytes) : zlen src = zlen dst -> memcpy dst 0 src = src.
Proof.
  intros. unfold memcpy. cbn [take Z.to_nat app Nat.add].
  rewrite drop_ge by (unfold zlen in *; lia). apply app_nil_r.
Qed.

Lemma sector_program_exact d a ws :
  0 <= a -> a mod SECTORSIZE = 0 -> a + SECTORSIZE <= 2 ^ 32 ->
  is_bytes ws -> zlen ws = SECTORSIZE -> program_safe d a ws ->
  exists d', sector_program d a ws SECTORSIZE = Some d' /\
    forall x, cell d' x = if (a <=? x) && (x <? a + SECTORSIZE) then bget ws (x - a) else cell d x.
Proof.
  intros Ha Hm Hb Hw Hl Hs. unfold sector_program.
  rewrite Z.leb_refl, aligned_land, Hm by done. cbn [negb Z.eqb].
  rewrite read_cells by (unfold SECTORSIZE; lia).
  assert (Hlo : zlen (cells (cell d) a SECTORSIZE) = SECTORSIZE)
    by (apply zlen_cells; unfold SECTORSIZE; lia).
  rewrite (take_ge ws), memcpy_all by (unfold zlen in *; lia).
  destruct (Z.eqb_spec (check_program_state ws (cells (cell d) a SECTORSIZE) SECTORSIZE) MUST_ERASE)
    as [E|E]; (eexists; split; [done|]); intros x; rewrite program_block_cells by done.
  - rewrite erase_cells by done.
    destruct ((a <=? x) && (x <? a + SECTORSIZE)) eqn:Ein; cbn [andb]; [|done]. b2p.
    apply erased_program_cells; try done. destruct Hs as [Hs|Hs]; [done|].
    apply (check_program_state_iff ws _ Hl Hlo) in E as (i & Hi & Hset).
    rewrite bget_cells in Hset by lia. by destruct (Hs i Hi).
  - destruct ((a <=? x) && (x <? a + SECTORSIZE)) eqn:Ein; cbn [andb]; [|done]. b2p.
    by apply inplace_program_cells.
Qed.

(** ** A sector whose data lies at odd offsets only *)

Lemma check_erased_loop_odd fuel sector offset :
  (forall i, 0 <= i < SECTORSIZE -> i mod 2 = 0 -> bget sector i = 255) ->
  0 <= offset -> offset mod 2 = 0 ->
  check_erased_loop fuel sector SECTORSIZE offset 0 = 0.
Proof.
  intros Hodd. revert offset. induction fuel as [|fuel IH]; intros offset Ho Hm;
    cbn [check_erased_loop]; [done|].
  destruct (offset <? SECTORSIZE) eqn:E; b2p; [|done].
  rewrite Hodd by lia. cbn [Z.eqb negb Pos.eqb].
  unfold SECTORSIZE in E. rewrite !u32_small by (rewrite ?u32_small; lia).
  apply IH; [lia|]. replace (offset + 1 + 1) with (offset + 1 * 2) by lia. by rewrite Z.mod_add by lia.
Qed.

End Program.

(** C7: [sector_program] on an aligned 4096-byte sector returns, and afterwards
    the flash holds the sector at its address and is unchanged elsewhere,
    provided no bit has to be set or every page of the sector is blank or has
    programmed bytes at an even and at an odd offset. *)
Theorem sector_program_correct {D : Type} `{FlashLaws D} (d : D) (a : Z) (ws : bytes) :
  0 <= a -> a mod SECTORSIZE = 0 -> a + SECTORSIZE <= 2 ^ 32 ->
  is_bytes ws -> zlen ws = SECTORSIZE -> program_safe d a ws ->
  exists d', sector_program d a ws SECTORSIZE = Some d' /\
    cells (cell d') a SECTORSIZE = ws /\
    forall x, x < a \/ a + SECTORSIZE <= x -> cell d' x = cell d x.
Proof.
  intros Ha Hm Hb Hw Hl Hs. destruct (sector_program_exact d a ws) as (d' & E & Hd'); try done.
  exists d'. split; [done|]. split.
  - apply bytes_ext; [rewrite length_cells; unfold zlen in Hl; lia|].
    rewrite zlen_cells by (unfold SECTORSIZE; lia). intros i Hi. rewrite bget_cells, Hd' by done.
    rewrite (proj2 (Z.leb_le _ _)), (proj2 (Z.ltb_lt _ _)) by lia. f_equal. lia.
  - intros x Hx. rewrite Hd'.
    destruct Hx; [rewrite (proj2 (Z.leb_gt _ _)) by lia|rewrite (proj2 (Z.ltb_ge _ _)) by lia];
      [done|by rewrite andb_false_r].
Qed.

Definition zero_flash : nor_flash := fun _ => 0.

(** A sector in which every byte is programmed. *)
Definition sector_full : bytes := replicate (Z.to_nat SECTORSIZE) 7.

Lemma bget_replicate n v i : 0 <= i < Z.of_nat n -> bget (replicate n v) i = v.
Proof.
  intros Hi. unfold bget. apply nth_lookup_Some. apply lookup_replicate. split; [done|lia].
Qed.

Lemma programmable_full : programmable sector_full.
Proof.
  intros p Hp. right. change (SECTORSIZE / PAGESIZE) with 16 in Hp.
  split; [exists (256 * p)|exists (256 * p + 1)]; unfold PAGESIZE, sector_full.
  - rewrite bget_replicate by (unfold SECTORSIZE; lia). split; [unfold SECTORSIZE; lia|].
    split; [rewrite Z.mul_comm; apply Z.div_mul; lia|]. split; [|lia].
    replace (256 * p) with (0 + 128 * p * 2) by lia. by rewrite Z.mod_add by lia.
  - rewrite bget_replicate by (unfold SECTORSIZE; lia). split; [unfold SECTORSIZE; lia|].
    split; [rewrite Z.add_comm, Z.mul_comm, Z.div_add by lia; done|]. split; [|lia].
    replace (256 * p + 1) with (1 + 128 * p * 2) by lia. by rewrite Z.mod_add by lia.
Qed.

Lemma is_bytes_replicate n v : is_byte v -> is_bytes (replicate n v).
Proof. intros. by apply Forall_replicate. Qed.

Lemma sector_program_correct_witness :
  exists d', sector_program zero_flash 8192 sector_full SECTORSIZE = Some d' /\
    cells (cell d') 8192 SECTORSIZE = sector_full /\
    forall x, x < 8192 \/ 8192 + SECTORSIZE <= x -> cell d' x = cell zero_flash x.
Proof.
  apply (sector_program_correct zero_flash 8192 sector_full).
  - lia.
  - reflexivity.
  - unfold SECTORSIZE; lia.
  - apply is_bytes_replicate. unfold is_byte; lia.
  - vm_compute; reflexivity.
  - left. apply programmable_full.
Defined.

(** When an erase is needed and every byte of the sector at an even offset
    is 0xff, [check_erased_state] finds nothing to program: the sector is left
    erased and every programmed byte of it (all at odd offsets) is lost. *)
Theorem sector_program_loses_odd {D : Type} `{FlashLaws D} (d : D) (a : Z) (ws : bytes) (k : Z) :
  0 <= a -> a mod SECTORSIZE = 0 -> zlen ws = SECTORSIZE ->
  (forall i, 0 <= i < SECTORSIZE -> i mod 2 = 0 -> bget ws i = 255) ->
  0 <= k < SECTORSIZE -> sets_bit (bget ws k) (cell d (a + k)) ->
  exists d', sector_program d a ws SECTORSIZE = Some d' /\
    forall x, a <= x < a + SECTORSIZE -> cell d' x = 255.
Proof.
  intros Ha Hm Hl Hodd Hk Hset. unfold sector_program.
  rewrite Z.leb_refl, aligned_land, Hm by done. cbn [negb Z.eqb].
  rewrite read_cells by (unfold SECTORSIZE; lia).
  assert (Hlo : zlen (cells (cell d) a SECTORSIZE) = SECTORSIZE)
    by (apply zlen_cells; unfold SECTORSIZE; lia).
  rewrite (take_ge ws), memcpy_all by (unfold zlen in *; lia).
  assert (E : check_program_state ws (cells (cell d) a SECTORSIZE) SECTORSIZE = MUST_ERASE).
  { apply (check_program_state_iff ws _ Hl Hlo). exists k. by rewrite bget_cells. }
  rewrite E, Z.eqb_refl. unfold check_erased_state. rewrite check_erased_loop_odd by done.
  cbn [negb Z.eqb]. eexists. split; [done|]. intros x Hx. rewrite erase_cells by done.
  rewrite (proj2 (Z.leb_le _ _)), (proj2 (Z.ltb_lt _ _)) by lia. done.
Qed.

(** One programmed byte, at offset 1. *)
Definition sector_lone : bytes := memcpy sector_a 1 [66].

Lemma sector_program_loses_odd_witness :
  bget sector_lone 1 = 66 /\
  exists d', sector_program zero_flash 4096 sector_lone SECTORSIZE = Some d' /\
    forall x, 4096 <= x < 4096 + SECTORSIZE -> cell d' x = 255.
Proof.
  split; [vm_compute; reflexivity|].
  apply (sector_program_loses_odd zero_flash 4096 sector_lone 2).
  - lia.
  - reflexivity.
  - vm_compute; reflexivity.
  - intros i Hi Hm. unfold sector_lone. rewrite bget_memcpy; [|lia| vm_compute; discriminate |lia].
    destruct ((1 <=? i) && (i <? 1 + zlen [66])) eqn:E; b2p.
    + change (zlen [66]) with 1 in *. assert (i = 1) as -> by lia. discriminate.
    + apply bget_replicate. unfold SECTORSIZE in *. lia.
  - unfold SECTORSIZE; lia.
  - vm_compute. discriminate.
Defined.

(** ** A one-entry cache is a byte memory *)

Section OneEntry.
Context {D : Type} `{FlashLaws D} (os_systime : nat -> Z).

Implicit Types (s : SC D) (c : sector_cache) (a x : Z).

Definition in_sector c x : bool :=
  negb (bool_decide (c_state c = EMPTY)) && ((c_address c <=? x) && (x <? c_address c + SECTORSIZE)).

(** What a read of address [x] is to return. *)
Definition view s x : Z :=
  match sc_entries s with
  | [c] => if in_sector c x then bget (c_data c) (x - c_address c) else cell (sc_dev s) x
  | _ => cell (sc_dev s) x
  end.

Definition sector_addr_ok a : Prop := 0 <= a /\ a mod SECTORSIZE = 0 /\ a + SECTORSIZE <= 2 ^ 32.

Record wf s c : Prop := {
  wf_entries : sc_entries s = [c];
  wf_len : zlen (c_data c) = SECTORSIZE;
  wf_bytes : is_bytes (c_data c);
  wf_addr : c_state c <> EMPTY -> sector_addr_ok (c_address c);
  wf_valid : c_state c = VALID ->
    forall i, 0 <= i < SECTORSIZE -> bget (c_data c) i = cell (sc_dev s) (c_address c + i);
  wf_dirty : c_state c = DIRTY -> programmable (c_data c);
}.

Lemma sector_base a : 0 <= a < 2 ^ 32 -> Z.land a (u32 (Z.lnot (SECTORSIZE - 1))) = a - a mod SECTORSIZE.
Proof.
  intros Ha. change (u32 (Z.lnot (SECTORSIZE - 1))) with (Z.land (Z.ones 32) (Z.lnot (Z.ones 12))).
  rewrite Z.land_assoc, Z.land_ones, Z.mod_small, <- Z.ldiff_land, Z.ldiff_ones_r by lia.
  rewrite Z.shiftl_mul_pow2, Z.shiftr_div_pow2 by lia. change (2 ^ 12) with 4096. unfold SECTORSIZE.
  pose proof (Z.div_mod a 4096). lia.
Qed.

Lemma sector_base_ok a : 0 <= a < 2 ^ 32 -> sector_addr_ok (a - a mod SECTORSIZE).
Proof.
  intros Ha. unfold sector_addr_ok, SECTORSIZE. pose proof (Z.div_mod a 4096).
  pose proof (Z.mod_pos_bound a 4096). replace (a - a mod 4096) with (0 + a / 4096 * 4096) by lia.
  rewrite Z.mod_add by lia. split; [lia|]. split; [done|].
  assert (a / 4096 < 2 ^ 20) by (apply Z.div_lt_upper_bound; lia). lia.
Qed.

Lemma find_one s c a : sc_entries s = [c] -> sector_cache_find s a = Some 0%nat.
Proof. intros E. unfold sector_cache_find. rewrite E. cbn. by destruct (c_state c). Qed.

(** Flushing the entry moves its sector to the flash. *)
Lemma flush_one s c : wf s c ->
  exists d' c', sector_cache_flush (sc_dev s) c = Some (d', c') /\
    wf (mkSC d' [c'] (sc_clock s)) c' /\ c_address c' = c_address c /\
    c_state c' <> DIRTY /\ (c_state c' = EMPTY <-> c_state c = EMPTY) /\
    forall x, cell d' x = view s x.
Proof.
  intros [He Hl Hb Ha Hv Hd]. unfold sector_cache_flush, view. rewrite He.
  destruct (c_state c) eqn:Es.
  - exists (sc_dev s), c. split; [done|]. rewrite Es. split; [by constructor; cbn; rewrite ?Es; auto|].
    unfold in_sector. rewrite Es, bool_decide_true by done. done.
  - exists (sc_dev s), c. split; [done|]. rewrite Es. split; [by constructor; cbn; rewrite ?Es; auto|].
    repeat (split; [done|]). intros x. case_if; [|done]. unfold in_sector in E. b2p.
    rewrite Hv by (done || lia). f_equal. lia.
  - destruct (Ha ltac:(done)) as (Ha0 & Ham & Hab).
    destruct (sector_program_exact (sc_dev s) (c_address c) (c_data c)) as (d' & -> & Hd'); try done.
    { by left; apply Hd. }
    assert (Hin : forall x, in_sector c x = (c_address c <=? x) && (x <? c_address c + SECTORSIZE)).
    { intros x. unfold in_sector. by rewrite Es, bool_decide_false. }
    exists d', (set_state c VALID). split; [done|]. split; [|repeat split; try done].
    + constructor; cbn; try done. intros _ i Hi. rewrite Hd'.
      rewrite (proj2 (Z.leb_le _ _)), (proj2 (Z.ltb_lt _ _)) by lia. cbn [andb]. f_equal. lia.
    + intros x. by rewrite Hd', Hin.
Qed.

Lemma wf_fresh d k a lru :
  sector_addr_ok a ->
  wf (mkSC d [mkEntry a lru VALID (spi_mem_read d a SECTORSIZE)] k)
     (mkEntry a lru VALID (spi_mem_read d a SECTORSIZE)).
Proof.
  intros Ha. rewrite read_cells by (unfold SECTORSIZE; lia).
  constructor; cbn [c_data c_state c_address sc_dev sc_entries]; [done| | |done| |done].
  - apply zlen_cells. unfold SECTORSIZE; lia.
  - apply Forall_forall. intros y Hy. unfold cells in Hy. apply list_elem_of_In, in_map_iff in Hy.
    destruct Hy as (z & <- & _). apply cell_byte.
  - intros _ i Hi. by rewrite bget_cells.
Qed.

Lemma view_fresh d k a lru x :
  view (mkSC d [mkEntry a lru VALID (spi_mem_read d a SECTORSIZE)] k) x = cell d x.
Proof.
  unfold view. cbn. case_if; [|done]. unfold in_sector in E. cbn in E. b2p.
  rewrite read_cells, bget_cells by (unfold SECTORSIZE in *; lia). f_equal. lia.
Qed.

(** After a load the entry holds the sector of the address and no read
    changes. *)
Lemma load_one s c a : wf s c -> 0 <= a < 2 ^ 32 ->
  exists s' c', sector_cache_load s a = Some (0%nat, s') /\ wf s' c' /\
    c_address c' = a - a mod SECTORSIZE /\ c_state c' <> EMPTY /\ forall x, view s' x = view s x.
Proof.
  intros Hwf Ha. unfold sector_cache_load. rewrite sector_base by done.
  pose proof (sector_base_ok a Ha) as Hsa. set (sa := a - a mod SECTORSIZE) in *.
  pose proof (wf_entries _ _ Hwf) as He. rewrite (find_one s c) by done. rewrite He. simpl.
  destruct (Z.eqb_spec (c_address c) sa) as [Eq|Ne]; simpl.
  - rewrite Eq, Z.eqb_refl. simpl. destruct (decide (c_state c = EMPTY)) as [Es|Es].
    + rewrite bool_decide_true by done. eexists _, _. split; [done|]. split; [by apply wf_fresh|].
      split; [done|]. split; [done|]. intros x. rewrite view_fresh. unfold view, in_sector.
      by rewrite He, Es, bool_decide_true.
    + rewrite bool_decide_false by done. exists (mkSC (sc_dev s) [c] (sc_clock s)), c.
      split; [done|]. replace (mkSC (sc_dev s) [c] (sc_clock s)) with s by (destruct s; cbn in *; congruence).
      done.
  - destruct (flush_one s c Hwf) as (d' & c' & -> & Hwf' & Hca & _ & _ & Hcell).
    simpl. rewrite Hca, (proj2 (Z.eqb_neq _ _)) by done. simpl.
    eexists _, _. split; [done|]. split; [by apply wf_fresh|]. split; [done|]. split; [done|].
    intros x. by rewrite view_fresh, Hcell.
Qed.

Lemma wf_touch s c : wf s c ->
  exists c', wf (touch os_systime s 0 c) c' /\ forall x, view (touch os_systime s 0 c) x = view s x.
Proof.
  intros [He Hl Hb Ha Hv Hd]. eexists. unfold touch, view. rewrite He. cbn.
  split; [by constructor; cbn; auto|]. done.
Qed.

Lemma view_in_sector s c x :
  wf s c -> c_state c <> EMPTY -> c_address c <= x < c_address c + SECTORSIZE ->
  view s x = bget (c_data c) (x - c_address c).
Proof.
  intros Hwf Hs Hx. unfold view, in_sector. rewrite (wf_entries _ _ Hwf).
  rewrite bool_decide_false by done.
  by rewrite (proj2 (Z.leb_le _ _)), (proj2 (Z.ltb_lt _ _)) by lia.
Qed.

Lemma offset_range a : 0 <= a mod SECTORSIZE < SECTORSIZE.
Proof. apply Z.mod_pos_bound. unfold SECTORSIZE. lia. Qed.

Lemma read_loop_one fuel s c a len :
  wf s c -> 0 <= a -> 0 <= len -> a + len <= 2 ^ 32 -> len <= Z.of_nat fuel ->
  exists s' c', read_loop os_systime fuel s a len = Some (cells (view s) a len, s') /\
    wf s' c' /\ forall x, view s' x = view s x.
Proof.
  revert s c a len. induction fuel as [|fuel IH]; intros s c a len Hwf Ha Hl Hal Hf.
  { assert (len = 0) as -> by lia. simpl. eauto. }
  simpl. destruct (0 <? len) eqn:E; b2p.
  2:{ assert (len = 0) as -> by lia. eauto. }
  destruct (load_one s c a Hwf ltac:(lia)) as (s1 & c1 & -> & Hwf1 & Ha1 & Hs1 & Hv1). simpl.
  rewrite (wf_entries _ _ Hwf1). simpl. pose proof (offset_range a) as Ho.
  set (n := Z.min len (SECTORSIZE - a mod SECTORSIZE)).
  assert (Hn : 1 <= n <= len) by (unfold n; lia).
  destruct (wf_touch s1 c1 Hwf1) as (c2 & Hwf2 & Hv2).
  assert (Hout : take (Z.to_nat n) (drop (Z.to_nat (a mod SECTORSIZE)) (c_data c1)) = cells (view s) a n).
  { rewrite take_drop_cells by (rewrite ?(wf_len _ _ Hwf1); lia).
    apply cells_shift. intros i Hi. rewrite <- Hv1.
    rewrite (view_in_sector s1 c1) by (done || lia). f_equal. lia. }
  rewrite Hout.
  assert (Hrest : exists s3 c3, read_loop os_systime fuel (touch os_systime s1 0 c1) (u32 (a + n)) (len - n)
    = Some (cells (view s) (a + n) (len - n), s3) /\ wf s3 c3 /\ forall x, view s3 x = view s x).
  { destruct (Z.eq_dec (len - n) 0) as [E0|].
    - exists (touch os_systime s1 0 c1), c2. rewrite E0. split; [|split; [done|by intros; rewrite Hv2, Hv1]].
      by destruct fuel.
    - rewrite u32_small by lia. destruct (IH _ c2 (a + n) (len - n) Hwf2) as (s3 & c3 & -> & ? & Hv3); try lia.
      exists s3, c3. split; [|split; [done|by intros; rewrite Hv3, Hv2, Hv1]].
      do 2 f_equal. apply cells_ext. intros. by rewrite Hv2, Hv1. }
  destruct Hrest as (s3 & c3 & -> & ? & ?). simpl. exists s3, c3. split; [|done].
  rewrite <- cells_app by lia. do 3 f_equal. lia.
Qed.

(** The sectors a write reaches hold, once it is done, data that the flash
    programming cannot lose. *)
Definition write_storable (f : Z -> Z) (a : Z) (data : bytes) : Prop :=
  forall sb, sb mod SECTORSIZE = 0 -> sb < a + zlen data -> a < sb + SECTORSIZE ->
  programmable (cells (overlay f a data) sb SECTORSIZE).

Lemma programmable_ext l1 l2 : l1 = l2 -> programmable l1 -> programmable l2.
Proof. by intros ->. Qed.

(** One round of the write loop: the piece that falls in the sector. *)
Lemma write_piece s1 c1 a piece :
  wf s1 c1 -> c_address c1 = a - a mod SECTORSIZE -> c_state c1 <> EMPTY -> is_bytes piece ->
  0 < zlen piece -> a mod SECTORSIZE + zlen piece <= SECTORSIZE ->
  programmable (cells (overlay (view s1) a piece) (a - a mod SECTORSIZE) SECTORSIZE) ->
  let c2 := mkEntry (c_address c1) (c_lru c1) DIRTY (memcpy (c_data c1) (a mod SECTORSIZE) piece) in
  exists c3, wf (touch os_systime s1 0 c2) c3 /\
    forall x, view (touch os_systime s1 0 c2) x = overlay (view s1) a piece x.
Proof.
  intros Hwf Ha Hs Hb Hp Ho Hprog c2. pose proof (offset_range a) as Hr.
  destruct (wf_addr _ _ Hwf Hs) as (? & ? & ?). pose proof (wf_len _ _ Hwf) as Hlen.
  assert (Hl2 : zlen (c_data c2) = SECTORSIZE).
  { unfold c2, zlen in *. cbn [c_data]. rewrite length_memcpy; unfold zlen; lia. }
  assert (Hview : forall x, c_address c1 <= x < c_address c1 + SECTORSIZE ->
    bget (c_data c2) (x - c_address c1) = overlay (view s1) a piece x).
  { intros x Hx. unfold c2, overlay. cbn [c_data]. rewrite bget_memcpy by lia.
    rewrite (view_in_sector s1 c1) by done.
    replace (a mod SECTORSIZE <=? x - c_address c1) with (a <=? x)
      by (apply eq_true_iff_eq; rewrite !Z.leb_le; lia).
    replace (x - c_address c1 <? a mod SECTORSIZE + zlen piece) with (x <? a + zlen piece)
      by (apply eq_true_iff_eq; rewrite !Z.ltb_lt; lia).
    destruct ((a <=? x) && (x <? a + zlen piece)); [|done]. f_equal. lia. }
  eexists. unfold touch at 1. rewrite (wf_entries _ _ Hwf). split.
  - constructor; cbn [sc_entries sc_dev c_data c_state c_address c2]; try done.
    + apply Forall_app. split; [by apply Forall_take, (wf_bytes _ _ Hwf)|]. apply Forall_app.
      split; [done|by apply Forall_drop, (wf_bytes _ _ Hwf)].
    + intros _. revert Hprog. apply programmable_ext. apply bytes_ext; cbn [c_data].
      { rewrite length_cells. unfold c2, zlen in Hl2. cbn [c_data] in *. lia. }
      rewrite zlen_cells by (unfold SECTORSIZE; lia). intros i Hi. rewrite bget_cells by lia.
      rewrite <- Ha, <- Hview by lia. unfold c2. cbn [c_data]. f_equal. lia.
  - intros x. unfold view at 1, touch. rewrite (wf_entries _ _ Hwf). cbn.
    unfold in_sector. cbn.
    destruct ((c_address c1 <=? x) && (x <? c_address c1 + SECTORSIZE)) eqn:E; b2p.
    + by rewrite <- Hview.
    + unfold overlay, view. rewrite (wf_entries _ _ Hwf). unfold in_sector. rewrite E.
      destruct ((a <=? x) && (x <? a + zlen piece)) eqn:E1; b2p.
      * exfalso. apply andb_false_iff in E as [E|E]; b2p; lia.
      * by rewrite !andb_false_r.
Qed.

Lemma write_loop_one fuel s c a data :
  wf s c -> 0 <= a -> a + zlen data <= 2 ^ 32 -> zlen data <= Z.of_nat fuel -> is_bytes data ->
  write_storable (view s) a data ->
  exists s' c', write_loop os_systime fuel s a data = Some s' /\
    wf s' c' /\ forall x, view s' x = overlay (view s) a data x.
Proof.
  revert s c a data. induction fuel as [|fuel IH]; intros s c a data Hwf Ha Hal Hf Hb Hst;
    assert (Hz := zlen_nonneg data); simpl; destruct (0 <? zlen data) eqn:E; b2p; try lia.
  1,3: assert (zlen data = 0) as E0 by lia; exists s, c; split; [done|]; split; [done|];
       intros x; unfold overlay; rewrite E0; case_if; [lia|done].
  destruct (load_one s c a Hwf ltac:(lia)) as (s1 & c1 & -> & Hwf1 & Ha1 & Hs1 & Hv1). simpl.
  rewrite (wf_entries _ _ Hwf1). simpl. pose proof (offset_range a) as Ho.
  set (n := Z.min (zlen data) (SECTORSIZE - a mod SECTORSIZE)).
  assert (Hn : 1 <= n <= zlen data) by (unfold n; lia).
  assert (Hp : zlen (take (Z.to_nat n) data) = n) by (apply zlen_take; lia).
  destruct (write_piece s1 c1 a (take (Z.to_nat n) data)) as (c3 & Hwf3 & Hv3);
    rewrite ?Hp; try done; try (unfold n; lia).
  { by apply Forall_take. }
  { eapply programmable_ext; [|apply (Hst (a - a mod SECTORSIZE))];
      [|destruct (sector_base_ok a) as (_ & ? & _); [lia|done]|lia|lia].
    apply cells_ext. intros x Hx. unfold overlay. rewrite Hp, Hv1.
    destruct (Z.leb_spec a x), (Z.ltb_spec x (a + n)), (Z.ltb_spec x (a + zlen data)); cbn [andb];
      try done; try lia.
    by rewrite bget_take by lia. }
  assert (Hsame : forall x, overlay (overlay (view s1) a (take (Z.to_nat n) data)) (a + n)
    (drop (Z.to_nat n) data) x = overlay (view s) a data x).
  { intros x. rewrite overlay_split by lia. by apply overlay_ext. }
  destruct (Z.eq_dec (zlen data - n) 0) as [E0|].
  - exists (touch os_systime s1 0 (mkEntry (c_address c1) (c_lru c1) DIRTY
      (memcpy (c_data c1) (a mod SECTORSIZE) (take (Z.to_nat n) data)))), c3.
    split; [destruct fuel; cbn; rewrite zlen_drop by lia; by rewrite E0|]. split; [done|].
    intros x. rewrite Hv3, <- Hsame. unfold overlay at 2. rewrite zlen_drop by lia.
    case_if; [lia|done].
  - rewrite u32_small by lia.
    destruct (IH _ c3 (a + n) (drop (Z.to_nat n) data) Hwf3) as (s4 & c4 & -> & ? & Hv4);
      rewrite ?zlen_drop by lia; try lia.
    { by apply Forall_drop. }
    { intros sb Hm H1 H2. rewrite zlen_drop in H1 by lia.
      eapply programmable_ext; [|apply (Hst sb Hm); lia]. apply cells_ext. intros x _.
      rewrite <- Hsame. symmetry. by apply overlay_ext. }
    exists s4, c4. split; [done|]. split; [done|]. intros x. rewrite Hv4, <- Hsame.
    by apply overlay_ext.
Qed.

Lemma flush_all_one s c : wf s c ->
  exists s' c', sector_cache_flush_all s = Some s' /\ wf s' c' /\ c_state c' <> DIRTY /\
    forall x, view s' x = view s x /\ cell (sc_dev s') x = view s x.
Proof.
  intros Hwf. unfold sector_cache_flush_all. rewrite (wf_entries _ _ Hwf). simpl.
  destruct (flush_one s c Hwf) as (d' & c' & -> & Hwf' & _ & Hnd & _ & Hcell). simpl.
  exists (mkSC d' [c'] (sc_clock s)), c'. split; [done|]. split; [done|]. split; [done|].
  intros x. split; [|apply Hcell]. destruct (flush_one _ _ Hwf') as (d2 & c2 & E & _ & _ & _ & _ & Hc2).
  rewrite <- Hc2. unfold sector_cache_flush in E. simpl in E. destruct (c_state c') eqn:Es; [| |done];
    injection E as <- <-; apply Hcell.
Qed.
End OneEntry.

(** ** What the cache promises to its clients *)

(** A store of bytes with a volatile view and a durable content.  [st_storable]
    is the condition on the sectors a write reaches. *)
Class SectorStore (S : Type) := {
  st_write : S -> Z -> bytes -> option S;
  st_flush_all : S -> option S;
  st_view : S -> Z -> Z;
  st_flash : S -> Z -> Z;
  st_ok : S -> Prop;
  st_write_spec : forall s a data,
    st_ok s -> 0 <= a -> a + zlen data <= 2 ^ 32 -> is_bytes data ->
    write_storable (st_view s) a data ->
    exists s', st_write s a data = Some s' /\ st_ok s' /\
      forall x, st_view s' x = overlay (st_view s) a data x;
  st_flush_spec : forall s, st_ok s ->
    exists s', st_flush_all s = Some s' /\ st_ok s' /\
      forall x, st_view s' x = st_view s x /\ st_flash s' x = st_view s x;
}.

(** The cache with one entry keeps the promise, over any flash and clock. *)
#[export] Program Instance one_entry_store {D : Type} `{FlashLaws D} (os_systime : nat -> Z)
  : SectorStore (SC D) := {
  st_write := sector_cache_write os_systime;
  st_flush_all := sector_cache_flush_all;
  st_view := view;
  st_flash s := cell (sc_dev s);
  st_ok s := exists c, wf s c;
}.
Next Obligation.
  intros D ? ? clk s a data [c Hwf] Ha Hal Hb Hst. unfold sector_cache_write.
  destruct (write_loop_one clk (length data) s c a data) as (s' & c' & E & Hwf' & Hv); try done.
  exists s'. split; [done|]. split; [by exists c'|done].
Qed.
Next Obligation.
  intros D ? ? clk s [c Hwf]. destruct (flush_all_one s c Hwf) as (s' & c' & E & Hwf' & _ & Hv).
  exists s'. split; [done|]. split; [by exists c'|done].
Qed.

Lemma init_one {D : Type} `{FlashLaws D} (d : D) clk size zalloc s :
  size <= 1 -> sector_cache_init d clk size zalloc = Some s ->
  exists c, wf s c /\ forall x, view s x = cell d x.
Proof.
  intros Hs. unfold sector_cache_init.
  replace (if size <? 1 then 1 else size) with 1 by (case_if; lia).
  cbn [Z.ltb Z.compare Pos.compare Pos.compare_cont andb]. case_if; [|done]. intros [= <-].
  exists blank_entry. split.
  - constructor; try done. apply is_bytes_replicate. unfold is_byte. lia.
  - intros x. unfold view. change (Z.to_nat 1) with 1%nat. cbn [replicate sc_entries].
    unfold in_sector. rewrite bool_decide_true by done. done.
Qed.

(** With the default cache size of one sector, a write followed by a read
    of any range returns the written bytes laid over what reads returned
    before; both calls return. *)
Theorem cache_read_after_write {D : Type} `{FlashLaws D} (clk : nat -> Z) (s : SC D)
    (c : sector_cache) (a : Z) (data : bytes) (b len : Z) :
  wf s c -> 0 <= a -> a + zlen data <= 2 ^ 32 -> is_bytes data ->
  write_storable (view s) a data -> 0 <= b -> 0 <= len -> b + len <= 2 ^ 32 ->
  exists s1 s2, sector_cache_write clk s a data = Some s1 /\
    sector_cache_read clk s1 b len = Some (cells (overlay (view s) a data) b len, s2).
Proof.
  intros Hwf Ha Hal Hb Hst Hb0 Hl0 Hbl. unfold sector_cache_write, sector_cache_read.
  destruct (write_loop_one clk (length data) s c a data) as (s1 & c1 & E1 & Hwf1 & Hv1); try done.
  destruct (read_loop_one clk (Z.to_nat len) s1 c1 b len) as (s2 & c2 & E2 & _ & _); try done; [lia|].
  exists s1, s2. split; [done|]. rewrite E2. do 2 f_equal. by apply cells_ext.
Qed.

(** C6: starting from [sector_cache_init] with one sector, a write and
    [sector_cache_flush_all] put the data on the flash at its address and leave
    every other flash byte as it was.  Shown for data within the 32-bit address
    space that the cache can store ([write_storable]): in every sector the data
    touches, as it is to be after the write, each page is blank or has a byte to
    program both at an even and at an odd offset; without this a page programmed
    at odd offsets alone is lost ([sector_program_loses_odd]). *)
Theorem cache_flush_durable {D : Type} `{FlashLaws D} (clk : nat -> Z) (d : D) (k : nat)
    (zalloc : Z -> bool) (s : SC D) (a : Z) (data : bytes) :
  sector_cache_init d k 1 zalloc = Some s ->
  0 <= a -> a + zlen data <= 2 ^ 32 -> is_bytes data -> write_storable (cell d) a data ->
  exists s1 s2, sector_cache_write clk s a data = Some s1 /\
    sector_cache_flush_all s1 = Some s2 /\
    forall x, cell (sc_dev s2) x = overlay (cell d) a data x.
Proof.
  intros Hi Ha Hal Hb Hst. destruct (init_one d k 1 zalloc s) as (c & Hwf & Hv); [lia|done|].
  unfold sector_cache_write.
  destruct (write_loop_one clk (length data) s c a data) as (s1 & c1 & E1 & Hwf1 & Hv1);
    [done|done|done|unfold zlen; lia|done| |].
  { intros sb H1 H2 H3. eapply programmable_ext; [|by apply (Hst sb)].
    apply cells_ext. intros. symmetry. by apply overlay_ext. }
  destruct (flush_all_one s1 c1 Hwf1) as (s2 & c2 & E2 & _ & _ & Hf).
  exists s1, s2. split; [done|]. split; [done|]. intros x. destruct (Hf x) as [_ ->]. rewrite Hv1.
  by apply overlay_ext.
Qed.

Definition one_zero : SC nor_flash :=
  mkSC zero_flash [blank_entry] 0.

Lemma overlay_full f a x : a <= x < a + SECTORSIZE -> overlay f a sector_full x = 7.
Proof.
  intros Hx. unfold overlay. change (zlen sector_full) with SECTORSIZE.
  rewrite (proj2 (Z.leb_le _ _)), (proj2 (Z.ltb_lt _ _)) by lia. cbn [andb].
  apply bget_replicate. unfold SECTORSIZE in *. lia.
Qed.

Lemma storable_full f a : a mod SECTORSIZE = 0 -> write_storable f a sector_full.
Proof.
  intros Ha sb Hm H1 H2. change (zlen sector_full) with SECTORSIZE in H1.
  assert (sb = a) as ->.
  { unfold SECTORSIZE in *. pose proof (Z.div_mod sb 4096). pose proof (Z.div_mod a 4096). lia. }
  eapply programmable_ext; [|apply programmable_full].
  apply bytes_ext; [by rewrite length_cells|]. change (zlen sector_full) with SECTORSIZE.
  intros i Hi. rewrite bget_cells, overlay_full by lia. apply bget_replicate. unfold SECTORSIZE in *. lia.
Qed.

Lemma cache_read_after_write_witness :
  exists s1 s2, sector_cache_write (fun _ => 5) one_zero 4096 sector_full = Some s1 /\
    sector_cache_read (fun _ => 5) s1 4090 10
    = Some (cells (overlay (view one_zero) 4096 sector_full) 4090 10, s2).
Proof.
  apply (cache_read_after_write (fun _ => 5) one_zero
           blank_entry).
  - constructor; try done. apply is_bytes_replicate. unfold is_byte; lia.
  - lia.
  - vm_compute; discriminate.
  - apply is_bytes_replicate. unfold is_byte; lia.
  - by apply storable_full.
  - lia.
  - lia.
  - lia.
Defined.

Lemma cache_flush_durable_witness :
  exists s1 s2, sector_cache_write (fun _ => 5) one_zero 4096 sector_full = Some s1 /\
    sector_cache_flush_all s1 = Some s2 /\
    forall x, cell (sc_dev s2) x = overlay (cell zero_flash) 4096 sector_full x.
Proof.
  apply (cache_flush_durable (fun _ => 5) zero_flash 0 (fun _ => true) one_zero).
  - reflexivity.
  - lia.
  - vm_compute; discriminate.
  - apply is_bytes_replicate. unfold is_byte; lia.
  - by apply storable_full.
Defined.

(** With two or more sectors [sector_cache_find] never compares addresses,
    so the cache is not coherent: a byte written and read back at once is
    fetched again from the flash into a second entry, and the read returns the
    old flash byte. *)
Theorem two_entry_cache_stale {D : Type} `{FlashLaws D} (clk : nat -> Z) (d : D) (k : nat)
    (zalloc : Z -> bool) (s : SC D) (a v : Z) :
  sector_cache_init d k 2 zalloc = Some s -> length (sc_entries s) = 2%nat -> 0 <= a < 2 ^ 32 ->
  exists s1 s2, sector_cache_write clk s a [v] = Some s1 /\
    sector_cache_read clk s1 a 1 = Some ([cell d a], s2).
Proof.
  intros Hi Hl Ha.
  assert (Hs : s = mkSC d [blank_entry; blank_entry] k).
  { unfold sector_cache_init in Hi. simpl in Hi. destruct (zalloc _); [by injection Hi as <-|].
    destruct (zalloc _); [|done]. by injection Hi as <-. }
  subst s. clear Hi Hl. pose proof (offset_range a) as Ho. pose proof (sector_base a Ha) as Hsb.
  assert (Hsa : exists sa, sa = a - a mod SECTORSIZE) by eauto. destruct Hsa as [sa Esa].
  rewrite <- Esa in Hsb.
  assert (Hmin : Z.min 1 (SECTORSIZE - a mod SECTORSIZE) = 1) by lia.
  set (c0 := mkEntry sa 0 VALID (spi_mem_read d sa SECTORSIZE)).
  assert (Hload : sector_cache_load (mkSC d [blank_entry; blank_entry] k) a
    = Some (0%nat, mkSC d [c0; blank_entry] k)).
  { unfold sector_cache_load. rewrite Hsb. simpl. by destruct sa. }
  assert (Hload2 : forall c, c_state c <> EMPTY ->
    sector_cache_load (mkSC d [c; blank_entry] (S k)) a = Some (1%nat, mkSC d [c; c0] (S k))).
  { intros c Hc. unfold sector_cache_load, sector_cache_find. rewrite Hsb. simpl.
    destruct (c_state c); [done| |]; simpl; by destruct sa. }
  unfold sector_cache_write, sector_cache_read.
  cbn [write_loop read_loop length]. change (0 <? zlen [v]) with true. cbv iota. rewrite Hload. simpl.
  change (zlen [v]) with 1. rewrite !Hmin. change (Z.to_nat 1) with 1%nat. simpl.
  change (0 <? zlen (@nil Z)) with false. cbv iota.
  eexists _, _. split; [done|]. unfold touch. simpl. rewrite Hload2 by done. simpl.
  do 2 f_equal. rewrite app_nil_r. change 1%nat with (Z.to_nat 1).
  rewrite read_cells, take_drop_cells by (unfold SECTORSIZE in *; rewrite ?zlen_cells; lia).
  rewrite cells_1, bget_cells by lia.
  rewrite Esa. do 2 f_equal. lia.
Qed.

Lemma two_entry_cache_stale_witness :
  exists s1 s2, sector_cache_write (fun _ => 0) (mkSC zero_flash [blank_entry; blank_entry] 0) 5 [77] = Some s1 /\
    sector_cache_read (fun _ => 0) s1 5 1 = Some ([cell zero_flash 5], s2).
Proof.
  apply (two_entry_cache_stale (fun _ => 0) zero_flash 0 (fun _ => true)
           (mkSC zero_flash [blank_entry; blank_entry] 0) 5 77).
  - reflexivity.
  - reflexivity.
  - lia.
Defined.
