(* ===== verification/FileSys.v ===== *)
(** * The root file system, its calls and its crashes

    The C library's view of the root file system: a map from paths to
    contents.  [fopen(p, "w")], [fwrite] and [unlink] change it by a primitive
    effect each, recorded in the order they reach the medium; a power failure
    stops the device between two effects or inside an append, so the disks it
    can leave behind are the replays of the prefixes of the recorded effects
    ([crash_disks]).

    [M] is the monad of the code above it: the environment answers whether an
    allocation, an open for writing or a read succeeds and what uninitialised
    memory holds; a call ends with a value, a parked thread, a device reset or
    undefined behaviour. *)

From S2P Require Import Prelude.

(** ** Effects *)

Inductive fs_eff :=
  | EffTrunc (p : string)
  | EffAppend (p : string) (bs : bytes)
  | EffUnlink (p : string).

Abbreviation disk := (gmap string bytes).

Definition apply_eff (m : disk) (e : fs_eff) : disk :=
  match e with
  | EffTrunc p => <[p := []]> m
  | EffAppend p bs => <[p := default [] (m !! p) ++ bs]> m
  | EffUnlink p => delete p m
  end.

Definition replay (m : disk) (l : list fs_eff) : disk := fold_left apply_eff l m.

(** A torn effect: an append may reach the medium in part. *)
Definition torn (k : nat) (e : fs_eff) : fs_eff :=
  match e with
  | EffAppend p bs => EffAppend p (take k bs)
  | _ => e
  end.

(** The disks a power failure can leave while [l] is being executed on [m]. *)
Inductive crash_disks (m : disk) (l : list fs_eff) : disk -> Prop :=
  | crash_between k : crash_disks m l (replay m (take k l))
  | crash_inside k j e : l !! k = Some e ->
      crash_disks m l (apply_eff (replay m (take k l)) (torn j e)).

(** ** The monad *)

Record env := mkEnv {
  env_alloc : Z -> bool;           (* os_alloc(n) succeeds *)
  env_fopen_w : string -> bool;    (* fopen(p, "w") succeeds *)
  env_fwrite : string -> Z -> Z;   (* how many of n bytes fwrite accepts *)
  env_fread : string -> bool;      (* fread delivers what the file holds *)
  env_uninit : Z;                  (* an uninitialised unsigned int *)
  env_uninit_buf : bytes;          (* an uninitialised char array *)
}.

Record world := mkWorld { w_disk : disk; w_log : list fs_eff }.

Inductive outcome (A : Type) :=
  | Ret (a : A)
  | Parked
  | Reset
  | Undefined.
Arguments Ret {A} _.
Arguments Parked {A}.
Arguments Reset {A}.
Arguments Undefined {A}.

Definition M (A : Type) : Type := env -> world -> outcome A * world.

Definition m_ret {A} (a : A) : M A := fun _ w => (Ret a, w).

Definition m_bind {A B} (m : M A) (f : A -> M B) : M B := fun E w =>
  match m E w with
  | (Ret a, w') => f a E w'
  | (Parked, w') => (Parked, w')
  | (Reset, w') => (Reset, w')
  | (Undefined, w') => (Undefined, w')
  end.

Definition m_end {A} (o : outcome A) : M A := fun _ w => (o, w).

Notation "x <-- m ;; k" := (m_bind m (fun x => k))
  (at level 100, m at next level, right associativity) : t2_scope.
Notation "m ;;; k" := (m_bind m (fun _ => k))
  (at level 100, right associativity) : t2_scope.

#[global] Open Scope t2_scope.

Definition do_eff (e : fs_eff) : M unit := fun _ w =>
  (Ret tt, mkWorld (apply_eff (w_disk w) e) (w_log w ++ [e])).

(** [os_alloc(n) != NULL]. *)
Definition os_alloc (n : Z) : M bool := fun E w => (Ret (env_alloc E n), w).

(** [fopen(p, "r")]: the content to be read, [None] for [NULL]. *)
Definition fopen_r (p : string) : M (option bytes) := fun _ w => (Ret (w_disk w !! p), w).

(** [fopen(p, "w") != NULL]: creates or truncates. *)
Definition fopen_w (p : string) : M bool := fun E w =>
  if env_fopen_w E p then (do_eff (EffTrunc p) ;;; m_ret true) E w else (Ret false, w).

(** [fwrite(bs, 1, len, f)] on the file just opened for writing at [p]. *)
Definition fwrite (p : string) (bs : bytes) : M Z := fun E w =>
  let n := Z.max 0 (Z.min (env_fwrite E p (zlen bs)) (zlen bs)) in
  (do_eff (EffAppend p (take (Z.to_nat n) bs)) ;;; m_ret n) E w.

(** [fread(buf, 1, n, f)] from the start of [content], the content of [p]. *)
Definition fread (p : string) (content : bytes) (n : Z) : M bytes := fun E w =>
  (Ret (if env_fread E p then take (Z.to_nat n) content else []), w).

Definition unlink (p : string) : M unit := do_eff (EffUnlink p).

(** [os_park_thread(os_self())] and [reset_device()]: they do not return. *)
Definition os_park_self {A} : M A := m_end Parked.
Definition reset_device {A} : M A := m_end Reset.

(** An environment in which every call succeeds. *)
Record env_good (E : env) : Prop := {
  good_alloc : forall n, env_alloc E n = true;
  good_fopen_w : forall p, env_fopen_w E p = true;
  good_fwrite : forall p n, env_fwrite E p n = n;
  good_fread : forall p, env_fread E p = true;
}.

(** ** Lemmas *)

Lemma replay_app m l1 l2 : replay m (l1 ++ l2) = replay (replay m l1) l2.
Proof. apply fold_left_app. Qed.

(** A property of disks that every effect and every torn effect of [l]
    preserves holds on every crash disk. *)
Lemma crash_disks_inv (P : disk -> Prop) m l d :
  P m ->
  (forall k e, l !! k = Some e -> P (replay m (take k l)) -> P (apply_eff (replay m (take k l)) e)) ->
  (forall k j e, l !! k = Some e -> P (replay m (take k l)) ->
     P (apply_eff (replay m (take k l)) (torn j e))) ->
  crash_disks m l d -> P d.
Proof.
  intros H0 Hstep Htorn.
  assert (Hpre : forall k, P (replay m (take k l))).
  { induction k as [|k IH]; [by rewrite take_0|].
    destruct (l !! k) as [e|] eqn:E.
    - rewrite (take_S_r _ _ _ E), replay_app. by apply Hstep.
    - rewrite take_ge by (apply lookup_ge_None in E; lia).
      rewrite take_ge in IH by (apply lookup_ge_None in E; lia). done. }
  intros [k|k j e He]; [apply Hpre|by apply Htorn].
Qed.

Lemma crash_disks_app m l1 l2 d :
  crash_disks m (l1 ++ l2) d -> crash_disks m l1 d \/ crash_disks (replay m l1) l2 d.
Proof.
  intros [k|k j e He].
  - destruct (decide (k <= length l1)%nat).
    + left. rewrite take_app_le by done. constructor.
    + right. rewrite take_app_ge, replay_app by lia. constructor.
  - destruct (decide (k < length l1)%nat).
    + left. rewrite lookup_app_l in He by done. rewrite take_app_le by lia. by constructor.
    + right. rewrite lookup_app_r in He by lia. rewrite take_app_ge, replay_app by lia. by constructor.
Qed.

(** The log explains the disk: what a computation adds to the log replays to
    the disk it leaves. *)
Definition logs {A} (m : M A) : Prop := forall E w,
  exists l, w_log (snd (m E w)) = w_log w ++ l /\ w_disk (snd (m E w)) = replay (w_disk w) l.

Lemma logs_ret {A} (a : A) : logs (m_ret a).
Proof. intros E w. exists []. by rewrite app_nil_r. Qed.

Lemma logs_end {A} (o : outcome A) : logs (m_end o).
Proof. intros E w. exists []. by rewrite app_nil_r. Qed.

Lemma logs_bind {A B} (m : M A) (f : A -> M B) : logs m -> (forall a, logs (f a)) -> logs (m_bind m f).
Proof.
  intros Hm Hf E w. unfold m_bind. destruct (Hm E w) as (l & Hl & Hd).
  destruct (m E w) as [[a| | |] w1]; simpl in *; eauto.
  destruct (Hf a E w1) as (l' & Hl' & Hd'). exists (l ++ l').
  by rewrite Hl', Hd', Hl, Hd, replay_app, app_assoc.
Qed.

Lemma logs_do_eff e : logs (do_eff e).
Proof. intros E w. by exists [e]. Qed.

Lemma logs_env {A} (f : env -> A) : logs (fun E w => (Ret (f E), w)).
Proof. intros E w. exists []. by rewrite app_nil_r. Qed.

Lemma logs_world {A} (f : world -> A) : logs (fun _ w => (Ret (f w), w)).
Proof. intros E w. exists []. by rewrite app_nil_r. Qed.

Lemma logs_fopen_w p : logs (fopen_w p).
Proof.
  intros E w. unfold fopen_w. destruct (env_fopen_w E p); [by exists [EffTrunc p]|].
  exists []. by rewrite app_nil_r.
Qed.

Lemma logs_fwrite p bs : logs (fwrite p bs).
Proof. intros E w. eexists [_]. done. Qed.

#[export] Hint Resolve logs_ret logs_end logs_do_eff logs_fopen_w logs_fwrite : t2.
#[export] Hint Extern 1 (logs (m_bind _ _)) => apply logs_bind; [|intros] : t2.
#[export] Hint Extern 1 (logs (unlink _)) => apply logs_do_eff : t2.
#[export] Hint Extern 1 (logs os_park_self) => apply logs_end : t2.
#[export] Hint Extern 1 (logs reset_device) => apply logs_end : t2.
#[export] Hint Extern 1 (logs (os_alloc _)) => apply (logs_env (fun E => env_alloc E _)) : t2.
#[export] Hint Extern 1 (logs (fopen_r _)) => apply (logs_world (fun w => w_disk w !! _)) : t2.
#[export] Hint Extern 1 (logs (fread ?p ?c ?n)) =>
  apply (logs_env (fun E => if env_fread E p then take (Z.to_nat n) c else [])) : t2.
#[export] Hint Extern 1 (logs (match ?x with _ => _ end)) => destruct x : t2.

(** ** Running a computation *)

(** From the disk [d], [m] ends with [o] after the effects [l]. *)
Definition runs {A} (E : env) (d : disk) (m : M A) (o : outcome A) (l : list fs_eff) : Prop :=
  forall lg, m E (mkWorld d lg) = (o, mkWorld (replay d l) (lg ++ l)).

Lemma runs_ret {A} E d (a : A) : runs E d (m_ret a) (Ret a) [].
Proof. intros lg. by rewrite app_nil_r. Qed.

Lemma runs_end {A} E d (o : outcome A) : runs E d (m_end o) o [].
Proof. intros lg. by rewrite app_nil_r. Qed.

Lemma runs_bind {A B} E d (m : M A) (f : A -> M B) a o l1 l2 :
  runs E d m (Ret a) l1 -> runs E (replay d l1) (f a) o l2 -> runs E d (m_bind m f) o (l1 ++ l2).
Proof.
  intros H1 H2 lg. unfold m_bind. by rewrite H1, H2, replay_app, app_assoc.
Qed.

(** A first step without effect. *)
Lemma runs_pure {A B} E d (m : M A) (f : A -> M B) a o l :
  runs E d m (Ret a) [] -> runs E d (f a) o l -> runs E d (m_bind m f) o l.
Proof. intros H1 H2. apply (runs_bind _ _ _ _ a _ [] l); done. Qed.

(** A step that does not return ends the computation. *)
Lemma runs_reset {A B} E d (m : M A) (f : A -> M B) l :
  runs E d m Reset l -> runs E d (m_bind m f) Reset l.
Proof. intros H1 lg. unfold m_bind. by rewrite H1. Qed.

Lemma runs_do_eff E d e : runs E d (do_eff e) (Ret tt) [e].
Proof. intros lg. done. Qed.

Lemma runs_fopen_r E d p : runs E d (fopen_r p) (Ret (d !! p)) [].
Proof. intros lg. by rewrite app_nil_r. Qed.

Lemma runs_env {A} E d (f : env -> A) : runs E d (fun E w => (Ret (f E), w)) (Ret (f E)) [].
Proof. intros lg. by rewrite app_nil_r. Qed.

Lemma runs_fopen_w E d p : env_good E -> runs E d (fopen_w p) (Ret true) [EffTrunc p].
Proof. intros HE lg. unfold fopen_w. by rewrite (good_fopen_w _ HE). Qed.

Lemma runs_fopen_w_fail E d p : env_fopen_w E p = false -> runs E d (fopen_w p) (Ret false) [].
Proof. intros HE lg. unfold fopen_w. rewrite HE. by rewrite app_nil_r. Qed.

Lemma runs_fwrite E d p bs : env_good E -> runs E d (fwrite p bs) (Ret (zlen bs)) [EffAppend p bs].
Proof.
  intros HE lg. unfold fwrite. rewrite (good_fwrite _ HE). pose proof (zlen_nonneg bs).
  rewrite Z.min_id, Z.max_r by lia. rewrite take_ge by (unfold zlen; lia). done.
Qed.

Lemma runs_alloc E d n : env_good E -> runs E d (os_alloc n) (Ret true) [].
Proof. intros HE lg. unfold os_alloc. rewrite (good_alloc _ HE). by rewrite app_nil_r. Qed.

Lemma runs_fread E d p content : env_good E -> runs E d (fread p content (zlen content)) (Ret content) [].
Proof.
  intros HE lg. unfold fread. rewrite (good_fread _ HE), take_ge by (unfold zlen; lia).
  by rewrite app_nil_r.
Qed.

#[export] Hint Resolve runs_ret runs_end runs_do_eff runs_fopen_r runs_fopen_w runs_fwrite
  runs_alloc runs_fread : t2.
