(* ===== verification/FsUtils.v ===== *)
(** * File and version helpers (components/utils/src/fs_utils.c, utils.c and
    the file part of components/checksum/src/fletcher32.c)

    The operations run in the monad of [FileSys]; [-1] results are the
    constructors of [option] or the integer itself, as in the code. *)

From S2P Require Import Prelude Fletcher FileSys.

(** ** Paths (components/utils/inc/fs_defines.h) *)

Definition PART_FILE_PATH : string := "/root/part.json".
Definition BOOT_FILE_PATH : string := "/root/boot.json".
Definition FOTA_CFG_FILE_PATH : string := "/root/fota_config.json".
Definition PART_CHKSUM_FILE_PATH : string := "/root/part.checksum".
Definition BOOT_CHKSUM_FILE_PATH : string := "/root/boot.checksum".
Definition FOTA_CFG_CHKSUM_FILE_PATH : string := "/root/fota_config.checksum".
Definition PART_BACKUP_FILE_PATH : string := "/root/part_backup.json".
Definition BOOT_BACKUP_FILE_PATH : string := "/root/boot_backup.json".
Definition FOTA_CFG_BACKUP_FILE_PATH : string := "/root/fota_config_backup.json".
Definition PART_BACKUP_CHKSUM_FILE_PATH : string := "/root/part_backup.checksum".
Definition BOOT_BACKUP_CHKSUM_FILE_PATH : string := "/root/boot_backup.checksum".
Definition FOTA_CFG_BACKUP_CHKSUM_FILE_PATH : string := "/root/fota_config_backukp.checksum".
Definition DIRTY_BIT_FILE_PATH : string := "/root/dirty".
Definition FOTA_IN_PROGRESS_FILE_PATH : string := "/root/fot_in_progress".

(** ** The checksum of a file *)

(** [fletcher32_file_checksum_get(path, &out)]: [None] for the result -1, in
    which case [out] is not written. *)
Definition fletcher32_file_checksum_get (path : string) : M (option Z) :=
  f <-- fopen_r path ;;
  match f with
  | None => m_ret None
  | Some content =>
      let size := zlen content in
      ok <-- os_alloc (size + 1) ;;
      if negb ok then m_ret None else
      nread <-- fread path content size ;;
      if negb (zlen nread =? size) then m_ret None else
      match fletcher32 (words_of (nread ++ [0])) size with
      | Some c => m_ret (Some c)
      | None => m_end Undefined
      end
  end.

(** [sprintf(s, "%08x", v)] on a 32-bit value. *)
Definition hexdigit (d : Z) : Z := if d <? 10 then 48 + d else 87 + d.

Definition hex8 (v : Z) : bytes :=
  map (fun i => hexdigit (v / 16 ^ i mod 16)) [7; 6; 5; 4; 3; 2; 1; 0].

(** ** The helpers of fs_utils.c *)

Definition utils_is_file_present (path : string) : M bool :=
  f <-- fopen_r path ;;
  m_ret (match f with None => false | Some _ => true end).

Definition utils_file_size_get (path : string) : M Z :=
  f <-- fopen_r path ;;
  m_ret (match f with None => -1 | Some content => zlen content end).

(** [utils_file_get(path, &len)]: the zero-terminated buffer and [len]. *)
Definition utils_file_get (path : string) : M (option (bytes * Z)) :=
  fileSize <-- utils_file_size_get path ;;
  if fileSize <=? 0 then m_ret None else
  f <-- fopen_r path ;;
  match f with
  | None => m_ret None
  | Some content =>
      ok <-- os_alloc (fileSize + 1) ;;
      if negb ok then m_ret None else
      buff <-- fread path content fileSize ;;
      if negb (zlen buff =? fileSize) then m_ret None else
      m_ret (Some (buff ++ [0], fileSize + 1))
  end.

Definition utils_file_store (file_path : string) (buff : bytes) : M Z :=
  f <-- fopen_w file_path ;;
  if negb f then m_ret (-1) else
  bytes_written <-- fwrite file_path buff ;;
  m_ret (if negb (bytes_written =? zlen buff) then -1 else 0).

Definition utils_file_clone (dst_path src_path : string) : M Z :=
  f_src <-- fopen_r src_path ;;
  match f_src with
  | None => m_ret (-1)
  | Some content =>
      let size := zlen content in
      ok <-- os_alloc (size + 1) ;;
      if negb ok then m_ret (-1) else
      nread <-- fread src_path content size ;;
      if negb (zlen nread =? size) then m_ret (-1) else
      f_dst <-- fopen_w dst_path ;;
      if negb f_dst then m_ret (-1) else
      fwrite dst_path nread ;;;
      m_ret 0
  end.

(** [utils_create_checksum_file]: the checksum is uninitialised when the file
    cannot be read. *)
Definition utils_create_checksum_file (file_path chksum_file_path : string) : M Z :=
  r <-- fletcher32_file_checksum_get file_path ;;
  f_chksum <-- (match r with
                | Some c => m_ret c
                | None => fun E w => (Ret (env_uninit E), w)
                end) ;;
  utils_file_store chksum_file_path (hex8 f_chksum).

Definition utils_file_touch (path : string) : M Z :=
  f <-- fopen_w path ;;
  m_ret (if negb f then -1 else 0).

Definition utils_update_fota_cfg_file (buf : bytes) : M Z :=
  utils_file_touch DIRTY_BIT_FILE_PATH ;;;
  utils_file_store FOTA_CFG_FILE_PATH buf ;;;
  utils_create_checksum_file FOTA_CFG_FILE_PATH FOTA_CFG_CHKSUM_FILE_PATH ;;;
  m_ret 0.

(** ** Version numbers (utils.c) *)

(** [x = (x * 10) + ch - '0'] over the characters of a part of the string. *)
Fixpoint num_loop (acc : Z) (s : bytes) : Z :=
  match s with
  | [] => acc
  | ch :: s' => num_loop (s32 (acc * 10 + ch - 48)) s'
  end.

(** The loop up to the first ['.']: the part before the first dot, and the rest. *)
Fixpoint split_dot (s : bytes) : bytes * bytes :=
  match s with
  | [] => ([], [])
  | ch :: s' => if ch =? 46 then ([], s) else let '(a, b) := split_dot s' in (ch :: a, b)
  end.

(** The dot itself is skipped. *)
Definition skip_dot (s : bytes) : bytes :=
  match s with ch :: s' => if ch =? 46 then s' else s | [] => [] end.

Definition utils_num_str_cmp (str1 str2 : bytes) : Z :=
  let '(a1, r1) := split_dot str1 in
  let deci1 := num_loop 0 a1 in
  let fracn1 := num_loop 0 (skip_dot r1) in
  let '(a2, r2) := split_dot str2 in
  let deci2 := num_loop 0 a2 in
  let fracn2 := num_loop 0 (skip_dot r2) in
  if deci1 =? deci2 then
    if fracn1 =? fracn2 then 0 else s32 (fracn1 - fracn2)
  else s32 (deci1 - deci2).

(** ** The checksum text *)

Definition unhexdigit (c : Z) : Z := if c <? 58 then c - 48 else c - 87.
Definition unhex (l : bytes) : Z := fold_left (fun acc c => acc * 16 + unhexdigit c) l 0.

Lemma hexdigit_inv d : 0 <= d < 16 -> unhexdigit (hexdigit d) = d.
Proof. intros. unfold hexdigit, unhexdigit. repeat case_if; lia. Qed.

Lemma hexdigit_range d : 0 <= d < 16 -> 48 <= hexdigit d <= 57 \/ 97 <= hexdigit d <= 102.
Proof. intros. unfold hexdigit. case_if; lia. Qed.

Lemma length_hex8 v : length (hex8 v) = 8%nat.
Proof. done. Qed.

(** The text determines the 32-bit value. *)
Lemma unhex_hex8 v : 0 <= v < 2 ^ 32 -> unhex (hex8 v) = v.
Proof.
  intros Hv. unfold hex8, unhex. cbn [map fold_left].
  rewrite !hexdigit_inv by (apply Z.mod_pos_bound; lia).
  change (16 ^ 7) with 268435456. change (16 ^ 6) with 16777216. change (16 ^ 5) with 1048576.
  change (16 ^ 4) with 65536. change (16 ^ 3) with 4096. change (16 ^ 2) with 256.
  change (16 ^ 1) with 16. change (16 ^ 0) with 1. rewrite Z.div_1_r.
  Z.to_euclidean_division_equations. lia.
Qed.

Lemma hex8_inj a b : 0 <= a < 2 ^ 32 -> 0 <= b < 2 ^ 32 -> hex8 a = hex8 b -> a = b.
Proof. intros Ha Hb E. by rewrite <- (unhex_hex8 a), <- (unhex_hex8 b), E. Qed.

(** ** The checksum of a content *)

Definition fl_of (content : bytes) : Z := fletcher_spec (words_of (content ++ [0])).

Lemma zlen_words l : zlen (words_of l) = zlen l / 2.
Proof.
  revert l. fix IH 1. intros [|a [|b l]]; [done|done|]. cbn [words_of]. zl. rewrite IH.
  replace (zlen l + 1 + 1) with (zlen l + 1 * 2) by lia. rewrite Z.div_add by lia. lia.
Qed.

Lemma is_words_of l : is_bytes l -> is_words (words_of l).
Proof.
  revert l. fix IH 1. intros [|a [|b l]] H; [constructor|constructor|]. cbn [words_of].
  unfold is_bytes in H. apply Forall_cons in H as [Ha H]. apply Forall_cons in H as [Hb H].
  constructor; [unfold is_byte in *; lia|by apply IH].
Qed.

Lemma fletcher32_content content :
  is_bytes content -> zlen content < 2 ^ 31 ->
  fletcher32 (words_of (content ++ [0])) (zlen content) = Some (fl_of content).
Proof.
  intros Hb Hl. rewrite <- (app_nil_r (words_of _)). apply fletcher32_exact.
  - apply is_words_of, Forall_app. split; [done|]. repeat constructor; unfold is_byte; lia.
  - pose proof (zlen_nonneg content). lia.
  - rewrite zlen_words. by zl.
Qed.

(** ** Runs of the helpers when every call succeeds *)

Definition small_content (content : bytes) : Prop := is_bytes content /\ zlen content < 2 ^ 31.

Section Runs.
Context (E : env) (HE : env_good E).

Lemma runs_touch d p : runs E d (utils_file_touch p) (Ret 0) [EffTrunc p].
Proof. apply (runs_bind _ _ _ _ true _ [_] []); auto with t2. Qed.

Lemma runs_store d p b : runs E d (utils_file_store p b) (Ret 0) [EffTrunc p; EffAppend p b].
Proof.
  apply (runs_bind _ _ _ _ true _ [_] [_]); auto with t2. simpl.
  apply (runs_bind _ _ _ _ (zlen b) _ [_] []); auto with t2. rewrite Z.eqb_refl. auto with t2.
Qed.

Lemma runs_clone d dst src c :
  d !! src = Some c -> runs E d (utils_file_clone dst src) (Ret 0) [EffTrunc dst; EffAppend dst c].
Proof.
  intros Hs. eapply runs_pure; [apply runs_fopen_r|]. rewrite Hs.
  eapply runs_pure; [auto with t2|]. simpl. eapply runs_pure; [auto with t2|].
  rewrite Z.eqb_refl. simpl.
  apply (runs_bind _ _ _ _ true _ [_] [_]); auto with t2. simpl.
  apply (runs_bind _ _ _ _ (zlen c) _ [_] []); auto with t2.
Qed.

Lemma runs_clone_missing d dst src :
  d !! src = None -> runs E d (utils_file_clone dst src) (Ret (-1)) [].
Proof. intros Hs. eapply runs_pure; [apply runs_fopen_r|]. rewrite Hs. auto with t2. Qed.

Lemma runs_checksum d p c :
  d !! p = Some c -> small_content c ->
  runs E d (fletcher32_file_checksum_get p) (Ret (Some (fl_of c))) [].
Proof.
  intros Hp [Hb Hl]. eapply runs_pure; [apply runs_fopen_r|]. rewrite Hp.
  eapply runs_pure; [auto with t2|]. simpl. eapply runs_pure; [auto with t2|].
  rewrite Z.eqb_refl. simpl. rewrite fletcher32_content by done. auto with t2.
Qed.

Lemma runs_create_checksum d p pc c :
  d !! p = Some c -> small_content c ->
  runs E d (utils_create_checksum_file p pc) (Ret 0)
    [EffTrunc pc; EffAppend pc (hex8 (fl_of c))].
Proof.
  intros Hp Hc. eapply runs_pure; [by apply runs_checksum|].
  eapply runs_pure; [apply runs_ret|]. apply runs_store.
Qed.

Lemma runs_present d p :
  runs E d (utils_is_file_present p) (Ret (match d !! p with None => false | Some _ => true end)) [].
Proof. eapply runs_pure; [apply runs_fopen_r|]. auto with t2. Qed.
End Runs.

#[export] Hint Resolve runs_touch runs_store runs_clone runs_checksum runs_create_checksum
  runs_present : t2.

(** What [utils_file_store] wrote without error, [utils_file_get] returns,
    zero-terminated and with the length counting the terminator. *)
Theorem store_get_roundtrip (E : env) (d : disk) (p : string) (b : bytes) :
  env_good E -> b <> [] ->
  runs E d (r <-- utils_file_store p b ;; utils_file_get p)
    (Ret (Some (b ++ [0], zlen b + 1))) [EffTrunc p; EffAppend p b].
Proof.
  intros HE Hb. apply (runs_bind _ _ _ _ 0 _ [_; _] []); [by apply runs_store|].
  assert (Hlk : replay d [EffTrunc p; EffAppend p b] !! p = Some b).
  { simpl. by rewrite !lookup_insert_eq. }
  assert (0 < zlen b) by (destruct b; [done|zl; pose proof (zlen_nonneg b); lia]).
  eapply runs_pure; [eapply runs_pure; [apply runs_fopen_r|apply runs_ret]|].
  rewrite Hlk. rewrite (proj2 (Z.leb_gt _ _)) by lia.
  eapply runs_pure; [apply runs_fopen_r|]. rewrite Hlk.
  eapply runs_pure; [auto with t2|]. simpl. eapply runs_pure; [auto with t2|].
  rewrite Z.eqb_refl. simpl. auto with t2.
Qed.

Definition good_env : env :=
  mkEnv (fun _ => true) (fun _ => true) (fun _ n => n) (fun _ => true) 0 (replicate 16 0).

Lemma good_env_good : env_good good_env.
Proof. by constructor. Qed.

Lemma store_get_roundtrip_witness :
  runs good_env ∅ (r <-- utils_file_store "/root/a" [1; 2] ;; utils_file_get "/root/a")
    (Ret (Some ([1; 2] ++ [0], zlen [1; 2] + 1))) [EffTrunc "/root/a"; EffAppend "/root/a" [1; 2]].
Proof.
  apply (store_get_roundtrip good_env ∅ "/root/a" [1; 2]).
  - apply good_env_good.
  - discriminate.
Defined.

(** ** Version comparison *)

(** The decimal value of a digit string. *)
Definition dec_val (s : bytes) : Z := fold_left (fun acc ch => acc * 10 + (ch - 48)) s 0.

Definition is_digits (s : bytes) : Prop := Forall (fun ch => 48 <= ch <= 57) s.

Lemma dec_fold_mono s acc :
  is_digits s -> 0 <= acc -> acc <= fold_left (fun acc ch => acc * 10 + (ch - 48)) s acc.
Proof.
  intros Hs. revert acc. induction Hs as [|ch s Hch Hs IH]; intros acc Ha; simpl; [lia|].
  specialize (IH (acc * 10 + (ch - 48))). lia.
Qed.

Lemma num_loop_val s acc :
  is_digits s -> 0 <= acc -> fold_left (fun acc ch => acc * 10 + (ch - 48)) s acc < 2 ^ 31 ->
  num_loop acc s = fold_left (fun acc ch => acc * 10 + (ch - 48)) s acc.
Proof.
  intros Hs. revert acc. induction Hs as [|ch s Hch Hs IH]; intros acc Ha Hb; simpl in *; [done|].
  pose proof (dec_fold_mono s (acc * 10 + (ch - 48)) Hs ltac:(lia)) as Hm.
  rewrite s32_small by lia. replace (acc * 10 + ch - 48) with (acc * 10 + (ch - 48)) by lia.
  apply IH; lia.
Qed.

Lemma split_dot_app a b : is_digits a -> split_dot (a ++ 46 :: b) = (a, 46 :: b).
Proof.
  intros Ha. induction Ha as [|ch a Hch Ha IH]; simpl; [done|].
  rewrite (proj2 (Z.eqb_neq _ _)) by lia. by rewrite IH.
Qed.

Lemma dec_val_nonneg s : is_digits s -> 0 <= dec_val s.
Proof. intros. by apply (dec_fold_mono s 0). Qed.

Lemma num_str_cmp_exact (a b c d : bytes) :
  is_digits a -> is_digits b -> is_digits c -> is_digits d ->
  dec_val a < 2 ^ 31 -> dec_val b < 2 ^ 31 -> dec_val c < 2 ^ 31 -> dec_val d < 2 ^ 31 ->
  utils_num_str_cmp (a ++ 46 :: b) (c ++ 46 :: d)
  = if dec_val a =? dec_val c then dec_val b - dec_val d else dec_val a - dec_val c.
Proof.
  intros Ha Hb Hc Hd Ba Bb Bc Bd. unfold utils_num_str_cmp.
  rewrite !split_dot_app by done. cbn [skip_dot Z.eqb Pos.eqb].
  rewrite !num_loop_val by (done || lia). fold (dec_val a) (dec_val b) (dec_val c) (dec_val d).
  pose proof (dec_val_nonneg a Ha). pose proof (dec_val_nonneg b Hb).
  pose proof (dec_val_nonneg c Hc). pose proof (dec_val_nonneg d Hd).
  destruct (Z.eqb_spec (dec_val a) (dec_val c)).
  - destruct (Z.eqb_spec (dec_val b) (dec_val d)); [lia|]. apply s32_small. lia.
  - apply s32_small. lia.
Qed.

(** On version strings "major.minor" whose numbers fit an [int],
    [utils_num_str_cmp] compares the majors as numbers and, when they are
    equal, the minors: zero for equal versions (leading zeros do not count),
    and otherwise the sign of the difference. *)
Theorem num_str_cmp_versions (a b c d : bytes) :
  is_digits a -> is_digits b -> is_digits c -> is_digits d ->
  dec_val a < 2 ^ 31 -> dec_val b < 2 ^ 31 -> dec_val c < 2 ^ 31 -> dec_val d < 2 ^ 31 ->
  utils_num_str_cmp (a ++ 46 :: b) (c ++ 46 :: d)
  = if dec_val a =? dec_val c then dec_val b - dec_val d else dec_val a - dec_val c.
Proof. apply num_str_cmp_exact. Qed.

Lemma num_str_cmp_versions_witness :
  utils_num_str_cmp ([49] ++ 46 :: [49; 48]) ([48; 49] ++ 46 :: [57]) = dec_val [49; 48] - dec_val [57].
Proof.
  apply (num_str_cmp_versions [49] [49; 48] [48; 49] [57]).
  1-4: repeat constructor; lia.
  all: vm_compute; reflexivity.
Defined.
