(* ===== verification/BasicJson.v ===== *)
(** * The JSON tokenizer (components/json/basic_json/json.c) and the readers of
    boot.json built on it

    The tokenizer takes one character at a time and keeps a tokenizer function,
    a token buffer of 80 bytes, a state word and one pushed-back character.
    [endp] is the length of [j_token], the characters stored so far; the
    zero byte the code writes at [endp] ends the C string.  A failed [assert]
    and a loop that does not end are [None]: [json_tokenizer_total] shows that
    neither happens.  Characters are [int]s, [EOF] is -1. *)

From S2P Require Import Prelude FileSys FsUtils.

Definition EOF : Z := -1.

(** ** Tokens and the parser (json.h) *)

Inductive json_token :=
  | JSON_NONE | JSON_LITERAL | JSON_STRING | JSON_NUMBER | JSON_UNKNOWN
  | JSON_FALSE | JSON_TRUE | JSON_NULL | JSON_END
  | JSON_BEGIN_OBJECT | JSON_END_OBJECT | JSON_BEGIN_ARRAY | JSON_END_ARRAY
  | JSON_VALUE_SEPARATOR | JSON_MEMBER_SEPARATOR.

#[export] Instance json_token_eq_dec : EqDecision json_token.
Proof. solve_decision. Defined.

Inductive tokenizer_fn := json_token_start | json_token_string | json_token_number | json_token_literal.

#[export] Instance tokenizer_fn_eq_dec : EqDecision tokenizer_fn.
Proof. solve_decision. Defined.

Record json_parser := mkParser {
  j_tokenizer : tokenizer_fn;
  j_token : bytes;
  j_state : Z;
  j_ungetc : Z;
}.

Definition TOKEN_SIZE : nat := 80.

Definition set_token (p : json_parser) (t : bytes) : json_parser :=
  mkParser (j_tokenizer p) t (j_state p) (j_ungetc p).
Definition set_jstate (p : json_parser) (s : Z) : json_parser :=
  mkParser (j_tokenizer p) (j_token p) s (j_ungetc p).
Definition set_tokenizer (p : json_parser) (t : tokenizer_fn) (s : Z) : json_parser :=
  mkParser t (j_token p) s (j_ungetc p).
Definition set_ungetc (p : json_parser) (c : Z) : json_parser :=
  mkParser (j_tokenizer p) (j_token p) (j_state p) c.

(** ** Character classes *)

Definition isdigit (ch : Z) : bool := (48 <=? ch) && (ch <=? 57).
Definition isalpha (ch : Z) : bool := ((65 <=? ch) && (ch <=? 90)) || ((97 <=? ch) && (ch <=? 122)).
Definition isxdigit (ch : Z) : bool :=
  isdigit ch || ((65 <=? ch) && (ch <=? 70)) || ((97 <=? ch) && (ch <=? 102)).
Definition isjsonspace (ch : Z) : bool := (ch =? 32) || (ch =? 9) || (ch =? 10) || (ch =? 13).

(** ** The tokenizer functions: a token and whether the character is consumed *)

Definition addc (p : json_parser) (ch : Z) : json_parser :=
  if (length (j_token p) <? TOKEN_SIZE - 1)%nat then set_token p (j_token p ++ [ch]) else p.

Definition token_string (p : json_parser) (ch : Z) : json_token * bool * json_parser :=
  if ch =? EOF then (JSON_STRING, false, p)
  else if negb (Z.land (j_state p) 1 =? 0) then
    let p := set_jstate p (Z.land (j_state p) (Z.lnot 1)) in
    if ch =? 92 then (JSON_NONE, true, addc p ch)
    else if ch =? 98 then (JSON_NONE, true, addc p 8)
    else if ch =? 102 then (JSON_NONE, true, addc p 12)
    else if ch =? 110 then (JSON_NONE, true, addc p 10)
    else if ch =? 114 then (JSON_NONE, true, addc p 13)
    else if ch =? 116 then (JSON_NONE, true, addc p 9)
    else
      let p := if ch =? 117 then addc p 92 else p in
      (JSON_NONE, true, addc p ch)
  else if ch =? 92 then (JSON_NONE, true, set_jstate p (Z.lor (j_state p) 1))
  else if ch =? 34 then (JSON_STRING, true, p)
  else (JSON_NONE, true, addc p ch).

(** The table [states] of [json_token_number]. *)
Definition number_states (st : Z) : Z :=
  match st with 0 => 7 | 1 => 6 | 2 => 12 | 3 => 4 | 4 => 16 | _ => 0 end.

Definition token_number (p : json_parser) (ch : Z) : json_token * bool * json_parser :=
  let m := number_states (j_state p) in
  let bit b := negb (Z.land m b =? 0) in
  let next st := (JSON_NONE, true, addc (set_jstate p st) ch) in
  if bit 1 && (ch =? 45) then next 1
  else if bit 2 && (ch =? 48) then next 2
  else if bit 4 && isdigit ch then next 3
  else if bit 8 && ((ch =? 120) || (ch =? 88)) then next 4
  else if bit 16 && isxdigit ch then next 4
  else (JSON_NUMBER, false, p).

(** The characters as a C string: up to the first zero byte. *)
Fixpoint cstr (l : bytes) : bytes :=
  match l with [] => [] | c :: l' => if c =? 0 then [] else c :: cstr l' end.

Definition str (s : string) : bytes := map (fun c => Z.of_N (Ascii.N_of_ascii c)) (String.list_ascii_of_string s).

Definition cstr_eq (l : bytes) (s : string) : bool := bool_decide (cstr l = str s).

Definition token_literal (p : json_parser) (ch : Z) : json_token * bool * json_parser :=
  let good := isalpha ch in
  let good := if negb good && (0 <? length (j_token p))%nat then isdigit ch || (ch =? 95) else good in
  if good then (JSON_NONE, true, addc p ch)
  else if cstr_eq (j_token p) "false" then (JSON_FALSE, false, p)
  else if cstr_eq (j_token p) "true" then (JSON_TRUE, false, p)
  else if cstr_eq (j_token p) "null" then (JSON_NULL, false, p)
  else (JSON_LITERAL, false, p).

(** The token of a character found by [strchr("[]{},:", ch)], which also finds
    the terminating zero: then the result is 0, [JSON_NONE]. *)
Definition punctuation (ch : Z) : option json_token :=
  match ch with
  | 91 => Some JSON_BEGIN_ARRAY
  | 93 => Some JSON_END_ARRAY
  | 123 => Some JSON_BEGIN_OBJECT
  | 125 => Some JSON_END_OBJECT
  | 44 => Some JSON_VALUE_SEPARATOR
  | 58 => Some JSON_MEMBER_SEPARATOR
  | 0 => Some JSON_NONE
  | _ => None
  end.

Definition token_start (p : json_parser) (ch : Z) : json_token * bool * json_parser :=
  if ch =? EOF then (JSON_END, true, p)
  else if isjsonspace ch then (JSON_NONE, true, p)
  else
    let p := set_token p [] in
    match punctuation ch with
    | Some t => (t, true, addc p ch)
    | None =>
        if ch =? 34 then (JSON_NONE, true, set_tokenizer p json_token_string 0)
        else if isdigit ch || (ch =? 45) then (JSON_NONE, false, set_tokenizer p json_token_number 0)
        else if isalpha ch then (JSON_NONE, false, set_tokenizer p json_token_literal 0)
        else (JSON_UNKNOWN, true, addc p ch)
    end.

Definition run_tokenizer (p : json_parser) (ch : Z) : json_token * bool * json_parser :=
  match j_tokenizer p with
  | json_token_start => token_start p ch
  | json_token_string => token_string p ch
  | json_token_number => token_number p ch
  | json_token_literal => token_literal p ch
  end.

Definition json_init : json_parser := mkParser json_token_start [] 0 EOF.

(** The [do ... while (ch != EOF)] loop of [json_tokenizer]. *)
Fixpoint tokenizer_loop (fuel : nat) (p : json_parser) (ch : Z) : option (json_token * json_parser) :=
  match fuel with
  | O => None
  | S fuel' =>
      let '(result, consumed, p) := run_tokenizer p ch in
      if bool_decide (result = JSON_NONE) then
        let '(ch, p) := if consumed then (j_ungetc p, set_ungetc p EOF) else (ch, p) in
        if ch =? EOF then Some (JSON_NONE, p) else tokenizer_loop fuel' p ch
      else if negb consumed then
        if j_ungetc p =? EOF
        then Some (result, set_tokenizer (set_ungetc p ch) json_token_start (j_state p))
        else None
      else Some (result, set_tokenizer p json_token_start (j_state p))
  end.

(** [json_tokenizer(parser, ch)]: four rounds are enough, two per character. *)
Definition json_tokenizer (p : json_parser) (ch : Z) : option (json_token * json_parser) :=
  let '(ch, p) := if negb (j_ungetc p =? EOF) then (j_ungetc p, set_ungetc p ch) else (ch, p) in
  tokenizer_loop 5 p ch.

(** ** The boot index (fs_utils.c, ssbl.c) *)

(** [atoi]: leading white space, a sign, decimal digits. *)
Fixpoint atoi_digits (acc : Z) (s : bytes) : Z :=
  match s with
  | [] => acc
  | ch :: s' => if isdigit ch then atoi_digits (s32 (acc * 10 + (ch - 48))) s' else acc
  end.

Fixpoint skip_space (s : bytes) : bytes :=
  match s with
  | [] => []
  | ch :: s' => if (ch =? 32) || ((9 <=? ch) && (ch <=? 13)) then skip_space s' else s
  end.

Definition atoi (s : bytes) : Z :=
  match skip_space s with
  | 45 :: s' => s32 (- atoi_digits 0 s')
  | 43 :: s' => atoi_digits 0 s'
  | s' => atoi_digits 0 s'
  end.

Inductive json_parse_state := JSON_PARSE_STATE_KEY | JSON_PARSE_STATE_SEPRATOR | JSON_PARSE_STATE_VAL.

#[export] Instance json_parse_state_eq_dec : EqDecision json_parse_state.
Proof. solve_decision. Defined.

(** The character loop of [utils_get_boot_index] and [ssbl_boot_index_get]. *)
Fixpoint boot_index_loop (p : json_parser) (st : json_parse_state) (content : bytes) : option Z :=
  match content with
  | [] => Some (-1)
  | ch :: rest =>
      match json_tokenizer p ch with
      | None => None
      | Some (t, p) =>
          if bool_decide (t = JSON_END) then Some (-1)
          else if bool_decide (t = JSON_BEGIN_ARRAY) then
            boot_index_loop p JSON_PARSE_STATE_KEY rest
          else if bool_decide (st = JSON_PARSE_STATE_KEY /\ t = JSON_STRING) then
            boot_index_loop p JSON_PARSE_STATE_SEPRATOR rest
          else if bool_decide (st = JSON_PARSE_STATE_SEPRATOR /\ t = JSON_MEMBER_SEPARATOR) then
            boot_index_loop p JSON_PARSE_STATE_VAL rest
          else if bool_decide (st = JSON_PARSE_STATE_VAL /\ t = JSON_NUMBER) then
            Some (atoi (cstr (j_token p)))
          else boot_index_loop p st rest
      end
  end.

Definition utils_get_boot_index : M Z :=
  f_part <-- fopen_r BOOT_FILE_PATH ;;
  match f_part with
  | None => m_ret (-1)
  | Some content =>
      match boot_index_loop json_init JSON_PARSE_STATE_KEY content with
      | Some i => m_ret i
      | None => m_end Undefined
      end
  end.

(** [utils_file_absolute_path_get(path, out)]: "/root/p<index>/<path>". *)
Definition utils_file_absolute_path_get (path : string) : M (option string) :=
  boot_index <-- utils_get_boot_index ;;
  if boot_index <? 0 then m_ret None
  else m_ret (Some ("/root/p" +:+ pretty boot_index +:+ "/" +:+ path)%string).

(** ** The parser invariant *)

Record jwf (p : json_parser) : Prop := {
  jwf_token : (length (j_token p) < TOKEN_SIZE)%nat;
  jwf_unget : j_ungetc p <> EOF -> j_tokenizer p = json_token_start;
}.

Lemma addc_bound p ch : (length (j_token p) < TOKEN_SIZE)%nat -> (length (j_token (addc p ch)) < TOKEN_SIZE)%nat.
Proof.
  intros H. unfold addc. destruct (Nat.ltb_spec (length (j_token p)) (TOKEN_SIZE - 1)); [|done].
  simpl. rewrite length_app. simpl. lia.
Qed.

Lemma addc_same p ch :
  j_tokenizer (addc p ch) = j_tokenizer p /\ j_ungetc (addc p ch) = j_ungetc p /\ j_state (addc p ch) = j_state p.
Proof. unfold addc. by case_if. Qed.

(** What one call of a tokenizer function can do. *)
Lemma run_tokenizer_keeps p ch t c p' :
  run_tokenizer p ch = (t, c, p') -> (length (j_token p) < TOKEN_SIZE)%nat ->
  (length (j_token p') < TOKEN_SIZE)%nat /\ j_ungetc p' = j_ungetc p.
Proof.
  assert (H0 : (0 < TOKEN_SIZE)%nat) by (unfold TOKEN_SIZE; lia).
  assert (Hadd : forall q k, (length (j_token q) < TOKEN_SIZE)%nat ->
    (length (j_token (addc q k)) < TOKEN_SIZE)%nat /\ j_ungetc (addc q k) = j_ungetc q).
  { intros q k Hq. split; [by apply addc_bound|apply addc_same]. }
  intros Hr Hl. unfold run_tokenizer in Hr.
  destruct (j_tokenizer p);
    [unfold token_start in Hr|unfold token_string in Hr|unfold token_number in Hr|unfold token_literal in Hr];
    repeat match type of Hr with context [if ?b then _ else _] => destruct b end;
    try destruct (punctuation ch);
    repeat match type of Hr with context [if ?b then _ else _] => destruct b end;
    injection Hr as <- <- <-; try done;
    repeat match goal with
    | |- context [j_ungetc (addc ?q ?k)] => rewrite (proj1 (proj2 (addc_same q k)))
    end; split; try done; repeat apply addc_bound; try done.
Qed.

(** Outside [json_token_start] a character without a token is consumed. *)
Lemma run_tokenizer_consumes p ch c p' :
  run_tokenizer p ch = (JSON_NONE, c, p') -> j_tokenizer p <> json_token_start -> c = true.
Proof.
  intros Hr Hn. unfold run_tokenizer in Hr.
  destruct (j_tokenizer p); [done|unfold token_string in Hr|unfold token_number in Hr|unfold token_literal in Hr];
    repeat match type of Hr with context [if ?b then _ else _] => destruct b end; by simplify_eq.
Qed.

(** A character handed on by [json_token_start] is consumed at once by the
    function it selects, without a token. *)
Lemma start_hands_on p ch t p' :
  token_start p ch = (t, false, p') ->
  t = JSON_NONE /\ j_tokenizer p' <> json_token_start /\
  exists p2, run_tokenizer p' ch = (JSON_NONE, true, p2) /\ j_tokenizer p2 = j_tokenizer p'.
Proof.
  unfold token_start. destruct (ch =? EOF) eqn:E0; [done|]. destruct (isjsonspace ch) eqn:E1; [done|].
  destruct (punctuation ch) eqn:E2; [done|]. destruct (ch =? 34) eqn:E3; [done|].
  destruct (isdigit ch || (ch =? 45)) eqn:E4; [|destruct (isalpha ch) eqn:E5; [|done]];
    intros [= <- <-]; split; [done| |done|]; (split; [done|]); unfold run_tokenizer; simpl.
  - unfold token_number. simpl. unfold isdigit in *.
    destruct (ch =? 45) eqn:E45; simpl; [eexists; split; [done|apply addc_same]|].
    destruct (ch =? 48) eqn:E48; simpl; [eexists; split; [done|apply addc_same]|].
    rewrite orb_false_r in E4. rewrite E4. simpl. eexists; split; [done|apply addc_same].
  - unfold token_literal. rewrite E5. simpl. eexists; split; [done|apply addc_same].
Qed.

(** Two rounds are enough for a character when nothing is pushed back. *)
Lemma tokenizer_loop_last fuel p ch :
  (2 <= fuel)%nat -> jwf p -> j_ungetc p = EOF ->
  exists t p', tokenizer_loop fuel p ch = Some (t, p') /\ jwf p'.
Proof.
  intros Hf [Hl Hu] He. destruct fuel as [|[|fuel]]; [lia|lia|]. cbn [tokenizer_loop].
  destruct (run_tokenizer p ch) as [[t c] p1] eqn:Hr.
  destruct (run_tokenizer_keeps _ _ _ _ _ Hr Hl) as [Hl1 Hu1].
  case_bool_decide as Ht.
  - subst t. destruct c.
    + rewrite Hu1, He. simpl. eexists _, _. split; [done|]. split; simpl; [done|congruence].
    + destruct (decide (j_tokenizer p = json_token_start)) as [Es|Es];
        [|by apply run_tokenizer_consumes in Hr].
      unfold run_tokenizer in Hr. rewrite Es in Hr. apply start_hands_on in Hr as (_ & _ & p2 & Hr2 & _).
      destruct (run_tokenizer_keeps _ _ _ _ _ Hr2 Hl1) as [Hl2 Hu2].
      destruct (ch =? EOF).
      { eexists _, _. split; [done|]. split; [done|congruence]. }
      rewrite Hr2. simpl. rewrite Hu2, Hu1, He. simpl. eexists _, _. split; [done|].
      split; simpl; [done|congruence].
  - destruct c; simpl.
    + eexists _, _. split; [done|]. by split; simpl.
    + rewrite Hu1, He. simpl. eexists _, _. split; [done|]. by split; simpl.
Qed.

Lemma tokenizer_loop_first fuel p ch :
  (4 <= fuel)%nat -> jwf p -> j_ungetc p <> EOF ->
  exists t p', tokenizer_loop fuel p ch = Some (t, p') /\ jwf p'.
Proof.
  intros Hf [Hl Hu] Hne. destruct fuel as [|[|fuel]]; [lia|lia|]. specialize (Hu Hne).
  remember (S fuel) as fuel1. cbn [tokenizer_loop]. unfold run_tokenizer at 1. rewrite Hu.
  destruct (token_start p ch) as [[t c] p1] eqn:Hr.
  assert (Hr' : run_tokenizer p ch = (t, c, p1)) by (unfold run_tokenizer; by rewrite Hu).
  destruct (run_tokenizer_keeps _ _ _ _ _ Hr' Hl) as [Hl1 Hu1].
  case_bool_decide as Ht.
  - subst t. destruct c; simpl.
    + rewrite Hu1. destruct (Z.eqb_spec (j_ungetc p) EOF); [done|].
      apply tokenizer_loop_last; [lia| |done]. by split; simpl.
    + apply start_hands_on in Hr as (_ & Hns & p2 & Hr2 & Ht2).
      destruct (run_tokenizer_keeps _ _ _ _ _ Hr2 Hl1) as [Hl2 Hu2].
      destruct (ch =? EOF) eqn:Ee; b2p.
      { subst ch. unfold token_start in Hr'. by unfold run_tokenizer in Hr'; rewrite Hu in Hr'. }
      subst fuel1. cbn [tokenizer_loop]. rewrite Hr2. simpl. rewrite Hu2, Hu1.
      destruct (Z.eqb_spec (j_ungetc p) EOF); [done|].
      apply tokenizer_loop_last; [lia| |done]. by split; simpl.
  - destruct c; simpl.
    + eexists _, _. split; [done|]. by split; simpl.
    + by apply start_hands_on in Hr as (-> & _).
Qed.

(** [json_tokenizer] always returns: its loop ends, the assertion that no
    character is pushed back twice holds, and the token buffer is never
    overrun, from [json_init] on and for any sequence of characters. *)
Theorem json_tokenizer_total (p : json_parser) (ch : Z) :
  jwf p -> exists t p', json_tokenizer p ch = Some (t, p') /\ jwf p'.
Proof.
  intros Hp. unfold json_tokenizer. destruct (Z.eqb_spec (j_ungetc p) EOF) as [E|E]; simpl negb; cbv iota.
  - apply tokenizer_loop_last; [lia|done|done].
  - destruct Hp as [Hl Hu]. destruct (Z.eq_dec ch EOF) as [->|].
    + apply tokenizer_loop_last; [lia| |done]. by split; simpl.
    + apply tokenizer_loop_first; [lia| |done]. split; simpl; [done|]. intros _. by apply Hu.
Qed.

Lemma jwf_init : jwf json_init.
Proof. split; simpl; [unfold TOKEN_SIZE; lia|done]. Qed.

Lemma json_tokenizer_total_witness :
  exists t p', json_tokenizer json_init 123 = Some (t, p') /\ jwf p'.
Proof. apply (json_tokenizer_total json_init 123). apply jwf_init. Defined.

(** ** Tokens the tokenizer recognises *)

(** Between two tokens, with nothing pushed back. *)
Definition fresh (p : json_parser) : Prop := j_tokenizer p = json_token_start /\ j_ungetc p = EOF.

Definition plain (ch : Z) : Prop := 0 < ch < 256 /\ ch <> 34 /\ ch <> 92.

Lemma fresh_init : fresh json_init.
Proof. by split. Qed.

Lemma space_skipped p ch : fresh p -> isjsonspace ch = true -> json_tokenizer p ch = Some (JSON_NONE, p).
Proof.
  intros [Ht Hu] Hs. unfold json_tokenizer. rewrite Hu. simpl. unfold run_tokenizer. rewrite Ht.
  unfold token_start. rewrite Hs. destruct (ch =? EOF) eqn:E; b2p; [by subst|].
  rewrite Hu. simpl. destruct p; simpl in *. by subst.
Qed.

Lemma punctuation_token p ch t :
  fresh p -> punctuation ch = Some t -> t <> JSON_NONE ->
  exists p', json_tokenizer p ch = Some (t, p') /\ fresh p'.
Proof.
  intros [Ht Hu] Hp Hn. unfold json_tokenizer. rewrite Hu. simpl. unfold run_tokenizer. rewrite Ht.
  unfold token_start. destruct (ch =? EOF) eqn:E; b2p; [by subst|].
  destruct (isjsonspace ch) eqn:Es.
  { assert (ch = 32 \/ ch = 9 \/ ch = 10 \/ ch = 13) as Hc by (unfold isjsonspace in Es; b2p; lia).
    by repeat destruct Hc as [->|Hc]; [..|subst ch]. }
  rewrite Hp. rewrite bool_decide_eq_false_2 by done. eexists. split; [done|]. by split; [|cbn [set_tokenizer j_ungetc]; rewrite (proj1 (proj2 (addc_same _ _)))].
Qed.

(** A quote opens a string, its plain characters are collected up to the
    buffer's size, the next quote closes it. *)
Lemma quote_opens p : fresh p -> json_tokenizer p 34 = Some (JSON_NONE, mkParser json_token_string [] 0 EOF).
Proof.
  intros [Ht Hu]. unfold json_tokenizer. rewrite Hu. simpl. unfold run_tokenizer. rewrite Ht.
  unfold token_start. simpl. by rewrite Hu.
Qed.

(** The buffer after one more character. *)
Definition push (tok : bytes) (ch : Z) : bytes :=
  if (length tok <? TOKEN_SIZE - 1)%nat then tok ++ [ch] else tok.

Lemma addc_push p ch : j_token (addc p ch) = push (j_token p) ch.
Proof. unfold addc, push. by case_if. Qed.

Lemma fold_push s tok :
  (length tok < TOKEN_SIZE)%nat -> foldl push tok s = take (TOKEN_SIZE - 1) (tok ++ s).
Proof.
  revert tok. induction s as [|c s IH]; intros tok Hl; cbn [foldl].
  - by rewrite app_nil_r, take_ge by lia.
  - unfold push at 2. destruct (Nat.ltb_spec (length tok) (TOKEN_SIZE - 1)) as [H|H].
    + rewrite IH by (rewrite length_app; simpl; lia). by rewrite <- app_assoc.
    + rewrite IH by done. assert (Hk : length tok = (TOKEN_SIZE - 1)%nat) by lia.
      by rewrite <- Hk, !take_app_length.
Qed.

Lemma string_char tok ch :
  plain ch ->
  json_tokenizer (mkParser json_token_string tok 0 EOF) ch =
  Some (JSON_NONE, mkParser json_token_string (push tok ch) 0 EOF).
Proof.
  intros (H0 & H1 & H2). unfold json_tokenizer. simpl. unfold run_tokenizer. simpl. unfold token_string. simpl.
  destruct (Z.eqb_spec ch EOF) as [->|]; [unfold EOF in *; lia|].
  destruct (Z.eqb_spec ch 92); [done|]. destruct (Z.eqb_spec ch 34); [done|].
  rewrite bool_decide_eq_true_2 by done. unfold addc, push. cbn [j_token]. by destruct (_ <? _)%nat.
Qed.

Lemma quote_closes tok :
  json_tokenizer (mkParser json_token_string tok 0 EOF) 34 =
  Some (JSON_STRING, mkParser json_token_start tok 0 EOF).
Proof. done. Qed.

(** A run of digits is collected as a number token. *)
Definition in_number (p : json_parser) (tok : bytes) : Prop :=
  exists st, p = mkParser json_token_number tok st EOF /\ (st = 2 \/ st = 3).

Lemma digit_opens p ch :
  fresh p -> isdigit ch = true ->
  exists p', json_tokenizer p ch = Some (JSON_NONE, p') /\ in_number p' [ch].
Proof.
  intros [Ht Hu] Hd. assert (48 <= ch <= 57) as Hr by (unfold isdigit in Hd; b2p; lia).
  assert (ch = 48 \/ ch = 49 \/ ch = 50 \/ ch = 51 \/ ch = 52 \/ ch = 53 \/ ch = 54 \/ ch = 55 \/ ch = 56 \/ ch = 57)
    as Hc by lia.
  unfold json_tokenizer. rewrite Hu. simpl. unfold run_tokenizer at 1. rewrite Ht.
  destruct p as [tk tok st un]; simpl in *; subst.
  by (repeat destruct Hc as [Hc|Hc]); subst ch; (eexists; split; [reflexivity|]); eexists; (split; [reflexivity|auto]).
Qed.

Lemma digit_next p tok ch :
  in_number p tok -> isdigit ch = true ->
  exists p', json_tokenizer p ch = Some (JSON_NONE, p') /\ in_number p' (push tok ch).
Proof.
  intros (st & -> & Hst) Hd.
  destruct (Z.eqb_spec ch EOF) as [->|Hne]; [done|].
  assert (Hn : token_number (mkParser json_token_number tok st EOF) ch
    = (JSON_NONE, true, addc (mkParser json_token_number tok 3 EOF) ch)).
  { unfold token_number. destruct Hst as [-> | ->]; simpl; by rewrite Hd. }
  unfold json_tokenizer. simpl. unfold run_tokenizer. simpl. rewrite Hn.
  rewrite bool_decide_eq_true_2 by done.
  rewrite (proj1 (proj2 (addc_same _ _))). simpl. eexists. split; [done|]. exists 3.
  split; [|by right]. unfold addc, push. cbn [j_token]. by destruct (_ <? _)%nat.
Qed.

Definition delimiter (ch : Z) : bool := isjsonspace ch || (ch =? 44) || (ch =? 125) || (ch =? 93).

Lemma number_ends p tok ch :
  in_number p tok -> delimiter ch = true ->
  exists p', json_tokenizer p ch = Some (JSON_NUMBER, p') /\ j_token p' = tok.
Proof.
  intros (st & -> & Hst) Hd.
  assert (ch = 32 \/ ch = 9 \/ ch = 10 \/ ch = 13 \/ ch = 44 \/ ch = 125 \/ ch = 93) as Hc
    by (unfold delimiter, isjsonspace in Hd; b2p; lia).
  destruct Hst as [-> | ->]; (repeat destruct Hc as [Hc|Hc]); subst ch;
    (eexists; split; [reflexivity|reflexivity]).
Qed.

(** ** The loop of the boot index on a one-member object *)

Lemma boot_loop_none p p' ch st rest :
  json_tokenizer p ch = Some (JSON_NONE, p') ->
  boot_index_loop p st (ch :: rest) = boot_index_loop p' st rest.
Proof. intros H. cbn [boot_index_loop]. rewrite H. by destruct st. Qed.

Lemma boot_loop_spaces p st ws rest :
  fresh p -> Forall (fun c => isjsonspace c = true) ws ->
  boot_index_loop p st (ws ++ rest) = boot_index_loop p st rest.
Proof.
  intros Hf Hw. induction Hw as [|c ws Hc Hw IH]; [done|]. simpl app.
  by rewrite (boot_loop_none _ _ _ _ _ (space_skipped _ _ Hf Hc)).
Qed.

Lemma boot_loop_string tok key st rest :
  Forall plain key ->
  boot_index_loop (mkParser json_token_string tok 0 EOF) st (key ++ rest) =
  boot_index_loop (mkParser json_token_string (foldl push tok key) 0 EOF) st rest.
Proof.
  intros Hk. revert tok. induction Hk as [|c key Hc Hk IH]; intros tok; [done|]. simpl app.
  by rewrite (boot_loop_none _ _ _ _ _ (string_char _ _ Hc)).
Qed.

Lemma boot_loop_digits p tok ds d rest :
  in_number p tok -> Forall (fun c => isdigit c = true) ds -> delimiter d = true ->
  boot_index_loop p JSON_PARSE_STATE_VAL (ds ++ d :: rest) = Some (atoi (cstr (foldl push tok ds))).
Proof.
  intros Hp Hds Hd. revert p tok Hp. induction Hds as [|c ds Hc Hds IH]; intros p tok Hp; simpl app.
  - destruct (number_ends _ _ _ Hp Hd) as (p' & Hn & <-). cbn [boot_index_loop]. by rewrite Hn.
  - destruct (digit_next _ _ _ Hp Hc) as (p' & Hn & Hp').
    rewrite (boot_loop_none _ _ _ _ _ Hn). by apply IH.
Qed.

Lemma atoi_digits_value ds acc :
  Forall (fun c => isdigit c = true) ds -> 0 <= acc ->
  fold_left (fun a c => a * 10 + (c - 48)) ds acc < 2 ^ 31 ->
  atoi_digits acc ds = fold_left (fun a c => a * 10 + (c - 48)) ds acc.
Proof.
  intros Hds. revert acc. induction Hds as [|c ds Hc Hds IH]; intros acc Ha Hb; [done|]. simpl in *.
  rewrite Hc. unfold isdigit in Hc. b2p.
  assert (Hmono : forall l a, Forall (fun c => isdigit c = true) l -> 0 <= a ->
    a <= fold_left (fun a c => a * 10 + (c - 48)) l a).
  { induction l as [|x l IHl]; intros a Hl Hpos; simpl; [lia|]. inversion Hl as [|? ? Hx Hl']; subst.
    unfold isdigit in Hx. b2p. specialize (IHl (a * 10 + (x - 48)) Hl'). lia. }
  pose proof (Hmono ds (acc * 10 + (c - 48)) Hds) as Hm.
  assert (Hs : s32 (acc * 10 + (c - 48)) = acc * 10 + (c - 48)) by (apply s32_small; lia).
  rewrite Hs. apply IH; [lia|done].
Qed.

(** White space, an object with one member whose value is a run of digits. *)
Definition one_member (w0 w1 key w2 w3 ds : bytes) (d : Z) (rest : bytes) : bytes :=
  w0 ++ 123 :: w1 ++ 34 :: key ++ 34 :: w2 ++ 58 :: w3 ++ ds ++ d :: rest.

Definition spaces (w : bytes) : Prop := Forall (fun c => isjsonspace c = true) w.
Definition digits (w : bytes) : Prop := Forall (fun c => isdigit c = true) w.

Lemma cstr_plain l : Forall (fun c => c <> 0) l -> cstr l = l.
Proof. induction 1 as [|c l Hc Hl IH]; simpl; [done|]. destruct (Z.eqb_spec c 0); [done|]. by rewrite IH. Qed.

Lemma atoi_value ds :
  digits ds -> (0 < length ds)%nat -> dec_val ds < 2 ^ 31 -> atoi ds = dec_val ds.
Proof.
  intros Hds Hn Hv. destruct ds as [|c ds]; [simpl in Hn; lia|].
  pose proof (Forall_inv Hds) as Hc. simpl in Hc.
  assert (Hr : 48 <= c <= 57) by (unfold isdigit in Hc; b2p; lia).
  assert (He : atoi (c :: ds) = atoi_digits 0 (c :: ds)).
  { unfold atoi. cbn [skip_space].
    destruct (Z.eqb_spec c 32); [lia|]. destruct (Z.leb_spec c 13); [lia|]. rewrite andb_false_r. cbn [orb].
    assert (Hk : c = 48 \/ c = 49 \/ c = 50 \/ c = 51 \/ c = 52 \/ c = 53 \/ c = 54 \/ c = 55 \/ c = 56 \/ c = 57)
      by lia.
    repeat destruct Hk as [->|Hk]; try done. by subst c. }
  rewrite He. by apply atoi_digits_value.
Qed.

Lemma boot_index_exact w0 w1 key w2 w3 ds d rest :
  spaces w0 -> spaces w1 -> Forall plain key -> spaces w2 -> spaces w3 ->
  digits ds -> (0 < length ds < TOKEN_SIZE)%nat -> dec_val ds < 2 ^ 31 -> delimiter d = true ->
  boot_index_loop json_init JSON_PARSE_STATE_KEY (one_member w0 w1 key w2 w3 ds d rest) = Some (dec_val ds).
Proof.
  intros H0 H1 Hk H2 H3 Hds Hn Hv Hd. unfold one_member.
  rewrite boot_loop_spaces by (apply fresh_init || done).
  destruct (punctuation_token json_init 123 JSON_BEGIN_OBJECT fresh_init eq_refl) as (p & Hp & Hf); [done|].
  cbn [boot_index_loop]. rewrite Hp. simpl bool_decide. cbv iota.
  rewrite boot_loop_spaces by done.
  rewrite (boot_loop_none _ _ _ _ _ (quote_opens p Hf)), boot_loop_string by done.
  cbn [boot_index_loop]. rewrite quote_closes. simpl bool_decide. cbv iota.
  rewrite boot_loop_spaces by done.
  match goal with |- context [boot_index_loop ?q _ (58 :: _)] =>
    destruct (punctuation_token q 58 JSON_MEMBER_SEPARATOR (conj eq_refl eq_refl) eq_refl) as (p2 & Hp2 & Hf2); [done|]
  end.
  cbn [boot_index_loop]. rewrite Hp2. simpl bool_decide. cbv iota.
  rewrite boot_loop_spaces by done.
  destruct ds as [|c ds]; [simpl in Hn; lia|]. inversion Hds as [|? ? Hc Hds']; subst.
  destruct (digit_opens p2 c Hf2 Hc) as (p3 & Hp3 & Hin). simpl app.
  rewrite (boot_loop_none _ _ _ _ _ Hp3), (boot_loop_digits _ _ _ _ _ Hin Hds' Hd).
  rewrite fold_push by (simpl; unfold TOKEN_SIZE; lia). simpl app. rewrite take_ge by (cbn [length] in *; unfold TOKEN_SIZE in *; lia).
  rewrite cstr_plain; [rewrite atoi_value; [done|done|lia|done]|].
  eapply Forall_impl; [exact Hds|]. intros x Hx. simpl in Hx. unfold isdigit in Hx. b2p. lia.
Qed.

Lemma runs_boot_index E d content i :
  d !! BOOT_FILE_PATH = Some content ->
  boot_index_loop json_init JSON_PARSE_STATE_KEY content = Some i ->
  runs E d utils_get_boot_index (Ret i) [].
Proof.
  intros Hd Hi. unfold utils_get_boot_index. eapply runs_pure; [apply runs_fopen_r|].
  rewrite Hd, Hi. apply runs_ret.
Qed.

(** The boot index the second-stage loader and the applications read from
    boot.json is the number written in it: for an object with a key and a
    decimal value below 2^31, laid out with any white space, the reader returns
    that value and leaves the file system as it is, whatever follows the value
    in the file. *)
Theorem boot_index_reads (E : env) (d : disk) (w0 w1 key w2 w3 ds rest : bytes) (delim : Z) :
  d !! BOOT_FILE_PATH = Some (one_member w0 w1 key w2 w3 ds delim rest) ->
  spaces w0 -> spaces w1 -> Forall plain key -> spaces w2 -> spaces w3 ->
  digits ds -> (0 < length ds < TOKEN_SIZE)%nat -> dec_val ds < 2 ^ 31 -> delimiter delim = true ->
  runs E d utils_get_boot_index (Ret (dec_val ds)) [].
Proof. intros. eapply runs_boot_index; [done|]. by apply boot_index_exact. Qed.

(** The file written by FOTA: "image" with a value, indented by four. *)
Definition boot_json_1 : bytes := one_member [] (10 :: replicate 4 32) (str "image") [] [32] [49] 10 [125].

Lemma boot_index_reads_witness :
  runs good_env {[ BOOT_FILE_PATH := boot_json_1 ]} utils_get_boot_index (Ret 1) [].
Proof.
  apply (boot_index_reads good_env {[ BOOT_FILE_PATH := boot_json_1 ]}
    [] (10 :: replicate 4 32) (str "image") [] [32] [49] [125] 10).
  - apply lookup_singleton_eq.
  - constructor.
  - by repeat constructor.
  - unfold plain. repeat constructor; simpl; lia.
  - constructor.
  - by repeat constructor.
  - by repeat constructor.
  - unfold TOKEN_SIZE. simpl. lia.
  - done.
  - done.
Defined.

(** ** Strings: escaping and the tokenizer *)

(** The escapes of RFC 8259 for the characters that have a short one. *)
Definition escape (c : Z) : bytes :=
  match c with
  | 34 => [92; 34] | 92 => [92; 92] | 8 => [92; 98] | 12 => [92; 102]
  | 10 => [92; 110] | 13 => [92; 114] | 9 => [92; 116] | _ => [c]
  end.

(** The tokens other than [JSON_NONE] produced by a sequence of characters. *)
Fixpoint feed (p : json_parser) (l : bytes) : option (list (json_token * bytes) * json_parser) :=
  match l with
  | [] => Some ([], p)
  | ch :: l' =>
      match json_tokenizer p ch with
      | None => None
      | Some (t, p') =>
          match feed p' l' with
          | None => None
          | Some (ts, p2) => Some (if bool_decide (t = JSON_NONE) then (ts, p2) else ((t, j_token p') :: ts, p2))
          end
      end
  end.

Lemma feed_none p p' ch l : json_tokenizer p ch = Some (JSON_NONE, p') -> feed p (ch :: l) = feed p' l.
Proof. intros H. cbn [feed]. rewrite H. by destruct (feed p' l) as [[ts p2]|]. Qed.

Lemma escaped_char tok c e l :
  escape c = [92; e] ->
  feed (mkParser json_token_string tok 0 EOF) (92 :: e :: l) =
  feed (mkParser json_token_string (push tok c) 0 EOF) l.
Proof.
  intros He. rewrite (feed_none _ (mkParser json_token_string tok 1 EOF)) by done.
  assert (Hc : (c, e) = (34, 34) \/ (c, e) = (92, 92) \/ (c, e) = (8, 98) \/ (c, e) = (12, 102) \/
               (c, e) = (10, 110) \/ (c, e) = (13, 114) \/ (c, e) = (9, 116)).
  { unfold escape in He. repeat case_match; simplify_eq; tauto. }
  apply feed_none. unfold push.
  repeat destruct Hc as [Hc|Hc]; injection Hc as -> ->; unfold json_tokenizer, run_tokenizer; simpl;
    unfold run_tokenizer, token_string, addc; simpl; by destruct (_ <? _)%nat.
Qed.

Lemma escape_cases c :
  0 < c < 256 -> (plain c /\ escape c = [c]) \/ (exists e, escape c = [92; e]).
Proof.
  intros Hc. unfold plain.
  destruct (decide (c = 34)) as [->|]; [right; by eexists|].
  destruct (decide (c = 92)) as [->|]; [right; by eexists|].
  unfold escape. repeat case_match; eauto; left; done.
Qed.

Lemma feed_string tok s l :
  Forall (fun c => 0 < c < 256) s ->
  feed (mkParser json_token_string tok 0 EOF) (concat (map escape s) ++ l) =
  feed (mkParser json_token_string (foldl push tok s) 0 EOF) l.
Proof.
  intros Hs. revert tok. induction Hs as [|c s Hc Hs IH]; intros tok; [done|].
  cbn [map concat]. rewrite <- app_assoc.
  destruct (escape_cases c Hc) as [[Hp ->]|[e He]].
  - simpl app. rewrite (feed_none _ _ _ _ (string_char tok c Hp)). apply IH.
  - rewrite He. simpl app. rewrite (escaped_char _ _ _ _ He). apply IH.
Qed.

(** A string printed with the short escapes of JSON between quotes is read
    back by the tokenizer as one [JSON_STRING] token that holds the string, cut
    at the 79 characters of the token buffer, and the tokenizer is then ready
    for the next token. *)
Theorem json_string_roundtrip (p : json_parser) (s : bytes) :
  fresh p -> Forall (fun c => 0 < c < 256) s ->
  exists p', feed p (34 :: concat (map escape s) ++ [34]) = Some ([(JSON_STRING, take (TOKEN_SIZE - 1) s)], p') /\
    fresh p'.
Proof.
  intros Hf Hs. rewrite (feed_none _ _ _ _ (quote_opens p Hf)), feed_string by done.
  cbn [feed]. rewrite quote_closes. rewrite fold_push by (unfold TOKEN_SIZE; simpl; lia).
  eexists. by split.
Qed.

Lemma json_string_roundtrip_witness :
  exists p', feed json_init [34; 97; 92; 34; 92; 110; 34] = Some ([(JSON_STRING, [97; 34; 10])], p') /\ fresh p'.
Proof.
  apply (json_string_roundtrip json_init [97; 34; 10]); [apply fresh_init|].
  repeat constructor; lia.
Defined.
