(* ===== verification/CString.v ===== *)
(** * C strings

    The string functions of the C library the components use, on strings as
    lists of characters without the terminating zero.  [cstr] and [str] are in
    BasicJson. *)

From S2P Require Import Prelude FileSys FsUtils BasicJson.

Definition tolower (c : Z) : Z := if (65 <=? c) && (c <=? 90) then c + 32 else c.

(** [strncmp(s, pat, strlen(pat)) == 0] *)
Fixpoint starts_with (pat s : bytes) : bool :=
  match pat, s with
  | [], _ => true
  | p :: pat', c :: s' => (p =? c) && starts_with pat' s'
  | _ :: _, [] => false
  end.

(** [strncasecmp(s, pat, strlen(pat)) == 0] *)
Definition starts_with_nocase (pat s : bytes) : bool := starts_with (map tolower pat) (map tolower s).

(** [strcasecmp(a, b) == 0] *)
Definition strcaseeq (a b : bytes) : bool := bool_decide (map tolower a = map tolower b).

(** [strstr(s, pat)] as an offset. *)
Fixpoint strstr (pat s : bytes) : option nat :=
  if starts_with pat s then Some 0%nat
  else match s with
       | [] => None
       | _ :: s' => match strstr pat s' with Some i => Some (S i) | None => None end
       end.

(** The character array as a path name. *)
Definition to_string (l : bytes) : string :=
  String.string_of_list_ascii (map (fun c => Ascii.ascii_of_N (Z.to_N c)) l).

(** ** Lemmas *)

Lemma starts_with_prefix pat s : starts_with pat s = true <-> pat `prefix_of` s.
Proof.
  revert s. induction pat as [|p pat IH]; intros s; simpl; [split; [intros _; apply prefix_nil|done]|].
  destruct s as [|c s]; [split; [done|intros H; by apply prefix_nil_not in H]|].
  rewrite andb_true_iff, Z.eqb_eq, IH. split.
  - intros [-> H]. by apply prefix_cons.
  - intros H. by apply prefix_cons_inv_1 in H as Hp; apply prefix_cons_inv_2 in H.
Qed.

(** The first occurrence: nothing before it, the pattern at it. *)
Lemma strstr_some pat s i :
  strstr pat s = Some i -> pat `prefix_of` drop i s /\ forall j, (j < i)%nat -> ~ pat `prefix_of` drop j s.
Proof.
  revert i. induction s as [|c s IH]; intros i; cbn [strstr].
  - destruct (starts_with pat []) eqn:E; [|done]. intros [= <-]. apply starts_with_prefix in E.
    split; [done|]. intros j Hj. lia.
  - destruct (starts_with pat (c :: s)) eqn:E.
    { intros [= <-]. apply starts_with_prefix in E. split; [done|]. intros j Hj. lia. }
    destruct (strstr pat s) as [k|]; [|done]. intros [= <-]. destruct (IH k eq_refl) as [H1 H2].
    split; [done|]. intros [|j] Hj; simpl.
    + rewrite <- starts_with_prefix. by rewrite E.
    + apply H2. lia.
Qed.

Lemma strstr_none pat s : strstr pat s = None -> forall j, ~ pat `prefix_of` drop j s.
Proof.
  induction s as [|c s IH]; cbn [strstr]; destruct (starts_with pat _) eqn:E; try done.
  - intros _ j. rewrite drop_nil, <- starts_with_prefix. by rewrite E.
  - destruct (strstr pat s); [done|]. intros _ [|j]; simpl; [rewrite <- starts_with_prefix; by rewrite E|].
    by apply IH.
Qed.

Lemma strstr_first pat s i :
  pat `prefix_of` drop i s -> (forall j, (j < i)%nat -> ~ pat `prefix_of` drop j s) -> strstr pat s = Some i.
Proof.
  intros H1 H2. destruct (strstr pat s) as [k|] eqn:E.
  - apply strstr_some in E as [H3 H4]. f_equal.
    destruct (decide (k < i)%nat) as [H|H]; [by apply H2 in H3|].
    destruct (decide (i < k)%nat) as [H'|H']; [by apply H4 in H1|]. lia.
  - by apply (strstr_none _ _ E) in H1.
Qed.
