(* ===== verification/HttpClient.v ===== *)
(** * The HTTP client (components/http/src/http_client.c) *)

From S2P Require Import Prelude FileSys FsUtils BasicJson CString.

(** ** URLs *)

(** [http_client_url_to_host(url, host, hmax, path, pmax, &port)]: [None] for
    the result -1, else host, path and port. *)
Definition http_client_url_to_host (url : bytes) (host_max_len path_max_len : Z) : option (bytes * bytes * Z) :=
  let default_port :=
    if starts_with (str "https") url || starts_with (str "wss") url then Some 443
    else if starts_with (str "http") url || starts_with (str "ws") url then Some 80
    else None in
  match default_port with
  | None => None
  | Some default_port =>
      match strstr (str "//") url with
      | None => None
      | Some i =>
          let p := drop (i + 2) url in
          let '(path, len) :=
            match strstr (str "/") p with
            | Some k => (drop k p, Z.of_nat k)
            | None => (str "/", zlen p)
            end in
          if path_max_len <=? zlen path then None
          else if host_max_len <=? len then None
          else
            let host := take (Z.to_nat len) p in
            match strstr (str ":") host with
            | Some k => Some (take k host, path, atoi (drop (S k) host))
            | None => Some (host, path, default_port)
            end
      end
  end.

(** ** Lemmas *)

Lemma prefix_one c (l : bytes) : [c] `prefix_of` l <-> head l = Some c.
Proof.
  split; [by intros [r ->]|]. destruct l as [|a l]; [done|]. simpl. intros [= ->]. by exists l.
Qed.

(** The first occurrence of a character that the part before lacks. *)
Lemma strstr_char c a b : c ∉ a -> strstr [c] (a ++ c :: b) = Some (length a).
Proof.
  intros Ha. apply strstr_first.
  - rewrite drop_app_length. by exists b.
  - intros j Hj. rewrite prefix_one, drop_app_le by lia. intros Hh. apply Ha.
    destruct (drop j a) as [|x r] eqn:E.
    + apply (f_equal length) in E. rewrite length_drop in E. simpl in E. lia.
    + simpl in Hh. injection Hh as ->. rewrite <- (take_drop j a), E. set_solver.
Qed.

Lemma strstr_char_none c a : c ∉ a -> strstr [c] a = None.
Proof.
  intros Ha. destruct (strstr [c] a) as [k|] eqn:E; [|done].
  apply strstr_some in E as [[r H] _]. exfalso. apply Ha. rewrite <- (take_drop k a), H. set_solver.
Qed.

(** ** URLs: what is printed is what is parsed *)

Definition url_schemes : list (bytes * Z) :=
  [(str "http", 80); (str "https", 443); (str "ws", 80); (str "wss", 443)].

Definition port_part (port : option bytes) : bytes := match port with None => [] | Some ds => 58 :: ds end.

Definition print_url (scheme host : bytes) (port : option bytes) (path : bytes) : bytes :=
  scheme ++ str "://" ++ host ++ port_part port ++ path.

Definition port_ok (port : option bytes) : Prop :=
  match port with None => True | Some ds => digits ds /\ (0 < length ds)%nat /\ dec_val ds < 2 ^ 31 end.

Lemma url_scheme scheme dport rest hmax pmax :
  (scheme, dport) ∈ url_schemes ->
  http_client_url_to_host (scheme ++ str "://" ++ rest) hmax pmax =
  (let '(path, len) := match strstr (str "/") rest with
     | Some k => (drop k rest, Z.of_nat k) | None => (str "/", zlen rest) end in
   if pmax <=? zlen path then None else if hmax <=? len then None
   else let host := take (Z.to_nat len) rest in
     match strstr (str ":") host with
     | Some k => Some (take k host, path, atoi (drop (S k) host))
     | None => Some (host, path, dport)
     end).
Proof. unfold url_schemes. rewrite !elem_of_cons, elem_of_nil. by intros [[= -> ->]|[[= -> ->]|[[= -> ->]|[[= -> ->]|[]]]]]. Qed.

Lemma digits_no c ds : digits ds -> (c < 48 \/ 57 < c) -> c ∉ ds.
Proof.
  intros Hd Hc Hin. unfold digits in Hd. rewrite Forall_forall in Hd. specialize (Hd c Hin).
  unfold isdigit in Hd. b2p. lia.
Qed.

Lemma url_exact scheme dport host port path hmax pmax :
  (scheme, dport) ∈ url_schemes -> 47 ∉ host -> 58 ∉ host -> port_ok port ->
  path = [] \/ head path = Some 47 ->
  zlen path < pmax -> 1 < pmax -> zlen (host ++ port_part port) < hmax ->
  http_client_url_to_host (print_url scheme host port path) hmax pmax =
  Some (host, if bool_decide (path = []) then str "/" else path,
        match port with None => dport | Some ds => dec_val ds end).
Proof.
  intros Hs Hh Hc Hp Hpath Hpl Hp1 Hhl. unfold print_url. rewrite (url_scheme _ dport) by done.
  rewrite app_assoc. set (auth := host ++ port_part port) in *.
  assert (Hauth : 47 ∉ auth).
  { unfold auth. destruct port as [ds|]; simpl; rewrite ?app_nil_r; [|done]. destruct Hp as [Hd _].
    rewrite not_elem_of_app, not_elem_of_cons. split_and!; [done|lia|]. by apply digits_no; [|lia]. }
  assert (Hrest : (let '(pth, len) := match strstr (str "/") (auth ++ path) with
     | Some k => (drop k (auth ++ path), Z.of_nat k) | None => (str "/", zlen (auth ++ path)) end in
     (pth, len)) = (if bool_decide (path = []) then str "/" else path, zlen auth)).
  { change (strstr (str "/")) with (strstr [47]). destruct path as [|c path].
    - rewrite app_nil_r, strstr_char_none by done. done.
    - destruct Hpath as [Hpath|[= ->]]; [done|]. rewrite strstr_char by done.
      by rewrite drop_app_length. }
  destruct (match strstr (str "/") (auth ++ path) with Some k => _ | None => _ end) as [pth len] eqn:Em.
  injection Hrest as -> ->.
  assert (Hpz : zlen (if bool_decide (path = []) then str "/" else path) < pmax)
    by (case_bool_decide; [unfold zlen; simpl; lia|done]).
  destruct (Z.leb_spec pmax (zlen (if bool_decide (path = []) then str "/" else path))); [lia|].
  destruct (Z.leb_spec hmax (zlen auth)); [lia|].
  assert (Ht : take (Z.to_nat (zlen auth)) (auth ++ path) = auth)
    by (unfold zlen; rewrite Nat2Z.id; by rewrite take_app_length).
  rewrite Ht. change (str ":") with [58]. cbv zeta. unfold auth. destruct port as [ds|]; simpl port_part.
  - rewrite strstr_char by done. rewrite take_app_length.
    rewrite (drop_app_ge _ _ (S (length host))) by lia.
    replace (S (length host) - length host)%nat with 1%nat by lia. simpl drop. rewrite drop_0.
    destruct Hp as (Hd & Hn & Hv). by rewrite atoi_value.
  - rewrite app_nil_r, strstr_char_none by done. done.
Qed.

(** A URL of one of the four schemes with a host, an optional decimal port
    and an absolute or empty path is split into exactly these parts; the port
    defaults to the scheme's and the path to the root. *)
Theorem url_roundtrip (scheme : bytes) (dport : Z) (host : bytes) (port : option bytes) (path : bytes) (hmax pmax : Z) :
  (scheme, dport) ∈ url_schemes -> 47 ∉ host -> 58 ∉ host -> port_ok port ->
  path = [] \/ head path = Some 47 ->
  zlen path < pmax -> 1 < pmax -> zlen (host ++ port_part port) < hmax ->
  http_client_url_to_host (print_url scheme host port path) hmax pmax =
  Some (host, if bool_decide (path = []) then str "/" else path,
        match port with None => dport | Some ds => dec_val ds end).
Proof. apply url_exact. Qed.

Lemma url_roundtrip_witness :
  http_client_url_to_host (str "https://a.io:8443/fw/x.elf") 256 256 = Some (str "a.io", str "/fw/x.elf", 8443).
Proof.
  apply (url_roundtrip (str "https") 443 (str "a.io") (Some (str "8443")) (str "/fw/x.elf") 256 256).
  - unfold url_schemes. apply list_elem_of_further, list_elem_of_here.
  - apply (bool_decide_unpack _). by vm_compute.
  - apply (bool_decide_unpack _). by vm_compute.
  - split; [by repeat constructor|]. split; [simpl; lia|done].
  - by right.
  - done.
  - done.
  - done.
Defined.
