(* ===== verification/HttpRequest.v ===== *)
(** * HTTP requests (components/http/src/http_client.c)

    The request headers of a handle, the text of a request and the segments it
    is sent in.  The socket is the list of buffers passed to it; the results of
    [send] do not matter, since the code compares an unsigned variable with
    zero. *)

From S2P Require Import Prelude FileSys FsUtils BasicJson CString HttpClient.

Definition HTTP_MAX_REQ_HDRS : nat := 10.
Definition MAX_SEND_BUF_SIZE : Z := 1460.
Definition MAX_SEGMENT_SIZE : Z := 1460.

Inductive http_method := HTTP_GET | HTTP_HEAD | HTTP_POST | HTTP_PUT | HTTP_DELETE | HTTP_CONNECT.

Definition http_method_table (m : http_method) : bytes :=
  str (match m with
       | HTTP_GET => "GET" | HTTP_HEAD => "HEAD" | HTTP_POST => "POST"
       | HTTP_PUT => "PUT" | HTTP_DELETE => "DELETE" | HTTP_CONNECT => "CONNECT"
       end).

Definition CRLF : bytes := [13; 10].

(** The request part of the handle. *)
Record req_state := mkReqState {
  rq_hdrs : list bytes;            (* req_hdrs[0 .. req_hdr_index) *)
  rq_host_present : bool;          (* HTTP_FLAG_HOST_HDR_PRESENT *)
  rq_clen_present : bool;          (* HTTP_FLAG_CONTENT_LEN_HDR_PRESENT *)
  rq_body_len : Z;                 (* req_body_len *)
  rq_hostname : bytes;
}.

(** The index of the header that starts with the name, case not counting. *)
Fixpoint find_hdr (name : bytes) (hdrs : list bytes) : option nat :=
  match hdrs with
  | [] => None
  | hd :: hdrs' =>
      if starts_with_nocase name hd then Some 0%nat
      else match find_hdr name hdrs' with Some i => Some (S i) | None => None end
  end.

Definition hdr_line (name val : bytes) : bytes := name ++ [58; 32] ++ val.

(** [http_client_set_req_hdr]: [alloc] is the success of the allocation.  The
    old line is freed before it; the model keeps the old table in that case. *)
Definition http_client_set_req_hdr (h : req_state) (hdr_name hdr_val : bytes) (alloc : bool) : Z * req_state :=
  if (HTTP_MAX_REQ_HDRS <=? length (rq_hdrs h))%nat then (-1, h)
  else
    let where_ := find_hdr hdr_name (rq_hdrs h) in
    if negb alloc then (-1, h)
    else
      let line := hdr_line hdr_name hdr_val in
      let hdrs := match where_ with
                  | Some i => <[i := line]> (rq_hdrs h)
                  | None => rq_hdrs h ++ [line]
                  end in
      let is_len := strcaseeq hdr_name (str "Content-Length") in
      (0, mkReqState hdrs
            (rq_host_present h || strcaseeq hdr_name (str "Host"))
            (rq_clen_present h || is_len)
            (if is_len then atoi hdr_val else rq_body_len h)
            (rq_hostname h)).

Definition http_client_del_req_hdrs_all (h : req_state) : req_state :=
  mkReqState [] false (rq_clen_present h) (rq_body_len h) (rq_hostname h).

(** ** The request text *)

(** The text is collected in a buffer of [max_len] bytes: [None] when a write
    leaves it (the method line is not checked). *)
Definition fits (s : bytes) (max_len : Z) : bool := zlen s <? max_len.

(** The loop over the headers from index [i]: what was collected, and the index
    of the first header that did not fit. *)
Fixpoint put_headers (acc : bytes) (i : Z) (hdrs : list bytes) (max_len : Z) : bytes * option Z :=
  match hdrs with
  | [] => (acc, None)
  | hd :: hdrs' =>
      if max_len <=? zlen acc + zlen hd + 4 then (acc, Some i)
      else put_headers (acc ++ hd ++ CRLF) (i + 1) hdrs' max_len
  end.

(** [http_client_req_create]: the result, the buffer and the new
    [req_hdr_sent_cnt]. *)
Definition http_client_req_create (h : req_state) (m : http_method) (url : bytes) (req_hdr_sent_cnt : Z) (max_len : Z)
  : option (Z * bytes * Z) :=
  let '(line, start) :=
    if 0 <=? req_hdr_sent_cnt then ([], req_hdr_sent_cnt)
    else (http_method_table m ++ [32] ++ url ++ [32] ++ str "HTTP/1.1" ++ CRLF, 0) in
  if negb (fits line max_len) then None
  else
    match put_headers line start (drop (Z.to_nat start) (rq_hdrs h)) max_len with
    | (acc, Some i) => Some (1, acc, i)
    | (acc, None) =>
        if negb (fits (acc ++ CRLF) max_len) then None else Some (0, acc ++ CRLF, start)
    end.

(** The [create_req] loop of [http_client_req_send]: the segments sent.  [None]:
    out of fuel or a buffer overrun. *)
Fixpoint send_request (fuel : nat) (h : req_state) (m : http_method) (url : bytes) (cnt : Z) : option (list bytes) :=
  match fuel with
  | O => None
  | S fuel' =>
      match http_client_req_create h m url cnt MAX_SEND_BUF_SIZE with
      | None => None
      | Some (ret, seg, cnt') =>
          if ret =? 1
          then match send_request fuel' h m url cnt' with Some segs => Some (seg :: segs) | None => None end
          else Some [seg]
      end
  end.

(** The loop that sends the body: the (offset, length) pairs of the segments. *)
Fixpoint body_segments (fuel : nat) (sent_len body_len : Z) : list (Z * Z) :=
  match fuel with
  | O => []
  | S fuel' =>
      if sent_len <? body_len then
        let req_len := if MAX_SEGMENT_SIZE <? body_len then MAX_SEGMENT_SIZE else body_len in
        (sent_len, req_len) :: body_segments fuel' (sent_len + req_len) body_len
      else []
  end.

(** Reading a segment of the body buffer: [None] past its end. *)
Definition read_segment (body : bytes) (seg : Z * Z) : option bytes :=
  if zlen body <? seg.1 + seg.2 then None
  else Some (take (Z.to_nat seg.2) (drop (Z.to_nat seg.1) body)).

Definition send_body (body : bytes) : option (list bytes) :=
  mapM (read_segment body) (body_segments (length body) 0 (zlen body)).

(** [http_client_req_send] from [HTTP_STATE_REQ_SEND]: all that is sent, and
    the handle with the length still to be posted. *)
Definition http_client_req_send (h : req_state) (m : http_method) (url body : bytes) : option (list bytes * req_state) :=
  match send_request (S (S (length (rq_hdrs h)))) h m url (-1) with
  | None => None
  | Some segs =>
      if rq_body_len h =? 0 then Some (segs, h)
      else match send_body body with
           | None => None
           | Some bsegs =>
               Some (segs ++ bsegs,
                     mkReqState (rq_hdrs h) (rq_host_present h) (rq_clen_present h) (s32 (rq_body_len h - zlen body))
                       (rq_hostname h))
           end
  end.

(** The checks of [http_client_get] and [http_client_post] before the request
    is sent: the default "Host" header.  [None]: the result -1. *)
Definition with_host (h : req_state) (alloc : bool) : req_state :=
  if rq_host_present h then h else (http_client_set_req_hdr h (str "Host") (rq_hostname h) alloc).2.

Definition http_client_get (h : req_state) (uri : bytes) (alloc : bool) : option (option (list bytes * req_state)) :=
  if zlen uri =? 0 then None
  else Some (http_client_req_send (with_host h alloc) HTTP_GET uri []).

Definition http_client_post (h : req_state) (uri body : bytes) (alloc : bool) : option (option (list bytes * req_state)) :=
  if (zlen uri =? 0) || negb (rq_clen_present h) then None
  else Some (http_client_req_send (with_host h alloc) HTTP_POST uri body).

(** ** The text is sent whole *)

Definition header_text (hdrs : list bytes) : bytes := concat (map (fun hd => hd ++ CRLF) hdrs).

Definition method_line (m : http_method) (url : bytes) : bytes :=
  http_method_table m ++ [32] ++ url ++ [32] ++ str "HTTP/1.1" ++ CRLF.

Definition request_text (h : req_state) (m : http_method) (url : bytes) : bytes :=
  method_line m url ++ header_text (rq_hdrs h) ++ CRLF.

Lemma header_text_app a b : header_text (a ++ b) = header_text a ++ header_text b.
Proof. unfold header_text. by rewrite map_app, concat_app. Qed.

Lemma put_headers_spec hdrs : forall acc i max,
  zlen acc + 2 < max ->
  exists pre post, hdrs = pre ++ post /\ zlen (acc ++ header_text pre) + 2 < max /\
    ((post = [] /\ put_headers acc i hdrs max = (acc ++ header_text pre, None)) \/
     (exists hd post', post = hd :: post' /\ max <= zlen (acc ++ header_text pre) + zlen hd + 4 /\
        put_headers acc i hdrs max = (acc ++ header_text pre, Some (i + zlen pre)))).
Proof.
  induction hdrs as [|hd hdrs IH]; intros acc i max Hacc; cbn [put_headers].
  - exists [], []. change (header_text []) with (@nil Z). rewrite !app_nil_r. split; [done|]. split; [done|]. by left.
  - destruct (Z.leb_spec max (zlen acc + zlen hd + 4)) as [Hle|Hgt].
    + exists [], (hd :: hdrs). change (header_text []) with (@nil Z). rewrite !app_nil_r. split; [done|]. split; [done|]. right.
      exists hd, hdrs. split; [done|]. split; [done|]. change (zlen (@nil bytes)) with 0. by rewrite Z.add_0_r.
    + destruct (IH (acc ++ hd ++ CRLF) (i + 1) max) as (pre & post & -> & Hl & Hr).
      { rewrite !zlen_app. change (zlen CRLF) with 2. lia. }
      exists (hd :: pre), post. split; [done|].
      assert (He : (acc ++ hd ++ CRLF) ++ header_text pre = acc ++ header_text (hd :: pre))
        by (unfold header_text; cbn [map concat]; by rewrite <- !app_assoc).
      rewrite He in *. split; [done|].
      replace (i + zlen (hd :: pre)) with (i + 1 + zlen pre) by (rewrite zlen_cons; lia). exact Hr.
Qed.

Definition hdr_fits (hd : bytes) : Prop := zlen hd + 4 < MAX_SEND_BUF_SIZE.

Lemma send_headers h m url : forall fuel cnt,
  Forall hdr_fits (rq_hdrs h) -> 0 <= cnt <= zlen (rq_hdrs h) ->
  (length (rq_hdrs h) < fuel + Z.to_nat cnt)%nat ->
  exists segs, send_request fuel h m url cnt = Some segs /\
    concat segs = header_text (drop (Z.to_nat cnt) (rq_hdrs h)) ++ CRLF /\
    Forall (fun s => zlen s < MAX_SEND_BUF_SIZE) segs.
Proof.
  induction fuel as [|fuel IH]; intros cnt Hfit Hcnt Hfuel; [unfold zlen in *; lia|].
  cbn [send_request]. unfold http_client_req_create. rewrite (proj2 (Z.leb_le _ _)) by lia.
  change (fits [] MAX_SEND_BUF_SIZE) with true. cbn [negb].
  destruct (put_headers_spec (drop (Z.to_nat cnt) (rq_hdrs h)) [] cnt MAX_SEND_BUF_SIZE) as (pre & post & Hd & Hl & Hr);
    [unfold MAX_SEND_BUF_SIZE, zlen; simpl; lia|]. rewrite app_nil_l in Hl, Hr.
  destruct Hr as [[-> ->]|(hd & post' & -> & Hbig & ->)].
  - assert (Hf : fits (header_text pre ++ CRLF) MAX_SEND_BUF_SIZE = true)
      by (apply Z.ltb_lt; rewrite zlen_app; exact Hl).
    rewrite Hf. cbn [negb Z.eqb]. eexists. split; [done|]. cbn [concat]. rewrite app_nil_r, Hd, app_nil_r.
    split; [done|]. repeat constructor. by apply Z.ltb_lt in Hf.
  - cbn [Z.eqb Pos.eqb].
    assert (Hlen : zlen (rq_hdrs h) = cnt + zlen pre + 1 + zlen post').
    { rewrite <- (take_drop (Z.to_nat cnt) (rq_hdrs h)), Hd, zlen_app, zlen_take by lia. zl. lia. }
    assert (Hpre : pre <> []).
    { intros ->. change (zlen (header_text [])) with 0 in Hbig.
      assert (Hin : hd ∈ rq_hdrs h) by (rewrite <- (take_drop (Z.to_nat cnt) (rq_hdrs h)), Hd; apply elem_of_app; right; apply list_elem_of_here).
      rewrite Forall_forall in Hfit. specialize (Hfit hd Hin). unfold hdr_fits in Hfit. lia. }
    assert (Hpl : 1 <= zlen pre) by (destruct pre; [done|rewrite zlen_cons; pose proof (zlen_nonneg pre); lia]).
    pose proof (zlen_nonneg post') as Hp'.
    destruct (IH (cnt + zlen pre)) as (segs & -> & Hc & Hs); [done|lia|unfold zlen in *; lia|].
    eexists. split; [done|]. cbn [concat]. rewrite Hc. split.
    + rewrite app_assoc, <- header_text_app. f_equal. f_equal.
      rewrite Z2Nat.inj_add by lia. rewrite <- drop_drop, Hd.
      replace (Z.to_nat (zlen pre)) with (length pre) by (unfold zlen; lia). by rewrite drop_app_length.
    + constructor; [lia|done].
Qed.

Lemma send_request_exact h m url :
  Forall hdr_fits (rq_hdrs h) -> zlen (method_line m url) + 2 < MAX_SEND_BUF_SIZE ->
  exists segs, send_request (S (S (length (rq_hdrs h)))) h m url (-1) = Some segs /\
    concat segs = request_text h m url /\ Forall (fun s => zlen s < MAX_SEND_BUF_SIZE) segs.
Proof.
  intros Hfit Hml. remember (S (length (rq_hdrs h))) as fuel. cbn [send_request]. unfold http_client_req_create.
  cbn [Z.leb Z.compare]. fold (method_line m url).
  assert (Hf : fits (method_line m url) MAX_SEND_BUF_SIZE = true) by (apply Z.ltb_lt; lia). rewrite Hf. cbn [negb].
  change (Z.to_nat 0) with 0%nat. rewrite drop_0.
  destruct (put_headers_spec (rq_hdrs h) (method_line m url) 0 MAX_SEND_BUF_SIZE Hml) as (pre & post & Hd & Hl & Hr).
  destruct Hr as [[-> ->]|(hd & post' & -> & Hbig & ->)].
  - rewrite app_nil_r in Hd. subst pre.
    assert (Hf2 : fits ((method_line m url ++ header_text (rq_hdrs h)) ++ CRLF) MAX_SEND_BUF_SIZE = true)
      by (apply Z.ltb_lt; rewrite zlen_app; exact Hl).
    rewrite Hf2. cbn [negb Z.eqb]. eexists. split; [done|]. cbn [concat]. rewrite app_nil_r. unfold request_text.
    split; [by rewrite <- !app_assoc|]. repeat constructor. by apply Z.ltb_lt in Hf2.
  - cbn [Z.eqb Pos.eqb]. rewrite Z.add_0_l. pose proof (f_equal zlen Hd) as Hlen. zl.
    pose proof (zlen_nonneg post'). pose proof (zlen_nonneg pre).
    destruct (send_headers h m url fuel (zlen pre)) as (segs & -> & Hc & Hs);
      [done|lia|subst fuel; unfold zlen in *; lia|].
    eexists. split; [done|]. cbn [concat]. rewrite Hc. split.
    + unfold request_text. rewrite <- app_assoc. f_equal. rewrite app_assoc. f_equal.
      replace (Z.to_nat (zlen pre)) with (length pre) by (unfold zlen; lia).
      by rewrite Hd, drop_app_length, header_text_app.
    + constructor; [zl; lia|done].
Qed.

(** A request whose method line and headers each fit the send buffer is
    sent whole: the loop ends, no segment overruns the buffer, and the segments
    put together are the method line, the headers in the order they were set and
    the empty line, with nothing lost or repeated at the segment boundaries. *)
Theorem request_sent_whole (h : req_state) (m : http_method) (url : bytes) :
  Forall hdr_fits (rq_hdrs h) -> zlen (method_line m url) + 2 < MAX_SEND_BUF_SIZE ->
  exists segs, send_request (S (S (length (rq_hdrs h)))) h m url (-1) = Some segs /\
    concat segs = request_text h m url /\ Forall (fun s => zlen s < MAX_SEND_BUF_SIZE) segs.
Proof. apply send_request_exact. Qed.

Definition sample_req : req_state :=
  mkReqState [hdr_line (str "Host") (str "h"); hdr_line (str "Accept") (str "all")] true false 0 (str "h").

Lemma request_sent_whole_witness :
  exists segs, send_request 4 sample_req HTTP_GET (str "/x") (-1) = Some segs /\
    concat segs = request_text sample_req HTTP_GET (str "/x") /\ Forall (fun s => zlen s < MAX_SEND_BUF_SIZE) segs.
Proof.
  apply (request_sent_whole sample_req HTTP_GET (str "/x")).
  - repeat constructor.
  - vm_compute; reflexivity.
Defined.

(** ** The body *)

(** The body loop takes the length of the whole body for every segment, so its
    last segment leaves the buffer unless the length is at most one segment or
    a multiple of it. *)
Lemma segments_all fuel k body_len :
  MAX_SEGMENT_SIZE < body_len -> 0 <= k -> body_len - k * MAX_SEGMENT_SIZE <= Z.of_nat fuel ->
  Forall (fun s => exists j, s = (j * MAX_SEGMENT_SIZE, MAX_SEGMENT_SIZE) /\ k <= j /\ j * MAX_SEGMENT_SIZE < body_len)
    (body_segments fuel (k * MAX_SEGMENT_SIZE) body_len) /\
  (k * MAX_SEGMENT_SIZE < body_len ->
     ((body_len - 1) / MAX_SEGMENT_SIZE * MAX_SEGMENT_SIZE, MAX_SEGMENT_SIZE) ∈
       body_segments fuel (k * MAX_SEGMENT_SIZE) body_len).
Proof.
  intros Hb. revert k. induction fuel as [|fuel IH]; intros k Hk Hf; cbn [body_segments].
  - split; [constructor|lia].
  - destruct (Z.ltb_spec (k * MAX_SEGMENT_SIZE) body_len) as [Hlt|Hge]; [|split; [constructor|lia]].
    rewrite (proj2 (Z.ltb_lt _ _)) by done.
    replace (k * MAX_SEGMENT_SIZE + MAX_SEGMENT_SIZE) with ((k + 1) * MAX_SEGMENT_SIZE) by lia.
    destruct (IH (k + 1)) as [H1 H2]; [lia|unfold MAX_SEGMENT_SIZE in *; lia|]. split.
    + constructor; [by exists k|]. eapply Forall_impl; [exact H1|]. intros s (j & -> & Hj & Hl). exists j.
      split; [done|]. split; [lia|done].
    + intros _. destruct (Z.ltb_spec ((k + 1) * MAX_SEGMENT_SIZE) body_len) as [Hn|Hn].
      * apply list_elem_of_further. by apply H2.
      * assert (Hq : (body_len - 1) / MAX_SEGMENT_SIZE = k).
        { unfold MAX_SEGMENT_SIZE in *. symmetry. apply (Z.div_unique _ _ _ (body_len - 1 - k * 1460)); lia. }
        rewrite Hq. apply list_elem_of_here.
Qed.

Lemma body_large body :
  MAX_SEGMENT_SIZE < zlen body -> zlen body mod MAX_SEGMENT_SIZE <> 0 -> send_body body = None.
Proof.
  intros Hb Hm. unfold send_body. destruct (segments_all (length body) 0 (zlen body) Hb) as [_ H];
    [lia|unfold zlen; lia|].
  rewrite Z.mul_0_l in H. specialize (H ltac:(unfold MAX_SEGMENT_SIZE in *; lia)).
  destruct (mapM (read_segment body) (body_segments (length body) 0 (zlen body))) as [l|] eqn:E; [|done].
  apply mapM_Some_1 in E. apply list_elem_of_lookup_1 in H as [i Hi].
  destruct (Forall2_lookup_l _ _ _ _ _ E Hi) as (y & _ & Hy). unfold read_segment in Hy. cbn [fst snd] in Hy.
  rewrite (proj2 (Z.ltb_lt _ _)) in Hy; [done|].
  unfold MAX_SEGMENT_SIZE in *. Z.to_euclidean_division_equations. lia.
Qed.

Lemma body_multiple fuel k body :
  MAX_SEGMENT_SIZE < zlen body -> zlen body mod MAX_SEGMENT_SIZE = 0 -> 0 <= k -> k * MAX_SEGMENT_SIZE <= zlen body ->
  zlen body - k * MAX_SEGMENT_SIZE <= Z.of_nat fuel ->
  exists segs, mapM (read_segment body) (body_segments fuel (k * MAX_SEGMENT_SIZE) (zlen body)) = Some segs /\
    concat segs = drop (Z.to_nat (k * MAX_SEGMENT_SIZE)) body.
Proof.
  intros Hb Hm. revert k. induction fuel as [|fuel IH]; intros k Hk Hle Hf; cbn [body_segments].
  - exists []. split; [done|]. rewrite drop_ge; [done|]. unfold zlen in *. lia.
  - destruct (Z.ltb_spec (k * MAX_SEGMENT_SIZE) (zlen body)) as [Hlt|Hge].
    2: { exists []. split; [done|]. rewrite drop_ge; [done|]. unfold zlen in *. lia. }
    rewrite (proj2 (Z.ltb_lt MAX_SEGMENT_SIZE _)) by done. cbn [mapM].
    assert (Hnext : (k + 1) * MAX_SEGMENT_SIZE <= zlen body).
    { pose proof (Z.div_mod (zlen body) MAX_SEGMENT_SIZE). unfold MAX_SEGMENT_SIZE in *. lia. }
    replace (k * MAX_SEGMENT_SIZE + MAX_SEGMENT_SIZE) with ((k + 1) * MAX_SEGMENT_SIZE) by lia.
    destruct (IH (k + 1)) as (segs & Hs & Hc); [lia|done|unfold MAX_SEGMENT_SIZE in *; lia|].
    exists (take (Z.to_nat MAX_SEGMENT_SIZE) (drop (Z.to_nat (k * MAX_SEGMENT_SIZE)) body) :: segs). split.
    + assert (Hr : read_segment body (k * MAX_SEGMENT_SIZE, MAX_SEGMENT_SIZE) =
        Some (take (Z.to_nat MAX_SEGMENT_SIZE) (drop (Z.to_nat (k * MAX_SEGMENT_SIZE)) body)))
        by (unfold read_segment; cbn [fst snd]; rewrite (proj2 (Z.ltb_ge _ _)) by lia; done).
      rewrite Hr, Hs. done.
    + cbn [concat]. rewrite Hc.
      replace (Z.to_nat ((k + 1) * MAX_SEGMENT_SIZE)) with (Z.to_nat (k * MAX_SEGMENT_SIZE) + Z.to_nat MAX_SEGMENT_SIZE)%nat
        by (unfold MAX_SEGMENT_SIZE in *; lia).
      by rewrite <- drop_drop, take_drop.
Qed.

Lemma body_exact body :
  zlen body <= MAX_SEGMENT_SIZE \/ zlen body mod MAX_SEGMENT_SIZE = 0 ->
  exists segs, send_body body = Some segs /\ concat segs = body.
Proof.
  intros H. destruct (Z.ltb_spec MAX_SEGMENT_SIZE (zlen body)) as [Hb|Hb].
  - destruct (body_multiple (length body) 0 body Hb) as (segs & Hs & Hc); [lia|lia|unfold MAX_SEGMENT_SIZE in *; lia|unfold zlen; lia|].
    exists segs. by rewrite Z.mul_0_l in Hs, Hc.
  - unfold send_body. destruct body as [|c body]; [by exists []|]. cbn [length body_segments].
    rewrite (proj2 (Z.ltb_lt 0 _)) by (rewrite zlen_cons; pose proof (zlen_nonneg body); lia).
    rewrite (proj2 (Z.ltb_ge _ _)) by done. rewrite Z.add_0_l.
    assert (Hend : body_segments (length body) (zlen (c :: body)) (zlen (c :: body)) = [])
      by (destruct (length body); cbn [body_segments]; [done|by rewrite Z.ltb_irrefl]).
    rewrite Hend. exists [c :: body]. split; [|simpl; by rewrite app_nil_r].
    cbn [mapM]. unfold read_segment. cbn [fst snd]. rewrite Z.add_0_l, Z.ltb_irrefl.
    change (Z.to_nat 0) with 0%nat. rewrite drop_0, take_ge by (unfold zlen; lia). done.
Qed.

(** The body of a request is sent exactly when it is at most one segment of
    1460 bytes long or a whole number of segments; for every other length the
    last segment is read past the end of the caller's buffer. *)
Theorem body_sent_iff (body : bytes) :
  (zlen body <= MAX_SEGMENT_SIZE \/ zlen body mod MAX_SEGMENT_SIZE = 0 ->
     exists segs, send_body body = Some segs /\ concat segs = body) /\
  (MAX_SEGMENT_SIZE < zlen body /\ zlen body mod MAX_SEGMENT_SIZE <> 0 -> send_body body = None).
Proof. split; [apply body_exact|]. intros [H1 H2]. by apply body_large. Qed.

Lemma body_sent_iff_witness :
  exists segs, send_body (str "k=v") = Some segs /\ concat segs = str "k=v".
Proof. apply (body_sent_iff (str "k=v")). left. vm_compute; discriminate. Defined.

(** ** The header table *)

Lemma find_hdr_some name hdrs i :
  find_hdr name hdrs = Some i -> exists hd, hdrs !! i = Some hd /\ starts_with_nocase name hd = true.
Proof.
  revert i. induction hdrs as [|hd hdrs IH]; intros i; cbn [find_hdr]; [done|].
  destruct (starts_with_nocase name hd) eqn:E; [intros [= <-]; by exists hd|].
  destruct (find_hdr name hdrs) as [k|]; [|done]. intros [= <-]. by apply IH.
Qed.

Lemma starts_with_refl l r : starts_with l (l ++ r) = true.
Proof. apply starts_with_prefix. by exists r. Qed.

(** Setting a header in a table that is not full succeeds, keeps the table
    within its ten entries, leaves the other lines alone and puts the line
    "name: value" in the place of the first line that starts with the name (case
    not counting), else at the end; it is then the line found for that name. *)
Theorem set_req_hdr_spec (h : req_state) (name val : bytes) :
  (length (rq_hdrs h) < HTTP_MAX_REQ_HDRS)%nat ->
  exists h' i, http_client_set_req_hdr h name val true = (0, h') /\
    (length (rq_hdrs h') <= HTTP_MAX_REQ_HDRS)%nat /\
    find_hdr name (rq_hdrs h') = Some i /\ rq_hdrs h' !! i = Some (hdr_line name val) /\
    forall j, j <> i -> rq_hdrs h' !! j = rq_hdrs h !! j.
Proof.
  intros Hl. unfold http_client_set_req_hdr. rewrite (proj2 (Nat.leb_gt _ _)) by done. cbn [negb].
  assert (Hsw : starts_with_nocase name (hdr_line name val) = true)
    by (unfold starts_with_nocase, hdr_line; rewrite map_app; apply starts_with_refl).
  destruct (find_hdr name (rq_hdrs h)) as [i|] eqn:Ef; cbn [fst snd rq_hdrs].
  - eexists _, i. split; [done|]. cbn [rq_hdrs].
    destruct (find_hdr_some _ _ _ Ef) as (hd & Hhd & Hst). pose proof (lookup_lt_Some _ _ _ Hhd) as Hlt.
    split; [rewrite length_insert; lia|]. split; [|split; [by apply list_lookup_insert_eq|]].
    + revert Ef Hlt. clear -Hsw. generalize (rq_hdrs h). intros hdrs. revert i.
      induction hdrs as [|a hdrs IH]; intros i; cbn [find_hdr]; [done|].
      destruct (starts_with_nocase name a) eqn:E.
      * intros [= <-] _. simpl. by rewrite Hsw.
      * destruct (find_hdr name hdrs) as [k|]; [|done]. intros [= <-] Hk. simpl. rewrite E.
        rewrite (IH k eq_refl) by (simpl in Hk; lia). done.
    + intros j Hj. by rewrite list_lookup_insert_ne.
  - eexists _, (length (rq_hdrs h)). split; [done|]. cbn [rq_hdrs].
    split; [rewrite length_app; simpl; lia|]. split; [|split].
    + revert Ef. clear -Hsw. induction (rq_hdrs h) as [|a hdrs IH]; cbn [find_hdr app length].
      * by rewrite Hsw.
      * destruct (starts_with_nocase name a); [done|]. destruct (find_hdr name hdrs); [done|].
        intros _. by rewrite IH.
    + rewrite lookup_app_r, Nat.sub_diag by lia. done.
    + intros j Hj. destruct (decide (j < length (rq_hdrs h))%nat); [by rewrite lookup_app_l|].
      rewrite lookup_app_r by lia. rewrite (lookup_ge_None_2 (rq_hdrs h)) by lia.
      destruct (j - length (rq_hdrs h))%nat eqn:E; [lia|done].
Qed.

Lemma set_req_hdr_spec_witness :
  exists h' i, http_client_set_req_hdr sample_req (str "host") (str "g") true = (0, h') /\
    (length (rq_hdrs h') <= HTTP_MAX_REQ_HDRS)%nat /\
    find_hdr (str "host") (rq_hdrs h') = Some i /\ rq_hdrs h' !! i = Some (hdr_line (str "host") (str "g")) /\
    forall j, j <> i -> rq_hdrs h' !! j = rq_hdrs sample_req !! j.
Proof. apply (set_req_hdr_spec sample_req (str "host") (str "g")). vm_compute; lia. Defined.
