(* ===== verification/HttpResponse.v ===== *)
(** * HTTP responses (components/http/src/http_client.c)

    The receive buffer is an array of 1461 bytes and [x_off] the position of
    [resp->recv_buf] in it; the string functions run on the bytes up to the next
    zero, which need not be the end of what was received, and write into the
    array.  An access outside the array and a [NULL] token are undefined: the
    result is [None].  The peer is a list of results of the receive call; the
    allocations of the header table are taken to succeed. *)

From S2P Require Import Prelude FileSys FsUtils BasicJson CString HttpClient HttpRequest.

Definition MAX_RECV_BUF_SIZE : Z := 1460.
Definition HTTP_MAX_RESP_HDRS : nat := 32.
Definition HTTP_MAX_CHUNK_SIZE_ASCII_LEN : Z := 8.

(** The response states of [http_client_state_t]. *)
Inductive http_state :=
  | HTTP_STATE_RESP_SL_RECV | HTTP_STATE_RESP_HDR_RECV | HTTP_STATE_RESP_BODY_RECV
  | HTTP_STATE_RESP_CHUNK_HDR_RECV | HTTP_STATE_RESP_BODY_RECV_CHUNKED.

#[export] Instance http_state_eq_dec : EqDecision http_state.
Proof. solve_decision. Defined.

(** The handle's and [http_client_resp_t]'s fields that reception uses. *)
Record rx := mkRx {
  x_state : http_state;
  x_status : Z;
  x_ka : bool;
  x_buf : bytes;
  x_off : Z;
  x_avail : Z;
  x_total : Z;
  x_body_len : Z;
  x_chunk_len : Z;
  x_chunked : bool;
  x_clen : bool;
  x_hdrs : list bytes;
}.

Definition set_state (s : http_state) (x : rx) : rx :=
  mkRx s (x_status x) (x_ka x) (x_buf x) (x_off x) (x_avail x) (x_total x) (x_body_len x) (x_chunk_len x)
    (x_chunked x) (x_clen x) (x_hdrs x).
Definition set_buf (b : bytes) (x : rx) : rx :=
  mkRx (x_state x) (x_status x) (x_ka x) b (x_off x) (x_avail x) (x_total x) (x_body_len x) (x_chunk_len x)
    (x_chunked x) (x_clen x) (x_hdrs x).
(** [recv_buf += n; bytes_available -= n] *)
Definition advance (n : Z) (x : rx) : rx :=
  mkRx (x_state x) (x_status x) (x_ka x) (x_buf x) (x_off x + n) (u32 (x_avail x - n)) (x_total x) (x_body_len x)
    (x_chunk_len x) (x_chunked x) (x_clen x) (x_hdrs x).
Definition set_chunk_len (n : Z) (x : rx) : rx :=
  mkRx (x_state x) (x_status x) (x_ka x) (x_buf x) (x_off x) (x_avail x) (x_total x) (x_body_len x) n
    (x_chunked x) (x_clen x) (x_hdrs x).

(** What the user's callback is given. *)
Record cb_info := mkCb { cb_status : Z; cb_hdrs : list bytes; cb_body : bytes; cb_total : Z; cb_more : bool }.

(** ** The buffer *)

(** The C string at a position: [None] when no zero follows in the array. *)
Definition str_at (buf : bytes) (off : Z) : option bytes :=
  let l := drop (Z.to_nat off) buf in
  if existsb (Z.eqb 0) l then Some (cstr l) else None.

Definition poke (buf : bytes) (i v : Z) : option bytes :=
  if (0 <=? i) && (i <? zlen buf) then Some (<[Z.to_nat i := v]> buf) else None.

(** [strtok_r] with the single delimiter [d] from a position: the token and the
    position to go on from; [None] as the token is [NULL]. *)
Fixpoint skip_char (d : Z) (s : bytes) : nat :=
  match s with c :: s' => if c =? d then S (skip_char d s') else 0%nat | [] => 0%nat end.

Fixpoint until_char (d : Z) (s : bytes) : bytes :=
  match s with c :: s' => if c =? d then [] else c :: until_char d s' | [] => [] end.

Definition strtok (buf : bytes) (off d : Z) : option (option bytes * Z * bytes) :=
  match str_at buf off with
  | None => None
  | Some s =>
      let k := skip_char d s in
      let s' := drop k s in
      match s' with
      | [] => Some (None, off + Z.of_nat k, buf)
      | _ =>
          let t := until_char d s' in
          let fin := off + Z.of_nat k + zlen t in
          if zlen t =? zlen s' then Some (Some t, fin, buf)
          else match poke buf fin 0 with
               | None => None
               | Some buf' => Some (Some t, fin + 1, buf')
               end
      end
  end.

(** [strcmp] *)
Fixpoint strcmp (a b : bytes) : Z :=
  match a, b with
  | [], [] => 0
  | [], c :: _ => - c
  | c :: _, [] => c
  | c :: a', c' :: b' => if c =? c' then strcmp a' b' else c - c'
  end.

(** ** The status line *)

Definition http_client_status_line_parse (x : rx) : option (Z * rx) :=
  match str_at (x_buf x) (x_off x) with
  | None => None
  | Some s =>
      match strstr CRLF s with
      | None => Some (1, x)
      | Some k =>
          let status_line_len := Z.of_nat k in
          match strtok (x_buf x) (x_off x) 32 with
          | None => None
          | Some (None, _, _) => None
          | Some (Some token, rest, buf) =>
              let rval := strcmp token (str "HTTP/1.1") in
              if negb (rval =? 0) then Some (rval, set_buf buf x)
              else
                match strtok buf rest 32 with
                | None => None
                | Some (None, _, _) => None
                | Some (Some token, _, buf) =>
                    let x := mkRx (x_state x) (s16 (atoi token)) (x_ka x) buf (x_off x) (x_avail x) (x_total x)
                               (x_body_len x) (x_chunk_len x) (x_chunked x) (x_clen x) (x_hdrs x) in
                    Some (0, advance (status_line_len + 2) x)
                end
          end
      end
  end.

(** ** The headers *)

(** [is_this_header(header, name, NULL)]: the copy of the name's length is
    compared without case. *)
Definition has_name (header name : bytes) : bool := strcaseeq (cstr (take (length name) header)) name.

(** With a value: [None] when the header has no space. *)
Definition is_this_header (header name val : bytes) : option bool :=
  if negb (has_name header name) then Some false
  else match strstr [32] header with
       | None => None
       | Some k =>
           let p := drop k header in
           Some (strcaseeq (drop (skip_char 32 p) p) val)
       end.

(** One header line. *)
Definition note_header (x : rx) (token : bytes) : option rx :=
  let hdrs := if (length (x_hdrs x) <? HTTP_MAX_RESP_HDRS)%nat then x_hdrs x ++ [token] else x_hdrs x in
  if has_name token (str "Content-Length") then
    let total := u32 (atoi (drop (length (str "Content-Length:")) token)) in
    Some (mkRx (x_state x) (x_status x) (x_ka x) (x_buf x) (x_off x) (x_avail x) total (x_body_len x) (x_chunk_len x)
            (x_chunked x) true hdrs)
  else
    match is_this_header token (str "Transfer-Encoding") (str "chunked") with
    | None => None
    | Some true =>
        Some (mkRx (x_state x) (x_status x) (x_ka x) (x_buf x) (x_off x) (x_avail x) (x_total x) (x_body_len x)
                (x_chunk_len x) true (x_clen x) hdrs)
    | Some false =>
        match is_this_header token (str "Connection") (str "keep-alive") with
        | None => None
        | Some ka =>
            Some (mkRx (x_state x) (x_status x) (x_ka x || ka) (x_buf x) (x_off x) (x_avail x) (x_total x)
                    (x_body_len x) (x_chunk_len x) (x_chunked x) (x_clen x) hdrs)
        end
    end.

(** The loop over the lines from position [pos]; the number of bytes parsed. *)
Fixpoint hdrs_loop (fuel : nat) (x : rx) (pos parsed : Z) : option (Z * rx) :=
  match fuel with
  | O => None
  | S fuel' =>
      match str_at (x_buf x) pos with
      | None => None
      | Some s =>
          match strstr CRLF s with
          | None => Some (parsed, x)
          | Some k =>
              if parsed <? x_avail x then
                match poke (x_buf x) (pos + Z.of_nat k) 0 with
                | None => None
                | Some buf =>
                    match note_header (set_buf buf x) (take k s) with
                    | None => None
                    | Some x' => hdrs_loop fuel' x' (pos + Z.of_nat k + 2) (parsed + Z.of_nat k + 2)
                    end
                end
              else Some (parsed, x)
          end
      end
  end.

Definition http_client_hdrs_parse (x : rx) : option (Z * rx) :=
  if bool_decide (take 2 (drop (Z.to_nat (x_off x)) (x_buf x)) = CRLF) then Some (0, advance 2 x)
  else
    match str_at (x_buf x) (x_off x) with
    | None => None
    | Some s =>
        match strstr (CRLF ++ CRLF) s with
        | Some k =>
            match poke (x_buf x) (x_off x + Z.of_nat k + 2) 0 with
            | None => None
            | Some buf =>
                match hdrs_loop (length (x_buf x)) (set_buf buf x) (x_off x) 0 with
                | None => None
                | Some (parsed, x') => Some (0, advance (parsed + 2) x')
                end
            end
        | None =>
            match hdrs_loop (length (x_buf x)) x (x_off x) 0 with
            | None => None
            | Some (parsed, x') => Some (1, advance parsed x')
            end
        end
    end.

(** ** The chunk header *)

(** The digit loop, with the expression of the code for upper-case digits. *)
Fixpoint chunk_digits (chunk_size : Z) (s : bytes) : Z :=
  match s with
  | [] => chunk_size
  | ch :: s' =>
      let chunk_size := s32 (Z.shiftl chunk_size 4) in
      if (48 <=? ch) && (ch <=? 57) then chunk_digits (s32 (chunk_size + (ch - 48))) s'
      else if (97 <=? ch) && (ch <=? 102) then chunk_digits (s32 (chunk_size + (ch - 97) + 10)) s'
      else if (65 <=? ch) && (ch <=? 70) then chunk_digits (s32 (chunk_size + (chunk_size - 65) + 10)) s'
      else -1
  end.

Definition http_client_chunk_len_get (x : rx) : option (Z * rx) :=
  match str_at (x_buf x) (x_off x) with
  | None => None
  | Some s =>
      match strstr CRLF s with
      | None => Some (1, x)
      | Some k =>
          match poke (x_buf x) (x_off x + Z.of_nat k) 0 with
          | None => None
          | Some buf =>
              let line := take k s in
              let digits := until_char 59 line in
              let buf' := if zlen digits =? zlen line then Some buf else poke buf (x_off x + zlen digits) 0 in
              match buf' with
              | None => None
              | Some buf =>
                  if HTTP_MAX_CHUNK_SIZE_ASCII_LEN <? zlen digits then Some (-1, set_buf buf x)
                  else
                    let chunk_size := chunk_digits 0 digits in
                    let x := set_buf buf x in
                    let x := if 0 <=? chunk_size then set_chunk_len chunk_size x else x in
                    Some (0, advance (Z.of_nat k + 2) x)
              end
          end
      end
  end.

(** ** Reception *)

Inductive recv_ev := RTimeout | RError | RData (bs : bytes).

(** [http_client_socket_recv]: the length and the buffer.  Data longer than the
    room asked for is not a result the call can have, so it has none either. *)
Definition recv_fits (x : rx) (ev : recv_ev) : bool :=
  (x_off x + x_avail x <=? zlen (x_buf x))
  && match ev with RData bs => zlen bs <=? MAX_RECV_BUF_SIZE - x_avail x | _ => true end.

Definition http_client_socket_recv (x : rx) (ev : recv_ev) : option (Z * bytes) :=
  if negb (recv_fits x ev) then None else
  let buf := memcpy (x_buf x) 0 (take (Z.to_nat (x_avail x)) (drop (Z.to_nat (x_off x)) (x_buf x))) in
  match ev with
  | RTimeout => Some (-1, buf)
  | _ =>
      let '(n, data) := match ev with RData bs => (zlen bs, bs) | _ => (-1, []) end in
      let buf := memcpy buf (x_avail x) data in
      let recv_len := n + x_avail x in
      if 0 <=? recv_len
      then match poke buf (x_avail x + recv_len) 0 with
           | None => None
           | Some buf => Some (recv_len, buf)
           end
      else Some (recv_len, buf)
  end.

Definition resp_info_set (x : rx) (more_data : bool) : cb_info :=
  let resp_len := if x_chunked x then Z.min (x_chunk_len x) (x_avail x) else x_avail x in
  mkCb (x_status x) (x_hdrs x) (take (Z.to_nat resp_len) (drop (Z.to_nat (x_off x)) (x_buf x)))
    (if x_clen x then x_total x else 0) more_data.

(** What one round of the loop decides. *)
Inductive round := Go (x : rx) | Done (x : rx) | Fail (rval : Z).

Definition step_status (x : rx) : option (rx + round) :=
  if bool_decide (x_state x = HTTP_STATE_RESP_SL_RECV) then
    match http_client_status_line_parse x with
    | None => None
    | Some (rval, x) => if 0 <? rval then Some (inr (Go x)) else Some (inl (set_state HTTP_STATE_RESP_HDR_RECV x))
    end
  else Some (inl x).

Definition no_body (status : Z) : bool :=
  ((100 <? status) && (status <? 200)) || (status =? 204) || (status =? 304).

Definition step_headers (x : rx) : option (list cb_info * (rx + round)) :=
  if bool_decide (x_state x = HTTP_STATE_RESP_HDR_RECV) then
    match http_client_hdrs_parse x with
    | None => None
    | Some (rval, x) =>
        if 0 <? rval then Some ([], inr (Go x))
        else if no_body (x_status x) then Some ([resp_info_set x false], inr (Done x))
        else Some ([], inl (set_state (if x_chunked x then HTTP_STATE_RESP_CHUNK_HDR_RECV
                                       else HTTP_STATE_RESP_BODY_RECV) x))
    end
  else Some ([], inl x).

Definition step_chunk_hdr (x : rx) : option (list cb_info * (rx + round)) :=
  if bool_decide (x_state x = HTTP_STATE_RESP_CHUNK_HDR_RECV) then
    match http_client_chunk_len_get x with
    | None => None
    | Some (rval, x) =>
        if rval <? 0 then Some ([], inr (Fail rval))
        else if 0 <? rval then Some ([], inr (Go x))
        else if x_chunk_len x =? 0 then Some ([resp_info_set x false], inr (Done x))
        else Some ([], inl (set_state HTTP_STATE_RESP_BODY_RECV_CHUNKED x))
    end
  else Some ([], inl x).

Definition step_body (x : rx) : list cb_info * (rx + round) :=
  if bool_decide (x_state x = HTTP_STATE_RESP_BODY_RECV) then
    let received := u32 (x_body_len x + x_avail x) in
    let x := mkRx (x_state x) (x_status x) (x_ka x) (x_buf x) (x_off x) (x_avail x) (x_total x) received
               (x_chunk_len x) (x_chunked x) (x_clen x) (x_hdrs x) in
    let cb := resp_info_set x (negb (x_total x <=? received)) in
    let x := advance (x_avail x) x in
    if negb (x_total x =? 0) && (x_total x <=? received) then ([cb], inr (Done x)) else ([cb], inl x)
  else ([], inl x).

Definition step_chunked (x : rx) : list cb_info * rx :=
  if bool_decide (x_state x = HTTP_STATE_RESP_BODY_RECV_CHUNKED) then
    let cb := resp_info_set x true in
    let bytes_consumed := Z.min (x_chunk_len x) (x_avail x) in
    let x := advance bytes_consumed (set_chunk_len (x_chunk_len x - bytes_consumed) x) in
    ([cb], if x_chunk_len x =? 0 then set_state HTTP_STATE_RESP_CHUNK_HDR_RECV x else x)
  else ([], x).

Definition process (x : rx) : option (list cb_info * round) :=
  match step_status x with
  | None => None
  | Some (inr r) => Some ([], r)
  | Some (inl x) =>
      match step_headers x with
      | None => None
      | Some (cbs, inr r) => Some (cbs, r)
      | Some (cbs, inl x) =>
          match step_chunk_hdr x with
          | None => None
          | Some (cbs', inr r) => Some (cbs ++ cbs', r)
          | Some (cbs', inl x) =>
              match step_body x with
              | (cbs'', inr r) => Some (cbs ++ cbs' ++ cbs'', r)
              | (cbs'', inl x) =>
                  let '(cbs''', x) := step_chunked x in
                  Some (cbs ++ cbs' ++ cbs'' ++ cbs''', Go x)
              end
          end
      end
  end.

(** [http_client_resp_recv]: the callbacks made and the result. *)
Fixpoint http_client_resp_recv (x : rx) (evs : list recv_ev) : option (list cb_info * Z) :=
  match evs with
  | [] => Some ([], -1)
  | ev :: evs' =>
      match http_client_socket_recv x ev with
      | None => None
      | Some (bytes_rcvd, buf) =>
          if bytes_rcvd <? 0 then Some ([], -1)
          else
            let x := mkRx (x_state x) (x_status x) (x_ka x) buf 0 bytes_rcvd (x_total x) (x_body_len x) (x_chunk_len x)
                       (x_chunked x) (x_clen x) (x_hdrs x) in
            match process x with
            | None => None
            | Some (cbs, Fail rval) => Some (cbs, rval)
            | Some (cbs, Done _) => Some (cbs, 0)
            | Some (cbs, Go x) =>
                if 0 <? bytes_rcvd then
                  match http_client_resp_recv x evs' with
                  | None => None
                  | Some (cbs', r) => Some (cbs ++ cbs', r)
                  end
                else Some (cbs, 0)
            end
      end
  end.

(** The state in which [http_client_send_recv] starts to receive. *)
Definition rx_init (buf : bytes) (ka : bool) : rx :=
  mkRx HTTP_STATE_RESP_SL_RECV 0 ka buf 0 0 0 0 0 false false [].

(** ** Strings in the buffer *)

(** A piece of text: no zero and no carriage return. *)
Definition is_text (s : bytes) : Prop := Forall (fun c => c <> 0 /\ c <> 13) s.

Lemma cstr_app s t : Forall (fun c => c <> 0) s -> cstr (s ++ t) = s ++ cstr t.
Proof.
  induction 1 as [|c s Hc Hs IH]; [done|]. cbn. destruct (Z.eqb_spec c 0); [done|]. by rewrite IH.
Qed.

Lemma str_at_app buf off s t :
  Forall (fun c => c <> 0) s -> drop (Z.to_nat off) buf = s ++ t -> In 0 t ->
  str_at buf off = Some (s ++ cstr t).
Proof.
  intros Hs Hd Ht. unfold str_at. rewrite Hd, existsb_app.
  assert (Ht' : existsb (Z.eqb 0) t = true) by (apply existsb_exists; by exists 0).
  rewrite Ht', orb_true_r. by rewrite cstr_app.
Qed.

Lemma text_nonzero s : is_text s -> Forall (fun c => c <> 0) s.
Proof. intros H. eapply Forall_impl; [done|]. by intros c [? ?]. Qed.

(** The end of a line of text. *)
Lemma strstr_line s t : is_text s -> strstr CRLF (s ++ CRLF ++ t) = Some (length s).
Proof.
  induction 1 as [|c s [H0 H1] Hs IH]; [done|]. cbn [app strstr starts_with CRLF].
  destruct (Z.eqb_spec 13 c); [lia|]. cbn [andb]. change (13 :: 10 :: t) with (CRLF ++ t). by rewrite IH.
Qed.

Lemma strstr_blank s t : is_text s -> strstr (CRLF ++ CRLF) (s ++ CRLF ++ CRLF ++ t) = Some (length s).
Proof.
  induction 1 as [|c s [H0 H1] Hs IH]; [done|]. cbn [app strstr starts_with CRLF] in *.
  destruct (Z.eqb_spec 13 c); [lia|]. cbn [andb]. by rewrite IH.
Qed.

Lemma strstr_step pat c s :
  starts_with pat (c :: s) = false -> strstr pat (c :: s) = S <$> strstr pat s.
Proof. intros H. cbn [strstr]. rewrite H. by destruct (strstr pat s). Qed.

(** A line that is not followed by an empty one. *)
Lemma strstr_next s c t :
  is_text s -> c <> 13 ->
  strstr (CRLF ++ CRLF) (s ++ CRLF ++ c :: t)
  = (fun i => (length s + 2 + i)%nat) <$> strstr (CRLF ++ CRLF) (c :: t).
Proof.
  intros Hs Hc. induction Hs as [|d s [H0 H1] Hs IH].
  - rewrite app_nil_l. change (CRLF ++ c :: t) with (13 :: 10 :: c :: t).
    rewrite (strstr_step _ 13), (strstr_step _ 10); [by destruct (strstr (CRLF ++ CRLF) (c :: t))|done|].
    cbn [CRLF app starts_with]. destruct (Z.eqb_spec 13 c); [lia|done].
  - rewrite <- app_comm_cons, strstr_step, IH; [by destruct (strstr (CRLF ++ CRLF) (c :: t))|].
    cbn [CRLF app starts_with]. destruct (Z.eqb_spec 13 d); [lia|done].
Qed.

Lemma poke_ok buf i v : 0 <= i < zlen buf -> poke buf i v = Some (<[Z.to_nat i := v]> buf).
Proof. intros H. unfold poke. by rewrite (proj2 (Z.leb_le _ _)), (proj2 (Z.ltb_lt _ _)) by lia. Qed.

(** What a write leaves of the text behind it, and before it. *)
Lemma drop_poke (buf : bytes) i n v : (i < n)%nat -> drop n (<[i := v]> buf) = drop n buf.
Proof. intros. by apply drop_insert_lt. Qed.

Lemma drop_poke_at (buf : bytes) off s c t v :
  0 <= off -> drop (Z.to_nat off) buf = s ++ c :: t ->
  drop (Z.to_nat off) (<[Z.to_nat (off + zlen s) := v]> buf) = s ++ v :: t.
Proof.
  intros Ho Hd. rewrite drop_insert_ge by (unfold zlen; lia). rewrite Hd.
  replace (Z.to_nat (off + zlen s) - Z.to_nat off)%nat with (length s + 0)%nat by (unfold zlen; lia).
  by rewrite insert_app_r.
Qed.

Lemma drop_shift (buf : bytes) off n s t :
  0 <= off -> drop (Z.to_nat off) buf = s ++ t -> n = off + zlen s -> drop (Z.to_nat n) buf = t.
Proof.
  intros Ho Hd ->. unfold zlen.
  replace (Z.to_nat (off + Z.of_nat (length s))) with (Z.to_nat off + length s)%nat by lia.
  by rewrite <- drop_drop, Hd, drop_app_length.
Qed.

Lemma drop_zlen (buf : bytes) off s : 0 <= off -> drop (Z.to_nat off) buf = s -> s <> [] -> zlen buf = off + zlen s.
Proof.
  intros Ho <- Hne. unfold zlen. rewrite length_drop.
  assert (length (drop (Z.to_nat off) buf) <> 0%nat) by (by destruct (drop (Z.to_nat off) buf)).
  rewrite length_drop in H. lia.
Qed.
