(* ===== verification/HttpDelivery.v ===== *)
(** * Delivery of an HTTP response

    A response that begins at the start of a reception, with its status line and
    headers in the first piece, is taken apart and its body handed to the user's
    callback piece by piece; and where the reception of a response goes wrong. *)

From S2P Require Import Prelude FileSys FsUtils BasicJson CString HttpClient HttpRequest HttpResponse.

(** ** The status line *)

Definition is_word (s : bytes) : Prop := s <> [] /\ Forall (fun c => c <> 0 /\ c <> 13 /\ c <> 32) s.

Lemma word_text s : is_word s -> is_text s.
Proof. intros [_ H]. eapply Forall_impl; [done|]. naive_solver. Qed.

Lemma until_char_word d a t : Forall (fun c => c <> d) a -> until_char d (a ++ d :: t) = a.
Proof.
  induction 1 as [|c a Hc Ha IH]; cbn.
  - by rewrite Z.eqb_refl.
  - destruct (Z.eqb_spec c d); [done|]. by rewrite IH.
Qed.

Lemma word_no_space s : is_word s -> Forall (fun c => c <> 32) s.
Proof. intros [_ H]. eapply Forall_impl; [done|]. naive_solver. Qed.

Lemma strtok_word buf off a t :
  0 <= off -> is_word a -> drop (Z.to_nat off) buf = a ++ 32 :: t -> In 0 t ->
  strtok buf off 32 = Some (Some a, off + zlen a + 1, <[Z.to_nat (off + zlen a) := 0]> buf).
Proof.
  intros Ho Ha Hd Ht. unfold strtok.
  rewrite (str_at_app buf off a (32 :: t)); [|apply text_nonzero, word_text, Ha|done|by right].
  replace (cstr (32 :: t)) with (32 :: cstr t) by done.
  assert (Hs : skip_char 32 (a ++ 32 :: cstr t) = 0%nat).
  { pose proof (word_no_space _ Ha) as Hw. destruct Ha as [Hne _]. destruct a as [|c a]; [done|].
    cbn. apply Forall_cons in Hw as [Hc _]. by destruct (Z.eqb_spec c 32). }
  rewrite Hs, drop_0. cbv zeta.
  destruct (a ++ 32 :: cstr t) as [|c s] eqn:E; [by destruct a|]. rewrite <- E.
  rewrite until_char_word by (by apply word_no_space).
  assert (Hz : zlen (a ++ 32 :: cstr t) = zlen a + 1 + zlen (cstr t)) by (zl; lia).
  destruct (Z.eqb_spec (zlen a) (zlen (a ++ 32 :: cstr t))) as [He|_].
  { pose proof (zlen_nonneg (cstr t)). lia. }
  replace (off + Z.of_nat 0 + zlen a) with (off + zlen a) by lia.
  rewrite poke_ok; [done|].
  pose proof (drop_zlen buf off _ Ho Hd ltac:(by destruct a)) as Hl. zl.
  pose proof (zlen_nonneg a). pose proof (zlen_nonneg t). lia.
Qed.

Definition status_line (code reason : bytes) : bytes := str "HTTP/1.1" ++ 32 :: code ++ 32 :: reason.

Lemma status_line_text code reason : is_word code -> is_text reason -> is_text (status_line code reason).
Proof.
  intros Hc Hr. apply Forall_app. split; [apply (bool_decide_unpack _); by vm_compute|].
  apply Forall_cons. split; [lia|]. apply Forall_app. split; [by apply word_text|].
  apply Forall_cons. split; [lia|done].
Qed.

Lemma status_line_parse_ok x code reason rest :
  0 <= x_off x -> is_word code -> is_text reason ->
  drop (Z.to_nat (x_off x)) (x_buf x) = status_line code reason ++ CRLF ++ rest -> In 0 rest ->
  exists buf,
    http_client_status_line_parse x
    = Some (0, advance (zlen (status_line code reason) + 2)
                 (mkRx (x_state x) (s16 (atoi code)) (x_ka x) buf (x_off x) (x_avail x) (x_total x)
                    (x_body_len x) (x_chunk_len x) (x_chunked x) (x_clen x) (x_hdrs x)))
    /\ length buf = length (x_buf x)
    /\ drop (Z.to_nat (x_off x + zlen (status_line code reason) + 2)) buf = rest.
Proof.
  intros Ho Hc Hr Hd Hz. unfold http_client_status_line_parse.
  set (line := status_line code reason) in *.
  assert (Hlt : is_text line) by (by apply status_line_text).
  rewrite (str_at_app (x_buf x) (x_off x) (line ++ CRLF) rest); [| |by rewrite Hd, <- app_assoc|done].
  2:{ apply Forall_app. split; [by apply text_nonzero|]. apply (bool_decide_unpack _); by vm_compute. }
  rewrite <- app_assoc, strstr_line by done.
  assert (Hd1 : drop (Z.to_nat (x_off x)) (x_buf x) = str "HTTP/1.1" ++ 32 :: (code ++ 32 :: reason ++ CRLF ++ rest)).
  { rewrite Hd. unfold line, status_line. by rewrite <- !app_assoc, <- !app_comm_cons, <- !app_assoc. }
  assert (Hz1 : In 0 (reason ++ CRLF ++ rest)) by (apply in_or_app; right; by apply in_or_app; right).
  rewrite (strtok_word _ _ (str "HTTP/1.1") _ Ho ltac:(apply (bool_decide_unpack _); by vm_compute) Hd1)
    by (apply in_or_app; right; by right).
  change (strcmp (str "HTTP/1.1") (str "HTTP/1.1")) with 0. cbn [Z.eqb negb].
  change (zlen (str "HTTP/1.1")) with 8.
  assert (Hd2 : drop (Z.to_nat (x_off x + 8 + 1)) (<[Z.to_nat (x_off x + 8) := 0]> (x_buf x))
                = code ++ 32 :: (reason ++ CRLF ++ rest)).
  { rewrite drop_poke by lia. apply (drop_shift _ (x_off x) _ (str "HTTP/1.1" ++ [32])); [done| |].
    - rewrite Hd1. by rewrite <- app_assoc.
    - change (zlen (str "HTTP/1.1" ++ [32])) with 9. lia. }
  assert (Ho2 : 0 <= x_off x + 8 + 1) by lia. rewrite (strtok_word _ _ code _ Ho2 Hc Hd2 Hz1).
  assert (Hll : zlen line = 8 + 1 + zlen code + 1 + zlen reason).
  { unfold line, status_line. zl. zl. change (zlen (str "HTTP/1.1")) with 8. lia. }
  eexists. split; [reflexivity|]. split; [by rewrite !length_insert|].
  pose proof (zlen_nonneg code). pose proof (zlen_nonneg reason).
  rewrite !drop_poke by lia. apply (drop_shift _ (x_off x) _ (line ++ CRLF)); [done|by rewrite Hd, <- app_assoc|].
  rewrite zlen_app. change (zlen CRLF) with 2. lia.
Qed.

(** ** The headers *)

Definition is_header (h : bytes) : Prop := h <> [] /\ is_text h.

(** The header lines as they are sent. *)
Definition block (hs : list bytes) : bytes := concat (map (fun h => h ++ CRLF) hs).

Lemma block_nonzero hs : Forall is_header hs -> Forall (fun c => c <> 0) (block hs).
Proof.
  induction 1 as [|h hs [_ Hh] Hhs IH]; [constructor|]. cbn. rewrite <- app_assoc.
  apply Forall_app. split; [by apply text_nonzero|]. repeat (apply Forall_cons; split; [lia|]). exact IH.
Qed.

Lemma zlen_block_cons h hs : zlen (block (h :: hs)) = zlen h + 2 + zlen (block hs).
Proof. cbn. rewrite !zlen_app. change (zlen CRLF) with 2. fold (block hs). lia. Qed.

(** The end of the headers. *)
Lemma strstr_block hs t :
  Forall is_header hs -> hs <> [] ->
  strstr (CRLF ++ CRLF) (block hs ++ CRLF ++ t) = Some (length (block hs) - 2)%nat.
Proof.
  induction 1 as [|h hs [_ Hh] Hhs IH]; [done|]. intros _. cbn [block map concat].
  fold (block hs). destruct hs as [|h' hs].
  - rewrite app_nil_r, <- app_assoc, strstr_blank by done. f_equal. rewrite length_app. cbn. lia.
  - specialize (IH ltac:(done)). rewrite <- !app_assoc.
    apply Forall_cons in Hhs as [[Hne Hh'] _]. destruct h' as [|c h']; [done|].
    apply Forall_cons in Hh' as [[_ Hc] _].
    cbn [block map concat] in *. rewrite <- !app_comm_cons in *. rewrite strstr_next by done.
    rewrite IH. cbn [fmap option_fmap option_map]. f_equal. rewrite !length_app. cbn [length]. rewrite !length_app. cbn. lia.
Qed.

(** The effect of the lines on the response. *)
Fixpoint note_all (x : rx) (hs : list bytes) : option rx :=
  match hs with
  | [] => Some x
  | h :: hs' => match note_header x h with Some x' => note_all x' hs' | None => None end
  end.

Lemma note_header_buf b x h : note_header (set_buf b x) h = set_buf b <$> note_header x h.
Proof.
  unfold note_header. destruct (has_name h (str "Content-Length")); [done|].
  destruct (is_this_header h (str "Transfer-Encoding") _) as [[]|]; [done| |done].
  by destruct (is_this_header h (str "Connection") _).
Qed.

Lemma note_all_buf b x hs : note_all (set_buf b x) hs = set_buf b <$> note_all x hs.
Proof.
  revert x. induction hs as [|h hs IH]; intros x; [done|]. cbn. rewrite note_header_buf.
  destruct (note_header x h) as [x'|]; [|done]. apply IH.
Qed.

Lemma note_header_keeps x h x' :
  note_header x h = Some x' -> x_avail x' = x_avail x /\ x_buf x' = x_buf x.
Proof.
  unfold note_header. destruct (has_name h _); [by intros [= <-]|].
  destruct (is_this_header h (str "Transfer-Encoding") _) as [[]|]; [by intros [= <-]| |done].
  destruct (is_this_header h (str "Connection") _); [by intros [= <-]|done].
Qed.

Lemma hdrs_loop_ok hs : forall fuel x pos parsed t x',
  Forall is_header hs -> (length hs < fuel)%nat -> 0 <= pos ->
  drop (Z.to_nat pos) (x_buf x) = block hs ++ 0 :: t ->
  parsed + zlen (block hs) <= x_avail x -> note_all x hs = Some x' ->
  exists buf, hdrs_loop fuel x pos parsed = Some (parsed + zlen (block hs), set_buf buf x')
    /\ length buf = length (x_buf x) /\ drop (Z.to_nat (pos + zlen (block hs))) buf = 0 :: t.
Proof.
  induction hs as [|h hs IH]; intros fuel x pos parsed t x' Hhs Hf Hp Hd Ha Hn;
    (destruct fuel as [|fuel]; [simpl in Hf; lia|]); cbn [hdrs_loop].
  - rewrite (str_at_app _ _ [] (0 :: t)); [|done|done|by left]. cbn in Hn. injection Hn as <-.
    exists (x_buf x). split; [|split; [done|]].
    + cbn. change (zlen (block [])) with 0. rewrite Z.add_0_r. by destruct x.
    + change (zlen (block [])) with 0. by rewrite Z.add_0_r.
  - rewrite (str_at_app _ _ (block (h :: hs)) (0 :: t)); [|by apply block_nonzero|done|by left].
    rewrite zlen_block_cons in *. change (cstr (0 :: t)) with (@nil Z). rewrite app_nil_r.
    apply Forall_cons in Hhs as [[Hne Hh] Hhs].
    assert (Hb : block (h :: hs) = h ++ CRLF ++ block hs) by (cbn; by rewrite <- app_assoc).
    rewrite Hb in *. rewrite strstr_line, take_app_length by done.
    pose proof (zlen_nonneg (block hs)). pose proof (zlen_nonneg h).
    rewrite (proj2 (Z.ltb_lt _ _)) by lia. fold (zlen h).
    pose proof (drop_zlen _ _ _ Hp Hd ltac:(by destruct h)) as Hl.
    rewrite <- !app_assoc in Hd. rewrite !zlen_app in Hl. change (zlen CRLF) with 2 in Hl.
    pose proof (zlen_nonneg (0 :: t)).
    rewrite poke_ok by lia. rewrite note_header_buf. cbn in Hn.
    destruct (note_header x h) as [x1|] eqn:E; [|done]. cbn [fmap option_fmap option_map].
    apply note_header_keeps in E as [Hav Hbuf].
    set (b1 := <[Z.to_nat (pos + zlen h) := 0]> (x_buf x)).
    destruct (IH fuel (set_buf b1 x1) (pos + zlen h + 2) (parsed + zlen h + 2) t (set_buf b1 x'))
      as (buf & R1 & R2 & R3); [done|simpl in Hf; lia|lia| |cbn; lia| |].
    + cbn [x_buf set_buf]. unfold b1. rewrite drop_poke by lia.
      apply (drop_shift _ pos _ (h ++ CRLF)); [done|by rewrite Hd, <- app_assoc|].
      rewrite zlen_app. change (zlen CRLF) with 2. lia.
    + by rewrite note_all_buf, Hn.
    + exists buf. rewrite R1. split; [|split].
      * f_equal. f_equal. lia.
      * rewrite R2. cbn. apply length_insert.
      * replace (pos + (zlen h + 2 + zlen (block hs))) with (pos + zlen h + 2 + zlen (block hs)) by lia. done.
Qed.

Lemma hdrs_parse_ok x hs rest x' :
  0 <= x_off x -> hs <> [] -> Forall is_header hs ->
  drop (Z.to_nat (x_off x)) (x_buf x) = block hs ++ CRLF ++ rest -> In 0 rest ->
  zlen (block hs) <= x_avail x -> note_all x hs = Some x' ->
  exists buf, http_client_hdrs_parse x = Some (0, advance (zlen (block hs) + 2) (set_buf buf x'))
    /\ length buf = length (x_buf x)
    /\ drop (Z.to_nat (x_off x + zlen (block hs) + 2)) buf = rest.
Proof.
  intros Ho Hne Hhs Hd Hz Ha Hn. unfold http_client_hdrs_parse.
  rewrite bool_decide_eq_false_2.
  2:{ rewrite Hd. destruct hs as [|h hs]; [done|]. apply Forall_cons in Hhs as [[Hh Ht] _].
      destruct h as [|c h]; [done|]. apply Forall_cons in Ht as [[_ Hc] _]. cbn. intros [= -> _]. done. }
  assert (Hnz : Forall (fun c => c <> 0) (block hs ++ CRLF)).
  { apply Forall_app. split; [by apply block_nonzero|]. repeat constructor; lia. }
  rewrite (str_at_app _ _ (block hs ++ CRLF) rest); [|done|by rewrite Hd, <- app_assoc|done].
  rewrite <- app_assoc, strstr_block by done.
  assert (Hb2 : (2 <= length (block hs))%nat).
  { destruct hs as [|h hs]; [done|]. pose proof (zlen_block_cons h hs) as Hl. unfold zlen in Hl. lia. }
  pose proof (drop_zlen _ _ _ Ho Hd ltac:(by destruct (block hs))) as Hl.
  rewrite !zlen_app in Hl. change (zlen CRLF) with 2 in Hl. pose proof (zlen_nonneg rest).
  replace (x_off x + Z.of_nat (length (block hs) - 2) + 2) with (x_off x + zlen (block hs)) by (unfold zlen; lia).
  rewrite poke_ok by (pose proof (zlen_nonneg (block hs)); lia).
  set (b1 := <[Z.to_nat (x_off x + zlen (block hs)) := 0]> (x_buf x)).
  destruct (hdrs_loop_ok hs (length (x_buf x)) (set_buf b1 x) (x_off x) 0 (10 :: rest) (set_buf b1 x'))
    as (buf & R1 & R2 & R3); [done| |done| |cbn; lia|by rewrite note_all_buf, Hn|].
  - assert (Hlen : Z.of_nat (length hs) <= zlen (block hs)).
    { clear. induction hs as [|h hs IH]; [done|]. rewrite zlen_block_cons. cbn [length].
      pose proof (zlen_nonneg h). lia. }
    unfold zlen in Hl, Hlen. lia.
  - cbn [x_buf set_buf]. by apply drop_poke_at with (c := 13).
  - rewrite R1. exists buf. split; [done|]. split; [rewrite R2; cbn; apply length_insert|].
    apply (drop_shift _ (x_off x + zlen (block hs)) _ [0; 10]); [pose proof (zlen_nonneg (block hs)); lia|done|].
    change (zlen [0; 10]) with 2. lia.
Qed.

(** A header that says nothing of the body. *)
Definition plain_header (h : bytes) : Prop :=
  is_header h /\ has_name h (str "Content-Length") = false /\ has_name h (str "Transfer-Encoding") = false
  /\ (has_name h (str "Connection") = true -> strstr [32] h <> None).

Definition length_header (ds : bytes) : bytes := str "Content-Length: " ++ ds.

(** What plain headers change. *)
Definition noted (ka : bool) (hs : list bytes) (x : rx) : rx :=
  mkRx (x_state x) (x_status x) ka (x_buf x) (x_off x) (x_avail x) (x_total x) (x_body_len x) (x_chunk_len x)
    (x_chunked x) (x_clen x) (x_hdrs x ++ hs).

Lemma note_plain x h :
  plain_header h -> (length (x_hdrs x) < HTTP_MAX_RESP_HDRS)%nat ->
  exists ka, note_header x h = Some (noted ka [h] x).
Proof.
  intros (_ & H1 & H2 & H3) Hl. unfold note_header. rewrite H1, (proj2 (Nat.ltb_lt _ _)) by done.
  unfold is_this_header. rewrite H2. cbn [negb].
  destruct (has_name h (str "Connection")) eqn:E; cbn [negb].
  - specialize (H3 eq_refl). destruct (strstr [32] h) as [k|]; [|done]. by eexists.
  - by eexists.
Qed.

Lemma note_all_plain hs x :
  Forall plain_header hs -> (length (x_hdrs x) + length hs <= HTTP_MAX_RESP_HDRS)%nat ->
  exists ka, note_all x hs = Some (noted ka hs x).
Proof.
  intros H. revert x. induction H as [|h hs Hh Hhs IH]; intros x Hl; cbn [note_all].
  - exists (x_ka x). unfold noted. rewrite app_nil_r. by destruct x.
  - cbn [length] in Hl. destruct (note_plain x h Hh ltac:(lia)) as [ka ->].
    destruct (IH (noted ka [h] x)) as [ka' ->]; [cbn [noted x_hdrs]; rewrite length_app; cbn [length]; lia|].
    exists ka'. unfold noted. cbn. by rewrite <- app_assoc.
Qed.

Lemma note_all_app x hs1 hs2 :
  note_all x (hs1 ++ hs2) = match note_all x hs1 with Some x' => note_all x' hs2 | None => None end.
Proof.
  revert x. induction hs1 as [|h hs1 IH]; intros x; [done|]. cbn. by destruct (note_header x h).
Qed.

Lemma digits_value ds : digits ds -> is_digits ds.
Proof. intros H. eapply Forall_impl; [done|]. intros c Hc. unfold isdigit in Hc. b2p. lia. Qed.

Lemma digits_text ds : digits ds -> is_text ds.
Proof. intros H. eapply Forall_impl; [by apply digits_value|]. cbv beta. lia. Qed.

Lemma note_length x ds :
  digits ds -> (0 < length ds)%nat -> dec_val ds < 2 ^ 31 -> (length (x_hdrs x) < HTTP_MAX_RESP_HDRS)%nat ->
  note_header x (length_header ds)
  = Some (mkRx (x_state x) (x_status x) (x_ka x) (x_buf x) (x_off x) (x_avail x) (dec_val ds) (x_body_len x)
            (x_chunk_len x) (x_chunked x) true (x_hdrs x ++ [length_header ds])).
Proof.
  intros Hd Hne Hv Hl. unfold note_header. rewrite (proj2 (Nat.ltb_lt _ _)) by done.
  change (has_name (length_header ds) (str "Content-Length")) with true. cbn iota.
  change (drop (length (str "Content-Length:")) (length_header ds)) with (32 :: ds).
  change (atoi (32 :: ds)) with (atoi ds). rewrite atoi_value by (done || lia).
  rewrite u32_small; [done|]. pose proof (dec_val_nonneg ds (digits_value ds Hd)). lia.
Qed.

Lemma note_all_known x hs1 ds hs2 :
  x_hdrs x = [] -> Forall plain_header hs1 -> Forall plain_header hs2 ->
  (length hs1 + length hs2 < HTTP_MAX_RESP_HDRS)%nat -> digits ds -> ds <> [] -> 0 < dec_val ds < 2 ^ 31 ->
  exists ka, note_all x (hs1 ++ length_header ds :: hs2)
    = Some (mkRx (x_state x) (x_status x) ka (x_buf x) (x_off x) (x_avail x) (dec_val ds) (x_body_len x)
              (x_chunk_len x) (x_chunked x) true (hs1 ++ length_header ds :: hs2)).
Proof.
  intros Hx Hp1 Hp2 Hcnt Hds Hdne Hval. rewrite note_all_app.
  destruct (note_all_plain hs1 x Hp1) as [k1 ->]; [rewrite Hx; cbn [length]; lia|]. cbn [note_all].
  rewrite note_length; [|done|destruct ds; [done|cbn; lia]|lia|].
  2:{ cbn [noted x_hdrs]. rewrite Hx. cbn [app]. lia. }
  match goal with |- context [note_all ?y hs2] => destruct (note_all_plain hs2 y Hp2) as [k2 ->] end.
  { cbn [noted x_hdrs]. rewrite Hx. cbn [app]. rewrite length_app. cbn [length]. lia. }
  exists k2. unfold noted. cbn. rewrite Hx. cbn. by rewrite <- app_assoc.
Qed.

(** ** The body *)

(** The calls that hand over a body in the given pieces. *)
Fixpoint pieces (status : Z) (hs : list bytes) (total : Z) (segs : list bytes) : list cb_info :=
  match segs with
  | [] => []
  | [s] => [mkCb status hs s total false]
  | s :: segs' => mkCb status hs s total true :: pieces status hs total segs'
  end.

Lemma pieces_body status hs total segs : concat (map cb_body (pieces status hs total segs)) = concat segs.
Proof.
  induction segs as [|s segs IH]; [done|]. destruct segs as [|s' segs]; [done|].
  cbn [pieces map concat]. cbn [pieces map concat] in IH. by rewrite IH.
Qed.

(** A reception into the empty buffer. *)
Lemma socket_recv_fresh x bs :
  x_avail x = 0 -> 0 <= x_off x <= zlen (x_buf x) -> length (x_buf x) = 1461%nat ->
  zlen bs <= MAX_RECV_BUF_SIZE ->
  exists t, http_client_socket_recv x (RData bs) = Some (zlen bs, bs ++ 0 :: t)
    /\ length (bs ++ 0 :: t) = 1461%nat.
Proof.
  intros Ha Ho Hl Hb. unfold http_client_socket_recv, recv_fits. rewrite Ha.
  unfold MAX_RECV_BUF_SIZE in *.
  rewrite (proj2 (Z.leb_le _ _)), (proj2 (Z.leb_le _ _)) by lia. cbn [negb andb].
  change (Z.to_nat 0) with 0%nat. rewrite take_0.
  assert (Hm : forall b : bytes, memcpy b 0 [] = b) by (intros b; done).
  rewrite Hm, Z.add_0_r. pose proof (zlen_nonneg bs). rewrite (proj2 (Z.leb_le _ _)) by lia.
  assert (Hlm : length (memcpy (x_buf x) 0 bs) = 1461%nat).
  { rewrite length_memcpy; [done|lia|]. unfold zlen in *. lia. }
  rewrite Z.add_0_l, poke_ok by (unfold zlen in *; lia).
  unfold memcpy in *. change (Z.to_nat 0) with 0%nat in *. rewrite take_0 in *. cbn [app Nat.add] in *.
  destruct (drop (length bs) (x_buf x)) as [|c t] eqn:E.
  { rewrite length_app in Hlm. cbn in Hlm. unfold zlen in Hb. lia. }
  exists t. assert (Hi : <[Z.to_nat (zlen bs) := 0]> (bs ++ c :: t) = bs ++ 0 :: t).
  { replace (Z.to_nat (zlen bs)) with (length bs + 0)%nat by (unfold zlen; lia). by rewrite insert_app_r. }
  rewrite Hi. split; [done|]. rewrite length_app in *. cbn in *. lia.
Qed.

(** The state while a body of known length arrives. *)
Definition in_body (x : rx) (n : Z) : Prop :=
  x_state x = HTTP_STATE_RESP_BODY_RECV /\ x_chunked x = false /\ x_clen x = true /\ x_body_len x = n
  /\ 0 <= n /\ 0 < x_total x < 2 ^ 31 /\ length (x_buf x) = 1461%nat.

(** One piece of the body, at the receive position. *)
Lemma process_body x n bs t :
  in_body x n -> 0 <= x_off x -> drop (Z.to_nat (x_off x)) (x_buf x) = bs ++ t -> x_avail x = zlen bs ->
  n + zlen bs <= x_total x ->
  exists x', process x = Some ([mkCb (x_status x) (x_hdrs x) bs (x_total x) (negb (x_total x <=? n + zlen bs))],
                               if x_total x <=? n + zlen bs then Done x' else Go x')
    /\ in_body x' (n + zlen bs) /\ x_avail x' = 0 /\ x_off x' = x_off x + zlen bs
    /\ x_total x' = x_total x /\ x_hdrs x' = x_hdrs x /\ x_status x' = x_status x.
Proof.
  intros (Hs & Hc & Hcl & Hn & Hn0 & Ht & Hb) Ho Hd Ha Hle. unfold process.
  assert (step_status x = Some (inl x)) as -> by (unfold step_status; by rewrite Hs).
  assert (step_headers x = Some ([], inl x)) as -> by (unfold step_headers; by rewrite Hs).
  assert (step_chunk_hdr x = Some ([], inl x)) as -> by (unfold step_chunk_hdr; by rewrite Hs).
  unfold step_body, step_chunked. rewrite Hs, bool_decide_eq_true_2 by done.
  pose proof (zlen_nonneg bs). cbn [x_total x_avail x_state advance set_chunk_len].
  rewrite Hn, Ha, (u32_small (n + zlen bs)) by lia.
  set (x1 := mkRx _ _ _ _ _ _ _ (n + zlen bs) _ _ _ _).
  assert (Hcb : forall m, resp_info_set x1 m = mkCb (x_status x) (x_hdrs x) bs (x_total x) m).
  { intros m. unfold resp_info_set, x1. cbn. rewrite Hc, Hcl. f_equal.
    rewrite Hd. unfold zlen. by rewrite Nat2Z.id, take_app_length. }
  rewrite Hcb. rewrite (proj2 (Z.eqb_neq (x_total x) 0)) by lia. cbn [negb andb].
  exists (advance (zlen bs) x1). split.
  - destruct (x_total x <=? n + zlen bs); [done|].
    by rewrite bool_decide_eq_false_2 by done.
  - unfold in_body, x1. cbn. rewrite Z.sub_diag. repeat split; try done; lia.
Qed.

Lemma body_rounds segs : forall x n evs,
  in_body x n -> x_avail x = 0 -> 0 <= x_off x <= zlen (x_buf x) ->
  segs <> [] -> Forall (fun s => s <> [] /\ zlen s <= MAX_RECV_BUF_SIZE) segs ->
  n + zlen (concat segs) = x_total x ->
  http_client_resp_recv x (map RData segs ++ evs)
  = Some (pieces (x_status x) (x_hdrs x) (x_total x) segs, 0).
Proof.
  induction segs as [|s segs IH]; [done|]. intros x n evs Hin Ha Ho _ Hss Htot.
  apply Forall_cons in Hss as [[Hne Hs] Hss]. cbn [map app http_client_resp_recv].
  destruct Hin as (Hst & Hc & Hcl & Hn & Hn0 & Ht & Hb).
  destruct (socket_recv_fresh x s Ha Ho Hb Hs) as (t & -> & Hlt).
  assert (Hs0 : 0 < zlen s) by (destruct s; [done|]; unfold zlen; simpl; lia).
  rewrite (proj2 (Z.ltb_ge (zlen s) 0)) by lia.
  cbn [concat] in Htot. rewrite zlen_app in Htot. pose proof (zlen_nonneg (concat segs)).
  set (x1 := mkRx _ _ _ (s ++ 0 :: t) 0 _ _ _ _ _ _ _).
  destruct (process_body x1 n s (0 :: t)) as (x' & -> & Hin' & Ha' & Ho' & Ht' & Hh' & Hs'); try done.
  { cbn. lia. }
  cbn [x1 x_status x_hdrs x_total x_off] in *.
  destruct segs as [|s' segs].
  - change (zlen (concat [])) with 0 in *. rewrite (proj2 (Z.leb_le _ _)) by lia. done.
  - assert (0 < zlen (concat (s' :: segs))).
    { apply Forall_cons in Hss as [[Hne' _] _]. cbn [concat]. rewrite zlen_app.
      pose proof (zlen_nonneg (concat segs)). destruct s'; [done|]. unfold zlen at 1. simpl. lia. }
    rewrite (proj2 (Z.leb_gt _ _)) by lia. rewrite (proj2 (Z.ltb_lt 0 (zlen s))) by lia.
    pose proof Hin' as (_ & _ & _ & _ & _ & _ & Hl').
    rewrite (IH x' (n + zlen s) evs); [|done|done| |done|done|rewrite Ht'; lia].
    + rewrite Hs', Hh', Ht'. done.
    + unfold zlen in *. unfold MAX_RECV_BUF_SIZE in Hs. lia.
Qed.

(** ** A whole response *)

Definition first_piece (code reason : bytes) (hs : list bytes) (b0 : bytes) : bytes :=
  status_line code reason ++ CRLF ++ block hs ++ CRLF ++ b0.

(** The status line and the headers of the first piece. *)
Lemma head_parsed x code reason hs b0 t hs' total clen :
  x_state x = HTTP_STATE_RESP_SL_RECV -> x_off x = 0 ->
  is_word code -> is_text reason -> hs <> [] -> Forall is_header hs ->
  x_buf x = first_piece code reason hs b0 ++ 0 :: t -> x_avail x = zlen (first_piece code reason hs b0) ->
  zlen (first_piece code reason hs b0) < 2 ^ 32 ->
  (forall x1, x_hdrs x1 = x_hdrs x -> x_total x1 = x_total x -> x_clen x1 = x_clen x -> exists ka', note_all x1 hs
     = Some (mkRx (x_state x1) (x_status x1) ka' (x_buf x1) (x_off x1) (x_avail x1) total (x_body_len x1)
               (x_chunk_len x1) (x_chunked x1) clen hs')) ->
  exists ka' buf off x1,
    step_status x = Some (inl x1) /\ x_state x1 = HTTP_STATE_RESP_HDR_RECV
    /\ http_client_hdrs_parse x1
       = Some (0, mkRx HTTP_STATE_RESP_HDR_RECV (s16 (atoi code)) ka' buf off (zlen b0) total (x_body_len x)
                    (x_chunk_len x) (x_chunked x) clen hs')
    /\ 0 <= off /\ length buf = length (x_buf x) /\ drop (Z.to_nat off) buf = b0 ++ 0 :: t.
Proof.
  intros Hs Ho Hcode Hr Hne Hhs Hbuf Ha Hlt Hnote.
  destruct (status_line_parse_ok x code reason (block hs ++ CRLF ++ b0 ++ 0 :: t)) as (b1 & Hp1 & Hl1 & Hd1);
    [lia|done|done| | |].
  { rewrite Ho, Hbuf. change (Z.to_nat 0) with 0%nat. rewrite drop_0. unfold first_piece. by rewrite <- !app_assoc. }
  { repeat (apply in_or_app; right). by left. }
  set (line := status_line code reason) in *.
  unfold first_piece in Ha, Hlt. fold line in Ha, Hlt. rewrite !zlen_app in Ha, Hlt. change (zlen CRLF) with 2 in Ha, Hlt.
  pose proof (zlen_nonneg line). pose proof (zlen_nonneg (block hs)). pose proof (zlen_nonneg b0).
  clearbody line.
  set (y := mkRx _ (s16 (atoi code)) _ b1 _ _ _ _ _ _ _ _) in Hp1.
  set (x1 := set_state HTTP_STATE_RESP_HDR_RECV (advance (zlen line + 2) y)).
  assert (Hav : x_avail x1 = zlen (block hs) + 2 + zlen b0).
  { change (u32 (x_avail x - (zlen line + 2)) = zlen (block hs) + 2 + zlen b0). rewrite Ha, u32_small by lia. lia. }
  destruct (Hnote x1 eq_refl eq_refl eq_refl) as [ka' Hn].
  set (xn := mkRx _ _ ka' _ _ _ _ _ _ _ _ _) in Hn.
  destruct (hdrs_parse_ok x1 hs (b0 ++ 0 :: t) xn) as (b2 & Hp2 & Hl2 & Hd2);
    [cbn; lia|done|done| |apply in_or_app; right; by left|lia|done|].
  { cbn [x1 x_buf x_off set_state advance y]. rewrite Ho in *. rewrite <- Hd1. f_equal. }
  exists ka', b2, (x_off x1 + zlen (block hs) + 2), x1. split_and!; try done.
  - unfold step_status. rewrite bool_decide_eq_true_2 by done. by rewrite Hp1.
  - rewrite Hp2. do 2 f_equal. unfold advance, set_buf. cbn [xn]. f_equal.
    + change (x_off x1 + (zlen (block hs) + 2) = x_off x1 + zlen (block hs) + 2). lia.
    + change (u32 (x_avail x1 - (zlen (block hs) + 2)) = zlen b0). rewrite Hav, u32_small by lia. lia.
  - cbn. lia.
  - by rewrite Hl2, <- Hl1.
Qed.

(** A response that has a body goes on with it. *)
Lemma process_head x code reason hs b0 t hs' total :
  x_state x = HTTP_STATE_RESP_SL_RECV -> x_chunked x = false -> x_off x = 0 ->
  is_word code -> is_text reason -> hs <> [] -> Forall is_header hs -> no_body (s16 (atoi code)) = false ->
  x_buf x = first_piece code reason hs b0 ++ 0 :: t -> x_avail x = zlen (first_piece code reason hs b0) ->
  zlen (first_piece code reason hs b0) < 2 ^ 32 ->
  (forall x1, x_hdrs x1 = x_hdrs x -> exists ka', note_all x1 hs
     = Some (mkRx (x_state x1) (x_status x1) ka' (x_buf x1) (x_off x1) (x_avail x1) total (x_body_len x1)
               (x_chunk_len x1) (x_chunked x1) true hs')) ->
  exists ka' buf off,
    (let x2 := mkRx HTTP_STATE_RESP_BODY_RECV (s16 (atoi code)) ka' buf off (zlen b0) total (x_body_len x)
                 (x_chunk_len x) false true hs' in
     process x = process x2)
    /\ 0 <= off /\ length buf = length (x_buf x) /\ drop (Z.to_nat off) buf = b0 ++ 0 :: t.
Proof.
  intros Hs Hc Ho Hcode Hr Hne Hhs Hnb Hbuf Ha Hlt Hnote.
  destruct (head_parsed x code reason hs b0 t hs' total true) as (ka' & b2 & off & x1 & Hst & Hs1 & Hp & H1 & H2 & H3);
    try done; [intros x1 Hx _ _; by apply Hnote|].
  exists ka', b2, off. split; [|done]. cbv zeta. unfold process at 1. rewrite Hst.
  set (x2 := mkRx HTTP_STATE_RESP_BODY_RECV _ _ b2 _ _ _ _ _ _ _ _).
  assert (step_headers x1 = Some ([], inl x2)) as ->.
  { unfold step_headers. rewrite bool_decide_eq_true_2 by done. rewrite Hp. cbn. rewrite Hnb, Hc. done. }
  unfold process. assert (step_status x2 = Some (inl x2)) as -> by done.
  assert (step_headers x2 = Some ([], inl x2)) as -> by done. done.
Qed.

(** A response without a body ends with its headers; what follows them in the
    same piece is handed to the callback. *)
Lemma bodyless_received buf ka code reason hs b0 evs :
  length buf = 1461%nat -> is_word code -> is_text reason -> no_body (s16 (atoi code)) = true ->
  hs <> [] -> Forall plain_header hs -> (length hs <= HTTP_MAX_RESP_HDRS)%nat ->
  zlen (first_piece code reason hs b0) <= MAX_RECV_BUF_SIZE ->
  http_client_resp_recv (rx_init buf ka) (RData (first_piece code reason hs b0) :: evs)
  = Some ([mkCb (s16 (atoi code)) hs b0 0 false], 0).
Proof.
  intros Hbuf Hcode Hr Hnb Hne Hp Hcnt Hfirst. cbn [http_client_resp_recv].
  destruct (socket_recv_fresh (rx_init buf ka) (first_piece code reason hs b0)) as (t & -> & Hlt);
    [done|cbn; pose proof (zlen_nonneg buf); lia|done|done|].
  rewrite (proj2 (Z.ltb_ge _ 0)) by auto with t2.
  set (x1 := mkRx _ _ _ (first_piece code reason hs b0 ++ 0 :: t) 0 _ _ _ _ _ _ _).
  destruct (head_parsed x1 code reason hs b0 t hs 0 false) as (ka' & b2 & off & x2 & Hst & Hs2 & Hpp & H1 & H2 & H3); try done.
  { eapply Forall_impl; [done|]. by intros h [? _]. }
  { unfold MAX_RECV_BUF_SIZE in Hfirst. cbn [x1 x_avail]. lia. }
  { intros x Hh Ht Hc. destruct (note_all_plain hs x Hp) as [k ->]; [rewrite Hh; exact Hcnt|].
    exists k. unfold noted. rewrite Hh, Ht, Hc. done. }
  unfold process. rewrite Hst. unfold step_headers. rewrite bool_decide_eq_true_2, Hpp by done. cbn. rewrite Hnb.
  unfold resp_info_set. cbn. rewrite H3. unfold zlen at 1. rewrite Nat2Z.id, take_app_length. done.
Qed.

(** C23: a response with a Content-Length greater than 0 (and below 2^31) is
    delivered whole.  When its status is one that has a body (not 101 to 199, 204 or
    304, [no_body]), the status line and the headers are in the first piece
    received, among at most as many headers as the table holds, of which the
    others say nothing of the body, and the pieces after it are not empty, fit
    the buffer of 1460 bytes and make up the announced length, the callback is
    called once per piece, with the status, all the headers and the length, with
    [more_data] set on all the calls but the last, and reception ends without an
    error, whatever the peer would send next. *)
Theorem response_delivered buf ka code reason hs1 ds hs2 b0 segs evs :
  length buf = 1461%nat ->
  is_word code -> is_text reason -> no_body (s16 (atoi code)) = false ->
  Forall plain_header hs1 -> Forall plain_header hs2 ->
  (length hs1 + length hs2 < HTTP_MAX_RESP_HDRS)%nat ->
  digits ds -> ds <> [] -> 0 < dec_val ds < 2 ^ 31 ->
  zlen (first_piece code reason (hs1 ++ length_header ds :: hs2) b0) <= MAX_RECV_BUF_SIZE ->
  Forall (fun s => s <> [] /\ zlen s <= MAX_RECV_BUF_SIZE) segs ->
  zlen (b0 ++ concat segs) = dec_val ds ->
  http_client_resp_recv (rx_init buf ka)
    (RData (first_piece code reason (hs1 ++ length_header ds :: hs2) b0) :: map RData segs ++ evs)
  = Some (pieces (s16 (atoi code)) (hs1 ++ length_header ds :: hs2) (dec_val ds) (b0 :: segs), 0).
Proof.
  intros Hbuf Hcode Hr Hnb Hp1 Hp2 Hcnt Hds Hdne Hval Hfirst Hsegs Htot.
  set (hs := hs1 ++ length_header ds :: hs2) in *. cbn [http_client_resp_recv].
  destruct (socket_recv_fresh (rx_init buf ka) (first_piece code reason hs b0)) as (t & -> & Hlt);
    [done|cbn; pose proof (zlen_nonneg buf); lia|done|done|].
  assert (Hpos : 0 < zlen (first_piece code reason hs b0)).
  { unfold first_piece. rewrite !zlen_app. change (zlen CRLF) with 2.
    pose proof (zlen_nonneg (status_line code reason)). pose proof (zlen_nonneg (block hs)). pose proof (zlen_nonneg b0). lia. }
  rewrite (proj2 (Z.ltb_ge _ 0)), (proj2 (Z.ltb_lt 0 _)) by lia.
  set (x1 := mkRx _ _ _ (first_piece code reason hs b0 ++ 0 :: t) 0 _ _ _ _ _ _ _).
  destruct (process_head x1 code reason hs b0 t hs (dec_val ds)) as (ka' & b2 & off & Hp & Ho & Hl & Hd); try done.
  { by destruct hs1. }
  { apply Forall_app. split; [|apply Forall_cons; split].
    1,3: eapply Forall_impl; [done|]; by intros h [? _].
    split; [done|]. apply Forall_app. split; [apply (bool_decide_unpack _); by vm_compute|by apply digits_text]. }
  { unfold MAX_RECV_BUF_SIZE in Hfirst. cbn [x1 x_avail]. lia. }
  { intros x Hx. by apply note_all_known. }
  rewrite Hp. set (x2 := mkRx _ _ _ b2 _ _ _ _ _ _ _ _). rewrite zlen_app in Htot.
  pose proof (zlen_nonneg b0). pose proof (zlen_nonneg (concat segs)).
  assert (Hlb : length b2 = 1461%nat) by (rewrite Hl; exact Hlt).
  destruct (process_body x2 0 b0 (0 :: t)) as (x3 & Hpb & Hin & Hav & Hoff & Htl & Hh3 & Hs3);
    [unfold in_body; cbn; repeat split; try done; lia|done|done|done|cbn; lia|].
  rewrite Hpb. cbn [x2 x_status x_hdrs x_total] in *. rewrite Z.add_0_l in *.
  destruct segs as [|s segs].
  - change (zlen (concat [])) with 0 in *. rewrite (proj2 (Z.leb_le _ _)) by lia. done.
  - assert (0 < zlen (concat (s :: segs))).
    { apply Forall_cons in Hsegs as [[Hne' _] _]. cbn [concat]. rewrite zlen_app.
      pose proof (zlen_nonneg (concat segs)). destruct s; [done|]. unfold zlen at 1. simpl. lia. }
    rewrite (proj2 (Z.leb_gt _ _)) by lia.
    pose proof Hin as (_ & _ & _ & _ & _ & _ & Hl3).
    rewrite (body_rounds (s :: segs) x3 (zlen b0) evs); try done; [by rewrite Htl, Hh3, Hs3| |lia].
    pose proof (drop_zlen _ _ _ Ho Hd ltac:(by destruct b0)) as Hz. rewrite zlen_app, zlen_cons in Hz.
    pose proof (zlen_nonneg t). cbn [x2 x_off] in Hoff. unfold zlen in *. lia.
Qed.

Lemma response_delivered_witness :
  http_client_resp_recv (rx_init (replicate 1461 0) false)
    (RData (first_piece (str "200") (str "OK") ([str "Server: t2"] ++ length_header (str "5") :: []) (str "he"))
     :: map RData [str "llo"] ++ [RTimeout])
  = Some (pieces 200 ([str "Server: t2"] ++ length_header (str "5") :: []) 5 [str "he"; str "llo"], 0).
Proof.
  assert (Hp : Forall plain_header [str "Server: t2"]).
  { apply Forall_singleton. split; [split; [done|apply (bool_decide_unpack _); by vm_compute]|done]. }
  apply (response_delivered (replicate 1461 0) false (str "200") (str "OK") [str "Server: t2"] (str "5") []
           (str "he") [str "llo"] [RTimeout]).
  - apply length_replicate.
  - split; [done|]. apply (bool_decide_unpack _); by vm_compute.
  - apply (bool_decide_unpack _); by vm_compute.
  - done.
  - exact Hp.
  - done.
  - vm_compute. lia.
  - apply (bool_decide_unpack _); by vm_compute.
  - done.
  - vm_compute. done.
  - vm_compute. done.
  - apply Forall_singleton. split; [done|]. vm_compute. done.
  - done.
Defined.

(** ** Chunked bodies *)

Definition hex_digit (c : Z) : Prop := 48 <= c <= 57 \/ 97 <= c <= 102.
Definition hex_digit_val (c : Z) : Z := if c <=? 57 then c - 48 else c - 87.
Definition hex_value (s : bytes) : Z := fold_left (fun acc c => acc * 16 + hex_digit_val c) s 0.

Lemma chunk_digits_value s acc :
  Forall hex_digit s -> 0 <= acc -> acc * 16 ^ zlen s + 16 ^ zlen s <= 2 ^ 31 ->
  chunk_digits acc s = fold_left (fun a c => a * 16 + hex_digit_val c) s acc.
Proof.
  intros H. revert acc. induction H as [|c s Hc Hs IH]; intros acc H0 H1; [done|].
  cbn [chunk_digits fold_left]. rewrite zlen_cons, Z.pow_add_r in H1 by (lia || auto with t2).
  assert (Hp : 1 <= 16 ^ zlen s) by (pose proof (Z.pow_pos_nonneg 16 (zlen s) ltac:(lia) (zlen_nonneg s)); lia).
  assert (Hv : 0 <= hex_digit_val c < 16) by (unfold hex_digit_val, hex_digit in *; case_if; lia).
  rewrite Z.shiftl_mul_pow2 by lia. change (2 ^ 4) with 16. rewrite (s32_small (acc * 16)) by nia.
  rewrite <- IH by nia.
  unfold hex_digit_val, hex_digit in *.
  destruct (Z.leb_spec c 57).
  - rewrite (proj2 (Z.leb_le 48 c)) by lia. cbn [andb]. rewrite s32_small by nia. done.
  - rewrite (proj2 (Z.leb_le 97 c)), (proj2 (Z.leb_le c 102)) by lia. rewrite andb_false_r. cbn [andb].
    rewrite s32_small by nia. f_equal. lia.
Qed.

(** The extensions of a chunk header. *)
Definition is_ext (s : bytes) : Prop := s = [] \/ exists e, s = 59 :: e.

Lemma until_char_ext ds ext : Forall (fun c => c <> 59) ds -> is_ext ext -> until_char 59 (ds ++ ext) = ds.
Proof.
  intros Hd [->|[e ->]]; [|by apply until_char_word]. rewrite app_nil_r.
  induction Hd as [|c ds Hc Hd IH]; [done|]. cbn. destruct (Z.eqb_spec c 59); [done|]. by rewrite IH.
Qed.

Lemma hex_no_semicolon ds : Forall hex_digit ds -> Forall (fun c => c <> 59) ds.
Proof. intros H. eapply Forall_impl; [done|]. unfold hex_digit. intros c Hc. lia. Qed.

Lemma hex_value_nonneg ds : Forall hex_digit ds -> 0 <= hex_value ds.
Proof.
  intros H. enough (Hg : forall acc, 0 <= acc -> 0 <= fold_left (fun a c => a * 16 + hex_digit_val c) ds acc)
    by (by apply Hg).
  induction H as [|c ds Hc Hds IH]; intros acc Ha; [done|]. cbn. apply IH.
  unfold hex_digit_val, hex_digit in *. case_if; lia.
Qed.

(** C40: the length of a chunk.  A chunk header of at most seven decimal or
    lower-case hexadecimal digits, with or without extensions, is read as the
    number it writes, and reception goes on behind the line. *)
Theorem chunk_header_read x ds ext rest :
  0 <= x_off x -> Forall hex_digit ds -> (length ds <= 7)%nat -> is_ext ext -> is_text ext ->
  drop (Z.to_nat (x_off x)) (x_buf x) = (ds ++ ext) ++ CRLF ++ rest -> In 0 rest ->
  exists buf,
    http_client_chunk_len_get x
    = Some (0, advance (zlen (ds ++ ext) + 2) (set_chunk_len (hex_value ds) (set_buf buf x)))
    /\ drop (Z.to_nat (x_off x + zlen (ds ++ ext) + 2)) buf = rest.
Proof.
  intros Ho Hds Hlen He Ht Hd Hz. unfold http_client_chunk_len_get.
  assert (Htxt : is_text (ds ++ ext)).
  { apply Forall_app. split; [|done]. eapply Forall_impl; [done|]. unfold hex_digit. intros c Hc. lia. }
  rewrite (str_at_app _ _ ((ds ++ ext) ++ CRLF) rest); [| |by rewrite Hd, (app_assoc (ds ++ ext))|done].
  2:{ apply Forall_app. split; [by apply text_nonzero|]. repeat constructor; lia. }
  rewrite <- (app_assoc (ds ++ ext)), strstr_line by done.
  pose proof (drop_zlen _ _ _ Ho Hd ltac:(by destruct (ds ++ ext))) as Hl.
  rewrite !zlen_app in Hl. change (zlen CRLF) with 2 in Hl.
  pose proof (zlen_nonneg ds). pose proof (zlen_nonneg ext). pose proof (zlen_nonneg rest).
  assert (Hlde : Z.of_nat (length (ds ++ ext)) = zlen ds + zlen ext) by (unfold zlen; rewrite length_app; lia).
  rewrite poke_ok by lia. rewrite take_app_length. cbv zeta.
  rewrite until_char_ext; [|by apply hex_no_semicolon|done].
  set (b1 := <[Z.to_nat (x_off x + Z.of_nat (length (ds ++ ext))) := 0]> (x_buf x)).
  assert (Hb : exists b2, (if zlen ds =? zlen (ds ++ ext) then Some b1 else poke b1 (x_off x + zlen ds) 0) = Some b2
                 /\ drop (Z.to_nat (x_off x + zlen (ds ++ ext) + 2)) b2 = rest).
  { assert (Hr : drop (Z.to_nat (x_off x + zlen (ds ++ ext) + 2)) b1 = rest).
    { unfold b1. rewrite drop_poke by (unfold zlen; lia).
      apply (drop_shift _ (x_off x) _ ((ds ++ ext) ++ CRLF)); [done|by rewrite Hd, (app_assoc (ds ++ ext))|].
      rewrite (zlen_app (ds ++ ext)). change (zlen CRLF) with 2. lia. }
    case_if; [by exists b1|].
    rewrite poke_ok by (unfold b1, zlen; rewrite length_insert; unfold zlen in *; lia).
    eexists. split; [done|]. rewrite zlen_app in *. by rewrite drop_poke by lia. }
  destruct Hb as (b2 & -> & Hd2). exists b2. split; [|done].
  unfold HTTP_MAX_CHUNK_SIZE_ASCII_LEN. rewrite (proj2 (Z.ltb_ge _ _)) by (unfold zlen; lia).
  rewrite chunk_digits_value; [|done|done|].
  2:{ rewrite Z.mul_0_l, Z.add_0_l. etransitivity; [apply (Z.pow_le_mono_r 16 _ 7); [lia|unfold zlen; lia]|done]. }
  fold (hex_value ds). rewrite (proj2 (Z.leb_le _ _)) by (by apply hex_value_nonneg). done.
Qed.

Lemma chunk_header_read_witness :
  exists buf,
    http_client_chunk_len_get (rx_init (str "1f;x" ++ CRLF ++ [97; 0]) false)
    = Some (0, advance 6 (set_chunk_len 31 (set_buf buf (rx_init (str "1f;x" ++ CRLF ++ [97; 0]) false))))
    /\ drop 6 buf = [97; 0].
Proof.
  apply (chunk_header_read (rx_init (str "1f;x" ++ CRLF ++ [97; 0]) false) (str "1f") (str ";x") [97; 0]).
  - done.
  - change (str "1f") with [49; 102]. repeat (apply Forall_cons; split; [unfold hex_digit; lia|]). done.
  - vm_compute. lia.
  - right. by eexists.
  - apply (bool_decide_unpack _); by vm_compute.
  - done.
  - right. by left.
Defined.

(** ** The line end of a chunk *)

Definition in_chunk (x : rx) (n : Z) : Prop :=
  x_state x = HTTP_STATE_RESP_BODY_RECV_CHUNKED /\ x_chunked x = true /\ x_chunk_len x = n /\ 0 < n
  /\ length (x_buf x) = 1461%nat.

(** A chunk that ends in the bytes received. *)
Lemma process_chunk x d t :
  in_chunk x (zlen d) -> x_off x = 0 -> x_buf x = (d ++ CRLF) ++ t -> x_avail x = zlen d + 2 -> zlen d < 2 ^ 31 ->
  process x = Some ([mkCb (x_status x) (x_hdrs x) d (if x_clen x then x_total x else 0) true],
                    Go (mkRx HTTP_STATE_RESP_CHUNK_HDR_RECV (x_status x) (x_ka x) (x_buf x) (zlen d) 2 (x_total x)
                          (x_body_len x) 0 true (x_clen x) (x_hdrs x))).
Proof.
  intros (Hs & Hc & Hn & Hn0 & Hb) Ho Hbuf Ha Hlt. unfold process.
  assert (step_status x = Some (inl x)) as -> by (unfold step_status; by rewrite Hs).
  assert (step_headers x = Some ([], inl x)) as -> by (unfold step_headers; by rewrite Hs).
  assert (step_chunk_hdr x = Some ([], inl x)) as -> by (unfold step_chunk_hdr; by rewrite Hs).
  assert (step_body x = ([], inl x)) as -> by (unfold step_body; by rewrite Hs).
  unfold step_chunked. rewrite Hs, bool_decide_eq_true_2 by done.
  unfold resp_info_set. rewrite Hc, Hn, Ha, Ho, Z.min_l by lia. change (Z.to_nat 0) with 0%nat.
  rewrite drop_0, Hbuf, <- app_assoc. unfold zlen at 1. rewrite Nat2Z.id, take_app_length.
  unfold advance, set_chunk_len. cbn [x_chunk_len x_avail x_off]. rewrite Z.sub_diag.
  change (0 =? 0) with true. cbn iota. unfold set_state. cbn. rewrite Ha, Hc, Ho, u32_small by lia.
  do 4 f_equal; [by rewrite Hbuf, <- app_assoc|lia].
Qed.

(** The line end left over by a chunk is read as a chunk of length zero. *)
Lemma process_left_over x t :
  x_state x = HTTP_STATE_RESP_CHUNK_HDR_RECV -> x_chunked x = true -> x_off x = 0 -> x_buf x = CRLF ++ t -> In 0 t ->
  0 <= x_avail x ->
  exists x', process x = Some ([mkCb (x_status x) (x_hdrs x) [] (if x_clen x then x_total x else 0) false], Done x').
Proof.
  intros Hs Hc Ho Hbuf Hz Ha. unfold process.
  assert (step_status x = Some (inl x)) as -> by (unfold step_status; by rewrite Hs).
  assert (step_headers x = Some ([], inl x)) as -> by (unfold step_headers; by rewrite Hs).
  unfold step_chunk_hdr. rewrite Hs, bool_decide_eq_true_2 by done. unfold http_client_chunk_len_get.
  rewrite Ho, (str_at_app _ _ CRLF t); [|repeat constructor; lia|done|done].
  change (strstr CRLF (CRLF ++ cstr t)) with (Some 0%nat).
  cbv beta iota. rewrite poke_ok by (rewrite Hbuf, zlen_app; change (zlen CRLF) with 2; pose proof (zlen_nonneg t); lia).
  cbn [take until_char Z.of_nat]. change (zlen (@nil Z) =? zlen (@nil Z)) with true.
  change (HTTP_MAX_CHUNK_SIZE_ASCII_LEN <? zlen (@nil Z)) with false. cbn iota. cbn [chunk_digits].
  change (0 <=? 0) with true. cbn iota. cbv zeta. change (0 <? 0) with false. cbn iota.
  change (x_chunk_len (advance _ _) =? 0) with true. cbn iota. eexists. cbn [app]. do 3 f_equal.
  unfold resp_info_set. change (x_chunked (advance _ _)) with (x_chunked x). rewrite Hc.
  change (x_chunk_len (advance _ _)) with 0. rewrite Z.min_l; [done|]. apply Z.mod_pos_bound. lia.
Qed.

(** A chunked body is cut off after its first chunk, without an error.  The
    line end that closes a chunk is not consumed: the next reception finds it in
    front of whatever the peer sends, reads it as a chunk header of no digits,
    and reports the end of the body. *)
Theorem chunked_body_cut x d next evs :
  in_chunk x (zlen d) -> x_avail x = 0 -> 0 <= x_off x <= zlen (x_buf x) ->
  zlen d + 2 <= MAX_RECV_BUF_SIZE -> zlen next + 4 <= MAX_RECV_BUF_SIZE ->
  http_client_resp_recv x (RData (d ++ CRLF) :: RData next :: evs)
  = Some ([mkCb (x_status x) (x_hdrs x) d (if x_clen x then x_total x else 0) true;
           mkCb (x_status x) (x_hdrs x) [] (if x_clen x then x_total x else 0) false], 0).
Proof.
  intros (Hs & Hc & Hn & Hn0 & Hb) Ha Ho Hd Hnx. cbn [http_client_resp_recv].
  unfold MAX_RECV_BUF_SIZE in *. assert (Hz2 : zlen (d ++ CRLF) = zlen d + 2) by (rewrite zlen_app; done).
  destruct (socket_recv_fresh x (d ++ CRLF)) as (t & -> & Hlt); [done|done|done|rewrite Hz2; done|].
  rewrite (proj2 (Z.ltb_ge _ 0)), (proj2 (Z.ltb_lt 0 _)) by lia.
  erewrite process_chunk; [|repeat split; done|done|done|done|cbn; lia]. cbn [x_status x_hdrs x_clen x_total x_ka x_buf x_body_len].
  match goal with |- context [http_client_socket_recv ?y _] => set (x1 := y) end.
  assert (Hr : exists r, http_client_socket_recv x1 (RData next) = Some (zlen next + 2, CRLF ++ r) /\ In 0 r).
  { unfold http_client_socket_recv, recv_fits. cbn [x1 x_off x_avail x_buf].
    pose proof (zlen_nonneg next). unfold MAX_RECV_BUF_SIZE.
    rewrite (proj2 (Z.leb_le _ _)), (proj2 (Z.leb_le _ _)) by (unfold zlen in *; lia). cbn [negb andb].
    rewrite (proj2 (Z.leb_le 0 _)) by lia. unfold zlen at 1. rewrite Nat2Z.id, <- app_assoc, drop_app_length.
    change (take (Z.to_nat 2) (CRLF ++ 0 :: t)) with CRLF.
    set (b := memcpy _ 0 CRLF). assert (Hlb : zlen b = 1461).
    { unfold b. unfold zlen. rewrite length_memcpy; [|lia|rewrite <- app_assoc in Hlt; unfold zlen; rewrite Hlt; done].
      by rewrite app_assoc, Hlt. }
    assert (Hb2 : exists b', b = CRLF ++ b') by (unfold b, memcpy; eexists; done).
    destruct Hb2 as [b' Hb2]. rewrite Hb2 in *. rewrite zlen_app in Hlb. change (zlen CRLF) with 2 in Hlb.
    change (memcpy (CRLF ++ b') 2 next) with (CRLF ++ memcpy b' 0 next).
    assert (Hlm : length (memcpy b' 0 next) = length b') by (rewrite length_memcpy; [done|lia|lia]).
    rewrite poke_ok by (rewrite zlen_app; change (zlen CRLF) with 2; unfold zlen in *; rewrite ?Hlm; lia).
    replace (Z.to_nat (2 + (zlen next + 2))) with (length CRLF + Z.to_nat (zlen next + 2))%nat by (cbn; lia).
    rewrite insert_app_r. eexists. split; [done|]. apply list_elem_of_In.
    eapply list_elem_of_lookup_2, list_lookup_insert_eq. unfold zlen in *. lia. }
  destruct Hr as (r & -> & Hz). pose proof (zlen_nonneg next).
  rewrite (proj2 (Z.ltb_ge (zlen next + 2) 0)) by lia.
  match goal with |- context [process ?y] => destruct (process_left_over y r) as [x' ->] end; try done. cbn; lia.
Qed.

Lemma chunked_body_cut_witness :
  http_client_resp_recv
    (mkRx HTTP_STATE_RESP_BODY_RECV_CHUNKED 200 false (replicate 1461 0) 0 0 0 0 5 true false [])
    [RData (str "hello" ++ CRLF); RData (str "3" ++ CRLF ++ str "abc" ++ CRLF ++ str "0" ++ CRLF ++ CRLF); RTimeout]
  = Some ([mkCb 200 [] (str "hello") 0 true; mkCb 200 [] [] 0 false], 0).
Proof.
  apply (chunked_body_cut
           (mkRx HTTP_STATE_RESP_BODY_RECV_CHUNKED 200 false (replicate 1461 0) 0 0 0 0 5 true false [])
           (str "hello") (str "3" ++ CRLF ++ str "abc" ++ CRLF ++ str "0" ++ CRLF ++ CRLF) [RTimeout]).
  - repeat split.
  - done.
  - cbn [x_off x_buf]. unfold zlen. rewrite length_replicate. lia.
  - vm_compute. done.
  - vm_compute. done.
Defined.
