(* ===== verification/HttpConnect.v ===== *)
(** * Connections of the HTTP client

    components/http/src/http_client.c: the test whether a host is an address in
    dotted decimals, the connection to an address or to the addresses of a name,
    and the release of a client.  lwIP and the TLS wrapper's two calls are a
    class.  The theorems show which hosts are taken for addresses and that a
    connection leaves no socket behind. *)

From S2P Require Import Prelude FileSys FsUtils BasicJson CString HttpClient HttpRequest.

(** ** Addresses in dotted decimals *)

Fixpoint valid_digit (ip_str : bytes) : bool :=
  match ip_str with [] => true | c :: ip_str => if (48 <=? c) && (c <=? 57) then valid_digit ip_str else false end.

Definition DOT : Z := 46.

(** [strtok] with the delimiter "."; the token and what a call with [NULL] goes on
    with. *)
Fixpoint skip_dots (s : bytes) : bytes := match s with [] => [] | c :: s' => if c =? DOT then skip_dots s' else s end.

Fixpoint token (s : bytes) : bytes * bytes :=
  match s with
  | [] => ([], [])
  | c :: s => if c =? DOT then ([], s) else let '(t, r) := token s in (c :: t, r)
  end.

Definition strtok (s : bytes) : option (bytes * bytes) := match skip_dots s with [] => None | s => Some (token s) end.

Fixpoint ip_loop (fuel : nat) (ptr rest : bytes) (dots : Z) : option bool :=
  match fuel with
  | O => None
  | S fuel =>
      if valid_digit ptr then
        let num := atoi ptr in
        if (0 <=? num) && (num <=? 255) then
          match strtok rest with
          | Some (ptr, rest) => ip_loop fuel ptr rest (dots + 1)
          | None => Some (dots =? 3)
          end
        else Some false
      else Some false
  end.

Definition is_valid_ip (ip_str_in : bytes) : option bool :=
  if 15 <? zlen ip_str_in then Some false
  else match strtok ip_str_in with
    | None => Some false
    | Some (ptr, rest) => ip_loop (S (length ip_str_in)) ptr rest 0
    end.

(** ** The connection *)

Record sockaddr := mkSockaddr { sa_addr : Z; sa_port : Z }.

Class HttpNet (W : Type) := {
  inet_addr : bytes -> Z;
  getaddrinfo : bytes -> bytes -> W -> Z * list sockaddr * W;
  freeaddrinfo : W -> W;
  socket : W -> Z * W;
  connect_to : Z -> sockaddr -> W -> Z * W;
  close : Z -> W -> W;
  set_recv_timeout : Z -> Z -> W -> W;
  ssl_disconnect : Z -> W -> W;
}.

Section Connect.
Context {W : Type} `{HttpNet W}.

(** The loop over the addresses with its [status]. *)
Fixpoint connect_list (sock_fd : Z) (current : list sockaddr) (status : Z) (w : W) : Z * W :=
  match current with
  | [] => (status, w)
  | a :: current =>
      let '(status, w) := connect_to sock_fd a w in
      if 0 =? status then (status, w) else connect_list sock_fd current status w
  end.

Definition connected (sock_fd : Z) (w : W) : Z * W :=
  (sock_fd, if 0 <=? sock_fd then set_recv_timeout sock_fd 60 w else w).

(** [sizeof(port_str)], and [sprintf(port_str, "%d", port)]: [None] when the text
    and its NUL do not fit. *)
Definition sizeof_port_str : Z := 8.

Definition print_port (port : Z) : option bytes :=
  let s := str (pretty port) in if zlen s <? sizeof_port_str then Some s else None.

Definition http_client_connect (hostname : bytes) (port : Z) (w : W) : option (Z * W) :=
  ip ← is_valid_ip hostname;
  if negb ip then
    port_str ← print_port port;
    let '(status, list, w) := getaddrinfo hostname port_str w in
    if negb (status =? 0) then Some (-1, w)
    else
      let '(sock_fd, w) := socket w in
      if sock_fd <? 0 then Some (-1, w)
      else
        let '(status, w) := connect_list sock_fd list status w in
        let w := freeaddrinfo w in
        if status <? 0 then Some (connected (-1) (close sock_fd w)) else Some (connected sock_fd w)
  else
    let '(sock_fd, w) := socket w in
    if sock_fd =? -1 then Some (-1, w)
    else
      let '(status, w) := connect_to sock_fd (mkSockaddr (inet_addr hostname) (u16 port)) w in
      if status <? 0 then Some (-1, close sock_fd w) else Some (connected sock_fd w).

End Connect.

(** ** The release *)

(** What a client holds, by address: its request and response headers (a table
    with the unused entries [NULL]), its host name, buffers and itself. *)
Record client := mkClient {
  cl_req_hdrs : list (option Z);
  cl_resp_hdrs : list (option Z);
  cl_hostname : option Z;
  cl_recv_buf : Z;
  cl_send_buf : Z;
  cl_self : Z;
  cl_secured : bool;
  cl_fd : Z;
}.

(** The loop over a table: up to its end or the first [NULL]. *)
Fixpoint free_hdrs (hdrs : list (option Z)) : list Z :=
  match hdrs with Some p :: hdrs => p :: free_hdrs hdrs | _ => [] end.

(** The addresses freed, in order, and the connection closed. *)
Definition http_client_close {W} `{HttpNet W} (h : client) (w : W) : list Z * W :=
  (free_hdrs (cl_req_hdrs h) ++ free_hdrs (cl_resp_hdrs h) ++ option_list (cl_hostname h)
     ++ [cl_recv_buf h; cl_send_buf h; cl_self h],
   if cl_secured h then ssl_disconnect (cl_fd h) w else close (cl_fd h) w).

(** ** Which hosts are addresses *)

(** The parts between dots, without empty ones. *)
Fixpoint split_on (c : Z) (s : bytes) : list bytes :=
  match s with
  | [] => [[]]
  | x :: s =>
      if x =? c then [] :: split_on c s
      else match split_on c s with t :: ts => (x :: t) :: ts | [] => [[x]] end
  end.

Definition tokens (s : bytes) : list bytes := filter (fun t => t <> []) (split_on DOT s).

Lemma split_token s t r : token s = (t, r) -> split_on DOT s = [t] /\ r = [] \/ split_on DOT s = t :: split_on DOT r.
Proof.
  revert t. induction s as [|x s IH]; intros t; cbn [token split_on]; [intros [= <- <-]; by left|].
  destruct (x =? DOT); [intros [= <- <-]; by right|].
  destruct (token s) as [t' r']. intros [= <- ->]. destruct (IH t' eq_refl) as [[-> ->]| ->]; [by left|by right].
Qed.

Lemma token_shape s t r : token s = (t, r) -> (length r <= length s)%nat /\ (head s <> Some DOT -> s <> [] -> t <> []) .
Proof.
  revert t. induction s as [|x s IH]; intros t; cbn [token]; [by intros [= <- <-]|].
  destruct (Z.eqb_spec x DOT) as [->|]; [intros [= <- <-]; split; [cbn; lia|done]|].
  destruct (token s) as [t' r']. intros [= <- ->]. destruct (IH t' eq_refl) as [Hl _]. split; [cbn; lia|done].
Qed.

Lemma tokens_skip s : tokens (skip_dots s) = tokens s.
Proof. induction s as [|x s IH]; [done|]. cbn [skip_dots]. destruct (x =? DOT) eqn:E; [|done]. rewrite IH. unfold tokens. cbn [split_on]. by rewrite E. Qed.

Lemma skip_dots_head s : head (skip_dots s) <> Some DOT /\ (length (skip_dots s) <= length s)%nat.
Proof.
  induction s as [|x s [IH1 IH2]]; [done|]. cbn [skip_dots]. destruct (Z.eqb_spec x DOT); [split; [done|cbn; lia]|].
  split; [cbn; congruence|lia].
Qed.

(** A call of [strtok] takes the first part that is not empty. *)
Lemma strtok_tokens s :
  match strtok s with
  | None => tokens s = []
  | Some (t, r) => t <> [] /\ tokens s = t :: tokens r /\ (length r < length s)%nat
  end.
Proof.
  unfold strtok. rewrite <- (tokens_skip s). destruct (skip_dots_head s) as [Hh Hl]. destruct (skip_dots s) as [|x s']; [done|].
  destruct (token (x :: s')) as [t r] eqn:E. destruct (token_shape _ _ _ E) as [_ Ht]. specialize (Ht Hh ltac:(done)).
  split; [done|]. split.
  - unfold tokens. destruct (split_token _ _ _ E) as [[-> ->]| ->]; rewrite filter_cons_True by done; done.
  - cbn [token] in E. destruct (x =? DOT) eqn:Ex; [b2p; subst; done|]. destruct (token s') as [t' r'] eqn:E'. injection E as <- ->.
    destruct (token_shape _ _ _ E'). cbn in Hl. lia.
Qed.

Lemma valid_digit_spec s : valid_digit s = true <-> digits s.
Proof.
  unfold digits. induction s as [|c s IH]; cbn [valid_digit]; [done|]. rewrite Forall_cons. unfold isdigit at 1.
  destruct (_ && _)%bool; [tauto|]. by split; [|intros []].
Qed.

(** A part of an address: decimals below 256. *)
Definition octet (t : bytes) : Prop := digits t /\ dec_val t <= 255.

#[global] Instance octet_dec t : Decision (octet t).
Proof. unfold octet, digits. apply _. Defined.

(** Numbers that [atoi] can hold. *)
Definition fits (t : bytes) : Prop := digits t -> dec_val t < 2 ^ 31.

Lemma octet_test t : t <> [] -> fits t -> valid_digit t && ((0 <=? atoi t) && (atoi t <=? 255)) = bool_decide (octet t).
Proof.
  intros Hn Hf. destruct (valid_digit t) eqn:Ed.
  - apply valid_digit_spec in Ed. rewrite atoi_value; [|done|destruct t; [done|cbn; lia]|by apply Hf].
    assert (0 <= dec_val t). { apply dec_val_nonneg. unfold digits, isdigit in Ed. eapply Forall_impl; [exact Ed|]. intros c Hc. cbn in Hc. b2p. lia. }
    rewrite (proj2 (Z.leb_le 0 _)) by done. cbn [andb]. apply eq_bool_prop_intro. rewrite bool_decide_spec. unfold octet.
    rewrite Is_true_true, Z.leb_le. tauto.
  - symmetry. apply bool_decide_eq_false. intros [Hd _]. apply valid_digit_spec in Hd. congruence.
Qed.

Lemma ip_loop_spec fuel : forall t r dots,
  (length r < fuel)%nat -> t <> [] -> Forall fits (t :: tokens r) ->
  ip_loop fuel t r dots = Some (bool_decide (Forall octet (t :: tokens r)) && (dots + zlen (tokens r) =? 3)).
Proof.
  induction fuel as [|fuel IH]; intros t r dots Hl Ht Hf; [lia|]. cbn [ip_loop]. apply Forall_cons in Hf as [Hft Hfr].
  pose proof (octet_test t Ht Hft) as Ho. pose proof (strtok_tokens r) as Hs.
  destruct (bool_decide (octet t)) eqn:Eo.
  - apply andb_prop in Ho as [-> ->]. apply bool_decide_eq_true in Eo. destruct (strtok r) as [[t' r']|].
    + destruct Hs as (Ht' & Hs & Hl'). rewrite Hs in *. rewrite IH by (done || lia). do 2 f_equal.
      * apply bool_decide_ext. rewrite (Forall_cons octet t). tauto.
      * f_equal. zl. lia.
    + rewrite Hs. rewrite bool_decide_true by (by constructor). cbn. by rewrite Z.add_0_r.
  - rewrite (bool_decide_false (Forall octet _)); [|rewrite Forall_cons; apply bool_decide_eq_false in Eo; tauto].
    destruct (valid_digit t); [|done]. cbn [andb] in Ho. by rewrite Ho.
Qed.

(** A host is taken for an address exactly if it has at most 15
    characters and its parts that are not empty are four decimal numbers below
    256; the test always ends. *)
Theorem valid_ip_spec s :
  (zlen s <= 15 -> Forall fits (tokens s)) ->
  is_valid_ip s = Some (bool_decide (zlen s <= 15 /\ length (tokens s) = 4%nat /\ Forall octet (tokens s))).
Proof.
  intros Hf. unfold is_valid_ip. destruct (Z.ltb_spec 15 (zlen s)) as [Hz|Hz].
  { f_equal. symmetry. apply bool_decide_eq_false. lia. }
  specialize (Hf Hz). pose proof (strtok_tokens s) as Hs. destruct (strtok s) as [[t r]|].
  - destruct Hs as (Ht & Hs & Hl). rewrite Hs in *. rewrite ip_loop_spec by (done || lia). f_equal.
    apply eq_bool_prop_intro. rewrite andb_True, !bool_decide_spec, Is_true_true, Z.eqb_eq. unfold zlen in *. cbn [length]. split; [intros []|intros (? & ? & ?)]; split_and?; done || lia.
  - rewrite Hs. f_equal. symmetry. apply bool_decide_eq_false. cbn. lia.
Qed.

(** Dots side by side or at the ends do not count. *)
Example loose_address : is_valid_ip (str "1..2.3.4.") = Some true.
Proof. reflexivity. Qed.

(** ** The text of a port *)

Lemma pretty_go_bound k : forall x s, (x < 10 ^ N.of_nat k)%N -> (String.length (pretty_N_go x s) <= k + String.length s)%nat.
Proof.
  induction k as [|k IH]; intros x s Hx.
  - replace x with 0%N by (cbn in Hx; lia). by rewrite pretty_N_go_0.
  - destruct (N.eq_dec x 0) as [->|Hn]; [rewrite pretty_N_go_0; lia|]. rewrite pretty_N_go_step by lia.
    etransitivity; [apply IH|cbn; lia]. apply N.Div0.div_lt_upper_bound. rewrite Nat2N.inj_succ, N.pow_succ_r' in Hx. lia.
Qed.

Lemma pretty_port_length port : 0 <= port < 10 ^ 7 -> (String.length (pretty port) <= 7)%nat.
Proof.
  intros Hp. destruct port as [|p|p]; [by vm_compute; lia| |lia]. change (pretty (Z.pos p)) with (pretty_N_go (N.pos p) "").
  apply (pretty_go_bound 7). change (10 ^ 7) with 10000000 in Hp. change (10 ^ N.of_nat 7)%N with 10000000%N. lia.
Qed.

Lemma zlen_str s : zlen (str s) = Z.of_nat (String.length s).
Proof. unfold zlen, str. rewrite length_map. f_equal. induction s as [|c s IH]; [done|]. cbn. by rewrite IH. Qed.

Lemma print_port_fits port : 0 <= port < 10 ^ 7 -> print_port port = Some (str (pretty port)).
Proof.
  intros Hp. unfold print_port, sizeof_port_str. pose proof (pretty_port_length port Hp) as Hl.
  rewrite (proj2 (Z.ltb_lt _ _)); [done|]. rewrite zlen_str. lia.
Qed.

(** A port of eight digits is written past [port_str]. *)
Example long_port_overflows : print_port 12345678 = None.
Proof. by vm_compute. Qed.

(** ** No socket is lost *)

(** The open sockets and the number of address lists to be freed. *)
Class HttpNetLaws (W : Type) `{HttpNet W} := {
  fds : W -> gset Z;
  lists : W -> Z;
  getaddrinfo_spec host port w st l w' : getaddrinfo host port w = (st, l, w') ->
    fds w' = fds w /\ if st =? 0 then l <> [] /\ lists w' = lists w + 1 else lists w' = lists w;
  freeaddrinfo_spec w : fds (freeaddrinfo w) = fds w /\ lists (freeaddrinfo w) = lists w - 1;
  socket_spec w s w' : socket w = (s, w') ->
    lists w' = lists w /\ (s = -1 /\ fds w' = fds w \/ 0 <= s /\ (s ∉ fds w) /\ fds w' = {[s]} ∪ fds w);
  connect_spec s a w st w' : connect_to s a w = (st, w') -> fds w' = fds w /\ lists w' = lists w /\ st <= 0;
  close_spec s w : fds (close s w) = fds w ∖ {[s]} /\ lists (close s w) = lists w;
  timeout_spec s t w : fds (set_recv_timeout s t w) = fds w /\ lists (set_recv_timeout s t w) = lists w;
}.

Section Sockets.
Context {W : Type} `{!HttpNet W} `{!HttpNetLaws W}.

Lemma connect_list_spec fd l : forall st w st' w',
  connect_list fd l st w = (st', w') -> l <> [] ->
  fds w' = fds w /\ lists w' = lists w /\ (st' < 0 \/ st' = 0 /\ exists a w1, connect_to fd a w1 = (0, w')).
Proof.
  induction l as [|a l IH]; intros st w st' w' E Hn; [done|]. cbn [connect_list] in E.
  destruct (connect_to fd a w) as [st1 w1] eqn:Ec. destruct (connect_spec _ _ _ _ _ Ec) as (Hf & Hl & Hs).
  destruct (Z.eqb_spec 0 st1) as [<-|Hs1].
  - injection E as <- <-. split_and!; [done|done|]. right. split; [done|]. by exists a, w.
  - destruct l as [|b l]; [injection E as <- <-; split_and!; [done|done|lia]|].
    destruct (IH _ _ _ _ E ltac:(done)) as (Hf' & Hl' & Hs'). rewrite Hf', Hl', Hf, Hl. done.
Qed.

(** C35: a connection to a host ends, and either gives a new socket, the only one
    that stays open, on which a connection succeeded, or -1 with every socket
    closed again.  Only when a name was resolved and no socket could be had, the
    list of addresses is not freed.  Shown for ports from 0 to 9999999, whose
    text fits the eight bytes of [port_str] ([long_port_overflows] otherwise), and
    for hosts that are longer than 15 characters or whose numbers between dots
    are below 2^31, so that [atoi] is defined. *)
Theorem http_connect_sockets host port (w : W) :
  (zlen host <= 15 -> Forall fits (tokens host)) -> 0 <= port < 10 ^ 7 ->
  exists fd w', http_client_connect host port w = Some (fd, w') /\
    (0 <= fd /\ (fd ∉ fds w) /\ fds w' = {[fd]} ∪ fds w /\ lists w' = lists w /\ (exists a w1 w2, connect_to fd a w1 = (0, w2))
     \/ fd = -1 /\ fds w' = fds w /\
        (lists w' = lists w \/
         lists w' = lists w + 1 /\ exists l w1, getaddrinfo host (str (pretty port)) w = (0, l, w1) /\ (socket w1).1 = -1)).
Proof.
  intros Hh Hport. unfold http_client_connect. rewrite valid_ip_spec by done. cbn [mbind option_bind]. case_bool_decide; cbn [negb].
  - destruct (socket w) as [fd w1] eqn:Es. destruct (socket_spec _ _ _ Es) as (Hl & [[-> Hf]|(Hp & Hn & Hf)]).
    { exists (-1), w1. split; [done|]. right. rewrite Hl. auto. }
    rewrite (proj2 (Z.eqb_neq fd (-1))) by lia.
    destruct (connect_to fd _ w1) as [st w2] eqn:Ec. destruct (connect_spec _ _ _ _ _ Ec) as (Hf2 & Hl2 & Hst).
    destruct (Z.ltb_spec st 0).
    + exists (-1), (close fd w2). split; [done|]. right. destruct (close_spec fd w2) as [-> ->]. rewrite Hl2, Hf2, Hf. split; [done|].
      split; [set_solver|by left].
    + unfold connected. rewrite (proj2 (Z.leb_le 0 fd)) by done. eexists fd, _. split; [done|]. left. destruct (timeout_spec fd 60 w2) as [-> ->].
      rewrite Hf2, Hl2. replace st with 0 in Ec by lia. split_and!; [done..|by eexists _, _, _].
  - rewrite print_port_fits by done. cbn [mbind option_bind]. destruct (getaddrinfo host _ w) as [[st l] w1] eqn:Eg. destruct (getaddrinfo_spec _ _ _ _ _ _ Eg) as [Hf1 Hl1].
    destruct (Z.eqb_spec st 0) as [->|]; cbn [negb]; [|exists (-1), w1; split; [done|right; auto]]. destruct Hl1 as [Hne Hl1].
    destruct (socket w1) as [fd w2] eqn:Es. destruct (socket_spec _ _ _ Es) as (Hl & [[-> Hf]|(Hp & Hn & Hf)]).
    { exists (-1), w2. split; [done|]. right. split; [done|]. split; [congruence|]. right. split; [congruence|]. exists l, w1. by rewrite Es. }
    rewrite (proj2 (Z.ltb_ge fd 0)) by done.
    destruct (connect_list fd l 0 w2) as [st w3] eqn:Ec. destruct (connect_list_spec _ _ _ _ _ _ Ec Hne) as (Hf3 & Hl3 & Hst).
    destruct (freeaddrinfo_spec w3) as [Hf4 Hl4]. rewrite Hf1 in *. assert (Hl5 : lists (freeaddrinfo w3) = lists w) by lia.
    destruct Hst as [Hst|[-> (a & w0 & Hst)]].
    + rewrite (proj2 (Z.ltb_lt st 0)) by done. exists (-1), (close fd (freeaddrinfo w3)). split; [done|]. right.
      destruct (close_spec fd (freeaddrinfo w3)) as [-> ->]. rewrite Hl5, Hf4, Hf3, Hf. split; [done|]. split; [set_solver|by left].
    + unfold connected. rewrite (proj2 (Z.leb_le 0 fd)) by done. eexists fd, _. split; [done|]. left. destruct (timeout_spec fd 60 (freeaddrinfo w3)) as [-> ->].
      rewrite Hl5, Hf4, Hf3. split_and!; [done..|by eexists _, _, _].
Qed.

End Sockets.

(** Every header of a table that is filled from the front is freed. *)
Lemma free_hdrs_all ps n : free_hdrs (map Some ps ++ replicate n None) = ps.
Proof. induction ps as [|p ps IH]; [by destruct n|]. cbn. by rewrite IH. Qed.

(** A network with one host at address 7 and three sockets. *)
Record tiny := mkTiny { ty_open : gset Z; ty_lists : Z }.

Definition ty_next (w : tiny) : Z := if decide (3 ∈ ty_open w) then if decide (4 ∈ ty_open w) then -1 else 4 else 3.

#[global] Instance tiny_net : HttpNet tiny := {|
  inet_addr s := dec_val (filter (fun c => c <> DOT) s);
  getaddrinfo host port w := if decide (host = str "t2") then (0, [mkSockaddr 6 80; mkSockaddr 7 80], mkTiny (ty_open w) (ty_lists w + 1)) else (-1, [], w);
  freeaddrinfo w := mkTiny (ty_open w) (ty_lists w - 1);
  socket w := (ty_next w, if ty_next w =? -1 then w else mkTiny ({[ty_next w]} ∪ ty_open w) (ty_lists w));
  connect_to s a w := (if sa_addr a =? 7 then 0 else -1, w);
  close s w := mkTiny (ty_open w ∖ {[s]}) (ty_lists w);
  set_recv_timeout _ _ w := w;
  ssl_disconnect s w := mkTiny (ty_open w ∖ {[s]}) (ty_lists w);
|}.

#[global, refine] Instance tiny_laws : HttpNetLaws tiny := { fds := ty_open; lists := ty_lists }.
Proof.
  - intros host port w st l w'. cbn. destruct (decide _); intros [= <- <- <-]; done.
  - done.
  - intros w s w'. cbn. unfold ty_next. destruct (decide (3 ∈ ty_open w)); [destruct (decide (4 ∈ ty_open w))|]; intros [= <- <-]; split; auto;
      right; by split_and!.
  - intros s a w st w'. cbn. intros [= <- <-]. split_and!; [done..|]. case_if; lia.
  - done.
  - done.
Defined.

Lemma http_connect_sockets_witness :
  exists w', http_client_connect (str "t2") 80 (mkTiny {[3]} 0) = Some (4, w') /\ fds w' = {[4]} ∪ ({[3]} : gset Z) /\ lists w' = 0.
Proof.
  assert (Hh : Forall fits (tokens (str "t2"))).
  { constructor; [|constructor]. intros Hd. unfold digits in Hd. apply Forall_cons in Hd as [Hd _]. done. }
  destruct (http_connect_sockets (str "t2") 80 (mkTiny {[3]} 0) (fun _ => Hh) ltac:(lia)) as (fd & w' & E & Hc).
  assert (E4 : fd = 4) by (vm_compute in E; congruence). subst fd. exists w'. split; [exact E|].
  destruct Hc as [(_ & _ & Hf & Hl & _)|[H _]]; [by split|lia].
Defined.
