(* ===== verification/HioHttp.v ===== *)
(** * The HTTP client behind the host interface

    components/http/src/hio_http_client.c: a host processor opens HTTP clients,
    sets the headers they send, stores certificates piece by piece and sends
    requests, by messages that one thread answers in order ([handle]).  The HTTP
    client itself is the class [HttpApi].  The theorems show that a certificate
    sent in pieces is the one a client is opened with, what happens with a second
    certificate, that the table of clients only fills up, and that the headers
    are a map. *)

From S2P Require Import Prelude FileSys FsUtils BasicJson CString.

Definition HTTP_SUCCESS : Z := 0.
Definition HTTP_FAILURE : Z := 1.   (* -1 stored in a [bool] *)
Definition HTTP_CLIENT_MAX : Z := 10.
Definition HIO_HTTP_HDR_INVAL : Z := 0.
Definition HIO_HTTP_HDR_COUNT : Z := 25.

Definition httphdrnames : list bytes := map str
  ["Inval"; "Allow"; "Authorization"; "Connection"; "Content-Encoding"; "Content-Length"; "Content-Range"; "Content-Type"; "Cookie";
   "Cookie2"; "Date"; "Expires"; "From"; "Host"; "If-Modified-Since"; "Last-Modified"; "Location"; "Pragma"; "Range"; "Referer";
   "Server"; "Set-Cookie"; "Transfer-Encoding"; "User-Agent"; "Www-Authenticate"]%string.

(** ** The HTTP client and the allocator *)

Record http_config := mkHttpCfg { hc_hostname : bytes; hc_port : Z; hc_ca_cert : option bytes }.

Record resp_info := mkResp { ri_status_code : Z; ri_more_data : bool; ri_body : bytes }.

(** A handle is an address, 0 being [NULL]; [None] is undefined behaviour.  A
    request gives its result and the calls of the callback; [os_alloc] the number
    of bytes that can be used. *)
Class HttpApi (W : Type) := {
  http_client_open : http_config -> W -> Z * W;
  http_client_set_req_hdr : Z -> bytes -> bytes -> W -> option W;
  http_client_get : Z -> bytes -> W -> option (Z * list resp_info * W);
  http_client_post : Z -> bytes -> bytes -> W -> option (Z * list resp_info * W);
  http_client_close : Z -> W -> option W;
  os_alloc : Z -> W -> option Z * W;
}.

(** ** State and messages *)

Record cert_t := mkCert { ct_name : bytes; ct_len : Z; ct_data : bytes }.

Record hio := mkHio {
  httphdrvalues : list (option bytes);
  certList : list cert_t;
  handle_table : list Z;
  http_client_start_done : bool;
  copiedBytes : Z;
  cert_receiving : option cert_t;
}.

Definition set_hdrs v s := mkHio v (certList s) (handle_table s) (http_client_start_done s) (copiedBytes s) (cert_receiving s).
Definition set_certs v s := mkHio (httphdrvalues s) v (handle_table s) (http_client_start_done s) (copiedBytes s) (cert_receiving s).
Definition set_table v s := mkHio (httphdrvalues s) (certList s) v (http_client_start_done s) (copiedBytes s) (cert_receiving s).
Definition set_started s := mkHio (httphdrvalues s) (certList s) (handle_table s) true (copiedBytes s) (cert_receiving s).
Definition set_receiving n c s := mkHio (httphdrvalues s) (certList s) (handle_table s) (http_client_start_done s) n c.

(** The text fields of a message end inside of it. *)
Inductive request :=
| ClientStart (serverName : bytes) (port : Z) (certName : bytes)
| ClientSendReq (clientID method : Z) (uriReq dataToSend : bytes)
| SetClientHdr (HeaderId : Z) (headerVal : bytes)
| DelClientHdr (HeaderId : Z)
| StoreCert (certName : bytes) (certTotalLen : Z) (certData : bytes)
| DeleteCert (certName : bytes)
| Close (clientId : Z).

(** The indication of a part of a response, and the answer to a message: its
    status and, for a start, the client. *)
Record notify := mkNotify { nt_client : Z; nt_status_code : Z; nt_last : bool; nt_data : bytes }.

Record reply := mkReply { rp_status : Z; rp_client : option Z }.

(** ** The handlers *)

(** The loop does not move on: with another certificate in front it does not
    end. *)
Fixpoint http_hio_client_get_cert (fuel : nat) (cert_name : bytes) (p : list cert_t) : option (option cert_t) :=
  match p with
  | [] => Some None
  | c :: _ =>
      if bool_decide (cert_name = ct_name c) then Some (Some c)
      else match fuel with O => None | S fuel => http_hio_client_get_cert fuel cert_name p end
  end.

(** The first entry with a value, as a C index. *)
Fixpoint table_index (i h : Z) (t : list Z) : Z :=
  match t with [] => -1 | x :: t => if x =? h then i else table_index (i + 1) h t end.

Definition http_hio_client_get_conid (s : hio) : Z := table_index 0 0 (handle_table s).
Definition http_hio_client_handle_to_conid (handle : Z) (s : hio) : Z := table_index 0 handle (handle_table s).

Section Handlers.
Context {W : Type} `{HttpApi W}.

Definition first_start (s : hio) : hio :=
  if http_client_start_done s then s
  else set_started (set_hdrs (replicate (Z.to_nat HIO_HTTP_HDR_COUNT) None) (set_table (replicate (Z.to_nat HTTP_CLIENT_MAX) 0) s)).

(** The end of a start, with the certificate found if one was named. *)
Definition open_client (serverName : bytes) (port : Z) (ca : option bytes) (s : hio) (w : W) : reply * hio * W :=
  let conid := http_hio_client_get_conid s in
  if conid <? 0 then (mkReply HTTP_FAILURE (Some (u32 (-1))), s, w)
  else
    let '(h, w) := http_client_open (mkHttpCfg serverName port ca) w in
    (mkReply HTTP_SUCCESS (Some (u32 (if h =? 0 then -1 else conid))), set_table (<[Z.to_nat conid := h]> (handle_table s)) s, w).

Definition event_http_hio_client_start (fuel : nat) (serverName : bytes) (port : Z) (certName : bytes) (s : hio) (w : W)
  : option (reply * hio * W) :=
  let s := first_start s in
  if negb (zlen certName =? 0) then
    cert ← http_hio_client_get_cert fuel certName (certList s);
    match cert with
    | None => Some (mkReply HTTP_FAILURE (Some (u32 (-1))), s, w)
    | Some cert => Some (open_client serverName port (Some (take (Z.to_nat (ct_len cert)) (ct_data cert))) s w)
    end
  else Some (open_client serverName port None s w).

Definition hio_http_cli_resp_cb (ctx : Z) (s : hio) (resp : resp_info) : notify :=
  mkNotify (u32 (http_hio_client_handle_to_conid ctx s)) (ri_status_code resp) (negb (ri_more_data resp)) (ri_body resp).

Fixpoint set_headers (h : Z) (names : list bytes) (values : list (option bytes)) (w : W) : option W :=
  match names, values with
  | n :: names, Some v :: values => w ← http_client_set_req_hdr h n v w; set_headers h names values w
  | _ :: names, None :: values => set_headers h names values w
  | _, _ => Some w
  end.

Definition event_http_hio_client_send_req (clientID method : Z) (uriReq dataToSend : bytes) (s : hio) (w : W)
  : option (reply * list notify * W) :=
  h ← handle_table s !! Z.to_nat clientID;
  w ← set_headers h httphdrnames (httphdrvalues s) w;
  '(rval, resps, w) ←
    (if method =? 1 then http_client_get h uriReq w
     else if method =? 2 then http_client_post h uriReq dataToSend w
     else Some (0, [], w));
  Some (mkReply (if rval <? 0 then HTTP_FAILURE else HTTP_SUCCESS) None, map (hio_http_cli_resp_cb h s) resps, w).

(** The value is printed before its number is tested. *)
Definition event_http_hio_set_client_hdr (id : Z) (headerVal : bytes) (s : hio) (w : W) : option (reply * hio * W) :=
  if (id <? 0) || (HIO_HTTP_HDR_COUNT <=? id) then None
  else if (HIO_HTTP_HDR_INVAL <? id) && (id <? HIO_HTTP_HDR_COUNT) && negb (zlen headerVal =? 0) then
    let '(b, w) := os_alloc (zlen headerVal + 1) w in
    match b with
    | None => Some (mkReply HTTP_FAILURE None, set_hdrs (<[Z.to_nat id := None]> (httphdrvalues s)) s, w)
    | Some _ => Some (mkReply HTTP_SUCCESS None, set_hdrs (<[Z.to_nat id := Some headerVal]> (httphdrvalues s)) s, w)
    end
  else Some (mkReply HTTP_SUCCESS None, s, w).

Definition event_http_hio_del_client_hdr (id : Z) (s : hio) : reply * hio :=
  if (HIO_HTTP_HDR_INVAL <? id) && (id <? HIO_HTTP_HDR_COUNT) then
    (mkReply HTTP_SUCCESS None, set_hdrs (<[Z.to_nat id := None]> (httphdrvalues s)) s)
  else (mkReply HTTP_FAILURE None, s).

(** A new certificate with its name and its buffer.  The name gets
    [strlen(certName + 1)] bytes. *)
Definition new_cert (certName : bytes) (certTotalLen : Z) (w : W) : option (option cert_t * W) :=
  let '(b, w) := os_alloc 16 w in
  match b with
  | None => Some (None, w)
  | Some _ =>
      let '(b, w) := os_alloc (Z.max 0 (zlen certName - 1)) w in
      match b with
      | None => Some (None, w)
      | Some size =>
          if size <? zlen certName + 1 then None
          else
            let '(b, w) := os_alloc certTotalLen w in
            match b with
            | None => Some (None, w)
            | Some size => Some (Some (mkCert certName 0 (replicate (Z.to_nat size) 0)), w)
            end
      end
  end.

Definition copy_cert (certTotalLen : Z) (certData : bytes) (cert : cert_t) (s : hio) : option hio :=
  data ← store (ct_data cert) (copiedBytes s) certData;
  let cert := mkCert (ct_name cert) certTotalLen data in
  let n := u32 (copiedBytes s + zlen certData) in
  Some (if certTotalLen <=? n then set_receiving 0 None (set_certs (cert :: certList s) s) else set_receiving n (Some cert) s).

Definition event_http_hio_store_cert (certName : bytes) (certTotalLen : Z) (certData : bytes) (s : hio) (w : W)
  : option (reply * hio * W) :=
  '(cert, w) ← (if copiedBytes s =? 0 then new_cert certName certTotalLen w else Some (cert_receiving s, w));
  match cert with
  | None => Some (mkReply (if copiedBytes s =? 0 then HTTP_FAILURE else HTTP_SUCCESS) None, s, w)
  | Some cert => s ← copy_cert certTotalLen certData cert s; Some (mkReply HTTP_SUCCESS None, s, w)
  end.

Fixpoint remove_cert (name : bytes) (l : list cert_t) : list cert_t :=
  match l with [] => [] | c :: l => if bool_decide (name = ct_name c) then l else c :: remove_cert name l end.

Definition event_http_hio_delete_cert (certName : bytes) (s : hio) : reply * hio :=
  (mkReply 0 None, set_certs (remove_cert certName (certList s)) s).

(** The entry of the table is kept. *)
Definition event_http_hio_close (clientId : Z) (s : hio) (w : W) : option (reply * W) :=
  h ← handle_table s !! Z.to_nat clientId;
  w ← http_client_close h w;
  Some (mkReply 0 None, w).

(** One round of the thread: the answer, the indications and the new state. *)
Definition handle (fuel : nat) (m : request) (s : hio) (w : W) : option (reply * list notify * hio * W) :=
  match m with
  | ClientStart host port cert => '(r, s, w) ← event_http_hio_client_start fuel host port cert s w; Some (r, [], s, w)
  | ClientSendReq id method uri data => '(r, ns, w) ← event_http_hio_client_send_req id method uri data s w; Some (r, ns, s, w)
  | SetClientHdr id v => '(r, s, w) ← event_http_hio_set_client_hdr id v s w; Some (r, [], s, w)
  | DelClientHdr id => let '(r, s) := event_http_hio_del_client_hdr id s in Some (r, [], s, w)
  | StoreCert name total data => '(r, s, w) ← event_http_hio_store_cert name total data s w; Some (r, [], s, w)
  | DeleteCert name => let '(r, s) := event_http_hio_delete_cert name s in Some (r, [], s, w)
  | Close id => '(r, w) ← event_http_hio_close id s w; Some (r, [], s, w)
  end.

(** The thread on a list of messages, with the answers. *)
Fixpoint run (fuel : nat) (ms : list request) (s : hio) (w : W) : option (list reply * list notify * hio * W) :=
  match ms with
  | [] => Some ([], [], s, w)
  | m :: ms =>
      '(r, ns, s, w) ← handle fuel m s w;
      '(rs, ns', s, w) ← run fuel ms s w;
      Some (r :: rs, ns ++ ns', s, w)
  end.

End Handlers.

(** ** Certificates in pieces *)

(** What the allocator promises: with memory left, at least what was asked for.
    [usable n] is what a request for [n] bytes can hold. *)
Class Roomy (W : Type) `{HttpApi W} := {
  usable : Z -> Z;
  usable_enough n : n <= usable n;
  alloc_some n w : exists w', os_alloc n w = (Some (usable n), w');
}.

Section Certs.
Context {W : Type} `{!HttpApi W} `{!Roomy W}.

Definition accepted : reply := mkReply HTTP_SUCCESS None.

(** The pieces [p] of [name] have arrived. *)
Record partial (name : bytes) (total : Z) (p : bytes) (cert : cert_t) : Prop := {
  pa_name : ct_name cert = name;
  pa_data : take (length p) (ct_data cert) = p;
  pa_room : total <= zlen (ct_data cert);
}.

(** The next piece, which may be the last. *)
Lemma copy_piece name total p c cert s :
  partial name total p cert -> copiedBytes s = zlen p -> zlen (p ++ c) <= total < 2 ^ 32 ->
  exists cert', partial name total (p ++ c) cert' /\ ct_len cert' = total /\
    copy_cert total c cert s
    = Some (if total <=? zlen (p ++ c) then set_receiving 0 None (set_certs (cert' :: certList s) s) else set_receiving (zlen (p ++ c)) (Some cert') s).
Proof.
  intros [Hn Hd Hr] Hc Ht. unfold copy_cert, store. rewrite Hc. pose proof (zlen_nonneg p). pose proof (zlen_nonneg c).
  assert (Hz : zlen (p ++ c) = zlen p + zlen c) by apply zlen_app.
  rewrite (proj2 (Z.leb_le 0 (zlen p))), (proj2 (Z.leb_le (zlen p + zlen c) (zlen (ct_data cert)))) by lia. cbn [andb mbind option_bind].
  exists (mkCert (ct_name cert) total (memcpy (ct_data cert) (zlen p) c)). split; [|split; [done|]].
  - split; [done| |cbn; rewrite zlen_memcpy by lia; lia]. cbn [ct_data].
    replace (length (p ++ c)) with (Z.to_nat (zlen p + zlen c)) by (rewrite <- Hz; unfold zlen; lia).
    rewrite take_memcpy by lia. f_equal. by replace (Z.to_nat (zlen p)) with (length p) by (unfold zlen; lia).
  - rewrite u32_small by lia. by rewrite <- Hz.
Qed.

(** The pieces after the first one. *)
Lemma store_rest fuel name total : forall cs p cert s w,
  partial name total p cert -> copiedBytes s = zlen p -> 0 < zlen p -> cert_receiving s = Some cert ->
  zlen (p ++ concat cs) = total -> total < 2 ^ 32 -> cs <> [] -> Forall (fun c => c <> []) cs ->
  exists cert', partial name total (p ++ concat cs) cert' /\ ct_len cert' = total /\
    run fuel (map (StoreCert name total) cs) s w
    = Some (map (fun _ => accepted) cs, [], set_receiving 0 None (set_certs (cert' :: certList s) s), w).
Proof.
  induction cs as [|c cs IH]; intros p cert s w Hp Hc Hpos Hr Ht Ht32 Hne Hcs; [done|].
  apply Forall_cons in Hcs as [Hc0 Hcs]. cbn [concat] in *. rewrite app_assoc in Ht |- *.
  destruct (copy_piece name total p c cert s Hp Hc) as (cert1 & Hp1 & Hl1 & E1).
  { rewrite zlen_app in Ht. pose proof (zlen_nonneg (concat cs)). lia. }
  cbn [map run handle]. unfold event_http_hio_store_cert. rewrite (proj2 (Z.eqb_neq (copiedBytes s) 0)) by lia. cbn [mbind option_bind].
  rewrite Hr, E1. cbn [mbind option_bind]. destruct cs as [|c' cs].
  - cbn [concat] in *. rewrite app_nil_r in *. rewrite (proj2 (Z.leb_le _ _)) by lia. cbn. exists cert1. by split_and!.
  - apply Forall_cons in Hcs as Hcs'. destruct Hcs' as [Hc' _].
    assert (Hlt : zlen (p ++ c) < total).
    { rewrite <- Ht, (zlen_app (p ++ c)). cbn [concat]. rewrite (zlen_app c'). pose proof (zlen_nonneg (concat cs)).
      destruct c'; [done|]. rewrite zlen_cons. pose proof (zlen_nonneg c'). lia. }
    rewrite (proj2 (Z.leb_gt _ _)) by done.
    destruct (IH (p ++ c) cert1 (set_receiving (zlen (p ++ c)) (Some cert1) s) w) as (cert' & Hp' & Hl' & E'); try done.
    { rewrite zlen_app. pose proof (zlen_nonneg c). lia. }
    exists cert'. split; [done|]. split; [done|]. cbn [mbind option_bind]. by rewrite E'.
Qed.

Lemma new_cert_room name total w :
  zlen name + 1 <= usable (Z.max 0 (zlen name - 1)) -> 0 <= total ->
  exists cert w', new_cert name total w = Some (Some cert, w') /\ partial name total [] cert.
Proof.
  intros Hroom Ht. unfold new_cert. destruct (alloc_some 16 w) as [w1 ->]. destruct (alloc_some (Z.max 0 (zlen name - 1)) w1) as [w2 ->].
  rewrite (proj2 (Z.ltb_ge _ _)) by lia. destruct (alloc_some total w2) as [w3 ->]. eexists _, _. split; [done|].
  pose proof (usable_enough total). split; [done|by rewrite take_0|]. cbn. unfold zlen. rewrite length_replicate. lia.
Qed.

(** The certificate at the head of the list after all pieces. *)
Lemma cert_stored fuel name cs s w :
  let total := zlen (concat cs) in
  copiedBytes s = 0 -> cs <> [] -> Forall (fun c => c <> []) cs -> total < 2 ^ 32 ->
  zlen name + 1 <= usable (Z.max 0 (zlen name - 1)) ->
  exists cert w', partial name total (concat cs) cert /\ ct_len cert = total /\
    run fuel (map (StoreCert name total) cs) s w
    = Some (map (fun _ => accepted) cs, [], set_receiving 0 None (set_certs (cert :: certList s) s), w').
Proof.
  intros total Hc Hne Hcs Ht Hroom. destruct cs as [|c cs]; [done|]. apply Forall_cons in Hcs as [Hc0 Hcs]. cbn [concat] in *.
  destruct (new_cert_room name total w Hroom ltac:(apply zlen_nonneg)) as (cert0 & w1 & E0 & Hp0).
  assert (Htot : total = zlen c + zlen (concat cs)) by apply zlen_app. pose proof (zlen_nonneg (concat cs)).
  destruct (copy_piece name total [] c cert0 s Hp0 Hc) as (cert1 & Hp1 & Hl1 & E1); [cbn [app]; lia|]. cbn [app] in *.
  cbn [map run handle]. unfold event_http_hio_store_cert. rewrite Hc. cbn [Z.eqb]. rewrite E0. cbn [mbind option_bind]. rewrite E1. cbn [mbind option_bind].
  assert (Hcpos : 0 < zlen c) by (destruct c; [done|]; rewrite zlen_cons; pose proof (zlen_nonneg c); lia).
  destruct cs as [|c' cs].
  - cbn [concat] in *. rewrite app_nil_r in *. rewrite (proj2 (Z.leb_le total _)) by (rewrite Htot, zlen_nil; lia). cbn. exists cert1, w1. by split_and!.
  - apply Forall_cons in Hcs as Hcs'. destruct Hcs' as [Hc' _].
    assert (Hlt : zlen c < total).
    { rewrite Htot. cbn [concat]. rewrite (zlen_app c'). pose proof (zlen_nonneg (concat cs)). destruct c'; [done|]. rewrite zlen_cons. pose proof (zlen_nonneg c'). lia. }
    rewrite (proj2 (Z.leb_gt _ _)) by done.
    destruct (store_rest fuel name total (c' :: cs) c cert1 (set_receiving (zlen c) (Some cert1) s) w1) as (cert' & Hp' & Hl' & E'); try done.
    exists cert', w1. split; [done|]. split; [done|]. cbn [mbind option_bind]. by rewrite E'.
Qed.

(** A certificate the host sends in pieces, with memory left and room for its
    name, is answered with success for each piece, and a client started with its
    name is opened with exactly the bytes that were sent. *)
Theorem certificate_used fuel name cs host port s w :
  let total := zlen (concat cs) in
  copiedBytes s = 0 -> name <> [] -> cs <> [] -> Forall (fun c => c <> []) cs -> total < 2 ^ 32 ->
  zlen name + 1 <= usable (Z.max 0 (zlen name - 1)) ->
  exists s' w', run fuel (map (StoreCert name total) cs) s w = Some (map (fun _ => accepted) cs, [], s', w') /\
    event_http_hio_client_start fuel host port name s' w' = Some (open_client host port (Some (concat cs)) (first_start s') w').
Proof.
  intros total Hc Hn Hne Hcs Ht Hroom. destruct (cert_stored fuel name cs s w) as (cert & w' & [Hna Hd Hr] & Hl & E); [done..|].
  eexists _, w'. split; [exact E|]. unfold event_http_hio_client_start. set (s' := set_receiving 0 None _).
  assert (Hcl : certList (first_start s') = cert :: certList s) by (unfold first_start; by case_if).
  rewrite Hcl, (proj2 (Z.eqb_neq (zlen name) 0)) by (intros E0; by apply zlen_0_nil in E0). cbn [negb].
  assert (Hg : http_hio_client_get_cert fuel name (cert :: certList s) = Some (Some cert)).
  { destruct fuel; cbn [http_hio_client_get_cert]; by rewrite bool_decide_true. }
  rewrite Hg. cbn [mbind option_bind]. rewrite Hl. replace (Z.to_nat (zlen (concat cs))) with (length (concat cs)) by (unfold zlen; lia). by rewrite Hd.
Qed.

(** The room for the name is two bytes short: an allocator that gives just what it
    is asked for makes the first piece write past the name. *)
Theorem name_too_short fuel name total c s (w : W) :
  copiedBytes s = 0 -> name <> [] -> usable (zlen name - 1) = zlen name - 1 -> handle fuel (StoreCert name total c) s w = None.
Proof.
  intros Hc Hn Hu. cbn [handle]. unfold event_http_hio_store_cert. rewrite Hc. cbn [Z.eqb]. unfold new_cert.
  destruct (alloc_some 16 w) as [w1 ->]. rewrite Z.max_r by (destruct name; [done|]; rewrite zlen_cons; pose proof (zlen_nonneg name); lia).
  destruct (alloc_some (zlen name - 1) w1) as [w2 ->]. rewrite Hu, (proj2 (Z.ltb_lt _ _)) by lia. done.
Qed.

End Certs.

(** With another certificate stored after it, the search for a certificate does
    not end: no number of rounds is enough. *)
Theorem second_certificate_hangs {W} `{HttpApi W} host port name c l s (w : W) :
  name <> [] -> certList s = c :: l -> name <> ct_name c ->
  forall fuel, handle fuel (ClientStart host port name) s w = None.
Proof.
  intros Hn Hl Hc fuel. cbn [handle]. unfold event_http_hio_client_start.
  assert (Hcl : certList (first_start s) = c :: l) by (unfold first_start; by case_if). rewrite Hcl.
  rewrite (proj2 (Z.eqb_neq (zlen name) 0)) by (intros E; by apply zlen_0_nil in E). cbn [negb].
  assert (Hg : http_hio_client_get_cert fuel name (c :: l) = None).
  { induction fuel as [|fuel IH]; cbn [http_hio_client_get_cert] in *; rewrite bool_decide_false by done; done. }
  by rewrite Hg.
Qed.

(** ** The table of clients *)

Section Table.
Context {W : Type} `{HttpApi W}.

Record full (s : hio) : Prop := {
  full_started : http_client_start_done s = true;
  full_table : Forall (fun h => h <> 0) (handle_table s);
}.

Lemma full_index t i : Forall (fun h => h <> 0) t -> table_index i 0 t = -1.
Proof. intros Ht. revert i. induction Ht as [|x t Hx _ IH]; intros i; [done|]. cbn. by rewrite (proj2 (Z.eqb_neq _ _) Hx). Qed.

Lemma open_full host port ca s w : full s -> open_client host port ca s w = (mkReply HTTP_FAILURE (Some (u32 (-1))), s, w).
Proof. intros [_ Hf]. unfold open_client, http_hio_client_get_conid. by rewrite full_index. Qed.

(** Messages that leave the table and the start as they are. *)
Lemma full_same s s' : full s -> handle_table s' = handle_table s -> http_client_start_done s' = http_client_start_done s -> full s'.
Proof. intros [Hs Hf] Ht Hd. split; congruence. Qed.

Lemma copy_cert_table total c cert s s' : copy_cert total c cert s = Some s' ->
  handle_table s' = handle_table s /\ http_client_start_done s' = http_client_start_done s.
Proof. unfold copy_cert. destruct (store _ _ _); [|done]. cbn. case_if; by intros [= <-]. Qed.

Definition refused (m : request) (r : reply) : Prop := match m with ClientStart _ _ _ => rp_status r = HTTP_FAILURE | _ => True end.

Lemma handle_full fuel m s w r ns s' w' :
  full s -> handle fuel m s w = Some (r, ns, s', w') -> full s' /\ refused m r.
Proof.
  intros Hf. destruct m as [host port cert|id method uri data|id v|id|name total data|name|id]; cbn [handle refused].
  - unfold event_http_hio_client_start. replace (first_start s) with s by (unfold first_start; by rewrite (full_started _ Hf)).
    case_if.
    + destruct (http_hio_client_get_cert _ _ _) as [[c|]|]; [| |done]; cbn [mbind option_bind]; [rewrite open_full by done|]; by intros [= <- <- <- <-].
    + rewrite open_full by done. by intros [= <- <- <- <-].
  - destruct (event_http_hio_client_send_req _ _ _ _ _ _) as [[[r0 ns0] w0]|]; [|done]. by intros [= <- <- <- <-].
  - unfold event_http_hio_set_client_hdr. case_if; [done|]. case_if; [|by intros [= <- <- <- <-]].
    destruct (os_alloc _ w) as [[b|] w0]; intros [= <- <- <- <-]; (split; [by apply (full_same s)|done]).
  - unfold event_http_hio_del_client_hdr. case_if; intros [= <- <- <- <-]; (split; [by apply (full_same s)|done]).
  - unfold event_http_hio_store_cert. destruct (if copiedBytes s =? 0 then new_cert name total w else _) as [[[c|] w0]|]; [| |done]; cbn [mbind option_bind].
    + destruct (copy_cert total data c s) as [s1|] eqn:Ec; [|done]. cbn. intros [= <- <- <- <-]. apply copy_cert_table in Ec as [E1 E2].
      split; [by apply (full_same s)|done].
    + intros E. split; [|done]. by injection E as <- <- <- <-.
  - intros [= <- <- <- <-]. split; [by apply (full_same s)|done].
  - destruct (event_http_hio_close id s w) as [[r0 w0]|]; [|done]. by intros [= <- <- <- <-].
Qed.

(** Once all ten entries of the table are used, every start is refused, whatever
    clients are closed: [event_http_hio_close] keeps the entry. *)
Theorem clients_run_out fuel ms s w rs ns s' w' :
  full s -> run fuel ms s w = Some (rs, ns, s', w') -> full s' /\ Forall2 refused ms rs.
Proof.
  revert s w rs ns. induction ms as [|m ms IH]; intros s w rs ns Hf; cbn [run]; [intros [= <- <- <- <-]; by split|].
  destruct (handle fuel m s w) as [[[[r ns1] s1] w1]|] eqn:E1; [|done]. cbn [mbind option_bind].
  destruct (run fuel ms s1 w1) as [[[[rs2 ns2] s2] w2]|] eqn:E2; [|done]. cbn. intros [= <- <- <- <-].
  destruct (handle_full _ _ _ _ _ _ _ _ Hf E1) as [Hf1 Hr]. destruct (IH _ _ _ _ Hf1 E2). split; [done|]. by constructor.
Qed.

(** ** Headers as a map *)

Definition header (s : hio) (id : Z) : option bytes := mjoin (httphdrvalues s !! Z.to_nat id).

(** Setting and deleting a header acts on the map from header numbers to values
    that the next requests send. *)
Theorem headers_map fuel id v s w :
  length (httphdrvalues s) = 25%nat -> 0 < id < HIO_HTTP_HDR_COUNT -> v <> [] ->
  (forall r ns s' w', handle fuel (SetClientHdr id v) s w = Some (r, ns, s', w') -> rp_status r = HTTP_SUCCESS ->
    forall k, 0 <= k -> header s' k = if k =? id then Some v else header s k) /\
  (forall r ns s' w', handle fuel (DelClientHdr id) s w = Some (r, ns, s', w') ->
    rp_status r = HTTP_SUCCESS /\ forall k, 0 <= k -> header s' k = if k =? id then None else header s k).
Proof.
  intros Hl Hid Hv. unfold HIO_HTTP_HDR_COUNT in *.
  assert (Hins : forall x k, 0 <= k -> mjoin (<[Z.to_nat id := x]> (httphdrvalues s) !! Z.to_nat k) = if k =? id then x else header s k).
  { intros x k Hk. destruct (Z.eqb_spec k id) as [->|Hne]; [by rewrite list_lookup_insert_eq by lia|]. by rewrite list_lookup_insert_ne by lia. }
  split; intros r ns s' w'; cbn [handle].
  - unfold event_http_hio_set_client_hdr, HIO_HTTP_HDR_COUNT, HIO_HTTP_HDR_INVAL. rewrite (proj2 (Z.ltb_ge id 0)), (proj2 (Z.leb_gt 25 id)) by lia.
    rewrite (proj2 (Z.ltb_lt 0 id)), (proj2 (Z.ltb_lt id 25)) by lia. rewrite (proj2 (Z.eqb_neq (zlen v) 0)) by (intros E; by apply zlen_0_nil in E).
    cbn [orb andb negb]. destruct (os_alloc _ w) as [[b|] w0]; intros [= <- <- <- <-] Hs; [|done]. by apply Hins.
  - unfold event_http_hio_del_client_hdr, HIO_HTTP_HDR_COUNT, HIO_HTTP_HDR_INVAL. rewrite (proj2 (Z.ltb_lt 0 id)), (proj2 (Z.ltb_lt id 25)) by lia.
    intros [= <- <- <- <-]. split; [done|]. by apply Hins.
Qed.

End Table.

(** ** A client for examples *)

(** It records the configurations it is opened with; blocks are rounded up. *)
#[global] Instance toy_api : HttpApi (list http_config) := {|
  http_client_open cfg w := (zlen w + 1, cfg :: w);
  http_client_set_req_hdr h n v w := Some w;
  http_client_get h uri w := Some (0, [mkResp 200 false (str "ok")], w);
  http_client_post h uri data w := Some (0, [mkResp 200 false (str "ok")], w);
  http_client_close h w := if h =? 0 then None else Some w;
  os_alloc n w := (Some (16 * (n / 16 + 1)), w);
|}.

#[global, refine] Instance toy_roomy : Roomy (list http_config) := { usable n := 16 * (n / 16 + 1) }.
Proof.
  - intros n. pose proof (Z.div_mod n 16 ltac:(lia)). pose proof (Z.mod_pos_bound n 16 ltac:(lia)). lia.
  - intros n w. by exists w.
Defined.

Definition hio_init : hio := mkHio (replicate 25 None) [] (replicate 10 0) false 0 None.

Lemma certificate_used_witness :
  exists s', run 3 (map (StoreCert (str "ca") 5) [[1; 2]; [3; 4; 5]]) hio_init [] = Some ([accepted; accepted], [], s', []) /\
    event_http_hio_client_start 3 (str "h") 443 (str "ca") s' []
    = Some (open_client (str "h") 443 (Some [1; 2; 3; 4; 5]) (first_start s') []).
Proof.
  destruct (certificate_used 3 (str "ca") [[1; 2]; [3; 4; 5]] (str "h") 443 hio_init []) as (s' & w' & E & E');
    [done|done|done|by repeat (constructor; [done|])|by vm_compute|by vm_compute|].
  assert (Hw : w' = []) by (vm_compute in E; congruence). subst w'. exists s'. by split.
Defined.
