(* ===== verification/Ssbl.v ===== *)
(** * The second-stage boot loader: file sanity (apps/ssbl/src/ssbl.c)

    Before it loads an image the loader checks the three control files
    (fota_config.json, part.json, boot.json) against their checksum files and
    their backups when the dirty-bit file exists, repairs what it can and either
    goes on, resets the device or parks the thread.

    The result of the integrity check is an [int]: 1 for a match, 0 for a
    mismatch and -1, which the callers' conditions treat as true, when there is
    no checksum file.  [chksum_out] is the text of the computed checksum, empty
    in the last case. *)

From S2P Require Import Prelude FileSys FsUtils BasicJson.

Inductive ssb_sanity_e := SSB_SANITY_ERROR_NONE | SSB_SANITY_ERROR_MASTER_COPY | SSB_SANITY_ERROR_BACKUP_COPY.

#[export] Instance ssb_sanity_e_eq_dec : EqDecision ssb_sanity_e.
Proof. solve_decision. Defined.

(** [fread(buff, 1, 8, f); buff[8] = 0] into an uninitialised array. *)
Definition read_chksum_buff (garbage nread : bytes) : bytes :=
  take 8 (nread ++ drop (length nread) garbage).

Definition ssbl_file_integrity_ckeck (file_path chksum_file_path : string) : M (Z * bytes) :=
  r <-- fletcher32_file_checksum_get file_path ;;
  f_chksum <-- (match r with
                | Some c => m_ret c
                | None => fun E w => (Ret (env_uninit E), w)
                end) ;;
  let chksum_str := hex8 f_chksum in
  f <-- fopen_r chksum_file_path ;;
  match f with
  | None => m_ret (-1, [])
  | Some content =>
      nread <-- fread chksum_file_path content 8 ;;
      buff <-- (fun E w => (Ret (read_chksum_buff (env_uninit_buf E) nread), w)) ;;
      m_ret (if bool_decide (chksum_str = cstr buff) then 1 else 0, chksum_str)
  end.

Definition ssbl_file_restore (file_path chksum_file_path bckup_file_path bckup_chksum_file_path : string) : M unit :=
  utils_file_clone file_path bckup_file_path ;;;
  utils_file_clone chksum_file_path bckup_chksum_file_path ;;;
  m_ret tt.

Definition ssbl_fota_cfg_file_restore : M unit :=
  ssbl_file_restore FOTA_CFG_FILE_PATH FOTA_CFG_CHKSUM_FILE_PATH
    FOTA_CFG_BACKUP_FILE_PATH FOTA_CFG_BACKUP_CHKSUM_FILE_PATH.

Definition ssbl_part_file_restore : M unit :=
  ssbl_file_restore PART_FILE_PATH PART_CHKSUM_FILE_PATH PART_BACKUP_FILE_PATH PART_BACKUP_CHKSUM_FILE_PATH.

Definition ssbl_file_sanity_check (file_path chksum_file_path bckup_file_path bckup_chksum_file_path : string)
  : M ssb_sanity_e :=
  r <-- ssbl_file_integrity_ckeck file_path chksum_file_path ;;
  let '(rval, chksum) := r in
  rb <-- ssbl_file_integrity_ckeck bckup_file_path bckup_chksum_file_path ;;
  let '(rval_bkp, chksum_bkp) := rb in
  let take_backup := negb (rval =? 0) && negb (rval_bkp =? 0) && negb (bool_decide (chksum = chksum_bkp)) in
  (if (rval =? 0) && (rval_bkp =? 0) then os_park_self else m_ret tt) ;;;
  if rval =? 0 then
    utils_file_clone file_path bckup_file_path ;;;
    utils_file_clone chksum_file_path bckup_chksum_file_path ;;;
    m_ret SSB_SANITY_ERROR_MASTER_COPY
  else if (rval_bkp =? 0) || take_backup then
    utils_file_clone bckup_file_path file_path ;;;
    utils_file_clone bckup_chksum_file_path chksum_file_path ;;;
    m_ret (if take_backup then SSB_SANITY_ERROR_NONE else SSB_SANITY_ERROR_BACKUP_COPY)
  else m_ret SSB_SANITY_ERROR_NONE.

(** The label [exit_error]. *)
Definition sanity_exit_error : M unit :=
  unlink FOTA_IN_PROGRESS_FILE_PATH ;;;
  reset_device.

(** The part of [ssbl_sanity_check] from the check of boot.json on. *)
Definition sanity_from_boot (fota_in_progress : bool) : M unit :=
  rval <-- ssbl_file_sanity_check BOOT_FILE_PATH BOOT_CHKSUM_FILE_PATH
             BOOT_BACKUP_FILE_PATH BOOT_BACKUP_CHKSUM_FILE_PATH ;;
  if fota_in_progress && bool_decide (rval = SSB_SANITY_ERROR_MASTER_COPY) then
    ssbl_fota_cfg_file_restore ;;;
    ssbl_part_file_restore ;;;
    sanity_exit_error
  else
  unlink DIRTY_BIT_FILE_PATH ;;;
  unlink FOTA_IN_PROGRESS_FILE_PATH ;;;
  m_ret tt.

(** From the check of part.json on. *)
Definition sanity_from_part (fota_in_progress : bool) : M unit :=
  rval <-- ssbl_file_sanity_check PART_FILE_PATH PART_CHKSUM_FILE_PATH
             PART_BACKUP_FILE_PATH PART_BACKUP_CHKSUM_FILE_PATH ;;
  if fota_in_progress && bool_decide (rval = SSB_SANITY_ERROR_MASTER_COPY) then
    ssbl_fota_cfg_file_restore ;;;
    sanity_exit_error
  else sanity_from_boot fota_in_progress.

(** [fota_in_progress] is set from the dirty-bit file, as in the code. *)
Definition ssbl_sanity_check : M unit :=
  present <-- utils_is_file_present DIRTY_BIT_FILE_PATH ;;
  if negb present then m_ret tt else
  fota_in_progress <-- utils_is_file_present DIRTY_BIT_FILE_PATH ;;
  rval <-- ssbl_file_sanity_check FOTA_CFG_FILE_PATH FOTA_CFG_CHKSUM_FILE_PATH
             FOTA_CFG_BACKUP_FILE_PATH FOTA_CFG_BACKUP_CHKSUM_FILE_PATH ;;
  if fota_in_progress && bool_decide (rval = SSB_SANITY_ERROR_MASTER_COPY) then
    sanity_exit_error
  else sanity_from_part fota_in_progress.
