(* ===== verification/SsblImage.v ===== *)
(** * The second-stage loader: images (apps/ssbl/src/ssbl.c)

    The parser of part.json, the boot arguments, the ELF loader and [main].  The
    flash is a function from addresses to bytes, the RAM a function the loader
    changes; addresses and sizes of the 32-bit headers wrap as in the code.
    [None] and [PUndef] stand for what the C language leaves undefined: a write
    past a field, a section name outside the table of names. *)

From S2P Require Import Prelude FileSys FsUtils BasicJson CString Ssbl.

Definition SSBL_FLASH_SCTOR_SIZE : Z := 4096.
Definition SSBL_SECTION_NAMES_SZE_MAX : Z := 1024.
Definition SSBL_ERROR : Z := -1.
Definition SSBL_SUCCESS : Z := 0.

(** ** part.json *)

(** [part_image_info_t]; a field is [None] until something is stored in it. *)
Record part_image_info := mkImage {
  im_index : Z;
  im_name : option bytes;
  im_version : option bytes;
  im_sector : option Z;
  im_boot_args : list bytes;
}.

(** What [dest] points to: a field of the image allocated last. *)
Inductive dest := DName | DVersion | DSector.

(** The variables of the parser's loop; the list has the last image first. *)
Record part_st := mkPart {
  ps_state : json_parse_state;
  ps_images : list part_image_info;
  ps_index : Z;
  ps_dest : option dest;
  ps_boot_arg : bool;
  ps_key : bytes;
}.

Inductive part_res := PNext (st : part_st) | PError | PUndef.

Definition SIZEOF_IMAGE_INFO : Z := 272.
Definition NAME_SIZE : Z := 64.
Definition BOOT_ARGS_MAX : nat := 32.

(** A string where a key is expected. *)
Definition part_key (alloc : Z -> bool) (st : part_st) (token : bytes) : part_res :=
  let named := bool_decide (token = str "name") in
  if named && negb (alloc SIZEOF_IMAGE_INFO) then PError else
  let images := if named then mkImage (ps_index st) None None None [] :: ps_images st else ps_images st in
  let index := if named then ps_index st + 1 else ps_index st in
  let boot_arg := if named then false else ps_boot_arg st in
  let dest := if named then Some DName else None in
  let next dest boot_arg key := PNext (mkPart JSON_PARSE_STATE_SEPRATOR images index dest boot_arg key) in
  match images with
  | [] => next dest boot_arg (ps_key st)
  | _ :: _ =>
      if bool_decide (token = str "version") then next (Some DVersion) boot_arg (ps_key st)
      else if bool_decide (token = str "start_sector") then next (Some DSector) boot_arg (ps_key st)
      else if bool_decide (token = str "bootargs_start") then next dest true (ps_key st)
      else if bool_decide (token = str "bootargs_end") then next dest false (ps_key st)
      else if boot_arg then next dest boot_arg token
      else next dest boot_arg (ps_key st)
  end.

(** [strcpy(dest, json.token)].  A string copied over the sector number leaves
    it determined only when it fills the four bytes with its terminator. *)
Definition copy_string (d : dest) (token : bytes) (im : part_image_info) : option part_image_info :=
  match d with
  | DName => if zlen token <? NAME_SIZE
             then Some (mkImage (im_index im) (Some token) (im_version im) (im_sector im) (im_boot_args im)) else None
  | DVersion => if zlen token <? NAME_SIZE
                then Some (mkImage (im_index im) (im_name im) (Some token) (im_sector im) (im_boot_args im)) else None
  | DSector =>
      match token with
      | [a; b; c] => Some (mkImage (im_index im) (im_name im) (im_version im) (Some (a + b * 256 + c * 65536)) (im_boot_args im))
      | _ => if zlen token <? 4
             then Some (mkImage (im_index im) (im_name im) (im_version im) None (im_boot_args im)) else None
      end
  end.

(** The number stored through [dest] as through a pointer to [int]. *)
Definition copy_number (d : dest) (n : Z) (im : part_image_info) : part_image_info :=
  match d with
  | DName => mkImage (im_index im) None (im_version im) (im_sector im) (im_boot_args im)
  | DVersion => mkImage (im_index im) (im_name im) None (im_sector im) (im_boot_args im)
  | DSector => mkImage (im_index im) (im_name im) (im_version im) (Some n) (im_boot_args im)
  end.

Definition add_arg (im : part_image_info) (arg : bytes) : part_image_info :=
  mkImage (im_index im) (im_name im) (im_version im) (im_sector im) (im_boot_args im ++ [arg]).

(** The value of a member. *)
Definition part_value (alloc : Z -> bool) (st : part_st) (t : json_token) (token : bytes) : part_res :=
  let done images := PNext (mkPart JSON_PARSE_STATE_KEY images (ps_index st) None (ps_boot_arg st) (ps_key st)) in
  if bool_decide (t = JSON_STRING) then
    match ps_images st with
    | im :: ims =>
        if ps_boot_arg st then
          if negb (alloc (zlen (ps_key st) + 1 + zlen token + 1)) then PUndef
          else if (length (im_boot_args im) <? BOOT_ARGS_MAX)%nat
          then done (add_arg im (ps_key st ++ 61 :: token) :: ims) else PUndef
        else match ps_dest st with
             | Some d => match copy_string d token im with Some im' => done (im' :: ims) | None => PUndef end
             | None => done (im :: ims)
             end
    | [] => done []
    end
  else if bool_decide (t = JSON_NUMBER) then
    match ps_images st, ps_dest st with
    | im :: ims, Some d => done (copy_number d (atoi token) im :: ims)
    | _, _ => done (ps_images st)
    end
  else PNext st.

(** One token that is not [JSON_END]. *)
Definition part_token (alloc : Z -> bool) (st : part_st) (t : json_token) (token : bytes) : part_res :=
  let goto s := PNext (mkPart s (ps_images st) (ps_index st) (ps_dest st) (ps_boot_arg st) (ps_key st)) in
  if bool_decide (t = JSON_BEGIN_ARRAY) then goto JSON_PARSE_STATE_KEY
  else if bool_decide (ps_state st = JSON_PARSE_STATE_KEY /\ t = JSON_STRING) then part_key alloc st token
  else if bool_decide (ps_state st = JSON_PARSE_STATE_SEPRATOR /\ t = JSON_MEMBER_SEPARATOR)
  then goto JSON_PARSE_STATE_VAL
  else if bool_decide (ps_state st = JSON_PARSE_STATE_VAL) then part_value alloc st t token
  else PNext st.

(** The loop over the characters, the end of the file as the last one. *)
Fixpoint part_loop (alloc : Z -> bool) (p : json_parser) (st : part_st) (chars : bytes) : part_res :=
  match chars with
  | [] => PNext st
  | ch :: chars' =>
      match json_tokenizer p ch with
      | None => PUndef
      | Some (t, p) =>
          if bool_decide (t = JSON_END) then PNext st
          else match part_token alloc st t (cstr (j_token p)) with
               | PNext st => part_loop alloc p st chars'
               | r => r
               end
      end
  end.

Definition part_init : part_st := mkPart JSON_PARSE_STATE_KEY [] 0 None false [].

(** [ssbl_parse_part_file]: the list of images. *)
Definition ssbl_parse_part_file : M (option (list part_image_info)) :=
  ok <-- os_alloc 256 ;;
  if negb ok then m_ret None else
  f_part <-- fopen_r PART_FILE_PATH ;;
  match f_part with
  | None => m_ret None
  | Some content => fun E =>
      match part_loop (env_alloc E) json_init part_init (content ++ [EOF]) with
      | PNext st => m_ret (Some (ps_images st)) E
      | PError => m_ret None E
      | PUndef => m_end Undefined E
      end
  end.

(** ** Boot arguments *)

(** [boot_arg_p], the count in [image_boot_args] and the memory they are in. *)
Record boot_args := mkBoot { b_ram : Z -> Z; b_ptr : Z; b_argc : Z }.

Definition BOOT_ARG_TOP : Z := 0xbfffc.

Definition ssbl_add_boot_arg (b : boot_args) (arg : bytes) : boot_args :=
  let ram := overlay (b_ram b) (b_ptr b - 1) [0] in
  let ptr := b_ptr b - 1 - zlen arg in
  mkBoot (overlay ram ptr arg) ptr (b_argc b + 1).

(** [while( *ptr++ );] within the memory below [BOOT_ARG_TOP]. *)
Fixpoint skip_string (fuel : nat) (ram : Z -> Z) (ptr : Z) : option Z :=
  match fuel with
  | O => None
  | S fuel' => if ram ptr =? 0 then Some (ptr + 1) else skip_string fuel' ram (ptr + 1)
  end.

Definition le32_bytes (v : Z) : bytes := [u8 v; u8 (Z.shiftr v 8); u8 (Z.shiftr v 16); u8 (Z.shiftr v 24)].

(** [ssbl_build_argv]: the memory with the pointers stored from [av] on. *)
Fixpoint ssbl_build_argv (ac : nat) (ram : Z -> Z) (av ptr : Z) : option (Z -> Z) :=
  match ac with
  | O => Some ram
  | S ac' =>
      let ram := overlay ram av (le32_bytes ptr) in
      match skip_string (Z.to_nat (BOOT_ARG_TOP - ptr)) ram ptr with
      | None => None
      | Some ptr' => ssbl_build_argv ac' ram (av + 4) ptr'
      end
  end.

(** The part of [ssbl_start_image] before the reset: the memory and [argv]. *)
Definition start_image_args (b : boot_args) : option (Z * (Z -> Z)) :=
  let addr := b_ptr b - 4 * b_argc b in
  let argv := Z.land addr (Z.lnot 3) in
  match ssbl_build_argv (Z.to_nat (b_argc b)) (b_ram b) argv (b_ptr b) with
  | Some ram => Some (argv, ram)
  | None => None
  end.

(** ** The ELF loader *)

Definition le16 (l : bytes) (i : Z) : Z := bget l i + 256 * bget l (i + 1).
Definition le32 (l : bytes) (i : Z) : Z :=
  bget l i + 256 * bget l (i + 1) + 65536 * bget l (i + 2) + 16777216 * bget l (i + 3).

Definition SIZEOF_EHDR : Z := 52.
Definition SIZEOF_PHDR : Z := 32.
Definition SIZEOF_SHDR : Z := 40.

Record Elf32_Ehdr := mkEhdr {
  e_ident : bytes; e_type : Z; e_machine : Z; e_version : Z; e_entry : Z; e_shoff : Z;
  e_ehsize : Z; e_phentsize : Z; e_shnum : Z; e_shstrndx : Z;
}.

Definition ehdr_of (l : bytes) : Elf32_Ehdr :=
  mkEhdr (take 16 l) (le16 l 16) (le16 l 18) (le32 l 20) (le32 l 24) (le32 l 32) (le16 l 40) (le16 l 42)
    (le16 l 48) (le16 l 50).

Record Elf32_Shdr := mkShdr { sh_name : Z; sh_addr : Z; sh_offset : Z; sh_size : Z }.

Definition shdr_of (l : bytes) : Elf32_Shdr := mkShdr (le32 l 0) (le32 l 12) (le32 l 16) (le32 l 20).

Definition ET_EXEC : Z := 2.
Definition EM_ARM : Z := 40.
Definition EV_CURRENT : Z := 1.

(** The memory, [vm_flash_location] and the entry point. *)
Record loaded := mkLoaded { l_ram : Z -> Z; l_vm : Z; l_entry : Z }.

Section Loader.
Context (flash : Z -> Z).

(** [spi_mem_read(dev, addr, dst, len)]: the bytes delivered. *)
Definition spi_mem_read (addr len : Z) : bytes := cells flash addr len.

Fixpoint read_section_loop (fuel : nat) (flash_addr data_ptr len : Z) (ram : Z -> Z) : option (Z -> Z) :=
  if len =? 0 then Some ram
  else match fuel with
       | O => None
       | S fuel' =>
           let chunk := if SSBL_FLASH_SCTOR_SIZE <? len then SSBL_FLASH_SCTOR_SIZE else len in
           read_section_loop fuel' (u32 (flash_addr + chunk)) (data_ptr + chunk) (len - chunk)
             (overlay ram data_ptr (spi_mem_read flash_addr chunk))
       end.

(** One round per started sector. *)
Definition ssbl_read_section (flash_addr data_addr len : Z) (ram : Z -> Z) : option (Z -> Z) :=
  if data_addr =? 0 then Some ram
  else read_section_loop (Z.to_nat (len / SSBL_FLASH_SCTOR_SIZE) + 1) flash_addr data_addr len ram.

Definition shdr_at (addr : Z) : Elf32_Shdr := shdr_of (spi_mem_read addr SIZEOF_SHDR).

(** [&section_names[i]] as a C string, when it ends in the table. *)
Definition section_name (names : bytes) (i : Z) : option bytes :=
  let l := drop (Z.to_nat i) names in
  if existsb (Z.eqb 0) l then Some (cstr l) else None.

Definition loadable (name : bytes) : bool :=
  existsb (fun s => bool_decide (name = str s))
    [".text"; ".data"; ".text.bvars"; ".text.base"; ".atext"; ".data.base"; ".ARM.attributes"; ".bss"; ".bss.base"]%string.

(** The loop over the section headers; [inl] is an error return. *)
Fixpoint load_sections (flash_addr : Z) (names : bytes) (n : nat) (offset app_size : Z) (l : loaded)
  : option (loaded + loaded) :=
  match n with
  | O => Some (inr l)
  | S n' =>
      let shdr := shdr_at (u32 (flash_addr + offset)) in
      match section_name names (sh_name shdr) with
      | None => None
      | Some name =>
          let next app_size l := load_sections flash_addr names n' (u32 (offset + SIZEOF_SHDR)) app_size l in
          if loadable name then
            let app_size := u32 (app_size + sh_size shdr) in
            if 0x3e000 <=? app_size then Some (inl l)
            else match ssbl_read_section (u32 (flash_addr + sh_offset shdr)) (sh_addr shdr) (sh_size shdr) (l_ram l) with
                 | None => None
                 | Some ram => next app_size (mkLoaded ram (l_vm l) (l_entry l))
                 end
          else if bool_decide (name = str ".virt")
          then next app_size (mkLoaded (l_ram l) (u32 (flash_addr + sh_offset shdr)) (l_entry l))
          else next app_size l
      end
  end.

Definition elf_ok (h : Elf32_Ehdr) : bool :=
  bool_decide (take 6 (e_ident h) = [127; 69; 76; 70; 1; 1]) && (e_version h =? EV_CURRENT)
  && (e_ehsize h =? SIZEOF_EHDR) && (e_type h =? ET_EXEC) && (e_machine h =? EM_ARM)
  && (e_phentsize h =? SIZEOF_PHDR).

Definition ssbl_load_elf (alloc : bool) (flash_addr : Z) (l : loaded) : option (Z * loaded) :=
  if negb alloc then Some (SSBL_ERROR, l) else
  let ehdr := ehdr_of (spi_mem_read flash_addr SIZEOF_EHDR) in
  if negb (elf_ok ehdr) then Some (SSBL_ERROR, l) else
  let offset := u32 (e_shoff ehdr + e_shstrndx ehdr * SIZEOF_SHDR) in
  let shdr := shdr_at (u32 (flash_addr + offset)) in
  if SSBL_SECTION_NAMES_SZE_MAX <? sh_size shdr then None else
  let names := spi_mem_read (u32 (flash_addr + sh_offset shdr)) (sh_size shdr) in
  match load_sections flash_addr names (Z.to_nat (e_shnum ehdr)) (e_shoff ehdr) 0 l with
  | None => None
  | Some (inl l) => Some (SSBL_ERROR, l)
  | Some (inr l) => Some (SSBL_SUCCESS, mkLoaded (l_ram l) (l_vm l) (e_entry ehdr))
  end.
End Loader.

(** ** The boot *)

(** [ssbl_image_info_get]: the image and the arguments pushed. *)
Definition ssbl_image_info_get (images : list part_image_info) (boot_index : Z) (b : boot_args)
  : option (part_image_info * boot_args) :=
  match List.find (fun p => boot_index =? im_index p) images with
  | None => None
  | Some p => Some (p, fold_left ssbl_add_boot_arg (im_boot_args p) b)
  end.

(** [ssbl_boot_index_get], whose loop is that of [utils_get_boot_index]. *)
Definition ssbl_boot_index_get : M Z :=
  f_part <-- fopen_r BOOT_FILE_PATH ;;
  match f_part with
  | None => m_ret (-1)
  | Some content =>
      match boot_index_loop json_init JSON_PARSE_STATE_KEY content with
      | Some i => m_ret i
      | None => m_end Undefined
      end
  end.

Definition vm_arg (vm : Z) : bytes := str "vm.flash_location=0x" ++ hex8 vm.

(** [boot_arg_p -= 29; argc++; snprintf(boot_arg_p, 29, ...)] *)
Definition add_vm_arg (vm : Z) (b : boot_args) : boot_args :=
  mkBoot (overlay (b_ram b) (b_ptr b - 29) (take 28 (vm_arg vm) ++ [0])) (b_ptr b - 29) (b_argc b + 1).

(** What the loader hands to the image: entry point, count, vector, memory. *)
Record started := mkStarted { s_entry : Z; s_argc : Z; s_argv : Z; s_ram : Z -> Z }.

(** [main], up to the reset into the image.  [mounted] is the result of mounting
    the file system; [ram0] is the memory as the loader finds it. *)
Definition ssbl_main (mounted : bool) (flash ram0 : Z -> Z) : M started :=
  if negb mounted then os_park_self else
  ssbl_sanity_check ;;;
  images <-- ssbl_parse_part_file ;;
  match images with
  | None => os_park_self
  | Some images =>
      boot_index <-- ssbl_boot_index_get ;;
      if boot_index <? 0 then os_park_self else
      match ssbl_image_info_get images boot_index (mkBoot ram0 BOOT_ARG_TOP 0) with
      | None => os_park_self
      | Some (image_info, b) => fun E =>
          let sector := default (env_uninit E) (im_sector image_info) in
          match ssbl_load_elf flash (env_alloc E SSBL_SECTION_NAMES_SZE_MAX) (u32 (sector * SSBL_FLASH_SCTOR_SIZE))
                  (mkLoaded (b_ram b) 0 0) with
          | None => m_end Undefined E
          | Some (rval, l) =>
              if rval <? 0 then os_park_self E
              else
                let b := mkBoot (l_ram l) (b_ptr b) (b_argc b) in
                let b := if l_vm l =? 0 then b else add_vm_arg (l_vm l) b in
                match start_image_args b with
                | None => m_end Undefined E
                | Some (argv, ram) => m_ret (mkStarted (l_entry l) (b_argc b) argv ram) E
                end
          end
      end
  end.
