(* ===== verification/SsblBoot.v ===== *)
(** * What the second-stage loader hands to the image it boots

    The arguments a booted image finds in memory, the images read from
    part.json, the sections loaded from flash, and the boot as a whole. *)

From S2P Require Import Prelude FileSys FsUtils BasicJson CString Ssbl SsblImage.

(** ** Memory *)

(** The bytes [bs] are at address [a]. *)
Definition holds (ram : Z -> Z) (a : Z) (bs : bytes) : Prop := forall i, 0 <= i < zlen bs -> ram (a + i) = bget bs i.

Lemma bget_app_l l1 l2 i : 0 <= i < zlen l1 -> bget (l1 ++ l2) i = bget l1 i.
Proof. unfold bget, zlen. intros H. by rewrite app_nth1 by lia. Qed.

Lemma bget_app_r l1 l2 i : 0 <= i -> bget (l1 ++ l2) (zlen l1 + i) = bget l2 i.
Proof. unfold bget, zlen. intros H. rewrite app_nth2 by lia. f_equal. lia. Qed.

Lemma holds_nil ram a : holds ram a [].
Proof. intros i Hi. unfold zlen in Hi. simpl in Hi. lia. Qed.

Lemma holds_app ram a l1 l2 : holds ram a (l1 ++ l2) <-> holds ram a l1 /\ holds ram (a + zlen l1) l2.
Proof.
  unfold holds. rewrite zlen_app. pose proof (zlen_nonneg l1). pose proof (zlen_nonneg l2). split.
  - intros H1. split; intros i Hi.
    + rewrite H1 by lia. by apply bget_app_l.
    + rewrite <- Z.add_assoc, H1 by lia. apply bget_app_r. lia.
  - intros [H1 H2] i Hi. destruct (decide (i < zlen l1)).
    + rewrite H1 by lia. by rewrite bget_app_l by lia.
    + replace i with (zlen l1 + (i - zlen l1)) by lia. rewrite bget_app_r by lia.
      rewrite Z.add_assoc. apply H2. lia.
Qed.

Lemma overlay_in ram a bs i : 0 <= i < zlen bs -> overlay ram a bs (a + i) = bget bs i.
Proof.
  intros Hi. unfold overlay. rewrite (proj2 (Z.leb_le _ _)), (proj2 (Z.ltb_lt _ _)) by lia. cbn. f_equal. lia.
Qed.

Lemma overlay_out ram a bs x : x < a \/ a + zlen bs <= x -> overlay ram a bs x = ram x.
Proof.
  intros Hx. unfold overlay. destruct (Z.leb_spec a x), (Z.ltb_spec x (a + zlen bs)); cbn; try done. lia.
Qed.

Lemma holds_overlay ram a bs : holds (overlay ram a bs) a bs.
Proof. intros i Hi. by apply overlay_in. Qed.

(** Memory that agrees on a range holds the same there. *)
Lemma holds_frame ram ram' a bs :
  holds ram a bs -> (forall x, a <= x < a + zlen bs -> ram' x = ram x) -> holds ram' a bs.
Proof. intros H Hf i Hi. rewrite Hf by lia. by apply H. Qed.

Lemma holds_overlay_other ram a bs b cs :
  holds ram a bs -> a + zlen bs <= b \/ b + zlen cs <= a -> holds (overlay ram b cs) a bs.
Proof. intros H Hd. apply (holds_frame ram); [done|]. intros x Hx. apply overlay_out. lia. Qed.

(** ** The arguments *)

Definition is_arg (a : bytes) : Prop := Forall (fun c => c <> 0) a.

(** The arguments as consecutive C strings. *)
Definition args_block (args : list bytes) : bytes := concat (map (fun a => a ++ [0]) args).

Lemma args_block_cons a args : args_block (a :: args) = (a ++ [0]) ++ args_block args.
Proof. done. Qed.

Lemma zlen_args_cons a args : zlen (args_block (a :: args)) = zlen a + 1 + zlen (args_block args).
Proof. rewrite args_block_cons, !zlen_app. change (zlen [0]) with 1. lia. Qed.

(** Pushed arguments are below those pushed before. *)
Lemma add_boot_arg_holds b args a :
  holds (b_ram b) (b_ptr b) (args_block args) ->
  holds (b_ram (ssbl_add_boot_arg b a)) (b_ptr (ssbl_add_boot_arg b a)) (args_block (a :: args)).
Proof.
  intros H. rewrite args_block_cons. apply holds_app. cbn. pose proof (zlen_nonneg a). split.
  - apply holds_app. split; [apply holds_overlay|]. apply holds_overlay_other; [|lia].
    replace (b_ptr b - 1 - zlen a + zlen a) with (b_ptr b - 1) by lia. apply holds_overlay.
  - rewrite zlen_app. change (zlen [0]) with 1.
    replace (b_ptr b - 1 - zlen a + (zlen a + 1)) with (b_ptr b) by lia.
    apply holds_overlay_other; [|lia]. apply holds_overlay_other; [done|]. change (zlen [0]) with 1. lia.
Qed.

(** The state after pushing [args]: they lie in the reverse order up to the top. *)
Definition args_pushed (b : boot_args) (args : list bytes) : Prop :=
  holds (b_ram b) (b_ptr b) (args_block (rev args)) /\ b_argc b = zlen args
  /\ b_ptr b = BOOT_ARG_TOP - zlen (args_block args).

Lemma zlen_args_app a1 a2 : zlen (args_block (a1 ++ a2)) = zlen (args_block a1) + zlen (args_block a2).
Proof. unfold args_block. rewrite map_app, concat_app. apply zlen_app. Qed.

Lemma zlen_args_rev args : zlen (args_block (rev args)) = zlen (args_block args).
Proof.
  induction args as [|a args IH]; [done|]. cbn [rev]. rewrite zlen_args_app, IH, !zlen_args_cons.
  change (zlen (args_block [])) with 0. lia.
Qed.

Lemma push_args b args dn :
  args_pushed b dn -> args_pushed (fold_left ssbl_add_boot_arg args b) (dn ++ args).
Proof.
  revert b dn. induction args as [|a args IH]; intros b dn Hp; cbn [fold_left]; [by rewrite app_nil_r|].
  replace (dn ++ a :: args) with ((dn ++ [a]) ++ args) by (by rewrite <- app_assoc). apply IH.
  destruct Hp as (H1 & H2 & H3). split; [|split].
  - rewrite rev_app_distr. by apply add_boot_arg_holds.
  - cbn. rewrite H2, zlen_app. done.
  - cbn. rewrite H3, zlen_args_app, zlen_args_cons. change (zlen (args_block [])) with 0. lia.
Qed.

Lemma skip_string_ok ram a : forall fuel p,
  is_arg a -> holds ram p (a ++ [0]) -> (length a < fuel)%nat -> skip_string fuel ram p = Some (p + zlen a + 1).
Proof.
  induction a as [|c a IH]; intros fuel p Ha H Hf; (destruct fuel as [|fuel]; [simpl in Hf; lia|]); cbn [skip_string].
  - pose proof (H 0 ltac:(done)) as H0. rewrite Z.add_0_r in H0. rewrite H0. change (zlen []) with 0. f_equal. lia.
  - apply Forall_cons in Ha as [Hc Ha]. change ((c :: a) ++ [0]) with ([c] ++ (a ++ [0])) in H.
    apply holds_app in H as [H1 H2]. change (zlen [c]) with 1 in H2.
    pose proof (H1 0 ltac:(done)) as H0. rewrite Z.add_0_r in H0. change (bget [c] 0) with c in H0. rewrite H0.
    destruct (Z.eqb_spec c 0); [done|]. rewrite IH; [|done|done|simpl in Hf; lia]. f_equal. zl. lia.
Qed.

(** The vector: the i-th pointer is at the i-th string. *)
Definition argv_of (ram : Z -> Z) (av : Z) (args : list bytes) : Prop :=
  forall i a, args !! i = Some a ->
    exists p, 0 <= p < 2 ^ 32 /\ holds ram (av + 4 * Z.of_nat i) (le32_bytes p) /\ holds ram p (a ++ [0]).

Lemma zlen_le32 v : zlen (le32_bytes v) = 4.
Proof. done. Qed.

Lemma build_argv_ok args : forall ram av ptr,
  Forall is_arg args -> holds ram ptr (args_block args) -> 0 <= av -> av + 4 * zlen args <= ptr ->
  ptr + zlen (args_block args) <= BOOT_ARG_TOP ->
  exists ram', ssbl_build_argv (length args) ram av ptr = Some ram' /\ argv_of ram' av args
    /\ forall x, x < av \/ av + 4 * zlen args <= x -> ram' x = ram x.
Proof.
  induction args as [|a args IH]; intros ram av ptr Hargs H Hav Hle Htop; cbn [length ssbl_build_argv].
  - exists ram. split; [done|]. split; [|done]. intros i a Hi. by rewrite lookup_nil in Hi.
  - apply Forall_cons in Hargs as [Ha Hargs]. rewrite zlen_args_cons in Htop. rewrite zlen_cons in *.
    pose proof (zlen_nonneg a). pose proof (zlen_nonneg args). pose proof (zlen_nonneg (args_block args)).
    set (ram1 := overlay ram av (le32_bytes ptr)).
    assert (Hm : holds ram1 ptr (args_block (a :: args))).
    { apply holds_overlay_other; [done|]. rewrite zlen_le32. lia. }
    rewrite args_block_cons in Hm. apply holds_app in Hm as [Hm Hm2]. rewrite zlen_app in Hm2.
    change (zlen [0]) with 1 in Hm2.
    rewrite (skip_string_ok ram1 a); [|done|done|unfold zlen in *; lia].
    destruct (IH ram1 (av + 4) (ptr + zlen a + 1)) as (ram' & -> & Hv & Hf); [done| |lia|lia|lia|].
    { replace (ptr + zlen a + 1) with (ptr + (zlen a + 1)) by lia. done. }
    assert (Hz : zlen (a ++ [0]) = zlen a + 1) by (by rewrite zlen_app).
    exists ram'. split; [done|]. split.
    + intros [|i] c Hi; simpl in Hi.
      * injection Hi as <-. exists ptr. unfold BOOT_ARG_TOP in Htop. split; [lia|]. split.
        -- apply (holds_frame ram1); [rewrite Z.add_0_r; apply holds_overlay|]. rewrite zlen_le32. intros x Hx. apply Hf. lia.
        -- apply (holds_frame ram1); [done|]. rewrite Hz. intros x Hx. apply Hf. lia.
      * destruct (Hv i c Hi) as (p & Hp & Hq & Hr). exists p. split; [done|]. split; [|done].
        replace (av + 4 * Z.of_nat (S i)) with (av + 4 + 4 * Z.of_nat i) by lia. done.
    + intros x Hx. rewrite Hf by lia. apply overlay_out. rewrite zlen_le32. lia.
Qed.

Lemma align4 a : 0 <= a -> Z.land a (Z.lnot 3) <= a /\ a - 3 <= Z.land a (Z.lnot 3) /\ Z.land a (Z.lnot 3) mod 4 = 0.
Proof.
  intros Ha. assert (E : Z.land a (Z.lnot 3) = a - a mod 4).
  { rewrite <- Z.ldiff_land. change 3 with (Z.ones 2). rewrite Z.ldiff_ones_r by lia.
    rewrite Z.shiftl_mul_pow2, Z.shiftr_div_pow2 by lia. change (2 ^ 2) with 4. pose proof (Z.div_mod a 4). lia. }
  rewrite E. pose proof (Z.mod_pos_bound a 4). split; [lia|]. split; [lia|].
  replace (a - a mod 4) with (a / 4 * 4) by (pose proof (Z.div_mod a 4); lia). apply Z_mod_mult.
Qed.

Lemma start_image_exact b args :
  args_pushed b args -> Forall is_arg args -> zlen (args_block args) + 4 * zlen args + 4 <= BOOT_ARG_TOP ->
  exists argv ram, start_image_args b = Some (argv, ram) /\ argv mod 4 = 0 /\ argv_of ram argv (rev args)
    /\ 0 <= argv /\ (forall x, x < argv \/ b_ptr b <= x -> ram x = b_ram b x).
Proof.
  intros (H1 & H2 & H3) Ha Hs. unfold start_image_args.
  pose proof (zlen_nonneg (args_block args)). pose proof (zlen_nonneg args).
  destruct (align4 (b_ptr b - 4 * b_argc b)) as (L1 & L2 & L3); [lia|]. set (argv := Z.land _ _) in *.
  assert (Hr : zlen (rev args) = zlen args) by (unfold zlen; by rewrite length_rev).
  destruct (build_argv_ok (rev args) (b_ram b) argv (b_ptr b)) as (ram & Hb & Hv & Hf); [|done|lia|lia| |].
  - by apply Forall_rev.
  - rewrite zlen_args_rev. lia.
  - assert (length (rev args) = Z.to_nat (b_argc b)) as El by (rewrite length_rev, H2; unfold zlen; lia).
    rewrite El in Hb. rewrite Hb. exists argv, ram. repeat split; try done; [lia|]. intros x Hx. apply Hf. lia.
Qed.

(** The arguments reach the image.  Pushing the boot arguments of an image
    and building the vector gives one aligned pointer per argument, in the
    reverse of the order in which they were pushed, each to a string that reads
    back as the argument, and the vector does not overlap the strings. *)
Theorem boot_args_delivered (ram : Z -> Z) (args : list bytes) :
  Forall is_arg args -> zlen (args_block args) + 4 * zlen args + 4 <= BOOT_ARG_TOP ->
  let b := fold_left ssbl_add_boot_arg args (mkBoot ram BOOT_ARG_TOP 0) in
  b_argc b = zlen args /\
  exists argv ram', start_image_args b = Some (argv, ram') /\ argv mod 4 = 0 /\
    argv + 4 * zlen args <= b_ptr b /\ argv_of ram' argv (rev args).
Proof.
  intros Ha Hs b. assert (Hp : args_pushed b ([] ++ args)).
  { apply push_args. split; [apply holds_nil|]. split; [done|]. change (zlen (args_block [])) with 0. cbn. lia. }
  destruct (start_image_exact b args Hp Ha Hs) as (argv & ram' & E & H1 & H2 & H3 & _).
  destruct Hp as (_ & Hc & Hptr). split; [done|]. exists argv, ram'. repeat split; try done.
  unfold start_image_args in E. destruct (ssbl_build_argv _ _ _ _); [|done]. injection E as <- _.
  pose proof (zlen_nonneg args). cbn [app] in *.
  destruct (align4 (b_ptr b - 4 * b_argc b)) as (L1 & _); [lia|]. lia.
Qed.

Lemma boot_args_delivered_witness :
  let b := fold_left ssbl_add_boot_arg [str "ssid=t2"; str "p=1"] (mkBoot (fun _ => 255) BOOT_ARG_TOP 0) in
  b_argc b = 2 /\
  exists argv ram', start_image_args b = Some (argv, ram') /\ argv mod 4 = 0 /\
    argv + 4 * 2 <= b_ptr b /\ argv_of ram' argv [str "p=1"; str "ssid=t2"].
Proof.
  apply (boot_args_delivered (fun _ => 255) [str "ssid=t2"; str "p=1"]).
  - apply (bool_decide_unpack _). by vm_compute.
  - vm_compute. done.
Defined.

(** ** The images of part.json *)

(** The tokens fed one after the other. *)
Fixpoint part_run (alloc : Z -> bool) (st : part_st) (ts : list (json_token * bytes)) : part_res :=
  match ts with
  | [] => PNext st
  | (t, token) :: ts' =>
      match part_token alloc st t (cstr token) with
      | PNext st => part_run alloc st ts'
      | r => r
      end
  end.

Lemma part_token_none alloc st tok : part_token alloc st JSON_NONE tok = PNext st.
Proof.
  unfold part_token. rewrite !(bool_decide_eq_false_2 (_ = JSON_BEGIN_ARRAY)) by done.
  rewrite !bool_decide_eq_false_2 by naive_solver. case_bool_decide; [|done]. unfold part_value.
  by rewrite !bool_decide_eq_false_2 by done.
Qed.

Lemma part_loop_feed alloc l : forall p st ts p' rest,
  feed p l = Some (ts, p') -> Forall (fun t => fst t <> JSON_END) ts ->
  part_loop alloc p st (l ++ rest)
  = match part_run alloc st ts with PNext st' => part_loop alloc p' st' rest | r => r end.
Proof.
  induction l as [|ch l IH]; intros p st ts p' rest Hf Hne; cbn [feed] in Hf.
  - by simplify_eq.
  - cbn [app part_loop]. destruct (json_tokenizer p ch) as [[t p1]|]; [|done].
    destruct (feed p1 l) as [[ts1 p2]|] eqn:E; [|done]. case_bool_decide as Ht; simplify_eq.
    + rewrite part_token_none. rewrite bool_decide_eq_false_2 by done. by apply IH.
    + apply Forall_cons in Hne as [Hn Hne]. rewrite bool_decide_eq_false_2 by done.
      cbn [part_run]. destruct (part_token alloc st t (cstr (j_token p1))); [by apply IH|done|done].
Qed.

(** An image as part.json describes it: name, version, sector, arguments. *)
Record image_desc := mkDesc {
  d_name : bytes; d_version : bytes; d_sector : bytes; d_args : list (bytes * bytes);
}.

Definition sep : json_token * bytes := (JSON_MEMBER_SEPARATOR, [58]).
Definition comma : json_token * bytes := (JSON_VALUE_SEPARATOR, [44]).
Definition member (k : bytes) (t : json_token) (v : bytes) : list (json_token * bytes) :=
  [(JSON_STRING, k); sep; (t, v)].
Definition arg_tokens (a : bytes * bytes) : list (json_token * bytes) := member a.1 JSON_STRING a.2 ++ [comma].

Definition image_tokens (d : image_desc) : list (json_token * bytes) :=
  (JSON_BEGIN_OBJECT, [123]) :: member (str "name") JSON_STRING (d_name d) ++ comma
  :: member (str "version") JSON_STRING (d_version d) ++ comma
  :: member (str "start_sector") JSON_NUMBER (d_sector d) ++ comma
  :: member (str "bootargs_start") JSON_NUMBER [49] ++ comma
  :: concat (map arg_tokens (d_args d)) ++ member (str "bootargs_end") JSON_NUMBER [49] ++ [(JSON_END_OBJECT, [125])].

Fixpoint images_tokens (ds : list image_desc) : list (json_token * bytes) :=
  match ds with
  | [] => []
  | [d] => image_tokens d
  | d :: ds' => image_tokens d ++ comma :: images_tokens ds'
  end.

Definition tail_tokens (tail : list (bytes * bytes)) : list (json_token * bytes) :=
  concat (map (fun m => comma :: member m.1 JSON_NUMBER m.2) tail).

(** The file: the array of images, then other members with numbers. *)
Definition part_tokens (ds : list image_desc) (tail : list (bytes * bytes)) : list (json_token * bytes) :=
  (JSON_BEGIN_OBJECT, [123]) :: (JSON_STRING, str "image") :: sep :: (JSON_BEGIN_ARRAY, [91])
  :: images_tokens ds ++ (JSON_END_ARRAY, [93]) :: tail_tokens tail ++ [(JSON_END_OBJECT, [125])].

Definition reserved : list bytes :=
  [str "name"; str "version"; str "start_sector"; str "bootargs_start"; str "bootargs_end"].

Definition text63 (s : bytes) : Prop := Forall (fun c => c <> 0) s /\ zlen s < NAME_SIZE.

Definition desc_ok (d : image_desc) : Prop :=
  text63 (d_name d) /\ text63 (d_version d)
  /\ (digits (d_sector d) /\ (0 < length (d_sector d))%nat /\ dec_val (d_sector d) < 2 ^ 31)
  /\ (length (d_args d) <= BOOT_ARGS_MAX)%nat
  /\ Forall (fun a => is_arg a.1 /\ is_arg a.2 /\ ~ In a.1 reserved) (d_args d).

Definition arg_of (a : bytes * bytes) : bytes := a.1 ++ 61 :: a.2.

Definition image_of (i : Z) (d : image_desc) : part_image_info :=
  mkImage i (Some (d_name d)) (Some (d_version d)) (Some (dec_val (d_sector d))) (map arg_of (d_args d)).

Fixpoint images_of (i : Z) (ds : list image_desc) : list part_image_info :=
  match ds with [] => [] | d :: ds' => image_of i d :: images_of (i + 1) ds' end.

(** Comparisons of constant strings. *)
Ltac keys :=
  repeat match goal with
  | |- context [bool_decide (str ?a = str ?b)] =>
      let r := eval vm_compute in (bool_decide (str a = str b)) in
      change (bool_decide (str a = str b)) with r
  | |- context [cstr (str ?a)] => change (cstr (str a)) with (str a)
  end; cbn [negb andb]; cbn iota.

Section Part.
Context (alloc : Z -> bool) (Halloc : forall n, alloc n = true).

(** The state between members. *)
Abbreviation at_key ims i ba key := (mkPart JSON_PARSE_STATE_KEY ims i None ba key).

Lemma part_run_app st ts1 ts2 :
  part_run alloc st (ts1 ++ ts2) = match part_run alloc st ts1 with PNext st' => part_run alloc st' ts2 | r => r end.
Proof.
  revert st. induction ts1 as [|[t tok] ts1 IH]; intros st; [done|]. cbn.
  by destruct (part_token alloc st t (cstr tok)).
Qed.

(** A member whose key is [k] and whose value is a number or a string. *)
Lemma run_member ims i ba key k t v ts :
  t <> JSON_BEGIN_ARRAY ->
  part_run alloc (at_key ims i ba key) (member k t v ++ ts)
  = match part_key alloc (at_key ims i ba key) (cstr k) with
    | PNext st => match part_value alloc (mkPart JSON_PARSE_STATE_VAL (ps_images st) (ps_index st) (ps_dest st)
                                            (ps_boot_arg st) (ps_key st)) t (cstr v) with
                  | PNext st => part_run alloc st ts
                  | r => r
                  end
    | r => r
    end.
Proof.
  intros Ht. cbn [member app part_run]. unfold part_token at 1. cbn [ps_state].
  rewrite (bool_decide_eq_false_2 (JSON_STRING = JSON_BEGIN_ARRAY)) by done.
  rewrite bool_decide_eq_true_2 by done.
  destruct (part_key alloc (at_key ims i ba key) (cstr k)) as [st| |] eqn:E; [|done|done].
  assert (Hs : ps_state st = JSON_PARSE_STATE_SEPRATOR).
  { unfold part_key in E. repeat case_match; by simplify_eq. }
  unfold sep. cbn [part_run]. unfold part_token at 1. rewrite Hs.
  change (bool_decide (JSON_MEMBER_SEPARATOR = JSON_BEGIN_ARRAY)) with false.
  change (bool_decide (JSON_PARSE_STATE_SEPRATOR = JSON_PARSE_STATE_KEY /\ JSON_MEMBER_SEPARATOR = JSON_STRING)) with false.
  change (bool_decide (JSON_PARSE_STATE_SEPRATOR = JSON_PARSE_STATE_SEPRATOR
                       /\ JSON_MEMBER_SEPARATOR = JSON_MEMBER_SEPARATOR)) with true. cbn iota.
  unfold part_token at 1. cbn [ps_state]. rewrite bool_decide_eq_false_2 by done.
  rewrite !bool_decide_eq_false_2 by naive_solver. by rewrite bool_decide_eq_true_2 by done.
Qed.

(** The tokens between members. *)
Lemma run_skip ims i ba key t tok ts :
  In t [JSON_BEGIN_OBJECT; JSON_END_OBJECT; JSON_END_ARRAY; JSON_VALUE_SEPARATOR] ->
  part_run alloc (at_key ims i ba key) ((t, tok) :: ts) = part_run alloc (at_key ims i ba key) ts.
Proof. intros H. cbn [part_run]. by destruct H as [<-|[<-|[<-|[<-|[]]]]]. Qed.

Lemma text63_cstr s : text63 s -> cstr s = s.
Proof. intros [H _]. by apply cstr_plain. Qed.

Lemma run_name ims i ba key v ts :
  text63 v ->
  part_run alloc (at_key ims i ba key) (member (str "name") JSON_STRING v ++ ts)
  = part_run alloc (at_key (mkImage i (Some v) None None [] :: ims) (i + 1) false key) ts.
Proof.
  intros Hv. rewrite run_member by done. unfold part_key. rewrite Halloc. keys.
  unfold part_value. cbn - [copy_string NAME_SIZE]. rewrite (text63_cstr v Hv). unfold copy_string. by rewrite (proj2 (Z.ltb_lt _ _)) by apply Hv.
Qed.

Lemma run_version im ims i key v ts :
  text63 v ->
  part_run alloc (at_key (im :: ims) i false key) (member (str "version") JSON_STRING v ++ ts)
  = part_run alloc (at_key (mkImage (im_index im) (im_name im) (Some v) (im_sector im) (im_boot_args im) :: ims) i false key) ts.
Proof.
  intros Hv. rewrite run_member by done. unfold part_key. keys.
  unfold part_value. cbn - [copy_string NAME_SIZE]. rewrite (text63_cstr v Hv). unfold copy_string. by rewrite (proj2 (Z.ltb_lt _ _)) by apply Hv.
Qed.

Lemma digits_cstr v : digits v -> cstr v = v.
Proof.
  intros H. apply cstr_plain. eapply Forall_impl; [done|]. intros c Hc. unfold isdigit in Hc. b2p. lia.
Qed.

Lemma run_sector im ims i key v ts :
  digits v -> (0 < length v)%nat -> dec_val v < 2 ^ 31 ->
  part_run alloc (at_key (im :: ims) i false key) (member (str "start_sector") JSON_NUMBER v ++ ts)
  = part_run alloc (at_key (mkImage (im_index im) (im_name im) (im_version im) (Some (dec_val v)) (im_boot_args im) :: ims)
                      i false key) ts.
Proof.
  intros Hv Hl Hb. rewrite run_member by done. unfold part_key. keys. unfold part_value. cbn - [atoi dec_val]. by rewrite (digits_cstr v Hv), atoi_value.
Qed.

Lemma run_args_start im ims i ba key v ts :
  part_run alloc (at_key (im :: ims) i ba key) (member (str "bootargs_start") JSON_NUMBER v ++ ts)
  = part_run alloc (at_key (im :: ims) i true key) ts.
Proof. rewrite run_member by done. unfold part_key. by keys. Qed.

Lemma run_args_end im ims i ba key v ts :
  part_run alloc (at_key (im :: ims) i ba key) (member (str "bootargs_end") JSON_NUMBER v ++ ts)
  = part_run alloc (at_key (im :: ims) i false key) ts.
Proof. rewrite run_member by done. unfold part_key. by keys. Qed.

Lemma key_plain ims i ba key k im :
  ~ In k reserved ->
  part_key alloc (at_key (im :: ims) i ba key) k
  = PNext (mkPart JSON_PARSE_STATE_SEPRATOR (im :: ims) i None ba (if ba then k else key)).
Proof.
  intros Hk. unfold part_key. cbn in Hk.
  rewrite !bool_decide_eq_false_2 by naive_solver. cbn. by destruct ba.
Qed.

Lemma run_arg im ims i key k v ts :
  is_arg k -> is_arg v -> ~ In k reserved -> (length (im_boot_args im) < BOOT_ARGS_MAX)%nat ->
  part_run alloc (at_key (im :: ims) i true key) (arg_tokens (k, v) ++ ts)
  = part_run alloc (at_key (add_arg im (arg_of (k, v)) :: ims) i true k) ts.
Proof.
  intros Hk Hv Hr Hl. unfold arg_tokens. rewrite <- app_assoc, run_member by done. cbn [fst snd].
  rewrite (cstr_plain k Hk), (cstr_plain v Hv), key_plain by done.
  cbn [ps_images ps_index ps_dest ps_boot_arg ps_key]. unfold part_value.
  cbn [ps_images ps_index ps_dest ps_boot_arg ps_key]. rewrite bool_decide_eq_true_2 by done.
  rewrite Halloc, (proj2 (Nat.ltb_lt _ _)) by done. cbn [negb app]. unfold comma. rewrite run_skip; [done|].
  by do 3 right; left.
Qed.

Lemma run_args args : forall im ims i key ts,
  Forall (fun a => is_arg a.1 /\ is_arg a.2 /\ ~ In a.1 reserved) args ->
  (length (im_boot_args im) + length args <= BOOT_ARGS_MAX)%nat ->
  exists key',
    part_run alloc (at_key (im :: ims) i true key) (concat (map arg_tokens args) ++ ts)
    = part_run alloc (at_key (mkImage (im_index im) (im_name im) (im_version im) (im_sector im)
                                (im_boot_args im ++ map arg_of args) :: ims) i true key') ts.
Proof.
  induction args as [|[k v] args IH]; intros im ims i key ts Ha Hl; cbn [map concat].
  - exists key. rewrite app_nil_r. by destruct im.
  - apply Forall_cons in Ha as [(H1 & H2 & H3) Ha]. cbn [length fst snd] in *.
    rewrite <- app_assoc, run_arg by (done || lia).
    destruct (IH (add_arg im (arg_of (k, v))) ims i k ts Ha) as [key' ->].
    + cbn [add_arg im_boot_args]. rewrite length_app. cbn [length]. lia.
    + exists key'. cbn [add_arg im_index im_name im_version im_sector im_boot_args]. by rewrite <- app_assoc.
Qed.

Lemma run_comma ims i ba key ts : part_run alloc (at_key ims i ba key) (comma :: ts) = part_run alloc (at_key ims i ba key) ts.
Proof. apply run_skip. by do 3 right; left. Qed.

Lemma run_image d ims i ba key ts :
  desc_ok d ->
  exists key', part_run alloc (at_key ims i ba key) (image_tokens d ++ ts)
    = part_run alloc (at_key (image_of i d :: ims) (i + 1) false key') ts.
Proof.
  intros (Hn & Hv & (Hs1 & Hs2 & Hs3) & Hl & Ha). unfold image_tokens.
  rewrite <- app_comm_cons, run_skip by (by left).
  rewrite <- app_assoc, run_name by done. cbn [app]. rewrite run_comma.
  rewrite <- app_assoc, run_version by done. cbn [app]. rewrite run_comma.
  rewrite <- app_assoc, run_sector by done. cbn [app]. rewrite run_comma.
  rewrite <- app_assoc, run_args_start. cbn [app]. rewrite run_comma.
  rewrite <- app_assoc. match goal with |- context [part_run alloc (mkPart _ (?im :: ?ims) ?i _ _ ?key) (_ ++ ?ts)] =>
    destruct (run_args (d_args d) im ims i key ts Ha) as [key' ->]; [cbn [im_boot_args length]; lia|] end.
  exists key'. rewrite <- app_assoc, run_args_end. cbn [app]. by rewrite run_skip by (by right; left).
Qed.

Lemma run_images ds : forall ims i ba key ts,
  Forall desc_ok ds ->
  exists key' ba', part_run alloc (at_key ims i ba key) (images_tokens ds ++ ts)
    = part_run alloc (at_key (rev (images_of i ds) ++ ims) (i + zlen ds) ba' key') ts
    /\ (ds <> [] -> ba' = false).
Proof.
  induction ds as [|d ds IH]; intros ims i ba key ts Hds.
  - exists key, ba. cbn. change (zlen (@nil image_desc)) with 0. by rewrite Z.add_0_r.
  - apply Forall_cons in Hds as [Hd Hds]. destruct ds as [|d' ds].
    + destruct (run_image d ims i ba key ts Hd) as [key' E]. exists key', false. cbn [images_tokens]. by rewrite E.
    + change (images_tokens (d :: d' :: ds)) with (image_tokens d ++ comma :: images_tokens (d' :: ds)).
      rewrite <- app_assoc. destruct (run_image d ims i ba key ((comma :: images_tokens (d' :: ds)) ++ ts) Hd) as [key1 ->].
      cbn [app]. rewrite run_comma.
      destruct (IH (image_of i d :: ims) (i + 1) false key1 ts Hds) as (key' & ba' & -> & Hb).
      exists key', ba'. split; [|intros _; by apply Hb]. rewrite (zlen_cons d).
      replace (i + (zlen (d' :: ds) + 1)) with (i + 1 + zlen (d' :: ds)) by lia.
      cbn [images_of rev]. by rewrite <- !app_assoc.
Qed.

Lemma run_tail tail : forall im ims i key ts,
  Forall (fun m => is_arg m.1 /\ ~ In m.1 reserved) tail ->
  part_run alloc (at_key (im :: ims) i false key) (tail_tokens tail ++ ts)
  = part_run alloc (at_key (im :: ims) i false key) ts.
Proof.
  induction tail as [|[k v] tail IH]; intros im ims i key ts Ht; [done|].
  apply Forall_cons in Ht as [[H1 H2] Ht]. cbn [tail_tokens map concat fst snd] in *.
  fold (tail_tokens tail). rewrite <- app_assoc, <- app_comm_cons, run_comma, run_member by done.
  rewrite (cstr_plain k H1), key_plain by done.
  cbn [ps_images ps_index ps_dest ps_boot_arg ps_key]. unfold part_value.
  rewrite bool_decide_eq_false_2, bool_decide_eq_true_2 by done.
  cbn [ps_images ps_index ps_dest ps_boot_arg ps_key]. by apply IH.
Qed.

Lemma part_run_file ds tail :
  ds <> [] -> Forall desc_ok ds -> Forall (fun m => is_arg m.1 /\ ~ In m.1 reserved) tail ->
  exists i key, part_run alloc part_init (part_tokens ds tail) = PNext (at_key (rev (images_of 0 ds)) i false key).
Proof.
  intros Hne Hds Ht. unfold part_tokens, part_init. rewrite run_skip by (by left).
  assert (E : forall ts, part_run alloc (at_key [] 0 false []) ((JSON_STRING, str "image") :: sep :: (JSON_BEGIN_ARRAY, [91]) :: ts)
              = part_run alloc (at_key [] 0 false []) ts) by done.
  rewrite E. destruct (run_images ds [] 0 false [] ((JSON_END_ARRAY, [93]) :: tail_tokens tail ++ [(JSON_END_OBJECT, [125])]) Hds)
    as (key & ba & -> & Hb). rewrite (Hb Hne), app_nil_r.
  rewrite run_skip by (by do 2 right; left).
  assert (Hr : exists im ims, rev (images_of 0 ds) = im :: ims).
  { destruct ds as [|d ds]; [done|]. cbn [images_of rev].
    destruct (rev (images_of (0 + 1) ds)) as [|im ims]; eexists _, _; reflexivity. }
  destruct Hr as (im & ims & Hr). rewrite Hr, run_tail by done. exists (0 + zlen ds), key.
  by rewrite run_skip by (by right; left).
Qed.
End Part.

Lemma image_tokens_end d : Forall (fun t => fst t <> JSON_END) (image_tokens d).
Proof.
  unfold image_tokens, member. cbn [app]. repeat (apply Forall_cons; split; [done|]).
  apply Forall_app. split; [|repeat constructor; done].
  induction (d_args d) as [|a args IH]; [done|]. cbn [map concat]. apply Forall_app. split; [repeat constructor; done|done].
Qed.

Lemma part_tokens_end ds tail : Forall (fun t => fst t <> JSON_END) (part_tokens ds tail).
Proof.
  unfold part_tokens. repeat (apply Forall_cons; split; [done|]). apply Forall_app. split; [|apply Forall_cons; split; [done|]].
  - induction ds as [|d ds IH]; [done|]. destruct ds as [|d' ds]; [apply image_tokens_end|].
    change (images_tokens (d :: d' :: ds)) with (image_tokens d ++ comma :: images_tokens (d' :: ds)).
    apply Forall_app. split; [apply image_tokens_end|]. apply Forall_cons. by split.
  - apply Forall_app. split; [|by repeat constructor].
    induction tail as [|m tail IH]; [done|]. cbn. repeat (apply Forall_cons; split; [done|]). exact IH.
Qed.

Lemma eof_ends p : fresh p -> exists p', json_tokenizer p EOF = Some (JSON_END, p').
Proof.
  intros [H1 H2]. unfold json_tokenizer. rewrite H2. cbn. unfold run_tokenizer. rewrite H1. cbn. by eexists.
Qed.

Lemma part_file_exact E d content ds tail p :
  env_good E -> d !! PART_FILE_PATH = Some content ->
  feed json_init content = Some (part_tokens ds tail, p) -> fresh p ->
  ds <> [] -> Forall desc_ok ds -> Forall (fun m => is_arg m.1 /\ ~ In m.1 reserved) tail ->
  runs E d ssbl_parse_part_file (Ret (Some (rev (images_of 0 ds)))) [].
Proof.
  intros HE Hd Hf Hp Hne Hds Ht. unfold ssbl_parse_part_file.
  eapply runs_pure; [by apply runs_alloc|]. cbn [negb]. eapply runs_pure; [apply runs_fopen_r|]. rewrite Hd.
  destruct (part_run_file (env_alloc E) (good_alloc E HE) ds tail Hne Hds Ht) as (i & key & Hr).
  intros l. cbv beta. rewrite (part_loop_feed _ _ _ _ _ _ _ Hf (part_tokens_end ds tail)), Hr.
  destruct (eof_ends p Hp) as [p' He]. cbn [part_loop]. rewrite He. cbn. apply runs_ret.
Qed.

(** Part.json is read as it describes the images.  When the file is the
    sequence of tokens of a list of images, in whatever layout, followed by
    other members with numbers, the parser returns the images, the last one
    first, each with its index in the file, name, version, start sector and
    boot arguments in the form key=value, and leaves the file system as it is. *)
Theorem part_file_parsed (E : env) (d : disk) (content : bytes) (ds : list image_desc) (tail : list (bytes * bytes)) p :
  env_good E -> d !! PART_FILE_PATH = Some content ->
  feed json_init content = Some (part_tokens ds tail, p) -> fresh p ->
  ds <> [] -> Forall desc_ok ds -> Forall (fun m => is_arg m.1 /\ ~ In m.1 reserved) tail ->
  runs E d ssbl_parse_part_file (Ret (Some (rev (images_of 0 ds)))) [].
Proof. intros. by eapply part_file_exact. Qed.

(** A file with two images, laid out with some white space. *)
Definition quoted (s : string) : bytes := 34 :: str s ++ [34].
Definition boot_part : bytes :=
  str "{ " ++ quoted "image" ++ str " : [ {" ++ quoted "name" ++ str ":" ++ quoted "a" ++ str ", " ++ quoted "version"
  ++ str ": " ++ quoted "1.0" ++ str "," ++ quoted "start_sector" ++ str " : 32," ++ quoted "bootargs_start" ++ str ":1,"
  ++ quoted "ssid" ++ str ":" ++ quoted "net" ++ str "," ++ quoted "bootargs_end" ++ str ":1 }, {"
  ++ quoted "name" ++ str ":" ++ quoted "b" ++ str ", " ++ quoted "version"
  ++ str ": " ++ quoted "2.0" ++ str "," ++ quoted "start_sector" ++ str " : 232," ++ quoted "bootargs_start" ++ str ":1,"
  ++ quoted "bootargs_end" ++ str ":1 }]," ++ quoted "timeout" ++ str ": 0 } ".

Definition sample_images : list image_desc :=
  [mkDesc (str "a") (str "1.0") (str "32") [(str "ssid", str "net")]; mkDesc (str "b") (str "2.0") (str "232") []].

Definition sample_parser : json_parser :=
  match feed json_init boot_part with Some (_, p) => p | None => json_init end.

Lemma sample_tokens : feed json_init boot_part = Some (part_tokens sample_images [(str "timeout", str "0")], sample_parser).
Proof. vm_compute. reflexivity. Qed.

Lemma sample_ok : Forall desc_ok sample_images.
Proof.
  repeat (apply Forall_cons; split); [| |done]; unfold desc_ok, text63;
    repeat split; try (apply (bool_decide_unpack _); by vm_compute); try (vm_compute; lia); done.
Qed.

Lemma part_file_parsed_witness :
  runs good_env {[ PART_FILE_PATH := boot_part ]} ssbl_parse_part_file (Ret (Some (rev (images_of 0 sample_images)))) [].
Proof.
  apply (part_file_parsed good_env {[ PART_FILE_PATH := boot_part ]} boot_part sample_images
           [(str "timeout", str "0")] sample_parser).
  - apply good_env_good.
  - apply lookup_singleton_eq.
  - apply sample_tokens.
  - vm_compute. done.
  - done.
  - apply sample_ok.
  - apply Forall_singleton. split; [apply (bool_decide_unpack _); by vm_compute|].
    cbn [fst]. unfold reserved. rewrite <- list_elem_of_In. apply (bool_decide_unpack _). by vm_compute.
Defined.

(** ** The sections *)

Section Sections.
Context (flash : Z -> Z).

Lemma read_section_loop_ok fuel : forall fa dp len ram,
  0 <= fa -> 0 <= len -> fa + len < 2 ^ 32 -> len <= SSBL_FLASH_SCTOR_SIZE * Z.of_nat fuel ->
  exists ram', read_section_loop flash fuel fa dp len ram = Some ram'
    /\ forall x, ram' x = overlay ram dp (cells flash fa len) x.
Proof.
  unfold SSBL_FLASH_SCTOR_SIZE.
  induction fuel as [|fuel IH]; intros fa dp len ram Hfa Hlen Hb Hf; cbn [read_section_loop];
    (destruct (Z.eqb_spec len 0) as [->|Hne];
     [exists ram; split; [done|]; intros x; rewrite overlay_out; [done|]; rewrite zlen_cells; lia|]); [lia|].
  unfold SSBL_FLASH_SCTOR_SIZE. set (chunk := if 4096 <? len then 4096 else len).
  assert (Hc : 0 < chunk <= len /\ (chunk = 4096 \/ chunk = len)) by (unfold chunk; case_if; lia).
  rewrite u32_small by lia.
  destruct (IH (fa + chunk) (dp + chunk) (len - chunk) (overlay ram dp (spi_mem_read flash fa chunk)))
    as (ram' & -> & Hr); [lia|lia|lia|lia|].
  exists ram'. split; [done|]. intros x. rewrite Hr. unfold spi_mem_read.
  replace (dp + chunk) with (dp + zlen (cells flash fa chunk)) by (rewrite zlen_cells; lia).
  rewrite overlay_app, <- cells_app by lia. by replace (chunk + (len - chunk)) with len by lia.
Qed.

Lemma read_section_ok fa addr len ram :
  0 <= fa -> 0 <= len -> fa + len < 2 ^ 32 ->
  exists ram', ssbl_read_section flash fa addr len ram = Some ram'
    /\ forall x, ram' x = if addr =? 0 then ram x else overlay ram addr (cells flash fa len) x.
Proof.
  intros Hfa Hl Hb. unfold ssbl_read_section. destruct (addr =? 0); [by exists ram|].
  apply read_section_loop_ok; [done|done|done|]. unfold SSBL_FLASH_SCTOR_SIZE.
  pose proof (Z.div_mod len 4096). pose proof (Z.mod_pos_bound len 4096). pose proof (Z.div_pos len 4096). lia.
Qed.

(** A section with its name. *)
Abbreviation section := (bytes * Elf32_Shdr)%type.

Definition is_loaded (s : section) : bool := loadable s.1 && negb (sh_addr s.2 =? 0).

(** The header fields make sense: nothing reaches the end of the address space. *)
Definition section_wf (fa : Z) (s : section) : Prop :=
  0 <= sh_offset s.2 /\ 0 <= sh_size s.2 /\ fa + sh_offset s.2 + sh_size s.2 < 2 ^ 32.

Definition size_of (s : section) : Z := if loadable s.1 then sh_size s.2 else 0.

Fixpoint total_size (secs : list section) : Z :=
  match secs with [] => 0 | s :: secs' => size_of s + total_size secs' end.

(** The headers found from an offset on. *)
Fixpoint sections_at (fa : Z) (names : bytes) (offset : Z) (secs : list section) : Prop :=
  match secs with
  | [] => True
  | s :: secs' => shdr_at flash (fa + offset) = s.2 /\ section_name names (sh_name s.2) = Some s.1
                  /\ sections_at fa names (offset + SIZEOF_SHDR) secs'
  end.

Definition section_data (fa : Z) (s : section) : bytes := cells flash (fa + sh_offset s.2) (sh_size s.2).

Definition place (fa : Z) (s : section) (ram : Z -> Z) : Z -> Z :=
  if is_loaded s then overlay ram (sh_addr s.2) (section_data fa s) else ram.

Fixpoint place_all (fa : Z) (secs : list section) (ram : Z -> Z) : Z -> Z :=
  match secs with [] => ram | s :: secs' => place_all fa secs' (place fa s ram) end.

Definition vm_of (fa : Z) (s : section) (vm : Z) : Z :=
  if negb (loadable s.1) && bool_decide (s.1 = str ".virt") then fa + sh_offset s.2 else vm.

Lemma place_all_ext fa secs : forall ram ram', (forall x, ram x = ram' x) -> forall x, place_all fa secs ram x = place_all fa secs ram' x.
Proof.
  induction secs as [|s secs IH]; intros ram ram' H x; [apply H|]. cbn. apply IH. intros y. unfold place.
  destruct (is_loaded s); [by apply overlay_ext|apply H].
Qed.

Lemma total_size_nonneg fa secs : Forall (section_wf fa) secs -> 0 <= total_size secs.
Proof.
  induction 1 as [|s secs (_ & Hs & _) H IH]; cbn; [lia|]. unfold size_of. case_if; lia.
Qed.

Lemma load_sections_ok fa names secs : forall offset app_size l,
  0 <= fa -> 0 <= offset -> fa + offset + SIZEOF_SHDR * zlen secs < 2 ^ 32 -> 0 <= app_size ->
  sections_at fa names offset secs -> Forall (section_wf fa) secs -> app_size + total_size secs < 0x3e000 ->
  exists l', load_sections flash fa names (length secs) offset app_size l = Some (inr l')
    /\ (forall x, l_ram l' x = place_all fa secs (l_ram l) x)
    /\ l_vm l' = fold_left (fun vm s => vm_of fa s vm) secs (l_vm l).
Proof.
  unfold SIZEOF_SHDR. induction secs as [|s secs IH]; intros offset app_size l Hfa Hoff Hb Ha Hsec Hwf Hsz;
    cbn [length load_sections]; [by exists l|].
  destruct Hsec as (H1 & H2 & H3). apply Forall_cons in Hwf as [(W1 & W2 & W3) Hwf].
  cbn [total_size] in Hsz. rewrite zlen_cons in Hb. pose proof (zlen_nonneg secs). pose proof (total_size_nonneg fa secs Hwf).
  rewrite (u32_small (fa + offset)), H1, H2 by lia. unfold SIZEOF_SHDR in *. rewrite (u32_small (offset + 40)) by lia.
  rewrite (u32_small (fa + sh_offset s.2)) by lia. cbn [place_all fold_left]. unfold place, is_loaded, vm_of, size_of in *.
  destruct (loadable s.1) eqn:El; cbn [andb negb].
  - rewrite (u32_small (app_size + sh_size s.2)), (proj2 (Z.leb_gt _ _)) by lia.
    destruct (read_section_ok (fa + sh_offset s.2) (sh_addr s.2) (sh_size s.2) (l_ram l)) as (ram & -> & Hr);
      [lia|lia|lia|].
    destruct (IH (offset + 40) (app_size + sh_size s.2) (mkLoaded ram (l_vm l) (l_entry l)))
      as (l' & -> & Hl & Hv); try done; try lia.
    exists l'. split; [done|]. split; [|done]. intros x. rewrite Hl. apply place_all_ext. intros y. cbn [l_ram].
    rewrite Hr. unfold section_data. by destruct (sh_addr s.2 =? 0).
  - case_bool_decide as Ev;
      match goal with |- context [load_sections _ _ _ _ _ _ ?m] =>
        destruct (IH (offset + 40) app_size m) as (l' & -> & Hl & Hv); try done; try lia end; by exists l'.
Qed.

(** Loaded sections do not overlap. *)
Definition disjoint (s t : section) : Prop :=
  is_loaded s = true -> is_loaded t = true ->
  sh_addr s.2 + sh_size s.2 <= sh_addr t.2 \/ sh_addr t.2 + sh_size t.2 <= sh_addr s.2.

Definition outside (s : section) (x : Z) : Prop :=
  is_loaded s = true -> x < sh_addr s.2 \/ sh_addr s.2 + sh_size s.2 <= x.

Lemma place_all_out fa secs : forall ram x,
  Forall (section_wf fa) secs -> Forall (fun s => outside s x) secs -> place_all fa secs ram x = ram x.
Proof.
  induction secs as [|s secs IH]; intros ram x Hwf Ho; [done|].
  apply Forall_cons in Hwf as [(W1 & W2 & W3) Hwf]. apply Forall_cons in Ho as [Hs Ho].
  cbn. rewrite IH by done. unfold place. destruct (is_loaded s) eqn:E; [|done].
  specialize (Hs E). apply overlay_out. unfold section_data. rewrite zlen_cells by done. lia.
Qed.

Lemma place_all_holds fa secs : forall ram,
  Forall (section_wf fa) secs -> ForallOrdPairs disjoint secs ->
  Forall (fun s => is_loaded s = true -> holds (place_all fa secs ram) (sh_addr s.2) (section_data fa s)) secs.
Proof.
  induction secs as [|s secs IH]; intros ram Hwf Hd; [done|].
  apply Forall_cons in Hwf as [(W1 & W2 & W3) Hwf]. inversion Hd as [|? ? Hs Hd']; subst.
  apply Forall_cons. split; [|apply IH; done]. intros E. cbn [place_all]. unfold place at 1. rewrite E.
  apply (holds_frame (overlay ram (sh_addr s.2) (section_data fa s))); [apply holds_overlay|].
  unfold section_data. rewrite zlen_cells by done. intros x Hx. apply place_all_out; [done|].
  eapply Forall_impl; [exact Hs|]. intros t Ht Et. destruct (Ht E Et); lia.
Qed.

(** An image that the loader accepts: a valid header at [fa], a table of names
    that fits, and the sections [secs]. *)
Record elf_at (fa : Z) (secs : list section) : Prop := {
  elf_addr : 0 <= fa;
  elf_header : elf_ok (ehdr_of (spi_mem_read flash fa SIZEOF_EHDR)) = true;
  elf_count : e_shnum (ehdr_of (spi_mem_read flash fa SIZEOF_EHDR)) = zlen secs;
  elf_names : exists sh,
    let h := ehdr_of (spi_mem_read flash fa SIZEOF_EHDR) in
    0 <= e_shoff h /\ 0 <= e_shstrndx h /\ fa + e_shoff h + SIZEOF_SHDR * (e_shstrndx h + zlen secs) < 2 ^ 32
    /\ shdr_at flash (fa + (e_shoff h + e_shstrndx h * SIZEOF_SHDR)) = sh
    /\ 0 <= sh_offset sh /\ fa + sh_offset sh < 2 ^ 32 /\ sh_size sh <= SSBL_SECTION_NAMES_SZE_MAX
    /\ sections_at fa (cells flash (fa + sh_offset sh) (sh_size sh)) (e_shoff h) secs;
  elf_wf : Forall (section_wf fa) secs;
  elf_size : total_size secs < 0x3e000;
  elf_disjoint : ForallOrdPairs disjoint secs;
}.

Lemma load_elf_exact fa secs l :
  elf_at fa secs ->
  exists l', ssbl_load_elf flash true fa l = Some (SSBL_SUCCESS, l')
    /\ l_entry l' = e_entry (ehdr_of (spi_mem_read flash fa SIZEOF_EHDR))
    /\ (forall x, l_ram l' x = place_all fa secs (l_ram l) x)
    /\ l_vm l' = fold_left (fun vm s => vm_of fa s vm) secs (l_vm l).
Proof.
  intros [Hfa Hh Hn (sh & H1 & H2 & H3 & H4 & H5 & H6 & H7 & H8) Hwf Hsz Hd].
  unfold ssbl_load_elf. cbn [negb]. rewrite Hh. cbn [negb]. set (h := ehdr_of _) in *.
  unfold SIZEOF_SHDR in *. pose proof (zlen_nonneg secs).
  rewrite (u32_small (e_shoff h + _)), (u32_small (fa + (e_shoff h + _))), H4 by lia.
  rewrite (proj2 (Z.ltb_ge _ _)), (u32_small (fa + sh_offset sh)) by lia. unfold spi_mem_read at 1.
  replace (Z.to_nat (e_shnum h)) with (length secs) by (rewrite Hn; unfold zlen; lia).
  destruct (load_sections_ok fa (cells flash (fa + sh_offset sh) (sh_size sh)) secs (e_shoff h) 0 l)
    as (l' & -> & Hr & Hv); try done; unfold SIZEOF_SHDR; try lia. by eexists.
Qed.

(** The loader places the image.  For a valid image whose loaded sections
    do not overlap and whose total size is below the limit, the loader succeeds,
    the entry point is that of the header, every loaded section is in memory at
    its address as it is in flash, and the rest of the memory is as before. *)
Theorem load_elf_places fa secs l :
  elf_at fa secs ->
  exists l', ssbl_load_elf flash true fa l = Some (SSBL_SUCCESS, l')
    /\ l_entry l' = e_entry (ehdr_of (spi_mem_read flash fa SIZEOF_EHDR))
    /\ Forall (fun s => is_loaded s = true -> holds (l_ram l') (sh_addr s.2) (section_data fa s)) secs
    /\ forall x, Forall (fun s => outside s x) secs -> l_ram l' x = l_ram l x.
Proof.
  intros He. destruct (load_elf_exact fa secs l He) as (l' & E & H1 & H2 & _). destruct He as [_ _ _ _ Hwf _ Hd].
  exists l'. split; [done|]. split; [done|]. split.
  - eapply Forall_impl; [by apply (place_all_holds fa secs (l_ram l))|]. intros s Hs El.
    apply (holds_frame (place_all fa secs (l_ram l))); [by apply Hs|]. intros x _. apply H2.
  - intros x Hx. rewrite H2. by apply place_all_out.
Qed.
End Sections.

(** An image of four sections in sector 32. *)
Definition le16_bytes (v : Z) : bytes := [u8 v; u8 (Z.shiftr v 8)].
Definition sample_shdr (name addr off size : Z) : bytes :=
  le32_bytes name ++ replicate 8 0 ++ le32_bytes addr ++ le32_bytes off ++ le32_bytes size ++ replicate 16 0.
Definition sample_elf : bytes :=
  [127; 69; 76; 70; 1; 1] ++ replicate 10 0 ++ le16_bytes 2 ++ le16_bytes 40 ++ le32_bytes 1 ++ le32_bytes 0x42001
  ++ le32_bytes 0 ++ le32_bytes 52 ++ le32_bytes 0 ++ le16_bytes 52 ++ le16_bytes 32 ++ le16_bytes 0 ++ le16_bytes 40
  ++ le16_bytes 4 ++ le16_bytes 3 ++ sample_shdr 0 0 0 0 ++ sample_shdr 1 0x42000 235 3 ++ sample_shdr 7 0x60000 238 2
  ++ sample_shdr 13 0 212 23 ++ [0] ++ str ".text" ++ [0] ++ str ".virt" ++ [0] ++ str ".shstrtab" ++ [0]
  ++ [1; 2; 3] ++ [4; 5].
Definition sample_flash (a : Z) : Z := if (a <? 131072) || (131072 + zlen sample_elf <=? a) then 255 else bget sample_elf (a - 131072).
Definition sample_sections : list (bytes * Elf32_Shdr) :=
  [([], mkShdr 0 0 0 0); (str ".text", mkShdr 1 0x42000 235 3); (str ".virt", mkShdr 7 0x60000 238 2);
   (str ".shstrtab", mkShdr 13 0 212 23)].

Lemma sample_elf_at : elf_at sample_flash 131072 sample_sections.
Proof.
  split.
  - done.
  - by vm_compute.
  - by vm_compute.
  - exists (mkShdr 13 0 212 23). vm_compute. repeat split; intros; discriminate.
  - repeat (apply Forall_cons; split; [vm_compute; repeat split; intros; discriminate|]). done.
  - by vm_compute.
  - repeat first [apply FOP_cons | apply FOP_nil | apply List.Forall_cons | apply List.Forall_nil];
      intros H1 H2; vm_compute in H1, H2; discriminate.
Qed.

Lemma load_elf_places_witness :
  exists l', ssbl_load_elf sample_flash true 131072 (mkLoaded (fun _ => 0) 0 0) = Some (SSBL_SUCCESS, l')
    /\ l_entry l' = e_entry (ehdr_of (spi_mem_read sample_flash 131072 SIZEOF_EHDR))
    /\ Forall (fun s => is_loaded s = true -> holds (l_ram l') (sh_addr s.2) (section_data sample_flash 131072 s))
         sample_sections
    /\ forall x, Forall (fun s => outside s x) sample_sections -> l_ram l' x = 0.
Proof. apply (load_elf_places sample_flash 131072 sample_sections (mkLoaded (fun _ => 0) 0 0)). apply sample_elf_at. Defined.

(** ** The boot *)

Lemma hex8_nonzero v : is_arg (hex8 v).
Proof.
  unfold hex8. cbn [map]. repeat (apply Forall_cons; split); try done;
    match goal with |- hexdigit (?a mod 16) <> 0 => pose proof (Z.mod_pos_bound a 16); unfold hexdigit; case_if; lia end.
Qed.

Lemma vm_arg_ok vm : is_arg (vm_arg vm) /\ zlen (vm_arg vm) = 28.
Proof.
  split.
  - apply Forall_app. split; [apply (bool_decide_unpack _); by vm_compute|apply hex8_nonzero].
  - unfold vm_arg. rewrite zlen_app. unfold zlen. by rewrite length_hex8.
Qed.

Lemma add_vm_pushed vm b args : args_pushed b args -> args_pushed (add_vm_arg vm b) (args ++ [vm_arg vm]).
Proof.
  intros (H1 & H2 & H3). destruct (vm_arg_ok vm) as [_ Hl]. unfold add_vm_arg.
  rewrite take_ge by (unfold zlen in Hl; lia).
  assert (Hz : zlen (vm_arg vm ++ [0]) = 29) by (rewrite zlen_app, Hl; done).
  split; [|split]; cbn [b_ram b_ptr b_argc].
  - rewrite rev_app_distr. cbn [rev app]. rewrite args_block_cons. apply holds_app. rewrite Hz. split; [apply holds_overlay|].
    replace (b_ptr b - 29 + 29) with (b_ptr b) by lia. apply holds_overlay_other; [done|lia].
  - rewrite H2, zlen_app. done.
  - rewrite zlen_args_app, zlen_args_cons, H3, Hl. change (zlen (args_block [])) with 0. lia.
Qed.

(** Memory below the strings does not matter to what is pushed. *)
Lemma args_pushed_frame b ram args :
  args_pushed b args -> (forall x, b_ptr b <= x < BOOT_ARG_TOP -> ram x = b_ram b x) ->
  args_pushed (mkBoot ram (b_ptr b) (b_argc b)) args.
Proof.
  intros (H1 & H2 & H3) Hf. split; [|done]. apply (holds_frame (b_ram b)); [done|]. rewrite zlen_args_rev.
  intros x Hx. cbn [b_ptr] in Hx. apply Hf. lia.
Qed.

Lemma find_image ds : forall i k d,
  ds !! k = Some d -> List.find (fun p => i + Z.of_nat k =? im_index p) (images_of i ds) = Some (image_of (i + Z.of_nat k) d).
Proof.
  induction ds as [|d0 ds IH]; intros i [|k] d Hd; simpl in Hd; try done.
  - injection Hd as ->. cbn. by rewrite Z.add_0_r, Z.eqb_refl.
  - cbn [images_of List.find image_of im_index]. destruct (Z.eqb_spec (i + Z.of_nat (S k)) i); [lia|].
    replace (i + Z.of_nat (S k)) with (i + 1 + Z.of_nat k) by lia. by apply IH.
Qed.

Lemma images_index i ds p : In p (images_of i ds) -> exists k d, ds !! k = Some d /\ p = image_of (i + Z.of_nat k) d.
Proof.
  revert i. induction ds as [|d ds IH]; intros i Hp; [done|]. destruct Hp as [<-|Hp].
  - exists 0%nat, d. by rewrite Z.add_0_r.
  - apply IH in Hp as (k & d' & Hd & ->). exists (S k), d'. split; [done|]. f_equal. lia.
Qed.

(** The list has the last image first: the search still finds the one. *)
Lemma find_image_rev ds k d :
  ds !! k = Some d -> List.find (fun p => Z.of_nat k =? im_index p) (rev (images_of 0 ds)) = Some (image_of (Z.of_nat k) d).
Proof.
  intros Hd. destruct (List.find _ (rev (images_of 0 ds))) as [p|] eqn:E.
  - apply List.find_some in E as [Hin Hp]. apply in_rev, images_index in Hin as (k' & d' & Hd' & ->).
    cbn in Hp. b2p. assert (k' = k) by lia. subst k'. rewrite Hd in Hd'. by injection Hd' as ->.
  - pose proof (find_image ds 0 k d Hd) as Hf. apply List.find_some in Hf as [Hin Hp].
    apply in_rev in Hin. apply (List.find_none _ _ E) in Hin.
    cbn [image_of im_index] in Hin. rewrite Z.add_0_l, Z.eqb_refl in Hin. done.
Qed.

(** The room the arguments and their vector take below the top of the memory. *)
Definition args_room (args : list bytes) : Z := zlen (args_block args) + 29 + 4 * (zlen args + 1) + 4.

(** A loaded section is below them. *)
Definition below_args (args : list bytes) (s : bytes * Elf32_Shdr) : Prop :=
  is_loaded s = true -> sh_addr s.2 + sh_size s.2 <= BOOT_ARG_TOP - args_room args.

Definition final_args (args : list bytes) (vm : Z) : list bytes := if vm =? 0 then args else args ++ [vm_arg vm].

(** The arguments are intact after loading, and the image after building them. *)
Lemma start_after_load flash fa secs args ram0 l' :
  let b := fold_left ssbl_add_boot_arg args (mkBoot ram0 BOOT_ARG_TOP 0) in
  Forall (section_wf fa) secs -> ForallOrdPairs disjoint secs ->
  Forall is_arg args -> args_room args <= BOOT_ARG_TOP -> Forall (below_args args) secs ->
  (forall x, l_ram l' x = place_all flash fa secs (b_ram b) x) ->
  let b1 := mkBoot (l_ram l') (b_ptr b) (b_argc b) in
  let b2 := if l_vm l' =? 0 then b1 else add_vm_arg (l_vm l') b1 in
  exists argv ram, start_image_args b2 = Some (argv, ram) /\ b_argc b2 = zlen (final_args args (l_vm l'))
    /\ argv_of ram argv (rev (final_args args (l_vm l')))
    /\ Forall (fun s => is_loaded s = true -> holds ram (sh_addr s.2) (section_data flash fa s)) secs.
Proof.
  intros b Hwf Hdis Hargs Hroom Hbelow Hram b1 b2. unfold args_room in Hroom.
  pose proof (zlen_nonneg args). pose proof (zlen_nonneg (args_block args)).
  assert (Hp : args_pushed b args).
  { apply (push_args _ args []). split; [apply holds_nil|]. split; [done|]. change (zlen (args_block [])) with 0. cbn. lia. }
  assert (Hp1 : args_pushed b1 args).
  { apply args_pushed_frame; [done|]. intros x Hx. rewrite Hram. apply place_all_out; [done|].
    destruct Hp as (_ & _ & Hptr). eapply Forall_impl; [done|]. intros s Hs Es. specialize (Hs Es). unfold args_room in Hs. lia. }
  assert (Hp2 : args_pushed b2 (final_args args (l_vm l'))).
  { unfold b2, final_args. destruct (l_vm l' =? 0); [done|by apply add_vm_pushed]. }
  assert (Hlow : forall x, x < b_ptr b - 29 -> b_ram b2 x = l_ram l' x).
  { intros x Hx. unfold b2. destruct (l_vm l' =? 0); [done|]. cbn. rewrite overlay_out; [done|]. lia. }
  assert (Hsz : zlen (args_block (final_args args (l_vm l'))) <= zlen (args_block args) + 29
                /\ zlen (final_args args (l_vm l')) <= zlen args + 1).
  { unfold final_args. destruct (l_vm l' =? 0); [lia|]. rewrite zlen_args_app, zlen_app, zlen_args_cons.
    destruct (vm_arg_ok (l_vm l')) as [_ ->]. change (zlen (args_block [])) with 0. change (zlen [_]) with 1. lia. }
  destruct (start_image_exact b2 _ Hp2) as (argv & ram & Hst & _ & Hv & _ & Hf).
  { unfold final_args. destruct (l_vm l' =? 0); [done|]. apply Forall_app. split; [done|].
    apply Forall_singleton. apply vm_arg_ok. }
  { lia. }
  destruct Hp as (_ & _ & Hptr). destruct Hp2 as (_ & Hc2 & Hptr2).
  exists argv, ram. split; [done|]. split; [done|]. split; [done|].
  assert (Hargv : BOOT_ARG_TOP - args_room args <= argv).
  { unfold start_image_args in Hst. destruct (ssbl_build_argv _ _ _ _); [|done]. injection Hst as <- _.
    destruct (align4 (b_ptr b2 - 4 * b_argc b2)) as (_ & L2 & _); [lia|]. unfold args_room. lia. }
  pose proof (place_all_holds flash fa secs (b_ram b) Hwf Hdis) as Hh.
  apply List.Forall_forall. intros s Hin Es. rewrite List.Forall_forall in Hh, Hbelow, Hwf.
  destruct (Hwf s Hin) as (W1 & W2 & W3). specialize (Hbelow s Hin Es). unfold args_room in *.
  apply (holds_frame (place_all flash fa secs (b_ram b))); [by apply Hh|]. unfold section_data. rewrite zlen_cells by done.
  intros x Hx. rewrite Hf, Hlow by lia. apply Hram.
Qed.

Lemma runs_sanity_clean E d : d !! DIRTY_BIT_FILE_PATH = None -> runs E d ssbl_sanity_check (Ret tt) [].
Proof.
  intros Hd. unfold ssbl_sanity_check, utils_is_file_present. eapply runs_pure.
  - eapply runs_pure; [apply runs_fopen_r|]. rewrite Hd. apply runs_ret.
  - apply runs_ret.
Qed.

Lemma args_are_args args :
  Forall (fun a => is_arg a.1 /\ is_arg a.2 /\ ~ In a.1 reserved) args -> Forall is_arg (map arg_of args).
Proof.
  intros H. apply Forall_fmap. eapply Forall_impl; [done|]. intros [k v] (H1 & H2 & _). cbn in *.
  apply Forall_app. split; [done|]. apply Forall_cons. split; [lia|done].
Qed.

(** C4: the device boots the image that boot.json selects.  On a clean file
    system, with a part.json that describes the images, the index of one of them
    in boot.json and a valid image in the sector given for it whose sections
    stay below the arguments, [main] hands over at the entry point of the image,
    with its boot arguments (and the place of its virtual memory, when it has
    any) as the argument vector, all loaded sections in memory, and without a
    change to the file system. *)
Theorem ssbl_boots (E : env) (d : disk) (flash ram0 : Z -> Z) (part boot : bytes) (ds : list image_desc)
    (tail : list (bytes * bytes)) (p : json_parser) (k : nat) (desc : image_desc) (secs : list (bytes * Elf32_Shdr)) :
  let fa := dec_val (d_sector desc) * SSBL_FLASH_SCTOR_SIZE in
  let args := map arg_of (d_args desc) in
  let vm := fold_left (fun vm s => vm_of fa s vm) secs 0 in
  env_good E -> d !! DIRTY_BIT_FILE_PATH = None ->
  d !! PART_FILE_PATH = Some part -> feed json_init part = Some (part_tokens ds tail, p) -> fresh p ->
  Forall desc_ok ds -> Forall (fun m => is_arg m.1 /\ ~ In m.1 reserved) tail ->
  d !! BOOT_FILE_PATH = Some boot -> boot_index_loop json_init JSON_PARSE_STATE_KEY boot = Some (Z.of_nat k) ->
  ds !! k = Some desc ->
  fa < 2 ^ 32 -> elf_at flash fa secs -> args_room args <= BOOT_ARG_TOP -> Forall (below_args args) secs ->
  exists s, runs E d (ssbl_main true flash ram0) (Ret s) []
    /\ s_entry s = e_entry (ehdr_of (spi_mem_read flash fa SIZEOF_EHDR))
    /\ s_argc s = zlen (final_args args vm) /\ argv_of (s_ram s) (s_argv s) (rev (final_args args vm))
    /\ Forall (fun sec => is_loaded sec = true -> holds (s_ram s) (sh_addr sec.2) (section_data flash fa sec)) secs.
Proof.
  intros fa args vm HE Hdirty Hpart Hfeed Hfresh Hds Htail Hboot Hidx Hk Hfa Helf Hroom Hbelow.
  assert (Hd : desc_ok desc) by (eapply Forall_lookup_1; done).
  assert (Hne : ds <> []) by (intros ->; by rewrite lookup_nil in Hk).
  destruct Hd as (_ & _ & _ & _ & Hargs). apply args_are_args in Hargs. fold args in Hargs.
  set (b := fold_left ssbl_add_boot_arg args (mkBoot ram0 BOOT_ARG_TOP 0)).
  destruct (load_elf_exact flash fa secs (mkLoaded (b_ram b) 0 0) Helf) as (l' & Hl & Hentry & Hram & Hvm).
  cbn [l_vm l_ram] in Hram, Hvm. fold vm in Hvm.
  destruct (start_after_load flash fa secs args ram0 l') as (argv & ram & Hst & Hc & Hv & Hsec);
    [apply Helf|apply Helf|done|done|done|done|].
  exists (mkStarted (l_entry l') (zlen (final_args args vm)) argv ram).
  split; [|split; [exact Hentry|split; [done|split; [by rewrite Hvm in Hv|exact Hsec]]]].
  unfold ssbl_main. cbn [negb]. eapply runs_pure; [by apply runs_sanity_clean|].
  eapply runs_pure; [by eapply part_file_exact|].
  eapply runs_pure; [eapply runs_boot_index; done|]. rewrite (proj2 (Z.ltb_ge _ _)) by lia.
  unfold ssbl_image_info_get. rewrite (find_image_rev ds k desc Hk). cbn [image_of im_boot_args im_sector].
  fold args b. intros lg. cbv beta. unfold default, id. fold fa. rewrite (good_alloc E HE), u32_small by (split; [apply Helf|done]). rewrite Hl.
  change (SSBL_SUCCESS <? 0) with false. cbn iota. fold b in Hst, Hc. cbv zeta. rewrite Hst, Hc, Hvm. apply runs_ret.
Qed.

(** The disk of a device with the two images, booting the first. *)
Definition boot_disk : disk :=
  {[ PART_FILE_PATH := boot_part; BOOT_FILE_PATH := str "{" ++ quoted "image" ++ str " : 0 }" ]}.

Lemma ssbl_boots_witness :
  exists s, runs good_env boot_disk (ssbl_main true sample_flash (fun _ => 0)) (Ret s) []
    /\ s_entry s = e_entry (ehdr_of (spi_mem_read sample_flash 131072 SIZEOF_EHDR))
    /\ s_argc s = 2
    /\ argv_of (s_ram s) (s_argv s) [vm_arg (131072 + 238); str "ssid=net"]
    /\ Forall (fun sec => is_loaded sec = true ->
                  holds (s_ram s) (sh_addr sec.2) (section_data sample_flash 131072 sec)) sample_sections.
Proof.
  apply (ssbl_boots good_env boot_disk sample_flash (fun _ => 0) boot_part (str "{" ++ quoted "image" ++ str " : 0 }")
           sample_images [(str "timeout", str "0")] sample_parser 0
           (mkDesc (str "a") (str "1.0") (str "32") [(str "ssid", str "net")]) sample_sections).
  - apply good_env_good.
  - apply (bool_decide_unpack _). by vm_compute.
  - apply (bool_decide_unpack _). by vm_compute.
  - apply sample_tokens.
  - vm_compute. done.
  - apply sample_ok.
  - apply Forall_singleton. split; [apply (bool_decide_unpack _); by vm_compute|].
    cbn [fst]. unfold reserved. rewrite <- list_elem_of_In. apply (bool_decide_unpack _). by vm_compute.
  - apply (bool_decide_unpack _). by vm_compute.
  - by vm_compute.
  - done.
  - done.
  - apply sample_elf_at.
  - by vm_compute.
  - repeat (apply Forall_cons; split; [vm_compute; intros; discriminate|]). done.
Defined.
