(* ===== verification/Lookup3.v ===== *)
(** * The hash of the JSON keys (components/json/jansson/src/lookup3.h)

    [hashlittle] reads the key in 32-bit, 16-bit or 8-bit pieces, by the
    alignment of its address and the byte order the preprocessor found; the
    last block of the 32-bit variant reads past the key and masks.  All three
    compute the hash of the bytes of the key alone ([hash_ref]), so that a key
    is found again wherever its text lies, and [mix] loses nothing, as its
    comment says.  The variant for memory checkers (NO_MASKING_TRICK) is not
    part of the firmware. *)

From S2P Require Import Prelude.

Definition hashsize (n : Z) : Z := u32 (Z.shiftl 1 n).
Definition hashmask (n : Z) : Z := u32 (hashsize n - 1).

Definition rot (x k : Z) : Z := Z.lor (u32 (Z.shiftl x k)) (Z.shiftr x (32 - k)).

(** ** [mix] and [final] *)

Abbreviation triple := (Z * Z * Z)%type.

(** One line of [mix], [x -= z; x ^= rot(z, k); z += y]: the new [x] and [z]. *)
Definition mix_line (k x y z : Z) : Z * Z := (Z.lxor (u32 (x - z)) (rot z k), u32 (z + y)).

Definition mix (s : triple) : triple :=
  let '(a, b, c) := s in
  let '(a, c) := mix_line 4 a b c in
  let '(b, a) := mix_line 6 b c a in
  let '(c, b) := mix_line 8 c a b in
  let '(a, c) := mix_line 16 a b c in
  let '(b, a) := mix_line 19 b c a in
  let '(c, b) := mix_line 4 c a b in
  (a, b, c).

(** One line of [final], [x ^= y; x -= rot(y, k)]. *)
Definition final_line (k x y : Z) : Z := u32 (Z.lxor x y - rot y k).

Definition final (s : triple) : triple :=
  let '(a, b, c) := s in
  let c := final_line 14 c b in
  let a := final_line 11 a c in
  let b := final_line 25 b a in
  let c := final_line 16 c b in
  let a := final_line 4 a c in
  let b := final_line 14 b a in
  let c := final_line 24 c b in
  (a, b, c).

(** ** The key in memory *)

Section memory.
Context (m : Z -> Z).

Definition k8 (p i : Z) : Z := u8 (m (p + i)).
Definition k16 (p i : Z) : Z := k8 p (2 * i) + Z.shiftl (k8 p (2 * i + 1)) 8.
Definition k32 (p i : Z) : Z := k16 p (2 * i) + Z.shiftl (k16 p (2 * i + 1)) 16.

(** [x += v] of a [uint32_t]. *)
Definition plus32 (x v : Z) : Z := u32 (x + v).

(** *** 32-bit chunks *)

Definition block32 (p : Z) (s : triple) : triple :=
  let '(a, b, c) := s in (plus32 a (k32 p 0), plus32 b (k32 p 1), plus32 c (k32 p 2)).

(** [None]: the hash is [c] as it is. *)
Definition tail32 (p length : Z) (s : triple) : option triple :=
  let '(a, b, c) := s in
  match length with
  | 12 => Some (plus32 a (k32 p 0), plus32 b (k32 p 1), plus32 c (k32 p 2))
  | 11 => Some (plus32 a (k32 p 0), plus32 b (k32 p 1), plus32 c (Z.land (k32 p 2) 0xffffff))
  | 10 => Some (plus32 a (k32 p 0), plus32 b (k32 p 1), plus32 c (Z.land (k32 p 2) 0xffff))
  | 9 => Some (plus32 a (k32 p 0), plus32 b (k32 p 1), plus32 c (Z.land (k32 p 2) 0xff))
  | 8 => Some (plus32 a (k32 p 0), plus32 b (k32 p 1), c)
  | 7 => Some (plus32 a (k32 p 0), plus32 b (Z.land (k32 p 1) 0xffffff), c)
  | 6 => Some (plus32 a (k32 p 0), plus32 b (Z.land (k32 p 1) 0xffff), c)
  | 5 => Some (plus32 a (k32 p 0), plus32 b (Z.land (k32 p 1) 0xff), c)
  | 4 => Some (plus32 a (k32 p 0), b, c)
  | 3 => Some (plus32 a (Z.land (k32 p 0) 0xffffff), b, c)
  | 2 => Some (plus32 a (Z.land (k32 p 0) 0xffff), b, c)
  | 1 => Some (plus32 a (Z.land (k32 p 0) 0xff), b, c)
  | _ => None
  end.

(** *** 16-bit chunks *)

Definition pair16 (p i : Z) : Z := k16 p i + Z.shiftl (k16 p (i + 1)) 16.

Definition block16 (p : Z) (s : triple) : triple :=
  let '(a, b, c) := s in (plus32 a (pair16 p 0), plus32 b (pair16 p 2), plus32 c (pair16 p 4)).

Definition tail16 (p length : Z) (s : triple) : option triple :=
  let '(a, b, c) := s in
  let high i := Z.shiftl (k8 p i) 16 in
  match length with
  | 12 => Some (plus32 a (pair16 p 0), plus32 b (pair16 p 2), plus32 c (pair16 p 4))
  | 11 => Some (plus32 a (pair16 p 0), plus32 b (pair16 p 2), plus32 (plus32 c (high 10)) (k16 p 4))
  | 10 => Some (plus32 a (pair16 p 0), plus32 b (pair16 p 2), plus32 c (k16 p 4))
  | 9 => Some (plus32 a (pair16 p 0), plus32 b (pair16 p 2), plus32 c (k8 p 8))
  | 8 => Some (plus32 a (pair16 p 0), plus32 b (pair16 p 2), c)
  | 7 => Some (plus32 a (pair16 p 0), plus32 (plus32 b (high 6)) (k16 p 2), c)
  | 6 => Some (plus32 a (pair16 p 0), plus32 b (k16 p 2), c)
  | 5 => Some (plus32 a (pair16 p 0), plus32 b (k8 p 4), c)
  | 4 => Some (plus32 a (pair16 p 0), b, c)
  | 3 => Some (plus32 (plus32 a (high 2)) (k16 p 0), b, c)
  | 2 => Some (plus32 a (k16 p 0), b, c)
  | 1 => Some (plus32 a (k8 p 0), b, c)
  | _ => None
  end.

(** *** Bytes *)

Definition add8 (p i : Z) (x : Z) : Z :=
  plus32 (plus32 (plus32 (plus32 x (k8 p i)) (Z.shiftl (k8 p (i + 1)) 8)) (Z.shiftl (k8 p (i + 2)) 16))
    (Z.shiftl (k8 p (i + 3)) 24).

Definition block8 (p : Z) (s : triple) : triple :=
  let '(a, b, c) := s in (add8 p 0 a, add8 p 4 b, add8 p 8 c).

(** The cases fall through: the bytes from [i + length - 1] down to [i], for
    the word that starts at [i]. *)
Definition tail_word (p i length x : Z) : Z :=
  let x := if i + 4 <=? length then plus32 x (Z.shiftl (k8 p (i + 3)) 24) else x in
  let x := if i + 3 <=? length then plus32 x (Z.shiftl (k8 p (i + 2)) 16) else x in
  let x := if i + 2 <=? length then plus32 x (Z.shiftl (k8 p (i + 1)) 8) else x in
  if i + 1 <=? length then plus32 x (k8 p i) else x.

Definition tail8 (p length : Z) (s : triple) : option triple :=
  let '(a, b, c) := s in
  if length =? 0 then None
  else Some (tail_word p 0 length a, tail_word p 4 length b, tail_word p 8 length c).

(** *** The loop and the end, for one of the variants *)

Fixpoint hash_blocks (fuel : nat) (block : Z -> triple -> triple) (p length : Z) (s : triple) : Z * Z * triple :=
  match fuel with
  | O => (p, length, s)
  | S fuel =>
      if 12 <? length then hash_blocks fuel block (p + 12) (length - 12) (mix (block p s))
      else (p, length, s)
  end.

Definition hash_end (t : option triple) (s : triple) : Z :=
  match t with
  | None => s.2
  | Some s' => (final s').2
  end.

Definition hash_variant (block : Z -> triple -> triple) (tail : Z -> Z -> triple -> option triple)
    (key length : Z) (s : triple) : Z :=
  let '(p, length, s) := hash_blocks (Z.to_nat length) block key length s in
  hash_end (tail p length s) s.

(** [little]: HASH_LITTLE_ENDIAN. *)
Definition hashlittle (little : bool) (key length initval : Z) : Z :=
  let x := u32 (0xdeadbeef + u32 length + initval) in
  if little && (Z.land key 3 =? 0) then hash_variant block32 tail32 key length (x, x, x)
  else if little && (Z.land key 1 =? 0) then hash_variant block16 tail16 key length (x, x, x)
  else hash_variant block8 tail8 key length (x, x, x).

End memory.

(** ** The hash of a byte string *)

Definition ref_block (l : bytes) (s : triple) : triple :=
  let '(a, b, c) := s in
  (plus32 a (le_value (take 4 l)), plus32 b (le_value (take 4 (drop 4 l))), plus32 c (le_value (take 4 (drop 8 l)))).

Fixpoint ref_blocks (fuel : nat) (l : bytes) (s : triple) : Z :=
  match fuel with
  | O => 0
  | S fuel =>
      if 12 <? zlen l then ref_blocks fuel (drop 12 l) (mix (ref_block l s))
      else if zlen l =? 0 then s.2 else (final (ref_block l s)).2
  end.

Definition hash_ref (l : bytes) (initval : Z) : Z :=
  let x := u32 (0xdeadbeef + u32 (zlen l) + initval) in ref_blocks (S (length l)) l (x, x, x).

(** ** Words *)

Definition words (s : triple) : Prop := let '(a, b, c) := s in word a /\ word b /\ word c.

Lemma word_u32 x : word (u32 x).
Proof. apply u32_range. Qed.

Lemma word_lxor x y : word x -> word y -> word (Z.lxor x y).
Proof.
  unfold word. intros Hx Hy. split; [apply Z.lxor_nonneg; lia|].
  destruct (decide (Z.lxor x y = 0)) as [->|Hn]; [lia|].
  apply Z.log2_lt_pow2; [pose proof (proj2 (Z.lxor_nonneg x y)); lia|].
  apply Z.le_lt_trans with (Z.max (Z.log2 x) (Z.log2 y)); [apply Z.log2_lxor; lia|].
  destruct (decide (x = 0)) as [->|], (decide (y = 0)) as [->|]; simpl; try lia;
    rewrite ?Z.max_lub_lt_iff; try split; try (apply Z.log2_lt_pow2; lia); try lia;
    try (apply Z.max_lub_lt; first [lia|apply Z.log2_lt_pow2; lia]).
Qed.

Lemma word_lor x y : word x -> word y -> word (Z.lor x y).
Proof.
  unfold word. intros Hx Hy. split; [apply Z.lor_nonneg; lia|].
  apply Z.lt_le_trans with (2 ^ 32); [|lia].
  destruct (decide (Z.lor x y = 0)) as [->|Hn]; [lia|].
  pose proof (proj2 (Z.lor_nonneg x y)).
  apply Z.log2_lt_pow2; [lia|]. rewrite Z.log2_lor by lia.
  apply Z.max_lub_lt; [destruct (decide (x = 0)) as [->|]|destruct (decide (y = 0)) as [->|]];
    first [simpl; lia|apply Z.log2_lt_pow2; lia].
Qed.

Lemma word_rot x k : word x -> 0 <= k <= 32 -> word (rot x k).
Proof.
  intros Hx Hk. apply word_lor; [apply word_u32|]. unfold word in *. rewrite Z.shiftr_div_pow2 by lia.
  split; [apply Z.div_pos; lia|]. apply Z.le_lt_trans with x; [|lia]. apply Z.div_le_upper_bound; [lia|]. nia.
Qed.

#[export] Hint Resolve word_u32 word_lxor word_rot : t2.

Ltac words_step := match goal with |- word (Z.lxor _ _) => apply word_lxor | |- word (rot _ _) => apply word_rot | |- _ => apply word_u32 end.

Lemma mix_line_words k x y z : word x -> word z -> 0 <= k <= 32 ->
  word (mix_line k x y z).1 /\ word (mix_line k x y z).2.
Proof. intros. simpl. auto 6 with t2. Qed.

Lemma mix_words s : words s -> words (mix s).
Proof.
  destruct s as [[a b] c]. intros (Ha & Hb & Hc). unfold mix.
  repeat match goal with |- context [mix_line ?k ?x ?y ?z] =>
    let Hw := fresh in pose proof (mix_line_words k x y z) as Hw; destruct (mix_line k x y z) as [? ?]; simpl in Hw;
    destruct Hw as [? ?]; [assumption|assumption|lia|] end.
  done.
Qed.

(** ** [mix] is reversible *)

Definition unmix_line (k x y z : Z) : Z * Z :=
  let z := u32 (z - y) in (u32 (Z.lxor x (rot z k) + z), z).

Definition unmix (s : triple) : triple :=
  let '(a, b, c) := s in
  let '(c, b) := unmix_line 4 c a b in
  let '(b, a) := unmix_line 19 b c a in
  let '(a, c) := unmix_line 16 a b c in
  let '(c, b) := unmix_line 8 c a b in
  let '(b, a) := unmix_line 6 b c a in
  let '(a, c) := unmix_line 4 a b c in
  (a, b, c).

Lemma u32_sub_l x y : u32 (u32 x - y) = u32 (x - y).
Proof. unfold u32. by rewrite Zminus_mod_idemp_l. Qed.

Lemma unmix_mix_line k x y z : word x -> word z ->
  unmix_line k (mix_line k x y z).1 y (mix_line k x y z).2 = (x, z).
Proof.
  intros Hx Hz. unfold unmix_line, mix_line. cbn [fst snd].
  rewrite u32_sub_l, Z.add_simpl_r, (u32_small z) by done.
  rewrite Z.lxor_assoc, Z.lxor_nilpotent, Z.lxor_0_r, u32_add_l, Z.sub_add, u32_small by done. done.
Qed.

(** Mixing the internal state loses nothing: the three words before [mix]
    are recovered from the three words after it. *)
Theorem mix_reversible s : words s -> unmix (mix s) = s.
Proof.
  destruct s as [[a b] c]. intros (Ha & Hb & Hc). unfold mix.
  repeat match goal with |- context [mix_line ?k ?x ?y ?z] =>
    let Hw := fresh "Hw" in let Hu := fresh "Hu" in
    pose proof (mix_line_words k x y z) as Hw; pose proof (unmix_mix_line k x y z) as Hu;
    destruct (mix_line k x y z) as [? ?]; cbn [fst snd] in Hw, Hu;
    destruct Hw as [? ?]; [assumption|assumption|lia|]; specialize (Hu ltac:(assumption) ltac:(assumption)) end.
  unfold unmix. by repeat match goal with H : unmix_line _ _ _ _ = _ |- _ => rewrite H; clear H end.
Qed.

(** ** The variants *)

Section variants.
Context (m : Z -> Z).

Definition key_bytes (p n : Z) : bytes := cells (k8 m p) 0 n.

Lemma plus32_plus32 x u v : plus32 (plus32 x u) v = plus32 x (u + v).
Proof. unfold plus32. by rewrite u32_add_l, Z.add_assoc. Qed.

Lemma plus32_0 x : word x -> plus32 x 0 = x.
Proof. intros. unfold plus32. rewrite Z.add_0_r. by apply u32_small. Qed.

Lemma plus32_word x v : word (plus32 x v).
Proof. apply word_u32. Qed.

Lemma k8_range p i : 0 <= k8 m p i < 256.
Proof. apply u8_byte. Qed.

Lemma land_mask x : Z.land x 0xff = x mod 256 /\ Z.land x 0xffff = x mod 65536 /\ Z.land x 0xffffff = x mod 16777216.
Proof. repeat split; [apply (Z.land_ones x 8)|apply (Z.land_ones x 16)|apply (Z.land_ones x 24)]; lia. Qed.

(** The first word of the bytes at [p + i], of which [n] belong to the key. *)
Definition part (p i n : Z) : Z :=
  (if 1 <=? n then k8 m p i else 0) + 256 * (if 2 <=? n then k8 m p (i + 1) else 0)
  + 65536 * (if 3 <=? n then k8 m p (i + 2) else 0) + 16777216 * (if 4 <=? n then k8 m p (i + 3) else 0).

Lemma k16_value p i : k16 m p i = k8 m p (2 * i) + 256 * k8 m p (2 * i + 1).
Proof. unfold k16. rewrite Z.shiftl_mul_pow2 by lia. lia. Qed.

Lemma k32_value p i : k32 m p i = part p (4 * i) 4.
Proof.
  unfold k32, part. rewrite !k16_value, Z.shiftl_mul_pow2 by lia. simpl.
  replace (2 * (2 * i + 1)) with (4 * i + 2) by lia. replace (2 * (2 * i)) with (4 * i) by lia.
  replace (4 * i + 2 + 1) with (4 * i + 3) by lia. lia.
Qed.

Lemma part_masked p i : Z.land (part p i 4) 0xffffff = part p i 3 /\ Z.land (part p i 4) 0xffff = part p i 2
  /\ Z.land (part p i 4) 0xff = part p i 1.
Proof.
  destruct (land_mask (part p i 4)) as (-> & -> & ->). unfold part. simpl.
  pose proof (k8_range p i). pose proof (k8_range p (i + 1)). pose proof (k8_range p (i + 2)).
  repeat split; Z.div_mod_to_equations; lia.
Qed.

Lemma pair16_value p i : pair16 m p (2 * i) = part p (4 * i) 4.
Proof. rewrite <- k32_value. done. Qed.

Lemma le_value_part p i n :
  0 <= i -> i <= n -> le_value (take 4 (drop (Z.to_nat i) (key_bytes p n))) = part p i (n - i).
Proof.
  intros Hi Hn. unfold key_bytes. replace n with (i + (n - i)) at 1 by lia. rewrite cells_app by lia.
  rewrite drop_app_length' by (rewrite length_cells; lia). rewrite Z.add_0_l. remember (n - i) as r eqn:Er.
  assert (Hr : 0 <= r) by lia. clear Hn Er. unfold part.
  assert (Hstep : forall a r, 1 <= r -> cells (k8 m p) a r = k8 m p a :: cells (k8 m p) (a + 1) (r - 1)).
  { intros a q Hq. replace q with (1 + (q - 1)) at 1 by lia. rewrite cells_app by lia. by rewrite cells_1. }
  assert (Hnil : forall a, cells (k8 m p) a 0 = []) by done.
  destruct (decide (r = 0)) as [->|]; [by rewrite Hnil|].
  rewrite Hstep by lia. destruct (decide (r = 1)) as [->|]; [rewrite Hnil; simpl; lia|].
  rewrite Hstep by lia. destruct (decide (r = 2)) as [->|]; [rewrite Hnil; simpl; lia|].
  rewrite Hstep by lia. destruct (decide (r = 3)) as [->|]; [rewrite Hnil; simpl; replace (i + 1 + 1) with (i + 2) by lia; lia|].
  rewrite Hstep by lia. cbn [take]. rewrite take_0. cbn [le_value].
  rewrite !(proj2 (Z.leb_le _ _)) by lia.
  replace (i + 1 + 1) with (i + 2) by lia. replace (i + 2 + 1) with (i + 3) by lia. lia.
Qed.

Lemma ref_block_parts p n a b c : 0 <= n -> words (a, b, c) ->
  ref_block (key_bytes p n) (a, b, c)
  = (plus32 a (part p 0 n), if 4 <? n then plus32 b (part p 4 (n - 4)) else b,
     if 8 <? n then plus32 c (part p 8 (n - 8)) else c).
Proof.
  intros Hn (Ha & Hb & Hc). unfold ref_block.
  assert (H0 := le_value_part p 0 n ltac:(lia) ltac:(lia)). change (drop (Z.to_nat 0) (key_bytes p n)) with (key_bytes p n) in H0.
  rewrite Z.sub_0_r in H0. rewrite H0.
  assert (Hw : forall i x, 0 <= i -> word x -> plus32 x (le_value (take 4 (drop (Z.to_nat i) (key_bytes p n))))
    = if i <? n then plus32 x (part p i (n - i)) else x).
  { intros i x Hi Hx. case_if; [by rewrite le_value_part by lia|].
    rewrite drop_ge by (unfold key_bytes; rewrite length_cells; lia). by apply plus32_0. }
  pose proof (Hw 4 b ltac:(lia) Hb) as H4. pose proof (Hw 8 c ltac:(lia) Hc) as H8.
  change (Z.to_nat 4) with 4%nat in H4. change (Z.to_nat 8) with 8%nat in H8. by rewrite H4, H8.
Qed.

Lemma part_ge p i n : 4 <= n -> part p i n = part p i 4.
Proof. intros. unfold part. by rewrite !(proj2 (Z.leb_le _ _)) by lia. Qed.

(** What a variant has to do. *)
Class Variant (block : Z -> triple -> triple) (tail : Z -> Z -> triple -> option triple) : Prop := {
  variant_block : forall p s, words s -> block p s = ref_block (key_bytes p 12) s;
  variant_tail : forall p n s, 0 <= n <= 12 -> words s ->
    tail p n s = if n =? 0 then None else Some (ref_block (key_bytes p n) s)
}.

Lemma short_cases (P : Z -> Prop) :
  P 0 -> P 1 -> P 2 -> P 3 -> P 4 -> P 5 -> P 6 -> P 7 -> P 8 -> P 9 -> P 10 -> P 11 -> P 12 ->
  forall n, 0 <= n <= 12 -> P n.
Proof.
  intros. destruct (Z_of_nat_complete n) as [k ->]; [lia|]. do 13 (destruct k as [|k]; [done|]). lia.
Qed.

Lemma part_bytes p i : part p i 1 = k8 m p i /\ part p i 2 = k8 m p i + 256 * k8 m p (i + 1)
  /\ part p i 3 = k8 m p i + 256 * k8 m p (i + 1) + 65536 * k8 m p (i + 2).
Proof. unfold part. simpl. repeat split; lia. Qed.

(** Differences, sums and products of literals, evaluated. *)
Ltac literals :=
  repeat match goal with
  | |- context [Z.sub (Zpos ?x) (Zpos ?y)] => let v := eval vm_compute in (Z.sub (Zpos x) (Zpos y)) in change (Z.sub (Zpos x) (Zpos y)) with v
  | |- context [Z.mul (Zpos ?x) (Zpos ?y)] => let v := eval vm_compute in (Z.mul (Zpos x) (Zpos y)) in change (Z.mul (Zpos x) (Zpos y)) with v
  | |- context [Z.add (Zpos ?x) (Zpos ?y)] => let v := eval vm_compute in (Z.add (Zpos x) (Zpos y)) in change (Z.add (Zpos x) (Zpos y)) with v
  | |- context [Z.mul (Zpos ?x) 0] => change (Z.mul (Zpos x) 0) with 0
  | |- context [Z.add 0 (Zpos ?x)] => change (Z.add 0 (Zpos x)) with (Zpos x)
  end.

Ltac whole_words p := rewrite ?(part_ge p 0) by lia; rewrite ?(part_ge p 4) by lia.

#[global] Instance variant32 : Variant (block32 m) (tail32 m).
Proof.
  split.
  - intros p [[a b] c] Hs. rewrite ref_block_parts by (done || lia). unfold block32. rewrite !k32_value.
    cbn -[plus32 part]. literals. whole_words p. done.
  - intros p n [[a b] c] Hn Hs. rewrite ref_block_parts by (done || lia). revert n Hn.
    destruct (part_masked p 0) as (M0 & M1 & M2), (part_masked p 4) as (M3 & M4 & M5), (part_masked p 8) as (M6 & M7 & M8).
    apply short_cases; cbn -[plus32 part k32]; rewrite ?k32_value; literals; whole_words p;
      by rewrite ?M0, ?M1, ?M2, ?M3, ?M4, ?M5, ?M6, ?M7, ?M8.
Qed.

#[global] Instance variant16 : Variant (block16 m) (tail16 m).
Proof.
  assert (Hp : forall p, pair16 m p 0 = part p 0 4 /\ pair16 m p 2 = part p 4 4 /\ pair16 m p 4 = part p 8 4)
    by (intros p; repeat split; [apply (pair16_value p 0)|apply (pair16_value p 1)|apply (pair16_value p 2)]).
  split; intros p.
  - intros [[a b] c] Hs. rewrite ref_block_parts by (done || lia). unfold block16. destruct (Hp p) as (-> & -> & ->).
    cbn -[plus32 part]. literals. whole_words p. done.
  - intros n [[a b] c] Hn Hs. rewrite ref_block_parts by (done || lia). destruct (Hp p) as (P0 & P1 & P2). revert n Hn.
    destruct (part_bytes p 0) as (M0 & M1 & M2), (part_bytes p 4) as (M3 & M4 & M5), (part_bytes p 8) as (M6 & M7 & M8).
    apply short_cases; cbn -[plus32 part k16 k8 pair16 Z.shiftl]; rewrite ?P0, ?P1, ?P2; literals; whole_words p;
      rewrite ?M0, ?M1, ?M2, ?M3, ?M4, ?M5, ?M6, ?M7, ?M8, ?plus32_plus32, ?k16_value, ?Z.shiftl_mul_pow2 by lia; literals; try done;
      repeat match goal with |- Some _ = Some _ => f_equal | |- (_, _) = (_, _) => f_equal | |- plus32 _ _ = plus32 _ _ => f_equal end;
      lia.
Qed.

Lemma tail_word_part p i n x : word x ->
  tail_word m p i n x = if i <? n then plus32 x (part p i (n - i)) else x.
Proof.
  intros Hx. unfold tail_word, part.
  destruct (Z.leb_spec (i + 4) n), (Z.leb_spec (i + 3) n), (Z.leb_spec (i + 2) n), (Z.leb_spec (i + 1) n),
    (Z.leb_spec 1 (n - i)), (Z.leb_spec 2 (n - i)), (Z.leb_spec 3 (n - i)), (Z.leb_spec 4 (n - i)),
    (Z.ltb_spec i n); try lia; rewrite ?plus32_plus32, ?Z.shiftl_mul_pow2 by lia; try done; f_equal; lia.
Qed.

Lemma add8_part p i x : add8 m p i x = plus32 x (part p i 4).
Proof.
  unfold add8, part. rewrite !plus32_plus32, !Z.shiftl_mul_pow2 by lia. simpl. f_equal. lia.
Qed.

#[global] Instance variant8 : Variant (block8 m) (tail8 m).
Proof.
  split; intros p.
  - intros [[a b] c] Hs. rewrite ref_block_parts by (done || lia). unfold block8. rewrite !add8_part.
    cbn -[plus32 part]. literals. whole_words p. done.
  - intros n [[a b] c] Hn (Ha & Hb & Hc). rewrite ref_block_parts by (done || lia). unfold tail8.
    case_if; [done|]. rewrite !tail_word_part by done. rewrite (proj2 (Z.ltb_lt 0 n)), Z.sub_0_r by lia. done.
Qed.

Lemma ref_block_words l s : words (ref_block l s).
Proof. destruct s as [[a b] c]. unfold ref_block. repeat split; apply plus32_word. Qed.

Lemma ref_block_12 p n s : 12 <= n -> words s -> ref_block (key_bytes p n) s = ref_block (key_bytes p 12) s.
Proof.
  intros Hn Hs. destruct s as [[a b] c]. rewrite !ref_block_parts by (done || lia).
  rewrite !(proj2 (Z.ltb_lt _ _)) by lia. literals. whole_words p. rewrite (part_ge p 8) by lia. done.
Qed.

Lemma zlen_key_bytes p n : 0 <= n -> zlen (key_bytes p n) = n.
Proof. apply zlen_cells. Qed.

Lemma drop_key_bytes p n : 12 <= n -> drop 12 (key_bytes p n) = key_bytes (p + 12) (n - 12).
Proof.
  intros Hn. unfold key_bytes. replace n with (12 + (n - 12)) at 1 by lia. rewrite cells_app by lia.
  rewrite drop_app_length' by (rewrite length_cells; lia). apply cells_shift. intros i Hi. unfold k8. do 2 f_equal. lia.
Qed.

Lemma variant_ref block tail : Variant block tail ->
  forall fuel fuel' p n s, 0 <= n -> n <= Z.of_nat fuel -> n < Z.of_nat fuel' -> words s ->
  (let '(p', n', s') := hash_blocks fuel block p n s in hash_end (tail p' n' s') s')
  = ref_blocks fuel' (key_bytes p n) s.
Proof.
  intros HV. induction fuel as [|fuel IH]; intros fuel' p n s Hn Hf Hf' Hs.
  - assert (n = 0) as -> by lia. destruct fuel' as [|fuel']; [lia|]. simpl.
    rewrite variant_tail by (done || lia). simpl. done.
  - destruct fuel' as [|fuel']; [lia|]. cbn [hash_blocks ref_blocks]. rewrite zlen_key_bytes by done. case_if.
    + rewrite drop_key_bytes by lia. rewrite <- IH; [|lia..|apply mix_words, ref_block_words].
      by rewrite variant_block, <- (ref_block_12 p n) by (done || lia).
    + rewrite variant_tail by (done || lia). by case_if.
Qed.

Lemma hashlittle_bytes little p n initval : 0 <= n ->
  hashlittle m little p n initval = hash_ref (key_bytes p n) initval.
Proof.
  intros Hn. unfold hashlittle, hash_ref. rewrite zlen_key_bytes by done.
  set (x := u32 _). assert (words (x, x, x)) by (repeat split; apply word_u32).
  repeat case_if; (apply variant_ref; [apply _|try done..]; unfold key_bytes; rewrite ?length_cells; lia).
Qed.

End variants.

Lemma ref_blocks_word fuel l s : words s -> word (ref_blocks fuel l s).
Proof.
  revert l s. induction fuel as [|fuel IH]; intros l [[a b] c] Hs; cbn [ref_blocks]; [unfold word; lia|].
  repeat case_if; [apply IH, mix_words, ref_block_words|apply Hs|]. destruct (ref_block l (a, b, c)) as [[? ?] ?]. apply word_u32.
Qed.

Lemma hash_ref_word l initval : word (hash_ref l initval).
Proof. apply ref_blocks_word. repeat split; apply word_u32. Qed.

Lemma key_bytes_ext m m' p p' n :
  (forall i, 0 <= i < n -> u8 (m (p + i)) = u8 (m' (p' + i))) -> key_bytes m p n = key_bytes m' p' n.
Proof. intros H. apply cells_ext. intros i Hi. apply H. lia. Qed.

(** C25: the hash of a key is a function of its bytes: it does not depend on the
    address or the alignment of the text, on the byte order the preprocessor
    found, or on the bytes that follow the key. *)
Theorem hash_any_place m m' little little' p p' n initval :
  0 <= n -> (forall i, 0 <= i < n -> u8 (m (p + i)) = u8 (m' (p' + i))) ->
  hashlittle m little p n initval = hashlittle m' little' p' n initval.
Proof. intros Hn H. by rewrite !hashlittle_bytes, (key_bytes_ext m m' p p' n) by done. Qed.

(** A text of 13 bytes at addresses of every alignment. *)
Lemma hash_any_place_witness :
  hashlittle (overlay (fun _ => 7) 4096 (word_le 1684234849 ++ word_le 1 ++ word_le 2 ++ [9])) true 4096 13 5
  = hashlittle (overlay (fun _ => 8) 8194 (word_le 1684234849 ++ word_le 1 ++ word_le 2 ++ [9])) true 8194 13 5
  /\ hashlittle (overlay (fun _ => 7) 4096 (word_le 1684234849 ++ word_le 1 ++ word_le 2 ++ [9])) true 4096 13 5
  = hashlittle (overlay (fun _ => 8) 8193 (word_le 1684234849 ++ word_le 1 ++ word_le 2 ++ [9])) false 8193 13 5.
Proof.
  split; apply hash_any_place; try lia; intros i Hi; unfold overlay;
    rewrite !(proj2 (Z.leb_le _ _)), !(proj2 (Z.ltb_lt _ _)) by (unfold word_le, zlen; simpl; lia); cbn [andb];
    do 2 f_equal; lia.
Defined.

Lemma mix_reversible_witness : unmix (mix (0xdeadbeef, 1, 0xffffffff)) = (0xdeadbeef, 1, 0xffffffff).
Proof. apply mix_reversible. unfold words, word. lia. Defined.

(** The results its author publishes for this function. *)
Definition four_score : bytes :=
  [70;111;117;114;32;115;99;111;114;101;32;97;110;100;32;115;101;118;101;110;32;121;101;97;114;115;32;97;103;111].

Example published_hashes :
  hashlittle (bget four_score) true 0 30 0 = 0x17770551 /\ hashlittle (bget four_score) true 0 30 1 = 0xcd628161
  /\ hashlittle (bget []) true 0 0 0 = 0xdeadbeef.
Proof. by vm_compute. Qed.
