(* ===== verification/HashList.v ===== *)
(** * The circular lists of the JSON hash table (components/json/jansson/src/hashtable.c)

    A node is an address, the header of the table is the address 0, and a
    store holds the [next] and [prev] fields of the nodes that exist; reading
    or writing a field of a node that does not exist is [None].  [ring] is a
    well-formed circular list seen from one of its nodes, and the two
    operations append before that node and take it out. *)

From S2P Require Import Prelude.

Record links := Links { nx : gmap Z Z; pv : gmap Z Z }.

Definition set_next (l : links) (x v : Z) : option links :=
  match nx l !! x with Some _ => Some (Links (<[x := v]> (nx l)) (pv l)) | None => None end.

Definition set_prev (l : links) (x v : Z) : option links :=
  match pv l !! x with Some _ => Some (Links (nx l) (<[x := v]> (pv l))) | None => None end.

(** Of a node its caller has allocated. *)
Definition hash_list_init (l : links) (x : Z) : links := Links (<[x := x]> (nx l)) (<[x := x]> (pv l)).

Definition list_insert (l : links) (list node : Z) : option links :=
  l ← set_next l node list;
  p ← pv l !! list;
  l ← set_prev l node p;
  p ← pv l !! list;
  l ← set_next l p node;
  set_prev l list node.

Definition list_remove (l : links) (list : Z) : option links :=
  p ← pv l !! list;
  n ← nx l !! list;
  l ← set_next l p n;
  n ← nx l !! list;
  p ← pv l !! list;
  set_prev l n p.

(** The fields are gone with the memory of the node. *)
Definition list_free (l : links) (x : Z) : links := Links (delete x (nx l)) (delete x (pv l)).

(** ** Segments *)

(** From [a] along [xs] to [b], forwards and backwards. *)
Fixpoint linked (l : links) (a : Z) (xs : list Z) (b : Z) : Prop :=
  match xs with
  | [] => nx l !! a = Some b /\ pv l !! b = Some a
  | x :: xs => nx l !! a = Some x /\ pv l !! x = Some a /\ linked l x xs b
  end.

(** From [a] along [xs], forwards only. *)
Fixpoint path (n : gmap Z Z) (a : Z) (xs : list Z) : Prop :=
  match xs with
  | [] => True
  | x :: xs => n !! a = Some x /\ path n x xs
  end.

Definition ring (l : links) (c : Z) (xs : list Z) : Prop := NoDup (c :: xs) /\ linked l c xs c.

Lemma linked_app l a xs x ys b : linked l a (xs ++ x :: ys) b <-> linked l a xs x /\ linked l x ys b.
Proof.
  revert a. induction xs as [|y xs IH]; intros a; cbn [app linked]; [tauto|]. rewrite IH. tauto.
Qed.

Lemma linked_path l a xs b : linked l a xs b -> path (nx l) a (xs ++ [b]).
Proof. revert a. induction xs as [|x xs IH]; intros a; simpl; [tauto|]. intros (? & _ & ?). auto. Qed.

Lemma path_app n a xs ys : path n a (xs ++ ys) -> path n a xs.
Proof. revert a. induction xs as [|x xs IH]; intros a; simpl; [done|]. intros [? ?]. eauto. Qed.

Lemma linked_frame l l' a xs b :
  linked l a xs b -> (forall x, x ∈ a :: xs -> nx l' !! x = nx l !! x) ->
  (forall x, x ∈ xs ++ [b] -> pv l' !! x = pv l !! x) -> linked l' a xs b.
Proof.
  revert a. induction xs as [|x xs IH]; intros a; simpl; intros Hl Hn Hp.
  - rewrite Hn, Hp by set_solver. done.
  - destruct Hl as (? & ? & Hl). rewrite Hn, Hp by set_solver. split; [done|]. split; [done|].
    apply IH; [done| |]; intros y Hy; [apply Hn|apply Hp]; set_solver.
Qed.

Lemma ring_rotate l c xs d ys : ring l c (xs ++ d :: ys) <-> ring l d (ys ++ c :: xs).
Proof.
  unfold ring. rewrite !linked_app.
  assert (c :: xs ++ d :: ys ≡ₚ d :: ys ++ c :: xs) as ->; [|tauto].
  by rewrite (Permutation_app_comm (c :: xs) (d :: ys)).
Qed.

Lemma ring_init l x : ring (hash_list_init l x) x [].
Proof. split; [apply NoDup_singleton|]. simpl. by rewrite !lookup_insert_eq. Qed.

Lemma ring_frame l l' c xs : ring l c xs -> (forall x, x ∈ c :: xs -> nx l' !! x = nx l !! x /\ pv l' !! x = pv l !! x) -> ring l' c xs.
Proof.
  intros [Hd Hl] H. split; [done|]. eapply linked_frame; [done| |]; intros x Hx; apply H; set_solver.
Qed.

Lemma ring_some l c xs x : ring l c xs -> x ∈ c :: xs -> is_Some (nx l !! x) /\ is_Some (pv l !! x).
Proof.
  intros [_ Hl] Hx. destruct (decide (x = c)) as [->|Hn].
  - split; [destruct xs; simpl in Hl; naive_solver|].
    destruct xs as [|p zs] using rev_ind; [simpl in Hl; naive_solver|]. apply linked_app in Hl. simpl in Hl. naive_solver.
  - assert (x ∈ xs) as Hx' by set_solver. apply list_elem_of_split in Hx' as (l1 & l2 & ->).
    apply linked_app in Hl as [Hl1 Hl2]. split; [destruct l2; simpl in Hl2; naive_solver|].
    destruct l1 as [|p zs] using rev_ind; [simpl in Hl1; naive_solver|]. apply linked_app in Hl1. simpl in Hl1. naive_solver.
Qed.

(** The node before the first. *)
Definition before (c : Z) (xs : list Z) : Z := List.last xs c.

Lemma before_elem c xs : before c xs ∈ c :: xs.
Proof. unfold before. destruct xs as [|p zs _] using rev_ind; [set_solver|]. rewrite last_last. set_solver. Qed.

Lemma linked_last l c xs b : linked l c xs b -> pv l !! b = Some (before c xs) /\ nx l !! before c xs = Some b.
Proof.
  unfold before. destruct xs as [|p zs _] using rev_ind; [simpl; tauto|].
  rewrite linked_app, last_last. simpl. tauto.
Qed.

(** ** The two operations *)

Lemma list_insert_ring l c xs n :
  ring l c xs -> n ∉ c :: xs -> is_Some (nx l !! n) -> is_Some (pv l !! n) ->
  exists l', list_insert l c n = Some l' /\ ring l' c (xs ++ [n])
    /\ (forall x, x ∉ n :: c :: xs -> nx l' !! x = nx l !! x /\ pv l' !! x = pv l !! x)
    /\ nx l' = <[before c xs := n]> (<[n := c]> (nx l)) /\ pv l' = <[c := n]> (<[n := before c xs]> (pv l)).
Proof.
  intros [Hd Hl] Hn [vn En] [vp Ep]. destruct (linked_last _ _ _ _ Hl) as [Hpv Hnx].
  pose proof (before_elem c xs) as Hb.
  assert (n ≠ c) by set_solver. assert (before c xs ≠ n) by (intros Heq; rewrite Heq in Hb; done).
  exists (Links (<[before c xs := n]> (<[n := c]> (nx l))) (<[c := n]> (<[n := before c xs]> (pv l)))).
  split.
  { unfold list_insert, set_next, set_prev. rewrite En. simpl. rewrite Hpv. simpl. rewrite Ep. simpl.
    rewrite lookup_insert_ne, Hpv by done. simpl. rewrite lookup_insert_ne, Hnx by done. simpl.
    by rewrite lookup_insert_ne, Hpv by done. }
  split; [split|].
  - rewrite app_comm_cons, NoDup_app. split; [done|]. split; [set_solver|apply NoDup_singleton].
  - unfold before in *. destruct xs as [|p zs _] using rev_ind.
    + simpl. by rewrite lookup_insert_eq, lookup_insert_ne, !lookup_insert_eq, lookup_insert_ne, lookup_insert_eq by done.
    + rewrite last_last in *. apply linked_app in Hl as [Hl1 Hl2]. rewrite <- app_assoc. simpl.
      apply linked_app. apply NoDup_cons in Hd as [Hc Hd]. apply NoDup_app in Hd as (_ & Hd & _).
      assert (c ≠ p) by set_solver. split.
      * eapply linked_frame; [done| |]; simpl; intros x Hx; rewrite !lookup_insert_ne by set_solver; done.
      * simpl. rewrite lookup_insert_eq, (lookup_insert_ne _ c n), !lookup_insert_eq, lookup_insert_ne, lookup_insert_eq by done. done.
  - split; [|done]. intros x Hx. simpl. rewrite !lookup_insert_ne by set_solver. done.
Qed.

Lemma list_remove_ring l n c xs :
  ring l n (c :: xs) ->
  exists l', list_remove l n = Some l' /\ ring l' c xs.
Proof.
  intros [Hd Hl]. destruct (linked_last _ _ _ _ Hl) as [Hpv Hnx]. simpl in Hl. destruct Hl as (Hn & Hc & Hl).
  assert (before n (c :: xs) = before c xs) as Hb by (unfold before; by destruct xs as [|p zs _] using rev_ind; rewrite ?last_last, ?app_comm_cons, ?last_last).
  rewrite Hb in *.
  pose proof (before_elem c xs) as Hin.
  assert (n ∉ c :: xs) by (by apply NoDup_cons in Hd as [Hnot _]). assert (before c xs ≠ n) by (intros Heq; rewrite Heq in Hin; done).
  exists (Links (<[before c xs := c]> (nx l)) (<[c := before c xs]> (pv l))). split.
  { unfold list_remove, set_next, set_prev. rewrite Hpv. simpl. rewrite Hn. simpl. rewrite Hnx. simpl.
    rewrite lookup_insert_ne, Hn by done. simpl. rewrite Hpv. simpl. by rewrite Hc. }
  apply NoDup_cons in Hd as [_ Hd]. split; [done|]. unfold before in *.
  destruct xs as [|p zs _] using rev_ind; [simpl; by rewrite !lookup_insert_eq|]. rewrite last_last in *.
  apply linked_app in Hl as [Hl1 Hl2]. apply linked_app. simpl.
  apply NoDup_cons in Hd as [Hcz Hd]. apply NoDup_app in Hd as (_ & Hd & _). assert (c ≠ p) by set_solver.
  rewrite !lookup_insert_eq. split; [|done]. eapply linked_frame; [done| |]; simpl; intros x Hx; rewrite lookup_insert_ne by set_solver; done.
Qed.

(** A node put in before [c], and a node taken out, of the list of the header. *)
Lemma list_insert_at l h xs ys n c :
  ring l h (xs ++ ys) -> n ∉ h :: xs ++ ys -> is_Some (nx l !! n) -> is_Some (pv l !! n) ->
  c = List.hd h ys ->
  exists l', list_insert l c n = Some l' /\ ring l' h (xs ++ n :: ys)
    /\ (forall x, x ∉ n :: h :: xs ++ ys -> nx l' !! x = nx l !! x /\ pv l' !! x = pv l !! x).
Proof.
  intros Hr Hn Hnx Hpv ->. destruct ys as [|d ys]; simpl.
  - rewrite app_nil_r in *. destruct (list_insert_ring l h xs n) as (l' & ? & ? & ? & _); eauto.
  - apply ring_rotate in Hr. destruct (list_insert_ring l d (ys ++ h :: xs) n) as (l' & ? & Hr' & Hf & _); [done|set_solver|done..|].
    exists l'. split; [done|]. split; [|intros x Hx; apply Hf; set_solver].
    apply ring_rotate in Hr. replace (xs ++ n :: d :: ys) with ((xs ++ [n]) ++ d :: ys) by (by rewrite <- app_assoc).
    apply ring_rotate. rewrite <- app_assoc in Hr'. done.
Qed.

Lemma list_remove_at l h xs n ys :
  ring l h (xs ++ n :: ys) -> exists l', list_remove l n = Some l' /\ ring l' h (xs ++ ys).
Proof.
  intros Hr. apply ring_rotate in Hr. destruct ys as [|c ys]; simpl in Hr.
  - rewrite app_nil_r. by apply list_remove_ring.
  - destruct (list_remove_ring l n c (ys ++ h :: xs) Hr) as (l' & ? & ?). exists l'. split; [done|]. by apply ring_rotate.
Qed.

Lemma ring_free l h xs n : ring l h xs -> n ∉ h :: xs -> ring (list_free l n) h xs.
Proof. intros Hr Hn. eapply ring_frame; [done|]. intros x Hx. simpl. rewrite !lookup_delete_ne by set_solver. done. Qed.
