(* ===== verification/Jansson.v ===== *)
(** * JSON values (components/json/jansson/src/value.c, utf.c)

    The value operations of jansson that the update client uses.  An object is
    the list of its members in insertion order, which is how the hash table
    iterates; a missing value ([NULL]) is [None].  The allocations of jansson
    are taken to succeed.  [json_loads] and [json_dumps] are parameters of the
    files that use them. *)

From S2P Require Import Prelude.

#[warnings="-register-all"] Inductive json :=
  | JObject (members : list (bytes * json))
  | JArray (elements : list json)
  | JString (s : bytes)
  | JInteger (v : Z)
  | JReal (bits : Z)
  | JTrue | JFalse | JNull.

(** ** UTF-8 *)

Definition utf8_check_first (u : Z) : Z :=
  if u <? 128 then 1
  else if u <=? 191 then 0
  else if (u =? 192) || (u =? 193) then 0
  else if (194 <=? u) && (u <=? 223) then 2
  else if (224 <=? u) && (u <=? 239) then 3
  else if (240 <=? u) && (u <=? 244) then 4
  else 0.

Fixpoint utf8_continue (value : Z) (rest : bytes) : option Z :=
  match rest with
  | [] => Some value
  | u :: rest' =>
      if (u <? 128) || (191 <? u) then None
      else utf8_continue (Z.shiftl value 6 + Z.land u 63) rest'
  end.

Definition utf8_check_full (buffer : bytes) : bool :=
  let size := zlen buffer in
  match buffer with
  | [] => false
  | u :: rest =>
      let first :=
        if size =? 2 then Some (Z.land u 31)
        else if size =? 3 then Some (Z.land u 15)
        else if size =? 4 then Some (Z.land u 7)
        else None in
      match first with
      | None => false
      | Some v =>
          match utf8_continue v rest with
          | None => false
          | Some value =>
              negb (1114111 <? value)
              && negb ((55296 <=? value) && (value <=? 57343))
              && negb (((size =? 2) && (value <? 128)) || ((size =? 3) && (value <? 2048))
                       || ((size =? 4) && (value <? 65536)))
          end
      end
  end.

(** [skip] counts the bytes of a sequence already checked. *)
Fixpoint utf8_check_from (skip : nat) (s : bytes) : bool :=
  match s with
  | [] => true
  | u :: s' =>
      match skip with
      | S skip' => utf8_check_from skip' s'
      | O =>
          let count := utf8_check_first u in
          if count =? 0 then false
          else if 1 <? count then
            if zlen s <? count then false
            else utf8_check_full (take (Z.to_nat count) s) && utf8_check_from (Z.to_nat (count - 1)) s'
          else utf8_check_from 0 s'
      end
  end.

Definition utf8_check_string (s : bytes) : bool := utf8_check_from 0 s.

(** ** Access *)

Fixpoint assoc_get (key : bytes) (l : list (bytes * json)) : option json :=
  match l with
  | [] => None
  | (k, v) :: l' => if bool_decide (k = key) then Some v else assoc_get key l'
  end.

(** [hashtable_set]: in place, or at the end. *)
Fixpoint assoc_set (key : bytes) (v : json) (l : list (bytes * json)) : list (bytes * json) :=
  match l with
  | [] => [(key, v)]
  | (k, w) :: l' => if bool_decide (k = key) then (k, v) :: l' else (k, w) :: assoc_set key v l'
  end.

Definition json_object_get (j : option json) (key : bytes) : option json :=
  match j with Some (JObject ms) => assoc_get key ms | _ => None end.

Definition json_array_size (j : option json) : Z :=
  match j with Some (JArray l) => zlen l | _ => 0 end.

Definition json_array_get (j : option json) (index : Z) : option json :=
  match j with Some (JArray l) => if index <? 0 then None else l !! Z.to_nat index | _ => None end.

Definition json_string_value (j : option json) : option bytes :=
  match j with Some (JString s) => Some s | _ => None end.

Definition json_integer_value (j : option json) : Z :=
  match j with Some (JInteger v) => v | _ => 0 end.

Definition json_string (value : option bytes) : option json :=
  match value with
  | Some s => if utf8_check_string s then Some (JString s) else None
  | None => None
  end.

Definition json_integer (v : Z) : option json := Some (JInteger v).

(** [json_object_set_new]: [None] for the result -1. *)
Definition json_object_set_new (obj : json) (key : bytes) (value : option json) : option json :=
  if negb (utf8_check_string key) then None else
  match obj, value with
  | JObject ms, Some v => Some (JObject (assoc_set key v ms))
  | _, _ => None
  end.

Definition update_member (ms : list (bytes * json)) (kv : bytes * json) : list (bytes * json) :=
  match assoc_get kv.1 ms with
  | Some _ => assoc_set kv.1 kv.2 ms
  | None => ms
  end.

Definition json_object_update_existing (object : option json) (other : json) : option json :=
  match object, other with
  | Some (JObject ms), JObject os => Some (JObject (fold_left update_member os ms))
  | _, _ => None
  end.

(** ** Lemmas *)

Lemma assoc_get_set key v l : assoc_get key (assoc_set key v l) = Some v.
Proof.
  induction l as [|[k w] l IH]; simpl; [by rewrite bool_decide_eq_true_2|].
  case_bool_decide; simpl; [by rewrite bool_decide_eq_true_2|by rewrite bool_decide_eq_false_2].
Qed.

Lemma assoc_get_set_ne key key' v l : key <> key' -> assoc_get key (assoc_set key' v l) = assoc_get key l.
Proof.
  intros Hk. induction l as [|[k w] l IH]; simpl; [by rewrite bool_decide_eq_false_2|].
  destruct (bool_decide (k = key')) eqn:E.
  - apply bool_decide_eq_true_1 in E. subst k. simpl. by rewrite !bool_decide_eq_false_2.
  - simpl. by rewrite IH.
Qed.
