(* ===== verification/HashTable.v ===== *)
(** * The hash table of the JSON objects (components/json/jansson/src/hashtable.c)

    A pair has one address for both of its list nodes ([container_of] is the
    identity); the two lists have a store of links each ([hlist], whose nodes
    the buckets point into, and [ordered_list]).  The table itself is the
    header 0 of both.  An operation that touches memory that is not there is
    [None].  [released] records the calls of [json_decref].  The outcome of an
    allocation is an argument: whether the buckets could be had, and the
    address of the pair.  [hash_str] may see the address of the text it
    hashes, which is an argument of the operations too; that it does not
    matter is a law of the interface [KeyHash], kept by [hashlittle]. *)

From S2P Require Import Prelude Lookup3 HashList Jansson.

Class KeyHash := {
  hash_str : Z -> bytes -> Z;
  hash_str_word : forall at_ key, word (hash_str at_ key);
  hash_str_place : forall at_ at' key, hash_str at_ key = hash_str at' key
}.

Definition INITIAL_HASHTABLE_ORDER : Z := 3.

Record pair := Pair { p_hash : Z; p_value : json; p_key : bytes }.

Record bucket := Bucket { first : Z; last : Z }.

Record hashtable := Table {
  ht_size : Z;
  buckets : list bucket;
  order : Z;
  hlist : links;
  ordered_list : links;
  pairs : gmap Z pair;
  released : list json
}.

Definition with_lists (ht : hashtable) (b : list bucket) (l : links) : hashtable :=
  Table (ht_size ht) b (order ht) l (ordered_list ht) (pairs ht) (released ht).

Definition empty_bucket : bucket := Bucket 0 0.

Definition bucket_is_empty (b : bucket) : bool := (first b =? 0) && (first b =? last b).

Definition insert_to_bucket (ht : hashtable) (index : nat) (list : Z) : option hashtable :=
  b ← buckets ht !! index;
  if bucket_is_empty b then
    l ← list_insert (hlist ht) 0 list;
    Some (with_lists ht (<[index := Bucket list list]> (buckets ht)) l)
  else
    l ← list_insert (hlist ht) (first b) list;
    Some (with_lists ht (<[index := Bucket list (last b)]> (buckets ht)) l).

(** The walk over a bucket; [None] for the end of the fuel too. *)
Fixpoint find_from (fuel : nat) (ht : hashtable) (list last : Z) (key : bytes) (hash : Z) : option (option Z) :=
  match fuel with
  | O => None
  | S fuel =>
      pr ← pairs ht !! list;
      if (p_hash pr =? hash) && bool_decide (p_key pr = key) then Some (Some list)
      else if list =? last then Some None
      else next ← nx (hlist ht) !! list; find_from fuel ht next last key hash
  end.

Definition hashtable_find_pair (ht : hashtable) (b : bucket) (key : bytes) (hash : Z) : option (option Z) :=
  if bucket_is_empty b then Some None
  else find_from (base.size (pairs ht)) ht (first b) (last b) key hash.

Definition index_of (ht : hashtable) (hash : Z) : nat := Z.to_nat (Z.land hash (hashmask (order ht))).

(** [jsonp_free(pair)]. *)
Definition free_pair (ht : hashtable) (p : Z) : hashtable :=
  Table (ht_size ht) (buckets ht) (order ht) (list_free (hlist ht) p) (list_free (ordered_list ht) p)
    (delete p (pairs ht)) (released ht).

Definition json_decref (ht : hashtable) (v : json) : hashtable :=
  Table (ht_size ht) (buckets ht) (order ht) (hlist ht) (ordered_list ht) (pairs ht) (released ht ++ [v]).

Definition hashtable_do_del (ht : hashtable) (key : bytes) (hash : Z) : option (Z * hashtable) :=
  let index := index_of ht hash in
  b ← buckets ht !! index;
  found ← hashtable_find_pair ht b key hash;
  match found with
  | None => Some (-1, ht)
  | Some p =>
      b' ← (if (p =? first b) && (p =? last b) then Some empty_bucket
            else if p =? first b then n ← nx (hlist ht) !! p; Some (Bucket n (last b))
            else if p =? last b then q ← pv (hlist ht) !! p; Some (Bucket (first b) q)
            else Some b);
      l ← list_remove (hlist ht) p;
      o ← list_remove (ordered_list ht) p;
      pr ← pairs ht !! p;
      let ht := Table (ht_size ht) (<[index := b']> (buckets ht)) (order ht) l o (pairs ht) (released ht) in
      let ht := free_pair (json_decref ht (p_value pr)) p in
      Some (0, Table (u32 (ht_size ht - 1)) (buckets ht) (order ht) (hlist ht) (ordered_list ht) (pairs ht) (released ht))
  end.

Fixpoint clear_from (fuel : nat) (ht : hashtable) (list : Z) : option hashtable :=
  if list =? 0 then Some ht else
  match fuel with
  | O => None
  | S fuel =>
      next ← nx (hlist ht) !! list;
      pr ← pairs ht !! list;
      clear_from fuel (free_pair (json_decref ht (p_value pr)) list) next
  end.

Definition hashtable_do_clear (ht : hashtable) : option hashtable :=
  list ← nx (hlist ht) !! 0; clear_from (base.size (pairs ht)) ht list.

(** [jsonp_malloc(n * sizeof(bucket_t))]: nothing for no bytes. *)
Definition malloc_buckets (room : bool) (n : Z) : option Z :=
  let bytes := u32 (n * 8) in
  if bytes =? 0 then None else if room then Some (bytes / 8) else None.

(** The loop that empties [n] buckets of an array of [len]. *)
Definition init_buckets (n len : Z) : option (list bucket) :=
  if n <=? len then Some (replicate (Z.to_nat n) empty_bucket) else None.

Fixpoint rehash_from (fuel : nat) (ht : hashtable) (new_size list : Z) : option hashtable :=
  if list =? 0 then Some ht else
  match fuel with
  | O => None
  | S fuel =>
      next ← nx (hlist ht) !! list;
      pr ← pairs ht !! list;
      ht ← insert_to_bucket ht (Z.to_nat (p_hash pr mod new_size)) list;
      rehash_from fuel ht new_size next
  end.

Definition hashtable_do_rehash (room : bool) (ht : hashtable) : option (Z * hashtable) :=
  let new_order := order ht + 1 in
  let new_size := hashsize new_order in
  match malloc_buckets room new_size with
  | None => Some (-1, ht)
  | Some len =>
      bs ← init_buckets (hashsize new_order) len;
      list ← nx (hlist ht) !! 0;
      let ht := Table (ht_size ht) bs new_order (hash_list_init (hlist ht) 0) (ordered_list ht) (pairs ht) (released ht) in
      ht ← rehash_from (base.size (pairs ht)) ht new_size list;
      Some (0, ht)
  end.

Definition hashtable_init (room : bool) : option (Z * hashtable) :=
  let n := hashsize INITIAL_HASHTABLE_ORDER in
  let nolinks := Links ∅ ∅ in
  match malloc_buckets room n with
  | None => Some (-1, Table 0 [] INITIAL_HASHTABLE_ORDER nolinks nolinks ∅ [])
  | Some len =>
      bs ← init_buckets n len;
      Some (0, Table 0 bs INITIAL_HASHTABLE_ORDER (hash_list_init nolinks 0) (hash_list_init nolinks 0) ∅ [])
  end.

Definition hashtable_close (ht : hashtable) : option hashtable :=
  ht ← hashtable_do_clear ht;
  Some (Table (ht_size ht) [] (order ht) (hlist ht) (ordered_list ht) (pairs ht) (released ht)).

(** [offsetof(pair_t, key)]. *)
Definition pair_key_offset : Z := 24.

Section operations.
Context `{KeyHash}.

(** The end of [hashtable_set], for a key that is not there: [malloc] is the
    address of the new pair. *)
Definition add_pair (malloc : option Z) (ht : hashtable) (index : nat) (key : bytes) (hash : Z) (value : json) :
    option (Z * hashtable) :=
  if 2 ^ 32 - 1 - pair_key_offset <=? zlen key then Some (-1, ht) else
  match malloc with
  | None => Some (-1, ht)
  | Some p =>
      let ht := Table (ht_size ht) (buckets ht) (order ht) (hash_list_init (hlist ht) p)
                  (hash_list_init (ordered_list ht) p) (<[p := Pair hash value key]> (pairs ht)) (released ht) in
      ht ← insert_to_bucket ht index p;
      o ← list_insert (ordered_list ht) 0 p;
      Some (0, Table (u32 (ht_size ht + 1)) (buckets ht) (order ht) (hlist ht) o (pairs ht) (released ht))
  end.

Definition set_value (ht : hashtable) (p : Z) (value : json) : option hashtable :=
  pr ← pairs ht !! p;
  let ht := json_decref ht (p_value pr) in
  Some (Table (ht_size ht) (buckets ht) (order ht) (hlist ht) (ordered_list ht)
    (<[p := Pair (p_hash pr) value (p_key pr)]> (pairs ht)) (released ht)).

Definition hashtable_set (room : bool) (malloc : option Z) (ht : hashtable) (at_ : Z) (key : bytes) (value : json) :
    option (Z * hashtable) :=
  r ← (if hashsize (order ht) <=? ht_size ht then hashtable_do_rehash room ht else Some (0, ht));
  let '(rc, ht) := r : Z * hashtable in
  if negb (rc =? 0) then Some (-1, ht) else
  let hash := hash_str at_ key in
  let index := index_of ht hash in
  b ← buckets ht !! index;
  found ← hashtable_find_pair ht b key hash;
  match found with
  | Some p => ht ← set_value ht p value; Some (0, ht)
  | None => add_pair malloc ht index key hash value
  end.

Definition find_key (ht : hashtable) (at_ : Z) (key : bytes) : option (option Z) :=
  let hash := hash_str at_ key in
  b ← buckets ht !! index_of ht hash;
  hashtable_find_pair ht b key hash.

Definition hashtable_get (ht : hashtable) (at_ : Z) (key : bytes) : option (option json) :=
  found ← find_key ht at_ key;
  match found with
  | None => Some None
  | Some p => pr ← pairs ht !! p; Some (Some (p_value pr))
  end.

Definition hashtable_del (ht : hashtable) (at_ : Z) (key : bytes) : option (Z * hashtable) :=
  hashtable_do_del ht key (hash_str at_ key).

Definition hashtable_clear (ht : hashtable) : option hashtable :=
  ht ← hashtable_do_clear ht;
  bs ← init_buckets (hashsize (order ht)) (zlen (buckets ht));
  Some (Table 0 bs (order ht) (hash_list_init (hlist ht) 0) (hash_list_init (ordered_list ht) 0) (pairs ht) (released ht)).

(** ** Iterators: addresses of the ordered list *)

Definition hashtable_iter_next (ht : hashtable) (iter : Z) : option (option Z) :=
  n ← nx (ordered_list ht) !! iter; Some (if n =? 0 then None else Some n).

Definition hashtable_iter (ht : hashtable) : option (option Z) := hashtable_iter_next ht 0.

Definition hashtable_iter_at (ht : hashtable) (at_ : Z) (key : bytes) : option (option Z) := find_key ht at_ key.

Definition hashtable_iter_key (ht : hashtable) (iter : Z) : option bytes := p_key <$> pairs ht !! iter.
Definition hashtable_iter_value (ht : hashtable) (iter : Z) : option json := p_value <$> pairs ht !! iter.

Definition hashtable_iter_set (ht : hashtable) (iter : Z) (value : json) : option hashtable := set_value ht iter value.

End operations.

(** The walk of the callers: [iter], then [iter_next] until [NULL]. *)
Fixpoint iterate (fuel : nat) (ht : hashtable) (iter : option Z) : option (list (bytes * json)) :=
  match iter with
  | None => Some []
  | Some p =>
      match fuel with
      | O => None
      | S fuel =>
          k ← hashtable_iter_key ht p;
          v ← hashtable_iter_value ht p;
          next ← hashtable_iter_next ht p;
          rest ← iterate fuel ht next;
          Some ((k, v) :: rest)
      end
  end.
