(* ===== verification/HashTableProps.v ===== *)
(** * Properties of the hash table of the JSON objects

    [wf ht segs ys ms]: the list the buckets point into is the concatenation
    of one segment per bucket in use ([segs]), the ordered list is [ys], and
    the pairs along it are the members [ms].  Every operation keeps it and acts
    on [ms] as on an association list. *)

From S2P Require Import Prelude Lookup3 HashList Jansson HashTable.

(** ** Buckets *)

Abbreviation segments := (list (nat * list Z)).

Definition nodes (segs : segments) : list Z := mjoin segs.*2.

Lemma nodes_app s1 s2 : nodes (s1 ++ s2) = nodes s1 ++ nodes s2.
Proof. unfold nodes. by rewrite fmap_app, join_app. Qed.

Lemma nodes_mid s1 i seg s2 : nodes (s1 ++ (i, seg) :: s2) = nodes s1 ++ seg ++ nodes s2.
Proof. rewrite nodes_app. done. Qed.

Record binv (bs : list bucket) (segs : segments) : Prop := {
  b_nodup : NoDup segs.*1;
  b_seg : forall i seg, (i, seg) ∈ segs -> seg <> [] /\ bs !! i = Some (Bucket (List.hd 0 seg) (List.last seg 0));
  b_empty : forall i b, bs !! i = Some b -> i ∉ segs.*1 -> b = empty_bucket
}.

Lemma binv_init n : binv (replicate n empty_bucket) [].
Proof.
  split; [apply NoDup_nil_2|set_solver|]. intros i b Hb _. by apply lookup_replicate in Hb as [-> _].
Qed.

Lemma segs_keys_mid (s1 s2 : segments) i seg : (s1 ++ (i, seg) :: s2).*1 ≡ₚ i :: (s1 ++ s2).*1.
Proof. rewrite !fmap_app. simpl. by rewrite Permutation_middle. Qed.

Lemma segs_other (s1 s2 : segments) i seg j seg' :
  NoDup (s1 ++ (i, seg) :: s2).*1 -> (j, seg') ∈ s1 ++ s2 -> j <> i.
Proof.
  rewrite segs_keys_mid. intros Hd Hin ->. apply NoDup_cons in Hd as [Hd _]. apply Hd.
  apply list_elem_of_fmap. by exists (i, seg').
Qed.

Lemma segs_mid (s1 s2 : segments) i seg j seg' :
  (j, seg') ∈ s1 ++ (i, seg) :: s2 <-> (j = i /\ seg' = seg) \/ (j, seg') ∈ s1 ++ s2.
Proof. set_solver. Qed.

Lemma binv_update bs s1 i seg s2 seg' b :
  binv bs (s1 ++ (i, seg) :: s2) -> seg' <> [] -> b = Bucket (List.hd 0 seg') (List.last seg' 0) ->
  binv (<[i := b]> bs) (s1 ++ (i, seg') :: s2).
Proof.
  intros [Hd Hs He] Hn ->. assert (Hd' := Hd). rewrite segs_keys_mid in Hd. split.
  - by rewrite segs_keys_mid.
  - intros j t Hin. apply segs_mid in Hin as [[-> ->]|Hin].
    + split; [done|]. destruct (Hs i seg) as [_ Hi]; [set_solver|]. apply list_lookup_insert_eq. by eapply lookup_lt_Some.
    + pose proof (segs_other _ _ _ _ _ _ Hd' Hin). rewrite list_lookup_insert_ne by done. apply Hs, segs_mid. auto.
  - intros j b Hb Hj. rewrite segs_keys_mid in Hj. rewrite list_lookup_insert_ne in Hb by set_solver.
    apply (He j); [done|]. by rewrite segs_keys_mid.
Qed.

Lemma binv_append bs segs i n :
  binv bs segs -> i ∉ segs.*1 -> (i < length bs)%nat -> binv (<[i := Bucket n n]> bs) (segs ++ [(i, [n])]).
Proof.
  intros [Hd Hs He] Hi Hl. split.
  - rewrite segs_keys_mid, app_nil_r. by constructor.
  - intros j t Hin. apply segs_mid in Hin as [[-> ->]|Hin].
    + split; [done|]. by apply list_lookup_insert_eq.
    + rewrite app_nil_r in Hin. assert (j <> i) by (intros ->; apply Hi, list_elem_of_fmap; by exists (i, t)).
      rewrite list_lookup_insert_ne by done. by apply Hs.
  - intros j b Hb Hj. rewrite segs_keys_mid, app_nil_r in Hj. rewrite list_lookup_insert_ne in Hb by set_solver.
    apply (He j); set_solver.
Qed.

Lemma binv_drop bs s1 i seg s2 :
  binv bs (s1 ++ (i, seg) :: s2) -> binv (<[i := empty_bucket]> bs) (s1 ++ s2).
Proof.
  intros [Hd Hs He]. assert (Hd' := Hd). rewrite segs_keys_mid in Hd. split.
  - by apply NoDup_cons in Hd as [_ Hd].
  - intros j t Hin. pose proof (segs_other _ _ _ _ _ _ Hd' Hin). rewrite list_lookup_insert_ne by done.
    apply Hs, segs_mid. auto.
  - intros j b Hb Hj. destruct (decide (i = j)) as [<-|Hij].
    + rewrite list_lookup_insert_eq in Hb by (destruct (Hs i seg) as [_ Hi]; [set_solver|]; by eapply lookup_lt_Some). congruence.
    + rewrite list_lookup_insert_ne in Hb by done. apply (He j); [done|]. rewrite segs_keys_mid. set_solver.
Qed.

(** The bucket of an index: not in use, or a segment. *)
Lemma bucket_cases bs segs i b : binv bs segs -> 0 ∉ nodes segs -> bs !! i = Some b ->
  (b = empty_bucket /\ bucket_is_empty b = true /\ i ∉ segs.*1)
  \/ exists s1 seg s2, segs = s1 ++ (i, seg) :: s2 /\ seg <> [] /\ b = Bucket (List.hd 0 seg) (List.last seg 0)
     /\ bucket_is_empty b = false.
Proof.
  intros Hb H0 Hi. destruct (decide (i ∈ segs.*1)) as [Hin|Hn].
  - right. apply list_elem_of_fmap in Hin as ([j seg] & -> & Hin). simpl in *. destruct (b_seg _ _ Hb _ _ Hin) as [Hne Hs].
    rewrite Hs in Hi. injection Hi as <-. apply list_elem_of_split in Hin as (s1 & s2 & ->).
    exists s1, seg, s2. split_and!; [done..|]. unfold bucket_is_empty. simpl. destruct seg as [|x seg]; [done|]. simpl.
    rewrite (proj2 (Z.eqb_neq x 0)); [done|]. intros ->. apply H0. rewrite nodes_mid. set_solver.
  - left. pose proof (b_empty _ _ Hb _ _ Hi Hn) as ->. done.
Qed.

(** A node goes to the segment of its bucket, which keeps the others. *)
Lemma insert_to_bucket_spec ht segs i n :
  binv (buckets ht) segs -> ring (hlist ht) 0 (nodes segs) -> (i < length (buckets ht))%nat ->
  n ∉ 0 :: nodes segs -> is_Some (nx (hlist ht) !! n) -> is_Some (pv (hlist ht) !! n) ->
  exists bs l segs', insert_to_bucket ht i n = Some (with_lists ht bs l)
    /\ length bs = length (buckets ht) /\ binv bs segs' /\ ring l 0 (nodes segs') /\ nodes segs' ≡ₚ n :: nodes segs
    /\ (forall j seg p, (j, seg) ∈ segs' -> p ∈ seg -> (j = i /\ p = n) \/ exists seg0, (j, seg0) ∈ segs /\ p ∈ seg0)
    /\ (forall x, x ∉ n :: 0 :: nodes segs -> nx l !! x = nx (hlist ht) !! x /\ pv l !! x = pv (hlist ht) !! x).
Proof.
  intros Hb Hr Hi Hn Hnx Hpv. destruct (lookup_lt_is_Some_2 _ _ Hi) as [b Ei]. unfold insert_to_bucket. rewrite Ei. simpl.
  assert (0 ∉ nodes segs) as H0 by (by destruct Hr as [Hd _]; apply NoDup_cons in Hd as [? _]).
  destruct (bucket_cases _ _ _ _ Hb H0 Ei) as [(-> & -> & Hseg)|(s1 & seg & s2 & -> & Hne & -> & ->)].
  - destruct (list_insert_at (hlist ht) 0 (nodes segs) [] n 0) as (l & -> & Hl & Hf); rewrite ?app_nil_r; try done. simpl.
    exists (<[i := Bucket n n]> (buckets ht)), l, (segs ++ [(i, [n])]). split_and!; [done|by rewrite length_insert|by apply binv_append|..].
    + rewrite nodes_app. done.
    + rewrite nodes_app. cbn. by rewrite Permutation_app_comm.
    + intros j seg p Hin Hp. apply segs_mid in Hin as [[-> ->]|Hin]; [left; by apply list_elem_of_singleton in Hp|].
      rewrite app_nil_r in Hin. eauto.
    + intros x Hx. apply Hf. rewrite app_nil_r. done.
  - rewrite nodes_mid in Hr, Hn.
    destruct (list_insert_at (hlist ht) 0 (nodes s1) (seg ++ nodes s2) n (List.hd 0 seg)) as (l & El & Hl & Hf); try done.
    { by destruct seg. }
    simpl. rewrite El. simpl.
    eexists _, l, (s1 ++ (i, n :: seg) :: s2). split_and!; [done|by rewrite length_insert|..].
    + eapply binv_update; [done|done|]. simpl. by destruct seg.
    + rewrite nodes_mid. done.
    + rewrite !nodes_mid. simpl. symmetry. apply Permutation_middle.
    + intros j t p Hin Hp. apply segs_mid in Hin as [[-> ->]|Hin].
      * apply elem_of_cons in Hp as [->|Hp]; [by left|]. right. exists seg. by rewrite segs_mid; auto.
      * right. exists t. by rewrite segs_mid; auto.
    + intros x Hx. apply Hf. rewrite nodes_mid in Hx. done.
Qed.

(** ** The walk over a bucket *)

Definition matches (ps : gmap Z pair) (key : bytes) (hash : Z) (p : Z) : bool :=
  match ps !! p with
  | Some pr => (p_hash pr =? hash) && bool_decide (p_key pr = key)
  | None => false
  end.

Lemma find_from_spec ht key hash s fuel a lst :
  path (nx (hlist ht)) a s -> (forall p, p ∈ a :: s -> is_Some (pairs ht !! p)) -> NoDup (a :: s) ->
  lst = List.last s a -> (length (a :: s) <= fuel)%nat ->
  find_from fuel ht a lst key hash = Some (List.find (matches (pairs ht) key hash) (a :: s)).
Proof.
  revert fuel a. induction s as [|x s IH]; intros [|fuel] a Hp Hs Hd -> Hf; simpl in Hf; try lia.
  - simpl. destruct (Hs a) as [pr Ea]; [set_solver|]. unfold matches. rewrite Ea. simpl. case_if; [done|].
    by rewrite Z.eqb_refl.
  - destruct Hp as [Hn Hp]. destruct (Hs a) as [pr Ea]; [set_solver|]. cbn [find_from List.find].
    unfold matches at 1. rewrite Ea. simpl. case_if; [done|].
    assert (a <> List.last (x :: s) a) as Ha.
    { apply NoDup_cons in Hd as [Hd _]. intros Heq. apply Hd. rewrite Heq. destruct s as [|y s'] using rev_ind; [set_solver|].
      rewrite app_comm_cons, last_last. set_solver. }
    destruct (Z.eqb_spec a (List.last (x :: s) a)) as [He|_]; [done|]. change (match s with [] => x | _ :: _ => List.last s a end) with (List.last (x :: s) a).
    rewrite (proj2 (Z.eqb_neq _ _)) by done. rewrite Hn. simpl.
    apply IH; [done|intros p Hin; apply Hs; set_solver|by apply NoDup_cons in Hd as [_ ?]| |simpl; lia].
    destruct s as [|y s' _] using rev_ind; [done|]. by rewrite app_comm_cons, !last_last.
Qed.

(** ** The table *)

Section table.
Context `{KeyHash}.

Definition entry (ps : gmap Z pair) (p : Z) (kv : bytes * json) : Prop :=
  ps !! p = Some (Pair (hash_str 0 kv.1) kv.2 kv.1).

Definition home (n : Z) (ps : gmap Z pair) (p : Z) (i : nat) : Prop :=
  exists pr, ps !! p = Some pr /\ i = Z.to_nat (p_hash pr mod 2 ^ n).

Record wf (ht : hashtable) (segs : segments) (ys : list Z) (ms : list (bytes * json)) : Prop := {
  w_order : 3 <= order ht <= 28;
  w_buckets : zlen (buckets ht) = 2 ^ order ht;
  w_binv : binv (buckets ht) segs;
  w_ring : ring (hlist ht) 0 (nodes segs);
  w_oring : ring (ordered_list ht) 0 ys;
  w_same : nodes segs ≡ₚ ys;
  w_dom : forall p, is_Some (pairs ht !! p) -> p ∈ ys;
  w_home : forall i seg p, (i, seg) ∈ segs -> p ∈ seg -> home (order ht) (pairs ht) p i;
  w_rel : Forall2 (entry (pairs ht)) ys ms;
  w_keys : NoDup ms.*1;
  w_size : ht_size ht = zlen ms;
  w_load : zlen ms <= 2 ^ order ht
}.

Lemma hashsize_pow n : 0 <= n <= 31 -> hashsize n = 2 ^ n.
Proof.
  intros Hn. unfold hashsize. rewrite Z.shiftl_1_l. apply u32_small. split; [apply Z.pow_nonneg; lia|]. apply Z.pow_lt_mono_r; lia.
Qed.

Lemma index_mod ht h : 0 <= order ht <= 31 -> index_of ht h = Z.to_nat (h mod 2 ^ order ht).
Proof.
  intros Ho. unfold index_of, hashmask. rewrite hashsize_pow by done. f_equal.
  pose proof (Z.pow_pos_nonneg 2 (order ht) ltac:(lia) ltac:(lia)).
  pose proof (Z.pow_le_mono_r 2 (order ht) 31 ltac:(lia) ltac:(lia)).
  rewrite u32_small by lia. rewrite Z.sub_1_r, <- Z.ones_equiv. apply Z.land_ones. lia.
Qed.

Lemma index_lt n h len : 0 <= n -> zlen len = 2 ^ n -> (Z.to_nat (h mod 2 ^ n) < length (len : list bucket))%nat.
Proof. intros Hn Hl. unfold zlen in Hl. pose proof (Z.mod_pos_bound h (2 ^ n) ltac:(apply Z.pow_pos_nonneg; lia)). lia. Qed.

Lemma wf_length ht segs ys ms : wf ht segs ys ms -> base.size (pairs ht) = length ys.
Proof.
  intros W. pose proof (w_oring _ _ _ _ W) as [Hd _]. apply NoDup_cons in Hd as [_ Hd].
  rewrite <- size_dom. assert (dom (pairs ht) = list_to_set (C := gset Z) ys) as ->; [|by apply size_list_to_set].
  apply set_eq. intros p. rewrite elem_of_dom, elem_of_list_to_set. split; [apply (w_dom _ _ _ _ W)|].
  intros Hp. apply list_elem_of_lookup in Hp as [i Hi]. destruct (Forall2_lookup_l _ _ _ _ _ (w_rel _ _ _ _ W) Hi) as (kv & _ & He). by eexists.
Qed.

(** A node of the table, with its segment and its member. *)
Record located (ht : hashtable) (segs : segments) (ys : list Z) (ms : list (bytes * json)) (key : bytes) (p : Z)
    (v : json) (s1 : segments) (i : nat) (A B : list Z) (s2 : segments) (y1 y2 : list Z) (m1 m2 : list (bytes * json)) : Prop := {
  l_segs : segs = s1 ++ (i, A ++ p :: B) :: s2;
  l_ys : ys = y1 ++ p :: y2;
  l_ms : ms = m1 ++ (key, v) :: m2;
  l_rel1 : Forall2 (entry (pairs ht)) y1 m1;
  l_rel2 : Forall2 (entry (pairs ht)) y2 m2;
  l_pair : pairs ht !! p = Some (Pair (hash_str 0 key) v key)
}.

Lemma wf_located ht segs ys ms p key v' h s1 i A B s2 :
  wf ht segs ys ms -> segs = s1 ++ (i, A ++ p :: B) :: s2 -> pairs ht !! p = Some (Pair h v' key) ->
  exists v y1 y2 m1 m2, located ht segs ys ms key p v s1 i A B s2 y1 y2 m1 m2.
Proof.
  intros W Hs Hp. assert (p ∈ ys) as Hin by (apply (w_dom _ _ _ _ W); by eexists).
  apply list_elem_of_split in Hin as (y1 & y2 & Ey).
  pose proof (w_rel _ _ _ _ W) as Hr. rewrite Ey in Hr. apply Forall2_app_inv_l in Hr as (m1 & m2' & Hr1 & Hr2 & Em).
  apply Forall2_cons_inv_l in Hr2 as ([k v] & m2 & He & Hr2 & ->). unfold entry in He. simpl in He.
  rewrite Hp in He. injection He as -> -> ->. exists v, y1, y2, m1, m2. by split.
Qed.

Lemma nodes_elem segs p : p ∈ nodes segs -> exists s1 i A B s2, segs = s1 ++ (i, A ++ p :: B) :: s2.
Proof.
  unfold nodes. intros Hp. apply list_elem_of_join in Hp as (seg & Hp & Hs). apply list_elem_of_fmap in Hs as ([i t] & -> & Hs).
  apply list_elem_of_split in Hp as (A & B & Ht). simpl in Ht. subst t. apply list_elem_of_split in Hs as (s1 & s2 & ->).
  by exists s1, i, A, B, s2.
Qed.

(** A key that is a member has its node in the segment of its index. *)
Lemma member_home ht segs ys ms key v :
  wf ht segs ys ms -> (key, v) ∈ ms ->
  exists p s1 seg s2, segs = s1 ++ (Z.to_nat (hash_str 0 key mod 2 ^ order ht), seg) :: s2 /\ p ∈ seg
    /\ pairs ht !! p = Some (Pair (hash_str 0 key) v key).
Proof.
  intros W Hin. apply list_elem_of_lookup in Hin as [j Hj].
  destruct (Forall2_lookup_r _ _ _ _ _ (w_rel _ _ _ _ W) Hj) as (p & Hp & He). unfold entry in He. simpl in He.
  apply list_elem_of_lookup_2 in Hp. rewrite <- (w_same _ _ _ _ W) in Hp.
  destruct (nodes_elem _ _ Hp) as (s1 & i & A & B & s2 & ->).
  destruct (w_home _ _ _ _ W i (A ++ p :: B) p) as (pr & Hpr & ->); [set_solver|set_solver|].
  rewrite He in Hpr. injection Hpr as <-. simpl. exists p, s1, (A ++ p :: B), s2. split_and!; [done|set_solver|done].
Qed.

Lemma seg_path ht segs ys ms s1 i x seg s2 :
  wf ht segs ys ms -> segs = s1 ++ (i, x :: seg) :: s2 -> path (nx (hlist ht)) x seg /\ NoDup (x :: seg).
Proof.
  intros W ->. destruct (w_ring _ _ _ _ W) as [Hd Hl]. rewrite nodes_mid in Hd, Hl. split.
  - simpl in Hl. apply linked_app in Hl as [_ Hl]. apply linked_path in Hl. rewrite <- app_assoc in Hl. by eapply path_app.
  - apply NoDup_cons in Hd as [_ Hd]. apply NoDup_app in Hd as (_ & _ & Hd). by apply NoDup_app in Hd as (Hd & _ & _).
Qed.

Lemma seg_length ht segs ys ms s1 i seg s2 :
  wf ht segs ys ms -> segs = s1 ++ (i, seg) :: s2 -> (length seg <= base.size (pairs ht))%nat.
Proof.
  intros W Hs. rewrite (wf_length _ _ _ _ W), <- (w_same _ _ _ _ W), Hs, nodes_mid, !length_app. lia.
Qed.

(** Looking a key up: its node, or no member has the key. *)
Lemma find_pair_spec ht segs ys ms at_ key :
  wf ht segs ys ms ->
  exists b r, buckets ht !! index_of ht (hash_str at_ key) = Some b
    /\ hashtable_find_pair ht b key (hash_str at_ key) = Some r
    /\ match r with
       | Some p => exists v s1 A B s2 y1 y2 m1 m2,
           located ht segs ys ms key p v s1 (index_of ht (hash_str at_ key)) A B s2 y1 y2 m1 m2
           /\ b = Bucket (List.hd 0 (A ++ p :: B)) (List.last (A ++ p :: B) 0)
       | None => key ∉ ms.*1
       end.
Proof.
  intros W. rewrite (hash_str_place at_ 0). pose proof (w_order _ _ _ _ W) as Ho. rewrite index_mod by lia.
  destruct (lookup_lt_is_Some_2 (buckets ht) (Z.to_nat (hash_str 0 key mod 2 ^ order ht))) as [b Hb].
  { apply index_lt; [lia|apply W]. }
  exists b. destruct (w_ring _ _ _ _ W) as [Hd _]. apply NoDup_cons in Hd as [H0 _].
  destruct (bucket_cases _ _ _ _ (w_binv _ _ _ _ W) H0 Hb) as [(-> & He & Hs)|(s1 & seg & s2 & Es & Hne & Eb & He)];
    unfold hashtable_find_pair; rewrite He.
  - exists None. split_and!; [done..|]. intros Hin. apply list_elem_of_fmap in Hin as ([k v] & -> & Hin).
    destruct (member_home _ _ _ _ _ _ W Hin) as (p & s1 & seg & s2 & Es & _). apply Hs. rewrite Es, segs_keys_mid. set_solver.
  - destruct seg as [|x seg]; [done|]. destruct (seg_path _ _ _ _ _ _ _ _ _ W Es) as [Hpath Hnd].
    assert (Hsome : forall p, p ∈ x :: seg -> is_Some (pairs ht !! p)).
    { intros p Hp. destruct (w_home _ _ _ _ W (Z.to_nat (hash_str 0 key mod 2 ^ order ht)) (x :: seg) p) as (pr & Hpr & _);
        [rewrite Es, segs_mid; auto|done|by eexists]. }
    subst b. cbn [first last List.hd]. rewrite (find_from_spec ht key _ seg);
      [|done..|by destruct seg as [|y s' _] using rev_ind; [|rewrite app_comm_cons, !last_last]|eapply seg_length; eauto].
    eexists. split; [done|]. split; [done|].
    destruct (List.find _ _) as [p|] eqn:Ef.
    + apply find_some in Ef as [Hp Hm]. apply list_elem_of_In in Hp. unfold matches in Hm. destruct (Hsome _ Hp) as [[h v k] Epr]. rewrite Epr in Hm.
      apply andb_prop in Hm as [_ Hk]. apply bool_decide_eq_true in Hk. simpl in Hk. subst k.
      apply list_elem_of_split in Hp as (A & B & Eseg). rewrite Eseg in Es.
      destruct (wf_located _ _ _ _ _ _ _ _ _ _ _ _ _ W Es Epr) as (v' & y1 & y2 & m1 & m2 & Hloc).
      exists v', s1, A, B, s2, y1, y2, m1, m2. split; [done|]. by rewrite <- Eseg.
    + intros Hin. apply list_elem_of_fmap in Hin as ([k v] & -> & Hin). cbn [fst] in *.
      destruct (member_home _ _ _ _ _ _ W Hin) as (p & t1 & t & t2 & Et & Hp & Epr).
      assert (t = x :: seg) as ->.
      { pose proof (w_binv _ _ _ _ W) as [Hk _ _]. rewrite Es in Hk, Et.
        assert ((Z.to_nat (hash_str 0 k mod 2 ^ order ht), t) ∈ s1 ++ (Z.to_nat (hash_str 0 k mod 2 ^ order ht), x :: seg) :: s2) as Hin'
          by (rewrite Et, segs_mid; auto).
        apply segs_mid in Hin' as [[_ ->]|Hin']; [done|]. by destruct (segs_other _ _ _ _ _ _ Hk Hin'). }
      apply list_elem_of_In in Hp. pose proof (find_none _ _ Ef _ Hp) as Hm. unfold matches in Hm. rewrite Epr in Hm. simpl in Hm.
      by rewrite Z.eqb_refl, bool_decide_eq_true_2 in Hm.
Qed.

Lemma entries_frame ps ps' ys ms :
  Forall2 (entry ps) ys ms -> (forall p, p ∈ ys -> ps' !! p = ps !! p) -> Forall2 (entry ps') ys ms.
Proof.
  intros Hr. induction Hr as [|p kv ys ms He Hr IH]; intros Hf; constructor.
  - unfold entry in *. rewrite Hf by set_solver. done.
  - apply IH. intros q Hq. apply Hf. set_solver.
Qed.

Lemma located_fresh ht segs ys ms key p v s1 i A B s2 y1 y2 m1 m2 :
  wf ht segs ys ms -> located ht segs ys ms key p v s1 i A B s2 y1 y2 m1 m2 ->
  p <> 0 /\ p ∉ y1 ++ y2 /\ key ∉ m1.*1 /\ key ∉ m2.*1 /\ NoDup (m1 ++ m2).*1.
Proof.
  intros W L. destruct (w_oring _ _ _ _ W) as [Hd _]. rewrite (l_ys _ _ _ _ _ _ _ _ _ _ _ _ _ _ _ _ L) in Hd.
  pose proof (w_keys _ _ _ _ W) as Hk. rewrite (l_ms _ _ _ _ _ _ _ _ _ _ _ _ _ _ _ _ L) in Hk.
  apply NoDup_cons in Hd as [H0 Hd]. rewrite <- Permutation_middle in Hd. apply NoDup_cons in Hd as [Hp _].
  rewrite fmap_app in Hk. simpl in Hk. rewrite <- Permutation_middle, <- fmap_app in Hk. apply NoDup_cons in Hk as [Hk Hk'].
  rewrite fmap_app in Hk. split_and!; set_solver.
Qed.

(** The value of a member, replaced. *)
Lemma set_value_wf ht segs ys ms key p v v' s1 i A B s2 y1 y2 m1 m2 :
  wf ht segs ys ms -> located ht segs ys ms key p v s1 i A B s2 y1 y2 m1 m2 ->
  exists ht', set_value ht p v' = Some ht' /\ wf ht' segs ys (m1 ++ (key, v') :: m2)
    /\ released ht' = released ht ++ [v].
Proof.
  intros W L. destruct (located_fresh _ _ _ _ _ _ _ _ _ _ _ _ _ _ _ _ W L) as (_ & Hp & _).
  destruct L as [Es Ey Em Hr1 Hr2 Epr]. unfold set_value. rewrite Epr. simpl. eexists. split; [done|]. split; [|done].
  destruct W as [Wo Wb Wbi Wr Wor Ws Wd Wh Wrel Wk Wsz Wl]. subst ms. split; cbn [order buckets hlist ordered_list pairs ht_size]; try done.
  - intros q Hq. destruct (decide (q = p)) as [->|Hn]; [subst ys; set_solver|]. apply Wd. by rewrite lookup_insert_ne in Hq.
  - intros j seg q Hj Hq. destruct (Wh _ _ _ Hj Hq) as (pr & Hpr & ->). destruct (decide (q = p)) as [->|Hn].
    + rewrite Epr in Hpr. injection Hpr as <-. eexists. by rewrite lookup_insert_eq.
    + exists pr. by rewrite lookup_insert_ne.
  - subst ys. apply Forall2_app; [eapply entries_frame; [done|]|constructor; [|eapply entries_frame; [done|]]].
    + intros q Hq. apply lookup_insert_ne. set_solver.
    + unfold entry. by rewrite lookup_insert_eq.
    + intros q Hq. apply lookup_insert_ne. set_solver.
  - rewrite fmap_app in *. done.
  - rewrite Wsz. by zl.
  - by zl.
Qed.

(** A new pair. *)
Lemma add_pair_wf ht segs ys ms at_ key v p :
  wf ht segs ys ms -> key ∉ ms.*1 -> zlen ms < 2 ^ order ht -> zlen key < 2 ^ 32 - 1 - pair_key_offset ->
  p <> 0 -> pairs ht !! p = None ->
  exists ht' segs', add_pair (Some p) ht (index_of ht (hash_str at_ key)) key (hash_str at_ key) v = Some (0, ht')
    /\ wf ht' segs' (ys ++ [p]) (ms ++ [(key, v)]) /\ released ht' = released ht.
Proof.
  intros W Hk Hload Hlen Hp0 Hnew. unfold add_pair. rewrite (proj2 (Z.leb_gt _ _)) by lia. rewrite (hash_str_place at_ 0).
  destruct W as [Wo Wb Wbi Wr Wor Ws Wd Wh Wrel Wk Wsz Wl]. rewrite index_mod by lia.
  assert (p ∉ ys) as Hpy.
  { intros Hin. apply list_elem_of_lookup in Hin as [j Hj]. destruct (Forall2_lookup_l _ _ _ _ _ Wrel Hj) as (kv & _ & He).
    unfold entry in He. by rewrite Hnew in He. }
  assert (Hinit : forall l c zs, ring l c zs -> p ∉ c :: zs -> ring (hash_list_init l p) c zs).
  { intros l c zs Hl Hn. eapply ring_frame; [done|]. intros x Hx. simpl. rewrite !lookup_insert_ne by set_solver. done. }
  assert (p ∉ 0 :: nodes segs) as Hpn by (rewrite Ws; set_solver).
  match goal with |- context [insert_to_bucket ?h ?i p] =>
    destruct (insert_to_bucket_spec h segs i p) as (bs & l & segs' & -> & Hlen' & Hb' & Hr' & Hperm & Hseg & _) end;
    cbn [buckets hlist]; try done.
  { by apply Hinit. }
  { apply index_lt; [lia|done]. }
  { simpl. rewrite lookup_insert_eq. by eexists. }
  { simpl. rewrite lookup_insert_eq. by eexists. }
  simpl. destruct (list_insert_ring (hash_list_init (ordered_list ht) p) 0 ys p) as (o & -> & Ho & _).
  { apply Hinit; [done|set_solver]. }
  { set_solver. }
  { simpl. rewrite lookup_insert_eq. by eexists. }
  { simpl. rewrite lookup_insert_eq. by eexists. }
  simpl. eexists _, segs'. split; [done|]. split; [|done].
  assert (0 <= 2 ^ order ht <= 2 ^ 28) by (split; [apply Z.pow_nonneg; lia|apply Z.pow_le_mono_r; lia]).
  split; cbn [order buckets hlist ordered_list pairs ht_size]; try done.
  - unfold zlen in *. rewrite Hlen'. done.
  - rewrite Hperm, Ws. by rewrite Permutation_app_comm.
  - intros q Hq. destruct (decide (q = p)) as [->|Hn]; [set_solver|]. rewrite lookup_insert_ne in Hq by done. apply Wd in Hq. set_solver.
  - intros j seg q Hj Hq. destruct (Hseg _ _ _ Hj Hq) as [[-> ->]|(seg0 & Hj0 & Hq0)].
    + eexists. by rewrite lookup_insert_eq.
    + destruct (Wh _ _ _ Hj0 Hq0) as (pr & Hpr & ->). exists pr. split; [|done]. rewrite lookup_insert_ne; [done|]. intros ->. congruence.
  - apply Forall2_app; [eapply entries_frame; [done|]; intros q Hq; apply lookup_insert_ne; set_solver|].
    constructor; [|done]. unfold entry. by rewrite lookup_insert_eq.
  - rewrite fmap_app. apply NoDup_app. split_and!; [done|set_solver|apply NoDup_singleton].
  - rewrite zlen_app, zlen_cons, zlen_nil, Wsz, u32_small by (pose proof (zlen_nonneg ms); lia). lia.
  - rewrite zlen_app, zlen_cons, zlen_nil. lia.
Qed.

(** ** Deleting *)

(** What [hashtable_do_del] writes to the bucket of the pair. *)
Definition del_bucket (l : links) (b : bucket) (p : Z) : option bucket :=
  if (p =? first b) && (p =? last b) then Some empty_bucket
  else if p =? first b then n ← nx l !! p; Some (Bucket n (last b))
  else if p =? last b then q ← pv l !! p; Some (Bucket (first b) q)
  else Some b.

Definition segs_del (s1 : segments) (i : nat) (AB : list Z) (s2 : segments) : segments :=
  match AB with [] => s1 ++ s2 | _ => s1 ++ (i, AB) :: s2 end.

Lemma nodes_segs_del s1 i A B s2 : nodes (segs_del s1 i (A ++ B) s2) = (nodes s1 ++ A) ++ B ++ nodes s2.
Proof.
  unfold segs_del. destruct (A ++ B) as [|x t] eqn:E.
  - apply app_eq_nil in E as [-> ->]. by rewrite nodes_app, app_nil_r.
  - rewrite nodes_mid, <- E. by rewrite <- !app_assoc.
Qed.

Lemma hd_mid (A B : list Z) p d : p ∉ A -> (p =? List.hd d (A ++ p :: B)) = match A with [] => true | _ => false end.
Proof. intros Hp. destruct A as [|a A]; simpl; [apply Z.eqb_refl|]. apply Z.eqb_neq. set_solver. Qed.

Lemma last_mid (A B : list Z) p d : p ∉ B -> (p =? List.last (A ++ p :: B) d) = match B with [] => true | _ => false end.
Proof.
  intros Hp. destruct B as [|z B _] using rev_ind; [rewrite last_last; apply Z.eqb_refl|].
  rewrite app_comm_cons, app_assoc, last_last. destruct B; simpl; apply Z.eqb_neq; set_solver.
Qed.

Lemma last_hd_app (A B : list Z) d : B <> [] -> List.last (A ++ B) d = List.last B d.
Proof. intros HB. destruct B as [|z B _] using rev_ind; [done|]. by rewrite app_assoc, !last_last. Qed.

Lemma del_bucket_spec l bs s1 i A p B s2 :
  binv bs (s1 ++ (i, A ++ p :: B) :: s2) -> ring l 0 (nodes s1 ++ (A ++ p :: B) ++ nodes s2) ->
  exists b', del_bucket l (Bucket (List.hd 0 (A ++ p :: B)) (List.last (A ++ p :: B) 0)) p = Some b'
    /\ binv (<[i := b']> bs) (segs_del s1 i (A ++ B) s2).
Proof.
  intros Hb [Hd Hl]. apply NoDup_cons in Hd as [_ Hd]. apply NoDup_app in Hd as (_ & _ & Hd). apply NoDup_app in Hd as (Hd & _ & _).
  rewrite <- Permutation_middle in Hd. apply NoDup_cons in Hd as [Hp _]. unfold del_bucket. cbn [first last].
  rewrite hd_mid, last_mid by set_solver.
  assert (Hl' : linked l 0 (nodes s1 ++ A) p /\ linked l p (B ++ nodes s2) 0).
  { rewrite <- app_assoc in Hl. simpl in Hl. rewrite app_assoc in Hl. by apply linked_app in Hl. }
  destruct Hl' as [Hl1 Hl2]. clear Hl Hp. destruct A as [|a A], B as [|z B]; simpl.
  - exists empty_bucket. split; [done|]. by eapply binv_drop.
  - simpl in Hl2. destruct Hl2 as (-> & _). simpl. eexists. split; [done|]. eapply binv_update; [done|done|]. done.
  - destruct (linked_last _ _ _ _ Hl1) as [-> _]. simpl. eexists. split; [done|]. rewrite app_nil_r.
    eapply binv_update; [done|done|]. simpl. unfold before. by rewrite (last_hd_app (nodes s1)).
  - eexists. split; [done|]. eapply binv_update; [done|done|]. simpl. f_equal.
    etransitivity; [apply (last_hd_app (a :: A) (p :: z :: B)); done|]. symmetry. apply (last_hd_app (a :: A) (z :: B)). done.
Qed.

Lemma hashtable_del_present ht segs ys ms at_ key p v s1 A B s2 y1 y2 m1 m2 b :
  wf ht segs ys ms -> buckets ht !! index_of ht (hash_str at_ key) = Some b ->
  hashtable_find_pair ht b key (hash_str at_ key) = Some (Some p) ->
  located ht segs ys ms key p v s1 (index_of ht (hash_str at_ key)) A B s2 y1 y2 m1 m2 ->
  b = Bucket (List.hd 0 (A ++ p :: B)) (List.last (A ++ p :: B) 0) ->
  exists ht' segs', hashtable_del ht at_ key = Some (0, ht') /\ wf ht' segs' (y1 ++ y2) (m1 ++ m2)
    /\ released ht' = released ht ++ [v].
Proof.
  intros W Hb Hf L Eb. destruct (located_fresh _ _ _ _ _ _ _ _ _ _ _ _ _ _ _ _ W L) as (Hp0 & Hpy & _ & _ & Hnd).
  destruct L as [Es Ey Em Hr1 Hr2 Epr]. destruct W as [Wo Wb Wbi Wr Wor Ws Wd Wh Wrel Wk Wsz Wl].
  set (i := index_of ht (hash_str at_ key)) in *. subst segs ys ms. rewrite nodes_mid in Wr.
  destruct (del_bucket_spec _ _ _ _ _ _ _ _ Wbi Wr) as (b' & Eb' & Hb'). rewrite <- Eb in Eb'. unfold del_bucket in Eb'.
  unfold hashtable_del, hashtable_do_del. fold i. rewrite Hb. simpl. rewrite Hf. simpl. rewrite Eb'. simpl.
  assert (Wr' : ring (hlist ht) 0 ((nodes s1 ++ A) ++ p :: (B ++ nodes s2))) by (rewrite <- !app_assoc in *; done).
  destruct (list_remove_at _ _ _ _ _ Wr') as (l & -> & Hl). simpl.
  destruct (list_remove_at _ _ _ _ _ Wor) as (o & -> & Ho). simpl. rewrite Epr. simpl.
  assert (Hperm : (nodes s1 ++ A) ++ B ++ nodes s2 ≡ₚ y1 ++ y2).
  { apply (Permutation_cons_inv (a := p)). rewrite Permutation_middle, (Permutation_middle y1). rewrite <- Ws, nodes_mid.
    by rewrite <- !app_assoc. }
  exists (Table (u32 (ht_size ht - 1)) (<[i := b']> (buckets ht)) (order ht) (list_free l p) (list_free o p)
           (delete p (pairs ht)) (released ht ++ [v])), (segs_del s1 i (A ++ B) s2). split; [done|]. split; [|done].
  split; cbn [order buckets hlist ordered_list pairs ht_size]; try done.
  - unfold zlen in *. by rewrite length_insert.
  - rewrite nodes_segs_del. apply ring_free; [done|]. rewrite Hperm. set_solver.
  - apply ring_free; [done|]. set_solver.
  - by rewrite nodes_segs_del.
  - intros q [pr Hq]. apply lookup_delete_Some in Hq as [Hne Hq]. assert (q ∈ y1 ++ p :: y2) by (apply Wd; by eexists). set_solver.
  - intros j seg q Hj Hq. assert (q ∈ nodes (segs_del s1 i (A ++ B) s2)) as Hqn
      by (unfold nodes; apply list_elem_of_join; exists seg; split; [done|]; apply list_elem_of_fmap; by exists (j, seg)).
    assert (q <> p) by (intros ->; apply Hpy; by rewrite <- Hperm, <- (nodes_segs_del s1 i)).
    assert (exists seg0, (j, seg0) ∈ s1 ++ (i, A ++ p :: B) :: s2 /\ q ∈ seg0) as (seg0 & Hj0 & Hq0).
    { unfold segs_del in Hj. destruct (A ++ B) as [|x t] eqn:EAB; [exists seg; by rewrite segs_mid; auto|].
      apply segs_mid in Hj as [[-> ->]|Hj]; [|exists seg; by rewrite segs_mid; auto].
      exists (A ++ p :: B). rewrite segs_mid. split; [auto|]. rewrite <- EAB in Hq. set_solver. }
    destruct (Wh _ _ _ Hj0 Hq0) as (pr & Hpr & ->). exists pr. by rewrite lookup_delete_ne.
  - apply Forall2_app; (eapply entries_frame; [done|]); intros q Hq; apply lookup_delete_ne; set_solver.
  - rewrite zlen_app, zlen_cons in Wsz, Wl. rewrite zlen_app, Wsz. pose proof (zlen_nonneg m1). pose proof (zlen_nonneg m2).
    assert (2 ^ order ht <= 2 ^ 28) by (apply Z.pow_le_mono_r; lia). rewrite u32_small by lia. lia.
  - rewrite zlen_app, zlen_cons in Wl. rewrite zlen_app. lia.
Qed.

(** ** Walking the whole list *)

(** The nodes still to be visited, from the first of them to the header. *)
Definition todo (n : gmap Z Z) (zs : list Z) : Prop :=
  match zs with [] => True | x :: r => path n x (r ++ [0]) end.

Lemma todo_cons n x r : todo n (x :: r) -> n !! x = Some (List.hd 0 r) /\ todo n r.
Proof. destruct r; simpl; tauto. Qed.

Lemma path_frame n n' a r b : path n a (r ++ [b]) -> (forall x, x ∈ a :: r -> n' !! x = n !! x) -> path n' a (r ++ [b]).
Proof.
  revert a. induction r as [|x r IH]; intros a; simpl; intros [Ha Hp] Hf; rewrite Hf by set_solver; split; try done.
  apply IH; [done|]. intros y Hy. apply Hf. set_solver.
Qed.

Lemma todo_frame n n' zs : todo n zs -> (forall x, x ∈ zs -> n' !! x = n !! x) -> todo n' zs.
Proof. destruct zs as [|x r]; simpl; [done|]. apply path_frame. Qed.

Lemma ring_todo l zs : ring l 0 zs -> nx l !! 0 = Some (List.hd 0 zs) /\ todo (nx l) zs.
Proof.
  intros [_ Hl]. apply linked_path in Hl. destruct zs as [|x r]; simpl in *; tauto.
Qed.

Lemma rehash_from_spec zs fuel ht segs :
  binv (buckets ht) segs -> ring (hlist ht) 0 (nodes segs) -> zlen (buckets ht) = 2 ^ order ht -> 0 <= order ht ->
  todo (nx (hlist ht)) zs -> NoDup (0 :: nodes segs ++ zs) ->
  (forall p, p ∈ zs -> is_Some (pv (hlist ht) !! p) /\ is_Some (pairs ht !! p)) ->
  (forall i seg p, (i, seg) ∈ segs -> p ∈ seg -> home (order ht) (pairs ht) p i) -> (length zs <= fuel)%nat ->
  exists bs l segs', rehash_from fuel ht (2 ^ order ht) (List.hd 0 zs) = Some (with_lists ht bs l)
    /\ length bs = length (buckets ht) /\ binv bs segs' /\ ring l 0 (nodes segs') /\ nodes segs' ≡ₚ nodes segs ++ zs
    /\ (forall i seg p, (i, seg) ∈ segs' -> p ∈ seg -> home (order ht) (pairs ht) p i).
Proof.
  revert fuel ht segs. induction zs as [|x zs IH]; intros fuel ht segs Hb Hr Hlen Ho Ht Hd Hz Hh Hf.
  - exists (buckets ht), (hlist ht), segs. split_and!; try done; [|by rewrite app_nil_r]. destruct fuel, ht; done.
  - destruct fuel as [|fuel]; simpl in Hf; [lia|]. destruct (todo_cons _ _ _ Ht) as [Hnx Ht'].
    destruct (Hz x) as [Hpv [pr Epr]]; [set_solver|]. simpl in Hd.
    assert (x <> 0) by (apply NoDup_cons in Hd as [Hd _]; set_solver).
    assert (x ∉ 0 :: nodes segs ++ zs) as Hx by (rewrite <- Permutation_middle in Hd; apply NoDup_cons in Hd as [? Hd]; apply NoDup_cons in Hd as [? _]; set_solver).
    assert (Hrest : forall y, y ∈ zs -> y ∉ x :: 0 :: nodes segs).
    { intros y Hy. rewrite <- Permutation_middle in Hd. apply NoDup_cons in Hd as [? Hd]. apply NoDup_cons in Hd as [? Hd].
      apply NoDup_app in Hd as (_ & Hd & _). set_solver. }
    cbn [rehash_from List.hd]. rewrite (proj2 (Z.eqb_neq x 0)), Hnx by done. simpl. rewrite Epr. simpl.
    destruct (insert_to_bucket_spec ht segs (Z.to_nat (p_hash pr mod 2 ^ order ht)) x)
      as (bs & l & segs' & -> & Hlen' & Hb' & Hr' & Hperm & Hseg & Hframe);
      [done|done|by apply index_lt|set_solver|by rewrite Hnx|done|].
    simpl. destruct (IH fuel (with_lists ht bs l) segs') as (bs' & l' & segs'' & Ereh & Hlen'' & Hb'' & Hr'' & Hperm'' & Hh'');
      cbn [buckets hlist order pairs with_lists]; try done; [by unfold zlen in *; rewrite Hlen'|..|lia|].
    + eapply todo_frame; [done|]. intros y Hy. by apply Hframe, Hrest.
    + rewrite Hperm. rewrite <- Permutation_middle in Hd. done.
    + intros p Hp. destruct (Hz p) as [Hp1 Hp2]; [set_solver|]. split; [|done].
      destruct (Hframe p) as [_ ->]; [by apply Hrest|done].
    + intros i seg p Hi Hp. destruct (Hseg _ _ _ Hi Hp) as [[-> ->]|(seg0 & Hi0 & Hp0)]; [by exists pr|eauto].
    + exists bs', l', segs''. split_and!; [exact Ereh|by rewrite Hlen''|done|done| |done]. rewrite Hperm'', Hperm. simpl. by rewrite <- Permutation_middle.
Qed.

Lemma malloc_buckets_pow room n : 0 <= n <= 29 -> malloc_buckets room (2 ^ n) = if room && (n <=? 28) then Some (2 ^ n) else None.
Proof.
  intros Hn. unfold malloc_buckets. destruct (Z.leb_spec n 28) as [H28|H28].
  - pose proof (Z.pow_pos_nonneg 2 n ltac:(lia) ltac:(lia)). pose proof (Z.pow_le_mono_r 2 n 28 ltac:(lia) H28).
    rewrite u32_small by lia. rewrite (proj2 (Z.eqb_neq _ _)) by lia. rewrite andb_true_r. destruct room; [|done].
    f_equal. by apply Z.div_mul.
  - assert (n = 29) as -> by lia. by rewrite andb_false_r.
Qed.

(** Doubling the buckets moves every pair and keeps the members. *)
Lemma rehash_wf room ht segs ys ms :
  wf ht segs ys ms ->
  exists rc ht' segs', hashtable_do_rehash room ht = Some (rc, ht') /\ wf ht' segs' ys ms /\ released ht' = released ht
    /\ pairs ht' = pairs ht
    /\ ((rc = 0 /\ order ht' = order ht + 1) \/ (rc = -1 /\ (room = false \/ order ht = 28))).
Proof.
  intros W. pose proof W as [Wo Wb Wbi Wr Wor Ws Wd Wh Wrel Wk Wsz Wl]. unfold hashtable_do_rehash.
  rewrite hashsize_pow, malloc_buckets_pow by lia.
  destruct (room && (order ht + 1 <=? 28)) eqn:Er.
  2:{ exists (-1), ht, segs. split_and!; try done. right. split; [done|]. apply andb_false_iff in Er as [|Er]; [by left|right]. b2p. lia. }
  b2p. unfold init_buckets. rewrite Z.leb_refl. simpl. destruct (ring_todo _ _ Wr) as [-> Ht]. simpl.
  assert (Hnd : NoDup (0 :: nodes segs)) by apply Wr.
  match goal with |- context [rehash_from ?f ?h _ _] => destruct (rehash_from_spec (nodes segs) f h []) as (bs & l & segs' & Ereh & Hlen & Hb' & Hr' & Hp' & Hh') end;
    cbn [buckets hlist order pairs] in *; try done; try lia.
  - apply binv_init.
  - apply ring_init.
  - unfold zlen. rewrite length_replicate. pose proof (Z.pow_nonneg 2 (order ht + 1)). lia.
  - eapply todo_frame; [done|]. intros x Hx. simpl. apply lookup_insert_ne. intros <-. by apply NoDup_cons in Hnd as [? _].
  - intros p Hp. split.
    + simpl. rewrite lookup_insert_ne by (intros <-; by apply NoDup_cons in Hnd as [? _]).
      eapply ring_some; [exact Wr|set_solver].
    + rewrite Ws in Hp. apply list_elem_of_lookup in Hp as [j Hj]. destruct (Forall2_lookup_l _ _ _ _ _ Wrel Hj) as (kv & _ & He). by eexists.
  - set_solver.
  - rewrite (wf_length _ _ _ _ W). by rewrite Ws.
  - rewrite Ereh. simpl. exists 0. eexists _, segs'. split; [done|]. split; [|by auto].
    pose proof (Z.pow_pos_nonneg 2 (order ht) ltac:(lia) ltac:(lia)).
    assert (2 ^ (order ht + 1) = 2 * 2 ^ order ht) as Epow by (rewrite Z.pow_add_r by lia; lia).
    split; cbn [order buckets hlist ordered_list pairs ht_size with_lists]; try done; try lia.
    + unfold zlen. rewrite Hlen, length_replicate. lia.
    + rewrite Hp'. simpl. done.
Qed.

(** ** Clearing *)

Definition values (ps : gmap Z pair) (zs : list Z) : list json := omap (fun p => p_value <$> ps !! p) zs.

#[local] Arguments values : simpl never.

Lemma values_cons ps z zs : values ps (z :: zs) = match ps !! z with Some pr => p_value pr :: values ps zs | None => values ps zs end.
Proof. unfold values. simpl. by destruct (ps !! z). Qed.

Lemma values_entries ps ys ms : Forall2 (entry ps) ys ms -> values ps ys = ms.*2.
Proof.
  induction 1 as [|p kv ys ms He _ IH]; [done|]. rewrite values_cons. unfold entry in He. rewrite He. simpl. by rewrite IH.
Qed.

Lemma values_delete ps x zs : x ∉ zs -> values (delete x ps) zs = values ps zs.
Proof.
  induction zs as [|z zs IH]; intros Hx; [done|]. rewrite !values_cons, lookup_delete_ne, IH by set_solver. done.
Qed.

Lemma clear_from_spec zs fuel ht :
  todo (nx (hlist ht)) zs -> NoDup (0 :: zs) -> (forall p, p ∈ zs -> is_Some (pairs ht !! p)) -> (length zs <= fuel)%nat ->
  exists ht', clear_from fuel ht (List.hd 0 zs) = Some ht' /\ buckets ht' = buckets ht /\ order ht' = order ht
    /\ released ht' = released ht ++ values (pairs ht) zs
    /\ (forall p, pairs ht' !! p = if bool_decide (p ∈ zs) then None else pairs ht !! p).
Proof.
  revert fuel ht. induction zs as [|x zs IH]; intros fuel ht Ht Hd Hs Hf.
  - exists ht. rewrite app_nil_r. destruct fuel; split_and!; done.
  - destruct fuel as [|fuel]; simpl in Hf; [lia|]. destruct (todo_cons _ _ _ Ht) as [Hnx Ht'].
    apply NoDup_cons in Hd as [H0 Hd]. apply NoDup_cons in Hd as [Hx Hd]. assert (x <> 0) by set_solver.
    destruct (Hs x) as [pr Epr]; [set_solver|]. cbn [clear_from List.hd]. rewrite (proj2 (Z.eqb_neq x 0)), Hnx by done. simpl.
    rewrite Epr. simpl. destruct (IH fuel (free_pair (json_decref ht (p_value pr)) x)) as (ht' & E & Hb & Ho & Hr & Hp).
    + eapply todo_frame; [done|]. intros y Hy. simpl. apply lookup_delete_ne. set_solver.
    + constructor; [set_solver|done].
    + intros p Hp. simpl. rewrite lookup_delete_ne by set_solver. apply Hs. set_solver.
    + lia.
    + exists ht'. split; [exact E|]. rewrite Hb, Ho, Hr. split_and!; [done..| |].
      * rewrite values_cons, Epr. cbn [released pairs free_pair json_decref]. by rewrite values_delete, <- app_assoc by done.
      * intros p. rewrite Hp. simpl. destruct (decide (p = x)) as [->|Hn].
        { rewrite lookup_delete_eq, bool_decide_eq_false_2, (bool_decide_eq_true_2 (x ∈ x :: zs)) by set_solver. done. }
        rewrite lookup_delete_ne by done.
        destruct (decide (p ∈ zs)); [rewrite !bool_decide_eq_true_2 by set_solver|rewrite !bool_decide_eq_false_2 by set_solver]; done.
Qed.

Lemma do_clear_wf ht segs ys ms :
  wf ht segs ys ms ->
  exists ht' vs, hashtable_do_clear ht = Some ht' /\ buckets ht' = buckets ht /\ order ht' = order ht
    /\ released ht' = released ht ++ vs /\ vs ≡ₚ ms.*2 /\ pairs ht' = ∅.
Proof.
  intros W. pose proof W as [Wo Wb Wbi Wr Wor Ws Wd Wh Wrel Wk Wsz Wl]. unfold hashtable_do_clear.
  destruct (ring_todo _ _ Wr) as [-> Ht]. simpl.
  destruct (clear_from_spec (nodes segs) (base.size (pairs ht)) ht) as (ht' & E & Hb & Ho & Hr & Hp); [done|apply Wr| |by rewrite (wf_length _ _ _ _ W), Ws|].
  { intros p Hp. rewrite Ws in Hp. apply list_elem_of_lookup in Hp as [j Hj]. destruct (Forall2_lookup_l _ _ _ _ _ Wrel Hj) as (kv & _ & He). by eexists. }
  exists ht', (values (pairs ht) (nodes segs)). split_and!; try done.
  - rewrite <- (values_entries _ _ _ Wrel). unfold values. by rewrite Ws.
  - apply map_eq. intros p. rewrite Hp, lookup_empty. case_bool_decide as Hin; [done|].
    destruct (pairs ht !! p) eqn:Ep; [|done]. destruct Hin. rewrite Ws. apply Wd. by eexists.
Qed.

(** A table without pairs. *)
Lemma wf_empty n l o rel :
  3 <= n <= 28 -> wf (Table 0 (replicate (Z.to_nat (2 ^ n)) empty_bucket) n (hash_list_init l 0) (hash_list_init o 0) ∅ rel) [] [] [].
Proof.
  intros Hn. split; cbn [order buckets hlist ordered_list pairs ht_size]; try done.
  - unfold zlen. rewrite length_replicate. pose proof (Z.pow_nonneg 2 n). lia.
  - apply binv_init.
  - apply ring_init.
  - apply ring_init.
  - intros p [pr Hp]. by rewrite lookup_empty in Hp.
  - set_solver.
  - constructor.
  - apply Z.pow_nonneg. lia.
Qed.

(** ** Iterating *)

Lemma iterate_from ht zs ms fuel :
  todo (nx (ordered_list ht)) zs -> 0 ∉ zs -> Forall2 (entry (pairs ht)) zs ms -> (length zs <= fuel)%nat ->
  iterate fuel ht (match zs with [] => None | x :: _ => Some x end) = Some ms.
Proof.
  revert zs ms. induction fuel as [|fuel IH]; intros [|x zs] ms Ht H0 Hr Hf; simpl in Hf; try lia; inversion Hr as [|? [k v] ? ms' He Hr']; subst; try done.
  destruct (todo_cons _ _ _ Ht) as [Hnx Ht']. cbn [iterate]. unfold hashtable_iter_key, hashtable_iter_value, hashtable_iter_next.
  unfold entry in He. simpl in He. rewrite He. simpl. rewrite Hnx. simpl.
  assert ((if List.hd 0 zs =? 0 then None else Some (List.hd 0 zs)) = match zs with [] => None | y :: _ => Some y end) as ->.
  { destruct zs as [|y zs]; [done|]. simpl. rewrite (proj2 (Z.eqb_neq y 0)); [done|]. set_solver. }
  rewrite (IH zs ms'); [done..|set_solver|done|lia].
Qed.

Lemma iterate_wf ht segs ys ms : wf ht segs ys ms ->
  (it ← hashtable_iter ht; iterate (base.size (pairs ht)) ht it) = Some ms.
Proof.
  intros W. unfold hashtable_iter, hashtable_iter_next. destruct (ring_todo _ _ (w_oring _ _ _ _ W)) as [-> Ht]. simpl.
  assert (0 ∉ ys) as H0 by (destruct (w_oring _ _ _ _ W) as [Hd _]; by apply NoDup_cons in Hd as [? _]).
  rewrite <- (iterate_from ht ys ms (base.size (pairs ht))); [|done|done|apply W|by rewrite (wf_length _ _ _ _ W)].
  destruct ys as [|x ys]; [done|]. simpl. rewrite (proj2 (Z.eqb_neq x 0)); [done|set_solver].
Qed.

End table.
