(* ===== verification/HashTableSpec.v ===== *)
(** * The hash table of the JSON objects as an association list

    The abstract object is the list of its members in the order of insertion,
    as the file of the JSON values has it.  Any sequence of calls on a fresh
    table, whatever the hash and whatever allocations fail, is a sequence of
    steps of that list, and once the table is closed every value it took has
    been released once.  The hash of the firmware is an instance. *)

From S2P Require Import Prelude Lookup3 HashList Jansson HashTable HashTableProps.

(** ** Association lists *)

Fixpoint assoc_del (key : bytes) (l : list (bytes * json)) : list (bytes * json) :=
  match l with
  | [] => []
  | (k, v) :: l' => if bool_decide (k = key) then l' else (k, v) :: assoc_del key l'
  end.

Lemma assoc_none key l : key ∉ l.*1 -> assoc_get key l = None /\ (forall v, assoc_set key v l = l ++ [(key, v)]).
Proof.
  induction l as [|[k w] l IH]; simpl; intros Hk; [done|]. rewrite bool_decide_eq_false_2 by set_solver.
  destruct IH as [-> Hs]; [set_solver|]. split; [done|]. intros v. by rewrite Hs.
Qed.

Lemma assoc_mid key v m1 m2 : key ∉ m1.*1 ->
  assoc_get key (m1 ++ (key, v) :: m2) = Some v /\ assoc_del key (m1 ++ (key, v) :: m2) = m1 ++ m2
  /\ (forall w, assoc_set key w (m1 ++ (key, v) :: m2) = m1 ++ (key, w) :: m2).
Proof.
  induction m1 as [|[k w] m1 IH]; simpl; intros Hk; [by rewrite bool_decide_eq_true_2|].
  rewrite bool_decide_eq_false_2 by set_solver. destruct IH as (-> & -> & Hs); [set_solver|]. split_and!; [done..|].
  intros x. by rewrite Hs.
Qed.

Lemma assoc_set_values key v l : (assoc_set key v l).*2 ++ option_list (assoc_get key l) ≡ₚ l.*2 ++ [v].
Proof.
  induction l as [|[k w] l IH]; simpl; [done|]. case_bool_decide; simpl; [|by rewrite IH].
  rewrite !app_comm_cons. set (t := list_fmap _ _ _ l). rewrite (Permutation_app_comm (v :: t)), (Permutation_app_comm (w :: t)). apply perm_swap.
Qed.

Lemma assoc_del_values key v l : assoc_get key l = Some v -> (assoc_del key l).*2 ++ [v] ≡ₚ l.*2.
Proof.
  induction l as [|[k w] l IH]; simpl; [done|]. case_bool_decide; simpl.
  - intros [= ->]. by rewrite Permutation_app_comm.
  - intros Hk. by rewrite IH.
Qed.

(** ** Calls *)

(** What the callers of the table do; [room] and [pair_room] are the outcomes
    of the allocations of a call. *)
Inductive call :=
  | CallSet (room pair_room : bool) (at_ : Z) (key : bytes) (value : json)
  | CallGet (at_ : Z) (key : bytes)
  | CallDel (at_ : Z) (key : bytes)
  | CallClear
  | CallIterate
  | CallIterSet (at_ : Z) (key : bytes) (value : json).

Inductive answer :=
  | Code (rc : Z)
  | Value (v : option json)
  | Members (ms : list (bytes * json)).

Abbreviation members := (list (bytes * json)).

(** The abstract object: its answer, its members, and the values it lets go. *)
Inductive spec : call -> members -> answer -> members -> list json -> Prop :=
  | spec_set room pair_room at_ key v ms :
      spec (CallSet room pair_room at_ key v) ms (Code 0) (assoc_set key v ms) (option_list (assoc_get key ms))
  | spec_set_fails room pair_room at_ key v ms :
      room = false \/ 2 ^ 28 <= zlen ms
      \/ assoc_get key ms = None /\ (pair_room = false \/ 2 ^ 32 - 1 - pair_key_offset <= zlen key) ->
      spec (CallSet room pair_room at_ key v) ms (Code (-1)) ms []
  | spec_get at_ key ms : spec (CallGet at_ key) ms (Value (assoc_get key ms)) ms []
  | spec_del at_ key ms v :
      assoc_get key ms = Some v -> spec (CallDel at_ key) ms (Code 0) (assoc_del key ms) [v]
  | spec_del_missing at_ key ms : assoc_get key ms = None -> spec (CallDel at_ key) ms (Code (-1)) ms []
  | spec_clear ms vs : vs ≡ₚ ms.*2 -> spec CallClear ms (Code 0) [] vs
  | spec_iterate ms : spec CallIterate ms (Members ms) ms []
  | spec_iter_set at_ key v ms w :
      assoc_get key ms = Some w -> spec (CallIterSet at_ key v) ms (Code 0) (assoc_set key v ms) [w]
  | spec_iter_missing at_ key v ms :
      assoc_get key ms = None -> spec (CallIterSet at_ key v) ms (Code (-1)) ms [].

Inductive spec_run : list call -> members -> list answer -> members -> list json -> Prop :=
  | spec_done ms : spec_run [] ms [] ms []
  | spec_step c cs ms r ms' d rs ms'' d' :
      spec c ms r ms' d -> spec_run cs ms' rs ms'' d' -> spec_run (c :: cs) ms (r :: rs) ms'' (d ++ d').

(** An address for a new pair, of no pair in use. *)
Class Allocator := {
  alloc : gmap Z pair -> Z;
  alloc_fresh : forall ps, alloc ps <> 0 /\ ps !! alloc ps = None
}.

Section calls.
Context `{KeyHash} `{Allocator}.

Definition step (ht : hashtable) (c : call) : option (answer * hashtable) :=
  match c with
  | CallSet room pair_room at_ key v =>
      r ← hashtable_set room (if pair_room then Some (alloc (pairs ht)) else None) ht at_ key v; Some (Code r.1, r.2)
  | CallGet at_ key => v ← hashtable_get ht at_ key; Some (Value v, ht)
  | CallDel at_ key => r ← hashtable_del ht at_ key; Some (Code r.1, r.2)
  | CallClear => ht ← hashtable_clear ht; Some (Code 0, ht)
  | CallIterate => it ← hashtable_iter ht; ms ← iterate (base.size (pairs ht)) ht it; Some (Members ms, ht)
  | CallIterSet at_ key v =>
      it ← hashtable_iter_at ht at_ key;
      match it with
      | None => Some (Code (-1), ht)
      | Some p => ht ← hashtable_iter_set ht p v; Some (Code 0, ht)
      end
  end.

Fixpoint run (ht : hashtable) (cs : list call) : option (list answer * hashtable) :=
  match cs with
  | [] => Some ([], ht)
  | c :: cs => r ← step ht c; rest ← run r.2 cs; Some (r.1 :: rest.1, rest.2)
  end.

Definition rep (ht : hashtable) (ms : members) : Prop := exists segs ys, wf ht segs ys ms.

(** Looking up, on the members. *)
Lemma find_key_assoc ht segs ys ms at_ key :
  wf ht segs ys ms ->
  exists b r, buckets ht !! index_of ht (hash_str at_ key) = Some b
    /\ hashtable_find_pair ht b key (hash_str at_ key) = Some r
    /\ match r with
       | Some p => exists v s1 A B s2 y1 y2 m1 m2,
           located ht segs ys ms key p v s1 (index_of ht (hash_str at_ key)) A B s2 y1 y2 m1 m2
           /\ b = Bucket (List.hd 0 (A ++ p :: B)) (List.last (A ++ p :: B) 0)
           /\ assoc_get key ms = Some v /\ assoc_del key ms = m1 ++ m2
           /\ (forall w, assoc_set key w ms = m1 ++ (key, w) :: m2)
       | None => key ∉ ms.*1 /\ assoc_get key ms = None
       end.
Proof.
  intros W. destruct (find_pair_spec _ _ _ _ at_ key W) as (b & r & Hb & Hf & Hr). exists b, r. split_and!; [done..|].
  destruct r as [p|]; [|split; [done|by apply assoc_none]].
  destruct Hr as (v & s1 & A & B & s2 & y1 & y2 & m1 & m2 & L & Eb). exists v, s1, A, B, s2, y1, y2, m1, m2. split; [done|]. split; [done|].
  destruct (located_fresh _ _ _ _ _ _ _ _ _ _ _ _ _ _ _ _ W L) as (_ & _ & Hk & _). destruct L as [_ _ -> _ _ _].
  by apply assoc_mid.
Qed.

(** A fresh address is fresh for the rehashed table too. *)
Lemma set_found ht segs ys ms at_ key v (malloc : option Z) :
  wf ht segs ys ms -> zlen ms < 2 ^ order ht ->
  (forall p, malloc = Some p -> p <> 0 /\ pairs ht !! p = None) ->
  exists rc ht' ms' d,
    (b ← buckets ht !! index_of ht (hash_str at_ key);
     found ← hashtable_find_pair ht b key (hash_str at_ key);
     match found with
     | Some p => ht ← set_value ht p v; Some (0, ht)
     | None => add_pair malloc ht (index_of ht (hash_str at_ key)) key (hash_str at_ key) v
     end) = Some (rc, ht') /\ rep ht' ms' /\ released ht' = released ht ++ d
    /\ ((rc = 0 /\ ms' = assoc_set key v ms /\ d = option_list (assoc_get key ms))
        \/ (rc = -1 /\ ms' = ms /\ d = [] /\ assoc_get key ms = None /\ (malloc = None \/ 2 ^ 32 - 1 - pair_key_offset <= zlen key))).
Proof.
  intros W Hl Hm. destruct (find_key_assoc _ _ _ _ at_ key W) as (b & r & -> & Hf & Hr). simpl. rewrite Hf. simpl.
  destruct r as [p|].
  - destruct Hr as (w & s1 & A & B & s2 & y1 & y2 & m1 & m2 & L & _ & Eg & _ & Es).
    destruct (set_value_wf _ _ _ _ _ _ _ v _ _ _ _ _ _ _ _ _ W L) as (ht' & -> & W' & Hrel). simpl.
    exists 0, ht', (m1 ++ (key, v) :: m2), [w]. split_and!; [done|by exists segs, ys|done|]. left. by rewrite Es, Eg.
  - destruct Hr as [Hk Eg]. destruct (decide (2 ^ 32 - 1 - pair_key_offset <= zlen key)) as [Hlen|Hlen].
    { exists (-1), ht, ms, []. unfold add_pair. rewrite (proj2 (Z.leb_le _ _)) by done. rewrite app_nil_r.
      split_and!; [done|by exists segs, ys|done|]. right. split_and!; auto. }
    destruct malloc as [p|].
    + destruct (Hm p) as [Hp0 Hpn]; [done|].
      destruct (add_pair_wf _ _ _ _ at_ key v p W Hk Hl ltac:(lia) Hp0 Hpn) as (ht' & segs' & -> & W' & Hrel).
      exists 0, ht', (ms ++ [(key, v)]), []. rewrite app_nil_r. split_and!; [done|by exists segs', (ys ++ [p])|done|].
      left. rewrite Eg. destruct (assoc_none key ms Hk) as [_ ->]. done.
    + exists (-1), ht, ms, []. unfold add_pair. rewrite (proj2 (Z.leb_gt _ _)) by lia. rewrite app_nil_r.
      split_and!; [done|by exists segs, ys|done|]. right. split_and!; auto.
Qed.

Lemma set_refines ht ms room pair_room at_ key v :
  rep ht ms ->
  exists r ht' ms' d, step ht (CallSet room pair_room at_ key v) = Some (r, ht')
    /\ spec (CallSet room pair_room at_ key v) ms r ms' d /\ rep ht' ms' /\ released ht' = released ht ++ d.
Proof.
  intros (segs & ys & W). pose proof (w_order _ _ _ _ W) as Ho. cbn [step]. unfold hashtable_set. rewrite hashsize_pow by lia.
  set (malloc := if pair_room then _ else _).
  assert (Hm : forall p, malloc = Some p -> p <> 0 /\ pairs ht !! p = None)
    by (unfold malloc; intros p Hp; destruct pair_room; [injection Hp as <-; apply alloc_fresh|done]).
  assert (Hnone : malloc = None -> pair_room = false) by (unfold malloc; by destruct pair_room). clearbody malloc.
  assert (Hend : forall ht1 segs1, wf ht1 segs1 ys ms -> zlen ms < 2 ^ order ht1 -> pairs ht1 = pairs ht -> released ht1 = released ht ->
    exists r ht' ms' d, (r ← (b ← buckets ht1 !! index_of ht1 (hash_str at_ key);
      found ← hashtable_find_pair ht1 b key (hash_str at_ key);
      match found with
      | Some p => ht ← set_value ht1 p v; Some (0, ht)
      | None => add_pair malloc ht1 (index_of ht1 (hash_str at_ key)) key (hash_str at_ key) v
      end); Some (Code r.1, r.2)) = Some (r, ht')
      /\ spec (CallSet room pair_room at_ key v) ms r ms' d /\ rep ht' ms' /\ released ht' = released ht ++ d).
  { intros ht1 segs1 W1 Hl1 Hp1 Hr1.
    destruct (set_found ht1 segs1 ys ms at_ key v malloc W1 Hl1) as (rc & ht' & ms' & d & -> & Hrep & Hrel & Hcase);
      [by rewrite Hp1|]. simpl. exists (Code rc), ht', ms', d. rewrite <- Hr1. split_and!; [done| |done|done].
    destruct Hcase as [(-> & -> & ->)|(-> & -> & -> & Eg & Hwhy)]; constructor. right. right. split; [done|]. naive_solver. }
  destruct (Z.leb_spec (2 ^ order ht) (ht_size ht)) as [Hfull|Hroom].
  - destruct (rehash_wf room _ _ _ _ W) as (rc & ht1 & segs1 & -> & W1 & Hrel & Hp1 & Hcase). simpl.
    rewrite (w_size _ _ _ _ W) in Hfull. pose proof (w_load _ _ _ _ W).
    destruct Hcase as [[-> Ho1]|[-> Hwhy]]; simpl.
    + apply Hend with segs1; try done. rewrite Ho1, Z.pow_add_r by lia.
      pose proof (Z.pow_pos_nonneg 2 (order ht) ltac:(lia) ltac:(lia)). lia.
    + exists (Code (-1)), ht1, ms, []. rewrite app_nil_r. split_and!; [done| |by exists segs1, ys|done].
      constructor. destruct Hwhy as [->|Ho28]; [by left|]. right. left. by rewrite Ho28 in Hfull.
  - simpl. apply Hend with segs; try done. by rewrite <- (w_size _ _ _ _ W).
Qed.

Lemma del_refines ht ms at_ key :
  rep ht ms ->
  exists r ht' ms' d, step ht (CallDel at_ key) = Some (r, ht')
    /\ spec (CallDel at_ key) ms r ms' d /\ rep ht' ms' /\ released ht' = released ht ++ d.
Proof.
  intros (segs & ys & W). cbn [step]. destruct (find_key_assoc _ _ _ _ at_ key W) as (b & [p|] & Hb & Hf & Hr).
  - destruct Hr as (v & s1 & A & B & s2 & y1 & y2 & m1 & m2 & L & Eb & Eg & Ed & _).
    destruct (hashtable_del_present _ _ _ _ at_ key p v s1 A B s2 y1 y2 m1 m2 b W Hb Hf L Eb) as (ht' & segs' & -> & W' & Hrel). simpl.
    exists (Code 0), ht', (m1 ++ m2), [v]. split_and!; [done| |by exists segs', (y1 ++ y2)|done]. rewrite <- Ed. by constructor.
  - destruct Hr as [_ Eg]. unfold hashtable_del, hashtable_do_del. rewrite Hb. simpl. rewrite Hf. simpl.
    exists (Code (-1)), ht, ms, []. rewrite app_nil_r. split_and!; [done|by constructor|by exists segs, ys|done].
Qed.

Lemma iter_set_refines ht ms at_ key v :
  rep ht ms ->
  exists r ht' ms' d, step ht (CallIterSet at_ key v) = Some (r, ht')
    /\ spec (CallIterSet at_ key v) ms r ms' d /\ rep ht' ms' /\ released ht' = released ht ++ d.
Proof.
  intros (segs & ys & W). cbn [step]. unfold hashtable_iter_at, find_key.
  destruct (find_key_assoc _ _ _ _ at_ key W) as (b & [p|] & -> & Hf & Hr); simpl; rewrite Hf; simpl.
  - destruct Hr as (w & s1 & A & B & s2 & y1 & y2 & m1 & m2 & L & _ & Eg & _ & Es).
    destruct (set_value_wf _ _ _ _ _ _ _ v _ _ _ _ _ _ _ _ _ W L) as (ht' & E & W' & Hrel). unfold hashtable_iter_set. rewrite E. simpl.
    exists (Code 0), ht', (m1 ++ (key, v) :: m2), [w]. rewrite <- Es. split_and!; [done|by constructor| |done]. exists segs, ys. by rewrite Es.
  - destruct Hr as [_ Eg]. exists (Code (-1)), ht, ms, []. rewrite app_nil_r. split_and!; [done|by constructor|by exists segs, ys|done].
Qed.

Lemma clear_wf ht segs ys ms :
  wf ht segs ys ms -> exists ht' vs, hashtable_clear ht = Some ht' /\ wf ht' [] [] [] /\ released ht' = released ht ++ vs /\ vs ≡ₚ ms.*2.
Proof.
  intros W. pose proof (w_order _ _ _ _ W) as Ho. unfold hashtable_clear.
  destruct (do_clear_wf _ _ _ _ W) as (ht' & vs & -> & Hb & Hor & Hrel & Hvs & Hp). simpl.
  rewrite Hb, Hor, Hp, hashsize_pow by lia. unfold init_buckets. rewrite (w_buckets _ _ _ _ W), Z.leb_refl. simpl.
  eexists _, vs. split; [done|]. split; [by apply wf_empty|]. done.
Qed.

(** One call. *)
Lemma step_refines ht ms c :
  rep ht ms ->
  exists r ht' ms' d, step ht c = Some (r, ht') /\ spec c ms r ms' d /\ rep ht' ms' /\ released ht' = released ht ++ d.
Proof.
  intros Hrep. destruct c as [room pair_room at_ key v|at_ key|at_ key| | |at_ key v].
  - by apply set_refines.
  - destruct Hrep as (segs & ys & W). cbn [step]. unfold hashtable_get, find_key.
    exists (Value (assoc_get key ms)), ht, ms, []. rewrite app_nil_r.
    split_and!; [|constructor|by exists segs, ys|done].
    destruct (find_key_assoc _ _ _ _ at_ key W) as (b & [p|] & -> & Hf & Hr); simpl; rewrite Hf; simpl.
    + destruct Hr as (w & s1 & A & B & s2 & y1 & y2 & m1 & m2 & L & _ & -> & _). destruct L as [_ _ _ _ _ ->]. done.
    + by destruct Hr as [_ ->].
  - by apply del_refines.
  - destruct Hrep as (segs & ys & W). cbn [step]. destruct (clear_wf _ _ _ _ W) as (ht' & vs & -> & W' & Hrel & Hvs). simpl.
    exists (Code 0), ht', [], vs. split_and!; [done|by constructor|by exists [], []|done].
  - destruct Hrep as (segs & ys & W). pose proof (iterate_wf _ _ _ _ W) as Hit. cbn [step].
    destruct (hashtable_iter ht) as [it|]; [|done]. simpl in Hit |- *. rewrite Hit. simpl.
    exists (Members ms), ht, ms, []. rewrite app_nil_r. split_and!; [done|constructor|by exists segs, ys|done].
  - by apply iter_set_refines.
Qed.

Lemma run_refines cs ht ms :
  rep ht ms ->
  exists rs ht' ms' d, run ht cs = Some (rs, ht') /\ spec_run cs ms rs ms' d /\ rep ht' ms' /\ released ht' = released ht ++ d.
Proof.
  revert ht ms. induction cs as [|c cs IH]; intros ht ms Hrep.
  - exists [], ht, ms, []. rewrite app_nil_r. split_and!; [done|constructor|done|done].
  - destruct (step_refines ht ms c Hrep) as (r & ht1 & ms1 & d1 & Es & Hs1 & Hrep1 & Hrel1). cbn [run]. rewrite Es. simpl.
    destruct (IH ht1 ms1 Hrep1) as (rs & ht' & ms' & d & -> & Hs & Hrep' & Hrel). simpl.
    exists (r :: rs), ht', ms', (d1 ++ d). split_and!; [done|by econstructor|done|]. by rewrite Hrel, Hrel1, app_assoc.
Qed.

Lemma init_rep : exists ht, hashtable_init true = Some (0, ht) /\ rep ht [] /\ released ht = [].
Proof.
  unfold hashtable_init. change (hashsize INITIAL_HASHTABLE_ORDER) with (2 ^ 3). rewrite malloc_buckets_pow by lia. simpl.
  eexists. split; [done|]. split; [|done]. exists [], []. apply (wf_empty 3). lia.
Qed.

End calls.

(** ** Values *)

(** The values a run took over: those of the calls that returned 0. *)
Fixpoint taken (cs : list call) (rs : list answer) : list json :=
  match cs, rs with
  | CallSet _ _ _ _ v :: cs, Code 0 :: rs => v :: taken cs rs
  | CallIterSet _ _ v :: cs, Code 0 :: rs => v :: taken cs rs
  | _ :: cs, _ :: rs => taken cs rs
  | _, _ => []
  end.

Lemma spec_values c ms r ms' d cs rs : spec c ms r ms' d ->
  ms'.*2 ++ d ++ taken cs rs ≡ₚ ms.*2 ++ taken (c :: cs) (r :: rs).
Proof.
  intros Hs. destruct Hs as [? ? ? key v ms| | |? key ms v Hg| |ms vs Hv| |? key v ms w Hg|]; cbn [taken]; try done.
  - rewrite app_assoc, assoc_set_values, <- app_assoc. done.
  - by rewrite app_assoc, (assoc_del_values _ _ _ Hg).
  - by rewrite Hv.
  - pose proof (assoc_set_values key v ms) as Hp. rewrite Hg in Hp. rewrite app_assoc, Hp, <- app_assoc. done.
Qed.

Lemma spec_run_values cs ms rs ms' d : spec_run cs ms rs ms' d -> ms'.*2 ++ d ≡ₚ ms.*2 ++ taken cs rs.
Proof.
  induction 1 as [|c cs ms r ms' d rs ms'' d' Hs _ IH]; [done|].
  rewrite <- (spec_values _ _ _ _ _ cs rs Hs). rewrite (Permutation_app_comm d), !app_assoc, IH.
  rewrite <- !app_assoc. by rewrite (Permutation_app_comm d).
Qed.

(** C9: whatever hash the keys have and whichever allocations fail, every
    sequence of calls on a new table runs to its end without touching memory
    that is not there, answers as an association list in insertion order
    would, and leaves a table whose iteration yields that list. *)
Theorem hashtable_refines `{KeyHash} `{Allocator} cs :
  exists ht0 rs ht ms d, hashtable_init true = Some (0, ht0) /\ run ht0 cs = Some (rs, ht) /\ spec_run cs [] rs ms d
    /\ released ht = d /\ ht_size ht = zlen ms /\ (it ← hashtable_iter ht; iterate (base.size (pairs ht)) ht it) = Some ms.
Proof.
  destruct init_rep as (ht0 & E0 & Hrep & Hrel). destruct (run_refines cs ht0 [] Hrep) as (rs & ht & ms & d & Er & Hs & (segs & ys & W) & Hd).
  exists ht0, rs, ht, ms, d. rewrite Hrel in Hd. split_and!; [done..|apply W|by eapply iterate_wf].
Qed.

(** C11: a table that is closed has freed every pair, and has released every
    value it took over, those replaced and deleted before included, exactly
    once. *)
Theorem values_released_once `{KeyHash} `{Allocator} cs :
  exists ht0 rs ht ht', hashtable_init true = Some (0, ht0) /\ run ht0 cs = Some (rs, ht) /\ hashtable_close ht = Some ht'
    /\ pairs ht' = ∅ /\ released ht' ≡ₚ taken cs rs.
Proof.
  destruct init_rep as (ht0 & E0 & Hrep & Hrel). destruct (run_refines cs ht0 [] Hrep) as (rs & ht & ms & d & Er & Hs & (segs & ys & W) & Hd).
  destruct (do_clear_wf _ _ _ _ W) as (ht' & vs & Ec & _ & _ & Hr' & Hvs & Hp).
  eexists ht0, rs, ht, _. split_and!; [done..|unfold hashtable_close; by rewrite Ec|done|]. simpl.
  rewrite Hr', Hd, Hrel, Hvs. simpl. rewrite Permutation_app_comm. apply (spec_run_values _ _ _ _ _ Hs).
Qed.

(** ** The hash and the allocator of the firmware *)

(** [hash_str]: the text at its address, a NUL behind it, [junk] around it. *)
Definition text_hash (little : bool) (junk : Z -> Z) (seed at_ : Z) (key : bytes) : Z :=
  hashlittle (overlay junk at_ (key ++ [0])) little at_ (zlen key) seed.

Lemma text_hash_ref little junk seed at_ key : text_hash little junk seed at_ key = hash_ref (cells (fun i => u8 (bget key i)) 0 (zlen key)) seed.
Proof.
  unfold text_hash. rewrite hashlittle_bytes by auto with t2. f_equal. apply cells_ext. intros i Hi. unfold k8, overlay.
  rewrite (proj2 (Z.leb_le _ _)), (proj2 (Z.ltb_lt _ _)) by (rewrite ?zlen_app, ?zlen_cons, ?zlen_nil; lia). cbn [andb].
  f_equal. unfold bget. rewrite app_nth1 by (unfold zlen in Hi; lia). f_equal. lia.
Qed.

#[export] Instance lookup3_hash (little : bool) (junk : Z -> Z) (seed : Z) : KeyHash.
Proof.
  refine {| hash_str := text_hash little junk seed |}.
  - intros at_ key. rewrite text_hash_ref. apply hash_ref_word.
  - intros at_ at' key. by rewrite !text_hash_ref.
Defined.

#[export] Instance next_address : Allocator.
Proof.
  refine {| alloc := fun ps => Z.of_nat (S (foldr (fun p n => Nat.max (Z.to_nat p) n) O (map_to_list ps).*1)) |}.
  intros ps. split; [lia|]. destruct (ps !! _) as [pr|] eqn:E; [exfalso|done].
  apply elem_of_map_to_list in E. assert (forall l p, p ∈ l -> (Z.to_nat p <= foldr (fun p n => Nat.max (Z.to_nat p) n) O l)%nat) as Hmax.
  { induction l as [|x l IH]; intros p Hp; [set_solver|]. simpl. apply elem_of_cons in Hp as [->|Hp]; [lia|]. specialize (IH p Hp). lia. }
  match type of E with (?x, _) ∈ _ => specialize (Hmax (map_to_list ps).*1 x) end.
  assert (H : forall x, (x, pr) ∈ map_to_list ps -> x ∈ (map_to_list ps).*1) by (intros x Hx; apply list_elem_of_fmap; by exists (x, pr)).
  specialize (Hmax (H _ E)). lia.
Defined.

(** ** A run: nine keys make the table grow, then one is replaced and one deleted *)

Definition nine_keys : list call :=
  ((fun i => CallSet true true (4096 + i) [107; 48 + i] (JInteger i)) <$> seqZ 0 9)
  ++ [CallSet true true 77 [107; 50] JTrue; CallDel 78 [107; 48]; CallGet 79 [107; 50]; CallDel 78 [107; 48];
      CallSet true false 80 [120] JNull; CallIterSet 3 [107; 56] JFalse; CallIterate].

Definition nine_keys_answers (little : bool) (seed : Z) : option (list answer * Z * list json) :=
  r ← hashtable_init true;
  s ← run (H := lookup3_hash little (fun x => x) seed) r.2 nine_keys;
  Some (drop 9 s.1, order s.2, released s.2).

Definition nine_keys_expected : option (list answer * Z * list json) :=
  Some ([Code 0; Code 0; Value (Some JTrue); Code (-1); Code (-1); Code 0;
         Members [([107; 49], JInteger 1); ([107; 50], JTrue); ([107; 51], JInteger 3); ([107; 52], JInteger 4);
                  ([107; 53], JInteger 5); ([107; 54], JInteger 6); ([107; 55], JInteger 7); ([107; 56], JFalse)]],
        4, [JInteger 2; JInteger 0; JInteger 8]).

Example nine_keys_run : nine_keys_answers true 1 = nine_keys_expected /\ nine_keys_answers false 0x12345678 = nine_keys_expected.
Proof. split; by vm_compute. Qed.

Lemma hashtable_refines_witness :
  exists ht0 rs ht ms d, hashtable_init true = Some (0, ht0)
    /\ run (H := lookup3_hash false (fun x => x) 5) ht0 nine_keys = Some (rs, ht) /\ spec_run nine_keys [] rs ms d
    /\ released ht = d /\ ht_size ht = zlen ms /\ (it ← hashtable_iter ht; iterate (base.size (pairs ht)) ht it) = Some ms.
Proof. apply (@hashtable_refines (lookup3_hash false (fun x => x) 5) next_address nine_keys). Defined.

Lemma values_released_once_witness :
  exists ht0 rs ht ht', hashtable_init true = Some (0, ht0)
    /\ run (H := lookup3_hash true (fun x => x) 5) ht0 nine_keys = Some (rs, ht) /\ hashtable_close ht = Some ht'
    /\ pairs ht' = ∅ /\ released ht' ≡ₚ taken nine_keys rs.
Proof. apply (@values_released_once (lookup3_hash true (fun x => x) 5) next_address nine_keys). Defined.
