(* ===== verification/JsonArray.v ===== *)
(** * JSON arrays in memory (components/json/jansson/src/value.c)

    An array keeps its elements in a table that is replaced by a larger one
    when it is full.  A cell of a table that was never written holds nothing;
    reading it, or touching a cell outside of the table, is [None].  The
    elements are addresses of values; of the reference counts the calls of
    [json_incref] and [json_decref] are recorded.  Several arrays share the
    store, so that an array can be extended by itself. *)

From S2P Require Import Prelude.

(** ** Data *)

Abbreviation cell := (option Z).

Record json_array_t := Array { a_size : Z; a_entries : Z; a_table : list cell }.

Record heap := Heap { arrays : gmap Z json_array_t; increfs : list Z; decrefs : list Z }.

Definition json_incref (h : heap) (v : Z) : heap := Heap (arrays h) (increfs h ++ [v]) (decrefs h).
Definition json_decref (h : heap) (v : Z) : heap := Heap (arrays h) (increfs h) (decrefs h ++ [v]).
Definition set_array (h : heap) (a : Z) (arr : json_array_t) : heap := Heap (<[a := arr]> (arrays h)) (increfs h) (decrefs h).

Definition with_entries (arr : json_array_t) (n : Z) : json_array_t := Array (a_size arr) n (a_table arr).
Definition with_table (arr : json_array_t) (t : list cell) : json_array_t := Array (a_size arr) (a_entries arr) t.

(** ** Cells *)

Definition get_cell (t : list cell) (i : Z) : option Z := if i <? 0 then None else c ← t !! Z.to_nat i; c.

Definition put_cell (t : list cell) (i : Z) (v : Z) : option (list cell) :=
  if (0 <=? i) && (i <? zlen t) then Some (<[Z.to_nat i := Some v]> t) else None.

(** [memcpy] and [memmove] of cells; the source is read before anything is
    written. *)
Definition array_copy (dest : list cell) (dpos : Z) (src : list cell) (spos count : Z) : option (list cell) :=
  if (0 <=? dpos) && (0 <=? spos) && (0 <=? count) && (dpos + count <=? zlen dest) && (spos + count <=? zlen src) then
    Some (take (Z.to_nat dpos) dest ++ take (Z.to_nat count) (drop (Z.to_nat spos) src) ++ drop (Z.to_nat (dpos + count)) dest)
  else None.

Definition array_move (arr : json_array_t) (dest src count : Z) : option json_array_t :=
  t ← array_copy (a_table arr) dest (a_table arr) src count; Some (with_table arr t).

(** ** Operations *)

Section arrays.
(** No block is larger than the memory of the device. *)
Context (RAM : Z) (HRAM : 0 <= RAM <= 2 ^ 30).

(** [jsonp_malloc] of a table: the cells there are. *)
Definition malloc_table (room : bool) (n : Z) : option (list cell) :=
  let bytes := u32 (n * 4) in
  if bytes =? 0 then None
  else if room && (bytes <=? RAM) then Some (replicate (Z.to_nat (bytes / 4)) None) else None.

Definition json_array (room : bool) : option json_array_t :=
  t ← malloc_table room 8; Some (Array 8 0 t).

Definition json_array_size (h : heap) (a : Z) : Z :=
  match arrays h !! a with None => 0 | Some arr => a_entries arr end.

(** The inner [None] is [NULL]. *)
Definition json_array_get (h : heap) (a index : Z) : option (option Z) :=
  match arrays h !! a with
  | None => Some None
  | Some arr => if a_entries arr <=? index then Some None else v ← get_cell (a_table arr) index; Some (Some v)
  end.

Definition json_array_set_new (h : heap) (a index : Z) (value : option Z) : option (Z * heap) :=
  match value with
  | None => Some (-1, h)
  | Some v =>
      match arrays h !! a with
      | None => Some (-1, json_decref h v)
      | Some arr =>
          if a =? v then Some (-1, json_decref h v) else
          if a_entries arr <=? index then Some (-1, json_decref h v) else
          old ← get_cell (a_table arr) index;
          t ← put_cell (a_table arr) index v;
          Some (0, set_array (json_decref h old) a (with_table arr t))
      end
  end.

(** The array behind [json_array_grow], and the old table when it was replaced
    without copying; nothing when there is no room. *)
Definition json_array_grow (room : bool) (arr : json_array_t) (amount : Z) (copy : bool) :
    option (option (json_array_t * option (list cell))) :=
  if u32 (a_entries arr + amount) <=? a_size arr then Some (Some (arr, None)) else
  let new_size := Z.max (u32 (a_size arr + amount)) (u32 (a_size arr * 2)) in
  match malloc_table room new_size with
  | None => Some None
  | Some new_table =>
      if copy then
        t ← array_copy new_table 0 (a_table arr) 0 (a_entries arr);
        Some (Some (Array new_size (a_entries arr) t, None))
      else Some (Some (Array new_size (a_entries arr) new_table, Some (a_table arr)))
  end.

Definition json_array_append_new (room : bool) (h : heap) (a : Z) (value : option Z) : option (Z * heap) :=
  match value with
  | None => Some (-1, h)
  | Some v =>
      match arrays h !! a with
      | None => Some (-1, json_decref h v)
      | Some arr =>
          if a =? v then Some (-1, json_decref h v) else
          g ← json_array_grow room arr 1 true;
          match g with
          | None => Some (-1, json_decref h v)
          | Some (arr, _) =>
              t ← put_cell (a_table arr) (a_entries arr) v;
              Some (0, set_array h a (with_entries (with_table arr t) (u32 (a_entries arr + 1))))
          end
      end
  end.

Definition json_array_insert_new (room : bool) (h : heap) (a index : Z) (value : option Z) : option (Z * heap) :=
  match value with
  | None => Some (-1, h)
  | Some v =>
      match arrays h !! a with
      | None => Some (-1, json_decref h v)
      | Some arr =>
          if a =? v then Some (-1, json_decref h v) else
          if a_entries arr <? index then Some (-1, json_decref h v) else
          g ← json_array_grow room arr 1 false;
          match g with
          | None => Some (-1, json_decref h v)
          | Some (arr, old) =>
              arr ← (match old with
                     | Some old_table =>
                         t ← array_copy (a_table arr) 0 old_table 0 index;
                         t ← array_copy t (index + 1) old_table index (a_entries arr - index);
                         Some (with_table arr t)
                     | None => array_move arr (index + 1) index (a_entries arr - index)
                     end);
              t ← put_cell (a_table arr) index v;
              Some (0, set_array h a (with_entries (with_table arr t) (u32 (a_entries arr + 1))))
          end
      end
  end.

Definition json_array_remove (h : heap) (a index : Z) : option (Z * heap) :=
  match arrays h !! a with
  | None => Some (-1, h)
  | Some arr =>
      if a_entries arr <=? index then Some (-1, h) else
      old ← get_cell (a_table arr) index;
      let h := json_decref h old in
      arr ← (if index <? a_entries arr - 1 then array_move arr index (index + 1) (a_entries arr - index - 1) else Some arr);
      Some (0, set_array h a (with_entries arr (a_entries arr - 1)))
  end.

(** The elements in front of the place [n], and a call for each of them. *)
Definition stored (arr : json_array_t) (n : Z) : option (list Z) := mapM id (take (Z.to_nat n) (a_table arr)).

Definition json_array_clear (h : heap) (a : Z) : option (Z * heap) :=
  match arrays h !! a with
  | None => Some (-1, h)
  | Some arr =>
      vs ← stored arr (a_entries arr);
      Some (0, set_array (foldl json_decref h vs) a (with_entries arr 0))
  end.

Definition json_array_extend (room : bool) (h : heap) (a b : Z) : option (Z * heap) :=
  match arrays h !! a, arrays h !! b with
  | Some arr, Some other =>
      g ← json_array_grow room arr (a_entries other) true;
      match g with
      | None => Some (-1, h)
      | Some (arr, _) =>
          let h := set_array h a arr in
          other ← arrays h !! b;
          vs ← stored other (a_entries other);
          t ← array_copy (a_table arr) (a_entries arr) (a_table other) 0 (a_entries other);
          Some (0, set_array (foldl json_incref h vs) a (with_entries (with_table arr t) (u32 (a_entries arr + a_entries other))))
      end
  | _, _ => Some (-1, h)
  end.

Definition json_delete_array (h : heap) (a : Z) : option heap :=
  arr ← arrays h !! a;
  vs ← stored arr (a_entries arr);
  let h := foldl json_decref h vs in
  Some (Heap (delete a (arrays h)) (increfs h) (decrefs h)).

(** The loop of [json_array_copy], which ignores a failed append; [rooms] tells
    for which of them there is room. *)
Fixpoint copy_loop (n : nat) (rooms : nat -> bool) (h : heap) (a result i : Z) : option heap :=
  match n with
  | O => Some h
  | S n =>
      r ← json_array_get h a i;
      let h := match r with Some v => json_incref h v | None => h end in
      '(_, h) ← json_array_append_new (rooms (Z.to_nat i)) h result r;
      copy_loop n rooms h a result (i + 1)
  end.

(** [result] is the address of the new array. *)
Definition json_array_copy (room : bool) (rooms : nat -> bool) (h : heap) (a result : Z) : option (option heap) :=
  match json_array room with
  | None => Some None
  | Some arr => h ← copy_loop (Z.to_nat (json_array_size h a)) rooms (set_array h result arr) a result 0; Some (Some h)
  end.

(** ** An array holds a list *)

Definition holds (arr : json_array_t) (l : list Z) : Prop :=
  a_entries arr = zlen l /\ a_size arr = zlen (a_table arr) /\ 32 <= a_size arr * 4 <= RAM
  /\ take (length l) (a_table arr) = Some <$> l.

Lemma holds_room arr l : holds arr l -> zlen l <= a_size arr /\ a_size arr <= 2 ^ 28.
Proof.
  intros (He & Hs & [Hr8 Hr] & Ht). apply (f_equal length) in Ht. rewrite length_take, length_fmap in Ht. unfold zlen in *. lia.
Qed.

Lemma new_holds room arr : json_array room = Some arr -> holds arr [].
Proof.
  unfold json_array, malloc_table. change (u32 (8 * 4)) with 32. cbn [Z.eqb]. destruct (room && (32 <=? RAM)) eqn:E; [|done]. intros [= <-].
  apply andb_true_iff in E as [_ E]. b2p. unfold holds. cbn. split_and!; try done; lia.
Qed.

Lemma get_cell_holds arr l i : holds arr l -> 0 <= i < zlen l -> exists v, l !! Z.to_nat i = Some v /\ get_cell (a_table arr) i = Some v.
Proof.
  intros (He & Hs & [Hr8 Hr] & Ht) Hi. destruct (lookup_lt_is_Some_2 l (Z.to_nat i)) as [v Hv]; [unfold zlen in Hi; lia|]. exists v. split; [done|].
  unfold get_cell. rewrite (proj2 (Z.ltb_ge _ _)) by lia.
  assert (take (length l) (a_table arr) !! Z.to_nat i = Some (Some v)) as E by (by rewrite Ht, list_lookup_fmap, Hv).
  apply lookup_take_Some in E as [E _]. by rewrite E.
Qed.

Lemma stored_holds arr l : holds arr l -> stored arr (a_entries arr) = Some l.
Proof.
  intros (He & Hs & [Hr8 Hr] & Ht). unfold stored. rewrite He. unfold zlen. rewrite Nat2Z.id, Ht. clear. induction l as [|v l IH]; [done|]. cbn in *. by rewrite IH.
Qed.

Lemma put_cell_in t i v : 0 <= i < zlen t -> put_cell t i v = Some (<[Z.to_nat i := Some v]> t).
Proof. intros Hi. unfold put_cell. by rewrite (proj2 (Z.leb_le _ _)), (proj2 (Z.ltb_lt _ _)) by lia. Qed.

Lemma array_copy_in dest dpos src spos count : 0 <= dpos -> 0 <= spos -> 0 <= count -> dpos + count <= zlen dest -> spos + count <= zlen src ->
  array_copy dest dpos src spos count =
  Some (take (Z.to_nat dpos) dest ++ take (Z.to_nat count) (drop (Z.to_nat spos) src) ++ drop (Z.to_nat (dpos + count)) dest).
Proof. intros. unfold array_copy. by rewrite !(proj2 (Z.leb_le _ _)) by lia. Qed.

Lemma malloc_table_cells room n : 0 <= n < 2 ^ 30 ->
  match malloc_table room n with None => n = 0 \/ room = false \/ RAM < n * 4 | Some t => zlen t = n /\ n * 4 <= RAM end.
Proof.
  intros Hn. unfold malloc_table. rewrite u32_small by lia. case_if; b2p; [lia|]. destruct (room && (n * 4 <=? RAM)) eqn:Er.
  2:{ apply andb_false_iff in Er as [->|Er]; b2p; [by right; left|right; right; lia]. }
  apply andb_true_iff in Er as [_ Er]. b2p.
  unfold zlen. rewrite length_replicate, Z.div_mul by lia. lia.
Qed.

(** There is no room for an array of [n] elements, more than a new array has:
    the allocation fails, or asks for more than there can be.  The table is at
    most twice as large as needed. *)
Definition out_of_memory (room : bool) (n : Z) : Prop := 8 < n /\ (room = false \/ RAM < 8 * n).

(** Growing keeps the list and makes room, unless memory is lacking. *)
Lemma grow_holds room arr l amount copy : holds arr l -> 0 <= amount <= 2 ^ 28 ->
  exists r, json_array_grow room arr amount copy = Some r /\
    match r with
    | None => out_of_memory room (zlen l + amount)
    | Some (arr', old) =>
        zlen l + amount <= a_size arr' /\
        match old with
        | None => holds arr' l
        | Some t => copy = false /\ t = a_table arr /\ a_entries arr' = zlen l /\ a_size arr' = zlen (a_table arr') /\ 32 <= a_size arr' * 4 <= RAM
        end
    end.
Proof.
  intros H Ha. pose proof (holds_room arr l H) as [Hl Hm]. pose proof H as (He & Hs & [Hr8 Hr] & Ht). pose proof (zlen_nonneg l). unfold json_array_grow.
  rewrite He, !u32_small by lia. case_if; b2p; [eexists; split; [done|]; by split; [lia|]|].
  pose proof (malloc_table_cells room (Z.max (a_size arr + amount) (a_size arr * 2)) ltac:(lia)) as Hcells.
  destruct (malloc_table room _) as [t|].
  2:{ eexists. split; [done|]. split; [lia|]. destruct Hcells as [|[|]]; [lia|by left|right; lia]. }
  destruct Hcells as [Hn Hfit]. destruct copy.
  - rewrite array_copy_in by lia. cbn [mbind option_bind]. eexists. split; [done|]. split; [cbn; lia|]. unfold holds. cbn. change (Z.to_nat 0) with O. rewrite !drop_0.
    split_and!; [done| |lia|lia|].
    + unfold zlen in *. rewrite !length_app, !length_take, length_drop. cbn [length]. lia.
    + unfold zlen. rewrite Nat2Z.id, Ht, take_0. cbn [app]. apply take_app_length'. by rewrite length_fmap.
  - eexists. split; [done|]. split; [cbn; lia|]. cbn. split_and!; try done; lia.
Qed.

(** *** The lists behind the tables *)

Lemma holds_put arr l i v : holds arr l -> 0 <= i < zlen l ->
  exists t, put_cell (a_table arr) i v = Some t /\ holds (with_table arr t) (<[Z.to_nat i := v]> l).
Proof.
  intros H Hi. pose proof (holds_room arr l H) as [Hl _]. destruct H as (He & Hs & [Hr8 Hr] & Ht). eexists. split; [apply put_cell_in; lia|].
  unfold holds. cbn. unfold zlen in *. rewrite !length_insert. split_and!; try done. rewrite take_insert_lt, Ht by lia. by rewrite list_fmap_insert.
Qed.

Lemma holds_append arr l v : holds arr l -> zlen l + 1 <= a_size arr ->
  exists t, put_cell (a_table arr) (a_entries arr) v = Some t
    /\ holds (with_entries (with_table arr t) (u32 (a_entries arr + 1))) (l ++ [v]).
Proof.
  intros H Hroom. pose proof (holds_room arr l H) as [Hl Hm]. destruct H as (He & Hs & [Hr8 Hr] & Ht). pose proof (zlen_nonneg l).
  eexists. split; [apply put_cell_in; lia|]. unfold holds. cbn. rewrite He, u32_small by lia. unfold zlen in *. rewrite length_insert, length_app. cbn [length].
  split_and!; try done; [lia|]. rewrite Nat2Z.id, Nat.add_1_r, fmap_app, <- Ht. erewrite take_S_r; [|apply list_lookup_insert_eq; lia]. f_equal. by rewrite take_insert_ge.
Qed.

(** Two ways to make a gap at the place [i]: in place, and from an old table. *)
Lemma gap_filled (t src : list cell) l (i : nat) v : take i t = take i (Some <$> l) -> take (length l) src = Some <$> l -> (i <= length l)%nat ->
  (length l < length t)%nat ->
  take (S (length l)) (<[i := Some v]> (take (S i) t ++ take (length l - i) (drop i src) ++ drop (S (length l)) t)) = Some <$> (take i l ++ v :: drop i l).
Proof.
  intros Ht Hsrc Hi Hlen. assert (length (take (S i) t) = S i) as H1 by (rewrite length_take; lia).
  rewrite insert_app_l by lia. assert (<[i := Some v]> (take (S i) t) = take i (Some <$> l) ++ [Some v]) as ->.
  { destruct (lookup_lt_is_Some_2 t i) as [x Hx]; [lia|]. rewrite (take_S_r t i x Hx), Ht. rewrite <- (Nat.add_0_r i) at 1.
    assert (length (take i (Some <$> l)) = i) as Hti by (rewrite length_take, length_fmap; lia). rewrite <- Hti at 1. by rewrite insert_app_r. }
  assert (take (length l - i) (drop i src) = drop i (Some <$> l)) as -> by (by rewrite <- Hsrc, skipn_firstn_comm).
  rewrite fmap_app, fmap_cons, fmap_take, fmap_drop, <- !app_assoc. cbn [app].
  rewrite app_comm_cons, app_assoc. apply take_app_length'. rewrite length_app. cbn [length]. rewrite length_take, length_drop, length_fmap. lia.
Qed.

Lemma grown_gap arr l arr' old (i : Z) v : holds arr l -> 0 <= i <= zlen l -> zlen l + 1 <= a_size arr' ->
  match old with
  | None => holds arr' l
  | Some t => t = a_table arr /\ a_entries arr' = zlen l /\ a_size arr' = zlen (a_table arr') /\ 32 <= a_size arr' * 4 <= RAM
  end ->
  exists arr2 t, (match old with
     | Some old_table =>
         t ← array_copy (a_table arr') 0 old_table 0 i;
         t ← array_copy t (i + 1) old_table i (a_entries arr' - i);
         Some (with_table arr' t)
     | None => array_move arr' (i + 1) i (a_entries arr' - i)
     end) = Some arr2
    /\ put_cell (a_table arr2) i v = Some t
    /\ holds (with_entries (with_table arr2 t) (u32 (a_entries arr2 + 1))) (take (Z.to_nat i) l ++ v :: drop (Z.to_nat i) l).
Proof.
  intros H Hi Hroom Hold. pose proof (holds_room arr l H) as [Hl Hm]. pose proof H as (He & Hs & [Hr8 Hr] & Ht). pose proof (zlen_nonneg l).
  assert (exists src, take (length l) src = Some <$> l /\ a_entries arr' = zlen l /\ a_size arr' = zlen (a_table arr') /\ 32 <= a_size arr' * 4 <= RAM
    /\ exists t, take (Z.to_nat i) t = take (Z.to_nat i) (Some <$> l) /\ zlen t = zlen (a_table arr')
       /\ (match old with
           | Some old_table =>
               t ← array_copy (a_table arr') 0 old_table 0 i;
               t ← array_copy t (i + 1) old_table i (a_entries arr' - i);
               Some (with_table arr' t)
           | None => array_move arr' (i + 1) i (a_entries arr' - i)
           end) = Some (with_table arr' (take (S (Z.to_nat i)) t ++ take (length l - Z.to_nat i) (drop (Z.to_nat i) src) ++ drop (S (length l)) t)))
    as (src & Hsrc & He' & Hs' & [Hr8' Hr'] & t & Hti & Htl & ->).
  { destruct old as [told|].
    - destruct Hold as (-> & He' & Hs' & [Hr8' Hr']). exists (a_table arr). split_and!; try done.
      rewrite array_copy_in by lia. cbn [mbind option_bind]. set (t1 := take (Z.to_nat 0) _ ++ _).
      assert (t1 = take (Z.to_nat i) (Some <$> l) ++ drop (Z.to_nat i) (a_table arr')) as Ht1.
      { unfold t1. change (Z.to_nat 0) with O. rewrite take_0, drop_0, <- Ht, take_take, Nat.min_l by (unfold zlen in Hi; lia). cbn [app]. done. }
      assert (zlen t1 = zlen (a_table arr')) as Hz by (rewrite Ht1; unfold zlen in *; rewrite length_app, length_take, length_drop, length_fmap; lia).
      exists t1. split_and!; [|done|].
      { rewrite Ht1, take_app_le, take_take, Nat.min_id by (rewrite length_take, length_fmap; unfold zlen in *; lia). done. }
      rewrite array_copy_in by lia. cbn [mbind option_bind]. do 3 f_equal; [f_equal; lia|]. f_equal; [f_equal; unfold zlen in *; lia|f_equal; unfold zlen in *; lia].
    - pose proof Hold as (He' & Hs' & [Hr8' Hr'] & Ht'). exists (a_table arr'). split_and!; try done. exists (a_table arr'). split_and!; [|done|].
      { rewrite <- Ht', take_take, Nat.min_l by (unfold zlen in Hi; lia). done. }
      unfold array_move. rewrite array_copy_in by lia. cbn [mbind option_bind]. do 3 f_equal; [f_equal; lia|]. f_equal; [f_equal; unfold zlen in *; lia|f_equal; unfold zlen in *; lia]. }
  do 2 eexists. split; [done|]. split.
  - apply put_cell_in. cbn. unfold zlen in *. rewrite !length_app, !length_take, !length_drop.
    apply (f_equal length) in Hsrc. rewrite length_take, length_fmap in Hsrc. lia.
  - unfold holds. cbn. rewrite He', u32_small by lia.
    assert (length (take (Z.to_nat i) l ++ v :: drop (Z.to_nat i) l) = S (length l)) as Hn
      by (rewrite length_app; cbn [length]; rewrite length_take, length_drop; unfold zlen in Hi; lia).
    split_and!; [unfold zlen; rewrite Hn; lia| |done|done|].
    + unfold zlen in *. rewrite length_insert, !length_app, !length_take, !length_drop. apply (f_equal length) in Hsrc. rewrite length_take, length_fmap in Hsrc. lia.
    + rewrite Hn. apply gap_filled; [done|done|unfold zlen in Hi; lia|unfold zlen in *; lia].
Qed.

Lemma remove_holds arr l i : holds arr l -> 0 <= i < zlen l ->
  exists arr', (if i <? a_entries arr - 1 then array_move arr i (i + 1) (a_entries arr - i - 1) else Some arr) = Some arr'
    /\ holds (with_entries arr' (a_entries arr' - 1)) (delete (Z.to_nat i) l).
Proof.
  intros H Hi. pose proof (holds_room arr l H) as [Hl Hm]. destruct H as (He & Hs & [Hr8 Hr] & Ht). assert (length (delete (Z.to_nat i) l) = (length l - 1)%nat) as Hn.
  { apply length_delete, lookup_lt_is_Some_2. unfold zlen in Hi. lia. }
  assert (delete (Z.to_nat i) l = take (Z.to_nat i) l ++ drop (S (Z.to_nat i)) l) as Hd by apply delete_take_drop.
  case_if; b2p.
  - unfold array_move. rewrite array_copy_in by lia. cbn [mbind option_bind]. eexists. split; [done|]. unfold holds. cbn. rewrite He.
    split_and!; [unfold zlen in *; lia| |done|done|].
    + unfold zlen in *. rewrite !length_app, !length_take, !length_drop. lia.
    + assert (take (Z.to_nat i) (a_table arr) = Some <$> take (Z.to_nat i) l) as ->.
      { rewrite fmap_take, <- Ht, take_take, Nat.min_l by (unfold zlen in Hi; lia). done. }
      assert (take (Z.to_nat (zlen l - i - 1)) (drop (Z.to_nat (i + 1)) (a_table arr)) = Some <$> drop (S (Z.to_nat i)) l) as ->.
      { rewrite fmap_drop, <- Ht, skipn_firstn_comm. f_equal; [unfold zlen in *; lia|]. f_equal. lia. }
      rewrite app_assoc, <- fmap_app, <- Hd. apply take_app_length'. by rewrite length_fmap.
  - exists arr. split; [done|]. unfold holds. cbn. rewrite He. split_and!; [unfold zlen in *; lia|done|done|done|].
    rewrite Hn. assert (drop (S (Z.to_nat i)) l = []) as Hnil by (apply drop_ge; unfold zlen in *; lia). rewrite Hnil, app_nil_r in Hd. rewrite Hd.
    rewrite fmap_take, <- Ht, take_take. f_equal. unfold zlen in *. lia.
Qed.

Lemma extend_holds arr other l l' : holds arr l -> holds other l' -> zlen l + zlen l' <= a_size arr ->
  exists t, array_copy (a_table arr) (a_entries arr) (a_table other) 0 (a_entries other) = Some t
    /\ holds (with_entries (with_table arr t) (u32 (a_entries arr + a_entries other))) (l ++ l').
Proof.
  intros H H' Hroom. pose proof (holds_room arr l H) as [Hl Hm]. pose proof (holds_room other l' H') as [Hl' Hm'].
  destruct H as (He & Hs & [Hr8 Hr] & Ht), H' as (He' & Hs' & [Hr8' Hr'] & Ht'). pose proof (zlen_nonneg l). pose proof (zlen_nonneg l').
  eexists. split; [apply array_copy_in; lia|]. unfold holds. cbn. rewrite He, He', u32_small by lia. change (Z.to_nat 0) with O. rewrite drop_0.
  split_and!; [by rewrite zlen_app| |done|done|].
  - unfold zlen in *. rewrite !length_app, !length_take, !length_drop. lia.
  - unfold zlen in *. rewrite !Nat2Z.id, Ht, Ht', app_assoc, <- fmap_app. apply take_app_length'. by rewrite length_fmap.
Qed.

(** ** Calls, and the lists they work on *)

Inductive array_call :=
  | CallGet (a index : Z)
  | CallSet (a index : Z) (v : option Z)
  | CallAppend (room : bool) (a : Z) (v : option Z)
  | CallInsert (room : bool) (a index : Z) (v : option Z)
  | CallRemove (a index : Z)
  | CallClear (a : Z)
  | CallExtend (room : bool) (a b : Z).

Inductive array_answer := Code (rc : Z) | Value (v : option Z).

Definition array_step (h : heap) (c : array_call) : option (array_answer * heap) :=
  let code r := '(rc, h) ← r : option (Z * heap); Some (Code rc, h) in
  match c with
  | CallGet a i => v ← json_array_get h a i; Some (Value v, h)
  | CallSet a i v => code (json_array_set_new h a i v)
  | CallAppend room a v => code (json_array_append_new room h a v)
  | CallInsert room a i v => code (json_array_insert_new room h a i v)
  | CallRemove a i => code (json_array_remove h a i)
  | CallClear a => code (json_array_clear h a)
  | CallExtend room a b => code (json_array_extend room h a b)
  end.

Fixpoint array_run (h : heap) (cs : list array_call) : option (list array_answer * heap) :=
  match cs with
  | [] => Some ([], h)
  | c :: cs => '(r, h) ← array_step h c; '(rs, h) ← array_run h cs; Some (r :: rs, h)
  end.

(** [index] is a [size_t]. *)
Definition call_ok (c : array_call) : Prop :=
  match c with CallGet _ i | CallSet _ i _ | CallInsert _ _ i _ | CallRemove _ i => 0 <= i | _ => True end.

Abbreviation lists := (gmap Z (list Z)).

(** The reference a call takes over. *)
Definition stolen (c : array_call) : list Z :=
  match c with CallSet _ _ (Some v) | CallAppend _ _ (Some v) | CallInsert _ _ _ (Some v) => [v] | _ => [] end.

(** A call that changes a list, and the references it adds and drops. *)
Inductive changes : array_call -> lists -> lists -> list Z -> list Z -> Prop :=
  | set_changes m a i v l old : m !! a = Some l -> a <> v -> l !! Z.to_nat i = Some old ->
      changes (CallSet a i (Some v)) m (<[a := <[Z.to_nat i := v]> l]> m) [] [old]
  | append_changes m room a v l : m !! a = Some l -> a <> v -> changes (CallAppend room a (Some v)) m (<[a := l ++ [v]]> m) [] []
  | insert_changes m room a i v l : m !! a = Some l -> a <> v -> i <= zlen l ->
      changes (CallInsert room a i (Some v)) m (<[a := take (Z.to_nat i) l ++ v :: drop (Z.to_nat i) l]> m) [] []
  | remove_changes m a i l old : m !! a = Some l -> l !! Z.to_nat i = Some old ->
      changes (CallRemove a i) m (<[a := delete (Z.to_nat i) l]> m) [] [old]
  | clear_changes m a l : m !! a = Some l -> changes (CallClear a) m (<[a := []]> m) [] l
  | extend_changes m room a b l l' : m !! a = Some l -> m !! b = Some l' -> changes (CallExtend room a b) m (<[a := l ++ l']> m) l' [].

(** A value that is not taken: there is none, it is the array itself, or there
    is no array. *)
Definition not_taken (m : lists) (a : Z) (v : option Z) : Prop := v = None \/ v = Some a \/ m !! a = None.

(** Why a call changes nothing. *)
Definition refused (c : array_call) (m : lists) : Prop :=
  match c with
  | CallGet _ _ => False
  | CallSet a i v => not_taken m a v \/ exists l, m !! a = Some l /\ zlen l <= i
  | CallAppend room a v => not_taken m a v \/ exists l, m !! a = Some l /\ out_of_memory room (zlen l + 1)
  | CallInsert room a i v => not_taken m a v \/ exists l, m !! a = Some l /\ (zlen l < i \/ out_of_memory room (zlen l + 1))
  | CallRemove a i => m !! a = None \/ exists l, m !! a = Some l /\ zlen l <= i
  | CallClear a => m !! a = None
  | CallExtend room a b => m !! a = None \/ m !! b = None
      \/ exists l l', m !! a = Some l /\ m !! b = Some l' /\ out_of_memory room (zlen l + zlen l')
  end.

Inductive spec : array_call -> array_answer -> lists -> lists -> list Z -> list Z -> Prop :=
  | spec_get m a i : spec (CallGet a i) (Value (l ← m !! a; l !! Z.to_nat i)) m m [] []
  | spec_done c m m' inc dec : changes c m m' inc dec -> spec c (Code 0) m m' inc dec
  | spec_refused c m : refused c m -> spec c (Code (-1)) m m [] (stolen c).

Inductive spec_run : list array_call -> list array_answer -> lists -> lists -> list Z -> list Z -> Prop :=
  | run_nil m : spec_run [] [] m m [] []
  | run_cons c cs r rs m m' m'' inc dec inc' dec' : spec c r m m' inc dec -> spec_run cs rs m' m'' inc' dec' ->
      spec_run (c :: cs) (r :: rs) m m'' (inc ++ inc') (dec ++ dec').

Definition rep (h : heap) (m : lists) : Prop := forall a, option_Forall2 holds (arrays h !! a) (m !! a).

Lemma rep_cases h m a : rep h m -> (arrays h !! a = None /\ m !! a = None) \/ (exists arr l, arrays h !! a = Some arr /\ m !! a = Some l /\ holds arr l).
Proof. intros H. destruct (H a) as [arr l Hl|]; [right; by exists arr, l|by left]. Qed.

Lemma rep_set h m a arr l : rep h m -> holds arr l -> rep (set_array h a arr) (<[a := l]> m).
Proof.
  intros H Hl b. cbn. destruct (decide (a = b)) as [->|Hne]; [rewrite !lookup_insert_eq; by constructor|]. rewrite !lookup_insert_ne by done. apply H.
Qed.

Lemma rep_refs h h' m : arrays h' = arrays h -> rep h m -> rep h' m.
Proof. unfold rep. by intros ->. Qed.

Lemma foldl_decref h vs : foldl json_decref h vs = Heap (arrays h) (increfs h) (decrefs h ++ vs).
Proof. revert h. induction vs as [|v vs IH]; intros h; cbn; [rewrite app_nil_r; by destruct h|]. rewrite IH. cbn. by rewrite <- app_assoc. Qed.

Lemma foldl_incref h vs : foldl json_incref h vs = Heap (arrays h) (increfs h ++ vs) (decrefs h).
Proof. revert h. induction vs as [|v vs IH]; intros h; cbn; [rewrite app_nil_r; by destruct h|]. rewrite IH. cbn. by rewrite <- app_assoc. Qed.

(** The outcome [o] of a call is one the specification allows. *)
Definition agrees (h : heap) (m : lists) (c : array_call) (o : option (array_answer * heap)) : Prop :=
  exists r h' m' inc dec, o = Some (r, h') /\ spec c r m m' inc dec /\ rep h' m' /\ increfs h' = increfs h ++ inc /\ decrefs h' = decrefs h ++ dec.

Lemma agrees_refused h m c h' : rep h m -> refused c m -> (h' = match stolen c with v :: _ => json_decref h v | [] => h end) ->
  agrees h m c (Some (Code (-1), h')).
Proof.
  intros H Hr ->. exists (Code (-1)), (match stolen c with v :: _ => json_decref h v | [] => h end), m, [], (stolen c).
  split; [done|]. split; [by constructor|]. destruct c as [a i|a i [v|]|room a [v|]|room a i [v|]|a i|a|room a b]; cbn; rewrite ?app_nil_r; split_and!; try done;
    by apply (rep_refs h).
Qed.

Lemma agrees_done h m c h' m' inc dec : changes c m m' inc dec -> rep h' m' -> increfs h' = increfs h ++ inc -> decrefs h' = decrefs h ++ dec ->
  agrees h m c (Some (Code 0, h')).
Proof. intros Hc Hr Hi Hd. exists (Code 0), h', m', inc, dec. split_and!; try done. by constructor. Qed.

Lemma get_agrees h m a i : rep h m -> 0 <= i -> agrees h m (CallGet a i) (array_step h (CallGet a i)).
Proof.
  intros H Hi. assert (Hans : json_array_get h a i = Some (l ← m !! a; l !! Z.to_nat i)).
  { unfold json_array_get. destruct (rep_cases h m a H) as [[-> ->]|(arr & l & -> & -> & Hl)]; [done|]. cbn [mbind option_bind]. rewrite (proj1 Hl).
    case_if; b2p; [|destruct (get_cell_holds arr l i Hl) as (v & -> & ->); [lia|done]]. symmetry. rewrite lookup_ge_None_2 by (unfold zlen in E; lia). done. }
  cbn [array_step]. rewrite Hans. cbn [mbind option_bind]. do 5 eexists. split; [done|]. split; [apply spec_get|]. by rewrite !app_nil_r.
Qed.

Lemma set_agrees h m a i v : rep h m -> 0 <= i -> agrees h m (CallSet a i v) (array_step h (CallSet a i v)).
Proof.
  intros H Hi. cbn [array_step]. unfold json_array_set_new. destruct v as [v|]; [|apply agrees_refused; [done|by left; left|done]].
  destruct (rep_cases h m a H) as [[-> Hm]|(arr & l & -> & Hm & Hl)]; [apply agrees_refused; [done|by left; right; right|done]|].
  case_if; b2p; [subst; apply agrees_refused; [done|by left; right; left|done]|]. rewrite (proj1 Hl).
  case_if; b2p; [apply agrees_refused; [done|right; by exists l|done]|].
  destruct (get_cell_holds arr l i Hl) as (old & Hold & ->); [lia|]. destruct (holds_put arr l i v Hl) as (t & -> & Ht); [lia|]. cbn [mbind option_bind].
  eapply agrees_done; [by eapply set_changes|apply rep_set; [by apply (rep_refs h)|done]|cbn; by rewrite app_nil_r|done].
Qed.

Lemma append_agrees h m room a v : rep h m -> agrees h m (CallAppend room a v) (array_step h (CallAppend room a v)).
Proof.
  intros H. cbn [array_step]. unfold json_array_append_new. destruct v as [v|]; [|apply agrees_refused; [done|by left; left|done]].
  destruct (rep_cases h m a H) as [[-> Hm]|(arr & l & -> & Hm & Hl)]; [apply agrees_refused; [done|by left; right; right|done]|].
  case_if; b2p; [subst; apply agrees_refused; [done|by left; right; left|done]|].
  destruct (grow_holds room arr l 1 true Hl ltac:(lia)) as ([[arr' old]|] & -> & Hg); cbn [mbind option_bind]; [|apply agrees_refused; [done|right; by exists l|done]].
  destruct Hg as [Hroom Hg]. destruct old as [t|]; [by destruct Hg|]. destruct (holds_append arr' l v Hg Hroom) as (t & -> & Ht). cbn [mbind option_bind].
  eapply agrees_done; [by eapply append_changes|by apply rep_set|cbn; by rewrite app_nil_r|cbn; by rewrite app_nil_r].
Qed.

Lemma insert_agrees h m room a i v : rep h m -> 0 <= i -> agrees h m (CallInsert room a i v) (array_step h (CallInsert room a i v)).
Proof.
  intros H Hi. cbn [array_step]. unfold json_array_insert_new. destruct v as [v|]; [|apply agrees_refused; [done|by left; left|done]].
  destruct (rep_cases h m a H) as [[-> Hm]|(arr & l & -> & Hm & Hl)]; [apply agrees_refused; [done|by left; right; right|done]|].
  case_if; b2p; [subst; apply agrees_refused; [done|by left; right; left|done]|]. rewrite (proj1 Hl).
  case_if; b2p; [apply agrees_refused; [done|right; exists l; by split; [|left]|done]|].
  destruct (grow_holds room arr l 1 false Hl ltac:(lia)) as ([[arr' old]|] & -> & Hg); cbn [mbind option_bind]; [|apply agrees_refused; [done|right; exists l; by split; [|right]|done]].
  destruct Hg as [Hroom Hg]. destruct (grown_gap arr l arr' old i v Hl ltac:(lia) Hroom) as (arr2 & t & -> & Hp & Ht).
  { destruct old as [told|]; [|done]. by destruct Hg as (_ & Hg). }
  cbn [mbind option_bind]. rewrite Hp. cbn [mbind option_bind].
  eapply agrees_done; [by eapply insert_changes|by apply rep_set|cbn; by rewrite app_nil_r|cbn; by rewrite app_nil_r].
Qed.

Lemma remove_agrees h m a i : rep h m -> 0 <= i -> agrees h m (CallRemove a i) (array_step h (CallRemove a i)).
Proof.
  intros H Hi. cbn [array_step]. unfold json_array_remove. destruct (rep_cases h m a H) as [[-> Hm]|(arr & l & -> & Hm & Hl)]; [apply agrees_refused; [done|by left|done]|].
  rewrite (proj1 Hl). case_if; b2p; [apply agrees_refused; [done|right; by exists l|done]|].
  destruct (get_cell_holds arr l i Hl) as (old & Hold & ->); [lia|]. destruct (remove_holds arr l i Hl) as (arr' & Hmv & Ht); [lia|].
  rewrite (proj1 Hl) in Hmv. cbn [mbind option_bind]. rewrite Hmv. cbn [mbind option_bind].
  eapply agrees_done; [by eapply remove_changes|apply rep_set; [by apply (rep_refs h)|done]|cbn; by rewrite app_nil_r|done].
Qed.

Lemma clear_agrees h m a : rep h m -> agrees h m (CallClear a) (array_step h (CallClear a)).
Proof.
  intros H. cbn [array_step]. unfold json_array_clear. destruct (rep_cases h m a H) as [[-> Hm]|(arr & l & -> & Hm & Hl)]; [by apply agrees_refused|].
  rewrite (stored_holds arr l Hl). cbn [mbind option_bind]. rewrite foldl_decref. cbn [mbind option_bind].
  eapply agrees_done; [by eapply clear_changes| |cbn; by rewrite app_nil_r|done]. apply rep_set; [by apply (rep_refs h)|].
  destruct Hl as (_ & Hs & [Hr8 Hr] & _). done.
Qed.

Lemma extend_agrees h m room a b : rep h m -> agrees h m (CallExtend room a b) (array_step h (CallExtend room a b)).
Proof.
  intros H. cbn [array_step]. unfold json_array_extend. destruct (rep_cases h m a H) as [[-> Hm]|(arr & l & -> & Hm & Hl)]; [apply agrees_refused; [done|by left|done]|].
  destruct (rep_cases h m b H) as [[-> Hmb]|(other & l' & -> & Hmb & Hl')]; [apply agrees_refused; [done|by right; left|done]|].
  pose proof (holds_room other l' Hl') as [Ho Ho']. pose proof (zlen_nonneg l').
  destruct (grow_holds room arr l (a_entries other) true Hl) as ([[arr' old]|] & -> & Hg);
    [rewrite (proj1 Hl'); lia| |apply agrees_refused; [done|right; right; exists l, l'; by rewrite <- (proj1 Hl')|done]].
  cbn [mbind option_bind]. destruct Hg as [Hroom Hg]. destruct old as [t|]; [by destruct Hg|]. rewrite (proj1 Hl') in Hroom.
  assert (Hrep : rep (set_array h a arr') m) by (rewrite <- (insert_id m a l Hm); by apply rep_set).
  destruct (rep_cases _ m b Hrep) as [[_ Hbad]|(other' & l2 & -> & Hmb' & Ho2)]; [congruence|]. rewrite Hmb in Hmb'. injection Hmb' as <-. cbn [mbind option_bind].
  rewrite (stored_holds other' l' Ho2). cbn [mbind option_bind]. destruct (extend_holds arr' other' l l' Hg Ho2 Hroom) as (t & -> & Ht).
  cbn [mbind option_bind]. rewrite foldl_incref. cbn [mbind option_bind].
  eapply agrees_done; [by eapply extend_changes| |done|cbn; by rewrite app_nil_r]. apply rep_set; [|done]. by apply (rep_refs (set_array h a arr')).
Qed.

Lemma step_agrees h m c : rep h m -> call_ok c -> agrees h m c (array_step h c).
Proof.
  intros H Hc. destruct c; [by apply get_agrees|by apply set_agrees|by apply append_agrees|by apply insert_agrees|by apply remove_agrees|by apply clear_agrees|by apply extend_agrees].
Qed.

Lemma run_agrees cs : forall h m, rep h m -> Forall call_ok cs ->
  exists rs h' m' inc dec, array_run h cs = Some (rs, h') /\ spec_run cs rs m m' inc dec /\ rep h' m'
    /\ increfs h' = increfs h ++ inc /\ decrefs h' = decrefs h ++ dec.
Proof.
  induction cs as [|c cs IH]; intros h m H Hok.
  - exists [], h, m, [], []. rewrite !app_nil_r. split_and!; try done. constructor.
  - destruct (step_agrees h m c H (Forall_inv Hok)) as (r & h1 & m1 & inc & dec & E & Hs & H1 & Hi & Hd).
    destruct (IH h1 m1 H1 (Forall_inv_tail Hok)) as (rs & h2 & m2 & inc' & dec' & E' & Hs' & H2 & Hi' & Hd').
    exists (r :: rs), h2, m2, (inc ++ inc'), (dec ++ dec'). cbn [array_run]. rewrite E. cbn [mbind option_bind]. rewrite E'.
    split; [done|]. split; [by econstructor|]. split; [done|]. by rewrite Hi', Hd', Hi, Hd, !app_assoc.
Qed.

(** *** References *)

Definition held (m : lists) : list Z := mjoin (map_to_list m).*2.

Lemma held_insert m a l : m !! a = None -> held (<[a := l]> m) ≡ₚ l ++ held m.
Proof. intros Ha. unfold held. by rewrite map_to_list_insert. Qed.

Lemma held_update m a l l' : m !! a = Some l -> held (<[a := l']> m) ≡ₚ l' ++ held (delete a m) /\ held m ≡ₚ l ++ held (delete a m).
Proof.
  intros Ha. split; [rewrite <- insert_delete_eq; by apply held_insert, lookup_delete_eq|].
  rewrite <- (insert_id m a l Ha) at 1. rewrite <- insert_delete_eq. by apply held_insert, lookup_delete_eq.
Qed.

Lemma changes_balanced c m m' inc dec : changes c m m' inc dec -> held m' ++ dec ≡ₚ held m ++ inc ++ stolen c.
Proof.
  destruct 1 as [m a i v l old Ha Hv Hold|m room a v l Ha Hv|m room a i v l Ha Hv Hi|m a i l old Ha Hold|m a l Ha|m room a b l l' Ha Hb];
    match goal with |- held (<[_ := ?x]> _) ++ _ ≡ₚ _ => destruct (held_update m a l x Ha) as [-> ->] end; cbn [stolen]; rewrite ?app_nil_r.
  - rewrite insert_take_drop by (by eapply lookup_lt_Some). rewrite <- (take_drop_middle l (Z.to_nat i) old Hold) at 3. solve_Permutation.
  - solve_Permutation.
  - rewrite <- (take_drop (Z.to_nat i) l) at 3. solve_Permutation.
  - rewrite delete_take_drop. rewrite <- (take_drop_middle l (Z.to_nat i) old Hold) at 3. solve_Permutation.
  - solve_Permutation.
  - solve_Permutation.
Qed.

Lemma spec_run_balanced cs rs m m' inc dec : spec_run cs rs m m' inc dec -> held m' ++ dec ≡ₚ held m ++ inc ++ mjoin (stolen <$> cs).
Proof.
  induction 1 as [m|c cs r rs m m1 m2 inc dec inc' dec' Hs _ IH]; [by rewrite !app_nil_r|].
  assert (held m1 ++ dec ≡ₚ held m ++ inc ++ stolen c) as H1.
  { destruct Hs as [|c m m' inc dec Hc|c m Hr]; [done|by apply changes_balanced|done]. }
  cbn. transitivity ((held m2 ++ dec') ++ dec); [solve_Permutation|]. rewrite IH. transitivity ((held m1 ++ dec) ++ inc' ++ mjoin (stolen <$> cs)); [solve_Permutation|].
  rewrite H1. solve_Permutation.
Qed.

(** C12: whatever is called on the arrays of a store, no call touches a cell
    outside of a table or one that was never written, and the arrays behave as
    lists, also when one is extended by itself.  A call is refused only without
    an array, without a value or with the array itself as the value, for an
    index behind the end, or, beyond the eight elements of a new array, when the
    memory for eight bytes an element cannot be had.  No reference is lost: what
    the arrays hold and what was released is what they held, what they shared
    and what the calls took over. *)
Theorem arrays_refine h m cs : rep h m -> Forall call_ok cs ->
  exists rs h' m' inc dec, array_run h cs = Some (rs, h') /\ spec_run cs rs m m' inc dec /\ rep h' m'
    /\ increfs h' = increfs h ++ inc /\ decrefs h' = decrefs h ++ dec
    /\ held m' ++ dec ≡ₚ held m ++ inc ++ mjoin (stolen <$> cs).
Proof.
  intros H Hok. destruct (run_agrees cs h m H Hok) as (rs & h' & m' & inc & dec & E & Hs & Hr & Hi & Hd).
  exists rs, h', m', inc, dec. split_and!; try done. by eapply spec_run_balanced.
Qed.

(** Deleting an array drops the reference to each of its elements. *)
Lemma delete_releases h m a l : rep h m -> m !! a = Some l ->
  exists h', json_delete_array h a = Some h' /\ rep h' (delete a m) /\ decrefs h' = decrefs h ++ l.
Proof.
  intros H Ha. destruct (rep_cases h m a H) as [[_ Hbad]|(arr & l' & E & Hm & Hl)]; [congruence|]. rewrite Ha in Hm. injection Hm as <-.
  unfold json_delete_array. rewrite E. cbn [mbind option_bind]. rewrite (stored_holds arr l Hl). cbn [mbind option_bind]. rewrite foldl_decref. eexists. split; [done|].
  split; [|done]. intros b. cbn. destruct (decide (a = b)) as [->|Hne]; [rewrite !lookup_delete_eq; constructor|]. rewrite !lookup_delete_ne by done. apply H.
Qed.
End arrays.

(** ** Examples *)

(** Two new arrays. *)
Definition new_array : json_array_t := Array 8 0 (replicate 8 None).
Definition two_arrays : heap := set_array (set_array (Heap ∅ [] []) 2 new_array) 1 new_array.
Definition two_lists : gmap Z (list Z) := <[1 := []]> (<[2 := []]> ∅).

Lemma two_arrays_rep RAM : 32 <= RAM -> rep RAM two_arrays two_lists.
Proof.
  intros HR. assert (holds RAM new_array []) as Hn by (unfold holds; cbn; split_and!; try done; lia).
  apply rep_set; [|done]. apply rep_set; [|done]. intros a. cbn. rewrite !lookup_empty. constructor.
Qed.

Definition sample_calls : list array_call :=
  (CallAppend true 1 ∘ Some <$> [10; 11; 12; 13; 14; 15; 16; 17]) ++
  [CallInsert true 1 3 (Some 18); CallAppend false 2 (Some 20); CallExtend true 1 1; CallRemove 1 0; CallSet 1 40 (Some 21); CallExtend true 2 1; CallClear 1].

Lemma arrays_refine_witness :
  exists rs h' m' inc dec, array_run (2 ^ 19) two_arrays sample_calls = Some (rs, h') /\ spec_run (2 ^ 19) sample_calls rs two_lists m' inc dec
    /\ rep (2 ^ 19) h' m' /\ increfs h' = [] ++ inc /\ decrefs h' = [] ++ dec
    /\ held m' ++ dec ≡ₚ held two_lists ++ inc ++ mjoin (stolen <$> sample_calls).
Proof.
  apply (arrays_refine (2 ^ 19) ltac:(lia) two_arrays two_lists sample_calls).
  - apply two_arrays_rep. lia.
  - repeat constructor; by vm_compute.
Defined.

(** [json_array_copy] does not look at the result of its appends: when there is
    no memory for the ninth element, the copy has eight and no error. *)
Theorem copy_cut_short :
  exists h, ((r ← array_run (2 ^ 19) two_arrays ((CallAppend true 1 ∘ Some) <$> [10; 11; 12; 13; 14; 15; 16; 17; 18]);
              json_array_copy (2 ^ 19) true (fun _ => false) r.2 1 3) = Some (Some h))
    /\ json_array_size h 1 = 9 /\ json_array_size h 3 = 8.
Proof. eexists. split; [vm_compute; reflexivity|]. by vm_compute. Qed.
