(* ===== verification/JsonValue.v ===== *)
(** * JSON values as a whole (components/json/jansson/src/value.c)

    The operations on objects, comparing and copying.  A value is a tree, as in
    Jansson.v: an operation that changes a value returns the new one, the
    allocations succeed, and the check for loops finds nothing.  [json_equal]
    first compares the addresses; without it two trees are compared to their
    leaves, which gives the same answer because no value holds a NaN
    ([json_real] refuses it).  An object is its members in the order of
    insertion, which the hash table refines (HashTableSpec.v). *)

From S2P Require Import Prelude Jansson.

(** ** Real numbers: the bits of a double *)

Definition isnan (bits : Z) : bool := (Z.land (Z.shiftr bits 52) 2047 =? 2047) && negb (Z.land bits (Z.ones 52) =? 0).
Definition isinf (bits : Z) : bool := (Z.land (Z.shiftr bits 52) 2047 =? 2047) && (Z.land bits (Z.ones 52) =? 0).

(** The comparison of two doubles: a NaN differs from everything, and the two
    zeros are equal. *)
Definition double_equal (a b : Z) : bool :=
  negb (isnan a) && negb (isnan b) && ((a =? b) || ((Z.land a (Z.ones 63) =? 0) && (Z.land b (Z.ones 63) =? 0))).

Definition json_real (value : Z) : option json := if isnan value || isinf value then None else Some (JReal value).

Definition json_real_value (j : option json) : Z := match j with Some (JReal v) => v | _ => 0 end.

(** ** Objects *)

Definition json_object_size (j : option json) : Z := match j with Some (JObject ms) => zlen ms | _ => 0 end.

Fixpoint assoc_del (key : bytes) (l : list (bytes * json)) : list (bytes * json) :=
  match l with
  | [] => []
  | (k, v) :: l' => if bool_decide (k = key) then l' else (k, v) :: assoc_del key l'
  end.

(** [None] for the result -1. *)
Definition json_object_del (j : option json) (key : bytes) : option json :=
  match j with
  | Some (JObject ms) => match assoc_get key ms with Some _ => Some (JObject (assoc_del key ms)) | None => None end
  | _ => None
  end.

Definition json_object_clear (j : option json) : option json := match j with Some (JObject _) => Some (JObject []) | _ => None end.

Definition set_member (ms : list (bytes * json)) (kv : bytes * json) : list (bytes * json) := assoc_set kv.1 kv.2 ms.

Definition json_object_update (object other : option json) : option json :=
  match object, other with
  | Some (JObject ms), Some (JObject os) => Some (JObject (fold_left set_member os ms))
  | _, _ => None
  end.

Definition missing_member (ms : list (bytes * json)) (kv : bytes * json) : list (bytes * json) :=
  match assoc_get kv.1 ms with Some _ => ms | None => assoc_set kv.1 kv.2 ms end.

Definition json_object_update_missing (object other : option json) : option json :=
  match object, other with
  | Some (JObject ms), Some (JObject os) => Some (JObject (fold_left missing_member os ms))
  | _, _ => None
  end.

Definition is_object (j : json) : bool := match j with JObject _ => true | _ => false end.

(** The members of [other], each with the member it meets. *)
Fixpoint do_object_update_recursive (object other : json) {struct other} : json :=
  match object, other with
  | JObject ms, JObject os =>
      JObject (fold_left (fun ms kv =>
        match assoc_get kv.1 ms with
        | Some v => if is_object v && is_object kv.2 then assoc_set kv.1 (do_object_update_recursive v kv.2) ms else assoc_set kv.1 kv.2 ms
        | None => assoc_set kv.1 kv.2 ms
        end) os ms)
  | _, _ => object
  end.

Definition json_object_update_recursive (object other : option json) : option json :=
  match object, other with
  | Some (JObject ms), Some (JObject os) => Some (do_object_update_recursive (JObject ms) (JObject os))
  | _, _ => None
  end.

(** ** Equality *)

(** The loop over two arrays of the same size. *)
Definition elements_equal (equal : json -> json -> bool) : list json -> list json -> bool :=
  fix go l1 l2 :=
    match l1, l2 with
    | v1 :: l1, v2 :: l2 => if equal v1 v2 then go l1 l2 else false
    | _, _ => true
    end.

(** The loop over the members of the first object. *)
Definition members_equal (equal : json -> json -> bool) (ms2 : list (bytes * json)) : list (bytes * json) -> bool :=
  fix go ms1 :=
    match ms1 with
    | [] => true
    | (key, value1) :: ms1 =>
        match assoc_get key ms2 with
        | None => false
        | Some value2 => if equal value1 value2 then go ms1 else false
        end
    end.

Fixpoint json_equal (j1 j2 : json) : bool :=
  match j1, j2 with
  | JObject ms1, JObject ms2 => (zlen ms1 =? zlen ms2) && members_equal (fun x y => json_equal x y) ms2 ms1
  | JArray l1, JArray l2 => (zlen l1 =? zlen l2) && elements_equal (fun x y => json_equal x y) l1 l2
  | JString s1, JString s2 => (zlen s1 =? zlen s2) && bool_decide (s1 = s2)
  | JInteger v1, JInteger v2 => v1 =? v2
  | JReal v1, JReal v2 => double_equal v1 v2
  | JTrue, JTrue | JFalse, JFalse | JNull, JNull => true
  | _, _ => false
  end.

(** ** Copies *)

Definition json_object_copy (ms : list (bytes * json)) : json := JObject (fold_left set_member ms []).

Definition json_copy (j : json) : option json :=
  match j with
  | JObject ms => Some (json_object_copy ms)
  | JArray l => Some (JArray (fold_left (fun result v => result ++ [v]) l []))
  | JReal v => json_real v
  | _ => Some j
  end.

Definition copy_members (copy : json -> option json) : list (bytes * json) -> list (bytes * json) -> option (list (bytes * json)) :=
  fix go ms result :=
    match ms with
    | [] => Some result
    | (key, value) :: ms => v ← copy value; go ms (assoc_set key v result)
    end.

Definition copy_elements (copy : json -> option json) : list json -> list json -> option (list json) :=
  fix go l result :=
    match l with
    | [] => Some result
    | value :: l => v ← copy value; go l (result ++ [v])
    end.

Fixpoint do_deep_copy (j : json) : option json :=
  match j with
  | JObject ms => ms' ← copy_members (fun v => do_deep_copy v) ms []; Some (JObject ms')
  | JArray l => l' ← copy_elements (fun v => do_deep_copy v) l []; Some (JArray l')
  | JReal v => json_real v
  | _ => Some j
  end.

(** ** Well-formed values *)

(** Each key once, and no real number that [json_real] refuses. *)
Fixpoint valid (j : json) : bool :=
  match j with
  | JObject ms => bool_decide (NoDup ms.*1) && forallb (fun kv => valid kv.2) ms
  | JArray l => forallb valid l
  | JReal v => negb (isnan v || isinf v)
  | _ => true
  end.

(** ** Members *)

Lemma assoc_get_Some key v ms : assoc_get key ms = Some v -> (key, v) ∈ ms.
Proof.
  induction ms as [|[k w] ms IH]; [done|]. cbn. case_bool_decide as E; [intros [= ->]; subst; left|]. intros H. right. by apply IH.
Qed.

Lemma assoc_get_In key v ms : NoDup ms.*1 -> (key, v) ∈ ms -> assoc_get key ms = Some v.
Proof.
  induction ms as [|[k w] ms IH]; intros Hnd Hin; [by apply elem_of_nil in Hin|]. cbn in Hnd |- *. apply NoDup_cons in Hnd as [Hk Hnd].
  apply elem_of_cons in Hin as [[= -> ->]|Hin]; [by rewrite bool_decide_eq_true_2|]. rewrite bool_decide_eq_false_2; [by apply IH|].
  intros ->. apply Hk. apply list_elem_of_fmap. by exists (key, v).
Qed.

Lemma assoc_get_None key ms : assoc_get key ms = None <-> key ∉ ms.*1.
Proof.
  induction ms as [|[k w] ms IH]; cbn; [split; [intros _; apply not_elem_of_nil|done]|]. case_bool_decide as E; [subst; split; [done|intros []; left]|].
  rewrite IH, not_elem_of_cons. split; [intros H; split; congruence|by intros []].
Qed.

Lemma assoc_set_keys key v ms k : k ∈ (assoc_set key v ms).*1 <-> k = key \/ k ∈ ms.*1.
Proof.
  induction ms as [|[k' w] ms IH]; cbn; [rewrite list_elem_of_singleton; set_solver|]. case_bool_decide as E; cbn; rewrite !elem_of_cons; [subst; naive_solver|].
  rewrite IH. naive_solver.
Qed.

Lemma assoc_set_nodup key v ms : NoDup ms.*1 -> NoDup (assoc_set key v ms).*1.
Proof.
  induction ms as [|[k w] ms IH]; cbn; intros H; [apply NoDup_singleton|]. apply NoDup_cons in H as [Hk H]. case_bool_decide as E; cbn; constructor; auto.
  rewrite assoc_set_keys. intros [->|]; done.
Qed.

Lemma assoc_set_end key v ms : key ∉ ms.*1 -> assoc_set key v ms = ms ++ [(key, v)].
Proof.
  induction ms as [|[k w] ms IH]; cbn; intros Hk; [done|]. apply not_elem_of_cons in Hk as [Hne Hk]. rewrite bool_decide_eq_false_2 by congruence. by rewrite IH.
Qed.

Lemma assoc_get_set_cases key key' v ms : assoc_get key (assoc_set key' v ms) = if bool_decide (key = key') then Some v else assoc_get key ms.
Proof. case_bool_decide as E; [subst; apply assoc_get_set|by apply assoc_get_set_ne]. Qed.

Lemma assoc_get_del key key' ms : NoDup ms.*1 ->
  assoc_get key (assoc_del key' ms) = if bool_decide (key = key') then None else assoc_get key ms.
Proof.
  induction ms as [|[k w] ms IH]; cbn; intros H; [by case_bool_decide|]. apply NoDup_cons in H as [Hk H].
  destruct (decide (k = key')) as [->|Hne].
  - rewrite (bool_decide_eq_true_2 (key' = key')) by done. destruct (decide (key = key')) as [->|Hne']; [rewrite bool_decide_eq_true_2 by done; by apply assoc_get_None|].
    by rewrite !bool_decide_eq_false_2 by congruence.
  - rewrite (bool_decide_eq_false_2 (k = key')) by done. cbn. rewrite IH by done. destruct (decide (key = key')) as [->|Hne'].
    + by rewrite (bool_decide_eq_true_2 (key' = key')), bool_decide_eq_false_2 by done.
    + by rewrite (bool_decide_eq_false_2 (key = key')).
Qed.

(** Folding the members of one object into another. *)
Lemma update_get key os : forall ms, NoDup os.*1 ->
  assoc_get key (fold_left set_member os ms) = match assoc_get key os with Some v => Some v | None => assoc_get key ms end.
Proof.
  induction os as [|[k v] os IH]; intros ms H; [done|]. cbn in *. apply NoDup_cons in H as [Hk H]. rewrite IH by done. unfold set_member. cbn. rewrite assoc_get_set_cases.
  destruct (decide (k = key)) as [->|Hne]; [rewrite !bool_decide_eq_true_2, (proj2 (assoc_get_None key os) Hk) by done; done|].
  by rewrite !bool_decide_eq_false_2 by congruence.
Qed.

Lemma missing_get key os : forall ms, NoDup os.*1 ->
  assoc_get key (fold_left missing_member os ms) = match assoc_get key ms with Some v => Some v | None => assoc_get key os end.
Proof.
  induction os as [|[k v] os IH]; intros ms H; [cbn; by destruct (assoc_get key ms)|]. cbn in *. apply NoDup_cons in H as [Hk H]. rewrite IH by done. unfold missing_member. cbn.
  case_bool_decide as E; subst.
  - destruct (assoc_get key ms) eqn:Eg; [by rewrite Eg|]. by rewrite assoc_get_set.
  - destruct (assoc_get k ms) eqn:Eg; [done|]. by rewrite assoc_get_set_ne.
Qed.

(** [json_object_update] gives the members of [other] precedence, and
    [json_object_update_missing] those of [object]. *)
Theorem updates_merge ms os key : NoDup os.*1 ->
  json_object_get (json_object_update (Some (JObject ms)) (Some (JObject os))) key
    = match assoc_get key os with Some v => Some v | None => assoc_get key ms end
  /\ json_object_get (json_object_update_missing (Some (JObject ms)) (Some (JObject os))) key
    = match assoc_get key ms with Some v => Some v | None => assoc_get key os end.
Proof. intros H. split; [by apply update_get|by apply missing_get]. Qed.

(** ** Equality *)

Lemma json_tree_ind (P : json -> Prop) :
  (forall ms, Forall (fun kv => P kv.2) ms -> P (JObject ms)) -> (forall l, Forall P l -> P (JArray l)) ->
  (forall s, P (JString s)) -> (forall v, P (JInteger v)) -> (forall v, P (JReal v)) -> P JTrue -> P JFalse -> P JNull -> forall j, P j.
Proof.
  intros HO HA HS HI HR HT HF HN. fix IH 1. intros [ms|l|s|v|v| | |]; [apply HO|apply HA|done..].
  - induction ms as [|kv ms IHms]; constructor; [apply IH|exact IHms].
  - induction l as [|v l IHl]; constructor; [apply IH|exact IHl].
Qed.

(** The same value, whatever the order of the members. *)
Inductive same : json -> json -> Prop :=
  | same_object ms1 ms2 : (forall key, option_Forall2 same (assoc_get key ms1) (assoc_get key ms2)) -> same (JObject ms1) (JObject ms2)
  | same_array l1 l2 : Forall2 same l1 l2 -> same (JArray l1) (JArray l2)
  | same_string s : same (JString s) (JString s)
  | same_integer v : same (JInteger v) (JInteger v)
  | same_real v1 v2 : double_equal v1 v2 = true -> same (JReal v1) (JReal v2)
  | same_true : same JTrue JTrue
  | same_false : same JFalse JFalse
  | same_null : same JNull JNull.

Lemma members_equal_spec equal ms2 ms1 :
  members_equal equal ms2 ms1 = true <-> Forall (fun kv => exists v2, assoc_get kv.1 ms2 = Some v2 /\ equal kv.2 v2 = true) ms1.
Proof.
  induction ms1 as [|[k v] ms1 IH]; cbn; [by split; [constructor|]|]. rewrite Forall_cons, <- IH. cbn. destruct (assoc_get k ms2) as [v2|]; [|by split; [|intros [(? & ? & _) _]]].
  destruct (equal v v2) eqn:E; [|split; [done|intros [(v' & [= <-] & E') _]; congruence]]. split; [intros H; split; [by exists v2|done]|by intros []].
Qed.

Lemma elements_equal_spec equal l1 : forall l2, length l1 = length l2 -> elements_equal equal l1 l2 = true <-> Forall2 (fun x y => equal x y = true) l1 l2.
Proof.
  induction l1 as [|v l1 IH]; intros [|v2 l2] Hn; try done. injection Hn as Hn. cbn. specialize (IH l2 Hn).
  destruct (equal v v2) eqn:E; [rewrite IH; split; [by constructor|by inversion 1]|]. split; [done|]. inversion 1; congruence.
Qed.

(** Two objects of the same size, the keys of one among those of the other. *)
Lemma same_keys (ms1 ms2 : list (bytes * json)) : NoDup ms1.*1 -> NoDup ms2.*1 -> zlen ms1 = zlen ms2 ->
  Forall (fun kv => is_Some (assoc_get kv.1 ms2)) ms1 -> forall k, k ∈ ms2.*1 -> k ∈ ms1.*1.
Proof.
  intros H1 H2 Hn Hsub k Hk. assert (ms1.*1 ⊆+ ms2.*1) as Hs.
  { apply NoDup_submseteq; [done|]. intros x Hx. apply list_elem_of_fmap in Hx as ([x' v] & -> & Hin). rewrite Forall_forall in Hsub. destruct (Hsub _ Hin) as [w Hw].
    apply assoc_get_Some in Hw. apply list_elem_of_fmap. by exists (x', w). }
  apply submseteq_length_Permutation in Hs; [by rewrite Hs|]. rewrite !length_fmap. unfold zlen in Hn. lia.
Qed.

Lemma valid_object ms : valid (JObject ms) = true -> NoDup ms.*1 /\ Forall (fun kv => valid kv.2 = true) ms.
Proof.
  cbn. intros [Hn Hf]%andb_true_iff. apply bool_decide_eq_true_1 in Hn. split; [done|]. rewrite forallb_forall in Hf. apply Forall_forall.
  intros kv Hin. by apply Hf, list_elem_of_In.
Qed.

Lemma valid_array l : valid (JArray l) = true -> Forall (fun v => valid v = true) l.
Proof. cbn. rewrite forallb_forall. intros Hf. apply Forall_forall. intros v Hin. by apply Hf, list_elem_of_In. Qed.

Lemma object_equal_same ms1 ms2 : NoDup ms1.*1 -> NoDup ms2.*1 ->
  Forall (fun kv => forall j2, j2 ∈ ms2.*2 -> json_equal kv.2 j2 = true <-> same kv.2 j2) ms1 ->
  json_equal (JObject ms1) (JObject ms2) = true <-> same (JObject ms1) (JObject ms2).
Proof.
  intros H1 H2 IH. cbn [json_equal]. rewrite andb_true_iff, members_equal_spec, Z.eqb_eq. rewrite Forall_forall in IH.
  assert (Hin2 : forall k v, assoc_get k ms2 = Some v -> v ∈ ms2.*2) by (intros k v E; apply assoc_get_Some in E; apply list_elem_of_fmap; by exists (k, v)).
  split.
  - intros [Hn Hall]. constructor. intros key. rewrite Forall_forall in Hall. destruct (assoc_get key ms1) as [v1|] eqn:E1.
    + apply assoc_get_Some in E1. destruct (Hall _ E1) as (v2 & E2 & Heq). cbn in E2, Heq. rewrite E2. constructor. apply (IH _ E1 v2); [by eapply Hin2|done].
    + destruct (assoc_get key ms2) as [v2|] eqn:E2; [|constructor]. exfalso. apply assoc_get_None in E1. apply E1. apply (same_keys ms1 ms2 H1 H2 Hn).
      * apply Forall_forall. intros kv Hkv. destruct (Hall _ Hkv) as (v & -> & _). by eexists.
      * apply assoc_get_Some in E2. apply list_elem_of_fmap. by exists (key, v2).
  - inversion 1 as [? ? Hs| | | | | | |]; subst. split.
    + assert (ms1.*1 ≡ₚ ms2.*1) as Hp.
      { apply NoDup_Permutation; [done..|]. intros k. specialize (Hs k). destruct (assoc_get k ms1) eqn:E1, (assoc_get k ms2) eqn:E2; inversion Hs; subst.
        - apply assoc_get_Some in E1, E2. split; intros _; apply list_elem_of_fmap; by eexists (k, _).
        - apply assoc_get_None in E1, E2. done. }
      apply Permutation_length in Hp. rewrite !length_fmap in Hp. unfold zlen. lia.
    + apply Forall_forall. intros [k v] Hkv. specialize (Hs k). rewrite (assoc_get_In k v ms1 H1 Hkv) in Hs. inversion Hs as [? v2 Hv E1 E2|]; subst.
      exists v2. split; [done|]. apply (IH _ Hkv v2); [by eapply Hin2|done].
Qed.

Lemma json_equal_same j1 : forall j2, valid j1 = true -> valid j2 = true -> json_equal j1 j2 = true <-> same j1 j2.
Proof.
  induction j1 as [ms IH|l IH|s|v|v| | |] using json_tree_ind; intros [ms2|l2|s2|v2|v2| | |] V1 V2;
    try (by split; [|inversion 1]); try (by split; [intros _; constructor|]).
  - apply valid_object in V1 as [N1 V1], V2 as [N2 V2]. apply object_equal_same; [done..|]. apply Forall_forall. intros kv Hkv j2 Hj2.
    rewrite Forall_forall in IH, V1, V2. apply list_elem_of_fmap in Hj2 as (kv2 & -> & Hkv2). apply IH; [done|by apply V1|by apply V2].
  - apply valid_array in V1, V2. cbn [json_equal]. rewrite andb_true_iff, Z.eqb_eq.
    assert (Hiff : length l = length l2 -> Forall2 (fun x y => json_equal x y = true) l l2 <-> Forall2 same l l2).
    { clear -IH V1 V2. revert l2 V2. induction IH as [|v l Hv _ IHl]; intros [|v2 l2] V2 Hn; try done. injection Hn as Hn. apply Forall_cons in V1 as [V1 V1'], V2 as [V2 V2'].
      specialize (Hv v2 V1 V2). specialize (IHl V1' l2 V2' Hn). split; inversion 1; subst; constructor; tauto. }
    split.
    + intros [Hn He]. assert (length l = length l2) as Hl by (unfold zlen in Hn; lia). constructor. apply Hiff; [done|]. by apply elements_equal_spec.
    + inversion 1 as [|? ? Hs| | | | | |]; subst. pose proof (Forall2_length _ _ _ Hs) as Hl. split; [unfold zlen; lia|]. apply elements_equal_spec; [done|]. by apply Hiff.
  - cbn. split; [intros [_ ->%bool_decide_eq_true_1]%andb_true_iff; constructor|]. inversion 1; subst. by rewrite Z.eqb_refl, bool_decide_eq_true_2.
  - cbn. rewrite Z.eqb_eq. split; [intros ->; constructor|by inversion 1].
  - cbn. split; [by constructor|by inversion 1].
Qed.

(** ** The laws of equality *)

Lemma double_equal_refl v : isnan v = false -> double_equal v v = true.
Proof. intros Hv. unfold double_equal. by rewrite Hv, Z.eqb_refl. Qed.

Lemma double_equal_sym a b : double_equal a b = true -> double_equal b a = true.
Proof. unfold double_equal. rewrite (Z.eqb_sym b a). destruct (isnan a), (isnan b); try done. cbn. by rewrite (andb_comm (Z.land b _ =? 0)). Qed.

Lemma double_equal_trans a b c : double_equal a b = true -> double_equal b c = true -> double_equal a c = true.
Proof.
  unfold double_equal. destruct (isnan a), (isnan b), (isnan c); try done. cbn [negb andb]. intros [H1|H1]%orb_true_iff [H2|H2]%orb_true_iff;
    rewrite ?Z.eqb_eq in *; subst; try (rewrite Z.eqb_refl; done); rewrite ?H1, ?H2, ?orb_true_r; try done.
  apply andb_true_iff in H1 as [H1 _], H2 as [_ H2]. by rewrite H1, H2, orb_true_r.
Qed.

Lemma json_same_refl j : valid j = true -> same j j.
Proof.
  induction j as [ms IH|l IH|s|v|v| | |] using json_tree_ind; intros V; try constructor.
  - apply valid_object in V as [_ V]. intros key. destruct (assoc_get key ms) as [w|] eqn:E; [|constructor]. constructor. apply assoc_get_Some in E.
    rewrite Forall_forall in IH, V. by apply (IH (key, w)), (V (key, w)).
  - apply valid_array in V. induction IH as [|v l Hv _ IHl]; constructor; apply Forall_cons in V as [V1 V2]; auto.
  - cbn in V. apply negb_true_iff, orb_false_iff in V as [V _]. by apply double_equal_refl.
Qed.

Lemma json_same_sym j1 : forall j2, same j1 j2 -> same j2 j1.
Proof.
  induction j1 as [ms IH|l IH|s|v|v| | |] using json_tree_ind; inversion 1 as [? ms2 Hs|? l2 Hs|?|?|? v2 Hv| | |]; subst; constructor.
  - intros key. specialize (Hs key). destruct (assoc_get key ms) as [w|] eqn:E; inversion Hs; subst; constructor. apply assoc_get_Some in E.
    rewrite Forall_forall in IH. by apply (IH (key, w)).
  - induction Hs as [|v v2 l l2 Hv Hs IHs]; constructor; apply Forall_cons in IH as [IH1 IH2]; auto. apply IHs; [done|]. by constructor.
  - by apply double_equal_sym.
Qed.

Lemma json_same_trans j1 : forall j2 j3, same j1 j2 -> same j2 j3 -> same j1 j3.
Proof.
  induction j1 as [ms IH|l IH|s|v|v| | |] using json_tree_ind; intros j2 j3; inversion 1 as [? ms2 Hs|? l2 Hs|?|?|? v2 Hv| | |]; subst;
    inversion 1 as [? ms3 Ht|? l3 Ht|?|?|? v3 Hw| | |]; subst; constructor.
  - intros key. specialize (Hs key). specialize (Ht key). destruct (assoc_get key ms) as [w|] eqn:E, (assoc_get key ms2) as [w2|]; inversion Hs; subst;
      destruct (assoc_get key ms3) as [w3|]; inversion Ht; subst; constructor.
    apply assoc_get_Some in E. rewrite Forall_forall in IH. by apply (IH (key, w) E w2).
  - clear -IH Hs Ht. revert l3 Ht. induction Hs as [|v v2 l l2 Hv Hs IHs]; intros l3 Ht; inversion Ht; subst; constructor; apply Forall_cons in IH as [IH1 IH2]; [by eapply IH1|].
    by apply IHs.
  - by eapply double_equal_trans.
Qed.

(** C13: although [json_equal] looks at the size of two objects and then only for
    the keys of the first one in the second, it holds exactly of values that
    have the same members with the same values, in any order, at every depth;
    so it does not depend on the order of its arguments, and it is transitive. *)
Theorem json_equal_correct j1 j2 j3 : valid j1 = true -> valid j2 = true -> valid j3 = true ->
  (json_equal j1 j2 = true <-> same j1 j2) /\ json_equal j1 j1 = true /\ json_equal j1 j2 = json_equal j2 j1
  /\ (json_equal j1 j2 = true -> json_equal j2 j3 = true -> json_equal j1 j3 = true).
Proof.
  intros V1 V2 V3. pose proof (json_equal_same j1 j2 V1 V2) as H12. pose proof (json_equal_same j2 j1 V2 V1) as H21. split; [done|].
  split; [by apply json_equal_same, json_same_refl|]. split.
  - apply eq_iff_eq_true. rewrite H12, H21. split; apply json_same_sym.
  - rewrite H12, (json_equal_same j2 j3 V2 V3), (json_equal_same j1 j3 V1 V3). apply json_same_trans.
Qed.

(** Two objects with their members in another order, and zeros of both signs. *)
Definition left_value : json := JObject [([97], JArray [JInteger 1; JReal 0]); ([98], JObject [([99], JNull); ([100], JString [120])])].
Definition right_value : json := JObject [([98], JObject [([100], JString [120]); ([99], JNull)]); ([97], JArray [JInteger 1; JReal (2 ^ 63)])].

Lemma json_equal_correct_witness :
  json_equal left_value right_value = true /\ (json_equal left_value right_value = true <-> same left_value right_value)
  /\ json_equal left_value left_value = true /\ json_equal left_value right_value = json_equal right_value left_value
  /\ (json_equal left_value right_value = true -> json_equal right_value left_value = true -> json_equal left_value left_value = true).
Proof. split; [by vm_compute|]. apply (json_equal_correct left_value right_value left_value); by vm_compute. Defined.

(** ** Copies *)

Lemma set_members_all os : forall ms, NoDup (ms ++ os).*1 -> fold_left set_member os ms = ms ++ os.
Proof.
  induction os as [|[k v] os IH]; intros ms H; [by rewrite app_nil_r|]. cbn. unfold set_member at 2. cbn. rewrite assoc_set_end.
  - rewrite IH; by rewrite <- app_assoc.
  - rewrite fmap_app in H. apply NoDup_app in H as (_ & H & _). intros Hk. apply (H k Hk). cbn. left.
Qed.

Lemma copy_members_all copy ms : Forall (fun kv => copy kv.2 = Some kv.2) ms -> forall acc, NoDup (acc ++ ms).*1 -> copy_members copy ms acc = Some (acc ++ ms).
Proof.
  induction 1 as [|[k v] ms Hv _ IH]; intros acc H; [by rewrite app_nil_r|]. cbn in Hv |- *. rewrite Hv. cbn [mbind option_bind]. rewrite assoc_set_end.
  - rewrite IH; by rewrite <- app_assoc.
  - rewrite fmap_app in H. apply NoDup_app in H as (_ & H & _). intros Hk. apply (H k Hk). cbn. left.
Qed.

Lemma copy_elements_all copy l : Forall (fun v => copy v = Some v) l -> forall acc, copy_elements copy l acc = Some (acc ++ l).
Proof.
  induction 1 as [|v l Hv _ IH]; intros acc; [by rewrite app_nil_r|]. cbn. rewrite Hv. cbn [mbind option_bind]. rewrite IH. by rewrite <- app_assoc.
Qed.

Lemma append_all {A} (l : list A) : forall acc, fold_left (fun r v => r ++ [v]) l acc = acc ++ l.
Proof. induction l as [|v l IH]; intros acc; [by rewrite app_nil_r|]. cbn. rewrite IH. by rewrite <- app_assoc. Qed.

(** A copy, deep or not, of a value is the value, with its members in the same
    order. *)
Theorem copies_equal j : valid j = true -> do_deep_copy j = Some j /\ json_copy j = Some j.
Proof.
  intros V. split.
  - induction j as [ms IH|l IH|s|v|v| | |] using json_tree_ind; try done.
    + apply valid_object in V as [N V]. cbn [do_deep_copy]. rewrite (copy_members_all _ ms); [done| |done]. apply Forall_forall. intros kv Hkv.
      rewrite Forall_forall in IH, V. by apply IH, V.
    + apply valid_array in V. cbn [do_deep_copy]. rewrite (copy_elements_all _ l); [done|]. apply Forall_forall. intros v Hv. rewrite Forall_forall in IH, V. by apply IH, V.
    + cbn in V |- *. unfold json_real. apply negb_true_iff in V. by rewrite V.
  - destruct j as [ms|l|s|v|v| | |]; try done.
    + apply valid_object in V as [N _]. cbn. unfold json_object_copy. by rewrite set_members_all.
    + cbn. by rewrite append_all.
    + cbn in V |- *. unfold json_real. apply negb_true_iff in V. by rewrite V.
Qed.

(** ** The recursive update *)

(** What becomes of the member [w] that meets the member [v] of the other object. *)
Definition merged (w v : json) : json := if is_object w && is_object v then do_object_update_recursive w v else v.

Theorem update_recursive_merges ms os key : NoDup os.*1 ->
  json_object_get (json_object_update_recursive (Some (JObject ms)) (Some (JObject os))) key
  = match assoc_get key ms, assoc_get key os with
    | Some w, Some v => Some (merged w v)
    | r, None => r
    | None, r => r
    end.
Proof.
  intros H. cbn [json_object_update_recursive do_object_update_recursive json_object_get]. revert ms H.
  induction os as [|[k v] os IH]; intros ms H; [cbn; by destruct (assoc_get key ms)|]. cbn [fmap list_fmap] in H. apply NoDup_cons in H as [Hk H].
  cbn [fold_left fst snd]. rewrite IH by done. cbn [assoc_get].
  assert (Hget : assoc_get key (match assoc_get k ms with
      | Some v0 => if is_object v0 && is_object v then assoc_set k (do_object_update_recursive v0 v) ms else assoc_set k v ms
      | None => assoc_set k v ms end) = if bool_decide (key = k) then Some (match assoc_get k ms with Some w => merged w v | None => v end) else assoc_get key ms).
  { unfold merged. destruct (assoc_get k ms) as [w|]; [destruct (is_object w && is_object v)|]; apply assoc_get_set_cases. }
  rewrite Hget. destruct (decide (k = key)) as [->|Hne].
  - rewrite !bool_decide_eq_true_2, (proj2 (assoc_get_None key os) Hk) by done. by destruct (assoc_get key ms).
  - by rewrite !bool_decide_eq_false_2 by congruence.
Qed.
