(* ===== verification/StrBuffer.v ===== *)
(** * The growing text buffer of jansson (components/json/jansson/src/strbuffer.c)

    A buffer owns [sb_size] bytes of memory and holds a text of [sb_length]
    bytes with a NUL behind it.  A write outside the memory is [None]; the
    result -1 of a function is an inner [None].  The allocations succeed, and
    new memory holds [junk]. *)

From S2P Require Import Prelude.

Record strbuffer := StrBuf { sb_value : bytes; sb_length : Z; sb_size : Z }.

Definition STRBUFFER_MIN_SIZE : Z := 16.
Definition STRBUFFER_FACTOR : Z := 2.
Definition STRBUFFER_SIZE_MAX : Z := 2 ^ 32 - 1.

Section memory.
Context (junk : Z -> Z).

Definition strbuffer_init : option strbuffer :=
  v ← store (cells junk 0 STRBUFFER_MIN_SIZE) 0 [0]; Some (StrBuf v 0 STRBUFFER_MIN_SIZE).

Definition strbuffer_clear (b : strbuffer) : option strbuffer := v ← store (sb_value b) 0 [0]; Some (StrBuf v 0 (sb_size b)).

(** The memory is replaced by more of it. *)
Definition strbuffer_grow (b : strbuffer) (n : Z) : option (option strbuffer) :=
  if (STRBUFFER_SIZE_MAX / STRBUFFER_FACTOR <? sb_size b) || (STRBUFFER_SIZE_MAX - 1 <? n)
     || (STRBUFFER_SIZE_MAX - 1 - n <? sb_length b) then Some None
  else
    let new_size := Z.max (u32 (sb_size b * STRBUFFER_FACTOR)) (u32 (sb_length b + n + 1)) in
    v ← store (cells junk 0 new_size) 0 (take (Z.to_nat (sb_length b)) (sb_value b));
    Some (Some (StrBuf v (sb_length b) new_size)).

Definition strbuffer_append_bytes (b : strbuffer) (data : bytes) : option (option strbuffer) :=
  r ← (if u32 (sb_size b - sb_length b) <=? zlen data then strbuffer_grow b (zlen data) else Some (Some b));
  match r with
  | None => Some None
  | Some b =>
      v ← store (sb_value b) (sb_length b) data;
      v ← store v (sb_length b + zlen data) [0];
      Some (Some (StrBuf v (sb_length b + zlen data) (sb_size b)))
  end.

Definition strbuffer_append_byte (b : strbuffer) (c : Z) : option (option strbuffer) := strbuffer_append_bytes b [c].

Definition strbuffer_pop (b : strbuffer) : option (Z * strbuffer) :=
  if 0 <? sb_length b then
    v ← store (sb_value b) (sb_length b - 1) [0];
    Some (bget (sb_value b) (sb_length b - 1), StrBuf v (sb_length b - 1) (sb_size b))
  else Some (0, b).

End memory.

(** ** The text a buffer holds *)

Definition holds (b : strbuffer) (t : bytes) : Prop :=
  zlen (sb_value b) = sb_size b /\ sb_length b = zlen t /\ zlen t < sb_size b < 2 ^ 32
  /\ take (Z.to_nat (zlen t)) (sb_value b) = t /\ bget (sb_value b) (zlen t) = 0.

Lemma store_in buf off cs : 0 <= off -> off + zlen cs <= zlen buf -> store buf off cs = Some (memcpy buf off cs).
Proof. intros H0 H1. unfold store. by rewrite !(proj2 (Z.leb_le _ _)) by lia. Qed.

(** A text and its NUL, written. *)
Lemma put_holds v len data size :
  zlen v = size -> 0 <= len -> len + zlen data + 1 <= size -> size < 2 ^ 32 ->
  exists v', (v1 ← store v len data; store v1 (len + zlen data) [0]) = Some v'
    /\ holds (StrBuf v' (len + zlen data) size) (take (Z.to_nat len) v ++ data).
Proof.
  intros Hv Hl Hfit Hs. pose proof (zlen_nonneg data). rewrite store_in by lia. simpl.
  rewrite store_in by (rewrite ?zlen_memcpy; zl; change (@zlen Z []) with 0; lia).
  eexists. split; [done|]. unfold holds. cbn [sb_value sb_length sb_size].
  assert (Hw : zlen (take (Z.to_nat len) v ++ data) = len + zlen data) by (rewrite zlen_app, zlen_take by lia; lia).
  assert (Hm : zlen (memcpy v len data) = size) by (rewrite zlen_memcpy; lia).
  assert (zlen [0] = 1) as H1 by done. rewrite Hw. split_and!; try lia.
  - rewrite zlen_memcpy; lia.
  - unfold memcpy at 1. rewrite take_app_length' by (rewrite length_take; unfold zlen in *; lia). by rewrite take_memcpy by lia.
  - rewrite bget_memcpy by lia. rewrite H1, Z.leb_refl, (proj2 (Z.ltb_lt _ _)) by lia. cbn [andb]. by rewrite Z.sub_diag.
Qed.

Lemma strbuffer_append_holds junk b t data :
  holds b t -> zlen t + zlen data < 2 ^ 31 - 1 ->
  exists b', strbuffer_append_bytes junk b data = Some (Some b') /\ holds b' (t ++ data).
Proof.
  intros (Hv & Hl & Hs & Ht & _) Hn. pose proof (zlen_nonneg t). pose proof (zlen_nonneg data). unfold strbuffer_append_bytes.
  assert (Hput : forall b1, zlen (sb_value b1) = sb_size b1 -> sb_length b1 = zlen t -> take (Z.to_nat (zlen t)) (sb_value b1) = t ->
    zlen t + zlen data + 1 <= sb_size b1 -> sb_size b1 < 2 ^ 32 ->
    exists b', (v ← store (sb_value b1) (sb_length b1) data; v ← store v (sb_length b1 + zlen data) [0];
      Some (Some (StrBuf v (sb_length b1 + zlen data) (sb_size b1)))) = Some (Some b') /\ holds b' (t ++ data)).
  { intros b1 Hv1 Hl1 Ht1 Hf1 Hs1. rewrite Hl1.
    destruct (put_holds (sb_value b1) (zlen t) data (sb_size b1) Hv1 ltac:(lia) Hf1 Hs1) as (v' & E & Hh). rewrite Ht1 in Hh.
    destruct (store (sb_value b1) (zlen t) data) as [v1|]; simpl in *; [|done]. rewrite E. simpl. eauto. }
  rewrite Hl in *. rewrite u32_small by lia. destruct (Z.leb_spec (sb_size b - zlen t) (zlen data)) as [Hgrow|Hroom].
  2:{ simpl. apply Hput; try done; lia. }
  unfold strbuffer_grow, STRBUFFER_SIZE_MAX, STRBUFFER_FACTOR. rewrite Hl. change ((2 ^ 32 - 1) / 2) with (2 ^ 31 - 1).
  rewrite !(proj2 (Z.ltb_ge _ _)) by lia. cbn [orb]. rewrite !u32_small by lia.
  set (n := Z.max _ _). assert (zlen t + zlen data + 1 <= n < 2 ^ 32) by lia.
  rewrite store_in by (rewrite ?Ht, ?zlen_cells; lia). simpl.
  apply (Hput (StrBuf (memcpy (cells junk 0 n) 0 (take (Z.to_nat (zlen t)) (sb_value b))) (zlen t) n)); cbn [sb_value sb_length sb_size]; try done; try lia.
  - rewrite zlen_memcpy; rewrite ?zlen_cells, ?Ht; lia.
  - rewrite Ht. apply take_memcpy_0.
Qed.

(** The writes of the printer, one after the other. *)
Fixpoint append_all (junk : Z -> Z) (b : strbuffer) (ds : list bytes) : option (option strbuffer) :=
  match ds with
  | [] => Some (Some b)
  | d :: ds => r ← strbuffer_append_bytes junk b d; match r with None => Some None | Some b => append_all junk b ds end
  end.

Lemma strbuffer_init_holds junk : exists b, strbuffer_init junk = Some b /\ holds b [].
Proof.
  unfold strbuffer_init. rewrite store_in by (rewrite ?zlen_cells; unfold STRBUFFER_MIN_SIZE; zl; change (@zlen Z []) with 0; lia). simpl.
  eexists. split; [done|]. unfold holds, STRBUFFER_MIN_SIZE. cbn [sb_value sb_length sb_size]. split_and!; try done.
Qed.

(** The buffer holds the concatenation of what was appended, whatever the
    memory held before, as long as it stays below 2 GB. *)
Theorem strbuffer_collects junk ds :
  zlen (mjoin ds) < 2 ^ 31 - 1 ->
  exists b0 b, strbuffer_init junk = Some b0 /\ append_all junk b0 ds = Some (Some b) /\ holds b (mjoin ds).
Proof.
  intros Hn. destruct (strbuffer_init_holds junk) as (b0 & E0 & H0). exists b0.
  assert (Hall : forall ds b t, holds b t -> zlen (t ++ mjoin ds) < 2 ^ 31 - 1 ->
    exists b', append_all junk b ds = Some (Some b') /\ holds b' (t ++ mjoin ds)).
  { clear. intros ds. induction ds as [|d ds IH]; intros b t Hb Hn; simpl.
    - exists b. by rewrite app_nil_r.
    - simpl in Hn. rewrite !zlen_app in Hn. destruct (strbuffer_append_holds junk b t d Hb) as (b1 & -> & H1);
        [pose proof (zlen_nonneg (mjoin ds)); lia|]. simpl.
      destruct (IH b1 (t ++ d) H1) as (b' & E & Hb'); [rewrite !zlen_app; lia|]. exists b'. by rewrite app_assoc. }
  destruct (Hall ds b0 [] H0 Hn) as (b & E & Hb). by exists b.
Qed.
