(* ===== verification/JsonLoad.v ===== *)
(** * The JSON parser (components/json/jansson/src/load.c, utf.c)

    The stream with its one character of look-back, the lexical analyser and
    the recursive-descent parser behind [json_loads] and [json_loadb].  [char]
    is unsigned, as on the processor of the SDK.  A loop that never ends (the
    assertions were replaced by [while(1)]), a read or write outside a buffer
    and the end of the fuel are [None]; the value [NULL] is an inner [None].
    Whether an allocation succeeds is the class [Allocator]; only the growth of
    [saved_text], whose failure [lex_save] does not notice, is taken to succeed.
    [saved_text] is the contents of its [strbuffer]; of an error the code and the
    place are kept, not the rendered text.
    [strtod] is a parameter: the bits of the value it finds, or nothing for an
    overflow, and the number of bytes it consumes. *)

From S2P Require Import Prelude Jansson.

(** ** Data *)

Definition EOF : Z := -1.
Definition STREAM_STATE_OK : Z := 0.
Definition STREAM_STATE_EOF : Z := -1.
Definition STREAM_STATE_ERROR : Z := -2.

Definition TOKEN_INVALID : Z := -1.
Definition TOKEN_EOF : Z := 0.
Definition TOKEN_STRING : Z := 256.
Definition TOKEN_INTEGER : Z := 257.
Definition TOKEN_REAL : Z := 258.
Definition TOKEN_TRUE : Z := 259.
Definition TOKEN_FALSE : Z := 260.
Definition TOKEN_NULL : Z := 261.

Definition JSON_REJECT_DUPLICATES : Z := 1.
Definition JSON_DISABLE_EOF_CHECK : Z := 2.
Definition JSON_DECODE_ANY : Z := 4.
Definition JSON_DECODE_INT_AS_REAL : Z := 8.
Definition JSON_ALLOW_NUL : Z := 16.

Definition flag (flags f : Z) : bool := negb (Z.land flags f =? 0).

Definition JSON_PARSER_MAX_DEPTH : Z := 2048.

Inductive json_error_code :=
  | json_error_stack_overflow | json_error_invalid_argument | json_error_invalid_utf8
  | json_error_premature_end_of_input | json_error_end_of_input_expected | json_error_invalid_syntax
  | json_error_null_character | json_error_null_byte_in_key | json_error_duplicate_key | json_error_numeric_overflow.

#[global] Instance json_error_code_eq : EqDecision json_error_code.
Proof. solve_decision. Defined.

Record json_error := JsonError { e_line : Z; e_column : Z; e_position : Z; e_code : json_error_code }.

(** [s_data] is the input not yet fetched; [s_string] tells [string_get] from
    [buffer_get]. *)
Record stream := Stream {
  s_string : bool;
  s_data : bytes;
  s_buffer : bytes;
  s_pos : Z;
  s_state : Z;
  s_line : Z;
  s_column : Z;
  s_last_column : Z;
  s_position : Z
}.

Record lex := Lex {
  l_stream : stream;
  l_saved : bytes;
  l_flags : Z;
  l_depth : Z;
  l_token : Z;
  l_string : option bytes;
  l_integer : Z;
  l_real : Z;
  l_error : option json_error
}.

Definition with_stream (l : lex) (s : stream) : lex :=
  Lex s (l_saved l) (l_flags l) (l_depth l) (l_token l) (l_string l) (l_integer l) (l_real l) (l_error l).
Definition with_saved (l : lex) (t : bytes) : lex :=
  Lex (l_stream l) t (l_flags l) (l_depth l) (l_token l) (l_string l) (l_integer l) (l_real l) (l_error l).
Definition with_depth (l : lex) (d : Z) : lex :=
  Lex (l_stream l) (l_saved l) (l_flags l) d (l_token l) (l_string l) (l_integer l) (l_real l) (l_error l).
Definition with_token (l : lex) (t : Z) : lex :=
  Lex (l_stream l) (l_saved l) (l_flags l) (l_depth l) t (l_string l) (l_integer l) (l_real l) (l_error l).
Definition with_string (l : lex) (v : option bytes) : lex :=
  Lex (l_stream l) (l_saved l) (l_flags l) (l_depth l) (l_token l) v (l_integer l) (l_real l) (l_error l).
Definition with_integer (l : lex) (v : Z) : lex :=
  Lex (l_stream l) (l_saved l) (l_flags l) (l_depth l) (l_token l) (l_string l) v (l_real l) (l_error l).
Definition with_real (l : lex) (v : Z) : lex :=
  Lex (l_stream l) (l_saved l) (l_flags l) (l_depth l) (l_token l) (l_string l) (l_integer l) v (l_error l).
Definition with_error (l : lex) (e : option json_error) : lex :=
  Lex (l_stream l) (l_saved l) (l_flags l) (l_depth l) (l_token l) (l_string l) (l_integer l) (l_real l) e.

Definition with_state (s : stream) (st : Z) : stream :=
  Stream (s_string s) (s_data s) (s_buffer s) (s_pos s) st (s_line s) (s_column s) (s_last_column s) (s_position s).
Definition with_input (s : stream) (data buffer : bytes) (pos : Z) : stream :=
  Stream (s_string s) data buffer pos (s_state s) (s_line s) (s_column s) (s_last_column s) (s_position s).
Definition with_place (s : stream) (pos line column last_column position : Z) : stream :=
  Stream (s_string s) (s_data s) (s_buffer s) pos (s_state s) line column last_column position.

Definition error_set (l : lex) (code : json_error_code) : lex :=
  match l_error l with
  | Some _ => l
  | None =>
      let code := if (bget (l_saved l) 0 =? 0) && bool_decide (code = json_error_invalid_syntax)
                  then json_error_premature_end_of_input else code in
      let s := l_stream l in
      with_error l (Some (JsonError (s_line s) (s_column s) (s_position s) code))
  end.

(** The requests for memory: the buffer of [saved_text], the text of a string, a
    value, an entry of an object and a place in an array.  In one run no two
    requests of a kind come at the same position of the stream, so the answers
    of any allocator are a function of the kind and the position. *)
Inductive request := ReqBuffer | ReqText | ReqString | ReqInteger | ReqReal | ReqObject | ReqArray | ReqMember | ReqElement.

Class Allocator := room : request -> Z -> bool.

Definition lex_room `{Allocator} (k : request) (l : lex) : bool := room k (s_position (l_stream l)).

(** ** The stream *)

(** [stream->get(stream->data)]. *)
Definition stream_fetch (s : stream) : Z * bytes :=
  match s_data s with
  | [] => (EOF, [])
  | c :: d => if s_string s && (c =? 0) then (EOF, s_data s) else (c, d)
  end.

(** The continuation bytes of a sequence; [EOF] is stored as the byte 255. *)
Fixpoint fetch_more (n : nat) (s : stream) : bytes * stream :=
  match n with
  | O => ([], s)
  | S n =>
      let '(c, d) := stream_fetch s in
      let '(cs, s') := fetch_more n (with_input s d (s_buffer s) (s_pos s)) in
      (u8 c :: cs, s')
  end.

Inductive fetched := Fetched (s : stream) | AtEof (s : stream) | BadByte (s : stream).

Definition refill (s : stream) : option fetched :=
  let '(c, d) := stream_fetch s in
  if c =? EOF then Some (AtEof (with_state s STREAM_STATE_EOF)) else
  let s := with_input s d [c] 0 in
  if (128 <=? c) && (c <=? 255) then
    let count := utf8_check_first c in
    if count =? 0 then Some (BadByte (with_state s STREAM_STATE_ERROR))
    else if count <? 2 then None
    else
      let '(cs, s) := fetch_more (Z.to_nat (count - 1)) s in
      let s := with_input s (s_data s) (c :: cs) 0 in
      if utf8_check_full (c :: cs) then Some (Fetched s) else Some (BadByte (with_state s STREAM_STATE_ERROR))
  else Some (Fetched s).

(** The character at the place of the stream, which moves on. *)
Definition stream_next (s : stream) : Z * stream :=
  let c := bget (s_buffer s) (s_pos s) in
  (c, if c =? 10 then with_place s (s_pos s + 1) (s_line s + 1) 0 (s_column s) (s_position s + 1)
      else with_place s (s_pos s + 1) (s_line s) (if utf8_check_first c =? 0 then s_column s else s_column s + 1)
             (s_last_column s) (s_position s + 1)).

Definition stream_get (l : lex) : option (Z * lex) :=
  let s := l_stream l in
  if negb (s_state s =? STREAM_STATE_OK) then Some (s_state s, l) else
  r ← (if bget (s_buffer s) (s_pos s) =? 0 then refill s else Some (Fetched s));
  match r with
  | AtEof s => Some (STREAM_STATE_EOF, with_stream l s)
  | BadByte s => Some (STREAM_STATE_ERROR, error_set (with_stream l s) json_error_invalid_utf8)
  | Fetched s => let '(c, s) := stream_next s in Some (c, with_stream l s)
  end.

Definition at_end (c : Z) : bool := (c =? STREAM_STATE_EOF) || (c =? STREAM_STATE_ERROR).

Definition stream_unget (s : stream) (c : Z) : option stream :=
  if at_end c then Some s else
  if negb (0 <? s_pos s) then None else
  if negb (bget (s_buffer s) (s_pos s - 1) =? c) then None else
  Some (if c =? 10 then with_place s (s_pos s - 1) (s_line s - 1) (s_last_column s) (s_last_column s) (s_position s - 1)
        else with_place s (s_pos s - 1) (s_line s) (if utf8_check_first c =? 0 then s_column s else s_column s - 1)
               (s_last_column s) (s_position s - 1)).

Definition lex_get (l : lex) : option (Z * lex) := stream_get l.
Definition lex_save (l : lex) (c : Z) : lex := with_saved l (l_saved l ++ [c]).

Definition lex_get_save (l : lex) : option (Z * lex) :=
  '(c, l) ← stream_get l;
  Some (c, if at_end c then l else lex_save l c).

Definition lex_unget (l : lex) (c : Z) : option lex := s ← stream_unget (l_stream l) c; Some (with_stream l s).

(** [strbuffer_pop(&lex->saved_text)]. *)
Definition saved_pop (t : bytes) : bytes := take (length t - 1) t.

Definition lex_unget_unsave (l : lex) (c : Z) : option lex :=
  if at_end c then Some l else
  s ← stream_unget (l_stream l) c;
  Some (with_saved (with_stream l s) (saved_pop (l_saved l))).

(** The loop of [lex_save_cached]. *)
Fixpoint save_cached (fuel : nat) (l : lex) : option lex :=
  let s := l_stream l in
  let c := bget (s_buffer s) (s_pos s) in
  if c =? 0 then Some l else
  match fuel with
  | O => None
  | S fuel =>
      save_cached fuel (with_stream (lex_save l c)
        (with_place s (s_pos s + 1) (s_line s) (s_column s) (s_last_column s) (s_position s + 1)))
  end.

Definition lex_save_cached (l : lex) : option lex := save_cached 5 l.

Definition lex_free_string (l : lex) : lex := with_string l None.

(** ** Character classes *)

Definition l_isupper (c : Z) : bool := (65 <=? c) && (c <=? 90).
Definition l_islower (c : Z) : bool := (97 <=? c) && (c <=? 122).
Definition l_isalpha (c : Z) : bool := l_isupper c || l_islower c.
Definition l_isdigit (c : Z) : bool := (48 <=? c) && (c <=? 57).
Definition l_isxdigit (c : Z) : bool := l_isdigit c || ((65 <=? c) && (c <=? 70)) || ((97 <=? c) && (c <=? 102)).

(** ** Strings *)

Definition hex_digit (c : Z) : option Z :=
  if l_isdigit c then Some (c - 48) else if l_islower c then Some (c - 97 + 10) else if l_isupper c then Some (c - 65 + 10) else None.

Fixpoint hex_value (n : nat) (value : Z) (str : bytes) : Z :=
  match n with
  | O => value
  | S n => match hex_digit (bget str 0) with
           | Some d => hex_value n (Z.shiftl value 4 + d) (drop 1 str)
           | None => -1
           end
  end.

Definition decode_unicode_escape (str : bytes) : option Z :=
  if negb (bget str 0 =? 117) then None else Some (hex_value 4 0 (drop 1 str)).

Definition utf8_encode (codepoint : Z) : option bytes :=
  if codepoint <? 0 then None
  else if codepoint <? 0x80 then Some [codepoint]
  else if codepoint <? 0x800 then
    Some [0xC0 + Z.shiftr (Z.land codepoint 0x7C0) 6; 0x80 + Z.land codepoint 0x3F]
  else if codepoint <? 0x10000 then
    Some [0xE0 + Z.shiftr (Z.land codepoint 0xF000) 12; 0x80 + Z.shiftr (Z.land codepoint 0xFC0) 6; 0x80 + Z.land codepoint 0x3F]
  else if codepoint <=? 0x10FFFF then
    Some [0xF0 + Z.shiftr (Z.land codepoint 0x1C0000) 18; 0x80 + Z.shiftr (Z.land codepoint 0x3F000) 12;
          0x80 + Z.shiftr (Z.land codepoint 0xFC0) 6; 0x80 + Z.land codepoint 0x3F]
  else None.

Fixpoint scan_hex (n : nat) (c : Z) (l : lex) : option (bool * Z * lex) :=
  match n with
  | O => Some (true, c, l)
  | S n =>
      if negb (l_isxdigit c) then Some (false, c, error_set l json_error_invalid_syntax)
      else '(c, l) ← lex_get_save l; scan_hex n c l
  end.

Definition is_escape (c : Z) : bool :=
  (c =? 34) || (c =? 92) || (c =? 47) || (c =? 98) || (c =? 102) || (c =? 110) || (c =? 114) || (c =? 116).

(** The first pass of [lex_scan_string], up to the closing quote. *)
Fixpoint scan_string (fuel : nat) (c : Z) (l : lex) : option (bool * lex) :=
  match fuel with
  | O => None
  | S fuel =>
      if c =? 34 then Some (true, l)
      else if c =? STREAM_STATE_ERROR then Some (false, l)
      else if c =? STREAM_STATE_EOF then Some (false, error_set l json_error_premature_end_of_input)
      else if (0 <=? c) && (c <=? 31) then
        l ← lex_unget_unsave l c; Some (false, error_set l json_error_invalid_syntax)
      else if c =? 92 then
        '(c, l) ← lex_get_save l;
        if c =? 117 then
          '(c, l) ← lex_get_save l;
          '(ok, c, l) ← scan_hex 4 c l;
          if ok : bool then scan_string fuel c l else Some (false, l)
        else if is_escape c then '(c, l) ← lex_get_save l; scan_string fuel c l
        else Some (false, error_set l json_error_invalid_syntax)
      else '(c, l) ← lex_get_save l; scan_string fuel c l
  end.

(** A write of the second pass to its buffer of [size] bytes. *)
Definition put (size : Z) (t bs : bytes) : option bytes := if zlen t + zlen bs <=? size then Some (t ++ bs) else None.

Definition simple_escape (c : Z) : option Z :=
  if (c =? 34) || (c =? 92) || (c =? 47) then Some c
  else if c =? 98 then Some 8 else if c =? 102 then Some 12 else if c =? 110 then Some 10
  else if c =? 114 then Some 13 else if c =? 116 then Some 9 else None.

(** A [\u] escape at [p]: the code point and the rest, or an error. *)
Definition unicode_escape (p : bytes) : option (option (Z * bytes)) :=
  value ← decode_unicode_escape p;
  if value <? 0 then Some None else
  let p := drop 5 p in
  if (0xD800 <=? value) && (value <=? 0xDBFF) then
    if (bget p 0 =? 92) && (bget p 1 =? 117) then
      let p := drop 1 p in
      value2 ← decode_unicode_escape p;
      if value2 <? 0 then Some None else
      let p := drop 5 p in
      if (0xDC00 <=? value2) && (value2 <=? 0xDFFF) then
        Some (Some (Z.shiftl (value - 0xD800) 10 + (value2 - 0xDC00) + 0x10000, p))
      else Some None
    else Some None
  else if (0xDC00 <=? value) && (value <=? 0xDFFF) then Some None
  else Some (Some (value, p)).

(** The second pass: [p] is what is left of the saved text, [t] what is
    written. *)
Fixpoint decode_string (fuel : nat) (size : Z) (p t : bytes) : option (option bytes) :=
  match fuel with
  | O => None
  | S fuel =>
      match p with
      | [] => None
      | c :: q =>
          if c =? 34 then _ ← put size t [0]; Some (Some t)
          else if c =? 92 then
            if bget q 0 =? 117 then
              r ← unicode_escape q;
              match r with
              | None => Some None
              | Some (value, p) => bs ← utf8_encode value; t ← put size t bs; decode_string fuel size p t
              end
            else e ← simple_escape (bget q 0); t ← put size t [e]; decode_string fuel size (drop 1 q) t
          else t ← put size t [c]; decode_string fuel size q t
      end
  end.

(** How much there is still to read. *)
Definition unread (s : stream) : nat := length (s_data s) + length (s_buffer s) - Z.to_nat (s_pos s).

Definition lex_scan_string `{Allocator} (l : lex) : option lex :=
  let l := with_token (with_string l None) TOKEN_INVALID in
  '(c, l) ← lex_get_save l;
  '(ok, l) ← scan_string (S (S (unread (l_stream l)))) c l;
  if negb ok then Some (lex_free_string l) else
  if negb (lex_room ReqText l) then Some (lex_free_string l) else
  let size := zlen (l_saved l) + 1 in
  r ← decode_string (S (length (l_saved l))) size (drop 1 (l_saved l)) [];
  match r with
  | None => Some (lex_free_string (error_set l json_error_invalid_syntax))
  | Some t => Some (with_token (with_string l (Some t)) TOKEN_STRING)
  end.

(** ** Numbers *)

(** [strtol], base 10, of a 32-bit [long]: the value and the bytes consumed. *)
Fixpoint digits_value (acc : Z) (s : bytes) : Z * Z :=
  match s with
  | c :: s => if l_isdigit c then let '(v, n) := digits_value (acc * 10 + (c - 48)) s in (v, n + 1) else (acc, 0)
  | [] => (acc, 0)
  end.

Definition json_strtoint (s : bytes) : Z * Z :=
  let clamp v := Z.max (- 2 ^ 31) (Z.min (2 ^ 31 - 1) v) in
  if bget s 0 =? 45 then
    let '(v, n) := digits_value 0 (drop 1 s) in (clamp (- v), if n =? 0 then 0 else n + 1)
  else let '(v, n) := digits_value 0 s in (clamp v, n).

(** [do c = lex_get_save(lex, error); while (l_isdigit(c));]. *)
Fixpoint skip_digits (fuel : nat) (l : lex) : option (Z * lex) :=
  match fuel with
  | O => None
  | S fuel => '(c, l) ← lex_get_save l; if l_isdigit c then skip_digits fuel l else Some (c, l)
  end.

Definition more_digits (l : lex) : option (Z * lex) := skip_digits (S (unread (l_stream l))) l.

Fixpoint skip_alpha (fuel : nat) (l : lex) : option (Z * lex) :=
  match fuel with
  | O => None
  | S fuel => '(c, l) ← lex_get_save l; if l_isalpha c then skip_alpha fuel l else Some (c, l)
  end.

Section parser.
Context `{Allocator} (strtod : bytes -> option Z * Z).

Definition jsonp_strtod (t : bytes) : option (option Z) :=
  let '(v, n) := strtod t in if n =? zlen t then Some v else None.

(** The fraction: [None] inside for [goto out]. *)
Definition scan_fraction (c : Z) (l : lex) : option (option Z * lex) :=
  if c =? 46 then
    '(c, l) ← lex_get l;
    if negb (l_isdigit c) then l ← lex_unget l c; Some (None, l)
    else '(c, l) ← more_digits (lex_save l c); Some (Some c, l)
  else Some (Some c, l).

Definition scan_exponent (c : Z) (l : lex) : option (option Z * lex) :=
  if (c =? 69) || (c =? 101) then
    '(c, l) ← lex_get_save l;
    '(c, l) ← (if (c =? 43) || (c =? 45) then lex_get_save l else Some (c, l));
    if negb (l_isdigit c) then l ← lex_unget_unsave l c; Some (None, l)
    else '(c, l) ← more_digits l; Some (Some c, l)
  else Some (Some c, l).

Definition scan_real (c : Z) (l : lex) : option lex :=
  '(r, l) ← scan_fraction c l;
  match r with
  | None => Some l
  | Some c =>
      '(r, l) ← scan_exponent c l;
      match r with
      | None => Some l
      | Some c =>
          l ← lex_unget_unsave l c;
          v ← jsonp_strtod (l_saved l);
          match v with
          | None => Some (error_set l json_error_numeric_overflow)
          | Some v => Some (with_real (with_token l TOKEN_REAL) v)
          end
      end
  end.

(** The digits before the point: [None] inside for [goto out]. *)
Definition scan_int_part (c : Z) (l : lex) : option (option Z * lex) :=
  if c =? 48 then
    '(c, l) ← lex_get_save l;
    if l_isdigit c then l ← lex_unget_unsave l c; Some (None, l) else Some (Some c, l)
  else if l_isdigit c then '(c, l) ← more_digits l; Some (Some c, l)
  else l ← lex_unget_unsave l c; Some (None, l).

Definition lex_scan_number (c : Z) (l : lex) : option lex :=
  let l := with_token l TOKEN_INVALID in
  '(c, l) ← (if c =? 45 then lex_get_save l else Some (c, l));
  '(r, l) ← scan_int_part c l;
  match r with
  | None => Some l
  | Some c =>
      if negb (flag (l_flags l) JSON_DECODE_INT_AS_REAL) && negb (c =? 46) && negb (c =? 69) && negb (c =? 101) then
        l ← lex_unget_unsave l c;
        let '(intval, n) := json_strtoint (l_saved l) in
        if negb (n =? zlen (l_saved l)) then None
        else Some (with_integer (with_token l TOKEN_INTEGER) intval)
      else scan_real c l
  end.

(** ** Tokens *)

Definition is_space (c : Z) : bool := (c =? 32) || (c =? 9) || (c =? 10) || (c =? 13).

Fixpoint skip_space (fuel : nat) (l : lex) : option (Z * lex) :=
  match fuel with
  | O => None
  | S fuel => '(c, l) ← lex_get l; if is_space c then skip_space fuel l else Some (c, l)
  end.

Definition is_punct (c : Z) : bool := (c =? 123) || (c =? 125) || (c =? 91) || (c =? 93) || (c =? 58) || (c =? 44).

Definition word_token (t : bytes) : Z :=
  if bool_decide (t = [116; 114; 117; 101]) then TOKEN_TRUE
  else if bool_decide (t = [102; 97; 108; 115; 101]) then TOKEN_FALSE
  else if bool_decide (t = [110; 117; 108; 108]) then TOKEN_NULL
  else TOKEN_INVALID.

Definition lex_scan (l : lex) : option lex :=
  let l := with_saved l [] in
  let l := if l_token l =? TOKEN_STRING then lex_free_string l else l in
  '(c, l) ← skip_space (S (unread (l_stream l))) l;
  if c =? STREAM_STATE_EOF then Some (with_token l TOKEN_EOF)
  else if c =? STREAM_STATE_ERROR then Some (with_token l TOKEN_INVALID)
  else
    let l := lex_save l c in
    if is_punct c then Some (with_token l c)
    else if c =? 34 then lex_scan_string l
    else if l_isdigit c || (c =? 45) then lex_scan_number c l
    else if l_isalpha c then
      '(c, l) ← skip_alpha (S (unread (l_stream l))) l;
      l ← lex_unget_unsave l c;
      Some (with_token l (word_token (l_saved l)))
    else l ← lex_save_cached l; Some (with_token l TOKEN_INVALID).

(** ** The parser *)

Definition has_nul (t : bytes) : bool := existsb (Z.eqb 0) t.

(** The loop of [parse_object]; [value] is the recursive call of [parse_value]. *)
Fixpoint parse_members (value : lex -> option (option json * lex)) (fuel : nat) (flags : Z) (object : list (bytes * json))
    (l : lex) : option (option json * lex) :=
  match fuel with
  | O => None
  | S fuel =>
      if negb (l_token l =? TOKEN_STRING) then Some (None, error_set l json_error_invalid_syntax) else
      key ← l_string l;
      let l := with_string l None in
      if has_nul key then Some (None, error_set l json_error_null_byte_in_key) else
      if flag flags JSON_REJECT_DUPLICATES && bool_decide (is_Some (assoc_get key object)) then
        Some (None, error_set l json_error_duplicate_key) else
      l ← lex_scan l;
      if negb (l_token l =? 58) then Some (None, error_set l json_error_invalid_syntax) else
      l ← lex_scan l;
      r ← value l;
      match r with
      | (None, l) => Some (None, l)
      | (Some v, l) =>
          if negb (lex_room ReqMember l) then Some (None, l) else
          let object := assoc_set key v object in
          l ← lex_scan l;
          if l_token l =? 44 then l ← lex_scan l; parse_members value fuel flags object l
          else if negb (l_token l =? 125) then Some (None, error_set l json_error_invalid_syntax)
          else Some (Some (JObject object), l)
      end
  end.

Definition parse_object (value : lex -> option (option json * lex)) (flags : Z) (l : lex) : option (option json * lex) :=
  if negb (lex_room ReqObject l) then Some (None, l) else
  let fuel := S (unread (l_stream l)) in
  l ← lex_scan l;
  if l_token l =? 125 then Some (Some (JObject []), l) else parse_members value fuel flags [] l.

(** The loop of [parse_array]. *)
Fixpoint parse_elements (value : lex -> option (option json * lex)) (fuel : nat) (array : list json) (l : lex) :
    option (option json * lex) :=
  if l_token l =? TOKEN_EOF then Some (None, error_set l json_error_invalid_syntax) else
  match fuel with
  | O => None
  | S fuel =>
      r ← value l;
      match r with
      | (None, l) => Some (None, l)
      | (Some elem, l) =>
          if negb (lex_room ReqElement l) then Some (None, l) else
          let array := array ++ [elem] in
          l ← lex_scan l;
          if l_token l =? 44 then l ← lex_scan l; parse_elements value fuel array l
          else if negb (l_token l =? 93) then Some (None, error_set l json_error_invalid_syntax)
          else Some (Some (JArray array), l)
      end
  end.

Definition parse_array (value : lex -> option (option json * lex)) (l : lex) : option (option json * lex) :=
  if negb (lex_room ReqArray l) then Some (None, l) else
  let fuel := S (unread (l_stream l)) in
  l ← lex_scan l;
  if l_token l =? 93 then Some (Some (JArray []), l) else parse_elements value fuel [] l.

(** The token of a value that is not a container. *)
Definition parse_scalar (flags : Z) (l : lex) : option (option json * lex) :=
  let t := l_token l in
  if t =? TOKEN_STRING then
    value ← l_string l;
    if negb (flag flags JSON_ALLOW_NUL) && has_nul value then Some (None, error_set l json_error_null_character)
    else Some (if lex_room ReqString l then Some (JString value) else None, with_string l None)
  else if t =? TOKEN_INTEGER then Some (if lex_room ReqInteger l then Some (JInteger (l_integer l)) else None, l)
  else if t =? TOKEN_REAL then Some (if lex_room ReqReal l then Some (JReal (l_real l)) else None, l)
  else if t =? TOKEN_TRUE then Some (Some JTrue, l)
  else if t =? TOKEN_FALSE then Some (Some JFalse, l)
  else if t =? TOKEN_NULL then Some (Some JNull, l)
  else Some (None, error_set l json_error_invalid_syntax).

(** The recursion ends at the maximum depth. *)
Fixpoint parse_value (fuel : nat) (flags : Z) (l : lex) : option (option json * lex) :=
  match fuel with
  | O => None
  | S fuel =>
      let l := with_depth l (l_depth l + 1) in
      if JSON_PARSER_MAX_DEPTH <? l_depth l then Some (None, error_set l json_error_stack_overflow) else
      r ← (if l_token l =? 123 then parse_object (parse_value fuel flags) flags l
           else if l_token l =? 91 then parse_array (parse_value fuel flags) l
           else parse_scalar flags l);
      match r with
      | (None, l) => Some (None, l)
      | (Some j, l) => Some (Some j, with_depth l (l_depth l - 1))
      end
  end.

Definition PARSER_FUEL : nat := Z.to_nat (JSON_PARSER_MAX_DEPTH + 1).

Definition parse_json (flags : Z) (l : lex) : option (option json * lex) :=
  let l := with_depth l 0 in
  l ← lex_scan l;
  if negb (flag flags JSON_DECODE_ANY) && negb (l_token l =? 91) && negb (l_token l =? 123) then
    Some (None, error_set l json_error_invalid_syntax) else
  r ← parse_value PARSER_FUEL flags l;
  match r with
  | (None, l) => Some (None, l)
  | (Some result, l) =>
      if flag flags JSON_DISABLE_EOF_CHECK then Some (Some result, l) else
      l ← lex_scan l;
      if negb (l_token l =? TOKEN_EOF) then Some (None, error_set l json_error_end_of_input_expected)
      else Some (Some result, l)
  end.

Definition lex_init (is_string : bool) (input : bytes) (flags : Z) : lex :=
  Lex (Stream is_string input [] 0 STREAM_STATE_OK 1 0 0 0) [] flags 0 TOKEN_INVALID None 0 0 None.

(** The value, the error and the position reached of [json_loads] and
    [json_loadb]. *)
Definition json_load (is_string : bool) (input : bytes) (flags : Z) : option (option json * option json_error * Z) :=
  if negb (room ReqBuffer 0) then Some (None, None, 0) else
  '(j, l) ← parse_json flags (lex_init is_string input flags);
  Some (j, l_error l, s_position (l_stream l)).

Definition json_loads (string : bytes) (flags : Z) := json_load true string flags.
Definition json_loadb (buffer : bytes) (flags : Z) := json_load false buffer flags.

End parser.
