(* ===== verification/JsonLoadProps.v ===== *)
(** * The JSON parser on any input

    Whatever bytes it is given, the parser ends: none of the assertions that
    were replaced by endless loops is reached, no buffer is overrun, the
    decoded string fits in the memory of its source as the comment in
    [lex_scan_string] says, and a failure comes with an error unless memory ran
    out.  The argument is the usual one of a recursive-descent parser: what is left to
    read shrinks with every token, and the recursion is bounded by the
    maximum depth. *)

From S2P Require Import Prelude BasicJson Jansson JsonLoad.

(** ** The stream *)

Definition left (l : lex) : nat := if s_state (l_stream l) =? STREAM_STATE_OK then unread (l_stream l) else O.

Record good (l : lex) : Prop := {
  g_pos : 0 <= s_pos (l_stream l) <= zlen (s_buffer (l_stream l));
  g_data : is_bytes (s_data (l_stream l));
  g_buffer : is_bytes (s_buffer (l_stream l));
  g_short : zlen (s_buffer (l_stream l)) <= 4;
  g_state : s_state (l_stream l) = STREAM_STATE_OK \/ at_end (s_state (l_stream l)) = true
}.

(** [c] is what [stream_get] just returned. *)
Definition got (c : Z) (l : lex) : Prop :=
  good l /\ ((is_byte c /\ s_state (l_stream l) = STREAM_STATE_OK /\ 0 < s_pos (l_stream l)
              /\ bget (s_buffer (l_stream l)) (s_pos (l_stream l) - 1) = c)
             \/ (at_end c = true /\ s_state (l_stream l) = c)).

(** Only the stream and the error have changed. *)
Definition kept (l l' : lex) : Prop := exists s e, l' = with_error (with_stream l s) e.

Lemma lex_kept_refl l : kept l l.
Proof. exists (l_stream l), (l_error l). by destruct l. Qed.

Lemma kept_error l code : kept l (error_set l code).
Proof. unfold error_set. destruct (l_error l) eqn:E; [apply lex_kept_refl|]. exists (l_stream l). eexists. by destruct l. Qed.

Lemma lex_kept_trans l1 l2 l3 : kept l1 l2 -> kept l2 l3 -> kept l1 l3.
Proof. intros (s & e & ->) (s' & e' & ->). by exists s', e'. Qed.

Lemma kept_stream l s : kept l (with_stream l s).
Proof. exists s, (l_error l). by destruct l. Qed.

Lemma error_set_stream l code : l_stream (error_set l code) = l_stream l.
Proof. unfold error_set. by destruct (l_error l). Qed.

Lemma error_set_some l code : is_Some (l_error (error_set l code)).
Proof. unfold error_set. destruct (l_error l) eqn:E; [by rewrite E|]. by eexists. Qed.

Lemma good_stream l l' : l_stream l' = l_stream l -> good l -> good l'.
Proof. intros E [H1 H2 H3 H4 H5]. by split; rewrite E. Qed.

Lemma left_stream l l' : l_stream l' = l_stream l -> left l' = left l.
Proof. intros E. unfold left. by rewrite E. Qed.

Lemma good_error l code : good l -> good (error_set l code).
Proof. apply good_stream, error_set_stream. Qed.

Lemma left_error l code : left (error_set l code) = left l.
Proof. apply left_stream, error_set_stream. Qed.

Lemma bget_pos l i : bget l i <> 0 -> 0 <= i -> i < zlen l.
Proof.
  intros Hb Hi. destruct (Z.lt_ge_cases i (zlen l)) as [|Hge]; [done|]. exfalso. apply Hb. unfold bget. apply nth_overflow. unfold zlen in Hge. lia.
Qed.

Lemma fetch_spec s c d : is_bytes (s_data s) -> stream_fetch s = (c, d) ->
  is_bytes d /\ ((c = EOF /\ d = s_data s) \/ (is_byte c /\ length (s_data s) = S (length d))).
Proof.
  unfold stream_fetch. intros Hb. destruct (s_data s) as [|x xs] eqn:E; [intros [= <- <-]; auto|].
  apply Forall_cons in Hb as [Hx Hxs]. case_if; intros [= <- <-]; split; auto. by constructor.
Qed.

Lemma fetch_more_spec n s : is_bytes (s_data s) ->
  let '(cs, s') := fetch_more n s in
  is_bytes cs /\ is_bytes (s_data s') /\ length cs = n /\ s_state s' = s_state s
  /\ (Forall (fun c => c <> 255) cs -> (length (s_data s) = length (s_data s') + n)%nat).
Proof.
  revert s. induction n as [|n IH]; intros s Hb; cbn [fetch_more]; [split_and!; (done || constructor || (intros; lia))|].
  destruct (stream_fetch s) as [c d] eqn:E. destruct (fetch_spec s c d Hb E) as [Hd Hc].
  specialize (IH (with_input s d (s_buffer s) (s_pos s)) Hd). destruct (fetch_more n _) as [cs s'] eqn:Em.
  destruct IH as (Hcs & Hd' & Hn & Hst & Hl). cbn [s_data with_input s_state] in *. split_and!; [by constructor; auto with t2|done|simpl; lia|done|].
  intros Hf. apply Forall_cons in Hf as [H1 Hf]. specialize (Hl Hf).
  destruct Hc as [[-> ->]|[Hc Hlen]]; [by change (u8 EOF) with 255 in H1|]. lia.
Qed.

Lemma utf8_continue_bytes v cs w : utf8_continue v cs = Some w -> Forall (fun c => c <> 255) cs.
Proof.
  revert v. induction cs as [|c cs IH]; intros v; simpl; [constructor|]. case_if; [done|]. intros Hw. constructor; [lia|eauto].
Qed.

Lemma utf8_check_full_bytes c cs : utf8_check_full (c :: cs) = true -> Forall (fun c => c <> 255) cs.
Proof.
  unfold utf8_check_full. destruct (if _ =? 2 then _ else _) as [v|]; [|done]. destruct (utf8_continue v cs) eqn:E; [|done].
  intros _. by eapply utf8_continue_bytes.
Qed.

Lemma utf8_check_first_range c : 0 <= utf8_check_first c <= 4.
Proof. unfold utf8_check_first. repeat case_if; lia. Qed.

Lemma utf8_check_first_two c : 128 <= c -> utf8_check_first c = 0 \/ 2 <= utf8_check_first c.
Proof. intros Hc. unfold utf8_check_first. repeat case_if; lia. Qed.

Lemma refill_spec s : is_bytes (s_data s) -> s_state s = STREAM_STATE_OK ->
  exists r, refill s = Some r /\
  match r with
  | AtEof s' => s' = with_state s STREAM_STATE_EOF
  | BadByte s' => s_state s' = STREAM_STATE_ERROR /\ is_bytes (s_data s') /\ is_bytes (s_buffer s') /\ s_pos s' = 0
      /\ zlen (s_buffer s') <= 4
  | Fetched s' => s_state s' = STREAM_STATE_OK /\ is_bytes (s_data s') /\ is_bytes (s_buffer s') /\ s_pos s' = 0
      /\ 0 < zlen (s_buffer s') <= 4 /\ (length (s_data s') + length (s_buffer s') = length (s_data s))%nat
  end.
Proof.
  intros Hb Hs. unfold refill. destruct (stream_fetch s) as [c d] eqn:E. destruct (fetch_spec s c d Hb E) as [Hd Hc].
  case_if; [by eexists|]. destruct Hc as [[-> _]|[Hc Hlen]]; [done|]. unfold is_byte in Hc.
  destruct ((128 <=? c) && (c <=? 255)) eqn:E1; b2p.
  - destruct (utf8_check_first_two c ltac:(lia)) as [Ez|Ez].
    { rewrite Ez, Z.eqb_refl. eexists. split; [done|]. cbn. split_and!; try done; repeat constructor; lia. }
    pose proof (utf8_check_first_range c). rewrite (proj2 (Z.eqb_neq _ _)), (proj2 (Z.ltb_ge _ _)) by lia.
    pose proof (fetch_more_spec (Z.to_nat (utf8_check_first c - 1)) (with_input s d [c] 0) Hd) as Hm.
    destruct (fetch_more _ _) as [cs s'] eqn:Em. destruct Hm as (Hcs & Hd' & Hn & Hst & Hl). cbn [s_data s_state with_input] in *.
    assert (is_bytes (c :: cs)) by (constructor; [unfold is_byte; lia|done]).
    destruct (utf8_check_full (c :: cs)) eqn:Ef; (eexists; split; [done|]); cbn; rewrite ?zlen_cons; split_and!; try done; try (unfold zlen; lia).
    specialize (Hl (utf8_check_full_bytes _ _ Ef)). lia.
  - eexists. split; [done|]. cbn. split_and!; try done; [repeat constructor; lia|lia].
Qed.

Lemma stream_next_spec s c s' : stream_next s = (c, s') ->
  c = bget (s_buffer s) (s_pos s) /\ s_data s' = s_data s /\ s_buffer s' = s_buffer s /\ s_pos s' = s_pos s + 1 /\ s_state s' = s_state s.
Proof. unfold stream_next. intros [= <- <-]. split; [done|]. by case_if. Qed.

(** Every character brings the end nearer. *)
Lemma stream_get_spec l : good l ->
  exists c l', stream_get l = Some (c, l') /\ got c l' /\ kept l l' /\ (left l' <= left l)%nat
    /\ (at_end c = false -> (left l' < left l)%nat).
Proof.
  intros G. destruct G as [Hp Hd Hb Hsh Hst] eqn:EG. unfold stream_get. destruct (s_state (l_stream l) =? STREAM_STATE_OK) eqn:Es; simpl; b2p.
  2:{ exists (s_state (l_stream l)), l. destruct Hst as [Hst|Hst]; [done|]. split; [done|]. split; [by split; [|right]|].
      split; [apply lex_kept_refl|]. split; [lia|]. by rewrite Hst. }
  clear G EG Hst.
  set (s := l_stream l) in *.
  assert (Hnext : forall s1, s_state s1 = STREAM_STATE_OK -> is_bytes (s_data s1) -> is_bytes (s_buffer s1) ->
    0 <= s_pos s1 < zlen (s_buffer s1) -> zlen (s_buffer s1) <= 4 -> (length (s_data s1) + length (s_buffer s1) - Z.to_nat (s_pos s1) <= unread s)%nat ->
    exists c l', (let '(c, s) := stream_next s1 in Some (c, with_stream l s)) = Some (c, l') /\ got c l' /\ kept l l'
      /\ (left l' <= left l)%nat /\ (at_end c = false -> (left l' < left l)%nat)).
  { intros s1 Hs1 Hd1 Hb1 Hp1 Hsh1 Hl1. destruct (stream_next s1) as [c s2] eqn:En.
    destruct (stream_next_spec _ _ _ En) as (Ec & Ed & Eb & Ep & Est). exists c, (with_stream l s2).
    assert (left (with_stream l s2) < left l)%nat.
    { unfold left. cbn [l_stream with_stream]. fold s. rewrite Est, Hs1, Es, Z.eqb_refl. unfold unread in *. rewrite Ed, Eb, Ep. unfold zlen in *. lia. }
    split; [done|]. split; [|split; [apply kept_stream|split; lia]]. split; [split; cbn [l_stream with_stream]; rewrite ?Ed, ?Eb, ?Ep, ?Est; (done || lia || by left)|].
    left. cbn [l_stream with_stream]. rewrite Eb, Ep, Est, Z.add_simpl_r, Ec. split_and!; [by apply bget_byte|done|lia|done]. }
  case_if.
  - destruct (refill_spec s Hd Es) as (r & -> & Hr). simpl. destruct r as [s1|s1|s1].
    + destruct Hr as (H1 & H2 & H3 & H4 & H5 & H6). apply Hnext; try done; [lia|lia|]. unfold unread, zlen in *. lia.
    + subst s1. eexists _, _. split; [done|]. split; [|split; [apply kept_stream|]]; [|unfold left; cbn; split; [lia|done]].
      split; [split; cbn; auto|by right].
    + destruct Hr as (H1 & H2 & H3 & H4 & H5). eexists _, _. split; [done|].
      split; [|split; [eapply lex_kept_trans; [apply kept_stream|apply kept_error]|]]; rewrite ?left_error; [|unfold left; cbn; rewrite H1; cbn; split; [lia|done]].
      split; [|right; split; [done|by rewrite error_set_stream]]. apply good_error.
      split; cbn; rewrite ?H4, ?H1; [split; [lia|auto with t2]|done|done|done|by right].
  - simpl. apply Hnext; try done. pose proof (bget_pos (s_buffer s) (s_pos s) ltac:(done) ltac:(lia)). lia.
Qed.

(** A character that was just returned can be given back. *)
Lemma stream_unget_spec l c : got c l ->
  exists s, stream_unget (l_stream l) c = Some s /\ good (with_stream l s)
    /\ (at_end c = true -> s = l_stream l) /\ (left (with_stream l s) <= S (left l))%nat.
Proof.
  intros [[Hp Hd Hb Hsh Hst] Hc]. unfold stream_unget. destruct Hc as [(Hc & Es & H0 & Eb)|[Ha Es]].
  - assert (at_end c = false) as Ha by (unfold at_end, is_byte in *; rewrite !(proj2 (Z.eqb_neq _ _)) by (cbv; lia); done).
    rewrite Ha, (proj2 (Z.ltb_lt _ _)), Eb, Z.eqb_refl by done. simpl.
    eexists. split; [done|]. split; [case_if; split; cbn; auto; lia|]. split; [done|].
    unfold left, unread, zlen in *. destruct (c =? 10); cbn; rewrite Es; cbn; lia.
  - rewrite Ha. exists (l_stream l). replace (with_stream l (l_stream l)) with l by (by destruct l). split_and!; (done || lia).
Qed.

Lemma got_good c l : got c l -> good l.
Proof. by intros [? _]. Qed.

Lemma got_range c l : got c l -> -2 <= c < 256 /\ (at_end c = false -> 0 <= c).
Proof.
  intros [_ [(Hc & _)|[Ha _]]]; [unfold is_byte in Hc; split; [lia|intros _; lia]|].
  unfold at_end, STREAM_STATE_EOF, STREAM_STATE_ERROR in *. apply orb_true_iff in Ha as [Ha|Ha]; b2p; split; (lia || done || (intros; lia) || (subst; done)).
Qed.

Lemma got_kept c l l' : l_stream l' = l_stream l -> got c l -> got c l'.
Proof. intros E [G H]. split; [by eapply good_stream|]. by rewrite E. Qed.

(** The fields a scan keeps apart from the saved text. *)
Definition keeps (l l' : lex) : Prop :=
  l_flags l' = l_flags l /\ l_depth l' = l_depth l /\ l_token l' = l_token l.

Lemma kept_keeps l l' : kept l l' -> keeps l l' /\ l_saved l' = l_saved l.
Proof. by intros (s & e & ->). Qed.

Lemma keeps_refl l : keeps l l.
Proof. done. Qed.

Lemma keeps_trans l1 l2 l3 : keeps l1 l2 -> keeps l2 l3 -> keeps l1 l3.
Proof. unfold keeps. naive_solver congruence. Qed.

Lemma keeps_error l code : keeps l (error_set l code) /\ l_saved (error_set l code) = l_saved l.
Proof. apply kept_keeps, kept_error. Qed.

(** What [lex_get_save] appends. *)
Definition saves (c : Z) : bytes := if at_end c then [] else [c].

Lemma lex_get_save_spec l : good l ->
  exists c l', lex_get_save l = Some (c, l') /\ got c l' /\ keeps l l' /\ l_saved l' = l_saved l ++ saves c
    /\ (left l' <= left l)%nat /\ (at_end c = false -> (left l' < left l)%nat).
Proof.
  intros G. destruct (stream_get_spec l G) as (c & l' & E & Hg & Hk & Hl & Hlt). unfold lex_get_save. rewrite E. simpl.
  destruct (kept_keeps _ _ Hk) as [Hks Hsv]. exists c, (if at_end c then l' else lex_save l' c). unfold saves. split; [done|].
  destruct (at_end c) eqn:Ea; [rewrite app_nil_r; by split_and!|].
  split; [by apply (got_kept c l')|]. split; [done|]. cbn. rewrite Hsv. by split.
Qed.

Lemma saved_pop_app t c : saved_pop (t ++ saves c) = if at_end c then saved_pop t else t.
Proof.
  unfold saves, saved_pop. destruct (at_end c); [by rewrite app_nil_r|].
  rewrite length_app. simpl. rewrite Nat.add_sub. apply take_app_length.
Qed.

Lemma lex_unget_unsave_spec l c t : got c l -> l_saved l = t ++ saves c ->
  exists l', lex_unget_unsave l c = Some l' /\ good l' /\ keeps l l' /\ l_saved l' = t
    /\ (left l' <= left l + (if at_end c then 0 else 1))%nat.
Proof.
  intros G Ht. destruct (stream_unget_spec l c G) as (s & E & Hg & Ha & Hl). unfold lex_unget_unsave.
  destruct (at_end c) eqn:Ec.
  - exists l. unfold saves in Ht. rewrite Ec, app_nil_r in Ht. split; [done|]. split; [by eapply got_good|]. by split_and!; try lia.
  - rewrite E. simpl. eexists. split; [done|]. split; [by apply (good_stream (with_stream l s))|]. split; [done|]. cbn. rewrite Ht, saved_pop_app, Ec.
    split; [done|]. unfold left in *. cbn in *. lia.
Qed.

Lemma got_end_left c l : got c l -> at_end c = true -> left l = O.
Proof.
  intros [_ [(Hc & _)|[_ Es]]] Ha; unfold left.
  - unfold at_end, is_byte, STREAM_STATE_EOF, STREAM_STATE_ERROR in *. apply orb_true_iff in Ha as [Ha|Ha]; b2p; lia.
  - rewrite Es. case_if; [|done]. rewrite E in Ha. by vm_compute in Ha.
Qed.

Lemma not_end c : 0 <= c -> at_end c = false.
Proof. intros Hc. unfold at_end. by rewrite !(proj2 (Z.eqb_neq _ _)) by (cbv; lia). Qed.

Lemma at_end_cases c : at_end c = true -> c = -1 \/ c = -2.
Proof. unfold at_end, STREAM_STATE_EOF, STREAM_STATE_ERROR. intros [H|H]%orb_true_iff; b2p; auto. Qed.

(** The next character, after one that is kept. *)
Ltac next_char G c l Hg Hk Hs Hle Hlt :=
  destruct (lex_get_save_spec _ G) as (c & l & -> & Hg & Hk & Hs & Hle & Hlt); cbn [mbind option_bind].

(** ** Strings *)

(** The text between the quotes that the first pass lets through. *)
Inductive body : bytes -> Prop :=
  | body_nil : body []
  | body_char c b : c <> 34 -> c <> 92 -> body b -> body (c :: b)
  | body_escape e b : is_escape e = true -> body b -> body (92 :: e :: b)
  | body_unicode hs b : length hs = 4%nat -> Forall (fun h => l_isxdigit h = true) hs -> body b -> body (92 :: 117 :: hs ++ b).

Lemma xdigit_not_end c : l_isxdigit c = true -> at_end c = false.
Proof. unfold l_isxdigit, l_isdigit. intros H. apply not_end. destruct (Z.le_gt_cases 0 c); [done|].
  rewrite !(proj2 (Z.leb_gt _ _)) in H by lia. done. Qed.

Lemma scan_hex_spec n c l t : got c l -> l_saved l = t ++ saves c ->
  exists ok c' l', scan_hex n c l = Some (ok, c', l') /\ keeps l l' /\ (left l' <= left l)%nat /\ good l'
    /\ (ok = true -> got c' l' /\ exists hs, length hs = n /\ Forall (fun h => l_isxdigit h = true) hs /\ l_saved l' = t ++ hs ++ saves c').
Proof.
  revert c l t. induction n as [|n IH]; intros c l t G Ht; cbn [scan_hex].
  - exists true, c, l. split_and!; [done..|by eapply got_good|]. intros _. split; [done|]. by exists [].
  - destruct (l_isxdigit c) eqn:Ex; simpl.
    2:{ exists false, c, (error_set l json_error_invalid_syntax). rewrite left_error. split_and!; [done|apply keeps_error|done|eapply good_error, got_good, G|done]. }
    next_char (got_good _ _ G) c0 l0 G0 K0 S0 Le0 Lt0. destruct (IH c0 l0 (t ++ [c])) as (ok & c' & l' & -> & Hk & Hl & Hg & Hok); [done| |].
    { rewrite S0, Ht. unfold saves at 1. by rewrite (xdigit_not_end c Ex). }
    exists ok, c', l'. split; [done|]. split; [by eapply keeps_trans|]. split; [lia|]. split; [done|]. intros Ho.
    destruct (Hok Ho) as [Hc' (hs & Hn & Hx & Hs)]. split; [done|]. exists (c :: hs). split; [by simpl; rewrite Hn|].
    split; [by constructor|]. by rewrite Hs, <- app_assoc.
Qed.

Lemma scan_string_spec fuel c l t : got c l -> l_saved l = t ++ saves c -> ((if at_end c then O else S (left l)) < fuel)%nat ->
  exists ok l', scan_string fuel c l = Some (ok, l') /\ good l' /\ keeps l l' /\ (left l' <= left l + (if at_end c then 0 else 1))%nat
    /\ (ok = true -> exists b, body b /\ l_saved l' = t ++ b ++ [34]).
Proof.
  revert c l t. induction fuel as [|fuel IH]; intros c l t G Ht Hf; [lia|]. cbn [scan_string].
  assert (Hnext : forall c1 l1 t1, got c1 l1 -> l_saved l1 = t1 ++ saves c1 -> (if at_end c1 then True else (left l1 < left l)%nat) -> keeps l l1 ->
    at_end c = false -> (forall b, body b -> exists b', body b' /\ t1 ++ b ++ [34] = t ++ b' ++ [34]) ->
    exists ok l', scan_string fuel c1 l1 = Some (ok, l') /\ good l' /\ keeps l l' /\ (left l' <= left l + (if at_end c then 0 else 1))%nat
    /\ (ok = true -> exists b, body b /\ l_saved l' = t ++ b ++ [34])).
  { intros c1 l1 t1 G1 Ht1 Hl1 Hk1 Ha Hb. rewrite Ha in *. destruct (IH c1 l1 t1 G1 Ht1) as (ok & l' & -> & Hg & Hk & Hl & Ho).
    { destruct (at_end c1); lia. }
    exists ok, l'. split_and!; [done..|by eapply keeps_trans| |].
    - destruct (at_end c1) eqn:E1; [rewrite (got_end_left _ _ G1 E1) in Hl|]; lia.
    - intros E. destruct (Ho E) as (b & Hbody & Hs). destruct (Hb b Hbody) as (b' & Hb' & He). exists b'. by rewrite Hs. }
  destruct (Z.eqb_spec c 34) as [->|H34].
  { exists true, l. split_and!; [done|by eapply got_good|done|lia|]. intros _. exists []. split; [constructor|done]. }
  destruct (Z.eqb_spec c STREAM_STATE_ERROR) as [->|Her].
  { exists false, l. split_and!; [done|by eapply got_good|done|lia|done]. }
  destruct (Z.eqb_spec c STREAM_STATE_EOF) as [->|Hef].
  { eexists _, _. split; [done|]. rewrite left_error. split_and!; [eapply good_error, got_good, G|apply keeps_error|lia|done]. }
  assert (Ha : at_end c = false) by (destruct (at_end c) eqn:E; [apply at_end_cases in E as [->| ->]; done|done]).
  destruct ((0 <=? c) && (c <=? 31)) eqn:Ec.
  { destruct (lex_unget_unsave_spec l c t G Ht) as (l' & -> & Hg & Hk & _ & Hl). simpl. eexists _, _. split; [done|]. rewrite left_error.
    split_and!; [by apply good_error|eapply keeps_trans; [done|apply keeps_error]|done|done]. }
  assert (Hsv : saves c = [c]) by (unfold saves; by rewrite Ha). clear IH.
  destruct (Z.eqb_spec c 92) as [->|H92].
  2:{ next_char (got_good _ _ G) c0 l0 G0 K0 S0 Le0 Lt0. apply Hnext with (t1 := t ++ [c]); try done.
      - rewrite S0, Ht, Hsv, <- app_assoc. done.
      - destruct (at_end c0) eqn:E0; [done|auto].
      - intros b Hb. exists (c :: b). split; [by constructor|]. by rewrite <- app_assoc. }
  next_char (got_good _ _ G) c0 l0 G0 K0 S0 Le0 Lt0. assert (Ht0 : l_saved l0 = (t ++ [92]) ++ saves c0) by (rewrite S0, Ht, Hsv, <- app_assoc; done).
  destruct (Z.eqb_spec c0 117) as [->|H117].
  - next_char (got_good _ _ G0) c1 l1 G1 K1 S1 Le1 Lt1. assert (Ht1 : l_saved l1 = (t ++ [92; 117]) ++ saves c1) by (rewrite S1, Ht0, <- !app_assoc; done).
    destruct (scan_hex_spec 4 c1 l1 _ G1 Ht1) as (ok & c2 & l2 & -> & Hk & Hl & Hg & Hok). simpl. destruct ok.
    + destruct (Hok eq_refl) as [G2 (hs & Hn & Hx & Hs)]. apply Hnext with (t1 := t ++ [92; 117] ++ hs); try done.
      * rewrite Hs, <- !app_assoc. done.
      * specialize (Lt0 eq_refl). destruct (at_end c2); [done|lia].
      * eapply keeps_trans; [done|]. by eapply keeps_trans.
      * intros b Hb. exists (92 :: 117 :: hs ++ b). split; [by constructor|]. simpl. rewrite <- !app_assoc. simpl. done.
    + eexists _, _. split; [done|]. specialize (Lt0 eq_refl). split_and!; [done| |lia|done].
      eapply keeps_trans; [done|]. by eapply keeps_trans.
  - destruct (is_escape c0) eqn:Ee.
    + next_char (got_good _ _ G0) c1 l1 G1 K1 S1 Le1 Lt1. assert (Ha0 : at_end c0 = false).
      { destruct (at_end c0) eqn:E; [apply at_end_cases in E as [->| ->]; done|done]. }
      apply Hnext with (t1 := t ++ [92; c0]); try done.
      * rewrite S1, Ht0. unfold saves at 1. rewrite Ha0, <- !app_assoc. done.
      * specialize (Lt0 Ha0). destruct (at_end c1); [done|lia].
      * by eapply keeps_trans.
      * intros b Hb. exists (92 :: c0 :: b). split; [by constructor|]. by rewrite <- app_assoc.
    + eexists _, _. split; [done|]. rewrite left_error. split_and!; [eapply good_error, got_good, G0|eapply keeps_trans; [done|apply keeps_error]|lia|done].
Qed.

Lemma hex_digit_range h : l_isxdigit h = true -> exists d, hex_digit h = Some d /\ 0 <= d < 16.
Proof.
  unfold l_isxdigit, hex_digit, l_isdigit, l_islower, l_isupper. intros H.
  destruct (Z.leb_spec 48 h), (Z.leb_spec h 57), (Z.leb_spec 65 h), (Z.leb_spec h 70), (Z.leb_spec 97 h), (Z.leb_spec h 102),
    (Z.leb_spec h 122), (Z.leb_spec h 90); simpl in *; try done; try lia; eexists; (split; [done|lia]).
Qed.

Lemma hex_value_range hs v r : Forall (fun h => l_isxdigit h = true) hs -> 0 <= v ->
  v * 16 ^ zlen hs <= hex_value (length hs) v (hs ++ r) < (v + 1) * 16 ^ zlen hs.
Proof.
  intros Hx. revert v. induction Hx as [|h hs Hh Hx IH]; intros v Hv; [simpl; rewrite zlen_nil; lia|].
  destruct (hex_digit_range h Hh) as (d & Ed & Hd). cbn [length hex_value app]. change (bget (h :: hs ++ r) 0) with h. rewrite Ed.
  change (drop 1 (h :: hs ++ r)) with (hs ++ r). rewrite Z.shiftl_mul_pow2 by lia. change (2 ^ 4) with 16.
  specialize (IH (v * 16 + d) ltac:(lia)). pose proof (zlen_nonneg hs). rewrite zlen_cons, Z.pow_add_r by lia. change (16 ^ 1) with 16. pose proof (Z.pow_pos_nonneg 16 (zlen hs) ltac:(lia) ltac:(lia)). nia.
Qed.

Lemma decode_unicode_spec hs p : length hs = 4%nat -> Forall (fun h => l_isxdigit h = true) hs ->
  exists v, decode_unicode_escape (117 :: hs ++ p) = Some v /\ 0 <= v < 65536 /\ drop 5 (117 :: hs ++ p) = p.
Proof.
  intros Hn Hx. pose proof (hex_value_range hs 0 p Hx ltac:(lia)) as Hr. rewrite Hn in Hr. unfold zlen in Hr. rewrite Hn in Hr.
  exists (hex_value 4 0 (hs ++ p)). split; [done|]. split; [lia|]. change (drop 5 (117 :: hs ++ p)) with (drop 4 (hs ++ p)).
  by apply drop_app_length'.
Qed.

Lemma body_second b : body b -> bget (b ++ [34]) 0 = 92 -> bget (b ++ [34]) 1 = 117 ->
  exists hs b', b = 92 :: 117 :: hs ++ b' /\ length hs = 4%nat /\ Forall (fun h => l_isxdigit h = true) hs /\ body b'.
Proof.
  intros Hb H0 H1. destruct Hb as [|c b Hc Hc' Hb|e b He Hb|hs b Hn Hx Hb]; [done|by cbv in H0|cbn in H1|by exists hs, b].
  change (bget (92 :: e :: b ++ [34]) 1) with e in H1. by subst e.
Qed.

Lemma utf8_encode_some v : 0 <= v <= 0x10FFFF -> exists bs, utf8_encode v = Some bs /\ zlen bs <= 4.
Proof. intros Hv. unfold utf8_encode. repeat case_if; try lia; eexists; (split; [done|]); unfold zlen; simpl; lia. Qed.

Lemma unicode_escape_spec hs b : length hs = 4%nat -> Forall (fun h => l_isxdigit h = true) hs -> body b ->
  exists r, unicode_escape (117 :: hs ++ b ++ [34]) = Some r
    /\ match r with
       | None => True
       | Some (v, q) => 0 <= v <= 0x10FFFF /\ exists b', body b' /\ q = b' ++ [34] /\ (length b' <= length b)%nat
       end.
Proof.
  intros Hn Hx Hb. unfold unicode_escape. destruct (decode_unicode_spec hs (b ++ [34]) Hn Hx) as (v & -> & Hv & Hdrop).
  cbn [mbind option_bind]. rewrite (proj2 (Z.ltb_ge _ _)), Hdrop by lia. case_if.
  - destruct ((bget (b ++ [34]) 0 =? 92) && (bget (b ++ [34]) 1 =? 117)) eqn:E2; [|by eexists]. b2p.
    destruct (body_second b Hb ltac:(done) ltac:(done)) as (hs2 & b' & -> & Hn2 & Hx2 & Hb').
    replace (drop 1 ((92 :: 117 :: hs2 ++ b') ++ [34])) with (117 :: hs2 ++ (b' ++ [34])) by (simpl; by rewrite <- app_assoc).
    destruct (decode_unicode_spec hs2 (b' ++ [34]) Hn2 Hx2) as (v2 & -> & Hv2 & Hdrop2). cbn [mbind option_bind].
    rewrite (proj2 (Z.ltb_ge _ _)), Hdrop2 by lia. case_if; [|by eexists]. eexists. split; [done|]. cbn.
    rewrite Z.shiftl_mul_pow2 by lia. split; [lia|]. exists b'. split; [done|]. split; [done|]. rewrite length_app. lia.
  - case_if; [by eexists|]. eexists. split; [done|]. cbn. split; [lia|]. by exists b.
Qed.

Lemma put_in size t bs : zlen t + zlen bs <= size -> put size t bs = Some (t ++ bs).
Proof. intros H. unfold put. by rewrite (proj2 (Z.leb_le _ _)). Qed.

Lemma simple_escape_some e : is_escape e = true -> exists c, simple_escape e = Some c.
Proof. unfold is_escape, simple_escape. intros H. repeat case_if; eauto. exfalso. by repeat (b2p; simplify_eq/=; rewrite ?orb_false_r in *; b2p). Qed.

(** The decoded text is not longer than its source. *)
Lemma decode_string_spec fuel size b t : body b -> (length b < fuel)%nat -> zlen t + zlen b + 1 <= size ->
  exists r, decode_string fuel size (b ++ [34]) t = Some r
    /\ match r with Some t' => zlen t' <= zlen t + zlen b | None => True end.
Proof.
  revert b t. induction fuel as [|fuel IH]; intros b t Hb Hf Hs; [lia|].
  destruct Hb as [|c b Hc Hc' Hb|e b He Hb|hs b Hn Hx Hb]; cbn [decode_string app].
  - rewrite Z.eqb_refl, put_in by (rewrite zlen_cons; lia). eexists. split; [done|]. rewrite zlen_nil. lia.
  - rewrite (proj2 (Z.eqb_neq c 34)), (proj2 (Z.eqb_neq c 92)) by done. rewrite zlen_cons in Hs.
    rewrite put_in by (rewrite zlen_cons, zlen_nil; pose proof (zlen_nonneg b); lia). cbn [mbind option_bind].
    destruct (IH b (t ++ [c]) Hb) as (r & -> & Hr); [simpl in Hf; lia|rewrite zlen_app, zlen_cons, zlen_nil; lia|].
    eexists. split; [done|]. destruct r; [|done]. rewrite zlen_app, !zlen_cons, zlen_nil in *. lia.
  - cbn. change (bget (e :: b ++ [34]) 0) with e.
    assert (e =? 117 = false) as -> by (destruct (Z.eqb_spec e 117) as [->|]; done).
    destruct (simple_escape_some e He) as (c & ->). cbn [mbind option_bind]. rewrite !zlen_cons in *. pose proof (zlen_nonneg b).
    rewrite put_in by (rewrite zlen_cons, zlen_nil; lia). cbn [mbind option_bind].
    destruct (IH b (t ++ [c]) Hb) as (r & E & Hr); [simpl in Hf; lia|rewrite zlen_app, zlen_cons, zlen_nil; lia|].
    exists r. split; [exact E|]. destruct r; [|done]. rewrite zlen_app, zlen_cons, zlen_nil in Hr. lia.
  - rewrite <- app_assoc. cbn [Z.eqb]. cbn -[unicode_escape put decode_string]. change (bget (117 :: hs ++ b ++ [34]) 0) with 117.
    destruct (unicode_escape_spec hs b Hn Hx Hb) as (r & Er & Hr). cbn [Z.eqb Pos.eqb]. rewrite Er. cbn [mbind option_bind].
    destruct r as [[v q]|]; [|by eexists]. destruct Hr as (Hv & b' & Hb' & -> & Hl).
    destruct (utf8_encode_some v Hv) as (bs & -> & Hbs). cbn [mbind option_bind].
    rewrite !zlen_cons, zlen_app in Hs. simpl in Hf. rewrite length_app in Hf.
    assert (zlen hs = 4) by (unfold zlen; lia). assert (zlen b' <= zlen b) by (unfold zlen; lia). pose proof (zlen_nonneg b').
    rewrite put_in by lia. cbn [mbind option_bind].
    destruct (IH b' (t ++ bs) Hb') as (r & -> & Hr); [lia|rewrite zlen_app; lia|].
    exists r. split; [done|]. destruct r; [|done]. rewrite !zlen_cons, !zlen_app in *. lia.
Qed.

(** ** Tokens *)

(** What every scan of a token leaves. *)
Record scanned (l l' : lex) : Prop := {
  sc_good : good l';
  sc_left : (left l' <= left l)%nat;
  sc_flags : l_flags l' = l_flags l;
  sc_depth : l_depth l' = l_depth l;
  sc_string : l_token l' = TOKEN_STRING -> is_Some (l_string l')
}.

Lemma lex_scan_string_spec `{!Allocator} l : good l -> l_saved l = [34] -> exists l', lex_scan_string l = Some l' /\ scanned l l'.
Proof.
  intros G Hs. unfold lex_scan_string. set (l0 := with_token _ _).
  assert (G0 : good l0) by (by apply (good_stream l)). assert (left l0 = left l) as EL by (by apply left_stream).
  next_char G0 c l1 G1 K1 S1 Le1 Lt1.
  destruct (scan_string_spec (S (S (unread (l_stream l1)))) c l1 [34] G1) as (ok & l2 & -> & G2 & K2 & Le2 & Ho).
  { change (l_saved l0) with (l_saved l) in S1. by rewrite S1, Hs. }
  { unfold left. destruct (at_end c); [lia|]. case_if; lia. }
  cbn [mbind option_bind]. assert (Le : (left l2 <= left l)%nat).
  { rewrite <- EL. destruct (at_end c) eqn:Ea; [lia|]. specialize (Lt1 eq_refl). lia. }
  destruct (keeps_trans _ _ _ K1 K2) as (F & D & T). cbn in F, D, T. destruct ok; cbn [negb].
  2:{ eexists. split; [done|]. split; cbn; [by apply (good_stream l2)|done..|by rewrite T]. }
  destruct (lex_room ReqText l2); cbn [negb].
  2:{ eexists. split; [done|]. split; cbn; [by apply (good_stream l2)|done..|by rewrite T]. }
  destruct (Ho eq_refl) as (b & Hb & Hsv). rewrite Hsv. change (drop 1 ([34] ++ b ++ [34])) with (b ++ [34]).
  destruct (decode_string_spec (S (length ([34] ++ b ++ [34]))) (zlen ([34] ++ b ++ [34]) + 1) b [] Hb) as (r & -> & _).
  { rewrite !length_app. simpl. lia. }
  { rewrite !zlen_app, !zlen_cons, zlen_nil. lia. }
  cbn [mbind option_bind]. destruct r as [t|]; (eexists; split; [done|]).
  - split; cbn; [by apply (good_stream l2)|done..|by eexists].
  - destruct (keeps_error l2 json_error_invalid_syntax) as [(F' & D' & T') _]. split; cbn.
    + apply (good_stream (error_set l2 json_error_invalid_syntax)); [done|by apply good_error].
    + change (left (error_set l2 json_error_invalid_syntax) <= left l)%nat. by rewrite left_error.
    + by rewrite F', F.
    + by rewrite D', D.
    + by rewrite T', T.
Qed.

(** ** Numbers *)

Definition digits (ds : bytes) : Prop := Forall (fun c => l_isdigit c = true) ds.

(** An optional sign, digits, an optional fraction and an optional exponent. *)
Definition number_text (t : bytes) : Prop :=
  exists m i f e, t = m ++ i ++ f ++ e /\ (m = [] \/ m = [45]) /\ digits i /\ i <> []
    /\ (f = [] \/ exists ds, f = 46 :: ds /\ digits ds /\ ds <> [])
    /\ (e = [] \/ exists x sg ds, e = x :: sg ++ ds /\ (x = 69 \/ x = 101) /\ (sg = [] \/ sg = [43] \/ sg = [45]) /\ digits ds /\ ds <> []).

Lemma digit_not_end c : l_isdigit c = true -> at_end c = false.
Proof. intros H. apply xdigit_not_end. unfold l_isxdigit. by rewrite H. Qed.

Lemma skip_digits_spec fuel l : good l -> (left l < fuel)%nat ->
  exists c l' ds, skip_digits fuel l = Some (c, l') /\ got c l' /\ keeps l l' /\ (left l' <= left l)%nat
    /\ (at_end c = false -> (left l' < left l)%nat) /\ digits ds /\ l_saved l' = l_saved l ++ ds ++ saves c /\ l_isdigit c = false.
Proof.
  revert l. induction fuel as [|fuel IH]; intros l G Hf; [lia|]. cbn [skip_digits]. next_char G c l1 G1 K1 S1 Le1 Lt1.
  destruct (l_isdigit c) eqn:Ed.
  - specialize (Lt1 (digit_not_end c Ed)). destruct (IH l1 (got_good _ _ G1) ltac:(lia)) as (c' & l' & ds & -> & G' & K' & Le' & Lt' & Hd & Hs & Hn).
    exists c', l', (c :: ds). split_and!; try done; [by eapply keeps_trans|lia|intros; lia|by constructor|].
    rewrite Hs, S1. unfold saves at 1. rewrite (digit_not_end c Ed), <- app_assoc. done.
  - exists c, l1, []. split_and!; try done. constructor.
Qed.

Lemma more_digits_spec l : good l ->
  exists c l' ds, more_digits l = Some (c, l') /\ got c l' /\ keeps l l' /\ (left l' <= left l)%nat
    /\ (at_end c = false -> (left l' < left l)%nat) /\ digits ds /\ l_saved l' = l_saved l ++ ds ++ saves c /\ l_isdigit c = false.
Proof. intros G. apply skip_digits_spec; [done|]. unfold left. case_if; lia. Qed.

Lemma digits_value_all acc ds : digits ds -> snd (digits_value acc ds) = zlen ds.
Proof.
  intros Hd. revert acc. induction Hd as [|c ds Hc Hd IH]; intros acc; [done|]. cbn [digits_value]. rewrite Hc.
  specialize (IH (acc * 10 + (c - 48))). destruct (digits_value _ ds) as [v n]. simpl in *. by rewrite IH, zlen_cons.
Qed.

Lemma strtoint_all m i : m = [] \/ m = [45] -> digits i -> i <> [] -> snd (json_strtoint (m ++ i)) = zlen (m ++ i).
Proof.
  intros Hm Hi Hne. unfold json_strtoint. destruct i as [|d i]; [done|]. pose proof (Forall_inv Hi) as Hd. pose proof (digits_value_all 0 (d :: i) Hi) as Hv.
  destruct Hm as [->| ->].
  - change (bget ([] ++ d :: i) 0) with d. assert (d =? 45 = false) as -> by (destruct (Z.eqb_spec d 45) as [->|]; done).
    simpl app. destruct (digits_value 0 (d :: i)) as [v n]. simpl in *. done.
  - change (bget ([45] ++ d :: i) 0) with 45. rewrite Z.eqb_refl. change (drop 1 ([45] ++ d :: i)) with (d :: i).
    destruct (digits_value 0 (d :: i)) as [v n]. cbn [snd] in *. subst n. change ([45] ++ d :: i) with (45 :: d :: i). rewrite !zlen_cons.
    pose proof (zlen_nonneg i). rewrite (proj2 (Z.eqb_neq _ _)) by lia. lia.
Qed.

Section parser.
Context `{!Allocator} (strtod : bytes -> option Z * Z) (strtod_all : forall t, number_text t -> snd (strtod t) = zlen t).

(** The number continues with [c], or it is over without a token. *)
Definition goes_on (l : lex) (n : nat) (t : bytes) (P : bytes -> Prop) (r : option Z) (l' : lex) : Prop :=
  keeps l l' /\ match r with
  | None => good l' /\ (left l' <= n)%nat
  | Some c => got c l' /\ (left l' + (if at_end c then 0 else 1) <= n)%nat /\ exists ds, P ds /\ l_saved l' = t ++ ds ++ saves c
  end.

Lemma unget_goes_on l0 n l c t P : got c l -> l_saved l = t ++ saves c -> keeps l0 l -> (left l + (if at_end c then 0 else 1) <= n)%nat ->
  exists l', lex_unget_unsave l c = Some l' /\ goes_on l0 n t P None l'.
Proof.
  intros G Hs K Hl. destruct (lex_unget_unsave_spec l c t G Hs) as (l' & -> & G' & K' & _ & Le). exists l'. split; [done|].
  split; [by eapply keeps_trans|]. split; [done|]. lia.
Qed.

Lemma scan_int_part_spec l0 n c l m : got c l -> l_saved l = m ++ saves c -> keeps l0 l -> (left l + (if at_end c || l_isdigit c then 0 else 1) <= n)%nat ->
  exists r l', scan_int_part c l = Some (r, l') /\ goes_on l0 n m (fun i => digits i /\ i <> []) r l'.
Proof.
  intros G Hs K Hl. unfold scan_int_part. destruct (Z.eqb_spec c 48) as [->|H0].
  - next_char (got_good _ _ G) c1 l1 G1 K1 S1 Le1 Lt1. change (at_end 48 || l_isdigit 48) with true in Hl. cbn in Hl.
    assert (Hs1 : l_saved l1 = (m ++ [48]) ++ saves c1) by (by rewrite S1, Hs).
    destruct (l_isdigit c1) eqn:Ed.
    + specialize (Lt1 (digit_not_end _ Ed)).
      destruct (unget_goes_on l0 n l1 c1 (m ++ [48]) (fun _ => True) G1 Hs1) as (l' & -> & Hg); [by eapply keeps_trans|rewrite (digit_not_end _ Ed); lia|].
      eexists None, l'. split; [done|]. by destruct Hg.
    + exists (Some c1), l1. split; [done|]. split; [by eapply keeps_trans|]. split; [done|].
      split; [destruct (at_end c1) eqn:Ea; [lia|specialize (Lt1 eq_refl); lia]|]. exists [48]. split; [split; [by repeat constructor|done]|].
      by rewrite Hs1, <- app_assoc.
  - destruct (l_isdigit c) eqn:Ed.
    + rewrite orb_true_r in Hl. destruct (more_digits_spec l (got_good _ _ G)) as (c1 & l1 & ds & -> & G1 & K1 & Le1 & Lt1 & Hd & Hs1 & Hn).
      cbn [mbind option_bind]. exists (Some c1), l1. split; [done|]. split; [by eapply keeps_trans|]. split; [done|].
      split; [destruct (at_end c1) eqn:Ea; [lia|specialize (Lt1 eq_refl); lia]|].
      exists (c :: ds). split; [split; [by constructor|done]|]. rewrite Hs1, Hs. unfold saves at 1. by rewrite (digit_not_end c Ed), <- !app_assoc.
    + rewrite orb_false_r in Hl. destruct (unget_goes_on l0 n l c m (fun i => digits i /\ i <> []) G Hs K Hl) as (l' & -> & Hg). by exists None, l'.
Qed.

Definition fraction (f : bytes) : Prop := f = [] \/ exists ds, f = 46 :: ds /\ digits ds /\ ds <> [].

Definition exponent (e : bytes) : Prop :=
  e = [] \/ exists x sg ds, e = x :: sg ++ ds /\ (x = 69 \/ x = 101) /\ (sg = [] \/ sg = [43] \/ sg = [45]) /\ digits ds /\ ds <> [].

Lemma got_step_left n l c l1 c1 : (left l + (if at_end c then 0 else 1) <= n)%nat -> (left l1 <= left l)%nat ->
  (at_end c1 = false -> (left l1 < left l)%nat) -> (left l1 + (if at_end c1 then 0 else 1) <= n)%nat.
Proof. intros H0 H1 H2. destruct (at_end c1); [lia|specialize (H2 eq_refl); lia]. Qed.

Lemma scan_fraction_spec l0 n c l t : got c l -> l_saved l = t ++ saves c -> keeps l0 l -> (left l + (if at_end c then 0 else 1) <= n)%nat ->
  exists r l', scan_fraction c l = Some (r, l') /\ goes_on l0 n t fraction r l'.
Proof.
  intros G Hs K Hl. unfold scan_fraction. destruct (Z.eqb_spec c 46) as [->|Hn].
  2:{ exists (Some c), l. split; [done|]. split; [done|]. split; [done|]. split; [done|]. exists []. split; [by left|done]. }
  change (at_end 46) with false in Hl. destruct (stream_get_spec l (got_good _ _ G)) as (c1 & l1 & E & G1 & K1 & Le1 & Lt1).
  unfold lex_get. rewrite E. cbn [mbind option_bind]. destruct (kept_keeps _ _ K1) as [Ks1 S1].
  destruct (l_isdigit c1) eqn:Ed; cbn [negb].
  - destruct (more_digits_spec (lex_save l1 c1)) as (c2 & l2 & ds & -> & G2 & K2 & Le2 & Lt2 & Hd & S2 & _);
      [by apply (good_stream l1); [|eapply got_good]|]. cbn [mbind option_bind]. cbn in S2.
    change (left (lex_save l1 c1)) with (left l1) in *.
    exists (Some c2), l2. split; [done|]. split; [eapply keeps_trans; [done|by eapply keeps_trans]|]. split; [done|].
    split; [eapply (got_step_left n l 46); [done|lia|intros Ha; specialize (Lt2 Ha); lia]|].
    exists (46 :: c1 :: ds). split; [right; exists (c1 :: ds); split_and!; [done|by constructor|done]|].
    rewrite S2, S1, Hs. change (saves 46) with [46]. by rewrite <- !app_assoc.
  - destruct (stream_unget_spec l1 c1 G1) as (s & E' & Hg & Ha & Hl'). unfold lex_unget. rewrite E'. cbn [mbind option_bind].
    exists None, (with_stream l1 s). split; [done|]. split; [by eapply keeps_trans|]. split; [done|].
    cbn in Hl. destruct (at_end c1) eqn:Ea; [|specialize (Lt1 eq_refl); lia].
    rewrite (Ha eq_refl). replace (with_stream l1 (l_stream l1)) with l1 by (by destruct l1). lia.
Qed.

Lemma scan_exponent_spec l0 n c l t : got c l -> l_saved l = t ++ saves c -> keeps l0 l -> (left l + (if at_end c then 0 else 1) <= n)%nat ->
  exists r l', scan_exponent c l = Some (r, l') /\ goes_on l0 n t exponent r l'.
Proof.
  intros G Hs K Hl. unfold scan_exponent. destruct ((c =? 69) || (c =? 101)) eqn:Ee.
  2:{ exists (Some c), l. split; [done|]. split; [done|]. split; [done|]. split; [done|]. exists []. split; [by left|done]. }
  assert (Hx : c = 69 \/ c = 101) by (apply orb_true_iff in Ee as [Ee|Ee]; b2p; auto).
  assert (Hc : saves c = [c]) by (by destruct Hx as [-> | ->]).
  next_char (got_good _ _ G) c1 l1 G1 K1 S1 Le1 Lt1. rewrite Hs, Hc in S1.
  assert (Hrest : forall c2 l2 sg, got c2 l2 -> keeps l l2 -> l_saved l2 = (t ++ c :: sg) ++ saves c2 -> (sg = [] \/ sg = [43] \/ sg = [45]) ->
    (left l2 + (if at_end c2 then 0 else 1) <= n)%nat ->
    exists r l', (if negb (l_isdigit c2) then l ← lex_unget_unsave l2 c2; Some (None, l) else '(c, l) ← more_digits l2; Some (Some c, l)) = Some (r, l')
      /\ goes_on l0 n t exponent r l').
  { intros c2 l2 sg G2 K2 S2 Hsg Hl2. destruct (l_isdigit c2) eqn:Ed; cbn [negb].
    - destruct (more_digits_spec l2 (got_good _ _ G2)) as (c3 & l3 & ds & -> & G3 & K3 & Le3 & Lt3 & Hd & S3 & _). cbn [mbind option_bind].
      exists (Some c3), l3. split; [done|]. split; [eapply keeps_trans; [done|by eapply keeps_trans]|]. split; [done|].
      split; [by eapply got_step_left|]. exists (c :: sg ++ c2 :: ds). split.
      { right. exists c, sg, (c2 :: ds). split_and!; try done. by constructor. }
      rewrite S3, S2. unfold saves at 1. rewrite (digit_not_end _ Ed). rewrite <- !app_assoc. simpl. by rewrite <- !app_assoc.
    - destruct (unget_goes_on l0 n l2 c2 (t ++ c :: sg) exponent G2 S2) as (l' & -> & Hk & Hg & Hle); [by eapply keeps_trans|done|].
      exists None, l'. split; [done|]. by split. }
  destruct ((c1 =? 43) || (c1 =? 45)) eqn:Es.
  - assert (H1 : c1 = 43 \/ c1 = 45) by (apply orb_true_iff in Es as [Es|Es]; b2p; auto).
    assert (Hc1 : saves c1 = [c1]) by (by destruct H1 as [-> | ->]).
    next_char (got_good _ _ G1) c2 l2 G2 K2 S2 Le2 Lt2. apply (Hrest c2 l2 [c1]); [done|by eapply keeps_trans| | |].
    + rewrite S2, S1, Hc1, <- !app_assoc. done.
    + destruct H1 as [-> | ->]; auto.
    + eapply (got_step_left n l c); [done|lia|intros Ha; specialize (Lt2 Ha); lia].
  - cbn [mbind option_bind]. apply (Hrest c1 l1 []); [done|done|done|by left|]. by eapply got_step_left.
Qed.

(** The end of a number. *)
Definition number_end (l0 : lex) (n : nat) (l' : lex) : Prop :=
  good l' /\ (left l' <= n)%nat /\ l_flags l' = l_flags l0 /\ l_depth l' = l_depth l0 /\ l_token l' <> TOKEN_STRING.

Lemma number_end_keeps l0 n l : good l -> (left l <= n)%nat -> keeps l0 l -> l_token l0 <> TOKEN_STRING -> number_end l0 n l.
Proof. intros G Hl (F & D & T) Ht. unfold number_end. by rewrite T. Qed.

Lemma scan_real_spec l0 n c l m i : got c l -> l_saved l = m ++ i ++ saves c -> (m = [] \/ m = [45]) -> digits i -> i <> [] ->
  keeps l0 l -> (left l + (if at_end c then 0 else 1) <= n)%nat -> l_token l0 <> TOKEN_STRING ->
  exists l', scan_real strtod c l = Some l' /\ number_end l0 n l'.
Proof.
  intros G Hs Hm Hi Hne K Hl Ht. unfold scan_real. rewrite app_assoc in Hs.
  destruct (scan_fraction_spec l0 n c l _ G Hs K Hl) as (r & l1 & -> & K1 & Hr). cbn [mbind option_bind].
  destruct r as [c1|]; [|exists l1; split; [done|]; destruct Hr; by apply number_end_keeps].
  destruct Hr as (G1 & Hl1 & f & Hf & S1). rewrite app_assoc in S1.
  destruct (scan_exponent_spec l0 n c1 l1 _ G1 S1 K1 Hl1) as (r & l2 & -> & K2 & Hr). cbn [mbind option_bind].
  destruct r as [c2|]; [|exists l2; split; [done|]; destruct Hr; by apply number_end_keeps].
  destruct Hr as (G2 & Hl2 & e & He & S2). rewrite app_assoc in S2.
  destruct (lex_unget_unsave_spec l2 c2 _ G2 S2) as (l3 & -> & G3 & K3 & S3 & Hl3). cbn [mbind option_bind].
  assert (Hn : number_text (l_saved l3)).
  { rewrite S3. exists m, i, f, e. split; [by rewrite <- !app_assoc|]. by split_and!. }
  pose proof (strtod_all _ Hn) as Hall. unfold jsonp_strtod. destruct (strtod (l_saved l3)) as [v k]. simpl in Hall. subst k. rewrite Z.eqb_refl.
  pose proof (keeps_trans _ _ _ K2 K3) as K23. cbn [mbind option_bind]. destruct v as [v|]; (eexists; split; [done|]).
  - destruct K23 as (F & D & T). split; [by apply (good_stream l3)|]. split; [change (left l3 <= n)%nat; lia|by split_and!].
  - apply number_end_keeps; [by apply good_error|rewrite left_error; lia|eapply keeps_trans; [exact K23|apply keeps_error]|done].
Qed.

Lemma scan_digits_spec l0 n m c l : got c l -> l_saved l = m ++ saves c -> (m = [] \/ m = [45]) -> keeps l0 l -> l_token l0 <> TOKEN_STRING ->
  (left l + (if at_end c || l_isdigit c then 0 else 1) <= n)%nat ->
  exists l', ('(r, l) ← scan_int_part c l;
    match r with
    | None => Some l
    | Some c =>
        if negb (flag (l_flags l) JSON_DECODE_INT_AS_REAL) && negb (c =? 46) && negb (c =? 69) && negb (c =? 101) then
          l ← lex_unget_unsave l c;
          let '(intval, n) := json_strtoint (l_saved l) in
          if negb (n =? zlen (l_saved l)) then None else Some (with_integer (with_token l TOKEN_INTEGER) intval)
        else scan_real strtod c l
    end) = Some l' /\ number_end l0 n l'.
Proof.
  intros G Hs Hm K Ht Hl. destruct (scan_int_part_spec l0 n c l m G Hs K Hl) as (r & l2 & -> & K2 & Hr). cbn [mbind option_bind].
  destruct r as [c2|]; [|exists l2; split; [done|]; destruct Hr; by apply number_end_keeps].
  destruct Hr as (G2 & Hl2 & i & [Hi Hne] & S2). destruct (negb _ && _ && _ && _) eqn:Eint; [|by eapply scan_real_spec].
  rewrite app_assoc in S2. destruct (lex_unget_unsave_spec l2 c2 _ G2 S2) as (l3 & -> & G3 & K3 & S3 & Hl3). cbn [mbind option_bind].
  pose proof (strtoint_all m i Hm Hi Hne) as Hall. rewrite S3. destruct (json_strtoint (m ++ i)) as [v k]. simpl in Hall. subst k. rewrite Z.eqb_refl. simpl.
  destruct (keeps_trans _ _ _ K2 K3) as (F & D & T).
  eexists. split; [done|]. split; [by apply (good_stream l3)|]. split; [change (left l3 <= n)%nat; lia|]. by split_and!.
Qed.

Lemma lex_scan_number_spec c l : got c l -> l_saved l = saves c -> c = 45 \/ l_isdigit c = true ->
  exists l', lex_scan_number strtod c l = Some l' /\ number_end l (left l) l'.
Proof.
  intros G Hs Hc. unfold lex_scan_number. set (l0 := with_token l TOKEN_INVALID).
  assert (G0 : got c l0) by (by apply (got_kept c l)).
  destruct (Z.eqb_spec c 45) as [->|Hn].
  - next_char (got_good _ _ G0) c1 l1 G1 K1 S1 Le1 Lt1. apply (scan_digits_spec l0 (left l) [45]); try done; [|by right|].
    + by rewrite S1; cbn; rewrite Hs.
    + change (left l0) with (left l) in *. destruct (at_end c1); cbn; [lia|specialize (Lt1 eq_refl)]. destruct (l_isdigit c1); lia.
  - cbn [mbind option_bind]. apply (scan_digits_spec l0 (left l) []); try done; [by left|]. change (left l0) with (left l). destruct Hc as [->|Hc]; [done|]. rewrite Hc, orb_true_r. lia.
Qed.

(** ** Spaces and words *)

Lemma skip_space_spec fuel l : good l -> (left l < fuel)%nat ->
  exists c l', skip_space fuel l = Some (c, l') /\ got c l' /\ kept l l' /\ (left l' <= left l)%nat
    /\ (at_end c = false -> (left l' < left l)%nat) /\ is_space c = false.
Proof.
  revert l. induction fuel as [|fuel IH]; intros l G Hf; [lia|]. cbn [skip_space]. unfold lex_get.
  destruct (stream_get_spec l G) as (c & l1 & -> & G1 & K1 & Le1 & Lt1). cbn [mbind option_bind]. destruct (is_space c) eqn:Es.
  - assert (Ha : at_end c = false) by (destruct (at_end c) eqn:E; [apply at_end_cases in E as [-> | ->]; done|done]).
    specialize (Lt1 Ha). destruct (IH l1 (got_good _ _ G1) ltac:(lia)) as (c' & l' & -> & G' & K' & Le' & Lt' & Hn).
    exists c', l'. split_and!; try done; [by eapply lex_kept_trans|lia|intros; lia].
  - exists c, l1. by split_and!.
Qed.

Lemma skip_alpha_spec fuel l : good l -> (left l < fuel)%nat ->
  exists c l' t, skip_alpha fuel l = Some (c, l') /\ got c l' /\ keeps l l' /\ (left l' + (if at_end c then 0 else 1) <= left l)%nat
    /\ l_saved l' = t ++ saves c.
Proof.
  revert l. induction fuel as [|fuel IH]; intros l G Hf; [lia|]. cbn [skip_alpha]. next_char G c l1 G1 K1 S1 Le1 Lt1.
  destruct (l_isalpha c) eqn:Ea.
  - assert (Ha : at_end c = false) by (destruct (at_end c) eqn:E; [apply at_end_cases in E as [-> | ->]; done|done]).
    specialize (Lt1 Ha). destruct (IH l1 (got_good _ _ G1) ltac:(lia)) as (c' & l' & t & -> & G' & K' & Le' & Hs).
    exists c', l', t. split_and!; try done; [by eapply keeps_trans|lia].
  - exists c, l1, (l_saved l). split_and!; try done. destruct (at_end c); [lia|specialize (Lt1 eq_refl); lia].
Qed.

Lemma save_cached_spec fuel l : good l -> zlen (s_buffer (l_stream l)) - s_pos (l_stream l) <= Z.of_nat fuel ->
  exists l', save_cached fuel l = Some l' /\ good l' /\ keeps l l' /\ (left l' <= left l)%nat.
Proof.
  revert l. induction fuel as [|fuel IH]; intros l G Hf; cbn [save_cached].
  - destruct (Z.eqb_spec (bget (s_buffer (l_stream l)) (s_pos (l_stream l))) 0) as [_|Hn]; [by exists l|].
    destruct G as [Hp _ _ _ _]. pose proof (bget_pos _ _ Hn ltac:(lia)). lia.
  - case_if; [by exists l|]. destruct G as [Hp Hd Hb Hsh Hst]. pose proof (bget_pos (s_buffer (l_stream l)) (s_pos (l_stream l)) ltac:(done) ltac:(lia)).
    match goal with |- context [save_cached fuel ?x] => destruct (IH x) as (l' & -> & G' & K' & Le') end; [split; cbn; (done || lia)|cbn; lia|].
    exists l'. split_and!; try done. etransitivity; [exact Le'|]. unfold left, unread. cbn. case_if; lia.
Qed.

(** ** [lex_scan] *)

Lemma lex_scan_spec l : good l ->
  exists l', lex_scan strtod l = Some l' /\ scanned l l'
    /\ (l_token l' <> TOKEN_EOF -> l_token l' <> TOKEN_INVALID -> (left l' < left l)%nat).
Proof.
  intros G. unfold lex_scan. cbv zeta.
  set (l0 := if l_token (with_saved l []) =? TOKEN_STRING then lex_free_string (with_saved l []) else with_saved l []).
  assert (G0 : good l0 /\ left l0 = left l /\ l_flags l0 = l_flags l /\ l_depth l0 = l_depth l /\ l_saved l0 = []).
  { unfold l0. case_if; cbn; split_and!; try done; by apply (good_stream l). }
  clearbody l0. destruct G0 as (G0 & EL & EF & ED & ES).
  destruct (skip_space_spec (S (unread (l_stream l0))) l0 G0) as (c & l1 & -> & G1 & K1 & Le1 & Lt1 & _).
  { unfold left. case_if; lia. }
  cbn [mbind option_bind]. destruct (kept_keeps _ _ K1) as [(F1 & D1 & _) S1].
  assert (Htok : forall l2 t, good l2 -> (left l2 <= left l)%nat -> l_flags l2 = l_flags l -> l_depth l2 = l_depth l -> t <> TOKEN_STRING ->
    (t <> TOKEN_EOF -> t <> TOKEN_INVALID -> (left l2 < left l)%nat) ->
    exists l', Some (with_token l2 t) = Some l' /\ scanned l l' /\ (l_token l' <> TOKEN_EOF -> l_token l' <> TOKEN_INVALID -> (left l' < left l)%nat)).
  { intros l2 t G2 L2 F2 D2 Ht Hlt. eexists. split; [done|]. split; [|exact Hlt]. split; cbn; try done. by apply (good_stream l2). }
  destruct (Z.eqb_spec c STREAM_STATE_EOF) as [->|He].
  { apply Htok; try done; [by eapply got_good|lia|congruence..]. }
  destruct (Z.eqb_spec c STREAM_STATE_ERROR) as [->|He'].
  { apply Htok; try done; [by eapply got_good|lia|congruence..]. }
  assert (Ha : at_end c = false) by (destruct (at_end c) eqn:E; [apply at_end_cases in E as [-> | ->]; done|done]). specialize (Lt1 Ha).
  assert (G2 : got c (lex_save l1 c)) by (by apply (got_kept c l1)). assert (L2 : left (lex_save l1 c) = left l1) by done.
  assert (S2 : l_saved (lex_save l1 c) = [c]) by (cbn; by rewrite S1, ES).
  destruct (is_punct c) eqn:Ep.
  { apply (Htok (lex_save l1 c) c); [by eapply got_good|lia|cbn; congruence|cbn; congruence|intros ->; done|intros; lia]. }
  destruct (Z.eqb_spec c 34) as [->|H34].
  { destruct (lex_scan_string_spec _ (got_good _ _ G2) S2) as (l' & -> & [Sg Sl Sf Sd Ss]). exists l'. split; [done|]. cbn in Sf, Sd.
    split; [|intros; lia]. split; try done; [lia|congruence..]. }
  destruct (l_isdigit c || (c =? 45)) eqn:Ed.
  { destruct (lex_scan_number_spec c (lex_save l1 c) G2) as (l' & -> & Ng & Nl & Nf & Nd & Nt);
      [unfold saves; by rewrite Ha|apply orb_true_iff in Ed as [Ed|Ed]; b2p; auto|]. cbn in Nf, Nd.
    exists l'. split; [done|]. split; [split; try done; [lia|congruence..]|intros; lia]. }
  destruct (l_isalpha c) eqn:Eal.
  - destruct (skip_alpha_spec (S (unread (l_stream (lex_save l1 c)))) (lex_save l1 c) (got_good _ _ G2)) as (c' & l3 & t & -> & G3 & (F3 & D3 & _) & L3 & S3).
    { unfold left. case_if; lia. }
    cbn [mbind option_bind]. destruct (lex_unget_unsave_spec l3 c' t G3 S3) as (l4 & -> & G4 & (F4 & D4 & _) & _ & L4). cbn [mbind option_bind].
    cbn in F3, D3. apply Htok; try congruence; try lia. unfold word_token. by repeat case_bool_decide.
  - destruct (save_cached_spec 5 (lex_save l1 c) (got_good _ _ G2)) as (l3 & E & G3 & (F3 & D3 & _) & L3).
    { destruct (got_good _ _ G2) as [Hp _ _ Hsh _]. lia. }
    unfold lex_save_cached. rewrite E. cbn [mbind option_bind]. cbn in F3, D3. apply Htok; try congruence; try lia. done.
Qed.

(** ** The parser *)

(** A failure has an error, or a request for memory failed where it ended. *)
Definition explained (l : lex) : Prop := is_Some (l_error l) \/ exists k, lex_room k l = false.

(** A call of the parser that reads on from [l]: it returns, and a failure is
    explained. *)
Definition parsed (l : lex) (r : option json) (l' : lex) : Prop :=
  good l' /\ (left l' <= left l)%nat /\ (r = None -> explained l') /\ (is_Some r -> l_depth l' = l_depth l).

Lemma no_room k l l0 : lex_room k l = false -> good l -> (left l <= left l0)%nat -> parsed l0 None l.
Proof. intros Hk G Hl. split; [done|]. split; [done|]. split; [intros _; right; by exists k|by intros [? ?]]. Qed.

Lemma error_explained l code : explained (error_set l code).
Proof. left. apply error_set_some. Qed.

Lemma failed l code l0 : good l -> (left l <= left l0)%nat -> parsed l0 None (error_set l code).
Proof. intros G Hl. split; [by apply good_error|]. rewrite left_error. split; [done|]. split; [intros _; apply error_explained|]. by intros [? ?]. Qed.

(** What the loops ask of the recursive call: from a token of their level. *)
Definition reads (depth : Z) (value : lex -> option (option json * lex)) : Prop :=
  forall l, good l -> l_depth l = depth -> (l_token l = TOKEN_STRING -> is_Some (l_string l)) ->
  exists r l', value l = Some (r, l') /\ parsed l r l'.

Ltac scan G l Hs Hlt := destruct (lex_scan_spec _ G) as (l & -> & Hs & Hlt); cbn [mbind option_bind].

Lemma parse_members_spec value fuel flags object l : reads (l_depth l) value -> good l ->
  (l_token l = TOKEN_STRING -> is_Some (l_string l)) -> (left l < fuel)%nat ->
  exists r l', parse_members strtod value fuel flags object l = Some (r, l') /\ parsed l r l'.
Proof.
  revert object l. induction fuel as [|fuel IH]; intros object l HV G Hstr Hf; [lia|]. cbn [parse_members].
  destruct (l_token l =? TOKEN_STRING) eqn:Et; cbn [negb]; [|eexists _, _; split; [done|]; by apply failed]. b2p.
  destruct (Hstr ltac:(done)) as [key ->]. cbn [mbind option_bind].
  assert (G0 : good (with_string l None)) by (by apply (good_stream l)).
  case_if; [eexists _, _; split; [done|]; by apply failed|]. case_if; [eexists _, _; split; [done|]; by apply failed|].
  scan G0 l1 S1 Lt1. destruct S1 as [G1 L1 F1 D1 _]. change (left (with_string l None)) with (left l) in *. cbn in D1.
  destruct (Z.eqb_spec (l_token l1) 58) as [H58|]; cbn [negb]; [|eexists _, _; split; [done|]; by apply failed].
  specialize (Lt1 ltac:(by rewrite H58) ltac:(by rewrite H58)).
  scan G1 l2 S2 Lt2. destruct S2 as [G2 L2 F2 D2 Str2].
  destruct (HV l2 G2 ltac:(congruence) Str2) as (r & l3 & -> & G3 & L3 & Herr & Hd3). cbn [mbind option_bind].
  destruct r as [v|]; [|exists None, l3; split; [done|]; split; [done|]; split; [lia|]; split; [auto|by intros [? ?]]].
  specialize (Hd3 ltac:(by eexists)).
  destruct (lex_room ReqMember l3) eqn:Hroom; cbn [negb]; [|eexists _, _; split; [done|]; apply (no_room ReqMember); [done|done|lia]].
  scan G3 l4 S4 Lt4. destruct S4 as [G4 L4 F4 D4 Str4].
  destruct (Z.eqb_spec (l_token l4) 44) as [H44|].
  - specialize (Lt4 ltac:(by rewrite H44) ltac:(by rewrite H44)). scan G4 l5 S5 Lt5. destruct S5 as [G5 L5 F5 D5 Str5].
    destruct (IH (assoc_set key v object) l5) as (r & l' & -> & G' & L' & He' & Hd'); [|done..|lia|].
    { assert (l_depth l5 = l_depth l) as -> by congruence. done. }
    exists r, l'. split; [done|]. split; [done|]. split; [lia|]. split; [done|]. intros Hr. rewrite (Hd' Hr). congruence.
  - destruct (l_token l4 =? 125); cbn [negb]; [|eexists _, _; split; [done|]; apply failed; [done|lia]].
    eexists _, _. split; [done|]. split; [done|]. split; [lia|]. split; [done|]. intros _. congruence.
Qed.

Lemma parse_elements_spec value fuel array l : reads (l_depth l) value -> good l ->
  (l_token l = TOKEN_STRING -> is_Some (l_string l)) -> (left l < fuel)%nat ->
  exists r l', parse_elements strtod value fuel array l = Some (r, l') /\ parsed l r l'.
Proof.
  revert array l. induction fuel as [|fuel IH]; intros array l HV G Hstr Hf; [lia|]. cbn [parse_elements].
  case_if; [eexists _, _; split; [done|]; by apply failed|].
  destruct (HV l G eq_refl Hstr) as (r & l3 & -> & G3 & L3 & Herr & Hd3). cbn [mbind option_bind].
  destruct r as [v|]; [|exists None, l3; split; [done|]; split; [done|]; split; [lia|]; split; [auto|by intros [? ?]]].
  specialize (Hd3 ltac:(by eexists)).
  destruct (lex_room ReqElement l3) eqn:Hroom; cbn [negb]; [|eexists _, _; split; [done|]; apply (no_room ReqElement); [done|done|lia]].
  scan G3 l4 S4 Lt4. destruct S4 as [G4 L4 F4 D4 Str4].
  destruct (Z.eqb_spec (l_token l4) 44) as [H44|].
  - specialize (Lt4 ltac:(by rewrite H44) ltac:(by rewrite H44)). scan G4 l5 S5 Lt5. destruct S5 as [G5 L5 F5 D5 Str5].
    destruct (IH (array ++ [v]) l5) as (r & l' & -> & G' & L' & He' & Hd'); [|done..|lia|].
    { assert (l_depth l5 = l_depth l) as -> by congruence. done. }
    exists r, l'. split; [done|]. split; [done|]. split; [lia|]. split; [done|]. intros Hr. rewrite (Hd' Hr). congruence.
  - destruct (l_token l4 =? 93); cbn [negb]; [|eexists _, _; split; [done|]; apply failed; [done|lia]].
    eexists _, _. split; [done|]. split; [done|]. split; [lia|]. split; [done|]. intros _. congruence.
Qed.

Lemma unread_left l : (left l < S (unread (l_stream l)))%nat.
Proof. unfold left. case_if; lia. Qed.

Lemma parse_object_spec value flags l : reads (l_depth l) value -> good l ->
  exists r l', parse_object strtod value flags l = Some (r, l') /\ parsed l r l'.
Proof.
  intros HV G. unfold parse_object.
  destruct (lex_room ReqObject l) eqn:Hroom; cbn [negb]; [|eexists _, _; split; [done|]; by apply (no_room ReqObject)]. scan G l1 S1 Lt1. destruct S1 as [G1 L1 F1 D1 Str1].
  case_if; [eexists _, _; split; [done|]; by split_and!|].
  destruct (parse_members_spec value (S (unread (l_stream l))) flags [] l1) as (r & l' & -> & G' & L' & He & Hd);
    [by rewrite D1|done|done|pose proof (unread_left l); lia|].
  exists r, l'. split; [done|]. split; [done|]. split; [lia|]. split; [done|]. intros Hr. by rewrite (Hd Hr).
Qed.

Lemma parse_array_spec value l : reads (l_depth l) value -> good l ->
  exists r l', parse_array strtod value l = Some (r, l') /\ parsed l r l'.
Proof.
  intros HV G. unfold parse_array.
  destruct (lex_room ReqArray l) eqn:Hroom; cbn [negb]; [|eexists _, _; split; [done|]; by apply (no_room ReqArray)]. scan G l1 S1 Lt1. destruct S1 as [G1 L1 F1 D1 Str1].
  case_if; [eexists _, _; split; [done|]; by split_and!|].
  destruct (parse_elements_spec value (S (unread (l_stream l))) [] l1) as (r & l' & -> & G' & L' & He & Hd);
    [by rewrite D1|done|done|pose proof (unread_left l); lia|].
  exists r, l'. split; [done|]. split; [done|]. split; [lia|]. split; [done|]. intros Hr. by rewrite (Hd Hr).
Qed.

Lemma parse_scalar_spec flags l : good l -> (l_token l = TOKEN_STRING -> is_Some (l_string l)) ->
  exists r l', parse_scalar flags l = Some (r, l') /\ parsed l r l'.
Proof.
  intros G Hstr. unfold parse_scalar. destruct (Z.eqb_spec (l_token l) TOKEN_STRING) as [E|_].
  - destruct (Hstr E) as [v ->]. cbn [mbind option_bind]. case_if; (eexists _, _; split; [done|]); [by apply failed|].
    assert (Gs : good (with_string l None)) by (by apply (good_stream l)).
    destruct (lex_room ReqString l) eqn:Hroom; [by split_and!|]. by apply (no_room ReqString).
  - case_if; [|case_if]; [destruct (lex_room ReqInteger l) eqn:Hroom|destruct (lex_room ReqReal l) eqn:Hroom|repeat case_if];
      (eexists _, _; split; [done|]); try (by apply failed); try (by split_and!); by eapply no_room.
Qed.

Lemma parse_value_spec fuel flags depth : depth <= JSON_PARSER_MAX_DEPTH < depth + Z.of_nat fuel -> reads depth (parse_value strtod fuel flags).
Proof.
  revert depth. induction fuel as [|fuel IH]; intros depth Hf l G Hd Hstr; cbn [parse_value].
  - lia.
  - set (l0 := with_depth l (l_depth l + 1)). assert (G0 : good l0) by (by apply (good_stream l)).
    assert (Ed : l_depth l0 = depth + 1) by (cbn; lia). case_if; [eexists _, _; split; [done|]; by apply failed|].
    specialize (IH (depth + 1) ltac:(lia)). rewrite <- Ed in IH.
    assert (Hend : forall r l1, parsed l0 r l1 -> exists r' l', match (r, l1) with (None, l) => Some (None, l) | (Some j, l) => Some (Some j, with_depth l (l_depth l - 1)) end = Some (r', l') /\ parsed l r' l').
    { intros r l1 (G1 & L1 & He & Hd1). destruct r as [j|]; (eexists _, _; split; [done|]).
      - split; [by apply (good_stream l1)|]. split; [exact L1|]. split; [done|]. intros _. cbn. rewrite (Hd1 ltac:(by eexists)). cbn. lia.
      - split; [done|]. split; [exact L1|]. split; [auto|]. by intros [? ?]. }
    case_if; [|case_if].
    + destruct (parse_object_spec _ flags l0 IH G0) as (r & l1 & -> & Hp). cbn [mbind option_bind]. by apply Hend.
    + destruct (parse_array_spec _ l0 IH G0) as (r & l1 & -> & Hp). cbn [mbind option_bind]. by apply Hend.
    + destruct (parse_scalar_spec flags l0 G0 Hstr) as (r & l1 & -> & Hp). cbn [mbind option_bind]. by apply Hend.
Qed.

Lemma parse_json_spec flags l : good l -> l_depth l = 0 -> exists r l', parse_json strtod flags l = Some (r, l') /\ (r = None -> explained l').
Proof.
  intros G Hd. unfold parse_json. assert (G0 : good (with_depth l 0)) by (by apply (good_stream l)).
  scan G0 l1 S1 Lt1. destruct S1 as [G1 L1 F1 D1 Str1]. cbn in D1.
  case_if; [eexists _, _; split; [done|]; intros _; apply error_explained|].
  destruct (parse_value_spec PARSER_FUEL flags 0) with (l := l1) as (r & l2 & -> & G2 & L2 & He & Hd2); [done| |done|done|].
  { done. }
  cbn [mbind option_bind]. destruct r as [j|]; [|eexists _, _; split; [done|]; auto].
  case_if; [by eexists _, _|]. scan G2 l3 S3 Lt3. case_if; [eexists _, _; split; [done|]; intros _; apply error_explained|by eexists _, _].
Qed.

End parser.

(** C10: the parser returns on every input, of any bytes and with any flags, and
    whichever of its requests for memory fail: no assertion of it is reached, it
    stays within its buffers, and when it returns no value it has set the error,
    unless a request for memory failed at the position it reached.  [strtod] is
    taken to consume a whole number of the grammar, and the growth of the buffer
    of the text of a token, whose failure the code does not notice, to succeed. *)
Theorem json_load_total `{!Allocator} strtod is_string input flags :
  (forall t, number_text t -> snd (strtod t) = zlen t) -> is_bytes input ->
  exists r e pos, json_load strtod is_string input flags = Some (r, e, pos) /\ (r = None -> is_Some e \/ exists k, room k pos = false).
Proof.
  intros Hs Hi. unfold json_load. destruct (room ReqBuffer 0) eqn:Hroom; cbn [negb].
  2:{ exists None, None, 0. split; [done|]. intros _. right. by exists ReqBuffer. }
  assert (G : good (lex_init is_string input flags)) by (split; cbn; [by cbv|done|constructor|by cbv|by left]).
  destruct (parse_json_spec strtod Hs flags _ G eq_refl) as (r & l' & -> & He). cbn [mbind option_bind].
  exists r, (l_error l'), (s_position (l_stream l')). done.
Qed.

(** A [strtod] that takes every text for zero. *)
Definition zero_strtod (t : bytes) : option Z * Z := (Some 0, zlen t).

(** Memory for everything, and for everything but the second member. *)
Definition plenty : Allocator := fun _ _ => true.
Definition second_fails : Allocator := fun k p => match k with ReqElement => p <? 4 | _ => true end.

Lemma json_load_total_witness :
  is_bytes [91; 45; 49; 46; 53; 101; 43; 55; 44; 34; 92; 117; 100; 56; 51; 100; 34]
  /\ exists r e pos, @json_load second_fails zero_strtod true [91; 45; 49; 46; 53; 101; 43; 55; 44; 34; 92; 117; 100; 56; 51; 100; 34] 0 = Some (r, e, pos)
     /\ (r = None -> is_Some e \/ exists k, second_fails k pos = false).
Proof.
  assert (is_bytes [91; 45; 49; 46; 53; 101; 43; 55; 44; 34; 92; 117; 100; 56; 51; 100; 34]) as Hb by (repeat constructor; lia).
  split; [exact Hb|]. apply (@json_load_total second_fails); [intros t _; reflexivity|exact Hb].
Defined.

(** When memory runs out there is neither a value nor an error. *)
Example no_error_without_memory : @json_loads second_fails zero_strtod (str "[1,2]") 0 = Some (None, None, 4).
Proof. by vm_compute. Qed.

(** ** Numbers and bytes that are let through *)

(** The test for a number that does not fit is compiled out: such a number
    becomes the nearest one that does. *)
Theorem big_integer_clamped : @json_loads plenty zero_strtod (str "[4294967296]") 0 = Some (Some (JArray [JInteger 2147483647]), None, 12).
Proof. by vm_compute. Qed.

(** [json_loadb] skips a NUL byte behind a number: giving it back moves the
    stream to a place that looks empty. *)
Theorem nul_after_number : @json_loadb plenty zero_strtod [91; 49; 0; 93] 0 = Some (Some (JArray [JInteger 1]), None, 3)
  /\ @json_loadb plenty zero_strtod [91; 0; 49; 93] 0 = Some (None, Some (JsonError 1 2 2 json_error_premature_end_of_input), 2).
Proof. by vm_compute. Qed.
