(* ===== verification/JsonDump.v ===== *)
(** * The JSON printer (components/json/jansson/src/dump.c, strconv.c, utf.c)

    [do_dump] writes to a callback that cannot fail here (the allocations
    succeed), so that a run is its return code and what it wrote.  A value is
    a tree: the loop check, which looks for a container among its parents by
    its address, finds nothing.  [snprintf] of a double is a parameter. *)

From S2P Require Import Prelude BasicJson Jansson JsonLoad.

(** ** Flags *)

Definition JSON_COMPACT : Z := 0x20.
Definition JSON_ENSURE_ASCII : Z := 0x40.
Definition JSON_SORT_KEYS : Z := 0x80.
Definition JSON_ENCODE_ANY : Z := 0x200.
Definition JSON_ESCAPE_SLASH : Z := 0x400.
Definition JSON_EMBED : Z := 0x10000.
Definition JSON_INDENT (n : Z) : Z := Z.land n 0x1F.

Definition FLAGS_TO_INDENT (f : Z) : Z := Z.land f 0x1F.
Definition FLAGS_TO_PRECISION (f : Z) : Z := Z.land (Z.shiftr f 11) 0x1F.

(** ** Strings *)

(** [utf8_iterate] of a buffer that is not empty: the code point and its length. *)
Definition utf8_codepoint (buffer : bytes) : Z :=
  let u := bget buffer 0 in
  let first := if zlen buffer =? 2 then Z.land u 31 else if zlen buffer =? 3 then Z.land u 15 else Z.land u 7 in
  match utf8_continue first (drop 1 buffer) with Some v => v | None => 0 end.

Definition utf8_iterate (buffer : bytes) : option (Z * Z) :=
  let count := utf8_check_first (bget buffer 0) in
  if count <=? 0 then None
  else if count =? 1 then Some (bget buffer 0, 1)
  else
    let seq := take (Z.to_nat count) buffer in
    if (zlen buffer <? count) || negb (utf8_check_full seq) then None
    else Some (utf8_codepoint seq, count).

Definition hex_char (d : Z) : Z := if d <? 10 then 48 + d else 55 + d.

(** [snprintf] of "\\u%04X", for a value below 0x10000. *)
Definition u_escape (v : Z) : bytes :=
  [92; 117; hex_char (Z.land (Z.shiftr v 12) 15); hex_char (Z.land (Z.shiftr v 8) 15);
   hex_char (Z.land (Z.shiftr v 4) 15); hex_char (Z.land v 15)].

Definition escape_text (codepoint : Z) : bytes :=
  if codepoint =? 92 then [92; 92]
  else if codepoint =? 34 then [92; 34]
  else if codepoint =? 8 then [92; 98]
  else if codepoint =? 12 then [92; 102]
  else if codepoint =? 10 then [92; 110]
  else if codepoint =? 13 then [92; 114]
  else if codepoint =? 9 then [92; 116]
  else if codepoint =? 47 then [92; 47]
  else if codepoint <? 0x10000 then u_escape codepoint
  else
    let codepoint := codepoint - 0x10000 in
    let first := Z.lor 0xD800 (Z.shiftr (Z.land codepoint 0xffc00) 10) in
    let last := Z.lor 0xDC00 (Z.land codepoint 0x3ff) in
    u_escape first ++ u_escape last.

Definition must_escape (flags codepoint : Z) : bool :=
  (codepoint =? 92) || (codepoint =? 34) || (codepoint <? 0x20)
  || (flag flags JSON_ESCAPE_SLASH && (codepoint =? 47))
  || (flag flags JSON_ENSURE_ASCII && (0x7F <? codepoint)).

(** What a function returned and what it wrote. *)
Abbreviation written := (Z * bytes)%type.

(** The two loops: [seg] is the text from [str] to [pos], [rest] the text from
    [pos] to [lim]. *)
Fixpoint dump_chars (fuel : nat) (flags : Z) (seg rest : bytes) : written :=
  match rest with
  | [] => (0, seg ++ [34])
  | _ =>
      match fuel with
      | O => (-1, [])
      | S fuel =>
          match utf8_iterate rest with
          | None => (-1, [])
          | Some (codepoint, count) =>
              let rest' := drop (Z.to_nat count) rest in
              if must_escape flags codepoint then
                let '(rc, out) := dump_chars fuel flags [] rest' in
                (rc, seg ++ escape_text codepoint ++ out)
              else dump_chars fuel flags (seg ++ take (Z.to_nat count) rest) rest'
          end
      end
  end.

Definition dump_string (str : bytes) (flags : Z) : written :=
  let '(rc, out) := dump_chars (length str) flags [] str in (rc, 34 :: out).

(** ** Layout *)

(** The spaces of an indentation, at most 32 at a time. *)
Fixpoint dump_spaces (fuel : nat) (n_spaces : Z) : bytes :=
  match fuel with
  | O => []
  | S fuel =>
      if 0 <? n_spaces then
        let cur_n := if n_spaces <? 32 then n_spaces else 32 in
        replicate (Z.to_nat cur_n) 32 ++ dump_spaces fuel (n_spaces - cur_n)
      else []
  end.

Definition dump_indent (flags depth : Z) (space : bool) : bytes :=
  if 0 <? FLAGS_TO_INDENT flags then
    let n_spaces := u32 (depth * FLAGS_TO_INDENT flags) in
    10 :: dump_spaces (S (Z.to_nat n_spaces)) n_spaces
  else if space && negb (flag flags JSON_COMPACT) then [32]
  else [].

(** ** Numbers *)

Fixpoint dec_digits (fuel : nat) (v : Z) : bytes :=
  match fuel with
  | O => []
  | S fuel => (if v <? 10 then [] else dec_digits fuel (v / 10)) ++ [48 + v mod 10]
  end.

(** [snprintf] of "%ld", for a 32-bit value. *)
Definition print_ld (v : Z) : bytes := if v <? 0 then 45 :: dec_digits 10 (- v) else dec_digits 10 v.

(** [strcmp] of two keys, the order of [JSON_SORT_KEYS]. *)
Fixpoint strcmp (a b : bytes) : comparison :=
  match a with
  | [] => match b with [] => Eq | _ :: _ => Lt end
  | x :: a' =>
      match b with
      | [] => Gt
      | y :: b' => if x =? y then strcmp a' b' else if x <? y then Lt else Gt
      end
  end.

Fixpoint insert_key (k : bytes) (ks : list bytes) : list bytes :=
  match ks with
  | [] => [k]
  | k' :: ks' => match strcmp k k' with Gt => k' :: insert_key k ks' | _ => k :: ks end
  end.

(** [qsort] of the keys, which differ from each other. *)
Definition sort_keys (ks : list bytes) : list bytes := foldr insert_key [] ks.

(** The members in the order in which they are written; a key that is not
    found again would make the loop hang, and cannot occur. *)
Definition dump_order (flags : Z) (ms : list (bytes * json)) : list (bytes * json) :=
  if flag flags JSON_SORT_KEYS then
    omap (fun k => (fun v => (k, v)) <$> assoc_get k ms) (sort_keys ms.*1)
  else ms.

(** ** Values *)

Section dump.
(** [snprintf] of "%.*g" for a precision and the bits of a double. *)
Context (print_g : Z -> Z -> bytes).

Fixpoint index_of_byte (c : Z) (s : bytes) : option nat :=
  match s with
  | [] => None
  | b :: s => if b =? c then Some O else S <$> index_of_byte c s
  end.

Fixpoint skip_zeros (s : bytes) : bytes := match s with 48 :: s => skip_zeros s | _ => s end.

Definition jsonp_dtostr (size value precision : Z) : option bytes :=
  let precision := if precision =? 0 then 17 else precision in
  let buffer := print_g precision value in
  if size <=? zlen buffer then None else
  r ← (match index_of_byte 46 buffer, index_of_byte 101 buffer with
       | None, None => if size <=? zlen buffer + 3 then None else Some (buffer ++ [46; 48])
       | _, _ => Some buffer
       end);
  Some (match index_of_byte 101 r with
        | None => r
        | Some i =>
            let e := drop (S i) r in
            let minus := bget e 0 =? 45 in
            take (S i) r ++ (if minus then [45] else []) ++ skip_zeros (drop 1 e)
        end).

Definition MAX_REAL_STR_LENGTH : Z := 100.

(** The members or elements: each with its separators and the indentation
    behind it. *)
Definition separated (flags depth : Z) (last : bool) : bytes :=
  if last then dump_indent flags depth false else 44 :: dump_indent flags (depth + 1) true.

Definition is_nil {A} (l : list A) : bool := match l with [] => true | _ => false end.

(** The loop over an array; [dump] is the recursive call. *)
Fixpoint dump_elements (dump : json -> written) (flags depth : Z) (l : list json) : written :=
  match l with
  | [] => (0, [])
  | v :: l =>
      let '(rc, out) := dump v in
      if negb (rc =? 0) then (-1, out) else
      let '(rc, rest) := dump_elements dump flags depth l in
      (rc, out ++ separated flags depth (is_nil l) ++ rest)
  end.

(** The loop over an object; the result for a key is not looked at. *)
Fixpoint dump_members (dump : json -> written) (flags depth : Z) (l : list (bytes * json)) : written :=
  match l with
  | [] => (0, [])
  | (k, v) :: l =>
      let '(_, key) := dump_string k flags in
      let separator := if flag flags JSON_COMPACT then [58] else [58; 32] in
      let '(rc, out) := dump v in
      if negb (rc =? 0) then (-1, key ++ separator ++ out) else
      let '(rc, rest) := dump_members dump flags depth l in
      (rc, key ++ separator ++ out ++ separated flags depth (is_nil l) ++ rest)
  end.

Fixpoint do_dump (fuel : nat) (j : json) (flags depth : Z) : written :=
  match fuel with
  | O => (-1, [])
  | S fuel =>
      let embed := flag flags JSON_EMBED in
      let flags := if embed then flags - JSON_EMBED else flags in
      let opened c := if embed then [] else [c] in
      let dump v := do_dump fuel v flags (depth + 1) in
      match j with
      | JNull => (0, [110; 117; 108; 108])
      | JTrue => (0, [116; 114; 117; 101])
      | JFalse => (0, [102; 97; 108; 115; 101])
      | JInteger v => (0, print_ld v)
      | JReal v =>
          match jsonp_dtostr MAX_REAL_STR_LENGTH v (FLAGS_TO_PRECISION flags) with
          | None => (-1, [])
          | Some s => (0, s)
          end
      | JString s => dump_string s flags
      | JArray l =>
          if is_nil l then (0, opened 91 ++ opened 93) else
          let '(rc, out) := dump_elements dump flags depth l in
          (rc, opened 91 ++ dump_indent flags (depth + 1) false ++ out ++ (if rc =? 0 then opened 93 else []))
      | JObject ms =>
          if is_nil ms then (0, opened 123 ++ opened 125) else
          let '(rc, out) := dump_members dump flags depth (dump_order flags ms) in
          (rc, opened 123 ++ dump_indent flags (depth + 1) false ++ out ++ (if rc =? 0 then opened 125 else []))
      end
  end.

(** The nesting of a value, which bounds the recursion. *)
Fixpoint height (j : json) : nat :=
  match j with
  | JArray l => S (foldr (fun v n => Nat.max (height v) n) O l)
  | JObject ms => S (foldr (fun kv n => Nat.max (height kv.2) n) O ms)
  | _ => 1
  end.

(** The text, or [NULL]. *)
Definition json_dumps (j : json) (flags : Z) : option bytes :=
  let container := match j with JArray _ | JObject _ => true | _ => false end in
  if negb (flag flags JSON_ENCODE_ANY) && negb container then None else
  let '(rc, out) := do_dump (height j) j flags 0 in
  if rc =? 0 then Some (cstr out) else None.

End dump.
