(* ===== verification/JsonText.v ===== *)
(** * The text of a JSON string

    A valid UTF-8 text is a sequence of characters; what the printer writes
    for a character is one of the pieces the scanner lets through, and the
    second pass of the scanner turns the piece back into the bytes of the
    character. *)

From S2P Require Import Prelude BasicJson Jansson JsonLoad JsonLoadProps JsonDump.

(** ** Characters *)

(** The bytes of a character and its code point. *)
Definition uchar (q : bytes) (cp : Z) : Prop :=
  (exists c, q = [c] /\ 0 <= c < 128 /\ cp = c)
  \/ (utf8_check_first (bget q 0) = zlen q /\ 2 <= zlen q /\ utf8_check_full q = true /\ cp = utf8_codepoint q).

Definition text (qs : list (bytes * Z)) : bytes := mjoin qs.*1.

Lemma text_cons q cp qs : text ((q, cp) :: qs) = q ++ text qs.
Proof. done. Qed.

Lemma utf8_check_first_one c : utf8_check_first c = 1 -> c < 128.
Proof. unfold utf8_check_first. repeat case_if; lia. Qed.

Lemma utf8_skip n s : utf8_check_from n s = utf8_check_from 0 (drop n s).
Proof. revert s. induction n as [|n IH]; intros [|c s]; try done. simpl. apply IH. Qed.

(** A text that passes the check is a sequence of characters. *)
Lemma utf8_chars s : is_bytes s -> utf8_check_string s = true -> exists qs, s = text qs /\ Forall (fun p => uchar p.1 p.2) qs.
Proof.
  unfold utf8_check_string. remember (length s) as n eqn:Hn. revert s Hn. induction n as [n IH] using lt_wf_ind.
  intros s -> Hb. destruct s as [|u s]; [by exists []|]. cbn [utf8_check_from]. set (count := utf8_check_first u).
  pose proof (utf8_check_first_range u) as Hr. fold count in Hr. case_if; [done|]. pose proof (Forall_inv Hb) as Hu. pose proof (Forall_inv_tail Hb) as Hs.
  unfold is_byte in Hu. case_if.
  - case_if; [done|]. intros [Hfull Hrest]%andb_prop. rewrite utf8_skip in Hrest.
    set (q := take (Z.to_nat count) (u :: s)) in *. replace (drop (Z.to_nat (count - 1)) s) with (drop (Z.to_nat count) (u :: s)) in Hrest
      by (by replace (Z.to_nat count) with (S (Z.to_nat (count - 1))) by lia).
    destruct (IH (length (drop (Z.to_nat count) (u :: s)))) with (s := drop (Z.to_nat count) (u :: s)) as (qs & Eqs & Hqs);
      [rewrite length_drop; simpl; lia|done|by apply Forall_drop|done|].
    assert (Hq : zlen q = count) by (unfold q; apply zlen_take; lia).
    exists ((q, utf8_codepoint q) :: qs). split; [rewrite text_cons, <- Eqs; symmetry; apply take_drop|].
    constructor; [|done]. right. cbn [fst snd]. split_and!; [|lia|done|done].
    rewrite Hq. unfold q. by replace (Z.to_nat count) with (S (Z.to_nat (count - 1))) by lia.
  - intros Hrest. destruct (IH (length s)) with (s := s) as (qs & -> & Hqs); [simpl; lia|done|done|done|].
    exists (([u], u) :: qs). split; [done|]. constructor; [|done]. left. exists u. split; [done|]. split; [|done].
    split; [lia|]. apply utf8_check_first_one. lia.
Qed.

Lemma utf8_iterate_char q cp rest : uchar q cp -> utf8_iterate (q ++ rest) = Some (cp, zlen q).
Proof.
  intros [(c & -> & Hc & ->)|(Hf & H2 & Hfull & ->)].
  - unfold utf8_iterate. change (bget ([c] ++ rest) 0) with c. assert (utf8_check_first c = 1) as -> by (unfold utf8_check_first; case_if; lia). done.
  - unfold utf8_iterate. assert (bget (q ++ rest) 0 = bget q 0) as -> by (destruct q; [rewrite zlen_nil in H2; lia|done]).
    rewrite Hf, (proj2 (Z.leb_gt _ _)), (proj2 (Z.eqb_neq _ _)) by lia.
    rewrite take_app_length' by (unfold zlen; lia). rewrite zlen_app, (proj2 (Z.ltb_ge _ _)), Hfull by (pose proof (zlen_nonneg rest); lia). done.
Qed.

(** What the printer writes for a character. *)
Definition shown (flags : Z) (p : bytes * Z) : bytes := if must_escape flags p.2 then escape_text p.2 else p.1.

Lemma dump_chars_text flags qs fuel seg :
  Forall (fun p => uchar p.1 p.2) qs -> (length (text qs) <= fuel)%nat ->
  dump_chars fuel flags seg (text qs) = (0, seg ++ mjoin (shown flags <$> qs) ++ [34]).
Proof.
  intros Hq. revert fuel seg. induction Hq as [|[q cp] qs Hc Hq IH]; intros fuel seg Hf; [by destruct fuel|].
  rewrite text_cons in *. simpl in Hc. assert (Hne : q <> []).
  { intros ->. destruct Hc as [(c & ? & _)|(_ & H2 & _)]; [done|]. by rewrite zlen_nil in H2. }
  rewrite length_app in Hf. destruct fuel as [|fuel]; [destruct q; simpl in Hf; [done|lia]|].
  destruct (q ++ text qs) as [|x xs] eqn:Ex; [by destruct q|]. cbn [dump_chars]. rewrite <- Ex, utf8_iterate_char with (cp := cp) by done.
  rewrite drop_app_length', take_app_length' by (unfold zlen; lia).
  assert (Hl : (length (text qs) <= fuel)%nat) by (destruct q; [done|]; simpl in Hf; lia).
  cbn [fmap list_fmap mjoin]. unfold shown at 1. cbn [snd fst]. destruct (must_escape flags cp).
  - rewrite IH by done. f_equal. simpl. by rewrite <- !app_assoc.
  - rewrite IH by done. f_equal. simpl. by rewrite <- !app_assoc.
Qed.

Lemma dump_string_text flags qs : Forall (fun p => uchar p.1 p.2) qs ->
  dump_string (text qs) flags = (0, 34 :: mjoin (shown flags <$> qs) ++ [34]).
Proof. intros Hq. unfold dump_string. by rewrite dump_chars_text. Qed.

(** ** Code points *)

Lemma land_low x : Z.land x 63 = x mod 64 /\ Z.land x 31 = x mod 32 /\ Z.land x 15 = x mod 16 /\ Z.land x 7 = x mod 8.
Proof. repeat split; [apply (Z.land_ones x 6)|apply (Z.land_ones x 5)|apply (Z.land_ones x 4)|apply (Z.land_ones x 3)]; lia. Qed.

Lemma utf8_continue_cons v c cs : utf8_continue v (c :: cs) = if (c <? 128) || (191 <? c) then None else utf8_continue (v * 64 + (c - 128)) cs.
Proof.
  cbn [utf8_continue]. case_if; [done|]. rewrite Z.shiftl_mul_pow2 by lia. destruct (land_low c) as (-> & _). change (2 ^ 6) with 64.
  f_equal. Z.div_mod_to_equations. lia.
Qed.

Lemma continue_one v cs w n : utf8_continue v cs = Some w -> length cs = n ->
  match n with
  | O => cs = [] /\ w = v
  | S n => exists b cs', cs = (128 + b) :: cs' /\ 0 <= b < 64 /\ utf8_continue (v * 64 + b) cs' = Some w /\ length cs' = n
  end.
Proof.
  intros Hw <-. destruct cs as [|c cs]; [by injection Hw as ->|]. rewrite utf8_continue_cons in Hw.
  destruct ((c <? 128) || (191 <? c)) eqn:Ec; [done|]. b2p.
  exists (c - 128), cs. split; [f_equal; lia|]. split; [lia|]. done.
Qed.

(** The shapes of a character. *)
Inductive shape : bytes -> Z -> Prop :=
  | shape1 c : 0 <= c < 128 -> shape [c] c
  | shape2 a b : 0 <= a < 32 -> 0 <= b < 64 -> 0x80 <= a * 64 + b -> shape [0xC0 + a; 0x80 + b] (a * 64 + b)
  | shape3 a b c : 0 <= a < 16 -> 0 <= b < 64 -> 0 <= c < 64 -> 0x800 <= (a * 64 + b) * 64 + c ->
      ~ (0xD800 <= (a * 64 + b) * 64 + c <= 0xDFFF) -> shape [0xE0 + a; 0x80 + b; 0x80 + c] ((a * 64 + b) * 64 + c)
  | shape4 a b c d : 0 <= a < 8 -> 0 <= b < 64 -> 0 <= c < 64 -> 0 <= d < 64 ->
      0x10000 <= ((a * 64 + b) * 64 + c) * 64 + d <= 0x10FFFF ->
      shape [0xF0 + a; 0x80 + b; 0x80 + c; 0x80 + d] (((a * 64 + b) * 64 + c) * 64 + d).

Lemma uchar_shape q cp : uchar q cp -> shape q cp.
Proof.
  intros [(c & -> & Hc & ->)|(Hf & H2 & Hfull & ->)]; [by constructor|].
  destruct q as [|u cs]; [by rewrite zlen_nil in H2|]. change (bget (u :: cs) 0) with u in Hf.
  unfold utf8_codepoint. change (bget (u :: cs) 0) with u. change (drop 1 (u :: cs)) with cs.
  unfold utf8_check_full in Hfull. rewrite zlen_cons in *. destruct (land_low u) as (_ & E31 & E15 & E7). rewrite E31, E15, E7 in *.
  assert (Hn : zlen cs = 1 /\ 194 <= u <= 223 \/ zlen cs = 2 /\ 224 <= u <= 239 \/ zlen cs = 3 /\ 240 <= u <= 244).
  { unfold utf8_check_first in Hf. revert Hf. repeat case_if; intros; lia. }
  destruct Hn as [[Hn Hu]|[[Hn Hu]|[Hn Hu]]]; rewrite Hn in *;
    repeat match goal with
    | |- context [?x + 1 =? ?y] => let v := eval vm_compute in (x + 1 =? y) in change (x + 1 =? y) with v
    | H : context [?x + 1 =? ?y] |- _ => let v := eval vm_compute in (x + 1 =? y) in change (x + 1 =? y) with v in H
    end; cbn iota in *; cbn [andb orb] in *.
  - destruct (utf8_continue (u mod 32) cs) as [w|] eqn:Ew; [|done].
    destruct (continue_one _ _ _ 1 Ew ltac:(unfold zlen in Hn; lia)) as (b & cs1 & -> & Hb & Ew1 & Hl1).
    destruct (continue_one _ _ _ 0 Ew1 Hl1) as [-> ->].
    replace u with (0xC0 + u mod 32) at 1 by (Z.div_mod_to_equations; lia).
    constructor; [Z.div_mod_to_equations; lia|done|]. Z.div_mod_to_equations; lia.
  - destruct (utf8_continue (u mod 16) cs) as [w|] eqn:Ew; [|done].
    destruct (continue_one _ _ _ 2 Ew ltac:(unfold zlen in Hn; lia)) as (b & cs1 & -> & Hb & Ew1 & Hl1).
    destruct (continue_one _ _ _ 1 Ew1 Hl1) as (c & cs2 & -> & Hc & Ew2 & Hl2).
    destruct (continue_one _ _ _ 0 Ew2 Hl2) as [-> ->].
    replace u with (0xE0 + u mod 16) at 1 by (Z.div_mod_to_equations; lia).
    rewrite !andb_true_iff, !negb_true_iff, andb_false_iff, orb_false_iff, !Z.ltb_ge, !Z.leb_gt in Hfull.
    constructor; try done; [Z.div_mod_to_equations; lia|lia|lia].
  - destruct (utf8_continue (u mod 8) cs) as [w|] eqn:Ew; [|done].
    destruct (continue_one _ _ _ 3 Ew ltac:(unfold zlen in Hn; lia)) as (b & cs1 & -> & Hb & Ew1 & Hl1).
    destruct (continue_one _ _ _ 2 Ew1 Hl1) as (c & cs2 & -> & Hc & Ew2 & Hl2).
    destruct (continue_one _ _ _ 1 Ew2 Hl2) as (d & cs3 & -> & Hd & Ew3 & Hl3).
    destruct (continue_one _ _ _ 0 Ew3 Hl3) as [-> ->].
    replace u with (0xF0 + u mod 8) at 1 by (Z.div_mod_to_equations; lia).
    rewrite !andb_true_iff, !negb_true_iff, andb_false_iff, ?orb_false_iff, !Z.ltb_ge, !Z.leb_gt in Hfull.
    constructor; try done; [Z.div_mod_to_equations; lia|lia].
Qed.

Lemma shape_range q cp : shape q cp -> 0 <= cp <= 0x10FFFF /\ ~ (0xD800 <= cp <= 0xDFFF).
Proof. destruct 1; lia. Qed.

(** The bits [k .. k + n) of a number. *)
Lemma bits_of x m k n : m = Z.shiftl (Z.ones n) k -> 0 <= k -> 0 <= n -> Z.shiftr (Z.land x m) k = x / 2 ^ k mod 2 ^ n.
Proof.
  intros -> Hk Hn. rewrite Z.shiftr_land, Z.shiftr_shiftl_l, Z.sub_diag, Z.shiftl_0_r by lia. rewrite Z.land_ones, Z.shiftr_div_pow2 by lia. done.
Qed.

(** Encoding a code point gives its bytes back. *)
Lemma utf8_encode_shape q cp : shape q cp -> utf8_encode cp = Some q.
Proof.
  intros Hs. pose proof (shape_range q cp Hs) as [Hr _]. unfold utf8_encode. destruct (land_low cp) as (E63 & _). rewrite E63.
  rewrite (bits_of cp 0x7C0 6 5), (bits_of cp 0xF000 12 4), (bits_of cp 0xFC0 6 6), (bits_of cp 0x1C0000 18 3), (bits_of cp 0x3F000 12 6) by (done || lia).
  change (2 ^ 6) with 64. change (2 ^ 5) with 32. change (2 ^ 12) with 4096. change (2 ^ 4) with 16. change (2 ^ 18) with 262144. change (2 ^ 3) with 8.
  destruct Hs as [c Hc|a b Ha Hb H0|a b c Ha Hb Hc H0 H1|a b c d Ha Hb Hc Hd H0].
  - by rewrite (proj2 (Z.ltb_ge _ _)), (proj2 (Z.ltb_lt _ _)) by lia.
  - rewrite !(proj2 (Z.ltb_ge _ _)), (proj2 (Z.ltb_lt _ _)) by lia. repeat f_equal; Z.div_mod_to_equations; lia.
  - rewrite !(proj2 (Z.ltb_ge _ _)), (proj2 (Z.ltb_lt _ _)) by lia. repeat f_equal; Z.div_mod_to_equations; lia.
  - rewrite !(proj2 (Z.ltb_ge _ _)), (proj2 (Z.leb_le _ _)) by lia. repeat f_equal; Z.div_mod_to_equations; lia.
Qed.

(** ** Escapes *)

Lemma hex_char_digit d : 0 <= d < 16 -> hex_digit (hex_char d) = Some d /\ l_isxdigit (hex_char d) = true /\ 0 < hex_char d < 128 /\ hex_char d <> 92.
Proof.
  intros Hd. destruct (Z_of_nat_complete d) as [k ->]; [lia|]. do 16 (destruct k as [|k]; [done|]). lia.
Qed.

(** The four digits of an escape. *)
Definition hex4 (v : Z) : bytes :=
  [hex_char (Z.land (Z.shiftr v 12) 15); hex_char (Z.land (Z.shiftr v 8) 15); hex_char (Z.land (Z.shiftr v 4) 15); hex_char (Z.land v 15)].

Lemma u_escape_hex v : u_escape v = 92 :: 117 :: hex4 v.
Proof. done. Qed.

Lemma nibble v k : 0 <= k -> 0 <= Z.land (Z.shiftr v k) 15 < 16 /\ Z.land (Z.shiftr v k) 15 = v / 2 ^ k mod 16.
Proof.
  intros Hk. destruct (land_low (Z.shiftr v k)) as (_ & _ & -> & _). rewrite Z.shiftr_div_pow2 by done. split; [|done].
  apply Z.mod_pos_bound. lia.
Qed.

Lemma hex4_xdigits v : length (hex4 v) = 4%nat /\ Forall (fun h => l_isxdigit h = true) (hex4 v).
Proof.
  pose proof (nibble v 12). pose proof (nibble v 8). pose proof (nibble v 4). pose proof (nibble v 0) as Hz. rewrite Z.shiftr_0_r in Hz.
  split; [done|]. unfold hex4. repeat constructor; apply hex_char_digit; lia.
Qed.

Lemma hex4_value v rest : 0 <= v < 65536 -> decode_unicode_escape (117 :: hex4 v ++ rest) = Some v.
Proof.
  intros Hv. unfold decode_unicode_escape, hex4. change (bget (117 :: _) 0) with 117. cbn [negb Z.eqb Pos.eqb]. f_equal.
  destruct (nibble v 12 ltac:(lia)) as [R3 E3], (nibble v 8 ltac:(lia)) as [R2 E2], (nibble v 4 ltac:(lia)) as [R1 E1].
  destruct (nibble v 0 ltac:(lia)) as [R0 E0]. rewrite Z.shiftr_0_r in R0, E0.
  cbn [app drop hex_value]. change (drop 0 ?x) with x.
  repeat match goal with |- context [bget (?x :: _) 0] => change (bget (x :: _) 0) with x end.
  unfold bget. cbn [nth Z.to_nat]. rewrite (proj1 (hex_char_digit _ R3)), (proj1 (hex_char_digit _ R2)), (proj1 (hex_char_digit _ R1)), (proj1 (hex_char_digit _ R0)).
  rewrite E3, E2, E1, E0, !Z.shiftl_mul_pow2 by lia. change (2 ^ 12) with (16 * 16 * 16). change (2 ^ 8) with (16 * 16). change (2 ^ 4) with 16. change (2 ^ 0) with 1.
  rewrite Z.div_1_r. rewrite <- !Z.div_div by lia. Z.div_mod_to_equations. lia.
Qed.

(** A piece of the text between the quotes and what it stands for. *)
Inductive piece : bytes -> bytes -> Prop :=
  | piece_raw q cp : uchar q cp -> cp <> 34 -> cp <> 92 -> 32 <= cp -> piece q q
  | piece_simple e c : is_escape e = true -> simple_escape e = Some c -> piece [92; e] [c]
  | piece_unicode v q : 0 <= v < 65536 -> ~ (0xD800 <= v <= 0xDFFF) -> utf8_encode v = Some q -> zlen q <= 4 -> piece (92 :: 117 :: hex4 v) q
  | piece_pair v hi lo q : 0xD800 <= hi <= 0xDBFF -> 0xDC00 <= lo <= 0xDFFF -> v = (hi - 0xD800) * 1024 + (lo - 0xDC00) + 0x10000 ->
      utf8_encode v = Some q -> zlen q <= 4 -> piece (92 :: 117 :: hex4 hi ++ 92 :: 117 :: hex4 lo) q.

Lemma shape_length q cp : shape q cp -> zlen q <= 4.
Proof. destruct 1; by cbv. Qed.

Lemma surrogates v : 0x10000 <= v <= 0x10FFFF ->
  Z.lor 0xD800 (Z.shiftr (Z.land (v - 0x10000) 0xffc00) 10) = 0xD800 + (v - 0x10000) / 1024
  /\ Z.lor 0xDC00 (Z.land (v - 0x10000) 0x3ff) = 0xDC00 + (v - 0x10000) mod 1024.
Proof.
  intros Hv. rewrite (bits_of (v - 0x10000) 0xffc00 10 10) by (done || lia). change 0x3ff with (Z.ones 10). rewrite Z.land_ones by lia.
  change (2 ^ 10) with 1024. split.
  - rewrite (Z.mod_small ((v - 65536) / 1024)) by (Z.div_mod_to_equations; lia).
    apply (lor_shiftl 54 ((v - 65536) / 1024) 10); [lia|]. Z.div_mod_to_equations; lia.
  - apply (lor_shiftl 55 ((v - 65536) mod 1024) 10); [lia|]. Z.div_mod_to_equations; lia.
Qed.

(** What the printer writes for a character is a piece that stands for it. *)
Lemma shown_piece flags q cp : uchar q cp -> piece (shown flags (q, cp)) q.
Proof.
  intros Hq. pose proof (uchar_shape _ _ Hq) as Hs. destruct (shape_range _ _ Hs) as [Hr Hns].
  pose proof (utf8_encode_shape _ _ Hs) as He. pose proof (shape_length _ _ Hs) as Hl. unfold shown. cbn [fst snd].
  destruct (must_escape flags cp) eqn:Em.
  - unfold escape_text. assert (Hone : forall c, cp = c -> 0 <= c < 128 -> q = [c]).
    { intros c -> Hc. unfold utf8_encode in He. rewrite (proj2 (Z.ltb_ge _ _)), (proj2 (Z.ltb_lt _ _)) in He by lia. by injection He. }
    repeat (case_if; [rewrite (Hone _ ltac:(eassumption) ltac:(lia)); by apply piece_simple|]).
    case_if; [rewrite u_escape_hex; apply piece_unicode; done || lia|].
    destruct (surrogates cp ltac:(lia)) as [-> ->]. rewrite !u_escape_hex. apply piece_pair with (v := cp); try done; Z.div_mod_to_equations; lia.
  - unfold must_escape in Em. b2p. by apply piece_raw with cp.
Qed.

(** ** The second pass *)

Definition plain_byte (b : Z) : Prop := b <> 34 /\ b <> 92 /\ 32 <= b < 256.

Lemma raw_plain q cp : shape q cp -> cp <> 34 -> cp <> 92 -> 32 <= cp -> Forall plain_byte q.
Proof. unfold plain_byte. destruct 1; intros; repeat constructor; lia. Qed.

Lemma decode_plain fuel size q rest t : Forall plain_byte q -> zlen t + zlen q <= size ->
  decode_string (length q + fuel) size (q ++ rest) t = decode_string fuel size rest (t ++ q).
Proof.
  intros Hq. revert t. induction Hq as [|b q Hb Hq IH]; intros t Hs; [by rewrite app_nil_r|].
  destruct Hb as (H1 & H2 & _). rewrite zlen_cons in Hs. cbn [length Nat.add decode_string app].
  rewrite (proj2 (Z.eqb_neq b 34)), (proj2 (Z.eqb_neq b 92)) by done.
  rewrite put_in by (rewrite zlen_cons, zlen_nil; pose proof (zlen_nonneg q); lia). cbn [mbind option_bind].
  rewrite IH by (rewrite zlen_app, zlen_cons, zlen_nil; lia). by rewrite <- app_assoc.
Qed.

Lemma decode_escape fuel size q rest t r : unicode_escape (117 :: q) = Some (Some r) ->
  forall bs, utf8_encode r.1 = Some bs -> zlen t + zlen bs <= size -> rest = r.2 ->
  decode_string (S fuel) size (92 :: 117 :: q) t = decode_string fuel size rest (t ++ bs).
Proof.
  intros Hr bs Hbs Hs ->. cbn [decode_string]. change (bget (117 :: q) 0) with 117. cbn [Z.eqb Pos.eqb]. rewrite Hr. cbn [mbind option_bind].
  destruct r as [v p]. simpl in Hbs. rewrite Hbs. cbn [mbind option_bind]. by rewrite put_in.
Qed.

Lemma zlen_hex4 v : zlen (hex4 v) = 4.
Proof. done. Qed.

Lemma decode_piece p q size rest t fuel : piece p q -> zlen t + zlen p <= size -> (length p <= fuel)%nat ->
  exists fuel', (fuel - length p <= fuel')%nat /\ decode_string fuel size (p ++ rest) t = decode_string fuel' size rest (t ++ q)
    /\ zlen q <= zlen p.
Proof.
  intros Hp Hs Hf. destruct Hp as [q cp Hq H34 H92 H32|e c He Hc|v q Hv Hn Hq Hl|v hi lo q Hhi Hlo Hv Hq Hl].
  - exists (fuel - length q)%nat. split; [done|]. split; [|lia].
    rewrite <- decode_plain; [f_equal; lia|by eapply raw_plain; [apply uchar_shape|..]|done].
  - simpl in Hf. destruct fuel as [|fuel]; [lia|]. exists fuel. split; [simpl; lia|]. split; [|by cbv]. cbn [decode_string app].
    change (92 =? 34) with false. change (92 =? 92) with true. cbn iota. change (bget (e :: rest) 0) with e.
    assert (e =? 117 = false) as -> by (destruct (Z.eqb_spec e 117) as [->|]; done). rewrite Hc. cbn [mbind option_bind].
    rewrite !zlen_cons, zlen_nil in Hs. rewrite put_in by (rewrite zlen_cons, zlen_nil; lia). done.
  - rewrite !zlen_cons, zlen_hex4 in *. destruct fuel as [|fuel]; [simpl in Hf; lia|]. exists fuel. split; [simpl; lia|]. split; [|lia].
    apply (decode_escape fuel size (hex4 v ++ rest) rest t (v, rest)); [|done|lia|done].
    unfold unicode_escape. rewrite hex4_value by done. cbn [mbind option_bind]. rewrite (proj2 (Z.ltb_ge _ _)) by lia.
    change (drop 5 (117 :: hex4 v ++ rest)) with rest.
    destruct ((0xD800 <=? v) && (v <=? 0xDBFF)) eqn:E1; [b2p; lia|]. destruct ((0xDC00 <=? v) && (v <=? 0xDFFF)) eqn:E2; [b2p; lia|]. done.
  - rewrite !zlen_cons, zlen_app, !zlen_cons, !zlen_hex4 in *. destruct fuel as [|fuel]; [simpl in Hf; lia|]. exists fuel. split; [simpl; lia|]. split; [|lia].
    apply (decode_escape fuel size (hex4 hi ++ 92 :: 117 :: hex4 lo ++ rest) rest t (v, rest)); [|done|lia|done].
    unfold unicode_escape. rewrite hex4_value by lia. cbn [mbind option_bind]. rewrite (proj2 (Z.ltb_ge _ _)) by lia.
    change (drop 5 (117 :: hex4 hi ++ 92 :: 117 :: hex4 lo ++ rest)) with (92 :: 117 :: hex4 lo ++ rest).
    rewrite !(proj2 (Z.leb_le _ _)) by lia. cbn [andb]. change (bget (92 :: 117 :: hex4 lo ++ rest) 0) with 92. change (bget (92 :: 117 :: hex4 lo ++ rest) 1) with 117.
    cbn [Z.eqb Pos.eqb andb drop]. rewrite hex4_value by lia. cbn [mbind option_bind]. rewrite (proj2 (Z.ltb_ge _ _)) by lia.
    rewrite !(proj2 (Z.leb_le _ _)) by lia. cbn [andb]. rewrite Z.shiftl_mul_pow2, Hv by lia. done.
Qed.

Lemma decode_pieces ps qs size t fuel : Forall2 piece ps qs -> zlen t + zlen (mjoin ps) + 1 <= size -> (length (mjoin ps) < fuel)%nat ->
  decode_string fuel size (mjoin ps ++ [34]) t = Some (Some (t ++ mjoin qs)).
Proof.
  intros Hp. revert t fuel. induction Hp as [|p q ps qs Hpq Hp IH]; intros t fuel Hs Hf.
  - destruct fuel as [|fuel]; [simpl in Hf; lia|]. simpl in Hs |- *. rewrite put_in by (rewrite zlen_cons, zlen_nil in *; lia). by rewrite app_nil_r.
  - simpl in *. rewrite zlen_app in Hs. rewrite length_app in Hf. rewrite <- app_assoc. pose proof (zlen_nonneg (mjoin ps)).
    destruct (decode_piece p q size (mjoin ps ++ [34]) t fuel Hpq) as (fuel' & Hf' & -> & Hq); [lia|lia|].
    rewrite IH by (rewrite ?zlen_app; lia). by rewrite <- app_assoc.
Qed.
