(* ===== verification/JsonRoundTrip.v ===== *)
(** * What the JSON printer writes, the JSON parser reads

    [json_loads] of the text [json_dumps] makes of a value is that value, for
    every layout the flags choose; the configuration files of the update
    client are such texts. *)

From S2P Require Import Prelude BasicJson Jansson JsonLoad JsonLoadProps JsonDump JsonText.

(** ** The stream *)

(** [rem] is left in the buffer of the stream and [d] in its input. *)
Definition view (l : lex) (rem d : bytes) : Prop :=
  let s := l_stream l in
  s_state s = STREAM_STATE_OK /\ 0 <= s_pos s <= zlen (s_buffer s) /\ drop (Z.to_nat (s_pos s)) (s_buffer s) = rem
  /\ Forall (fun b => b <> 0) rem /\ s_data s = d.

(** [u] is still to be read. *)
Definition ahead (l : lex) (u : bytes) : Prop :=
  exists rem d, view l rem d /\ u = rem ++ d /\ (rem = [] \/ exists c, rem = [c] /\ 0 < c < 128).

(** [c] was read before [u]. *)
Definition just (l : lex) (c : Z) (u : bytes) : Prop :=
  view l [] u /\ 0 < s_pos (l_stream l) /\ drop (Z.to_nat (s_pos (l_stream l) - 1)) (s_buffer (l_stream l)) = [c].

Lemma view_ahead l d : view l [] d -> ahead l d.
Proof. intros V. exists [], d. by split_and!; [| |left]. Qed.

Lemma just_ahead l c u : just l c u -> ahead l u.
Proof. intros [V _]. by apply view_ahead. Qed.

Lemma bget_drop_cons l n c r : 0 <= n -> drop (Z.to_nat n) l = c :: r -> bget l n = c /\ n < zlen l /\ drop (Z.to_nat (n + 1)) l = r.
Proof.
  intros Hn Hd. assert (bget (drop (Z.to_nat n) l) 0 = c) as Hc by (by rewrite Hd). rewrite bget_drop, Z.add_0_r in Hc by lia. split; [done|]. split.
  - destruct (Z.lt_ge_cases n (zlen l)) as [|Hge]; [done|]. rewrite drop_ge in Hd by (unfold zlen in Hge; lia). done.
  - replace (Z.to_nat (n + 1)) with (Z.to_nat n + 1)%nat by lia. rewrite <- drop_drop, Hd. done.
Qed.

Lemma stream_next_view l s1 c r d : s_state s1 = STREAM_STATE_OK -> 0 <= s_pos s1 -> drop (Z.to_nat (s_pos s1)) (s_buffer s1) = c :: r ->
  Forall (fun b => b <> 0) r -> s_data s1 = d ->
  exists s, stream_next s1 = (c, s) /\ view (with_stream l s) r d /\ s_buffer s = s_buffer s1 /\ s_pos s = s_pos s1 + 1.
Proof.
  intros Hst Hp Hd Hr Hdata. destruct (bget_drop_cons _ _ _ _ Hp Hd) as (Hc & Hlt & Hd'). destruct (stream_next s1) as [c' s] eqn:En.
  destruct (stream_next_spec _ _ _ En) as (-> & E1 & E2 & E3 & E4). exists s. rewrite Hc. split; [done|]. split; [|done].
  unfold view. cbn. rewrite E1, E2, E3, E4. split_and!; try done; lia.
Qed.

Lemma get_rem l c r d : view l (c :: r) d ->
  exists s, stream_get l = Some (c, with_stream l s) /\ view (with_stream l s) r d
    /\ 0 < s_pos s /\ drop (Z.to_nat (s_pos s - 1)) (s_buffer s) = c :: r.
Proof.
  intros (Hst & Hp & Hd & Hn & Hdata). unfold stream_get. rewrite Hst, Z.eqb_refl. cbn [negb].
  destruct (bget_drop_cons _ _ _ _ (proj1 Hp) Hd) as (Hc & _). pose proof (Forall_inv Hn). pose proof (Forall_inv_tail Hn).
  rewrite Hc, (proj2 (Z.eqb_neq _ _)) by done. cbn [mbind option_bind].
  destruct (stream_next_view l (l_stream l) c r d) as (s & -> & V & Eb & Ep); try done; [lia|]. exists s. split; [done|]. split; [done|].
  rewrite Ep, Eb, Z.add_simpl_r. split; [lia|done].
Qed.

Lemma shape_bytes q cp : shape q cp -> is_bytes q.
Proof. destruct 1; repeat constructor; lia. Qed.

Lemma fetch_more_all n s cs d : s_data s = cs ++ d -> length cs = n -> Forall (fun b => 0 < b < 256) cs ->
  exists s', fetch_more n s = (cs, s') /\ s_data s' = d /\ s_state s' = s_state s.
Proof.
  revert s cs. induction n as [|n IH]; intros s cs Hd Hn Hb; [destruct cs; [|done]; by exists s|].
  destruct cs as [|c cs]; [done|]. pose proof (Forall_inv Hb) as Hc. simpl in Hc. cbn [fetch_more]. unfold stream_fetch. rewrite Hd. cbn [app].
  assert (c =? 0 = false) as Hc0 by (apply Z.eqb_neq; lia). rewrite Hc0, andb_false_r.
  destruct (IH (with_input s (cs ++ d) (s_buffer s) (s_pos s)) cs) as (s' & -> & E1 & E2); [done|simpl in Hn; lia|by eapply Forall_inv_tail|].
  exists s'. split; [|done]. by rewrite u8_small by lia.
Qed.

Lemma get_new l q cp d : view l [] (q ++ d) -> uchar q cp -> cp <> 0 ->
  exists s, stream_get l = Some (bget q 0, with_stream l s) /\ view (with_stream l s) (drop 1 q) d /\ s_buffer s = q /\ s_pos s = 1.
Proof.
  intros (Hst & Hp & Hd & Hn & Hdata) Hq Hcp. pose proof (uchar_shape _ _ Hq) as Hs. unfold stream_get. rewrite Hst, Z.eqb_refl. cbn [negb].
  assert (bget (s_buffer (l_stream l)) (s_pos (l_stream l)) = 0) as ->.
  { rewrite <- (Z.add_0_r (s_pos (l_stream l))), <- bget_drop by lia. by rewrite Hd. }
  rewrite Z.eqb_refl.
  assert (Hpos : Forall (fun b => 0 < b < 256) q) by (destruct Hs; repeat constructor; lia).
  assert (Hfill : exists s1, refill (l_stream l) = Some (Fetched s1) /\ s_state s1 = STREAM_STATE_OK /\ s_buffer s1 = q /\ s_pos s1 = 0 /\ s_data s1 = d).
  { unfold refill, stream_fetch. rewrite Hdata. destruct q as [|c cs]; [by inversion Hs|]. pose proof (Forall_inv Hpos) as Hc. simpl in Hc. cbn [app].
    assert (c =? 0 = false) as Hc0 by (apply Z.eqb_neq; lia). rewrite Hc0, andb_false_r. assert (c =? EOF = false) as -> by (apply Z.eqb_neq; cbv; lia).
    destruct Hq as [(c' & [= -> ->] & Hc' & ->)|(Hf & H2 & Hfull & _)].
    - rewrite (proj2 (Z.leb_gt _ _)) by lia. cbn [andb]. eexists. split; [done|]. done.
    - change (bget (c :: cs) 0) with c in Hf. assert (128 <= c) as H128.
      { destruct (Z.lt_ge_cases c 128) as [Hlt|]; [|done]. unfold utf8_check_first in Hf. rewrite (proj2 (Z.ltb_lt _ _)) in Hf by done. lia. }
      rewrite !(proj2 (Z.leb_le _ _)) by lia. cbn [andb]. rewrite Hf, (proj2 (Z.eqb_neq _ _)), (proj2 (Z.ltb_ge _ _)) by lia.
      destruct (fetch_more_all (Z.to_nat (zlen (c :: cs) - 1)) (with_input (l_stream l) (cs ++ d) [c] 0) cs d) as (s1 & -> & E1 & E2);
        [done|rewrite zlen_cons; unfold zlen; lia|by eapply Forall_inv_tail|].
      rewrite Hfull. eexists. split; [done|]. cbn. split_and!; try done. by rewrite E2. }
  destruct Hfill as (s1 & -> & E1 & E2 & E3 & E4). cbn [mbind option_bind].
  destruct q as [|c cs]; [by inversion Hs|].
  destruct (stream_next_view l s1 c cs d) as (s & -> & V & Eb & Ep); try done; [by rewrite E3|by rewrite E2, E3| |].
  { apply Forall_inv_tail in Hpos. eapply Forall_impl; [done|]. simpl. lia. }
  exists s. rewrite Eb, Ep, E2, E3. by split_and!.
Qed.

(** An ASCII character, and giving it back. *)
Lemma get_ascii l c u : ahead l (c :: u) -> 0 < c < 128 -> exists s, stream_get l = Some (c, with_stream l s) /\ just (with_stream l s) c u.
Proof.
  intros (rem & d & V & Hu & Hrem) Hc. destruct Hrem as [->|(c' & -> & _)]; simpl in Hu.
  - subst d. destruct (get_new l [c] c u V) as (s & -> & V' & Eb & Ep); [left; eexists; split; [done|]; lia|lia|].
    exists s. split; [done|]. split; [done|]. cbn. rewrite Ep, Eb. split; [lia|done].
  - injection Hu as <- <-. destruct (get_rem l c [] u V) as (s & -> & V' & Hp & Hd). exists s. by split_and!.
Qed.

Lemma unget_ascii l c u : just l c u -> 0 < c < 128 -> exists s, stream_unget (l_stream l) c = Some s /\ ahead (with_stream l s) (c :: u).
Proof.
  intros [(Hst & Hp & Hd & Hn & Hdata) [Hpos Hc]] H. unfold stream_unget. rewrite not_end by lia.
  rewrite (proj2 (Z.ltb_lt _ _)) by done. cbn [negb]. destruct (bget_drop_cons (s_buffer (l_stream l)) (s_pos (l_stream l) - 1) c [] ltac:(lia) Hc) as (-> & Hlt & _). rewrite Z.eqb_refl. cbn [negb].
  eexists. split; [done|]. exists [c], u. split; [|split; [done|right; by exists c]].
  unfold view. destruct (c =? 10); cbn; split_and!; try done; try lia; (constructor; [lia|constructor]).
Qed.

Lemma get_eof l : ahead l [] -> exists s, stream_get l = Some (STREAM_STATE_EOF, with_stream l s).
Proof.
  intros (rem & d & (Hst & Hp & Hd & Hn & Hdata) & Hu & _). symmetry in Hu. apply app_eq_nil in Hu as [-> ->].
  unfold stream_get. rewrite Hst, Z.eqb_refl. cbn [negb].
  assert (bget (s_buffer (l_stream l)) (s_pos (l_stream l)) = 0) as ->.
  { rewrite <- (Z.add_0_r (s_pos (l_stream l))), <- bget_drop by lia. by rewrite Hd. }
  rewrite Z.eqb_refl. unfold refill, stream_fetch. rewrite Hdata. cbn. by eexists.
Qed.

Lemma ahead_unread l u : ahead l u -> unread (l_stream l) = length u.
Proof.
  intros (rem & d & (Hst & Hp & Hd & Hn & Hdata) & -> & _). unfold unread. rewrite Hdata, length_app, <- Hd, length_drop. unfold zlen in Hp. lia.
Qed.

(** ** The first pass over a string *)

(** [p] was read and saved. *)
Definition eaten (l : lex) (p : bytes) (l' : lex) : Prop := exists s, l' = with_saved (with_stream l s) (l_saved l ++ p).

Lemma eaten_trans l p l1 p' l2 : eaten l p l1 -> eaten l1 p' l2 -> eaten l (p ++ p') l2.
Proof. intros [s ->] [s' ->]. exists s'. cbn. by rewrite app_assoc. Qed.

Lemma eaten_nil l : eaten l [] l.
Proof. exists (l_stream l). rewrite app_nil_r. by destruct l. Qed.

Lemma get_save_of l c s (P : lex -> Prop) : stream_get l = Some (c, with_stream l s) -> 0 <= c ->
  (forall l', l_stream l' = s -> P l') -> exists l', lex_get_save l = Some (c, l') /\ eaten l [c] l' /\ P l'.
Proof.
  intros E Hc HP. unfold lex_get_save. rewrite E. cbn [mbind option_bind]. rewrite not_end by done. eexists. split; [done|].
  split; [by exists s|]. by apply HP.
Qed.

Lemma view_stream l l' rem d : l_stream l' = l_stream l -> view l rem d -> view l' rem d.
Proof. unfold view. by intros ->. Qed.

Lemma ahead_stream l l' u : l_stream l' = l_stream l -> ahead l u -> ahead l' u.
Proof. intros E (rem & d & V & H). exists rem, d. split; [by eapply view_stream|done]. Qed.

Lemma just_stream l l' c u : l_stream l' = l_stream l -> just l c u -> just l' c u.
Proof. intros E (V & H). split; [by eapply view_stream|]. by rewrite E. Qed.

Lemma save_ascii l c u : ahead l (c :: u) -> 0 < c < 128 -> exists l', lex_get_save l = Some (c, l') /\ eaten l [c] l' /\ just l' c u.
Proof.
  intros A Hc. destruct (get_ascii l c u A Hc) as (s & E & J). eapply get_save_of; [done|lia|]. intros l' <-. by eapply just_stream; [|exact J].
Qed.

Definition scan_from (fuel : nat) (l : lex) : option (bool * lex) := '(c, l) ← lex_get_save l; scan_string fuel c l.

Lemma scan_plain_byte n l b l1 : lex_get_save l = Some (b, l1) -> plain_byte b -> scan_from (S n) l = scan_from n l1.
Proof.
  intros E (H34 & H92 & Hb). unfold scan_from at 1. rewrite E. cbn [mbind option_bind scan_string].
  unfold STREAM_STATE_ERROR, STREAM_STATE_EOF.
  rewrite (proj2 (Z.eqb_neq b 34)), (proj2 (Z.eqb_neq b (-2))), (proj2 (Z.eqb_neq b (-1))), (proj2 (Z.leb_gt b 31)), andb_false_r,
    (proj2 (Z.eqb_neq b 92)) by lia. done.
Qed.

(** [p] is let through, in at most as many rounds as it has bytes. *)
Definition passes (l : lex) (p d : bytes) : Prop :=
  exists n l', (n <= length p)%nat /\ (forall fuel, scan_from (n + fuel) l = scan_from fuel l') /\ eaten l p l' /\ view l' [] d.

Lemma passes_byte l b p d : plain_byte b -> (exists s, stream_get l = Some (b, with_stream l s) /\ forall l', l_stream l' = s -> passes l' p d) ->
  passes l (b :: p) d.
Proof.
  intros Hp (s & E & H). destruct (get_save_of l b s (fun l' => passes l' p d) E) as (l1 & E1 & A1 & n & l' & Hn & Ef & A & V); [unfold plain_byte in Hp; lia|done|].
  exists (S n), l'. split_and!; [simpl; lia| |by apply (eaten_trans l [b] l1)|done].
  intros fuel. rewrite <- Ef. by apply scan_plain_byte with b.
Qed.

Lemma passes_nil l d : view l [] d -> passes l [] d.
Proof. intros V. exists O, l. split_and!; [done|done|apply eaten_nil|done]. Qed.

Lemma passes_rem rem : forall l d, Forall plain_byte rem -> view l rem d -> passes l rem d.
Proof.
  induction rem as [|b rem IH]; intros l d Hb V; [by apply passes_nil|].
  pose proof (Forall_inv Hb) as Hp. apply Forall_inv_tail in Hb. apply passes_byte; [done|].
  destruct (get_rem l b rem d V) as (s & E & V1 & _). exists s. split; [done|]. intros l' <-. apply IH; [done|]. by eapply view_stream; [|exact V1].
Qed.

Lemma passes_trans l p p' d : passes l p (p' ++ d) -> (forall l1, view l1 [] (p' ++ d) -> passes l1 p' d) -> passes l (p ++ p') d.
Proof.
  intros (n & l1 & Hn & E & A & V) H. destruct (H l1 V) as (n' & l2 & Hn' & E' & A' & V'). exists (n + n')%nat, l2.
  split_and!; [rewrite length_app; lia| |by eapply eaten_trans|done]. intros fuel. by rewrite <- Nat.add_assoc, E, E'.
Qed.

Definition hex_from (n fuel : nat) (l : lex) : option (bool * lex) :=
  '(c, l) ← lex_get_save l; '(ok, c, l) ← scan_hex n c l; if ok : bool then scan_string fuel c l else Some (false, l).

Lemma hex_from_all hs d : Forall (fun h => l_isxdigit h = true) hs -> Forall (fun h => 0 < h < 128) hs ->
  forall l, view l [] (hs ++ d) -> exists l', (forall fuel, hex_from (length hs) fuel l = scan_from fuel l') /\ eaten l hs l' /\ view l' [] d.
Proof.
  intros Hx. induction Hx as [|h hs Hh Hx IH]; intros Ha l V.
  - exists l. split_and!; [|apply eaten_nil|done]. intros fuel. unfold hex_from, scan_from. by destruct (lex_get_save l) as [[c l1]|].
  - pose proof (Forall_inv Ha) as H1. apply Forall_inv_tail in Ha. destruct (save_ascii l h (hs ++ d) (view_ahead _ _ V) H1) as (l1 & E & A & J).
    destruct (IH Ha l1 (proj1 J)) as (l' & E' & A' & V'). exists l'. split_and!; [|by apply (eaten_trans l [h] l1)|done].
    intros fuel. rewrite <- E'. unfold hex_from at 1. rewrite E. cbn [mbind option_bind length scan_hex]. rewrite Hh. cbn [negb].
    unfold hex_from. by destruct (lex_get_save l1) as [[c l2]|].
Qed.

Lemma hex4_ascii v : Forall (fun h => 0 < h < 128) (hex4 v).
Proof.
  pose proof (nibble v 12). pose proof (nibble v 8). pose proof (nibble v 4). pose proof (nibble v 0) as Hz. rewrite Z.shiftr_0_r in Hz.
  unfold hex4. repeat constructor; apply hex_char_digit; lia.
Qed.

Lemma scan_backslash l e d : view l [] (92 :: e :: d) -> 0 < e < 128 ->
  exists l1, eaten l [92; e] l1 /\ view l1 [] d
    /\ (e = 117 -> forall fuel, scan_from (S fuel) l = hex_from 4 fuel l1)
    /\ (is_escape e = true -> forall fuel, scan_from (S fuel) l = scan_from fuel l1).
Proof.
  intros V He. destruct (save_ascii l 92 (e :: d) (view_ahead _ _ V) ltac:(lia)) as (l1 & E1 & A1 & J1).
  destruct (save_ascii l1 e d (just_ahead _ _ _ J1) He) as (l2 & E2 & A2 & J2). exists l2.
  split; [by apply (eaten_trans l [92] l1)|]. split; [apply J2|]. split.
  - intros -> fuel. unfold scan_from. rewrite E1. cbn [mbind option_bind scan_string]. cbn. rewrite E2. done.
  - intros Hesc fuel. unfold scan_from at 1. rewrite E1. cbn [mbind option_bind scan_string]. cbn. rewrite E2. cbn [mbind option_bind].
    assert (e =? 117 = false) as -> by (destruct (Z.eqb_spec e 117) as [->|]; done). by rewrite Hesc.
Qed.

Lemma passes_unicode l v d : view l [] ((92 :: 117 :: hex4 v) ++ d) -> passes l (92 :: 117 :: hex4 v) d.
Proof.
  intros V. destruct (scan_backslash l 117 (hex4 v ++ d) V ltac:(lia)) as (l1 & A1 & V1 & E1 & _).
  destruct (hex4_xdigits v) as [Hn Hx]. destruct (hex_from_all (hex4 v) d Hx (hex4_ascii v) l1 V1) as (l' & E' & A' & V').
  exists 1%nat, l'. split_and!; [simpl; lia| |by apply (eaten_trans l [92; 117] l1)|done].
  intros fuel. cbn [Nat.add]. by rewrite E1, <- E'.
Qed.

Lemma passes_piece p q d : piece p q -> forall l, view l [] (p ++ d) -> passes l p d.
Proof.
  intros [q' cp Hq H34 H92 H32|e c He Hc|v q' Hv Hn Hq Hl|v hi lo q' Hhi Hlo Hv Hq Hl] l V.
  - pose proof (raw_plain _ _ (uchar_shape _ _ Hq) H34 H92 H32) as Hp. destruct (get_new l q' cp d V Hq ltac:(lia)) as (s & E & V1 & _).
    destruct q' as [|b q']; [apply uchar_shape in Hq; inversion Hq|]. apply passes_byte; [by apply Forall_inv in Hp|].
    exists s. split; [done|]. intros l' <-. apply passes_rem; [by apply Forall_inv_tail in Hp|]. by eapply view_stream; [|exact V1].
  - assert (0 < e < 128) as Hr by (unfold is_escape in He; repeat (apply orb_true_iff in He as [He|He]); b2p; lia).
    destruct (scan_backslash l e d V Hr) as (l1 & A1 & V1 & _ & E1). exists 1%nat, l1. split_and!; [simpl; lia|by apply E1|done|done].
  - by apply passes_unicode.
  - rewrite (app_comm_cons _ _ 117), (app_comm_cons _ _ 92) in V |- *. rewrite <- app_assoc in V.
    apply passes_trans; [by apply passes_unicode|]. intros l1 V1. by apply passes_unicode.
Qed.

Lemma passes_pieces ps qs d : Forall2 piece ps qs -> forall l, view l [] (mjoin ps ++ d) -> passes l (mjoin ps) d.
Proof.
  induction 1 as [|p q ps qs Hp Hps IH]; intros l V; [by apply passes_nil|]. cbn [mjoin list_join] in *. simpl in V. rewrite <- app_assoc in V.
  apply passes_trans; [by eapply passes_piece|done].
Qed.

(** The character the first pass starts from, and what is left behind it. *)
Lemma first_of_string ps qs l d : Forall2 piece ps qs -> view l [] (mjoin ps ++ 34 :: d) ->
  exists c l1, lex_get_save l = Some (c, l1) /\ (unread (l_stream l1) = length (mjoin ps) + length d)%nat.
Proof.
  assert (Hascii : forall c u, view l [] (c :: u) -> 0 < c < 128 -> exists c l1, lex_get_save l = Some (c, l1) /\ unread (l_stream l1) = length u).
  { intros c u V Hc. destruct (save_ascii l c u (view_ahead _ _ V) Hc) as (l1 & E & _ & J). exists c, l1. split; [done|]. by apply ahead_unread, (just_ahead _ c). }
  intros [|p q ps' qs' Hp Hps] V; [apply (Hascii 34 d V); lia|]. change (mjoin (p :: ps')) with (p ++ mjoin ps') in *.
  revert V. generalize (mjoin ps'). intros r V. rewrite <- app_assoc in V. rewrite length_app.
  destruct Hp as [q' cp Hq H34 H92 H32|e c He Hc|v q' Hv Hn Hq Hl|v hi lo q' Hhi Hlo Hv Hq Hl].
  2-4: destruct (Hascii _ _ V ltac:(lia)) as (c1 & l1 & E & Hu); exists c1, l1; split; [done|]; rewrite Hu; simpl; rewrite ?length_app; simpl; lia.
  destruct (get_new l q' cp _ V Hq ltac:(lia)) as (s & E & (_ & _ & _ & _ & Hd) & Eb & Ep). unfold lex_get_save. rewrite E. cbn [mbind option_bind].
  do 2 eexists. split; [done|]. assert (unread s = (length q' + length (r ++ 34%Z :: d) - 1)%nat) as Hu.
  { unfold unread. cbn in Hd. rewrite Hd, Eb, Ep. by rewrite (Nat.add_comm (length q')). }
  assert (q' <> []) as Hne by (intros ->; apply uchar_shape in Hq; inversion Hq).
  destruct q' as [|b q']; [done|]. rewrite length_app in Hu. simpl in Hu |- *. case_if; cbn; lia.
Qed.

(** ** Tokens *)

(** Besides the token, only the stream and the saved text have changed. *)
Definition alike (l l' : lex) : Prop := l_flags l' = l_flags l /\ l_depth l' = l_depth l /\ l_error l' = l_error l.

Lemma alike_trans l1 l2 l3 : alike l1 l2 -> alike l2 l3 -> alike l1 l3.
Proof. unfold alike. intuition congruence. Qed.

Lemma eaten_alike l p l' : eaten l p l' -> alike l l'.
Proof. by intros [s ->]. Qed.

(** The parser gets the memory it asks for. *)
#[local] Existing Instance plenty.

Lemma has_room k l : lex_room k l = true.
Proof. done. Qed.

Lemma string_token ps qs l d : Forall2 piece ps qs -> view l [] (mjoin ps ++ 34 :: d) -> l_saved l = [34] ->
  exists l', lex_scan_string l = Some l' /\ alike l l' /\ ahead l' d /\ l_token l' = TOKEN_STRING /\ l_string l' = Some (mjoin qs).
Proof.
  intros Hp V Hs. unfold lex_scan_string. set (l0 := with_token (with_string l None) TOKEN_INVALID). assert (V0 : view l0 [] (mjoin ps ++ 34 :: d)) by done.
  destruct (first_of_string ps qs l0 d Hp V0) as (c & l1 & E1 & Hu). destruct (passes_pieces ps qs (34 :: d) Hp l0 V0) as (n & l2 & Hn & Ef & A & V2).
  destruct (save_ascii l2 34 d (view_ahead _ _ V2) ltac:(lia)) as (l3 & E3 & A3 & J3).
  specialize (Ef (S (S (unread (l_stream l1))) - n)%nat). rewrite Nat.add_sub_assoc, Nat.add_comm, Nat.add_sub in Ef by lia. unfold scan_from in Ef. rewrite E1, E3 in Ef.
  rewrite E1. cbn [mbind option_bind] in Ef |- *. rewrite Ef. destruct (S (S (unread (l_stream l1))) - n)%nat eqn:En; [lia|].
  cbn [scan_string mbind option_bind Z.eqb Pos.eqb negb]. rewrite has_room. cbn [negb].
  pose proof (eaten_trans _ _ _ _ _ A A3) as [s Hl3]. assert (l_saved l3 = 34 :: mjoin ps ++ [34]) as Hs3 by (rewrite Hl3; cbn; by rewrite Hs).
  rewrite Hs3. cbn [drop]. rewrite (decode_pieces ps qs); [|done|rewrite zlen_cons, zlen_app, zlen_cons, !zlen_nil; lia|cbn [length]; rewrite length_app; lia].
  cbn [mbind option_bind app]. eexists. split; [done|]. split; [rewrite Hl3; done|]. split; [|done].
  eapply ahead_stream; [|by apply (just_ahead l3 34)]. done.
Qed.

Lemma space_ascii b : is_space b = true -> 0 < b < 128.
Proof. unfold is_space. intros Hb. repeat (apply orb_true_iff in Hb as [Hb|Hb]); b2p; lia. Qed.

(** Space in front of a token. *)
Lemma skip_space_all ws c u : Forall (fun b => is_space b = true) ws -> is_space c = false -> 0 < c < 128 ->
  forall fuel l, ahead l (ws ++ c :: u) -> (length ws < fuel)%nat -> exists s, skip_space fuel l = Some (c, with_stream l s) /\ just (with_stream l s) c u.
Proof.
  intros Hws Hc Hr. induction Hws as [|b ws Hb Hws IH]; intros [|fuel] l A Hf; try (simpl in Hf; lia).
  - destruct (get_ascii l c u A Hr) as (s & E & J). cbn [skip_space]. unfold lex_get. rewrite E. cbn [mbind option_bind]. rewrite Hc. by exists s.
  - pose proof (space_ascii b Hb) as Hb'.
    destruct (get_ascii l b _ A Hb') as (s & E & J). cbn [skip_space]. unfold lex_get. rewrite E. cbn [mbind option_bind]. rewrite Hb.
    destruct (IH fuel (with_stream l s) (just_ahead _ _ _ J)) as (s' & -> & J'); [simpl in Hf; lia|]. by exists s'.
Qed.

Lemma skip_space_eof ws : Forall (fun b => is_space b = true) ws ->
  forall fuel l, ahead l ws -> (length ws < fuel)%nat -> exists s, skip_space fuel l = Some (STREAM_STATE_EOF, with_stream l s).
Proof.
  intros Hws. induction Hws as [|b ws Hb Hws IH]; intros [|fuel] l A Hf; try (simpl in Hf; lia).
  - destruct (get_eof l A) as (s & E). cbn [skip_space]. unfold lex_get. rewrite E. by exists s.
  - pose proof (space_ascii b Hb) as Hb'.
    destruct (get_ascii l b _ A Hb') as (s & E & J). cbn [skip_space]. unfold lex_get. rewrite E. cbn [mbind option_bind]. rewrite Hb.
    destruct (IH fuel (with_stream l s) (just_ahead _ _ _ J)) as (s' & ->); [simpl in Hf; lia|]. by exists s'.
Qed.

Section tokens.
Context (strtod : bytes -> option Z * Z).

(** [lex_scan] behind the first character of the token. *)
Definition scan_token (c : Z) (l : lex) : option lex :=
  if is_punct c then Some (with_token l c)
  else if c =? 34 then lex_scan_string l
  else if l_isdigit c || (c =? 45) then lex_scan_number strtod c l
  else if l_isalpha c then
    '(c, l) ← skip_alpha (S (unread (l_stream l))) l;
    l ← lex_unget_unsave l c;
    Some (with_token l (word_token (l_saved l)))
  else l ← lex_save_cached l; Some (with_token l TOKEN_INVALID).

Abbreviation spaces := (Forall (fun b => is_space b = true)).

Lemma lex_scan_at l ws c u : spaces ws -> is_space c = false -> 0 < c < 128 -> ahead l (ws ++ c :: u) ->
  exists l1, lex_scan strtod l = scan_token c l1 /\ alike l l1 /\ just l1 c u /\ l_saved l1 = [c].
Proof.
  intros Hws Hc Hr A. unfold lex_scan. set (l0 := if l_token (with_saved l []) =? TOKEN_STRING then _ else _).
  assert (l_stream l0 = l_stream l /\ alike l l0 /\ l_saved l0 = []) as (Es & Al & Esv) by (unfold l0; by case_if).
  destruct (skip_space_all ws c u Hws Hc Hr (S (unread (l_stream l0))) l0) as (s & -> & J); [by eapply ahead_stream| |].
  { rewrite Es, (ahead_unread _ _ A), length_app. simpl. lia. }
  cbn [mbind option_bind]. unfold STREAM_STATE_EOF, STREAM_STATE_ERROR. rewrite !(proj2 (Z.eqb_neq c _)) by lia.
  exists (lex_save (with_stream l0 s) c). split; [done|]. split; [exact Al|]. split; [by eapply just_stream; [|exact J]|]. cbn. by rewrite Esv.
Qed.

(** [l'] holds the token [t] with [u] behind it. *)
Definition scanned (l : lex) (t : Z) (u : bytes) (l' : lex) : Prop := lex_scan strtod l = Some l' /\ alike l l' /\ ahead l' u /\ l_token l' = t.

Lemma scan_punct l ws c u : spaces ws -> is_punct c = true -> ahead l (ws ++ c :: u) -> exists l', scanned l c u l'.
Proof.
  intros Hws Hp A. assert (0 < c < 128 /\ is_space c = false) as [Hr Hc].
  { unfold is_punct in Hp. repeat (apply orb_true_iff in Hp as [Hp|Hp]); b2p; subst; done. }
  destruct (lex_scan_at l ws c u Hws Hc Hr A) as (l1 & E & Al & J & _). unfold scan_token in E. rewrite Hp in E.
  eexists. split; [exact E|]. split; [exact Al|]. split; [|done]. eapply ahead_stream; [|by apply (just_ahead l1 c)]. done.
Qed.

Lemma scan_quoted l ws ps qs u : spaces ws -> Forall2 piece ps qs -> ahead l (ws ++ 34 :: mjoin ps ++ 34 :: u) ->
  exists l', scanned l TOKEN_STRING u l' /\ l_string l' = Some (mjoin qs).
Proof.
  intros Hws Hp A. destruct (lex_scan_at l ws 34 _ Hws eq_refl ltac:(lia) A) as (l1 & E & Al & [V _] & Hs).
  destruct (string_token ps qs l1 u Hp V Hs) as (l' & E' & Al' & A' & Ht & Hv). exists l'. split; [|done]. split; [by rewrite E|].
  split; [by eapply alike_trans|done].
Qed.

(** Giving back the character that ends a number or a word. *)
Lemma unsave_last l c u t : just l c u -> 0 < c < 128 -> l_saved l = t ++ [c] ->
  exists l', lex_unget_unsave l c = Some l' /\ ahead l' (c :: u) /\ l_saved l' = t /\ alike l l'.
Proof.
  intros J Hc Hs. destruct (unget_ascii l c u J Hc) as (s & E & A). unfold lex_unget_unsave. rewrite not_end, E by lia. cbn [mbind option_bind].
  eexists. split; [done|]. split; [by eapply ahead_stream; [|exact A]|]. split; [|done].
  cbn. rewrite Hs. unfold saved_pop. rewrite length_app. cbn [length]. rewrite Nat.add_sub. by rewrite take_app_length.
Qed.

(** What may follow a number or a word. *)
Definition delimiter (c : Z) : Prop := 0 < c < 128 /\ l_isdigit c = false /\ l_isalpha c = false /\ c <> 46.

Lemma skip_digits_all ds c u : digits ds -> delimiter c -> forall fuel l, ahead l (ds ++ c :: u) -> (length ds < fuel)%nat ->
  exists l', skip_digits fuel l = Some (c, l') /\ eaten l (ds ++ [c]) l' /\ just l' c u.
Proof.
  intros Hd Hc. induction Hd as [|d ds Hd Hds IH]; intros [|fuel] l A Hf; try (simpl in Hf; lia); cbn [skip_digits].
  - destruct (save_ascii l c u A (proj1 Hc)) as (l' & -> & Ea & J). cbn [mbind option_bind]. rewrite (proj1 (proj2 Hc)). by exists l'.
  - destruct (save_ascii l d _ A) as (l1 & -> & Ea & J); [unfold l_isdigit in Hd; b2p; lia|]. cbn [mbind option_bind]. rewrite Hd.
    destruct (IH fuel l1 (just_ahead _ _ _ J)) as (l' & -> & Ea' & J'); [simpl in Hf; lia|]. exists l'. split; [done|]. split; [|done].
    by apply (eaten_trans l [d] l1).
Qed.

Lemma skip_alpha_all ds c u : Forall (fun b => l_isalpha b = true) ds -> delimiter c -> forall fuel l, ahead l (ds ++ c :: u) -> (length ds < fuel)%nat ->
  exists l', skip_alpha fuel l = Some (c, l') /\ eaten l (ds ++ [c]) l' /\ just l' c u.
Proof.
  intros Hd Hc. induction Hd as [|d ds Hd Hds IH]; intros [|fuel] l A Hf; try (simpl in Hf; lia); cbn [skip_alpha].
  - destruct (save_ascii l c u A (proj1 Hc)) as (l' & -> & Ea & J). cbn [mbind option_bind]. rewrite (proj1 (proj2 (proj2 Hc))). by exists l'.
  - destruct (save_ascii l d _ A) as (l1 & -> & Ea & J); [unfold l_isalpha, l_isupper, l_islower in Hd; apply orb_true_iff in Hd as [Hd|Hd]; b2p; lia|].
    cbn [mbind option_bind]. rewrite Hd.
    destruct (IH fuel l1 (just_ahead _ _ _ J)) as (l' & -> & Ea' & J'); [simpl in Hf; lia|]. exists l'. split; [done|]. split; [|done].
    by apply (eaten_trans l [d] l1).
Qed.

Lemma alpha_ascii a : l_isalpha a = true -> 65 <= a <= 122 /\ is_space a = false /\ is_punct a = false.
Proof.
  intros H. assert (65 <= a <= 90 \/ 97 <= a <= 122) as Hr.
  { unfold l_isalpha, l_isupper, l_islower in H. apply orb_true_iff in H as [H|H]; b2p; lia. }
  unfold is_space, is_punct. rewrite !(proj2 (Z.eqb_neq a _)) by lia. split; [lia|done].
Qed.

Lemma scan_word l ws a w c u : spaces ws -> Forall (fun b => l_isalpha b = true) (a :: w) -> delimiter c -> ahead l (ws ++ (a :: w) ++ c :: u) ->
  exists l', scanned l (word_token (a :: w)) (c :: u) l'.
Proof.
  intros Hws Hw Hc A. pose proof (Forall_inv Hw) as Ha. apply Forall_inv_tail in Hw. destruct (alpha_ascii a Ha) as (Hr & Hsp & Hpu).
  destruct (lex_scan_at l ws a (w ++ c :: u) Hws Hsp ltac:(lia) A) as (l1 & E & Al & J & Hs). unfold scan_token in E. rewrite Hpu, Ha in E.
  unfold l_isdigit in E. rewrite (proj2 (Z.eqb_neq a 34)), (proj2 (Z.eqb_neq a 45)), (proj2 (Z.leb_gt a 57)), andb_false_r in E by lia. cbn [orb] in E.
  destruct (skip_alpha_all w c u Hw Hc (S (unread (l_stream l1))) l1 (just_ahead _ _ _ J)) as (l2 & E2 & Ea & J2).
  { rewrite (ahead_unread _ _ (just_ahead _ _ _ J)), length_app. lia. }
  assert (l_saved l2 = (a :: w) ++ [c]) as Hs2 by (destruct Ea as [s ->]; cbn; by rewrite Hs).
  destruct (unsave_last l2 c u (a :: w) J2 (proj1 Hc) Hs2) as (l3 & E3 & A3 & Hs3 & Al3).
  rewrite E2 in E. cbn [mbind option_bind] in E. rewrite E3 in E. cbn [mbind option_bind] in E. rewrite Hs3 in E.
  eexists. split; [exact E|]. split; [|split; [by eapply ahead_stream; [|exact A3]|done]].
  eapply alike_trans; [exact Al|]. eapply alike_trans; [by eapply eaten_alike|exact Al3].
Qed.

(** *** Integers *)

(** The digits of a number: a zero alone, or no leading zero. *)
Definition numeral (ds : bytes) : Prop := digits ds /\ (ds = [48] \/ exists d ds', ds = d :: ds' /\ d <> 48).

Lemma last_digit v : l_isdigit (48 + v mod 10) = true.
Proof. pose proof (Z.mod_pos_bound v 10 ltac:(lia)). unfold l_isdigit. apply andb_true_iff. split; apply Z.leb_le; lia. Qed.

Lemma dec_digits_numeral n v : 0 <= v < 10 ^ Z.of_nat n -> (0 < n)%nat -> numeral (dec_digits n v) /\ (0 < v -> exists d ds, dec_digits n v = d :: ds /\ d <> 48).
Proof.
  revert v. induction n as [|n IH]; intros v Hv Hn; [lia|]. cbn [dec_digits]. rewrite Nat2Z.inj_succ, Z.pow_succ_r in Hv by lia.
  pose proof (last_digit v) as Hlast.
  destruct (v <? 10) eqn:E; b2p; cbn [app].
  - rewrite Z.mod_small in Hlast |- * by lia. split; [split; [by constructor|]|].
    + destruct (decide (v = 0)) as [->|]; [by left|]. right. do 2 eexists. split; [done|]. lia.
    + intros Hp. do 2 eexists. split; [done|]. lia.
  - destruct n as [|n]; [cbn in Hv; lia|]. destruct (IH (v / 10)) as [[Hd _] Hf]; [Z.div_mod_to_equations; lia|lia|].
    destruct Hf as (d & ds & Hds & Hne); [Z.div_mod_to_equations; lia|]. rewrite Hds in Hd |- *.
    split; [split; [apply Forall_app; split; [done|by constructor]|right; by exists d, (ds ++ [48 + v mod 10])]|].
    intros _. by exists d, (ds ++ [48 + v mod 10]).
Qed.

Lemma digits_value_last acc ds x : digits ds -> l_isdigit x = true ->
  fst (digits_value acc (ds ++ [x])) = fst (digits_value acc ds) * 10 + (x - 48).
Proof.
  intros Hd Hx. revert acc. induction Hd as [|d ds Hd Hds IH]; intros acc; cbn [app digits_value].
  - by rewrite Hx.
  - rewrite Hd. specialize (IH (acc * 10 + (d - 48))). destruct (digits_value _ (ds ++ [x])), (digits_value _ ds). done.
Qed.

Lemma dec_digits_value n v : 0 <= v < 10 ^ Z.of_nat n -> (0 < n)%nat -> fst (digits_value 0 (dec_digits n v)) = v.
Proof.
  revert v. induction n as [|n IH]; intros v Hv Hn; [lia|]. cbn [dec_digits]. rewrite Nat2Z.inj_succ, Z.pow_succ_r in Hv by lia.
  pose proof (last_digit v) as Hlast.
  destruct (v <? 10) eqn:E; b2p.
  - change ([] ++ [48 + v mod 10]) with [48 + v mod 10]. cbn [digits_value]. rewrite Hlast. cbn. rewrite Z.mod_small by lia. lia.
  - destruct n as [|n]; [cbn in Hv; lia|]. assert (0 <= v / 10 < 10 ^ Z.of_nat (S n)) as Hr by (Z.div_mod_to_equations; lia).
    rewrite digits_value_last by (done || apply dec_digits_numeral; (done || lia)). rewrite IH by (done || lia). Z.div_mod_to_equations. lia.
Qed.

Lemma print_ld_text v : - 2 ^ 31 <= v < 2 ^ 31 ->
  exists m ds, print_ld v = m ++ ds /\ (m = [] \/ m = [45]) /\ numeral ds /\ json_strtoint (m ++ ds) = (v, zlen (m ++ ds)).
Proof.
  intros Hv. unfold print_ld. pose proof (dec_digits_numeral 10 (Z.abs v) ltac:(lia) ltac:(lia)) as [Hn _].
  pose proof (dec_digits_value 10 (Z.abs v) ltac:(lia) ltac:(lia)) as Hval. set (ds := dec_digits 10 (Z.abs v)) in *.
  pose proof (digits_value_all 0 ds (proj1 Hn)) as Hall. destruct (digits_value 0 ds) as [w n] eqn:E. cbn [fst snd] in Hval, Hall.
  assert (ds <> []) as Hne by (destruct Hn as [_ [->|(d & ds' & -> & _)]]; done).
  assert (0 < zlen ds) as Hlen by (destruct ds; [done|]; rewrite zlen_cons; pose proof (zlen_nonneg ds); lia).
  destruct (v <? 0) eqn:Ev; b2p.
  - exists [45], ds. split; [unfold ds; by rewrite Z.abs_neq by lia|]. split; [by right|]. split; [done|]. unfold json_strtoint.
    change (bget ([45] ++ ds) 0 =? 45) with true. cbn [app drop skipn]. rewrite drop_0, E, zlen_cons.
    rewrite (proj2 (Z.eqb_neq n 0)) by lia. f_equal; lia.
  - exists [], ds. split; [unfold ds; by rewrite Z.abs_eq by lia|]. split; [by left|]. split; [done|]. unfold json_strtoint. cbn [app].
    assert (bget ds 0 =? 45 = false) as ->.
    { destruct Hn as [Hd _]. destruct ds as [|d ds]; [done|]. apply Forall_inv in Hd. change (bget (d :: ds) 0) with d. apply Z.eqb_neq. intros ->. done. }
    rewrite E. f_equal; lia.
Qed.

Lemma scan_int_part_all d ds c u l : numeral (d :: ds) -> delimiter c -> ahead l (ds ++ c :: u) ->
  exists l', scan_int_part d l = Some (Some c, l') /\ eaten l (ds ++ [c]) l' /\ just l' c u.
Proof.
  intros [Hd Hz] Hc A. pose proof (Forall_inv Hd) as Hd0. apply Forall_inv_tail in Hd. unfold scan_int_part.
  destruct Hz as [[= -> ->]|(d' & ds' & [= <- <-] & Hne)].
  - destruct (save_ascii l c u A (proj1 Hc)) as (l' & E & Ea & J). change (48 =? 48) with true. cbn iota. rewrite E. cbn [mbind option_bind].
    rewrite (proj1 (proj2 Hc)). by exists l'.
  - rewrite (proj2 (Z.eqb_neq d 48)), Hd0 by done. unfold more_digits.
    destruct (skip_digits_all ds c u Hd Hc (S (unread (l_stream l))) l A) as (l' & -> & Ea & J); [rewrite (ahead_unread _ _ A), length_app; lia|].
    by exists l'.
Qed.

Lemma scan_number_end l c u v : just l c u -> delimiter c -> flag (l_flags l) JSON_DECODE_INT_AS_REAL = false ->
  (exists t, l_saved l = t ++ [c] /\ json_strtoint t = (v, zlen t)) ->
  exists l', (if negb (flag (l_flags l) JSON_DECODE_INT_AS_REAL) && negb (c =? 46) && negb (c =? 69) && negb (c =? 101) then
        l ← lex_unget_unsave l c;
        let '(intval, n) := json_strtoint (l_saved l) in
        if negb (n =? zlen (l_saved l)) then None
        else Some (with_integer (with_token l TOKEN_INTEGER) intval)
      else scan_real strtod c l) = Some l' /\ alike l l' /\ ahead l' (c :: u) /\ l_token l' = TOKEN_INTEGER /\ l_integer l' = v.
Proof.
  intros J (Hr & _ & Ha & H46) -> (t & Hs & Hv). cbn [negb andb]. rewrite (proj2 (Z.eqb_neq c 46)) by done.
  assert (c =? 69 = false) as -> by (apply Z.eqb_neq; intros ->; done). assert (c =? 101 = false) as -> by (apply Z.eqb_neq; intros ->; done).
  cbn [negb andb]. destruct (unsave_last l c u t J Hr Hs) as (l' & -> & A & Hs' & Al). cbn [mbind option_bind]. rewrite Hs', Hv, Z.eqb_refl. cbn [negb].
  eexists. split; [done|]. split; [exact Al|]. split; [by eapply ahead_stream; [|exact A]|done].
Qed.

Lemma scan_integer l ws v c u : spaces ws -> - 2 ^ 31 <= v < 2 ^ 31 -> delimiter c -> flag (l_flags l) JSON_DECODE_INT_AS_REAL = false ->
  ahead l (ws ++ print_ld v ++ c :: u) -> exists l', scanned l TOKEN_INTEGER (c :: u) l' /\ l_integer l' = v.
Proof.
  intros Hws Hv Hc Hf A. destruct (print_ld_text v Hv) as (m & ds & Ht & Hm & Hn & Hval). rewrite Ht, <- app_assoc in A.
  destruct ds as [|d ds]; [by destruct Hn as [_ [|(? & ? & ? & _)]]|]. pose proof (Forall_inv (proj1 Hn)) as Hd.
  assert (48 <= d <= 57) as Hdr by (unfold l_isdigit in Hd; b2p; lia).
  assert (Hgo : forall l1 l2, alike l l1 -> scan_token (bget (m ++ d :: ds) 0) l1 = lex_scan_number strtod (bget (m ++ d :: ds) 0) l1 ->
    (exists s, (if bget (m ++ d :: ds) 0 =? 45 then lex_get_save (with_token l1 TOKEN_INVALID) else Some (bget (m ++ d :: ds) 0, with_token l1 TOKEN_INVALID))
      = Some (d, l2) /\ l2 = with_saved (with_stream (with_token l1 TOKEN_INVALID) s) (m ++ [d])) -> ahead l2 (ds ++ c :: u) ->
    exists l', scan_token (bget (m ++ d :: ds) 0) l1 = Some l' /\ alike l l' /\ ahead l' (c :: u) /\ l_token l' = TOKEN_INTEGER /\ l_integer l' = v).
  { intros l1 l2 Al -> (s & E2 & Hl2) A2. unfold lex_scan_number. rewrite E2. cbn [mbind option_bind].
    destruct (scan_int_part_all d ds c u l2 Hn Hc A2) as (l3 & -> & Ea & J3). cbn [mbind option_bind].
    assert (alike l l3) as Al3 by (eapply alike_trans; [exact Al|]; eapply alike_trans; [|by eapply eaten_alike]; by rewrite Hl2).
    destruct (scan_number_end l3 c u v J3 Hc) as (l' & -> & Al' & H'); [by rewrite (proj1 Al3)| |].
    { destruct Ea as [s3 ->]. rewrite Hl2. cbn. exists (m ++ d :: ds). split; [|done]. by rewrite <- !app_assoc. }
    exists l'. split; [done|]. split; [by eapply alike_trans|done]. }
  destruct Hm as [->| ->]; cbn [app] in A, Hgo.
  - assert (is_space d = false /\ is_punct d = false) as [Hsp Hpu] by (unfold is_space, is_punct; by rewrite !(proj2 (Z.eqb_neq d _)) by lia).
    destruct (lex_scan_at l ws d (ds ++ c :: u) Hws Hsp ltac:(lia) A) as (l1 & E & Al & J & Hs).
    destruct (Hgo l1 (with_token l1 TOKEN_INVALID) Al) as (l' & E' & H' & H2 & H3 & H4).
    + change (bget (d :: ds) 0) with d. unfold scan_token. rewrite Hpu, Hd, (proj2 (Z.eqb_neq d 34)) by lia. done.
    + change (bget (d :: ds) 0) with d. rewrite (proj2 (Z.eqb_neq d 45)) by lia. exists (l_stream l1). split; [done|]. rewrite <- Hs. by destruct l1.
    + eapply ahead_stream; [|by eapply just_ahead]. done.
    + exists l'. split; [|done]. split; [by rewrite E|done].
  - destruct (lex_scan_at l ws 45 (d :: ds ++ c :: u) Hws eq_refl ltac:(lia) A) as (l1 & E & Al & J & Hs).
    destruct (save_ascii (with_token l1 TOKEN_INVALID) d (ds ++ c :: u)) as (l2 & E2 & [s Ea] & J2); [by eapply ahead_stream; [|by eapply just_ahead]|lia|].
    destruct (Hgo l1 l2 Al) as (l' & E' & H' & H2 & H3 & H4); [done| |by eapply just_ahead|].
    + exists s. split; [done|]. rewrite Ea. cbn. by rewrite Hs.
    + exists l'. split; [|done]. split; [by rewrite E|done].
Qed.

(** ** Values *)

Definition container (j : json) : bool := match j with JArray _ | JObject _ => true | _ => false end.

Definition value_token (j : json) : Z :=
  match j with
  | JObject _ => 123 | JArray _ => 91 | JString _ => TOKEN_STRING | JInteger _ => TOKEN_INTEGER | JReal _ => TOKEN_REAL
  | JTrue => TOKEN_TRUE | JFalse => TOKEN_FALSE | JNull => TOKEN_NULL
  end.

(** [out] is read as the value [j], wherever it stands. *)
Definition reads (out : bytes) (j : json) : Prop := forall pf pflags l ws d,
  spaces ws -> ahead l (ws ++ out ++ d) -> (container j = true \/ exists c u, d = c :: u /\ delimiter c) ->
  (height j <= pf)%nat -> l_depth l + Z.of_nat (height j) <= JSON_PARSER_MAX_DEPTH -> flag (l_flags l) JSON_DECODE_INT_AS_REAL = false ->
  exists l1 l2, lex_scan strtod l = Some l1 /\ l_token l1 = value_token j
    /\ parse_value strtod pf pflags l1 = Some (Some j, l2) /\ ahead l2 d /\ alike l l2.

Definition deeper (l : lex) : lex := with_depth l (l_depth l + 1).

Lemma parse_value_ok pf pflags l1 j l2 d : l_depth l1 + 1 <= JSON_PARSER_MAX_DEPTH -> ahead l2 d -> alike (deeper l1) l2 ->
  (if l_token l1 =? 123 then parse_object strtod (parse_value strtod pf pflags) pflags (deeper l1)
   else if l_token l1 =? 91 then parse_array strtod (parse_value strtod pf pflags) (deeper l1)
   else parse_scalar pflags (deeper l1)) = Some (Some j, l2) ->
  exists l3, parse_value strtod (S pf) pflags l1 = Some (Some j, l3) /\ ahead l3 d /\ alike l1 l3.
Proof.
  intros Hd A (Hf & Hdp & He) E. cbn [parse_value]. fold (deeper l1). change (l_depth (deeper l1)) with (l_depth l1 + 1).
  rewrite (proj2 (Z.ltb_ge _ _)) by done. change (l_token (deeper l1)) with (l_token l1). rewrite E. cbn [mbind option_bind].
  eexists. split; [done|]. split; [by eapply ahead_stream; [|exact A]|]. cbn in Hdp. unfold alike. cbn. rewrite Hf, He, Hdp. split_and!; try done. lia.
Qed.

Lemma height_pos j : (0 < height j)%nat.
Proof. destruct j; simpl; lia. Qed.

(** A value of one token. *)
Lemma scalar_reads out j : container j = false ->
  (forall pflags l ws c u, spaces ws -> delimiter c -> flag (l_flags l) JSON_DECODE_INT_AS_REAL = false -> ahead l (ws ++ out ++ c :: u) ->
    exists l1, scanned l (value_token j) (c :: u) l1 /\ exists s, parse_scalar pflags (deeper l1) = Some (Some j, with_string (deeper l1) s)) -> reads out j.
Proof.
  intros Hj H pf pflags l ws d Hws A [Hc|(c & u & -> & Hc)] Hpf Hd Hf; [congruence|].
  destruct (H pflags l ws c u Hws Hc Hf A) as (l1 & (E & Al & A1 & Ht) & s & Hs). pose proof (height_pos j). destruct pf as [|pf]; [lia|].
  destruct (parse_value_ok pf pflags l1 j (with_string (deeper l1) s) (c :: u)) as (l3 & E3 & A3 & Al3); [destruct Al as (_ & -> & _); lia|by eapply ahead_stream; [|exact A1]|done| |].
  { rewrite Ht. by destruct j. }
  exists l1, l3. split_and!; try done. by eapply alike_trans.
Qed.

(** *** Scalars *)

Definition plain_text (s : bytes) : bool := forallb (fun b => (0 <=? b) && (b <? 256)) s && utf8_check_string s && negb (has_nul s).

Lemma plain_text_pieces s flags : plain_text s = true ->
  exists ps qs, dump_string s flags = (0, 34 :: mjoin ps ++ [34]) /\ Forall2 piece ps qs /\ mjoin qs = s.
Proof.
  unfold plain_text. intros [[Hb Hu]%andb_true_iff _]%andb_true_iff. destruct (utf8_chars s) as (qs & -> & Hq); [|done|].
  { rewrite forallb_forall in Hb. apply Forall_forall. intros b Hin. apply list_elem_of_In, Hb in Hin. unfold is_byte. b2p. lia. }
  exists (shown flags <$> qs), qs.*1. split; [by apply dump_string_text|]. split; [|done]. clear Hb Hu.
  induction Hq as [|[q cp] qs Hq Hqs IH]; [constructor|]. cbn. constructor; [by apply shown_piece|apply IH].
Qed.

Lemma string_reads s flags : plain_text s = true -> exists out, dump_string s flags = (0, out) /\ reads out (JString s).
Proof.
  intros Hs. destruct (plain_text_pieces s flags Hs) as (ps & qs & -> & Hp & Hq). eexists. split; [done|].
  apply scalar_reads; [done|]. intros pflags l ws c u Hws _ _ A.
  destruct (scan_quoted l ws ps qs (c :: u) Hws Hp) as (l1 & Hl1 & Hv); [by rewrite <- app_comm_cons, <- app_assoc in A|].
  exists l1. split; [done|]. exists None. destruct Hl1 as (_ & _ & _ & Ht). unfold parse_scalar. cbn [l_token deeper with_depth] in *. rewrite Ht.
  change (TOKEN_STRING =? TOKEN_STRING) with true. cbn iota. change (l_string (deeper l1)) with (l_string l1). rewrite Hv. cbn [mbind option_bind].
  unfold plain_text in Hs. apply andb_true_iff in Hs as [_ Hn]. rewrite Hq. apply negb_true_iff in Hn. by rewrite Hn, andb_false_r, has_room.
Qed.

Lemma integer_reads v : - 2 ^ 31 <= v < 2 ^ 31 -> reads (print_ld v) (JInteger v).
Proof.
  intros Hv. apply scalar_reads; [done|]. intros pflags l ws c u Hws Hc Hf A.
  destruct (scan_integer l ws v c u Hws Hv Hc Hf A) as (l1 & Hl1 & <-). exists l1. split; [done|]. exists (l_string l1).
  destruct Hl1 as (_ & _ & _ & Ht). unfold parse_scalar. change (l_token (deeper l1)) with (l_token l1). rewrite Ht. by destruct l1.
Qed.

Lemma word_reads a w j : Forall (fun b => l_isalpha b = true) (a :: w) -> word_token (a :: w) = value_token j ->
  (j = JTrue \/ j = JFalse \/ j = JNull) -> reads (a :: w) j.
Proof.
  intros Hw Ht Hj. apply scalar_reads; [by destruct Hj as [->|[->| ->]]|]. intros pflags l ws c u Hws Hc _ A.
  destruct (scan_word l ws a w c u Hws Hw Hc A) as (l1 & Hl1). rewrite Ht in Hl1. exists l1. split; [done|]. exists (l_string l1).
  destruct Hl1 as (_ & _ & _ & Ht1). unfold parse_scalar. change (l_token (deeper l1)) with (l_token l1). rewrite Ht1. destruct l1. by destruct Hj as [->|[->| ->]].
Qed.

(** *** Layout *)

Lemma dump_spaces_spaces fuel n : spaces (dump_spaces fuel n).
Proof.
  revert n. induction fuel as [|fuel IH]; intros n; [constructor|]. cbn [dump_spaces]. case_if; [|constructor].
  apply Forall_app. split; [|apply IH]. apply Forall_replicate. done.
Qed.

Lemma dump_indent_spaces flags depth space : spaces (dump_indent flags depth space).
Proof.
  unfold dump_indent. case_if; [constructor; [done|apply dump_spaces_spaces]|]. case_if; repeat constructor.
Qed.

Lemma space_delimiter b : is_space b = true -> delimiter b.
Proof. unfold is_space. intros Hb. repeat (apply orb_true_iff in Hb as [Hb|Hb]); b2p; subst; done. Qed.

Lemma delimited ws c u : spaces ws -> delimiter c -> exists c' u', ws ++ c :: u = c' :: u' /\ delimiter c'.
Proof. intros [|b ws' Hb Hws] Hc; [by exists c, u|]. exists b, (ws' ++ c :: u). split; [done|]. by apply space_delimiter. Qed.

(** *** Arrays *)

(** Every value of the list is written as a text that is read as the value. *)
Definition all_read (dump : json -> Z * bytes) (l : list json) : Prop := Forall (fun v => exists out, dump v = (0, out) /\ reads out v) l.

Definition fits (pf : nat) (l : lex) (vs : list json) : Prop :=
  Forall (fun v => (height v <= pf)%nat /\ l_depth l + Z.of_nat (height v) <= JSON_PARSER_MAX_DEPTH) vs
  /\ flag (l_flags l) JSON_DECODE_INT_AS_REAL = false.

Lemma fits_alike pf l l' vs : alike l l' -> fits pf l vs -> fits pf l' vs.
Proof. intros (E1 & E2 & _) H. unfold fits. by rewrite E1, E2. Qed.

Lemma value_token_first j : value_token j <> 93 /\ value_token j <> TOKEN_EOF.
Proof. by destruct j. Qed.

Lemma elements_read dump flags depth vs : all_read dump vs -> vs <> [] ->
  exists out, dump_elements dump flags depth vs = (0, out) /\ (length vs <= S (length out))%nat
    /\ forall fuel pf pflags arr l ws d, spaces ws -> ahead l (ws ++ out ++ 93 :: d) -> fits pf l vs -> (length vs <= fuel)%nat ->
       exists l1 l2, lex_scan strtod l = Some l1 /\ l_token l1 <> 93
         /\ parse_elements strtod (parse_value strtod pf pflags) fuel arr l1 = Some (Some (JArray (arr ++ vs)), l2) /\ ahead l2 d /\ alike l l2.
Proof.
  induction 1 as [|v vs (ov & Hdv & Hrv) Hvs IH]; intros Hne; [done|]. cbn [dump_elements]. rewrite Hdv. change (negb (0 =? 0)) with false. cbn iota.
  destruct (decide (vs = [])) as [->|Hvs'].
  - cbn [dump_elements is_nil separated]. eexists. split; [done|]. split; [simpl; lia|]. intros [|fuel] pf pflags arr l ws d Hws A [Hfit Hf] Hfuel; [simpl in Hfuel; lia|].
    apply Forall_inv in Hfit as [Hh Hd]. rewrite app_nil_r, <- app_assoc in A. pose proof (dump_indent_spaces flags depth false) as Hind.
    destruct (Hrv pf pflags l ws _ Hws A) as (l1 & l2 & E1 & Ht & E2 & A2 & Al2); [right; by apply delimited|done|done|done|].
    destruct (scan_punct l2 _ 93 d Hind eq_refl A2) as (l3 & E3 & Al3 & A3 & Ht3). destruct (value_token_first v) as [H93 Heof]. exists l1, l3.
    split; [done|]. split; [by rewrite Ht|]. split; [|split; [done|by eapply alike_trans]].
    cbn [parse_elements]. rewrite Ht, (proj2 (Z.eqb_neq _ _)), E2 by done. cbn [mbind option_bind]. rewrite has_room, E3. cbn [negb]. cbn [mbind option_bind]. rewrite Ht3. done.
  - destruct (IH Hvs') as (orest & Hrest & Hlen & Hgo). rewrite Hrest. assert (is_nil vs = false) as -> by (by destruct vs). cbn [separated].
    eexists. split; [done|]. split; [rewrite length_app; simpl; rewrite length_app; lia|].
    intros [|fuel] pf pflags arr l ws d Hws A [Hfit Hf] Hfuel; [simpl in Hfuel; lia|].
    pose proof (Forall_inv Hfit) as [Hh Hd]. apply Forall_inv_tail in Hfit. rewrite <- app_assoc in A. cbn [app] in A. rewrite <- app_assoc in A.
    destruct (Hrv pf pflags l ws _ Hws A) as (l1 & l2 & E1 & Ht & E2 & A2 & Al2); [right; do 2 eexists; by split|done|done|done|].
    destruct (scan_punct l2 [] 44 _ ltac:(constructor) eq_refl A2) as (l3 & E3 & Al3 & A3 & Ht3). pose proof (alike_trans _ _ _ Al2 Al3) as Al13.
    destruct (Hgo fuel pf pflags (arr ++ [v]) l3 _ d (dump_indent_spaces flags (depth + 1) true) A3) as (l4 & l5 & E4 & H4 & E5 & A5 & Al5);
      [by eapply fits_alike; [exact Al13|]|simpl in Hfuel; lia|]. destruct (value_token_first v) as [H93 Heof].
    exists l1, l5. split; [done|]. split; [by rewrite Ht|]. split; [|split; [done|by eapply alike_trans]].
    cbn [parse_elements]. rewrite Ht, (proj2 (Z.eqb_neq _ _)), E2 by done. cbn [mbind option_bind]. rewrite has_room, E3. cbn [negb]. cbn [mbind option_bind]. rewrite Ht3.
    change (44 =? 44) with true. cbn iota. rewrite E4. cbn [mbind option_bind]. rewrite E5. by rewrite <- app_assoc.
Qed.

(** *** Objects *)

Lemma assoc_new key v ms : key ∉ ms.*1 -> assoc_get key ms = None /\ assoc_set key v ms = ms ++ [(key, v)].
Proof.
  induction ms as [|[k w] ms IH]; intros Hk; [done|]. cbn in Hk. apply not_elem_of_cons in Hk as [Hne Hk]. cbn.
  rewrite bool_decide_eq_false_2 by congruence. destruct (IH Hk) as [-> ->]. done.
Qed.

(** One member, up to what follows its value. *)
Definition member_text (flags : Z) (key ov : bytes) : bytes := key ++ (if flag flags JSON_COMPACT then [58] else [58; 32]) ++ ov.

Lemma member_read flags k v okey ov : plain_text k = true -> dump_string k flags = (0, okey) -> reads ov v ->
  forall pf pflags obj l ws c u, spaces ws -> delimiter c -> ahead l (ws ++ member_text flags okey ov ++ c :: u) -> fits pf l [v] -> k ∉ obj.*1 ->
  exists l1 l2, lex_scan strtod l = Some l1 /\ l_token l1 <> 125 /\ ahead l2 (c :: u) /\ alike l l2
    /\ forall fuel, parse_members strtod (parse_value strtod pf pflags) (S fuel) pflags obj l1
       = (l ← lex_scan strtod l2;
          if l_token l =? 44 then l ← lex_scan strtod l; parse_members strtod (parse_value strtod pf pflags) fuel pflags (obj ++ [(k, v)]) l
          else if negb (l_token l =? 125) then Some (None, error_set l json_error_invalid_syntax)
          else Some (Some (JObject (obj ++ [(k, v)])), l)).
Proof.
  intros Hk Hok Hrv pf pflags obj l ws c u Hws Hc A [Hfit Hf] Hnew. apply Forall_inv in Hfit as [Hh Hd].
  destruct (plain_text_pieces k flags Hk) as (ps & qs & E & Hp & Hq). rewrite Hok in E. injection E as ->. unfold member_text in A.
  rewrite <- app_comm_cons, <- !app_assoc in A. cbn [app] in A. rewrite <- app_assoc in A.
  destruct (scan_quoted l ws ps qs _ Hws Hp A) as (l1 & (E1 & Al1 & A1 & Ht1) & Hv1).
  set (sp := if flag flags JSON_COMPACT then [] else [32]). assert (spaces sp) as Hsp by (unfold sp; case_if; repeat constructor).
  assert (ahead (with_string l1 None) ([] ++ 58 :: sp ++ ov ++ c :: u)) as A1'.
  { eapply ahead_stream; [|exact A1 || (unfold sp; destruct (flag flags JSON_COMPACT); exact A1)]. done. }
  destruct (scan_punct _ [] 58 _ ltac:(constructor) eq_refl A1') as (l2 & E2 & Al2 & A2 & Ht2).
  assert (alike l l2) as Al12 by (eapply alike_trans; [exact Al1|exact Al2]). destruct Al12 as (Ef & Ed & Ee).
  destruct (Hrv pf pflags l2 sp _ Hsp A2) as (l3 & l4 & E3 & Ht3 & E4 & A4 & Al4); [right; by exists c, u|done|by rewrite Ed|by rewrite Ef|].
  exists l1, l4. split; [done|]. split; [by rewrite Ht1|]. split; [done|]. split; [by eapply alike_trans; [|exact Al4]|].
  intros fuel. cbn [parse_members]. rewrite Ht1, Hv1. change (negb (TOKEN_STRING =? TOKEN_STRING)) with false. cbn iota. cbn [mbind option_bind].
  destruct (assoc_new k v obj Hnew) as [Hget Hset]. unfold plain_text in Hk. apply andb_true_iff in Hk as [_ Hn]. apply negb_true_iff in Hn.
  rewrite Hq, Hn, Hget, (bool_decide_eq_false_2 (is_Some None)), andb_false_r by (by intros [? ?]). rewrite E2. cbn [mbind option_bind]. rewrite Ht2.
  change (negb (58 =? 58)) with false. cbn iota. rewrite E3. cbn [mbind option_bind]. rewrite E4. cbn [mbind option_bind]. rewrite has_room, Hset. done.
Qed.

Lemma members_read dump flags depth ms : all_read dump ms.*2 -> Forall (fun kv => plain_text kv.1 = true) ms -> ms <> [] ->
  exists out, dump_members dump flags depth ms = (0, out) /\ (length ms <= S (length out))%nat
    /\ forall fuel pf pflags obj l ws d, spaces ws -> ahead l (ws ++ out ++ 125 :: d) -> fits pf l ms.*2 -> (length ms <= fuel)%nat -> NoDup (obj ++ ms).*1 ->
       exists l1 l2, lex_scan strtod l = Some l1 /\ l_token l1 <> 125
         /\ parse_members strtod (parse_value strtod pf pflags) fuel pflags obj l1 = Some (Some (JObject (obj ++ ms)), l2) /\ ahead l2 d /\ alike l l2.
Proof.
  induction ms as [|[k v] ms IH]; intros Hall Hks Hne; [done|]. cbn in Hall. inversion Hall as [|? ? (ov & Hdv & Hrv) Hall']; subst. clear Hall.
  pose proof (Forall_inv Hks) as Hk. apply Forall_inv_tail in Hks. cbn in Hk. destruct (plain_text_pieces k flags Hk) as (ps & qs & Hok & _ & _).
  cbn [dump_members]. rewrite Hok, Hdv. change (negb (0 =? 0)) with false. cbn iota.
  assert (Hnew : forall obj, NoDup (obj ++ (k, v) :: ms).*1 -> k ∉ obj.*1 /\ NoDup ((obj ++ [(k, v)]) ++ ms).*1).
  { intros obj Hnd. split; [|by rewrite <- app_assoc]. rewrite fmap_app in Hnd. apply NoDup_app in Hnd as (_ & Hd & _). intros Hin. apply (Hd k Hin). cbn. left. }
  destruct (decide (ms = [])) as [->|Hms].
  - cbn [dump_members is_nil separated]. eexists. split; [done|]. split; [simpl; lia|].
    intros [|fuel] pf pflags obj l ws d Hws A Hfit Hfuel Hnd; [simpl in Hfuel; lia|]. destruct (Hnew obj Hnd) as [Hk' _].
    pose proof (dump_indent_spaces flags depth false) as Hind. destruct (delimited _ 125 d Hind ltac:(done)) as (c & u & Hcu & Hc).
    rewrite app_nil_r, !(app_assoc (34 :: _)), !(app_assoc (_ ++ _)), <- (app_assoc _ _ (125 :: d)), Hcu in A. rewrite <- (app_assoc (34 :: _)) in A.
    destruct (member_read flags k v _ ov Hk Hok Hrv pf pflags obj l ws c u Hws Hc A Hfit Hk') as (l1 & l2 & E1 & Ht1 & A2 & Al2 & E2).
    rewrite <- Hcu in A2. destruct (scan_punct l2 _ 125 d Hind eq_refl A2) as (l3 & E3 & Al3 & A3 & Ht3).
    exists l1, l3. split; [done|]. split; [done|]. split; [|split; [done|by eapply alike_trans]]. rewrite E2, E3. cbn [mbind option_bind]. by rewrite Ht3.
  - destruct (IH Hall' Hks Hms) as (orest & Hrest & Hlen & Hgo). rewrite Hrest. assert (is_nil ms = false) as -> by (by destruct ms). cbn [separated].
    eexists. split; [done|]. split; [rewrite !length_app; simpl; rewrite !length_app; lia|].
    intros [|fuel] pf pflags obj l ws d Hws A Hfit Hfuel Hnd; [simpl in Hfuel; lia|]. destruct (Hnew obj Hnd) as [Hk' Hnd'].
    assert (ahead l (ws ++ member_text flags (34 :: mjoin ps ++ [34]) ov ++ 44 :: dump_indent flags (depth + 1) true ++ orest ++ 125 :: d)) as A'.
    { eapply eq_ind; [exact A|]. unfold member_text. by rewrite <- !app_assoc. }
    destruct (member_read flags k v _ ov Hk Hok Hrv pf pflags obj l ws 44 _ Hws ltac:(done) A') as (l1 & l2 & E1 & Ht1 & A2 & Al2 & E2); [|done|].
    { destruct Hfit as [Hfit Hf]. split; [|done]. apply Forall_inv in Hfit. by constructor. }
    destruct (scan_punct l2 [] 44 _ ltac:(constructor) eq_refl A2) as (l3 & E3 & Al3 & A3 & Ht3). pose proof (alike_trans _ _ _ Al2 Al3) as Al13.
    destruct (Hgo fuel pf pflags (obj ++ [(k, v)]) l3 _ d (dump_indent_spaces flags (depth + 1) true) A3) as (l4 & l5 & E4 & H4 & E5 & A5 & Al5);
      [|simpl in Hfuel; lia|done|].
    { eapply fits_alike; [exact Al13|]. destruct Hfit as [Hfit Hf]. split; [|done]. by apply Forall_inv_tail in Hfit. }
    exists l1, l5. split; [done|]. split; [done|]. split; [|split; [done|by eapply alike_trans]].
    rewrite E2, E3. cbn [mbind option_bind]. rewrite Ht3. change (44 =? 44) with true. cbn iota. rewrite E4. cbn [mbind option_bind]. rewrite E5. by rewrite <- app_assoc.
Qed.

(** *** Any value *)

(** What can be written and read again: 32-bit integers, texts in UTF-8
    without a NUL, each key once, and no real number, whose text the C library
    chooses. *)
Fixpoint writable (j : json) : bool :=
  match j with
  | JObject ms => bool_decide (NoDup ms.*1) && forallb (fun kv => plain_text kv.1 && writable kv.2) ms
  | JArray vs => forallb writable vs
  | JString s => plain_text s
  | JInteger v => (- 2 ^ 31 <=? v) && (v <? 2 ^ 31)
  | JReal _ => false
  | JTrue | JFalse | JNull => true
  end.

Lemma height_array vs v : v ∈ vs -> (height v <= foldr (fun v n => Nat.max (height v) n) O vs)%nat.
Proof. induction vs as [|w vs IH]; intros Hin; [by apply elem_of_nil in Hin|]. apply elem_of_cons in Hin as [->|Hin]; simpl; [lia|]. specialize (IH Hin). lia. Qed.

Lemma height_object (ms : list (bytes * json)) : foldr (fun kv n => Nat.max (height kv.2) n) O ms = foldr (fun v n => Nat.max (height v) n) O ms.*2.
Proof. induction ms as [|[k v] ms IH]; [done|]. cbn. by rewrite IH. Qed.

Lemma forallb_Forall {A} (f : A -> bool) l : forallb f l = true -> Forall (fun x => f x = true) l.
Proof. induction l as [|x l IH]; intros H; [constructor|]. cbn in H. apply andb_true_iff in H as [Hx Hl]. constructor; auto. Qed.

Lemma fits_children pf l vs : (foldr (fun v n => Nat.max (height v) n) O vs <= pf)%nat ->
  l_depth l + Z.of_nat (foldr (fun v n => Nat.max (height v) n) O vs) <= JSON_PARSER_MAX_DEPTH -> flag (l_flags l) JSON_DECODE_INT_AS_REAL = false -> fits pf l vs.
Proof. intros Hpf Hd Hf. split; [|done]. apply Forall_forall. intros v Hin. pose proof (height_array vs v Hin). lia. Qed.

Lemma array_reads vs flags depth oes : vs <> [] -> (length vs <= S (length oes))%nat ->
  (forall fuel pf pflags arr l ws d, spaces ws -> ahead l (ws ++ oes ++ 93 :: d) -> fits pf l vs -> (length vs <= fuel)%nat ->
       exists l1 l2, lex_scan strtod l = Some l1 /\ l_token l1 <> 93
         /\ parse_elements strtod (parse_value strtod pf pflags) fuel arr l1 = Some (Some (JArray (arr ++ vs)), l2) /\ ahead l2 d /\ alike l l2) ->
  reads ([91] ++ dump_indent flags depth false ++ oes ++ [93]) (JArray vs).
Proof.
  intros Hne Hlen Hgo pf pflags l ws d Hws A _ Hpf Hd Hf. rewrite <- !app_assoc in A. cbn [app] in A.
  destruct (scan_punct l ws 91 _ Hws eq_refl A) as (l1 & E1 & Al1 & A1 & Ht1). cbn [height] in Hpf, Hd. destruct pf as [|pf]; [lia|].
  assert (ahead (deeper l1) (dump_indent flags depth false ++ oes ++ 93 :: d)) as A1' by (by eapply ahead_stream; [|exact A1]).
  pose proof Al1 as (Ef & Ed & Ee).
  destruct (Hgo (S (unread (l_stream (deeper l1)))) pf pflags [] (deeper l1) _ d (dump_indent_spaces flags depth false) A1') as (l2 & l3 & E2 & H2 & E3 & A3 & Al3).
  { apply fits_children; [lia|cbn; lia|cbn; by rewrite Ef]. }
  { rewrite (ahead_unread _ _ A1'), !length_app. simpl. lia. }
  destruct (parse_value_ok pf pflags l1 (JArray vs) l3 d) as (l4 & E4 & A4 & Al4); [lia|done|done| |].
  { rewrite Ht1. change (91 =? 123) with false. change (91 =? 91) with true. cbn iota. unfold parse_array. rewrite has_room. cbn [negb]. rewrite E2. cbn [mbind option_bind].
    by rewrite (proj2 (Z.eqb_neq _ _)). }
  exists l1, l4. split_and!; try done. by eapply alike_trans.
Qed.

Lemma object_reads ms flags depth oms : ms <> [] -> NoDup ms.*1 -> (length ms <= S (length oms))%nat ->
  (forall fuel pf pflags obj l ws d, spaces ws -> ahead l (ws ++ oms ++ 125 :: d) -> fits pf l ms.*2 -> (length ms <= fuel)%nat -> NoDup (obj ++ ms).*1 ->
       exists l1 l2, lex_scan strtod l = Some l1 /\ l_token l1 <> 125
         /\ parse_members strtod (parse_value strtod pf pflags) fuel pflags obj l1 = Some (Some (JObject (obj ++ ms)), l2) /\ ahead l2 d /\ alike l l2) ->
  reads ([123] ++ dump_indent flags depth false ++ oms ++ [125]) (JObject ms).
Proof.
  intros Hne Hnd Hlen Hgo pf pflags l ws d Hws A _ Hpf Hd Hf. rewrite <- !app_assoc in A. cbn [app] in A.
  destruct (scan_punct l ws 123 _ Hws eq_refl A) as (l1 & E1 & Al1 & A1 & Ht1). cbn [height] in Hpf, Hd. rewrite height_object in Hpf, Hd. destruct pf as [|pf]; [lia|].
  assert (ahead (deeper l1) (dump_indent flags depth false ++ oms ++ 125 :: d)) as A1' by (by eapply ahead_stream; [|exact A1]).
  pose proof Al1 as (Ef & Ed & Ee).
  destruct (Hgo (S (unread (l_stream (deeper l1)))) pf pflags [] (deeper l1) _ d (dump_indent_spaces flags depth false) A1') as (l2 & l3 & E2 & H2 & E3 & A3 & Al3); [| |done|].
  { apply fits_children; [lia|cbn; lia|cbn; by rewrite Ef]. }
  { rewrite (ahead_unread _ _ A1'), !length_app. simpl. lia. }
  destruct (parse_value_ok pf pflags l1 (JObject ms) l3 d) as (l4 & E4 & A4 & Al4); [lia|done|done| |].
  { rewrite Ht1. change (123 =? 123) with true. cbn iota. unfold parse_object. rewrite has_room. cbn [negb]. rewrite E2. cbn [mbind option_bind]. by rewrite (proj2 (Z.eqb_neq _ _)). }
  exists l1, l4. split_and!; try done. by eapply alike_trans.
Qed.

(** The empty containers. *)
Lemma empty_reads o c j : (o, c, j) = (91, 93, JArray []) \/ (o, c, j) = (123, 125, JObject []) -> reads [o; c] j.
Proof.
  intros Hj pf pflags l ws d Hws A _ Hpf Hd Hf. assert (is_punct o = true /\ is_punct c = true /\ value_token j = o /\ height j = 1%nat) as (Ho & Hc & Hv & Hh)
    by (by destruct Hj as [[= -> -> ->]|[= -> -> ->]]).
  destruct (scan_punct l ws o (c :: d) Hws Ho A) as (l1 & E1 & Al1 & A1 & Ht1). destruct pf as [|pf]; [lia|].
  destruct (scan_punct (deeper l1) [] c d ltac:(constructor) Hc) as (l2 & E2 & Al2 & A2 & Ht2); [by eapply ahead_stream; [|exact A1]|].
  destruct (parse_value_ok pf pflags l1 j l2 d) as (l3 & E3 & A3 & Al3); [destruct Al1 as (_ & -> & _); lia|done|done| |].
  { rewrite Ht1. unfold parse_object, parse_array. rewrite !has_room. cbn [negb]. rewrite E2. cbn [mbind option_bind]. rewrite Ht2. by destruct Hj as [[= -> -> ->]|[= -> -> ->]]. }
  exists l1, l3. split_and!; try done; [congruence|by eapply alike_trans].
Qed.

Context (print_g : Z -> Z -> bytes).

Definition keeps_order (flags : Z) : Prop := flag flags JSON_EMBED = false /\ flag flags JSON_SORT_KEYS = false.

Lemma value_written n : forall j flags depth, writable j = true -> (height j <= n)%nat -> keeps_order flags ->
  exists out, do_dump print_g n j flags depth = (0, out) /\ reads out j.
Proof.
  induction n as [|n IH]; intros j flags depth Hw Hh [Hemb Hsort]; [pose proof (height_pos j); lia|]. cbn [do_dump]. rewrite Hemb.
  assert (Hsub : forall vs, Forall (fun v => writable v = true) vs -> (foldr (fun v n => Nat.max (height v) n) O vs <= n)%nat ->
    all_read (fun v => do_dump print_g n v flags (depth + 1)) vs).
  { intros vs Hvs Hle. apply Forall_forall. intros v Hin. rewrite Forall_forall in Hvs. pose proof (height_array vs v Hin). apply IH; [by apply Hvs|lia|done]. }
  destruct j as [ms|vs|t|v|r| | |]; cbn [writable height] in Hw, Hh.
  - apply andb_true_iff in Hw as [Hnd Hms]. apply bool_decide_eq_true_1 in Hnd. rewrite height_object in Hh.
    destruct ms as [|kv ms0] eqn:Ems; [eexists; split; [done|]; apply empty_reads; by right|]. rewrite <- Ems in *. assert (ms <> []) as Hne by (by rewrite Ems).
    assert (is_nil ms = false) as -> by (by rewrite Ems). unfold dump_order. rewrite Hsort. apply forallb_Forall in Hms.
    destruct (members_read (fun v => do_dump print_g n v flags (depth + 1)) flags depth ms) as (oms & Hd & Hlen & Hgo); [| |done|].
    + apply Hsub; [|lia]. apply Forall_fmap. eapply Forall_impl; [exact Hms|]. intros kv' H'. by apply andb_true_iff in H' as [_ H'].
    + eapply Forall_impl; [exact Hms|]. intros kv' H'. by apply andb_true_iff in H' as [H' _].
    + rewrite Hd. eexists. split; [done|]. by apply object_reads.
  - destruct vs as [|v vs0] eqn:Evs; [eexists; split; [done|]; apply empty_reads; by left|]. rewrite <- Evs in *. assert (vs <> []) as Hne by (by rewrite Evs).
    assert (is_nil vs = false) as -> by (by rewrite Evs).
    destruct (elements_read (fun v => do_dump print_g n v flags (depth + 1)) flags depth vs) as (oes & Hd & Hlen & Hgo); [|done|].
    + apply Hsub; [by apply forallb_Forall|lia].
    + rewrite Hd. eexists. split; [done|]. by apply array_reads.
  - by apply string_reads.
  - eexists. split; [done|]. apply integer_reads. b2p. lia.
  - done.
  - eexists. split; [done|]. apply word_reads; [by repeat constructor|by vm_compute|by left].
  - eexists. split; [done|]. apply word_reads; [by repeat constructor|by vm_compute|by right; left].
  - eexists. split; [done|]. apply word_reads; [by repeat constructor|by vm_compute|by right; right].
Qed.

(** *** The text as a C string *)

Abbreviation nozero := (Forall (fun b => b <> 0)).

Lemma spaces_nozero ws : spaces ws -> nozero ws.
Proof. intros H. eapply Forall_impl; [exact H|]. intros b Hb. apply space_ascii in Hb. lia. Qed.

Lemma hex4_nozero v : nozero (hex4 v).
Proof. eapply Forall_impl; [apply hex4_ascii|]. simpl. lia. Qed.

Lemma piece_nozero p q : piece p q -> nozero p.
Proof.
  intros [q' cp Hq H34 H92 H32|e c He Hc|v q' Hv Hn Hq Hl|v hi lo q' Hhi Hlo Hv Hq Hl].
  - eapply Forall_impl; [by eapply raw_plain; [apply uchar_shape|..]|]. unfold plain_byte. lia.
  - repeat constructor; [done|]. intros ->. done.
  - do 2 (constructor; [done|]). apply hex4_nozero.
  - do 2 (constructor; [done|]). apply Forall_app. split; [apply hex4_nozero|]. do 2 (constructor; [done|]). apply hex4_nozero.
Qed.

Lemma string_nozero s flags : plain_text s = true -> nozero (dump_string s flags).2.
Proof.
  intros Hs. destruct (plain_text_pieces s flags Hs) as (ps & qs & -> & Hp & _). cbn. constructor; [done|]. apply Forall_app. split; [|by constructor].
  apply Forall_join. clear Hs. induction Hp as [|p q ps qs Hpq Hp IH]; constructor; [by eapply piece_nozero|done].
Qed.

Lemma integer_nozero v : - 2 ^ 31 <= v < 2 ^ 31 -> nozero (print_ld v).
Proof.
  intros Hv. destruct (print_ld_text v Hv) as (m & ds & -> & Hm & [Hd _] & _). apply Forall_app. split; [destruct Hm as [->| ->]; by repeat constructor|].
  eapply Forall_impl; [exact Hd|]. intros b Hb ->. done.
Qed.

Lemma separated_nozero flags depth last : nozero (separated flags depth last).
Proof. unfold separated. destruct last; [|constructor; [done|]]; apply spaces_nozero, dump_indent_spaces. Qed.

Lemma elements_nozero dump flags depth vs : Forall (fun v => nozero (dump v).2) vs -> nozero (dump_elements dump flags depth vs).2.
Proof.
  induction 1 as [|v vs Hv Hvs IH]; [constructor|]. cbn [dump_elements]. destruct (dump v) as [rc out]. case_if; [done|].
  destruct (dump_elements dump flags depth vs) as [rc' rest]. cbn in *. rewrite !Forall_app. split_and!; [done|apply separated_nozero|done].
Qed.

Lemma members_nozero dump flags depth ms : Forall (fun kv => plain_text kv.1 = true) ms -> Forall (fun kv => nozero (dump kv.2).2) ms ->
  nozero (dump_members dump flags depth ms).2.
Proof.
  induction ms as [|[k v] ms IH]; intros Hk Hv; [constructor|]. pose proof (string_nozero k flags (Forall_inv Hk)) as Hkey. pose proof (Forall_inv Hv) as Hval.
  apply Forall_inv_tail in Hk, Hv. cbn [dump_members]. destruct (dump_string k flags) as [rk key]. cbn in Hkey, Hval. destruct (dump v) as [rc out].
  assert (nozero (if flag flags JSON_COMPACT then [58] else [58; 32])) as Hs by (case_if; by repeat constructor).
  case_if; [cbn; rewrite !Forall_app; by split_and!|]. specialize (IH Hk Hv). destruct (dump_members dump flags depth ms) as [rc' rest].
  cbn in *. rewrite !Forall_app. split_and!; try done. apply separated_nozero.
Qed.

Lemma dump_nozero n : forall j flags depth, writable j = true -> keeps_order flags -> nozero (do_dump print_g n j flags depth).2.
Proof.
  induction n as [|n IH]; intros j flags depth Hw [Hemb Hsort]; [constructor|]. cbn [do_dump]. rewrite Hemb.
  pose proof (spaces_nozero _ (dump_indent_spaces flags (depth + 1) false)) as Hind.
  destruct j as [ms|vs|t|v|r| | |]; cbn [writable] in Hw; try (by repeat constructor).
  - apply andb_true_iff in Hw as [_ Hms]. apply forallb_Forall in Hms. case_if; [by repeat constructor|]. unfold dump_order. rewrite Hsort.
    assert (nozero (dump_members (fun v => do_dump print_g n v flags (depth + 1)) flags depth ms).2) as Hm.
    { apply members_nozero; (eapply Forall_impl; [exact Hms|]); intros [k v] [Hk Hv]%andb_true_iff; [done|by apply IH]. }
    destruct (dump_members _ flags depth ms) as [rc out]. cbn in *. constructor; [done|]. rewrite !Forall_app. split_and!; [done..|]. destruct (rc =? 0); by repeat constructor.
  - apply forallb_Forall in Hw. case_if; [by repeat constructor|].
    assert (nozero (dump_elements (fun v => do_dump print_g n v flags (depth + 1)) flags depth vs).2) as Hm.
    { apply elements_nozero. eapply Forall_impl; [exact Hw|]. intros v Hv. by apply IH. }
    destruct (dump_elements _ flags depth vs) as [rc out]. cbn in *. constructor; [done|]. rewrite !Forall_app. split_and!; [done..|]. destruct (rc =? 0); by repeat constructor.
  - by apply string_nozero.
  - apply integer_nozero. b2p. lia.
Qed.

Lemma scan_end l ws : spaces ws -> ahead l ws -> exists l', lex_scan strtod l = Some l' /\ l_token l' = TOKEN_EOF /\ l_error l' = l_error l.
Proof.
  intros Hws A. unfold lex_scan. set (l0 := if l_token (with_saved l []) =? TOKEN_STRING then _ else _).
  assert (l_stream l0 = l_stream l /\ l_error l0 = l_error l) as (Es & Ee) by (unfold l0; by case_if).
  destruct (skip_space_eof ws Hws (S (unread (l_stream l0))) l0) as (s & ->); [by eapply ahead_stream|rewrite Es, (ahead_unread _ _ A); lia|].
  cbn [mbind option_bind]. rewrite Z.eqb_refl. eexists. split; [done|]. split; [done|]. by rewrite <- Ee.
Qed.

Lemma read_back is_string j t pflags : container j = true -> reads t j -> Z.of_nat (height j) <= JSON_PARSER_MAX_DEPTH ->
  flag pflags JSON_DECODE_INT_AS_REAL = false -> exists pos, json_load strtod is_string t pflags = Some (Some j, None, pos).
Proof.
  intros Hc Hr Hh Hf. unfold json_load, parse_json. change (negb (room ReqBuffer 0)) with false. cbn iota. set (l := with_depth (lex_init is_string t pflags) 0).
  assert (ahead l ([] ++ t ++ [])) as A.
  { cbn [app]. rewrite app_nil_r. apply view_ahead. unfold view. cbn. split_and!; try done. }
  destruct (Hr PARSER_FUEL pflags l [] [] ltac:(constructor) A) as (l1 & l2 & E1 & Ht & E2 & A2 & Al2); [by left|unfold PARSER_FUEL; lia|cbn; lia|done|].
  rewrite E1. cbn [mbind option_bind].
  assert (negb (flag pflags JSON_DECODE_ANY) && negb (l_token l1 =? 91) && negb (l_token l1 =? 123) = false) as ->.
  { rewrite Ht. destruct j; try done; cbn; by rewrite ?andb_false_r. }
  rewrite E2. cbn [mbind option_bind]. destruct (scan_end l2 [] ltac:(constructor) A2) as (l3 & E3 & Ht3 & He3). destruct Al2 as (_ & _ & He).
  case_if; cbn [mbind option_bind]; [rewrite He; by eexists|]. rewrite E3. cbn [mbind option_bind]. rewrite Ht3, Z.eqb_refl. cbn [negb mbind option_bind].
  rewrite He3, He. by eexists.
Qed.

Lemma dumps_read j flags : container j = true -> writable j = true -> keeps_order flags ->
  exists t, json_dumps print_g j flags = Some t /\ nozero t /\ reads t j.
Proof.
  intros Hc Hw Hk. destruct (value_written (height j) j flags 0 Hw ltac:(done) Hk) as (t & Hd & Hr).
  pose proof (dump_nozero (height j) j flags 0 Hw Hk) as Hz. rewrite Hd in Hz. exists t. split; [|done].
  unfold json_dumps. rewrite Hd. cbn [snd] in Hz. rewrite cstr_plain by done. destruct j; try done; cbn; by rewrite ?andb_false_r.
Qed.

(** C8: what [json_dumps] writes of an object or an array, [json_loads] (and
    [json_loadb]) read back as the same value and without an error, for every
    choice of layout, escaping and parsing flags that keeps the order of the
    keys and the integers, as long as the value nests no deeper than the
    parser allows and is one the text can carry ([writable]): it has no real
    numbers, its integers are of 32 bits, its strings and keys are valid UTF-8
    without NUL, and no key is twice in an object.  The parser and the printer get
    the memory they ask for ([plenty]). *)
Theorem json_roundtrip is_string j flags pflags :
  container j = true -> writable j = true -> Z.of_nat (height j) <= JSON_PARSER_MAX_DEPTH ->
  keeps_order flags -> flag pflags JSON_DECODE_INT_AS_REAL = false ->
  exists t pos, json_dumps print_g j flags = Some t /\ @json_load plenty strtod is_string t pflags = Some (Some j, None, pos).
Proof.
  intros Hc Hw Hh Hk Hf. destruct (dumps_read j flags Hc Hw Hk) as (t & Hd & _ & Hr).
  destruct (read_back is_string j t pflags Hc Hr Hh Hf) as (pos & E). by exists t, pos.
Qed.
End tokens.

(** A configuration like the ones the update client keeps, with a text that
    has to be escaped, indented and in ASCII. *)
Definition sample_config : json :=
  JObject [(str "image", JObject [(str "bootseq", JInteger 3); (str "version", JString [51; 46; 48; 10; 34; 195; 169; 240; 159; 152; 128])]);
           (str "retries", JArray [JInteger (- 2 ^ 31); JTrue; JNull; JArray []]); (str "empty", JString [])].

Lemma json_roundtrip_witness :
  (container sample_config = true /\ writable sample_config = true /\ height sample_config <= 4)%nat
  /\ exists t pos, json_dumps (fun _ _ => []) sample_config (JSON_ENSURE_ASCII + JSON_INDENT 2) = Some t
     /\ json_load zero_strtod true t 0 = Some (Some sample_config, None, pos).
Proof.
  split; [split_and!; [by vm_compute|by vm_compute|vm_compute; lia]|]. apply (json_roundtrip zero_strtod (fun _ _ => []) true sample_config (JSON_ENSURE_ASCII + JSON_INDENT 2) 0); by vm_compute.
Defined.
