(* ===== verification/Recovery.v ===== *)
(** * Recovery of the control files after power failures

    A control file lives in four files: the master, its checksum, the backup
    and the checksum of the backup.  [pairI W c d] is the invariant of such a
    group on the disk [d]: both copies are what an interrupted store of one of
    the contents in [W] can leave, and the content [c] is the one the loader
    will settle on, the master's when the master is intact, else the backup's.

    The section [Pair] shows that every effect of the loader's check and of its
    restore, torn or not, preserves [pairI W c] and that a completed check
    leaves both copies equal to [c].  The last part puts the three files
    together: [boots] is any sequence of boots of the loader, each one possibly
    cut by a power failure, and its theorems say where it ends. *)

From S2P Require Import Prelude Fletcher FileSys FsUtils BasicJson Ssbl.

(** ** Disks during a store *)

Definition store_effs (p : string) (c : bytes) : list fs_eff := [EffTrunc p; EffAppend p c].

Lemma replay_store d p c : replay d (store_effs p c) = <[p := c]> d.
Proof. cbn. rewrite lookup_insert_eq, insert_insert_eq. done. Qed.

Lemma crash_nil d d' : crash_disks d [] d' -> d' = d.
Proof. intros [k|k j e He]; [by rewrite take_nil|done]. Qed.

Lemma crash_store d p c d' :
  crash_disks d (store_effs p c) d' -> d' = d \/ exists j, d' = <[p := take j c]> d.
Proof.
  unfold store_effs. intros [k|k j e He].
  - destruct k as [|[|k]]; [by left|right; by exists 0%nat|right]. exists (length c).
    cbn [take]. rewrite take_nil. cbn. by rewrite lookup_insert_eq, insert_insert_eq, take_ge.
  - destruct k as [|[|k]]; simplify_eq/=; right.
    + by exists 0%nat.
    + exists j. by rewrite lookup_insert_eq, insert_insert_eq.
Qed.

Lemma crash_one d e d' : (forall j, torn j e = e) -> crash_disks d [e] d' -> d' = d \/ d' = apply_eff d e.
Proof.
  intros Ht [k|k j e' He].
  - destruct k as [|k]; [by left|right]. cbn [take]. by rewrite take_nil.
  - destruct k as [|k]; simplify_eq/=. right. by rewrite Ht.
Qed.

Lemma crash_all d l : crash_disks d l (replay d l).
Proof. pose proof (crash_between d l (length l)) as H. by rewrite firstn_all in H. Qed.

(** A property kept by every disk of every part is kept by the whole. *)
Lemma crash_app_inv (P : disk -> Prop) d l1 l2 :
  (forall d', crash_disks d l1 d' -> P d') ->
  (forall d', crash_disks (replay d l1) l2 d' -> P d') ->
  forall d', crash_disks d (l1 ++ l2) d' -> P d'.
Proof. intros H1 H2 d' H. apply crash_disks_app in H as [H|H]; auto. Qed.

(** ** The checksum text *)

Definition hexchar (g : Z) : Prop := 48 <= g <= 57 \/ 97 <= g <= 102.

Lemma hex8_chars v : Forall hexchar (hex8 v).
Proof.
  unfold hex8. apply List.Forall_map, Forall_forall. intros i _. apply hexdigit_range, Z.mod_pos_bound. lia.
Qed.

Lemma fl_of_range c : 0 <= fl_of c < 2 ^ 32.
Proof. apply fletcher_spec_range. Qed.

Lemma hex8_fl_inj a b : hex8 (fl_of a) = hex8 (fl_of b) -> fl_of a = fl_of b.
Proof. apply hex8_inj; apply fl_of_range. Qed.

(** The uninitialised array of the integrity check does not happen to complete
    a cut checksum: its eighth byte is not a hexadecimal digit. *)
Definition garbage_ok (E : env) : Prop := exists g, env_uninit_buf E !! 7%nat = Some g /\ ~ hexchar g.

Lemma cstr_prefix l : cstr l `prefix_of` l.
Proof.
  induction l as [|c l IH]; simpl; [done|]. case_if; [apply prefix_nil|by apply prefix_cons].
Qed.

Lemma read_full garbage v : cstr (read_chksum_buff garbage (hex8 v)) = hex8 v.
Proof.
  unfold read_chksum_buff. rewrite take_app_length' by done.
  apply cstr_plain. eapply Forall_impl; [apply hex8_chars|]. unfold hexchar. simpl. lia.
Qed.

Lemma read_cut E q v w :
  garbage_ok E -> q `prefix_of` hex8 w -> q <> hex8 w ->
  hex8 v <> cstr (read_chksum_buff (env_uninit_buf E) q).
Proof.
  intros (g & Hg & Hn) [r Hr] Hne He.
  assert (Hl : (length q < 8)%nat).
  { pose proof (f_equal length Hr) as Hq. rewrite length_hex8, length_app in Hq.
    destruct r; [rewrite app_nil_r in Hr; by subst|simpl in Hq; lia]. }
  assert (H7 : read_chksum_buff (env_uninit_buf E) q !! 7%nat = Some g).
  { unfold read_chksum_buff. rewrite lookup_take_lt by lia. rewrite lookup_app_r by lia.
    rewrite lookup_drop. by replace (length q + (7 - length q))%nat with 7%nat by lia. }
  assert (Hv : hex8 v !! 7%nat = Some g).
  { rewrite <- H7. pose proof (cstr_prefix (read_chksum_buff (env_uninit_buf E) q)) as Hp.
    rewrite <- He in Hp. eapply prefix_lookup_lt; [|done]. rewrite length_hex8. lia. }
  apply Hn. exact (Forall_lookup_1 _ _ _ _ (hex8_chars v) Hv).
Qed.

(** ** One control file and its backup *)

Record fpaths := mkPaths { p_file : string; p_sum : string; p_bfile : string; p_bsum : string }.

Definition plist (P : fpaths) : list string := [p_file P; p_sum P; p_bfile P; p_bsum P].

(** A copy is intact when its checksum file holds the checksum of the file. *)
Definition intact (d : disk) (f fc : string) : bool :=
  match d !! f, d !! fc with
  | Some p, Some q => bool_decide (q = hex8 (fl_of p))
  | _, _ => false
  end.

(** What an interrupted store of contents of [W] leaves: a beginning of one of
    them beside a beginning of the checksum of one of them. *)
Definition plaus (W : list bytes) (d : disk) (f fc : string) : Prop :=
  exists p c q c', c ∈ W /\ c' ∈ W /\ p `prefix_of` c /\ q `prefix_of` hex8 (fl_of c') /\
    d !! f = Some p /\ d !! fc = Some q.

(** No beginning of a content has the checksum of a content, itself apart. *)
Definition no_collision (W : list bytes) : Prop :=
  forall c c' p, c ∈ W -> c' ∈ W -> p `prefix_of` c -> fl_of p = fl_of c' -> p = c /\ c = c'.

Definition good (d : disk) (f fc : string) (c : bytes) : Prop :=
  d !! f = Some c /\ d !! fc = Some (hex8 (fl_of c)).

Definition pairI (W : list bytes) (P : fpaths) (c : bytes) (d : disk) : Prop :=
  c ∈ W /\ plaus W d (p_file P) (p_sum P) /\ plaus W d (p_bfile P) (p_bsum P) /\
  (if intact d (p_file P) (p_sum P) then d !! p_file P = Some c
   else good d (p_bfile P) (p_bsum P) c).

Definition both (P : fpaths) (c : bytes) (d : disk) : Prop :=
  good d (p_file P) (p_sum P) c /\ good d (p_bfile P) (p_bsum P) c.

Definition same_on (ps : list string) (d d' : disk) : Prop := forall p, p ∈ ps -> d' !! p = d !! p.

Lemma good_intact d f fc c : good d f fc c -> intact d f fc = true.
Proof. intros [H1 H2]. unfold intact. rewrite H1, H2. by apply bool_decide_eq_true_2. Qed.

Lemma prefix_same_length {A} (k l : list A) : k `prefix_of` l -> length k = length l -> k = l.
Proof.
  intros [r Hr] Hl. subst l. rewrite length_app in Hl. destruct r; [by rewrite app_nil_r|simpl in Hl; lia].
Qed.

Lemma take_prefix {A} j (l : list A) : take j l `prefix_of` l.
Proof. exists (drop j l). by rewrite take_drop. Qed.

Section Pair.
Context (W : list bytes) (HW : Forall small_content W) (NC : no_collision W).

Lemma plaus_intact d f fc :
  plaus W d f fc -> intact d f fc = true -> exists c, c ∈ W /\ good d f fc c.
Proof.
  intros (p & c & q & c' & Hc & Hc' & Hp & Hq & Hf & Hfc) Hi. unfold intact in Hi. rewrite Hf, Hfc in Hi.
  apply bool_decide_eq_true_1 in Hi. subst q.
  apply prefix_same_length, hex8_fl_inj in Hq; [|done].
  destruct (NC c c' p Hc Hc' Hp Hq) as [-> ->]. by exists c'.
Qed.

Lemma good_plaus d f fc c : c ∈ W -> good d f fc c -> plaus W d f fc.
Proof. intros Hc [H1 H2]. exists c, c, (hex8 (fl_of c)), c. by repeat split. Qed.

Lemma plaus_frame d d' f fc : d' !! f = d !! f -> d' !! fc = d !! fc -> plaus W d f fc -> plaus W d' f fc.
Proof. unfold plaus. by intros -> ->. Qed.

Lemma small_prefix c p : c ∈ W -> p `prefix_of` c -> small_content p.
Proof.
  intros Hc [r Hr]. rewrite Forall_forall in HW. destruct (HW c Hc) as [Hb Hl]. subst c.
  split; [by apply Forall_app in Hb as [? _]|]. rewrite zlen_app in Hl. pose proof (zlen_nonneg r). lia.
Qed.

(** The loader's check decides [intact]. *)
Lemma runs_check E d f fc :
  env_good E -> garbage_ok E -> plaus W d f fc ->
  exists p, d !! f = Some p /\
    runs E d (ssbl_file_integrity_ckeck f fc) (Ret (if intact d f fc then 1 else 0, hex8 (fl_of p))) [].
Proof.
  intros HE Hg (p & c & q & c' & Hc & Hc' & Hp & Hq & Hf & Hfc). exists p. split; [done|].
  unfold ssbl_file_integrity_ckeck.
  eapply runs_pure; [apply runs_checksum; [done|done|exact (small_prefix c p Hc Hp)]|].
  eapply runs_pure; [apply runs_ret|]. eapply runs_pure; [apply runs_fopen_r|]. rewrite Hfc.
  assert (Hq8 : (length q <= 8)%nat) by (apply prefix_length in Hq; by rewrite length_hex8 in Hq).
  assert (Hr : runs E d (fread fc q 8) (Ret q) []).
  { intros lg. unfold fread. rewrite (good_fread _ HE), take_ge, app_nil_r by (simpl; lia). done. }
  eapply runs_pure; [exact Hr|].
  eapply runs_pure; [apply (runs_env E d (fun E => read_chksum_buff (env_uninit_buf E) q))|].
  unfold intact. rewrite Hf, Hfc.
  destruct (decide (q = hex8 (fl_of c'))) as [->|Hne].
  - rewrite read_full. replace (bool_decide (hex8 (fl_of c') = hex8 (fl_of p)))
      with (bool_decide (hex8 (fl_of p) = hex8 (fl_of c'))) by (apply bool_decide_ext; done).
    apply runs_ret.
  - rewrite (bool_decide_eq_false_2 (hex8 _ = cstr _)) by (by eapply read_cut).
    rewrite bool_decide_eq_false_2; [apply runs_ret|].
    intros ->. apply Hne. by apply prefix_same_length.
Qed.
End Pair.

(** The stores that bring a copy to the content [c]. *)
Definition copy_effs (x xc : string) (c : bytes) : list fs_eff :=
  store_effs x c ++ store_effs xc (hex8 (fl_of c)).

Lemma crash_copy d x xc c d' :
  crash_disks d (copy_effs x xc c) d' ->
  d' = d \/ (exists j, d' = <[x := take j c]> d) \/
  (exists j, d' = <[xc := take j (hex8 (fl_of c))]> (<[x := c]> d)).
Proof.
  intros H. apply crash_disks_app in H as [H|H].
  - apply crash_store in H as [->|[j ->]]; eauto.
  - rewrite replay_store in H. apply crash_store in H as [->|[j ->]]; [|eauto].
    right. left. exists (length c). by rewrite take_ge.
Qed.

Lemma replay_copy d x xc c :
  replay d (copy_effs x xc c) = <[xc := hex8 (fl_of c)]> (<[x := c]> d).
Proof. unfold copy_effs. by rewrite replay_app, !replay_store. Qed.

(** Only files of the group change. *)
Definition frame (P : fpaths) (d d' : disk) : Prop := forall p, p ∉ plist P -> d' !! p = d !! p.

Lemma frame_refl P d : frame P d d.
Proof. by intros p _. Qed.

Lemma frame_trans P d1 d2 d3 : frame P d1 d2 -> frame P d2 d3 -> frame P d1 d3.
Proof. intros H1 H2 p Hp. by rewrite H2, H1. Qed.

Lemma frame_insert P d x v : x ∈ plist P -> frame P d (<[x := v]> d).
Proof. intros Hx p Hp. rewrite lookup_insert_ne; [done|]. by intros ->. Qed.

Lemma distinct (f fc b bc : string) :
  NoDup [f; fc; b; bc] -> f <> fc /\ f <> b /\ f <> bc /\ fc <> b /\ fc <> bc /\ b <> bc.
Proof.
  rewrite !NoDup_cons. intros (H1 & H2 & H3 & _). set_unfold. tauto.
Qed.

Lemma in_group f fc b bc (P := mkPaths f fc b bc) :
  f ∈ plist P /\ fc ∈ plist P /\ b ∈ plist P /\ bc ∈ plist P.
Proof. unfold plist. simpl. set_solver. Qed.

Section Group.
Context (W : list bytes) (HW : Forall small_content W) (NC : no_collision W).
Context (f fc b bc : string) (Hnd : NoDup [f; fc; b; bc]).

Abbreviation P := (mkPaths f fc b bc).

Lemma pairI_intro c d :
  c ∈ W -> plaus W d f fc -> plaus W d b bc ->
  (good d b bc c /\ (forall c', c' ∈ W -> good d f fc c' -> c' = c)) \/ good d f fc c ->
  pairI W P c d.
Proof.
  intros Hc Hm Hb H. repeat split; [done|done|done|]. simpl.
  destruct (intact d f fc) eqn:Ei; destruct H as [[Hg Hu]|Hg].
  - destruct (plaus_intact W NC _ _ _ Hm Ei) as (c' & Hc' & Hgc). rewrite <- (Hu c' Hc' Hgc). apply Hgc.
  - apply Hg.
  - done.
  - by rewrite (good_intact _ _ _ _ Hg) in Ei.
Qed.

Lemma both_pairI c d : c ∈ W -> both P c d -> pairI W P c d.
Proof.
  intros Hc [Hm Hb]. apply pairI_intro; [done|by eapply good_plaus|by eapply good_plaus|by right].
Qed.

(** A cut or complete copy of [c] beside a plausible checksum. *)
Lemma plaus_cut d x xc c j :
  x <> xc -> c ∈ W -> plaus W d x xc -> plaus W (<[x := take j c]> d) x xc.
Proof.
  intros Hx Hc (p & c1 & q & c' & _ & Hc' & _ & Hq & _ & Hxc). exists (take j c), c, q, c'.
  rewrite lookup_insert_eq, lookup_insert_ne by done. repeat split; try done. apply take_prefix.
Qed.

Lemma plaus_cut_sum d x xc c j :
  x <> xc -> c ∈ W -> plaus W (<[xc := take j (hex8 (fl_of c))]> (<[x := c]> d)) x xc.
Proof.
  intros Hx Hc. exists c, c, (take j (hex8 (fl_of c))), c.
  rewrite lookup_insert_eq, lookup_insert_ne, lookup_insert_eq by done.
  repeat split; try done. apply take_prefix.
Qed.

Lemma good_frame d d' x xc c : d' !! x = d !! x -> d' !! xc = d !! xc -> good d x xc c -> good d' x xc c.
Proof. unfold good. by intros -> ->. Qed.

(** Bringing the master to the backup's content. *)
Lemma copy_to_master c d d' :
  pairI W P c d -> good d b bc c -> crash_disks d (copy_effs f fc c) d' ->
  pairI W P c d' /\ frame P d d'.
Proof.
  destruct (distinct _ _ _ _ Hnd) as (N1 & N2 & N3 & N4 & N5 & N6). destruct (in_group f fc b bc) as (G1 & G2 & G3 & G4).
  intros HI Hb H. pose proof HI as (Hc & Hm & Hbp & _). simpl in Hm, Hbp.
  apply crash_copy in H as [->|[[j ->]|[j ->]]].
  - by split; [|apply frame_refl].
  - split; [|by apply frame_insert].
    assert (Hb' : good (<[f := take j c]> d) b bc c) by (eapply good_frame; [..|exact Hb]; by rewrite lookup_insert_ne).
    apply pairI_intro; [done|by apply plaus_cut|by eapply good_plaus|]. left. split; [done|].
    intros c' Hc' [Hg _]. rewrite lookup_insert_eq in Hg. injection Hg as Hg.
    symmetry. apply (NC c c' c'); [done|done| |done]. rewrite <- Hg. apply take_prefix.
  - split; [|eapply frame_trans; by apply frame_insert].
    apply pairI_intro; [done|by apply plaus_cut_sum|..].
    + eapply good_plaus; [done|]. eapply good_frame; [..|exact Hb]; by rewrite !lookup_insert_ne.
    + left. split; [eapply good_frame; [..|exact Hb]; by rewrite !lookup_insert_ne|].
      intros c' Hc' [Hg _]. rewrite lookup_insert_ne, lookup_insert_eq in Hg by done. by injection Hg.
Qed.

(** Bringing the backup to the master's content. *)
Lemma copy_to_backup c d d' :
  pairI W P c d -> good d f fc c -> crash_disks d (copy_effs b bc c) d' ->
  pairI W P c d' /\ frame P d d'.
Proof.
  destruct (distinct _ _ _ _ Hnd) as (N1 & N2 & N3 & N4 & N5 & N6). destruct (in_group f fc b bc) as (G1 & G2 & G3 & G4).
  intros HI Hm H. pose proof HI as (Hc & _ & Hbp & _). simpl in Hbp.
  apply crash_copy in H as [->|[[j ->]|[j ->]]].
  - by split; [|apply frame_refl].
  - assert (Hm' : good (<[b := take j c]> d) f fc c) by (eapply good_frame; [..|exact Hm]; by rewrite lookup_insert_ne).
    split; [|by apply frame_insert].
    apply pairI_intro; [done|by eapply good_plaus|by apply plaus_cut|by right].
  - assert (Hm' : good (<[bc := take j (hex8 (fl_of c))]> (<[b := c]> d)) f fc c)
      by (eapply good_frame; [..|exact Hm]; by rewrite !lookup_insert_ne).
    split; [|eapply frame_trans; by apply frame_insert].
    apply pairI_intro; [done|by eapply good_plaus|by apply plaus_cut_sum|by right].
Qed.

Lemma good_after_copy d x xc c : x <> xc -> good (replay d (copy_effs x xc c)) x xc c.
Proof.
  intros Hx. rewrite replay_copy. split; [rewrite lookup_insert_ne by done|]; by rewrite lookup_insert_eq.
Qed.

Lemma both_after_master c d : good d b bc c -> both P c (replay d (copy_effs f fc c)).
Proof.
  destruct (distinct _ _ _ _ Hnd) as (N1 & N2 & N3 & N4 & N5 & N6). intros Hb. split; cbn [p_file p_sum p_bfile p_bsum]; [by apply good_after_copy|].
  eapply good_frame; [..|exact Hb]; rewrite replay_copy; by rewrite !lookup_insert_ne.
Qed.

Lemma both_after_backup c d : good d f fc c -> both P c (replay d (copy_effs b bc c)).
Proof.
  destruct (distinct _ _ _ _ Hnd) as (N1 & N2 & N3 & N4 & N5 & N6). intros Hb. split; cbn [p_file p_sum p_bfile p_bsum]; [|by apply good_after_copy].
  eapply good_frame; [..|exact Hb]; rewrite replay_copy; by rewrite !lookup_insert_ne.
Qed.

(** Two clones, of a file and of its checksum. *)
Lemma runs_two_clones {A} E d x xc y yc c (k : M A) o l :
  env_good E -> x <> yc -> good d y yc c ->
  runs E (replay d (copy_effs x xc c)) k o l ->
  runs E d (utils_file_clone x y ;;; utils_file_clone xc yc ;;; k) o (copy_effs x xc c ++ l).
Proof.
  intros HE Hx [Hy Hyc] Hk. unfold copy_effs. rewrite <- app_assoc.
  eapply runs_bind; [by apply runs_clone|]. fold (store_effs x c).
  eapply runs_bind; [apply runs_clone; [done|]|].
  - rewrite replay_store, lookup_insert_ne by done. exact Hyc.
  - fold (store_effs xc (hex8 (fl_of c))). by rewrite <- replay_app.
Qed.

Lemma runs_restore E c d :
  env_good E -> good d b bc c ->
  runs E d (ssbl_file_restore f fc b bc) (Ret tt) (copy_effs f fc c).
Proof.
  destruct (distinct _ _ _ _ Hnd) as (N1 & N2 & N3 & N4 & N5 & N6).
  intros HE Hb. rewrite <- (app_nil_r (copy_effs f fc c)). apply runs_two_clones; auto with t2.
Qed.

(** What one check does: the value it settles on, the disks it passes
    through, and its verdict. *)
Lemma runs_sanity E c d :
  env_good E -> garbage_ok E -> pairI W P c d ->
  exists r l, runs E d (ssbl_file_sanity_check f fc b bc) (Ret r) l /\
    (forall d', crash_disks d l d' -> pairI W P c d' /\ frame P d d') /\
    both P c (replay d l) /\
    (r = SSB_SANITY_ERROR_MASTER_COPY <-> intact d f fc = false).
Proof.
  destruct (distinct _ _ _ _ Hnd) as (N1 & N2 & N3 & N4 & N5 & N6).
  intros HE HG HI. pose proof HI as (Hc & Hm & Hbp & Hv). simpl in Hm, Hbp, Hv.
  destruct (runs_check W HW E d f fc HE HG Hm) as (p & Hp & Hrm).
  destruct (runs_check W HW E d b bc HE HG Hbp) as (pb & Hpb & Hrb).
  unfold ssbl_file_sanity_check.
  destruct (intact d f fc) eqn:Eim.
  - destruct (plaus_intact W NC _ _ _ Hm Eim) as (c1 & _ & Hgm).
    assert (c1 = c) as -> by (destruct Hgm as [Hgm _]; congruence).
    assert (p = c) as -> by (destruct Hgm as [Hgm _]; congruence).
    destruct (intact d b bc) eqn:Eib.
    + destruct (plaus_intact W NC _ _ _ Hbp Eib) as (c2 & Hc2 & Hgb).
      assert (pb = c2) as -> by (destruct Hgb as [Hgb _]; congruence).
      destruct (decide (hex8 (fl_of c) = hex8 (fl_of c2))) as [He|He].
      * apply hex8_fl_inj in He. destruct (NC c c2 c Hc Hc2 ltac:(done) He) as [_ ->].
        exists SSB_SANITY_ERROR_NONE, []. split.
        { eapply runs_pure; [exact Hrm|]. eapply runs_pure; [exact Hrb|]. simpl.
          rewrite bool_decide_eq_true_2 by done. simpl. eapply runs_pure; auto with t2. }
        split; [intros d' Hd'; apply crash_nil in Hd' as ->; split; [done|apply frame_refl]|].
        split; [by split|done].
      * exists SSB_SANITY_ERROR_NONE, (copy_effs b bc c). split.
        { eapply runs_pure; [exact Hrm|]. eapply runs_pure; [exact Hrb|]. simpl.
          rewrite bool_decide_eq_false_2 by done. simpl. eapply runs_pure; [auto with t2|].
          rewrite <- (app_nil_r (copy_effs _ _ _)). apply runs_two_clones; auto with t2. }
        split; [intros d'; by apply copy_to_backup|]. split; [by apply both_after_backup|done].
    + exists SSB_SANITY_ERROR_BACKUP_COPY, (copy_effs b bc c). split.
      { eapply runs_pure; [exact Hrm|]. eapply runs_pure; [exact Hrb|]. simpl.
        eapply runs_pure; [auto with t2|].
        rewrite <- (app_nil_r (copy_effs _ _ _)). apply runs_two_clones; auto with t2. }
      split; [intros d'; by apply copy_to_backup|]. split; [by apply both_after_backup|done].
  - rewrite (good_intact _ _ _ _ Hv) in Hrb.
    exists SSB_SANITY_ERROR_MASTER_COPY, (copy_effs f fc c). split.
    { eapply runs_pure; [exact Hrm|]. eapply runs_pure; [exact Hrb|]. simpl.
      eapply runs_pure; [auto with t2|].
      rewrite <- (app_nil_r (copy_effs _ _ _)). apply runs_two_clones; auto with t2. }
    split; [intros d'; by apply copy_to_master|]. split; [by apply both_after_master|done].
Qed.

(** Updating the master from [c] to [c2]: until the last byte of the new
    checksum is written the group still settles on [c]. *)
Lemma update_master c c2 d d' :
  c ∈ W -> c2 ∈ W -> both P c d -> crash_disks d (copy_effs f fc c2) d' ->
  (pairI W P c d' \/ pairI W P c2 d') /\ frame P d d'.
Proof.
  destruct (distinct _ _ _ _ Hnd) as (N1 & N2 & N3 & N4 & N5 & N6). destruct (in_group f fc b bc) as (G1 & G2 & G3 & G4).
  intros Hc Hc2 Hbo H. pose proof Hbo as [Hm Hb]. simpl in Hm, Hb.
  apply crash_copy in H as [->|[[j ->]|[j ->]]].
  - split; [left; by apply both_pairI|apply frame_refl].
  - assert (Hb' : good (<[f := take j c2]> d) b bc c) by (eapply good_frame; [..|exact Hb]; by rewrite lookup_insert_ne).
    split; [left|by apply frame_insert].
    apply pairI_intro; [done|apply plaus_cut; [done|done|eapply good_plaus; [|exact Hm]; done]|eapply good_plaus; [|exact Hb']; done|].
    left. split; [done|]. intros c' Hc' [_ Hg].
    rewrite lookup_insert_ne in Hg by done. destruct Hm as [_ Hm]. rewrite Hm in Hg. apply (inj Some) in Hg.
    apply hex8_fl_inj in Hg. by destruct (NC c c' c Hc Hc' ltac:(done) Hg) as [_ ->].
  - set (d2 := <[fc := take j (hex8 (fl_of c2))]> (<[f := c2]> d)).
    assert (Hb' : good d2 b bc c) by (eapply good_frame; [..|exact Hb]; unfold d2; by rewrite !lookup_insert_ne).
    assert (Hp : plaus W d2 f fc) by (by apply plaus_cut_sum).
    split; [|eapply frame_trans; by apply frame_insert].
    destruct (intact d2 f fc) eqn:Ei.
    + right. destruct (plaus_intact W NC _ _ _ Hp Ei) as (c' & _ & Hg).
      assert (c' = c2) as ->.
      { destruct Hg as [Hg _]. unfold d2 in Hg. rewrite lookup_insert_ne, lookup_insert_eq in Hg by done. congruence. }
      apply pairI_intro; [done|done|exact (good_plaus W d2 b bc c Hc Hb')|by right].
    + left. apply pairI_intro; [done|done|exact (good_plaus W d2 b bc c Hc Hb')|]. left. split; [done|].
      intros c' _ Hg. by rewrite (good_intact _ _ _ _ Hg) in Ei.
Qed.
End Group.

(** ** The three control files *)

Inductive file_id := Cfg | Part | Boot.

#[export] Instance file_id_eq_dec : EqDecision file_id.
Proof. solve_decision. Defined.

Definition paths (i : file_id) : fpaths :=
  match i with
  | Cfg => mkPaths FOTA_CFG_FILE_PATH FOTA_CFG_CHKSUM_FILE_PATH
             FOTA_CFG_BACKUP_FILE_PATH FOTA_CFG_BACKUP_CHKSUM_FILE_PATH
  | Part => mkPaths PART_FILE_PATH PART_CHKSUM_FILE_PATH PART_BACKUP_FILE_PATH PART_BACKUP_CHKSUM_FILE_PATH
  | Boot => mkPaths BOOT_FILE_PATH BOOT_CHKSUM_FILE_PATH BOOT_BACKUP_FILE_PATH BOOT_BACKUP_CHKSUM_FILE_PATH
  end.

(** The contents of the three files, and the sets of contents they may have. *)
Definition contents : Type := file_id -> bytes.
Definition family : Type := file_id -> list bytes.

Definition family_ok (F : family) : Prop := forall i, Forall small_content (F i) /\ no_collision (F i).

Definition groups (F : family) (x : contents) (d : disk) : Prop :=
  forall i, pairI (F i) (paths i) (x i) d.

(** Every master and every backup is intact and they agree. *)
Definition intact_all (x : contents) (d : disk) : Prop := forall i, both (paths i) (x i) d.

Definition dirty (d : disk) : Prop := d !! DIRTY_BIT_FILE_PATH <> None.

Definition recoverable (F : family) (x : contents) (d : disk) : Prop :=
  groups F x d /\ (dirty d \/ intact_all x d).

Definition settled (x : contents) (d : disk) : Prop := intact_all x d /\ ~ dirty d.

(** ** Effects on one group leave the others alone *)

Lemma paths_nodup i : NoDup (plist (paths i)).
Proof. destruct i; apply (bool_decide_unpack _); by vm_compute. Qed.

Lemma paths_apart i j p : i <> j -> p ∈ plist (paths i) -> p ∉ plist (paths j).
Proof.
  intros Hij. assert (Ha : Forall (fun p => p ∉ plist (paths j)) (plist (paths i))).
  { apply (bool_decide_unpack _). destruct i, j; (done || by vm_compute). }
  rewrite Forall_forall in Ha. apply Ha.
Qed.

Lemma frame_apart i j d d' : i <> j -> frame (paths j) d d' -> same_on (plist (paths i)) d d'.
Proof. intros Hij Hf p Hp. apply Hf. by eapply paths_apart. Qed.

Lemma flags_apart i :
  (DIRTY_BIT_FILE_PATH ∉ plist (paths i)) /\ (FOTA_IN_PROGRESS_FILE_PATH ∉ plist (paths i)).
Proof. destruct i; split; apply (bool_decide_unpack _); by vm_compute. Qed.

Lemma pairI_same W P c d d' : same_on (plist P) d d' -> pairI W P c d -> pairI W P c d'.
Proof.
  intros H (Hc & Hm & Hb & Hv). unfold plist in H.
  pose proof (H (p_file P) ltac:(set_solver)) as H1. pose proof (H (p_sum P) ltac:(set_solver)) as H2.
  pose proof (H (p_bfile P) ltac:(set_solver)) as H3. pose proof (H (p_bsum P) ltac:(set_solver)) as H4.
  repeat split; [done|by eapply plaus_frame|by eapply plaus_frame|].
  unfold intact, good in *. by rewrite H1, H2, H3, H4.
Qed.

Lemma both_same P c d d' : same_on (plist P) d d' -> both P c d -> both P c d'.
Proof.
  intros H [[H1 H2] [H3 H4]]. unfold plist in H.
  by repeat split; rewrite H by set_solver.
Qed.

Lemma dirty_frame i d d' : frame (paths i) d d' -> dirty d -> dirty d'.
Proof. intros Hf Hd. unfold dirty in *. by rewrite Hf by apply flags_apart. Qed.

Lemma groups_one F x i d d' :
  groups F x d -> pairI (F i) (paths i) (x i) d' -> frame (paths i) d d' -> groups F x d'.
Proof.
  intros Hg Hi Hf j. destruct (decide (j = i)) as [->|Hj]; [done|].
  eapply pairI_same; [by eapply frame_apart|done].
Qed.

(** ** One run of the loader's check *)

Definition bad_master (d : disk) (i : file_id) : nat :=
  if intact d (p_file (paths i)) (p_sum (paths i)) then 0 else 1.

Definition bad_masters (d : disk) : nat := bad_master d Cfg + bad_master d Part + bad_master d Boot.

Lemma both_bad i c d : both (paths i) c d -> bad_master d i = 0%nat.
Proof. intros [Hm _]. unfold bad_master. by rewrite (good_intact _ _ _ _ Hm). Qed.

Lemma bad_frame i j d d' : i <> j -> frame (paths j) d d' -> bad_master d' i = bad_master d i.
Proof.
  intros Hij Hf. pose proof (frame_apart _ _ _ _ Hij Hf) as H. unfold plist in H. unfold bad_master, intact.
  rewrite (H (p_file (paths i))), (H (p_sum (paths i))) by set_solver. done.
Qed.

Definition check_id (i : file_id) : M ssb_sanity_e :=
  ssbl_file_sanity_check (p_file (paths i)) (p_sum (paths i)) (p_bfile (paths i)) (p_bsum (paths i)).

Definition restore_id (i : file_id) : M unit :=
  ssbl_file_restore (p_file (paths i)) (p_sum (paths i)) (p_bfile (paths i)) (p_bsum (paths i)).

Definition boot_env (E : env) : Prop := env_good E /\ garbage_ok E.

Section Sanity.
Context (F : family) (HF : family_ok F) (E : env) (HE : boot_env E).

(** The disks a part of the check passes through. *)
Definition keeps (x : contents) (d : disk) (l : list fs_eff) : Prop :=
  forall d', crash_disks d l d' -> groups F x d' /\ dirty d'.

Lemma keeps_end x d l : keeps x d l -> groups F x (replay d l) /\ dirty (replay d l).
Proof. intros H. apply H, crash_all. Qed.

Lemma keeps_app x d l1 l2 : keeps x d l1 -> keeps x (replay d l1) l2 -> keeps x d (l1 ++ l2).
Proof. exact (crash_app_inv (fun d' => groups F x d' /\ dirty d') d l1 l2). Qed.

Lemma keeps_group x i d l :
  groups F x d -> dirty d ->
  (forall d', crash_disks d l d' -> pairI (F i) (paths i) (x i) d' /\ frame (paths i) d d') -> keeps x d l.
Proof.
  intros Hg Hd Hk d' Hd'. destruct (Hk d' Hd') as [Hp Hf].
  split; [by eapply groups_one|by eapply dirty_frame].
Qed.

Lemma runs_check_id x i d :
  groups F x d -> dirty d ->
  exists r l, runs E d (check_id i) (Ret r) l /\ keeps x d l /\ frame (paths i) d (replay d l) /\
    both (paths i) (x i) (replay d l) /\
    (r = SSB_SANITY_ERROR_MASTER_COPY <-> bad_master d i = 1%nat).
Proof.
  intros Hg Hd. destruct HE as [HE1 HE2]. destruct (HF i) as [Hs Hn]. pose proof (paths_nodup i) as Hnd.
  destruct (runs_sanity (F i) Hs Hn (p_file (paths i)) (p_sum (paths i)) (p_bfile (paths i)) (p_bsum (paths i))
    Hnd E (x i) d HE1 HE2) as (r & l & Hr & Hk & Hb & Hv).
  { generalize (Hg i). by destruct (paths i). }
  assert (Hk' : forall d', crash_disks d l d' -> pairI (F i) (paths i) (x i) d' /\ frame (paths i) d d').
  { revert Hk. by destruct (paths i). }
  exists r, l. split; [exact Hr|]. split; [by eapply keeps_group|].
  split; [apply Hk', crash_all|]. split; [revert Hb; by destruct (paths i)|].
  rewrite Hv. unfold bad_master. by case_match.
Qed.

Lemma runs_restore_id x i d :
  groups F x d -> dirty d -> both (paths i) (x i) d ->
  exists l, runs E d (restore_id i) (Ret tt) l /\ keeps x d l /\
    frame (paths i) d (replay d l) /\ both (paths i) (x i) (replay d l).
Proof.
  intros Hg Hd Hb. destruct (HF i) as [Hs Hn]. pose proof (paths_nodup i) as Hnd. unfold restore_id.
  specialize (Hg i) as Hgi.
  assert (Hk : forall d', crash_disks d (copy_effs (p_file (paths i)) (p_sum (paths i)) (x i)) d' ->
    pairI (F i) (paths i) (x i) d' /\ frame (paths i) d d').
  { intros d'. revert Hnd Hgi Hb. destruct (paths i) as [f fc b bc]. intros Hnd Hgi [_ Hb].
    by apply (copy_to_master (F i) Hn f fc b bc Hnd). }
  exists (copy_effs (p_file (paths i)) (p_sum (paths i)) (x i)). split.
  { revert Hnd Hb. destruct (paths i) as [f fc b bc]. intros Hnd [_ Hb].
    apply (runs_restore f fc b bc Hnd E (x i) d); [apply HE|exact Hb]. }
  split; [by eapply keeps_group|]. split; [apply Hk, crash_all|].
  revert Hnd Hb. destruct (paths i) as [f fc b bc]. intros Hnd [_ Hb].
  by apply (both_after_master f fc b bc Hnd).
Qed.

(** The label [exit_error]: the in-progress file goes, the device resets. *)
Lemma runs_exit_error x d :
  groups F x d -> dirty d ->
  runs E d sanity_exit_error Reset [EffUnlink FOTA_IN_PROGRESS_FILE_PATH] /\
  keeps x d [EffUnlink FOTA_IN_PROGRESS_FILE_PATH] /\
  (forall i, bad_master (replay d [EffUnlink FOTA_IN_PROGRESS_FILE_PATH]) i = bad_master d i).
Proof.
  intros Hg Hd. set (e := EffUnlink FOTA_IN_PROGRESS_FILE_PATH).
  assert (Hs : forall i, same_on (plist (paths i)) d (apply_eff d e)).
  { intros i p Hp. simpl. apply lookup_delete_ne. intros <-. by apply (flags_apart i). }
  split; [|split].
  - apply (runs_bind _ _ _ _ tt _ [e] []); [apply runs_do_eff|apply runs_end].
  - intros d' H. apply crash_one in H as [->| ->]; [done| |done]. split.
    + intros i. eapply pairI_same; [apply Hs|apply Hg].
    + unfold dirty in *. simpl. by rewrite lookup_delete_ne.
  - intros i. unfold bad_master, intact. specialize (Hs i). unfold plist in Hs. cbn [replay fold_left].
    rewrite (Hs (p_file (paths i))), (Hs (p_sum (paths i))) by set_solver. done.
Qed.

Definition sanity_post (x : contents) (d : disk) (o : outcome unit) (l : list fs_eff) : Prop :=
  (o = Ret tt /\ settled x (replay d l)) \/
  (o = Reset /\ (bad_masters (replay d l) < bad_masters d)%nat).

(** The last part, after three checks that found every master intact. *)
Lemma runs_sanity_ok x d :
  groups F x d -> intact_all x d ->
  let l := [EffUnlink DIRTY_BIT_FILE_PATH; EffUnlink FOTA_IN_PROGRESS_FILE_PATH] in
  runs E d (unlink DIRTY_BIT_FILE_PATH ;;; unlink FOTA_IN_PROGRESS_FILE_PATH ;;; m_ret tt) (Ret tt) l /\
  (forall d', crash_disks d l d' -> groups F x d' /\ intact_all x d') /\ ~ dirty (replay d l).
Proof.
  intros Hg Hi l. split; [|split].
  - apply (runs_bind _ _ _ _ tt _ [_] [_]); [apply runs_do_eff|].
    apply (runs_bind _ _ _ _ tt _ [_] []); [apply runs_do_eff|apply runs_ret].
  - assert (Hdel : forall d1 p, p = DIRTY_BIT_FILE_PATH \/ p = FOTA_IN_PROGRESS_FILE_PATH ->
      groups F x d1 /\ intact_all x d1 -> groups F x (delete p d1) /\ intact_all x (delete p d1)).
    { intros d1 p Hp [H1 H2].
      assert (Hs : forall i, same_on (plist (paths i)) d1 (delete p d1)).
      { intros i q Hq. apply lookup_delete_ne. intros ->. destruct (flags_apart i). by destruct Hp as [->| ->]. }
      split; intros i; [by eapply pairI_same|by eapply both_same]. }
    intros d' H. change l with ([EffUnlink DIRTY_BIT_FILE_PATH] ++ [EffUnlink FOTA_IN_PROGRESS_FILE_PATH]) in H.
    apply crash_disks_app in H as [H|H]; apply crash_one in H as [->| ->]; try done; simpl; auto.
  - unfold dirty. simpl. rewrite lookup_delete_ne, lookup_delete_eq by done. auto.
Qed.

Lemma keeps_recoverable x d l d' : keeps x d l -> crash_disks d l d' -> recoverable F x d'.
Proof. intros Hk H. destruct (Hk d' H). by split; [|left]. Qed.

(** What a part of the check guarantees. *)
Definition run_post (x : contents) (d : disk) (m : M unit) : Prop :=
  exists o l, runs E d m o l /\ (forall d', crash_disks d l d' -> recoverable F x d') /\ sanity_post x d o l.

(** A damaged master was repaired; the rest is the rollback and the reset. *)
Lemma reset_post x d m l :
  runs E d m Reset l -> keeps x d l -> (bad_masters (replay d l) < bad_masters d)%nat -> run_post x d m.
Proof.
  intros Hr Hk Hb. exists Reset, l. split; [done|]. split; [intros d'; by apply keeps_recoverable|by right].
Qed.

(** An intact master: the rest of the check decides. *)
Lemma check_post x d r (k : ssb_sanity_e -> M unit) i l :
  runs E d (check_id i) (Ret r) l -> keeps x d l -> frame (paths i) d (replay d l) ->
  both (paths i) (x i) (replay d l) -> run_post x (replay d l) (k r) ->
  run_post x d (r <-- check_id i ;; k r).
Proof.
  intros Hr Hk Hf Hb (o & l2 & R2 & K2 & P2). exists o, (l ++ l2). split; [by eapply runs_bind|]. split.
  - apply crash_app_inv; [intros d'; by apply keeps_recoverable|done].
  - unfold sanity_post in *. rewrite replay_app. destruct P2 as [P2|[-> P2]]; [by left|right]. split; [done|].
    eapply Nat.lt_le_trans; [exact P2|]. 
    assert (Hj : forall j, (bad_master (replay d l) j <= bad_master d j)%nat).
    { intros j. destruct (decide (j = i)) as [->|Hj]; [rewrite (both_bad i _ _ Hb); lia|].
      by rewrite (bad_frame j i d). }
    unfold bad_masters. pose proof (Hj Cfg). pose proof (Hj Part). pose proof (Hj Boot). lia.
Qed.

Lemma sanity_boot_post x d :
  groups F x d -> dirty d -> both (paths Cfg) (x Cfg) d -> both (paths Part) (x Part) d ->
  run_post x d (sanity_from_boot true).
Proof.
  intros G2 D2 B1 B2.
  destruct (runs_check_id x Boot d G2 D2) as (r3 & l3 & R3 & K3 & F3 & B3 & V3).
  destruct (keeps_end _ _ _ K3) as [G3 D3]. set (d3 := replay d l3) in *.
  assert (B1' : both (paths Cfg) (x Cfg) d3) by (eapply both_same; [eapply (frame_apart Cfg Boot); done|done]).
  assert (B2' : both (paths Part) (x Part) d3) by (eapply both_same; [eapply (frame_apart Part Boot); done|done]).
  destruct (decide (r3 = SSB_SANITY_ERROR_MASTER_COPY)) as [E3|E3].
  - destruct (runs_restore_id x Cfg d3 G3 D3 B1') as (l4 & R4 & K4 & F4 & B4).
    destruct (keeps_end _ _ _ K4) as [G4 D4]. set (d4 := replay d3 l4) in *.
    assert (B2'' : both (paths Part) (x Part) d4) by (eapply both_same; [eapply (frame_apart Part Cfg); done|done]).
    destruct (runs_restore_id x Part d4 G4 D4 B2'') as (l5 & R5 & K5 & F5 & B5).
    destruct (keeps_end _ _ _ K5) as [G5 D5]. set (d5 := replay d4 l5) in *.
    destruct (runs_exit_error x d5 G5 D5) as (R & K & Bd).
    eapply reset_post; [|by apply keeps_app; [exact K3|]; apply keeps_app; [exact K4|]; apply keeps_app; [exact K5|]|].
    + eapply runs_bind; [exact R3|]. rewrite bool_decide_eq_true_2 by done.
      eapply runs_bind; [exact R4|]. eapply runs_bind; [exact R5|exact R].
    + rewrite !replay_app. fold d3 d4 d5. unfold bad_masters. rewrite !Bd.
      rewrite (both_bad _ _ _ B5), (bad_frame Cfg Part d4 d5), (bad_frame Boot Part d4 d5) by done.
      rewrite (both_bad _ _ _ B4), (bad_frame Boot Cfg d3 d4), (both_bad _ _ _ B3), (proj1 V3 E3) by done. lia.
  - unfold sanity_from_boot. eapply (check_post x d r3 _ Boot); [exact R3|done|done|done|]. rewrite bool_decide_eq_false_2 by done.
    destruct (runs_sanity_ok x d3 G3) as (R & K & Dd); [by intros []|].
    eexists (Ret tt), _. split; [exact R|]. split.
    + intros d' H. destruct (K d' H) as [Hk1 Hk2]. by split; [|right].
    + left. split; [done|]. split; [apply (K _ (crash_all _ _))|exact Dd].
Qed.

Lemma sanity_part_post x d :
  groups F x d -> dirty d -> both (paths Cfg) (x Cfg) d -> run_post x d (sanity_from_part true).
Proof.
  intros G1 D1 B1.
  destruct (runs_check_id x Part d G1 D1) as (r2 & l2 & R2 & K2 & F2 & B2 & V2).
  destruct (keeps_end _ _ _ K2) as [G2 D2]. set (d2 := replay d l2) in *.
  assert (B1' : both (paths Cfg) (x Cfg) d2) by (eapply both_same; [eapply (frame_apart Cfg Part); done|done]).
  destruct (decide (r2 = SSB_SANITY_ERROR_MASTER_COPY)) as [E2|E2].
  - destruct (runs_restore_id x Cfg d2 G2 D2 B1') as (l3 & R3 & K3 & F3 & B3).
    destruct (keeps_end _ _ _ K3) as [G3 D3]. set (d3 := replay d2 l3) in *.
    destruct (runs_exit_error x d3 G3 D3) as (R & K & Bd).
    eapply reset_post; [|by apply keeps_app; [exact K2|]; apply keeps_app; [exact K3|]|].
    + eapply runs_bind; [exact R2|]. rewrite bool_decide_eq_true_2 by done. eapply runs_bind; [exact R3|exact R].
    + rewrite !replay_app. fold d2 d3. unfold bad_masters. rewrite !Bd.
      rewrite (both_bad _ _ _ B3), (bad_frame Part Cfg d2 d3), (bad_frame Boot Cfg d2 d3) by done.
      rewrite (both_bad _ _ _ B2), (bad_frame Boot Part d d2), (proj1 V2 E2) by done. lia.
  - unfold sanity_from_part. eapply (check_post x d r2 _ Part); [exact R2|done|done|done|]. rewrite bool_decide_eq_false_2 by done.
    by apply sanity_boot_post.
Qed.

Lemma sanity_check_post x d : recoverable F x d -> run_post x d ssbl_sanity_check.
Proof.
  intros [Hg Hd]. unfold ssbl_sanity_check. pose proof (runs_present E d DIRTY_BIT_FILE_PATH) as Hpr.
  destruct (d !! DIRTY_BIT_FILE_PATH) as [v|] eqn:Ed.
  2: { destruct Hd as [Hd|Hi]; [by unfold dirty in Hd; rewrite Ed in Hd|].
       exists (Ret tt), []. split; [eapply runs_pure; [exact Hpr|apply runs_ret]|]. split.
       - intros d' H. apply crash_nil in H as ->. by split; [|right].
       - left. split; [done|]. split; [done|]. unfold dirty. simpl. by rewrite Ed; auto. }
  clear Hd. assert (Hd : dirty d) by (unfold dirty; by rewrite Ed). clear Ed.
  assert (Hskip : forall k, run_post x d (k true) ->
    run_post x d (fota_in_progress <-- utils_is_file_present DIRTY_BIT_FILE_PATH ;; k fota_in_progress)).
  { intros k (o & l & R & K). exists o, l. split; [|done]. eapply runs_pure; [exact Hpr|exact R]. }
  apply (Hskip (fun b => if negb b then _ else _)). simpl negb. cbv iota. apply Hskip. clear Hskip Hpr.
  destruct (runs_check_id x Cfg d Hg Hd) as (r1 & l1 & R1 & K1 & F1 & B1 & V1).
  destruct (keeps_end _ _ _ K1) as [G1 D1]. set (d1 := replay d l1) in *.
  destruct (decide (r1 = SSB_SANITY_ERROR_MASTER_COPY)) as [E1|E1].
  - destruct (runs_exit_error x d1 G1 D1) as (R & K & Bd).
    eapply reset_post; [|by apply keeps_app; [exact K1|]|].
    + eapply runs_bind; [exact R1|]. rewrite bool_decide_eq_true_2 by done. exact R.
    + rewrite replay_app. fold d1. unfold bad_masters. rewrite !Bd.
      rewrite (both_bad _ _ _ B1), (proj1 V1 E1), (bad_frame Part Cfg d d1), (bad_frame Boot Cfg d d1) by done. lia.
  - eapply (check_post x d r1 _ Cfg); [exact R1|done|done|done|]. rewrite bool_decide_eq_false_2 by done.
    by apply sanity_part_post.
Qed.
End Sanity.

(** ** Sequences of boots *)

(** The disks that boots cut by a power failure, or ended by the loader's own
    reset, can leave: a boot cut after its last effect is a complete one. *)
Inductive after_boots : disk -> disk -> Prop :=
  | boots_none d : after_boots d d
  | boots_one E d o l d1 d' :
      boot_env E -> runs E d ssbl_sanity_check o l -> crash_disks d l d1 ->
      after_boots d1 d' -> after_boots d d'.

(** Uninterrupted boots until the loader goes on to load an image. *)
Fixpoint run_boots (E : env) (fuel : nat) (d : disk) : option disk :=
  match fuel with
  | O => None
  | S fuel' =>
      match ssbl_sanity_check E (mkWorld d []) with
      | (Ret _, w) => Some (w_disk w)
      | (Reset, w) => run_boots E fuel' (w_disk w)
      | _ => None
      end
  end.

Lemma runs_same {A} E d (m : M A) o l o' l' : runs E d m o l -> runs E d m o' l' -> o = o' /\ l = l'.
Proof. intros H H'. specialize (H []). specialize (H' []). rewrite H in H'. by simplify_eq/=. Qed.

Lemma after_boots_recoverable F x d d' :
  family_ok F -> after_boots d d' -> recoverable F x d -> recoverable F x d'.
Proof.
  intros HF Hb. induction Hb as [d|E d o l d1 d' HE Hr Hc Hb IH]; [done|]. intros Hd. apply IH.
  destruct (sanity_check_post F HF E HE x d Hd) as (o' & l' & Hr' & Hk & _).
  destruct (runs_same _ _ _ _ _ _ _ Hr Hr') as [-> ->]. by apply Hk.
Qed.

Lemma run_boots_settle F x E n d :
  family_ok F -> boot_env E -> recoverable F x d -> (bad_masters d < n)%nat ->
  exists d', run_boots E n d = Some d' /\ settled x d'.
Proof.
  intros HF HE. revert d. induction n as [|n IH]; intros d Hd Hn; [lia|]. cbn [run_boots].
  destruct (sanity_check_post F HF E HE x d Hd) as (o & l & Hr & Hk & Hp). rewrite (Hr []). cbn.
  destruct Hp as [[-> Hs]|[-> Hb]]; [by eexists|].
  apply IH; [apply Hk, crash_all|lia].
Qed.

Lemma bad_masters_le d : (bad_masters d <= 3)%nat.
Proof. unfold bad_masters, bad_master. repeat case_match; lia. Qed.

(** Recovery, shared by the properties below and by those of the update. *)
Lemma boots_settle F x E d d' :
  family_ok F -> boot_env E -> recoverable F x d -> after_boots d d' ->
  exists d2, run_boots E 4 d' = Some d2 /\ settled x d2.
Proof.
  intros HF HE Hd Hb. eapply run_boots_settle; [done|done|by eapply after_boots_recoverable|].
  pose proof (bad_masters_le d'). lia.
Qed.

(** C2: whatever power failures interrupt the loader's own repairs, once it is
    left alone it goes on to load an image after at most four boots, without
    parking; every control file then holds the content the group stood for
    before the first boot, its checksum file and its backup agree with it, and
    the dirty-bit file is gone.  Shown for a disk as an interrupted update leaves
    it ([recoverable]: beginnings of contents and checksums of the family, one
    intact copy of each file, marked dirty unless all is intact), when apart from
    the power failures every allocation and file operation succeeds, no beginning
    of a content of the family has the Fletcher-32 checksum of a content, itself
    apart ([family_ok]), and the eighth byte of the uninitialised stack buffer
    into which a checksum is read is not a hexadecimal digit ([garbage_ok]);
    [stale_buffer_keeps_cut] is what happens without the last. *)
Theorem ssbl_recovers (F : family) (x : contents) (E : env) (d d' : disk) :
  family_ok F -> boot_env E -> recoverable F x d -> after_boots d d' ->
  exists d2, run_boots E 4 d' = Some d2 /\ settled x d2.
Proof. apply boots_settle. Qed.

(** ** A decision procedure for the hypothesis on checksums, and an example *)

Definition no_collision_b (W : list bytes) : bool :=
  forallb (fun c => forallb (fun c' => forallb (fun k =>
    let p := take k c in
    negb (fl_of p =? fl_of c') || (bool_decide (p = c) && bool_decide (c = c')))
    (seq 0 (S (length c)))) W) W.

Lemma no_collision_dec W : no_collision_b W = true -> no_collision W.
Proof.
  unfold no_collision_b. rewrite forallb_forall. intros H c c' p Hc Hc' Hp He.
  specialize (H c). rewrite <- list_elem_of_In, forallb_forall in H. specialize (H Hc c').
  rewrite <- list_elem_of_In, forallb_forall in H. specialize (H Hc' (length p)).
  rewrite in_seq in H. pose proof (prefix_length _ _ Hp).
  assert (Ht : take (length p) c = p) by (destruct Hp as [r ->]; by rewrite take_app_length).
  rewrite Ht in H. cbv zeta in H. assert (Hz : (fl_of p =? fl_of c') = true) by (by apply Z.eqb_eq).
  rewrite Hz in H. cbn [negb orb] in H.
  assert (Hb : bool_decide (p = c) && bool_decide (c = c') = true) by (apply H; lia).
  apply andb_true_iff in Hb as [H1 H2]. split; eapply bool_decide_unpack; apply Is_true_true; eassumption.
Qed.

(** An update of three small files, interrupted in the configuration. *)
Definition old_contents : contents := fun i =>
  str (match i with Cfg => "{v:1}" | Part => "{p:1}" | Boot => "{b:0}" end).
Definition new_contents : contents := fun i =>
  str (match i with Cfg => "{v:2}" | Part => "{p:2}" | Boot => "{b:1}" end).
Definition sample_family : family := fun i => [old_contents i; new_contents i].

(** A disk on which both copies of every file hold [x]. *)
Definition steady_disk (x : contents) : disk :=
  list_to_map (concat (map (fun i =>
    [(p_file (paths i), x i); (p_sum (paths i), hex8 (fl_of (x i)));
     (p_bfile (paths i), x i); (p_bsum (paths i), hex8 (fl_of (x i)))]) [Cfg; Part; Boot])).

Definition torn_disk : disk :=
  <[DIRTY_BIT_FILE_PATH := []]> (<[FOTA_CFG_FILE_PATH := take 2 (new_contents Cfg)]> (steady_disk old_contents)).

Lemma sample_family_ok : family_ok sample_family.
Proof.
  intros i. split; [|apply no_collision_dec; destruct i; by vm_compute].
  destruct i; repeat constructor; unfold is_byte, zlen; simpl; lia.
Qed.

Lemma steady_both i : both (paths i) (old_contents i) (steady_disk old_contents).
Proof. destruct i; split; split; by vm_compute. Qed.

Lemma torn_recoverable : recoverable sample_family old_contents torn_disk.
Proof.
  split; [|left; by vm_compute].
  assert (Hs : forall i, i <> Cfg -> same_on (plist (paths i)) (steady_disk old_contents) torn_disk).
  { intros i Hi p Hp. unfold torn_disk. rewrite !lookup_insert_ne; [done|..]; intros <-.
    - apply (paths_apart i Cfg _ Hi Hp). apply list_elem_of_here.
    - exact (proj1 (flags_apart i) Hp). }
  assert (Hin : forall i, old_contents i ∈ sample_family i) by (intros []; apply list_elem_of_here).
  intros [].
  - assert (Hc : crash_disks (steady_disk old_contents)
      (copy_effs FOTA_CFG_FILE_PATH FOTA_CFG_CHKSUM_FILE_PATH (new_contents Cfg))
      (<[FOTA_CFG_FILE_PATH := take 2 (new_contents Cfg)]> (steady_disk old_contents))).
    { pose proof (crash_inside (steady_disk old_contents)
        (copy_effs FOTA_CFG_FILE_PATH FOTA_CFG_CHKSUM_FILE_PATH (new_contents Cfg)) 1 2 _ eq_refl) as H.
      revert H. cbn [torn take copy_effs store_effs app replay fold_left apply_eff].
      by rewrite lookup_insert_eq, insert_insert_eq. }
    eapply (pairI_same _ _ _ (<[FOTA_CFG_FILE_PATH := take 2 (new_contents Cfg)]> (steady_disk old_contents))).
    { intros p Hp. unfold torn_disk. rewrite lookup_insert_ne; [done|]. intros <-. exact (proj1 (flags_apart Cfg) Hp). }
    destruct (update_master (sample_family Cfg) (proj2 (sample_family_ok Cfg)) _ _ _ _ (paths_nodup Cfg)
      (old_contents Cfg) (new_contents Cfg) _ _ ltac:(apply list_elem_of_here)
      ltac:(apply list_elem_of_further, list_elem_of_here) (steady_both Cfg) Hc) as [[H|H] _]; [exact H|].
    destruct H as (_ & _ & _ & H). vm_compute in H. destruct H as [H _]. discriminate H.
  - eapply pairI_same; [by apply Hs|]. exact (both_pairI _ (proj2 (sample_family_ok Part)) _ _ _ _ _ _ (Hin Part) (steady_both Part)).
  - eapply pairI_same; [by apply Hs|]. exact (both_pairI _ (proj2 (sample_family_ok Boot)) _ _ _ _ _ _ (Hin Boot) (steady_both Boot)).
Qed.

Lemma good_boot_env : boot_env good_env.
Proof. split; [apply good_env_good|]. exists 0. split; [done|]. unfold hexchar. lia. Qed.

Lemma ssbl_recovers_witness :
  exists d2, run_boots good_env 4 torn_disk = Some d2 /\ settled old_contents d2.
Proof.
  apply (ssbl_recovers sample_family old_contents good_env torn_disk torn_disk).
  - apply sample_family_ok.
  - apply good_boot_env.
  - apply torn_recoverable.
  - apply boots_none.
Defined.

(** Without the condition on the uninitialised buffer the repair can stop too
    early: the checksum of the backup of boot.json is cut after four characters,
    the buffer still holds the four that are missing, and the loader goes on to
    load an image, removes the dirty-bit file and leaves the checksum cut. *)
Definition cut_disk : disk :=
  <[DIRTY_BIT_FILE_PATH := []]> (<[p_bsum (paths Boot) := take 4 (hex8 (fl_of (old_contents Boot)))]> (steady_disk old_contents)).

Definition stale_env : env :=
  mkEnv (fun _ => true) (fun _ => true) (fun _ n => n) (fun _ => true) 0 (hex8 (fl_of (old_contents Boot)) ++ replicate 8 0).

Example stale_buffer_keeps_cut :
  match run_boots stale_env 4 cut_disk with
  | Some d => bool_decide (d !! DIRTY_BIT_FILE_PATH = None) && bool_decide (d !! p_bsum (paths Boot) = Some (take 4 (hex8 (fl_of (old_contents Boot)))))
  | None => false
  end = true.
Proof. by vm_compute. Qed.
