(* ===== verification/FotaFlash.v ===== *)
(** * Firmware download: from received pieces to flash sectors (components/fota)

    [fota_http_cb] (case [FOTA_RECV_TYPE_FIRMWARE]) and [fota_fw_update] run the
    same code on a piece of the image: it is collected in a buffer of one
    sector, a full buffer (and what is left at the end) goes to the hash and to
    the sector cache at the next sector.  [fota_recv_firmware] is that code.
    The sector cache is any [SectorStore]; the SHA-256 routines of the boot ROM
    are parameters. *)

From S2P Require Import Prelude Flash SectorCache.

Definition FOTA_MAX_RECV_BUFF_SIZE : Z := SECTORSIZE.

Section Download.
Context {S Ctx : Type} `{!SectorStore S}.
Context (boot_sha256_update : Ctx -> bytes -> Ctx).

Record fw_state := mkFw {
  recv_buff : option bytes;
  recv_index : Z;
  fw_sector : Z;
  fw_store : S;
  sha256_ctx : Ctx;
}.

(** [boot_sha256_update; sector_cache_write; fw_sector++; recv_index = 0] on
    the first [n] bytes of the buffer. *)
Definition put_sector (st : fw_state) (buf : bytes) (n : Z) : option fw_state :=
  let piece := take (Z.to_nat n) buf in
  match st_write (fw_store st) (u32 (fw_sector st * SECTORSIZE)) piece with
  | None => None
  | Some s' =>
      Some (mkFw (Some buf) 0 (u32 (fw_sector st + 1)) s' (boot_sha256_update (sha256_ctx st) piece))
  end.

(** [alloc]: the fresh buffer of [os_alloc], [None] when it fails.  [None] as
    the result: the copy of what is left overruns the buffer. *)
Definition fota_recv_firmware (alloc : option bytes) (st : fw_state) (data : bytes) (more_data : bool)
  : option fw_state :=
  let start := match recv_buff st with
               | Some b => Some (b, recv_index st)
               | None => match alloc with Some b => Some (b, 0) | None => None end
               end in
  match start with
  | None => Some st
  | Some (buf, index) =>
      let available := FOTA_MAX_RECV_BUFF_SIZE - index in
      let copy_len := if zlen data <? available then zlen data else available in
      let buf := memcpy buf index (take (Z.to_nat copy_len) data) in
      let index := index + copy_len in
      let rest := drop (Z.to_nat copy_len) data in
      let resp_len := zlen rest in
      let st := mkFw (Some buf) index (fw_sector st) (fw_store st) (sha256_ctx st) in
      let st1 :=
        if (FOTA_MAX_RECV_BUFF_SIZE <=? index) || (negb more_data && (resp_len =? 0))
        then put_sector st buf index else Some st in
      match st1 with
      | None => None
      | Some st1 =>
          let st2 :=
            if resp_len =? 0 then Some st1
            else if FOTA_MAX_RECV_BUFF_SIZE <? resp_len then None
            else
              let buf := memcpy buf 0 rest in
              if negb more_data then put_sector st1 buf resp_len
              else Some (mkFw (Some buf) resp_len (fw_sector st1) (fw_store st1) (sha256_ctx st1)) in
          match st2 with
          | None => None
          | Some st2 =>
              if more_data then Some st2
              else match st_flush_all (fw_store st2) with
                   | None => None
                   | Some s' => Some (mkFw None (recv_index st2) (fw_sector st2) s' (sha256_ctx st2))
                   end
          end
      end
  end.

(** A first piece that fits is only held. *)
Lemma recv_short b st data :
  recv_buff st = None -> zlen data < SECTORSIZE ->
  fota_recv_firmware (Some b) st data true =
  Some (mkFw (Some (memcpy b 0 data)) (zlen data) (fw_sector st) (fw_store st) (sha256_ctx st)).
Proof.
  intros Hb Hl. unfold fota_recv_firmware, FOTA_MAX_RECV_BUFF_SIZE. rewrite Hb.
  rewrite Z.sub_0_r, (proj2 (Z.ltb_lt _ _)) by done.
  assert (Hn : Z.to_nat (zlen data) = length data) by (unfold zlen; lia).
  rewrite Hn, firstn_all, drop_all. rewrite Z.add_0_l, (proj2 (Z.leb_gt _ _)) by lia. done.
Qed.

(** The pieces of an image, the last one without [more_data]. *)
Fixpoint recv_all (alloc : option bytes) (st : fw_state) (pieces : list bytes) (last : bytes) : option fw_state :=
  match pieces with
  | [] => fota_recv_firmware alloc st last false
  | p :: pieces' =>
      match fota_recv_firmware alloc st p true with
      | None => None
      | Some st' => recv_all alloc st' pieces' last
      end
  end.

(** ** The invariant of a download *)

(** The sectors of the image, once it is in place, are data that the flash
    programming cannot lose. *)
Definition image_storable (f : Z -> Z) (a : Z) (image : bytes) : Prop :=
  forall k, 0 <= k -> k * SECTORSIZE < zlen image ->
  programmable (cells (overlay f a image) (a + k * SECTORSIZE) SECTORSIZE).

(** [put] are the bytes already in the cache, [held] those in the buffer. *)
Record downloading (f : Z -> Z) (s0 : Z) (ctx0 : Ctx) (st : fw_state) (put held : bytes) : Prop := {
  dl_ok : st_ok (fw_store st);
  dl_view : forall x, st_view (fw_store st) x = overlay f (s0 * SECTORSIZE) put x;
  dl_sector : fw_sector st = s0 + zlen put / SECTORSIZE;
  dl_aligned : zlen put mod SECTORSIZE = 0;
  dl_sha : exists pieces, sha256_ctx st = fold_left boot_sha256_update pieces ctx0 /\ concat pieces = put;
  dl_held : match recv_buff st with
            | Some b => zlen b = SECTORSIZE /\ is_bytes b /\ 0 <= recv_index st <= SECTORSIZE /\
                        take (Z.to_nat (recv_index st)) b = held
            | None => held = []
            end;
}.

Context (f : Z -> Z) (s0 : Z) (ctx0 : Ctx) (image : bytes).
Context (Hs0 : 0 <= s0) (Hend : s0 * SECTORSIZE + zlen image + SECTORSIZE <= 2 ^ 32) (Himg : is_bytes image).
Context (Hstor : image_storable f (s0 * SECTORSIZE) image).

(** The sector the next piece goes to is one of the image's. *)
Lemma storable_piece st put piece rest n :
  (forall x, st_view (fw_store st) x = overlay f (s0 * SECTORSIZE) put x) ->
  zlen put = zlen put / SECTORSIZE * SECTORSIZE ->
  image = put ++ piece ++ rest -> zlen piece = n -> 0 <= n <= SECTORSIZE -> n = SECTORSIZE \/ rest = [] ->
  write_storable (st_view (fw_store st)) (s0 * SECTORSIZE + zlen put) piece.
Proof.
  intros Hv Hk Hi Hp Hn Hlast sb Hsb Hlo Hhi. pose proof (zlen_nonneg put) as Hpn. rewrite Hp in Hlo.
  assert (Hsb' : sb = s0 * SECTORSIZE + zlen put).
  { rewrite Hk in *. unfold SECTORSIZE in *. Z.to_euclidean_division_equations. lia. }
  subst sb. eapply programmable_ext; [|apply (Hstor (zlen put / SECTORSIZE))].
  - rewrite <- Hk. apply cells_ext. intros x Hx.
    rewrite (overlay_ext (st_view (fw_store st)) _ _ _ _ Hv), overlay_app.
    destruct Hlast as [-> | ->]; [|by rewrite app_nil_r in Hi; subst image].
    subst image. unfold overlay. rewrite app_assoc. rewrite !zlen_app, Hp. pose proof (zlen_nonneg rest).
    destruct (Z.leb_spec (s0 * SECTORSIZE) x), (Z.ltb_spec x (s0 * SECTORSIZE + (zlen put + SECTORSIZE + zlen rest))),
      (Z.ltb_spec x (s0 * SECTORSIZE + (zlen put + SECTORSIZE))); cbn [andb]; try lia.
    unfold bget. rewrite app_nth1; [done|]. rewrite length_app. unfold zlen in *. lia.
  - by apply Z.div_pos.
  - rewrite <- Hk, Hi. zl. pose proof (zlen_nonneg rest). lia.
Qed.

(** Putting the next piece: full, or the last one. *)
Lemma put_sector_step st put buf n rest :
  st_ok (fw_store st) ->
  (forall x, st_view (fw_store st) x = overlay f (s0 * SECTORSIZE) put x) ->
  fw_sector st = s0 + zlen put / SECTORSIZE -> zlen put mod SECTORSIZE = 0 ->
  image = put ++ take (Z.to_nat n) buf ++ rest -> 0 <= n <= SECTORSIZE -> n <= zlen buf ->
  n = SECTORSIZE \/ rest = [] ->
  exists s', put_sector st buf n = Some (mkFw (Some buf) 0 (s0 + zlen put / SECTORSIZE + 1) s'
      (boot_sha256_update (sha256_ctx st) (take (Z.to_nat n) buf))) /\
    st_ok s' /\
    forall x, st_view s' x = overlay f (s0 * SECTORSIZE) (put ++ take (Z.to_nat n) buf) x.
Proof.
  intros Hok Hv Hsec Hal Hi Hn Hnb Hlast. unfold put_sector.
  assert (Hp : zlen (take (Z.to_nat n) buf) = n) by (apply zlen_take; lia).
  set (piece := take (Z.to_nat n) buf) in *.
  pose proof (zlen_nonneg put) as Hpn. pose proof (zlen_nonneg rest) as Hrn.
  assert (Hz : zlen image = zlen put + n + zlen rest) by (rewrite Hi; zl; lia).
  assert (Hk : zlen put = zlen put / SECTORSIZE * SECTORSIZE)
    by (pose proof (Z.div_mod (zlen put) SECTORSIZE); unfold SECTORSIZE in *; lia).
  assert (Ha : u32 (fw_sector st * SECTORSIZE) = s0 * SECTORSIZE + zlen put).
  { rewrite Hsec, Z.mul_add_distr_r, <- Hk. apply u32_small. unfold SECTORSIZE in *. lia. }
  assert (Hu : u32 (fw_sector st + 1) = s0 + zlen put / SECTORSIZE + 1).
  { rewrite Hsec. apply u32_small. unfold SECTORSIZE in *. lia. }
  rewrite Ha, Hu.
  destruct (st_write_spec (fw_store st) (s0 * SECTORSIZE + zlen put) piece) as (s' & -> & Hok' & Hv').
  - done.
  - unfold SECTORSIZE in *. lia.
  - unfold SECTORSIZE in *. lia.
  - pose proof Himg as H. unfold is_bytes in H. rewrite Hi in H.
    apply Forall_app in H as [_ H]. by apply Forall_app in H as [H _].
  - by apply (storable_piece st put piece rest n).
  - exists s'. split; [done|]. split; [done|]. intros x. rewrite Hv', <- overlay_app. by apply overlay_ext.
Qed.

Lemma memcpy_sector (dst src : bytes) off :
  zlen dst = SECTORSIZE -> is_bytes dst -> is_bytes src -> 0 <= off -> off + zlen src <= SECTORSIZE ->
  zlen (memcpy dst off src) = SECTORSIZE /\ is_bytes (memcpy dst off src).
Proof.
  intros Hd Hb Hs Ho Hl. split.
  - unfold zlen in *. rewrite length_memcpy by (unfold zlen; lia). done.
  - unfold memcpy, is_bytes in *. apply Forall_app; split; [by apply Forall_take|].
    apply Forall_app; split; [done|by apply Forall_drop].
Qed.

Context (fresh : bytes) (Hfresh : zlen fresh = SECTORSIZE /\ is_bytes fresh).

(** The buffer and the index a piece is received with. *)
Definition start_of (st : fw_state) : bytes * Z :=
  match recv_buff st with Some b => (b, recv_index st) | None => (fresh, 0) end.

Lemma start_ok st put held :
  downloading f s0 ctx0 st put held ->
  zlen (start_of st).1 = SECTORSIZE /\ is_bytes (start_of st).1 /\
  0 <= (start_of st).2 <= SECTORSIZE /\ take (Z.to_nat (start_of st).2) (start_of st).1 = held /\
  zlen held = (start_of st).2.
Proof.
  intros [_ _ _ _ _ Hh]. unfold start_of. destruct (recv_buff st) as [b|]; simpl.
  - destruct Hh as (H1 & H2 & H3 & <-). split_and!; try done; try lia. apply zlen_take. lia.
  - subst held. destruct Hfresh. split_and!; try done; unfold SECTORSIZE; lia.
Qed.

(** Receiving a piece, up to the final flush: either it fits behind what is
    held, or it completes a sector and the rest is held. *)
Definition copied (st : fw_state) (data : bytes) : Z :=
  if zlen data <? FOTA_MAX_RECV_BUFF_SIZE - (start_of st).2 then zlen data
  else FOTA_MAX_RECV_BUFF_SIZE - (start_of st).2.

Lemma copied_ok st put held data :
  downloading f s0 ctx0 st put held -> is_bytes data ->
  let n := copied st data in
  let buf := memcpy (start_of st).1 (start_of st).2 (take (Z.to_nat n) data) in
  0 <= n <= zlen data /\ (start_of st).2 + n <= SECTORSIZE /\
  (n < zlen data -> (start_of st).2 + n = SECTORSIZE) /\
  zlen buf = SECTORSIZE /\ is_bytes buf /\
  take (Z.to_nat ((start_of st).2 + n)) buf = held ++ take (Z.to_nat n) data.
Proof.
  intros Hd Hb n buf. destruct (start_ok _ _ _ Hd) as (H1 & H2 & H3 & H4 & H5).
  pose proof (zlen_nonneg data) as Hz.
  assert (Hn : 0 <= n <= zlen data /\ (start_of st).2 + n <= SECTORSIZE /\
    (n < zlen data -> (start_of st).2 + n = SECTORSIZE)).
  { unfold n, copied, FOTA_MAX_RECV_BUFF_SIZE. case_if; lia. }
  destruct Hn as (Hn1 & Hn2 & Hn3). pose proof (zlen_take data n Hn1) as Ht.
  split_and!; try lia; try done.
  - apply memcpy_sector; try done; [by apply Forall_take|lia|lia].
  - apply memcpy_sector; try done; [by apply Forall_take|lia|lia].
  - rewrite <- Ht at 1. unfold buf. rewrite take_memcpy by lia. by rewrite H4.
Qed.

(** What is done with the copied buffer, before the final flush. *)
Definition after_copy (st : fw_state) (buf : bytes) (index : Z) (rest : bytes) (more_data : bool) : option fw_state :=
  let st := mkFw (Some buf) index (fw_sector st) (fw_store st) (sha256_ctx st) in
  match (if (FOTA_MAX_RECV_BUFF_SIZE <=? index) || (negb more_data && (zlen rest =? 0))
         then put_sector st buf index else Some st) with
  | None => None
  | Some st1 =>
      if zlen rest =? 0 then Some st1
      else if FOTA_MAX_RECV_BUFF_SIZE <? zlen rest then None
      else if negb more_data then put_sector st1 (memcpy buf 0 rest) (zlen rest)
      else Some (mkFw (Some (memcpy buf 0 rest)) (zlen rest) (fw_sector st1) (fw_store st1) (sha256_ctx st1))
  end.

Lemma recv_unfold st data more_data :
  fota_recv_firmware (Some fresh) st data more_data =
  match after_copy st (memcpy (start_of st).1 (start_of st).2 (take (Z.to_nat (copied st data)) data))
          ((start_of st).2 + copied st data) (drop (Z.to_nat (copied st data)) data) more_data with
  | None => None
  | Some st2 =>
      if more_data then Some st2
      else match st_flush_all (fw_store st2) with
           | None => None
           | Some s' => Some (mkFw None (recv_index st2) (fw_sector st2) s' (sha256_ctx st2))
           end
  end.
Proof.
  unfold fota_recv_firmware, after_copy, copied, start_of.
  destruct (recv_buff st) as [b|]; cbn [fst snd]; cbv zeta;
    match goal with
    | |- context [match (if ?b then put_sector ?x ?y ?z else ?w) with _ => _ end] =>
        by destruct (if b then put_sector x y z else w)
    end.
Qed.

Lemma sha_snoc st put piece :
  (exists pieces, sha256_ctx st = fold_left boot_sha256_update pieces ctx0 /\ concat pieces = put) ->
  exists pieces, boot_sha256_update (sha256_ctx st) piece = fold_left boot_sha256_update pieces ctx0 /\
    concat pieces = put ++ piece.
Proof.
  intros (ps & Hs & <-). exists (ps ++ [piece]). rewrite fold_left_app, concat_app. simpl.
  by rewrite app_nil_r, Hs.
Qed.

(** A completed sector. *)
Lemma put_full st put buf index rest :
  downloading f s0 ctx0 (mkFw (Some buf) index (fw_sector st) (fw_store st) (sha256_ctx st)) put (take (Z.to_nat index) buf) ->
  index = SECTORSIZE -> image = put ++ take (Z.to_nat index) buf ++ rest -> zlen buf = SECTORSIZE -> is_bytes buf ->
  exists st', put_sector (mkFw (Some buf) index (fw_sector st) (fw_store st) (sha256_ctx st)) buf index = Some st' /\
    recv_buff st' = Some buf /\ recv_index st' = 0 /\
    downloading f s0 ctx0 st' (put ++ take (Z.to_nat index) buf) [].
Proof.
  intros [Hok Hv Hsec Hal Hsha Hh] -> Hi Hl Hb. simpl in *.
  destruct (put_sector_step (mkFw (Some buf) SECTORSIZE (fw_sector st) (fw_store st) (sha256_ctx st))
    put buf SECTORSIZE rest) as (s' & -> & Hok' & Hv'); try done; try (unfold SECTORSIZE in *; lia); try (by left).
  eexists. split; [done|]. split; [done|]. split; [done|].
  assert (Hz : zlen (put ++ take (Z.to_nat SECTORSIZE) buf) = zlen put + SECTORSIZE)
    by (rewrite zlen_app, zlen_take by (unfold SECTORSIZE in *; lia); done).
  split; simpl; try done.
  - rewrite Hz. unfold SECTORSIZE in *. Z.to_euclidean_division_equations. lia.
  - rewrite Hz. unfold SECTORSIZE in *. Z.to_euclidean_division_equations. lia.
  - by apply sha_snoc.
Qed.

Lemma downloading_same st put held :
  downloading f s0 ctx0 st put held ->
  forall buf index, zlen buf = SECTORSIZE -> is_bytes buf -> 0 <= index <= SECTORSIZE ->
  downloading f s0 ctx0 (mkFw (Some buf) index (fw_sector st) (fw_store st) (sha256_ctx st)) put
    (take (Z.to_nat index) buf).
Proof. intros [Hok Hv Hsec Hal Hsha _] buf index Hl Hb Hi. by split. Qed.

(** A piece with more to come. *)
Lemma recv_more st put held data rest :
  downloading f s0 ctx0 st put held -> image = put ++ held ++ data ++ rest -> zlen data <= SECTORSIZE ->
  exists st' put' held', fota_recv_firmware (Some fresh) st data true = Some st' /\
    downloading f s0 ctx0 st' put' held' /\ put' ++ held' = put ++ held ++ data.
Proof.
  intros Hd Hi Hl.
  assert (Hdb : is_bytes data).
  { pose proof Himg as H. unfold is_bytes in *. rewrite Hi in H. rewrite !Forall_app in H. tauto. }
  destruct (copied_ok _ _ _ data Hd Hdb) as (C1 & C2 & C3 & C4 & C5 & C6).
  destruct (start_ok _ _ _ Hd) as (_ & _ & S3 & _ & _).
  rewrite recv_unfold. set (n := copied st data) in *. set (index := (start_of st).2 + n) in *.
  set (buf := memcpy (start_of st).1 (start_of st).2 (take (Z.to_nat n) data)) in *.
  pose proof (zlen_drop data n C1) as Hr. unfold after_copy.
  pose proof (downloading_same _ _ _ Hd buf index C4 C5 ltac:(lia)) as Hd1.
  assert (Hcat : held ++ data = take (Z.to_nat index) buf ++ drop (Z.to_nat n) data)
    by (rewrite C6, <- app_assoc; by rewrite take_drop).
  unfold FOTA_MAX_RECV_BUFF_SIZE. cbn [negb andb]. rewrite orb_false_r.
  destruct (Z.leb_spec SECTORSIZE index) as [Hfull|Hfull].
  - assert (Hidx : index = SECTORSIZE) by lia.
    destruct (put_full st put buf index (drop (Z.to_nat n) data ++ rest) Hd1 Hidx) as (st1 & -> & B1 & I1 & Hd2);
      [by rewrite Hi, !app_assoc, <- (app_assoc put), Hcat, !app_assoc|done|done|].
    destruct (Z.eqb_spec (zlen (drop (Z.to_nat n) data)) 0) as [Hz|Hz].
    + exists st1, (put ++ take (Z.to_nat index) buf), []. split; [done|]. split; [done|].
      rewrite app_nil_r, Hcat. rewrite (nil_length_inv (drop (Z.to_nat n) data)) by (unfold zlen in Hz; lia).
      by rewrite app_nil_r.
    + destruct (Z.ltb_spec SECTORSIZE (zlen (drop (Z.to_nat n) data))) as [Hbig|Hbig]; [lia|].
      destruct (memcpy_sector buf (drop (Z.to_nat n) data) 0) as [M1 M2];
        [done|done|by apply Forall_drop|lia|lia|].
      eexists _, _, _. split; [done|]. split.
      { apply (downloading_same _ _ _ Hd2); [done|done|lia]. }
      by rewrite take_memcpy_0, <- app_assoc, Hcat.
  - assert (Hz : zlen (drop (Z.to_nat n) data) = 0) by lia. rewrite Hz. cbn [Z.eqb].
    eexists _, put, _. split; [done|]. split; [exact Hd1|]. rewrite Hcat.
    rewrite (nil_length_inv (drop (Z.to_nat n) data)) by (unfold zlen in Hz; lia). by rewrite app_nil_r.
Qed.

(** The image is in place: on the flash, and hashed in order. *)
Definition downloaded (st : fw_state) : Prop :=
  st_ok (fw_store st) /\ recv_buff st = None /\
  (forall x, st_flash (fw_store st) x = overlay f (s0 * SECTORSIZE) image x) /\
  exists pieces, sha256_ctx st = fold_left boot_sha256_update pieces ctx0 /\ concat pieces = image.

(** The last piece put, and the flush. *)
Lemma put_last st put held buf n :
  downloading f s0 ctx0 st put held -> image = put ++ take (Z.to_nat n) buf -> 0 <= n <= SECTORSIZE -> n <= zlen buf ->
  exists st2 s', put_sector st buf n = Some st2 /\ st_flush_all (fw_store st2) = Some s' /\
    downloaded (mkFw None (recv_index st2) (fw_sector st2) s' (sha256_ctx st2)).
Proof.
  intros [Hok Hv Hsec Hal Hsha _] Hi Hn Hnb.
  destruct (put_sector_step st put buf n []) as (s1 & -> & Hok1 & Hv1); try done;
    [by rewrite app_nil_r|by right|].
  destruct (st_flush_spec s1 Hok1) as (s' & Hf & Hok' & Hv').
  eexists _, s'. split; [done|]. split; [done|]. split_and!; simpl; try done.
  - intros x. destruct (Hv' x) as [_ ->]. by rewrite Hv1, Hi.
  - rewrite Hi. by apply sha_snoc.
Qed.

Lemma recv_last st put held data :
  downloading f s0 ctx0 st put held -> image = put ++ held ++ data -> zlen data <= SECTORSIZE ->
  exists st', fota_recv_firmware (Some fresh) st data false = Some st' /\ downloaded st'.
Proof.
  intros Hd Hi Hl.
  assert (Hdb : is_bytes data).
  { pose proof Himg as H. unfold is_bytes in *. rewrite Hi in H. rewrite !Forall_app in H. tauto. }
  destruct (copied_ok _ _ _ data Hd Hdb) as (C1 & C2 & C3 & C4 & C5 & C6).
  destruct (start_ok _ _ _ Hd) as (_ & _ & S3 & _ & _).
  rewrite recv_unfold. set (n := copied st data) in *. set (index := (start_of st).2 + n) in *.
  set (buf := memcpy (start_of st).1 (start_of st).2 (take (Z.to_nat n) data)) in *.
  pose proof (zlen_drop data n C1) as Hr. unfold after_copy.
  pose proof (downloading_same _ _ _ Hd buf index C4 C5 ltac:(lia)) as Hd1.
  assert (Hcat : image = put ++ take (Z.to_nat index) buf ++ drop (Z.to_nat n) data)
    by (rewrite C6, <- app_assoc, take_drop; done).
  unfold FOTA_MAX_RECV_BUFF_SIZE. cbn [negb andb].
  destruct (Z.eqb_spec (zlen (drop (Z.to_nat n) data)) 0) as [Hz|Hz].
  - rewrite orb_true_r. rewrite (nil_length_inv (drop (Z.to_nat n) data)), app_nil_r in Hcat by (unfold zlen in Hz; lia).
    destruct (put_last _ _ _ buf index Hd1 Hcat) as (st2 & s' & -> & -> & Hdl); [lia|lia|]. by eexists.
  - assert (Hidx : index = SECTORSIZE) by lia. rewrite (proj2 (Z.leb_le _ _)) by lia. cbn [orb].
    destruct (put_full st put buf index _ Hd1 Hidx Hcat C4 C5) as (st1 & -> & B1 & I1 & Hd2).
    destruct (Z.ltb_spec SECTORSIZE (zlen (drop (Z.to_nat n) data))) as [Hbig|Hbig]; [lia|].
    destruct (memcpy_sector buf (drop (Z.to_nat n) data) 0) as [M1 M2];
      [done|done|by apply Forall_drop|lia|lia|].
    destruct (put_last _ _ _ (memcpy buf 0 (drop (Z.to_nat n) data)) (zlen (drop (Z.to_nat n) data)) Hd2)
      as (st2 & s' & -> & -> & Hdl); [by rewrite take_memcpy_0, <- app_assoc|lia|lia|]. by eexists.
Qed.

Lemma recv_all_ok pieces last : forall st put held,
  downloading f s0 ctx0 st put held -> image = put ++ held ++ concat pieces ++ last ->
  Forall (fun p => zlen p <= SECTORSIZE) pieces -> zlen last <= SECTORSIZE ->
  exists st', recv_all (Some fresh) st pieces last = Some st' /\ downloaded st'.
Proof.
  induction pieces as [|p pieces IH]; intros st put held Hd Hi Hp Hl; cbn [recv_all concat] in *.
  - by eapply recv_last.
  - inversion Hp as [|? ? Hp1 Hp2]; subst. rewrite <- app_assoc in Hi.
    destruct (recv_more _ _ _ p (concat pieces ++ last) Hd Hi Hp1) as (st' & put' & held' & -> & Hd' & Hcat).
    apply (IH st' put' held'); [done| |done|done]. rewrite app_assoc, Hcat, Hi. by rewrite !app_assoc.
Qed.
End Download.

(** C5: an image received in any number of pieces of at most one sector each,
    the pieces ending anywhere, is on the flash when the last piece has been
    processed: it lies from the start sector on, every other byte of the flash
    is unchanged, and the hash was fed the bytes of the image in order; the
    buffer is never overrun.  Shown for an image that ends at least one sector
    before the end of the 32-bit address space and none of whose sectors, with
    the image in place, has a page that is neither blank nor programmed both at
    an even and at an odd offset ([image_storable]: a page programmed at odd
    offsets alone can be lost by the sector cache), on a sector store that keeps
    its contract, with the buffer allocated. *)
Theorem firmware_download {S Ctx : Type} `{!SectorStore S} (boot_sha256_update : Ctx -> bytes -> Ctx)
    (store : S) (ctx : Ctx) (sector : Z) (fresh : bytes) (pieces : list bytes) (last : bytes) :
  st_ok store -> 0 <= sector ->
  sector * SECTORSIZE + zlen (concat pieces ++ last) + SECTORSIZE <= 2 ^ 32 ->
  is_bytes (concat pieces ++ last) ->
  image_storable (st_view store) (sector * SECTORSIZE) (concat pieces ++ last) ->
  zlen fresh = SECTORSIZE -> is_bytes fresh ->
  Forall (fun p => zlen p <= SECTORSIZE) pieces -> zlen last <= SECTORSIZE ->
  exists st, recv_all boot_sha256_update (Some fresh) (mkFw None 0 sector store ctx) pieces last = Some st /\
    recv_buff st = None /\
    (forall x, st_flash (fw_store st) x = overlay (st_view store) (sector * SECTORSIZE) (concat pieces ++ last) x) /\
    exists chunks, sha256_ctx st = fold_left boot_sha256_update chunks ctx /\ concat chunks = concat pieces ++ last.
Proof.
  intros Hok Hs Hend Hb Hst Hf Hfb Hp Hl.
  destruct (recv_all_ok boot_sha256_update (st_view store) sector ctx (concat pieces ++ last) Hs Hend Hb Hst
    fresh (conj Hf Hfb) pieces last (mkFw None 0 sector store ctx) [] []) as (st & Hr & _ & H1 & H2 & H3); try done.
  - split; cbn [fw_store fw_sector sha256_ctx recv_buff]; [done| | |done|by exists []|done].
    + intros x. unfold overlay, zlen. simpl. rewrite Z.add_0_r. case_if; [lia|done].
    + change (zlen (@nil Z) / SECTORSIZE) with 0. lia.
  - by exists st.
Qed.

Definition piece_a : bytes := replicate (Z.to_nat 100) 7.
Definition piece_b : bytes := replicate (Z.to_nat 3996) 7.

Lemma pieces_full : concat [piece_a] ++ piece_b = sector_full.
Proof. by vm_compute. Qed.

Lemma image_storable_full f a : a mod SECTORSIZE = 0 -> image_storable f a sector_full.
Proof.
  intros Ha k Hk Hlt. change (zlen sector_full) with SECTORSIZE in Hlt.
  assert (k = 0) as -> by (unfold SECTORSIZE in *; lia). rewrite Z.mul_0_l, Z.add_0_r.
  apply (storable_full f a Ha); [done|..]; change (zlen sector_full) with SECTORSIZE; unfold SECTORSIZE; lia.
Qed.

(** The one-sector cache over the zeroed flash, with a constant clock. *)
Definition zero_clock_store : SectorStore (SC nor_flash) := one_entry_store (fun _ => 5).
#[local] Existing Instance zero_clock_store.

Lemma firmware_download_witness :
  exists st, recv_all (fun h b => h ++ b) (Some zero_sector) (mkFw None 0 1 one_zero []) [piece_a] piece_b = Some st /\
    recv_buff st = None /\
    (forall x, st_flash (fw_store st) x
       = overlay (st_view one_zero) (1 * SECTORSIZE) (concat [piece_a] ++ piece_b) x) /\
    exists chunks, sha256_ctx st = fold_left (fun h b => h ++ b) chunks [] /\
      concat chunks = concat [piece_a] ++ piece_b.
Proof.
  apply (firmware_download (fun h b => h ++ b) one_zero [] 1 zero_sector
    [piece_a] piece_b).
  - exists blank_entry. constructor; try done. apply is_bytes_replicate. unfold is_byte; lia.
  - lia.
  - vm_compute; discriminate.
  - rewrite pieces_full. apply is_bytes_replicate. unfold is_byte; lia.
  - rewrite pieces_full. by apply image_storable_full.
  - reflexivity.
  - apply is_bytes_replicate. unfold is_byte; lia.
  - repeat constructor. vm_compute; discriminate.
  - vm_compute; discriminate.
Defined.
