(* ===== verification/Fota.v ===== *)
(** * The update client (components/fota/src/fota.c)

    The handle, the configuration and partition files, the choice of the image
    area, the download of firmware and files, and the commit.  The HTTP client
    is seen through [http_env]: whether a connection opens, and for a path the
    sequence of callbacks and the result of [http_client_get].  [json_loads],
    [json_dumps] and the SHA-256 routines are parameters.  A [NULL] string that
    is dereferenced, a write past a buffer, a stream used after [fclose] and a
    [NULL] connection that is closed are [Undefined]. *)

From S2P Require Import Prelude Flash SectorCache FileSys FsUtils BasicJson CString HttpClient Jansson FotaFlash.

(** ** Data (fota.h) *)

Record fota_files_info := mkFile {
  fi_type : option bytes; fi_name : option bytes; fi_version : option bytes;
  fi_protocol : option bytes; fi_host_name : option bytes; fi_port : Z; fi_secured : Z;
  fi_ca_cert : option bytes; fi_uri : option bytes; fi_url : option bytes; fi_hash : option bytes;
}.

Record fota_image_info := mkImage { ii_version : option bytes; ii_sector : Z; ii_index : Z }.

Record fota_config := mkConfig { package_version : option bytes; files_info_list : list fota_files_info }.

Definition FOTA_ERROR_NONE : Z := 0.
Definition FOTA_ERROR_HTTP_CONNECT : Z := -99.
Definition FOTA_ERROR_HTTP_GET : Z := -98.
Definition FOTA_ERROR_HTTP_RESP_STATUS : Z := -97.
Definition FOTA_ERROR_NO_CONFIG_FILE : Z := -95.
Definition FOTA_ERROR_PART_FILE_LOAD : Z := -89.
Definition FOTA_ERROR_PART_FILE_UPDATE : Z := -88.
Definition FOTA_ERROR_PART_FILE_PARSE : Z := -87.
Definition FOTA_ERROR_SET_BOOT_INDEX : Z := -85.
Definition FOTA_ERROR_URL : Z := -83.
Definition FOTA_ERROR_NO_CA_CERT : Z := -82.
Definition FOTA_ERROR_IMAGE_INTEGRITY : Z := -81.
Definition FOTA_ERROR : Z := -80.

Inductive fota_recv_type := FOTA_RECV_TYPE_NONE | FOTA_RECV_TYPE_CONFIG | FOTA_RECV_TYPE_FIRMWARE | FOTA_RECV_TYPE_FILE.

(** The stream of a file download: [fclose] does not reset the pointer. *)
Inductive stream := StreamNull | StreamOpen (p : string) | StreamClosed.

(** [http_client_resp_info_t], the part the callback reads. *)
Record resp_info := mkResp { status_code : Z; resp_body : bytes; more_data : bool }.

Record http_env := mkHttp {
  he_open : bytes -> Z -> Z -> bool;             (* http_client_open(host, port, secured) *)
  he_get : bytes -> list resp_info * Z;          (* http_client_get(path): callbacks, result *)
}.

(** ** Members of the JSON files *)

Definition fota_json_str_get (root : option json) (key : string) : option bytes :=
  json_string_value (json_object_get root (str key)).

Definition fota_json_int_get (root : option json) (key : string) : Z :=
  s32 (json_integer_value (json_object_get root (str key))).

(** [fota_json_object_update(root, key, value, type)] with the value object
    already built: the result and the updated root. *)
Definition fota_json_object_update (root : option json) (key : string) (val_obj : option json) : Z * option json :=
  match json_object_set_new (JObject []) (str key) val_obj with
  | None => (-1, root)
  | Some obj =>
      match json_object_update_existing root obj with
      | None => (-1, root)
      | Some root' => (0, Some root')
      end
  end.

(** "/root/p<index>/<path>" *)
Definition fota_file_path_at_index_get (path : bytes) (image_index : Z) : bytes :=
  str "/root/p" ++ str (pretty image_index) ++ str "/" ++ path.

Definition is_absolute_path (path : bytes) : bool := starts_with (str "/root") path.

(** [strcmp(s, lit) == 0] on a possibly [NULL] string. *)
Definition str_is (s : option bytes) (lit : string) : M bool :=
  match s with None => m_end Undefined | Some s => m_ret (bool_decide (s = str lit)) end.

Definition deref {A} (o : option A) : M A := match o with None => m_end Undefined | Some a => m_ret a end.

(** [strlen(s)] is not zero, for [s && strlen(s)]. *)
Definition nonempty (s : option bytes) : bool := match s with Some (_ :: _) => true | _ => false end.

(** ** Hash strings *)

(** [fota_string_to_hash]: 32 pairs of hexadecimal digits; the result is
    unspecified for anything else. *)
Definition hexval (c : Z) : option Z :=
  if (48 <=? c) && (c <=? 57) then Some (c - 48)
  else if (97 <=? c) && (c <=? 102) then Some (c - 87)
  else if (65 <=? c) && (c <=? 70) then Some (c - 55)
  else None.

Fixpoint string_to_hash (n : nat) (s : bytes) : option bytes :=
  match n, s with
  | O, _ => Some []
  | S n', a :: b :: s' =>
      match hexval a, hexval b, string_to_hash n' s' with
      | Some x, Some y, Some r => Some (x * 16 + y :: r)
      | _, _, _ => None
      end
  | S _, _ => None
  end.

(** ** The configuration file *)

Definition file_of_json (obj : option json) : fota_files_info :=
  mkFile (fota_json_str_get obj "type") (fota_json_str_get obj "name") (fota_json_str_get obj "version")
    (fota_json_str_get obj "protocol") (fota_json_str_get obj "hostname") (fota_json_int_get obj "port")
    (fota_json_int_get obj "secured") None (fota_json_str_get obj "uri") (fota_json_str_get obj "url")
    (fota_json_str_get obj "hash").

(** The loop over the array; sizes are those of the structures on the device. *)
Definition sizeof_fota_files_info : Z := 48.
Definition sizeof_fota_config : Z := 8.
Definition sizeof_fota_image_info : Z := 20.
Definition sizeof_fota_handle : Z := 80.

Fixpoint parse_files (objs : list json) : M (option (list fota_files_info)) :=
  match objs with
  | [] => m_ret (Some [])
  | obj :: objs' =>
      ok <-- os_alloc sizeof_fota_files_info ;;
      if negb ok then m_ret None else
      r <-- parse_files objs' ;;
      m_ret (match r with None => None | Some fs => Some (file_of_json (Some obj) :: fs) end)
  end.

Definition array_elements (j : option json) : list json := match j with Some (JArray l) => l | _ => [] end.

Definition fota_parse_config_file (root : option json) : M (option fota_config) :=
  ok <-- os_alloc sizeof_fota_config ;;
  if negb ok then m_ret None else
  match json_object_get root (str "files") with
  | None => m_ret None
  | Some arr =>
      r <-- parse_files (array_elements (Some arr)) ;;
      m_ret (match r with
             | None => None
             | Some fs => Some (mkConfig (fota_json_str_get root "package_version") fs)
             end)
  end.

(** ** The partition file *)

Definition MAX_IMAGE_INFO_FOR_AN_APP : nat := 2.

(** The loop of [fota_parse_part_file] over the image array; [found] is the
    filled part of the table.  A third match is written past the table. *)
Fixpoint parse_images (app_name : bytes) (objs : list json) (i : Z) (found : list fota_image_info)
  : M (list fota_image_info) :=
  match objs with
  | [] => m_ret found
  | obj :: objs' =>
      name <-- deref (json_string_value (json_object_get (Some obj) (str "name"))) ;;
      if negb (bool_decide (name = app_name)) then parse_images app_name objs' (i + 1) found
      else if (MAX_IMAGE_INFO_FOR_AN_APP <=? length found)%nat then m_end Undefined
      else
        let info := mkImage (fota_json_str_get (Some obj) "version") (fota_json_int_get (Some obj) "start_sector") i in
        parse_images app_name objs' (i + 1) (found ++ [info])
  end.

(** The result code and the table. *)
Definition fota_parse_part_file (root : option json) (app_name : bytes) : M (Z * list fota_image_info) :=
  match json_object_get root (str "image") with
  | None => m_ret (FOTA_ERROR_PART_FILE_PARSE, [])
  | Some arr =>
      found <-- parse_images app_name (array_elements (Some arr)) 0 [] ;;
      if (length found <? 2)%nat then m_ret (FOTA_ERROR_PART_FILE_PARSE, found)
      else m_ret (FOTA_ERROR_NONE, found)
  end.

(** The entry with the lowest version, the first one of equals. *)
Fixpoint lowest_image (low : fota_image_info) (rest : list fota_image_info) : M fota_image_info :=
  match rest with
  | [] => m_ret low
  | info :: rest' =>
      a <-- deref (ii_version low) ;;
      b <-- deref (ii_version info) ;;
      lowest_image (if 0 <? utils_num_str_cmp a b then info else low) rest'
  end.

(** [fota_select_image_area] without the list insertion: the chosen entry. *)
Definition select_image (json_part : option json) (app_name : bytes) : M (option fota_image_info) :=
  r <-- fota_parse_part_file json_part app_name ;;
  let '(rval, table) := r in
  if rval <? 0 then m_ret None else
  match table with
  | [] => m_ret None
  | info :: rest =>
      low <-- lowest_image info rest ;;
      ok <-- os_alloc sizeof_fota_image_info ;;
      m_ret (if ok then Some low else None)
  end.

Fixpoint fota_cfg_file_info_get (l : list fota_files_info) : M (option fota_files_info) :=
  match l with
  | [] => m_ret None
  | f :: l' =>
      is_cfg <-- str_is (fi_type f) "configuration" ;;
      if is_cfg then m_ret (Some f) else fota_cfg_file_info_get l'
  end.

(** ** The handle

    [h_fw] holds the receive buffer, its index, the next sector, the cache and
    the hash context; [h_conn]: there is a connection. *)

Section Client.
Context {S Ctx : Type} `{!SectorStore S}.
Context (boot_sha256_update : Ctx -> bytes -> Ctx) (boot_sha256_final : Ctx -> bytes).
Context (json_loads : bytes -> option json) (json_dumps : json -> bytes).

Record fota_handle := mkHandle {
  h_cfg : option fota_config;
  h_cfg_remote : option fota_config;
  h_images : list fota_image_info;
  h_conn : bool;
  h_recv_type : fota_recv_type;
  h_status : Z;
  h_error_cb : Z;
  h_next_boot : Z;
  h_curr_file : option fota_files_info;
  h_json_part : option json;
  h_json_cfg : option json;
  h_json_remote : option json;
  h_stream : stream;
  h_fw : fw_state (S := S) (Ctx := Ctx);
}.

Definition set_h_cfg_remote (v : option fota_config) (h : fota_handle) : fota_handle :=
      mkHandle (h_cfg h) v (h_images h) (h_conn h) (h_recv_type h) (h_status h) (h_error_cb
    h) (h_next_boot h) (h_curr_file h) (h_json_part h) (h_json_cfg h) (h_json_remote h) (h_stream h) (h_fw
    h).
Definition set_h_images (v : list fota_image_info) (h : fota_handle) : fota_handle :=
      mkHandle (h_cfg h) (h_cfg_remote h) v (h_conn h) (h_recv_type h) (h_status h)
    (h_error_cb h) (h_next_boot h) (h_curr_file h) (h_json_part h) (h_json_cfg h) (h_json_remote h)
    (h_stream h) (h_fw h).
Definition set_h_conn (v : bool) (h : fota_handle) : fota_handle :=
      mkHandle (h_cfg h) (h_cfg_remote h) (h_images h) v (h_recv_type h) (h_status h)
    (h_error_cb h) (h_next_boot h) (h_curr_file h) (h_json_part h) (h_json_cfg h) (h_json_remote h)
    (h_stream h) (h_fw h).
Definition set_h_recv_type (v : fota_recv_type) (h : fota_handle) : fota_handle :=
      mkHandle (h_cfg h) (h_cfg_remote h) (h_images h) (h_conn h) v (h_status h) (h_error_cb
    h) (h_next_boot h) (h_curr_file h) (h_json_part h) (h_json_cfg h) (h_json_remote h) (h_stream h) (h_fw
    h).
Definition set_h_status (v : Z) (h : fota_handle) : fota_handle :=
      mkHandle (h_cfg h) (h_cfg_remote h) (h_images h) (h_conn h) (h_recv_type h) v
    (h_error_cb h) (h_next_boot h) (h_curr_file h) (h_json_part h) (h_json_cfg h) (h_json_remote h)
    (h_stream h) (h_fw h).
Definition set_h_error_cb (v : Z) (h : fota_handle) : fota_handle :=
      mkHandle (h_cfg h) (h_cfg_remote h) (h_images h) (h_conn h) (h_recv_type h) (h_status
    h) v (h_next_boot h) (h_curr_file h) (h_json_part h) (h_json_cfg h) (h_json_remote h) (h_stream h) (h_fw
    h).
Definition set_h_next_boot (v : Z) (h : fota_handle) : fota_handle :=
      mkHandle (h_cfg h) (h_cfg_remote h) (h_images h) (h_conn h) (h_recv_type h) (h_status
    h) (h_error_cb h) v (h_curr_file h) (h_json_part h) (h_json_cfg h) (h_json_remote h) (h_stream h) (h_fw
    h).
Definition set_h_curr_file (v : option fota_files_info) (h : fota_handle) : fota_handle :=
      mkHandle (h_cfg h) (h_cfg_remote h) (h_images h) (h_conn h) (h_recv_type h) (h_status
    h) (h_error_cb h) (h_next_boot h) v (h_json_part h) (h_json_cfg h) (h_json_remote h) (h_stream h) (h_fw
    h).
Definition set_h_json_part (v : option json) (h : fota_handle) : fota_handle :=
      mkHandle (h_cfg h) (h_cfg_remote h) (h_images h) (h_conn h) (h_recv_type h) (h_status
    h) (h_error_cb h) (h_next_boot h) (h_curr_file h) v (h_json_cfg h) (h_json_remote h) (h_stream h) (h_fw
    h).
Definition set_h_json_remote (v : option json) (h : fota_handle) : fota_handle :=
      mkHandle (h_cfg h) (h_cfg_remote h) (h_images h) (h_conn h) (h_recv_type h) (h_status
    h) (h_error_cb h) (h_next_boot h) (h_curr_file h) (h_json_part h) (h_json_cfg h) v (h_stream h) (h_fw
    h).
Definition set_h_stream (v : stream) (h : fota_handle) : fota_handle :=
      mkHandle (h_cfg h) (h_cfg_remote h) (h_images h) (h_conn h) (h_recv_type h) (h_status
    h) (h_error_cb h) (h_next_boot h) (h_curr_file h) (h_json_part h) (h_json_cfg h) (h_json_remote h) v
    (h_fw h).
Definition set_h_fw (v : fw_state (S := S) (Ctx := Ctx)) (h : fota_handle) : fota_handle :=
      mkHandle (h_cfg h) (h_cfg_remote h) (h_images h) (h_conn h) (h_recv_type h) (h_status
    h) (h_error_cb h) (h_next_boot h) (h_curr_file h) (h_json_part h) (h_json_cfg h) (h_json_remote h)
    (h_stream h) v.

Definition set_recv (b : option bytes) (index : Z) (fw : fw_state (S := S) (Ctx := Ctx)) : fw_state :=
  mkFw b index (fw_sector fw) (fw_store fw) (sha256_ctx fw).

(** ** Loading a JSON file or string *)

Definition fota_json_init_file (file_path : string) : M (option json) :=
  f <-- fopen_r file_path ;;
  match f with
  | None => m_ret None
  | Some content =>
      file_size <-- utils_file_size_get file_path ;;
      if file_size <=? 0 then m_ret None else
      ok <-- os_alloc (file_size + 1) ;;
      if negb ok then m_ret None else
      jstr <-- fread file_path content file_size ;;
      if negb (zlen jstr =? file_size) then m_ret None
      else m_ret (json_loads (cstr jstr))
  end.

Definition fota_json_init_str (json_str : option bytes) : option json :=
  match json_str with None => None | Some s => json_loads (cstr s) end.

(** ** The commit *)

Definition fota_set_boot_index (h : fota_handle) : M Z :=
  root <-- fota_json_init_file BOOT_FILE_PATH ;;
  match root with
  | None => m_ret FOTA_ERROR_SET_BOOT_INDEX
  | Some r =>
      let '(rv, root') := fota_json_object_update (Some r) "image" (json_integer (s32 (h_next_boot h))) in
      if rv <? 0 then m_ret FOTA_ERROR_SET_BOOT_INDEX else
      root' <-- deref root' ;;
      let json_str := json_dumps root' in
      utils_file_touch DIRTY_BIT_FILE_PATH ;;;
      rval <-- utils_file_store BOOT_FILE_PATH json_str ;;
      utils_create_checksum_file BOOT_FILE_PATH BOOT_CHKSUM_FILE_PATH ;;;
      m_ret rval
  end.

Definition fota_update_config_file (h : fota_handle) : M Z :=
  match h_json_remote h with
  | None => m_ret 0
  | Some remote =>
      let json_str := json_dumps remote in
      utils_file_touch DIRTY_BIT_FILE_PATH ;;;
      rval <-- utils_file_store FOTA_CFG_FILE_PATH json_str ;;
      utils_create_checksum_file FOTA_CFG_FILE_PATH FOTA_CFG_CHKSUM_FILE_PATH ;;;
      m_ret rval
  end.

(** The version written into the array element at the image's index. *)
Definition set_image_version (arr : list json) (info : fota_image_info) : list json :=
  match json_array_get (Some (JArray arr)) (ii_index info) with
  | None => arr
  | Some obj =>
      match snd (fota_json_object_update (Some obj) "version" (json_string (ii_version info))) with
      | Some obj' => <[Z.to_nat (ii_index info) := obj']> arr
      | None => arr
      end
  end.

Definition set_versions (root : json) (infos : list fota_image_info) : json :=
  match root with
  | JObject ms =>
      match assoc_get (str "image") ms with
      | Some (JArray arr) => JObject (assoc_set (str "image") (JArray (fold_left set_image_version infos arr)) ms)
      | _ => root
      end
  | _ => root
  end.

Definition fota_update_part_file (h : fota_handle) : M Z :=
  match json_object_get (h_json_part h) (str "image"), h_json_part h with
  | Some _, Some root =>
      let json_str := json_dumps (set_versions root (h_images h)) in
      utils_file_touch DIRTY_BIT_FILE_PATH ;;;
      utils_file_store PART_FILE_PATH json_str ;;;
      utils_create_checksum_file PART_FILE_PATH PART_CHKSUM_FILE_PATH ;;;
      m_ret 0
  | _, _ => m_ret FOTA_ERROR_PART_FILE_UPDATE
  end.

Definition fota_commit (h : fota_handle) (do_reset : Z) : M Z :=
  t <-- utils_file_touch FOTA_IN_PROGRESS_FILE_PATH ;;
  if t <? 0 then m_ret (-1) else
  rval <-- fota_update_config_file h ;;
  if negb (rval =? FOTA_ERROR_NONE) then m_ret rval else
  rval <-- fota_update_part_file h ;;
  if negb (rval =? FOTA_ERROR_NONE) then m_ret rval else
  rval <-- fota_set_boot_index h ;;
  if negb (rval =? FOTA_ERROR_NONE) then m_ret rval else
  unlink FOTA_IN_PROGRESS_FILE_PATH ;;;
  if do_reset =? 1 then reset_device else m_ret rval.

(** ** The HTTP callback *)

(** The fresh buffer of an allocation: its bytes are unspecified. *)
Definition fresh_sector : M (option bytes) := fun E w =>
  (Ret (if env_alloc E FOTA_MAX_RECV_BUFF_SIZE then Some (replicate (Z.to_nat SECTORSIZE) (u8 (env_uninit E))) else None), w).

(** [memcpy(recv_buff + recv_index, ...)] and the zero behind it must fit. *)
Definition recv_config (h : fota_handle) (body : bytes) : M fota_handle :=
  alloc <-- fresh_sector ;;
  let start := match recv_buff (h_fw h) with
               | Some b => Some (b, recv_index (h_fw h))
               | None => match alloc with Some b => Some (b, 0) | None => None end
               end in
  match start with
  | None => m_ret h
  | Some (b, index) =>
      if FOTA_MAX_RECV_BUFF_SIZE <=? index + zlen body then m_end Undefined
      else
        let b := memcpy (memcpy b index body) (index + zlen body) [0] in
        m_ret (set_h_fw (set_recv (Some b) (index + zlen body) (h_fw h)) h)
  end.

Definition recv_firmware (h : fota_handle) (resp : resp_info) : M fota_handle :=
  alloc <-- fresh_sector ;;
  match fota_recv_firmware boot_sha256_update alloc (h_fw h) (resp_body resp) (more_data resp) with
  | None => m_end Undefined
  | Some fw => m_ret (set_h_fw fw h)
  end.

(** [char abs_path[128]] *)
Definition download_path (h : fota_handle) (name : bytes) : M bytes :=
  if is_absolute_path name then m_ret name
  else
    let p := fota_file_path_at_index_get name (h_next_boot h) in
    if 128 <=? zlen p then m_end Undefined else m_ret p.

Definition recv_file (h : fota_handle) (resp : resp_info) : M fota_handle :=
  h' <-- (match h_stream h with
          | StreamNull =>
              info <-- deref (h_curr_file h) ;;
              name <-- deref (fi_name info) ;;
              p <-- download_path h name ;;
              ok <-- fopen_w (to_string p) ;;
              m_ret (if ok then (true, set_h_stream (StreamOpen (to_string p)) h)
                     else (false, set_h_error_cb 1 h))
          | _ => m_ret (true, h)
          end) ;;
  let '(go, h') := h' in
  if negb go then m_ret h' else
  match h_stream h' with
  | StreamOpen p =>
      fwrite p (resp_body resp) ;;;
      m_ret (if more_data resp then h' else set_h_stream StreamClosed h')
  | _ => m_end Undefined
  end.

Definition fota_http_cb (h : fota_handle) (resp : resp_info) : M fota_handle :=
  let h := set_h_status (status_code resp) h in
  if negb (status_code resp =? 200) then m_ret h else
  match h_recv_type h with
  | FOTA_RECV_TYPE_CONFIG => recv_config h (resp_body resp)
  | FOTA_RECV_TYPE_FIRMWARE => recv_firmware h resp
  | FOTA_RECV_TYPE_FILE => recv_file h resp
  | FOTA_RECV_TYPE_NONE => m_ret h
  end.

Fixpoint run_callbacks (h : fota_handle) (resps : list resp_info) : M fota_handle :=
  match resps with
  | [] => m_ret h
  | r :: resps' => h' <-- fota_http_cb h r ;; run_callbacks h' resps'
  end.

(** ** Connections *)

Context (net : http_env).

(** [http_client_get(conn_handle, path, fota_http_cb, h, timeout)]: -1 without
    a connection or a path. *)
Definition http_get (h : fota_handle) (path : option bytes) : M (Z * fota_handle) :=
  match h_conn h, path with
  | true, Some (c :: p) =>
      let '(resps, ret) := he_get net (c :: p) in
      h' <-- run_callbacks h resps ;;
      m_ret (ret, h')
  | _, _ => m_ret (-1, h)
  end.

Definition FOTA_MAX_URL_LEN : Z := 256.

(** [fota_get_host_from_url] and [fota_get_path_from_url]: three buffers; the
    outputs are not written when the URL is not accepted. *)
Definition url_parts (url : bytes) : M (bytes * bytes * Z) :=
  ok1 <-- os_alloc FOTA_MAX_URL_LEN ;;
  ok2 <-- os_alloc FOTA_MAX_URL_LEN ;;
  ok3 <-- os_alloc FOTA_MAX_URL_LEN ;;
  if negb (ok1 && ok2 && ok3) then m_end Undefined
  else if FOTA_MAX_URL_LEN <=? zlen url then m_end Undefined
  else deref (http_client_url_to_host url FOTA_MAX_URL_LEN FOTA_MAX_URL_LEN).

Definition fota_get_host_from_url (url : bytes) : M (bytes * Z) :=
  r <-- url_parts url ;;
  let '(host, _, port) := r in m_ret (host, port).

Definition fota_get_path_from_url (url : bytes) : M bytes :=
  r <-- url_parts url ;;
  let '(_, path, _) := r in m_ret path.

Definition fota_http_connect (h : fota_handle) (file_info : fota_files_info) : M (Z * fota_handle) :=
  certified <--
    (if (fi_secured file_info =? 0) || (fi_secured file_info =? 1) then m_ret true
     else
       path <-- deref (fi_ca_cert file_info) ;;
       cert <-- utils_file_get (to_string path) ;;
       m_ret (match cert with None => false | Some _ => true end)) ;;
  if negb certified then m_ret (FOTA_ERROR_NO_CA_CERT, h)
  else if nonempty (fi_url file_info) && (FOTA_MAX_URL_LEN <=? zlen (default [] (fi_url file_info)))
  then m_ret (FOTA_ERROR_URL, h)
  else
    hp <-- (if nonempty (fi_url file_info)
            then fota_get_host_from_url (default [] (fi_url file_info))
            else host <-- deref (fi_host_name file_info) ;; m_ret (host, 0)) ;;
    let '(host, port) := hp in
    let port := if fi_port file_info =? 0 then port else fi_port file_info in
    if he_open net host port (fi_secured file_info)
    then m_ret (FOTA_ERROR_NONE, set_h_conn true h)
    else m_ret (FOTA_ERROR_HTTP_CONNECT, h).

(** [http_client_close] dereferences the handle it is given. *)
Definition fota_http_close (h : fota_handle) : M fota_handle :=
  if h_conn h then m_ret (set_h_conn false h) else m_end Undefined.

Definition download_uri (file_info : fota_files_info) : M (option bytes) :=
  if nonempty (fi_url file_info)
  then p <-- fota_get_path_from_url (default [] (fi_url file_info)) ;; m_ret (Some p)
  else m_ret (fi_uri file_info).

(** ** Downloads *)

Definition fota_string_to_hash (hash_str : bytes) : M bytes := deref (string_to_hash 32 hash_str).

(** The comparison with the configured hash, when there is one. *)
Definition hash_matches (configured : option bytes) (hash : bytes) : M bool :=
  if nonempty configured
  then want <-- fota_string_to_hash (default [] configured) ;; m_ret (bool_decide (hash = want))
  else m_ret true.

(** The version of the entry at the head of the list, the one just chosen. *)
Definition set_head_version (v : option bytes) (l : list fota_image_info) : list fota_image_info :=
  match l with [] => [] | i :: l' => mkImage v (ii_sector i) (ii_index i) :: l' end.

Definition start_sector (sector : Z) (fw : fw_state (S := S) (Ctx := Ctx)) : fw_state :=
  mkFw (recv_buff fw) (recv_index fw) (u32 sector) (fw_store fw) (sha256_ctx fw).

Definition firmware_transfer (h : fota_handle) (file_info : fota_files_info) (info : fota_image_info)
  : M (Z * fota_handle) :=
  path <-- download_uri file_info ;;
  r <-- http_get (set_h_recv_type FOTA_RECV_TYPE_FIRMWARE h) path ;;
  let '(ret, h) := r in
  let h := set_h_recv_type FOTA_RECV_TYPE_NONE h in
  if ret <? 0 then m_ret (FOTA_ERROR_HTTP_GET, h)
  else if negb (h_status h =? 200) then m_ret (FOTA_ERROR_HTTP_RESP_STATUS, h)
  else
    ok <-- hash_matches (fi_hash file_info) (boot_sha256_final (sha256_ctx (h_fw h))) ;;
    if negb ok then m_ret (FOTA_ERROR_HTTP_RESP_STATUS, h)
    else m_ret (FOTA_ERROR_NONE,
                set_h_next_boot (ii_index info)
                  (set_h_images (set_head_version (fi_version file_info) (h_images h)) h)).

Definition fota_firmware_download (h : fota_handle) (file_info : fota_files_info) : M (Z * fota_handle) :=
  name <-- deref (fi_name file_info) ;;
  info <-- select_image (h_json_part h) name ;;
  r <-- (match info with
         | None => m_ret (FOTA_ERROR_PART_FILE_LOAD, h)
         | Some info =>
             let h := set_h_fw (start_sector (ii_sector info) (h_fw h)) (set_h_images (info :: h_images h) h) in
             c <-- fota_http_connect h file_info ;;
             let '(ret, h) := c in
             if negb (ret =? 0) then m_ret (FOTA_ERROR_HTTP_CONNECT, h)
             else firmware_transfer h file_info info
         end) ;;
  let '(rval, h) := r in
  h <-- fota_http_close h ;;
  m_ret (rval, h).

Definition fota_file_download (h : fota_handle) (file_info : fota_files_info) : M (Z * fota_handle) :=
  c <-- fota_http_connect h file_info ;;
  let '(ret, h) := c in
  r <-- (if negb (ret =? 0) then m_ret (FOTA_ERROR_HTTP_CONNECT, h)
         else
           path <-- download_uri file_info ;;
           g <-- http_get (set_h_error_cb 0 (set_h_curr_file (Some file_info)
                   (set_h_recv_type FOTA_RECV_TYPE_FILE h))) path ;;
           let '(ret, h) := g in
           let h := set_h_recv_type FOTA_RECV_TYPE_NONE h in
           if ret <? 0 then m_ret (FOTA_ERROR_HTTP_GET, h)
           else if negb (h_status h =? 200) || negb (h_error_cb h =? 0)
                then m_ret (FOTA_ERROR_HTTP_RESP_STATUS, h)
                else m_ret (FOTA_ERROR_NONE, h)) ;;
  let '(rval, h) := r in
  h <-- fota_http_close h ;;
  m_ret (rval, h).

(** ** Public operations *)

(** The result code, [*update_available] and the handle. *)
Definition fota_update_check_internal (h : fota_handle) : M (Z * Z * fota_handle) :=
  cfg <-- deref (h_cfg h) ;;
  f_info <-- fota_cfg_file_info_get (files_info_list cfg) ;;
  match f_info with
  | None => m_ret (FOTA_ERROR_NO_CONFIG_FILE, 0, h)
  | Some f_info =>
      g <-- http_get (set_h_recv_type FOTA_RECV_TYPE_CONFIG h) (fi_uri f_info) ;;
      let '(ret, h) := g in
      let h := set_h_recv_type FOTA_RECV_TYPE_NONE h in
      if ret <? 0 then m_ret (FOTA_ERROR_HTTP_GET, 0, h)
      else
        let remote := fota_json_init_str (recv_buff (h_fw h)) in
        let h := set_h_fw (set_recv None (recv_index (h_fw h)) (h_fw h)) (set_h_json_remote remote h) in
        match remote with
        | None => m_ret (FOTA_ERROR_PART_FILE_LOAD, 0, h)
        | Some _ =>
            cfg_remote <-- fota_parse_config_file remote ;;
            let h := set_h_cfg_remote cfg_remote h in
            match cfg_remote with
            | None => m_ret (FOTA_ERROR_NONE, 0, h)
            | Some rc =>
                a <-- deref (package_version rc) ;;
                b <-- deref (package_version cfg) ;;
                m_ret (FOTA_ERROR_NONE, if 0 <? utils_num_str_cmp a b then 1 else 0, h)
            end
        end
  end.

Definition fota_update_check (h : fota_handle) : M (Z * Z * fota_handle) :=
  cfg <-- deref (h_cfg h) ;;
  f_info <-- fota_cfg_file_info_get (files_info_list cfg) ;;
  match f_info with
  | None => m_ret (FOTA_ERROR_NO_CONFIG_FILE, 0, h)
  | Some f_info =>
      c <-- fota_http_connect h f_info ;;
      let '(ret, h) := c in
      if negb (ret =? 0) then m_ret (ret, 0, h)
      else
        r <-- fota_update_check_internal h ;;
        let '(ret, avail, h) := r in
        h <-- fota_http_close h ;;
        m_ret (ret, avail, h)
  end.

(** The loop of [fota_perform] over the files of the remote configuration. *)
Fixpoint perform_files (ret : Z) (h : fota_handle) (files : list fota_files_info) : M (Z * fota_handle) :=
  match files with
  | [] => m_ret (ret, h)
  | f :: files' =>
      is_cfg <-- str_is (fi_type f) "configuration" ;;
      if is_cfg then perform_files ret h files' else
      is_fw <-- str_is (fi_type f) "firmware" ;;
      if is_fw then
        part <-- (match h_json_part h with
                  | Some j => m_ret (Some j)
                  | None => fota_json_init_file PART_FILE_PATH
                  end) ;;
        match part with
        | None => m_ret (FOTA_ERROR_PART_FILE_LOAD, h)
        | Some j =>
            r <-- fota_firmware_download (set_h_json_part (Some j) h) f ;;
            let '(ret, h) := r in
            if negb (ret =? 0) then m_ret (ret, h) else perform_files ret h files'
        end
      else
      is_file <-- str_is (fi_type f) "file" ;;
      if is_file then
        r <-- fota_file_download h f ;;
        let '(ret, h) := r in
        if ret =? 0 then m_ret (ret, h) else perform_files ret h files'
      else perform_files ret h files'
  end.

Definition fota_perform (h : fota_handle) (check_for_update fetch_config : Z) : M (Z * fota_handle) :=
  go <-- (if negb (check_for_update =? 0) then
            r <-- fota_update_check_internal h ;;
            let '(ret, update_available, h) := r in
            m_ret (ret, h, (ret =? 0) || (update_available =? 0))
          else m_ret (FOTA_ERROR_NONE, h, false)) ;;
  let '(ret, h, stop) := go in
  if stop then m_ret (ret, h)
  else
    remote <-- deref (h_cfg_remote h) ;;
    perform_files ret h (files_info_list remote).

(** [fota_fw_update(h, fw_info)] with the fields of [fw_info]. *)
Definition fota_fw_update (h : fota_handle) (fw_name : bytes) (hash_str : option bytes) (data : bytes) (more : bool)
  : M (Z * fota_handle) :=
  part <-- (match h_json_part h with
            | Some j => m_ret (Some j)
            | None => fota_json_init_file PART_FILE_PATH
            end) ;;
  let h := set_h_json_part part h in
  match part with
  | None => m_ret (FOTA_ERROR_PART_FILE_LOAD, h)
  | Some _ =>
      sel <-- (if negb (fw_sector (h_fw h) =? 0) then m_ret (Some h)
               else
                 info <-- select_image part fw_name ;;
                 m_ret (match info with
                        | None => None
                        | Some info =>
                            Some (set_h_next_boot (ii_index info)
                              (set_h_fw (start_sector (ii_sector info) (h_fw h))
                                 (set_h_images (info :: h_images h) h)))
                        end)) ;;
      match sel with
      | None => m_ret (FOTA_ERROR_PART_FILE_LOAD, h)
      | Some h =>
          alloc <-- fresh_sector ;;
          match recv_buff (h_fw h), alloc with
          | None, None => m_ret (FOTA_ERROR, h)
          | _, _ =>
              match fota_recv_firmware boot_sha256_update alloc (h_fw h) data more with
              | None => m_end Undefined
              | Some fw =>
                  let h := set_h_fw fw h in
                  if more then m_ret (FOTA_ERROR_NONE, h)
                  else
                    ok <-- hash_matches hash_str (boot_sha256_final (sha256_ctx fw)) ;;
                    m_ret (if ok then FOTA_ERROR_NONE else FOTA_ERROR_IMAGE_INTEGRITY, h)
              end
          end
      end
  end.

(** [fota_init]: [dev] and [cache] are the flash device and the initialised
    sector cache. *)
Definition fota_init (boot_sha256_init : Ctx) (cache : option S) : M (option fota_handle) :=
  ok <-- os_alloc sizeof_fota_handle ;;
  if negb ok then m_ret None else
  match cache with
  | None => m_ret None
  | Some cache =>
      json_cfg <-- fota_json_init_file FOTA_CFG_FILE_PATH ;;
      match json_cfg with
      | None => m_ret None
      | Some _ =>
          cfg <-- fota_parse_config_file json_cfg ;;
          match cfg with
          | None => m_ret None
          | Some cfg =>
              m_ret (Some (mkHandle (Some cfg) None [] false FOTA_RECV_TYPE_NONE 0 0 0 None None json_cfg None
                StreamNull (mkFw None 0 0 cache boot_sha256_init)))
          end
      end
  end.
End Client.
