(* ===== verification/FotaProps.v ===== *)
(** * Properties of the update client

    Which image area an update overwrites, what the commit writes into
    part.json, and which files [fota_perform] downloads. *)

From S2P Require Import Prelude Flash SectorCache FileSys FsUtils BasicJson CString HttpClient Jansson FotaFlash Fota.

(** ** The image table *)

(** The entries of the image array that carry the application's name. *)
Fixpoint images_of (app_name : bytes) (objs : list json) (i : Z) : list fota_image_info :=
  match objs with
  | [] => []
  | obj :: objs' =>
      if bool_decide (json_string_value (json_object_get (Some obj) (str "name")) = Some app_name)
      then mkImage (fota_json_str_get (Some obj) "version") (fota_json_int_get (Some obj) "start_sector") i
             :: images_of app_name objs' (i + 1)
      else images_of app_name objs' (i + 1)
  end.

Definition named (obj : json) : Prop := json_string_value (json_object_get (Some obj) (str "name")) <> None.

Lemma runs_parse_images E d app objs : forall i found,
  Forall named objs -> (length found + length (images_of app objs i) <= 2)%nat ->
  runs E d (parse_images app objs i found) (Ret (found ++ images_of app objs i)) [].
Proof.
  induction objs as [|obj objs IH]; intros i found Hn Hl; cbn [parse_images images_of] in *.
  - rewrite app_nil_r. apply runs_ret.
  - apply Forall_cons in Hn as [Hn1 Hn2]. unfold named in Hn1.
    destruct (json_string_value (json_object_get (Some obj) (str "name"))) as [name|] eqn:En; [|done].
    eapply runs_pure; [apply runs_ret|].
    destruct (decide (name = app)) as [->|Hne].
    + rewrite bool_decide_eq_true_2 in Hl by done. rewrite !bool_decide_eq_true_2 by done.
      cbn [negb length] in *. unfold MAX_IMAGE_INFO_FOR_AN_APP.
      rewrite (proj2 (Nat.leb_gt _ _)) by lia.
      match goal with |- runs _ _ _ (Ret (found ++ ?x :: ?l)) _ =>
        change (x :: l) with ([x] ++ l); rewrite (app_assoc found [x] l) end.
      apply IH; [done|]. rewrite length_app. simpl. lia.
    + rewrite (bool_decide_eq_false_2 (Some name = Some app)) in Hl |- * by congruence.
      rewrite bool_decide_eq_false_2 by done. cbn [negb]. by apply IH.
Qed.

(** A version string "major.minor" and its numbers. *)
Definition is_version (v : option bytes) (major minor : Z) : Prop :=
  exists a b, v = Some (a ++ 46 :: b) /\ is_digits a /\ is_digits b /\
    dec_val a = major /\ dec_val b = minor /\ major < 2 ^ 31 /\ minor < 2 ^ 31.

Definition version_lt (a b : Z * Z) : bool := (a.1 <? b.1) || ((a.1 =? b.1) && (a.2 <? b.2)).

Lemma cmp_version va vb ma na mb nb :
  is_version (Some va) ma na -> is_version (Some vb) mb nb ->
  (0 <? utils_num_str_cmp va vb) = version_lt (mb, nb) (ma, na).
Proof.
  intros (a & b & [= ->] & Da & Db & <- & <- & Ba & Bb) (a' & b' & [= ->] & Da' & Db' & <- & <- & Ba' & Bb').
  rewrite num_str_cmp_exact by done. unfold version_lt. cbn [fst snd].
  destruct (Z.eqb_spec (dec_val a) (dec_val a')), (Z.eqb_spec (dec_val a') (dec_val a)),
    (Z.ltb_spec (dec_val a') (dec_val a)), (Z.ltb_spec (dec_val b') (dec_val b)); cbn [orb andb];
    apply Z.ltb_lt || apply Z.ltb_ge; lia.
Qed.

Lemma runs_select E d ms arr app i0 i1 ma na mb nb :
  env_good E -> assoc_get (str "image") ms = Some (JArray arr) -> Forall named arr ->
  images_of app arr 0 = [i0; i1] -> is_version (ii_version i0) ma na -> is_version (ii_version i1) mb nb ->
  runs E d (select_image (Some (JObject ms)) app)
    (Ret (Some (if version_lt (mb, nb) (ma, na) then i1 else i0))) [].
Proof.
  intros HE Hms Hn Hi Hv0 Hv1. unfold select_image.
  assert (Hp : runs E d (fota_parse_part_file (Some (JObject ms)) app) (Ret (FOTA_ERROR_NONE, [i0; i1])) []).
  { unfold fota_parse_part_file. cbn [json_object_get]. rewrite Hms. cbn [array_elements].
    eapply runs_pure; [apply runs_parse_images; [done|rewrite Hi; simpl; lia]|].
    rewrite Hi. apply runs_ret. }
  eapply runs_pure; [exact Hp|]. simpl. destruct Hv0 as (a & b & Ea & Hv0), Hv1 as (a' & b' & Ea' & Hv1).
  eapply runs_pure.
  { rewrite Ea. eapply runs_pure; [apply runs_ret|]. rewrite Ea'. eapply runs_pure; [apply runs_ret|]. apply runs_ret. }
  eapply runs_pure; [by apply runs_alloc|].
  rewrite (cmp_version _ _ ma na mb nb); [apply runs_ret|by exists a, b|by exists a', b'].
Qed.

(** With two areas for the application, each with a version "major.minor",
    the area an update overwrites is the one with the lower version (the first
    of equals), so the newer of the two images survives the download; nothing
    on the file system changes. *)
Theorem select_lowest (E : env) (d : disk) (ms : list (bytes * json)) (arr : list json) (app : bytes)
    (i0 i1 : fota_image_info) (ma na mb nb : Z) :
  env_good E -> assoc_get (str "image") ms = Some (JArray arr) -> Forall named arr ->
  images_of app arr 0 = [i0; i1] -> is_version (ii_version i0) ma na -> is_version (ii_version i1) mb nb ->
  runs E d (select_image (Some (JObject ms)) app)
    (Ret (Some (if version_lt (mb, nb) (ma, na) then i1 else i0))) [].
Proof. apply runs_select. Qed.

(** ** A part.json with two areas *)

Definition sample_area (version : string) (sector : Z) : json :=
  JObject [(str "name", JString (str "app")); (str "version", JString (str version)); (str "start_sector", JInteger sector)].
Definition sample_areas : list json := [sample_area "1.10" 64; sample_area "1.9" 320].
Definition sample_part : list (bytes * json) := [(str "image", JArray sample_areas)].

Lemma sample_named : Forall named sample_areas.
Proof. repeat constructor; discriminate. Qed.

Lemma sample_versions :
  is_version (Some (str "1.10")) 1 10 /\ is_version (Some (str "1.9")) 1 9.
Proof.
  split; [exists (str "1"), (str "10")|exists (str "1"), (str "9")];
    (split; [done|]); (split; [apply (bool_decide_unpack _); by vm_compute|]); (split; [apply (bool_decide_unpack _); by vm_compute|]);
    (split; [done|]); (split; [done|]); lia.
Qed.

Lemma select_lowest_witness :
  runs good_env ∅ (select_image (Some (JObject sample_part)) (str "app"))
    (Ret (Some (mkImage (Some (str "1.9")) 320 1))) [].
Proof.
  apply (select_lowest good_env ∅ sample_part sample_areas (str "app")
    (mkImage (Some (str "1.10")) 64 0) (mkImage (Some (str "1.9")) 320 1) 1 10 1 9).
  - apply good_env_good.
  - reflexivity.
  - apply sample_named.
  - vm_compute; reflexivity.
  - apply sample_versions.
  - apply sample_versions.
Defined.

(** ** Versions after a firmware update by pieces *)

Lemma assoc_set_same key v l : assoc_get key l = Some v -> assoc_set key v l = l.
Proof.
  induction l as [|[k w] l IH]; simpl; [done|]. case_bool_decide; [by intros [= ->]|]. intros Hg. by rewrite IH.
Qed.

Lemma images_of_lookup app objs : forall i info,
  info ∈ images_of app objs i ->
  exists k obj, objs !! k = Some obj /\ ii_index info = i + Z.of_nat k /\
    ii_version info = fota_json_str_get (Some obj) "version".
Proof.
  induction objs as [|obj objs IH]; intros i info Hin; cbn [images_of] in Hin; [by apply not_elem_of_nil in Hin|].
  assert (Hrec : info ∈ images_of app objs (i + 1) -> exists k obj', (obj :: objs) !! k = Some obj' /\
    ii_index info = i + Z.of_nat k /\ ii_version info = fota_json_str_get (Some obj') "version").
  { intros H. destruct (IH (i + 1) info H) as (k & obj' & Hk & Hi & Hv). exists (S k), obj'.
    split; [done|]. split; [lia|done]. }
  case_bool_decide; [|auto]. apply elem_of_cons in Hin as [->|Hin]; [|auto].
  exists 0%nat, obj. split; [done|]. split; [simpl; lia|done].
Qed.

(** Writing back the version an entry was read with changes nothing. *)
Lemma set_versions_same ms arr app info v :
  assoc_get (str "image") ms = Some (JArray arr) -> info ∈ images_of app arr 0 ->
  ii_version info = Some v -> set_versions (JObject ms) [info] = JObject ms.
Proof.
  intros Hms Hin Hv. destruct (images_of_lookup app arr 0 info Hin) as (k & obj & Hk & Hi & Hver).
  rewrite Hv in Hver. unfold set_versions. rewrite Hms. cbn [fold_left].
  assert (Hset : set_image_version arr info = arr).
  { unfold set_image_version. cbn [json_array_get]. rewrite Hi.
    rewrite (proj2 (Z.ltb_ge _ _)) by lia. rewrite Z.add_0_l, Nat2Z.id, Hk.
    unfold fota_json_str_get in Hver. destruct (json_object_get (Some obj) (str "version")) as [w|] eqn:Ew; [|done].
    destruct w; try done. simpl in Hver. injection Hver as <-.
    destruct obj as [oms| | | | | | |]; try done. simpl in Ew.
    rewrite Hv. unfold json_string. destruct (utf8_check_string v); simpl; [|by rewrite list_insert_id].
    unfold update_member. cbn [fst snd]. rewrite Ew, assoc_set_same by done. by rewrite list_insert_id. }
  rewrite Hset, assoc_set_same by done. done.
Qed.

(** ** What [fota_perform] does with its flag *)

Section Perform.
Context {S Ctx : Type} `{!SectorStore S}.
Context (sha_update : Ctx -> bytes -> Ctx) (sha_final : Ctx -> bytes).
Context (json_loads : bytes -> option json) (net : http_env).

Abbreviation check := (fota_update_check_internal sha_update json_loads net).

(** An error code never comes with an available update. *)
Lemma check_error_no_update (h : fota_handle (S := S) (Ctx := Ctx)) E w ret avail h' w' :
  check h E w = (Ret (ret, avail, h'), w') -> ret = 0 \/ avail = 0.
Proof.
  unfold fota_update_check_internal, m_bind, m_ret.
  repeat match goal with
  | |- context [match ?x with _ => _ end] => destruct x eqn:?; try done
  end; intros [=]; subst; auto.
Qed.

Lemma perform_checked (h : fota_handle (S := S) (Ctx := Ctx)) flag fetch E w :
  flag <> 0 ->
  fota_perform sha_update sha_final json_loads net h flag fetch E w =
  (r <-- check h ;; let '(ret, _, h') := r in m_ret (ret, h')) E w.
Proof.
  intros Hf. unfold fota_perform. rewrite (proj2 (Z.eqb_neq _ _)) by done. cbn [negb].
  unfold m_bind. destruct (check h E w) as [[[[ret avail] h']| | |] w'] eqn:Ec; try done.
  unfold m_ret. destruct (check_error_no_update _ _ _ _ _ _ _ Ec) as [->| ->]; cbn; [done|].
  by rewrite orb_true_r.
Qed.

(** A download of a file that succeeds ends the loop. *)
Lemma perform_after_file (h : fota_handle (S := S) (Ctx := Ctx)) ret f rest E w h' w' :
  fi_type f = Some (str "file") ->
  fota_file_download sha_update net h f E w = (Ret (0, h'), w') ->
  perform_files sha_update sha_final json_loads net ret h (f :: rest) E w = (Ret (0, h'), w').
Proof.
  intros Ht Hd. cbn [perform_files]. unfold m_bind at 1. unfold str_is. rewrite Ht. unfold m_ret at 1.
  rewrite bool_decide_eq_false_2 by done. unfold m_bind at 1. rewrite bool_decide_eq_false_2 by done.
  unfold m_ret at 1. unfold m_bind at 1. rewrite bool_decide_eq_true_2 by done. unfold m_ret at 1.
  unfold m_bind at 1. rewrite Hd. done.
Qed.
End Perform.

(** [fota_perform] with [check_for_update] set never downloads anything:
    it returns what the check returns, for every handle and every server, also
    when the check finds a newer package.  (The documentation promises an
    update when the remote version is greater.) *)
Theorem perform_check_never_downloads {S Ctx : Type} `{!SectorStore S} (sha_update : Ctx -> bytes -> Ctx)
    (sha_final : Ctx -> bytes) (json_loads : bytes -> option json) (net : http_env)
    (h : fota_handle (S := S) (Ctx := Ctx)) (check_for_update fetch_config : Z) (E : env) (w : world) :
  check_for_update <> 0 ->
  fota_perform sha_update sha_final json_loads net h check_for_update fetch_config E w =
  (r <-- fota_update_check_internal sha_update json_loads net h ;; let '(ret, _, h') := r in m_ret (ret, h')) E w.
Proof. apply perform_checked. Qed.

(** The files after the first one of type "file" that downloads without
    error are not downloaded: the loop ends there with success, whatever
    follows in the configuration. *)
Theorem perform_stops_after_file {S Ctx : Type} `{!SectorStore S} (sha_update : Ctx -> bytes -> Ctx)
    (sha_final : Ctx -> bytes) (json_loads : bytes -> option json) (net : http_env)
    (h h' : fota_handle (S := S) (Ctx := Ctx)) (ret : Z) (f : fota_files_info) (rest : list fota_files_info)
    (E : env) (w w' : world) :
  fi_type f = Some (str "file") ->
  fota_file_download sha_update net h f E w = (Ret (0, h'), w') ->
  perform_files sha_update sha_final json_loads net ret h (f :: rest) E w = (Ret (0, h'), w').
Proof. apply perform_after_file. Qed.

(** ** Downloading a file *)

Definition responses (bodies : list bytes) (last : bytes) : list resp_info :=
  map (fun b => mkResp 200 b true) bodies ++ [mkResp 200 last false].

Lemma replay_appends d p c bs : d !! p = Some c -> replay d (map (EffAppend p) bs) = <[p := c ++ concat bs]> d.
Proof.
  revert d c. induction bs as [|b bs IH]; intros d c Hp; cbn [map concat].
  - rewrite app_nil_r. cbn. by rewrite insert_id.
  - change (EffAppend p b :: ?l) with ([EffAppend p b] ++ l). rewrite replay_app. cbn [replay fold_left apply_eff].
    rewrite Hp. cbn [default]. fold (replay (<[p := c ++ b]> d) (map (EffAppend p) bs)).
    rewrite (IH _ (c ++ b)) by apply lookup_insert_eq. by rewrite insert_insert_eq, app_assoc.
Qed.

Lemma replay_download d p bs : replay d (EffTrunc p :: map (EffAppend p) bs) = <[p := concat bs]> d.
Proof.
  change (EffTrunc p :: ?l) with ([EffTrunc p] ++ l). rewrite replay_app. cbn [replay fold_left apply_eff].
  fold (replay (<[p := []]> d) (map (EffAppend p) bs)).
  rewrite (replay_appends _ _ []) by apply lookup_insert_eq. by rewrite insert_insert_eq.
Qed.

Section FileDownload.
Context {S Ctx : Type} `{!SectorStore S} (sha_update : Ctx -> bytes -> Ctx) (E : env) (HE : env_good E).
Abbreviation H := (fota_handle (S := S) (Ctx := Ctx)).

(** With the stream open every piece is appended; the last one closes it. *)
Lemma runs_file_open (h : H) p bodies last : forall d,
  h_recv_type h = FOTA_RECV_TYPE_FILE -> h_stream h = StreamOpen p -> h_status h = 200 ->
  runs E d (run_callbacks sha_update h (responses bodies last))
    (Ret (set_h_stream StreamClosed h)) (map (EffAppend p) (bodies ++ [last])).
Proof.
  assert (Hst : h_status h = 200 -> set_h_status 200 h = h) by (intros Hs; destruct h; simpl in *; by subst).
  assert (Hcb : forall d b more, h_recv_type h = FOTA_RECV_TYPE_FILE -> h_stream h = StreamOpen p -> h_status h = 200 ->
    runs E d (fota_http_cb sha_update h (mkResp 200 b more))
      (Ret (if more then h else set_h_stream StreamClosed h)) [EffAppend p b]).
  { intros d b more Ht Hs H200. unfold fota_http_cb. cbn [status_code Z.eqb negb]. rewrite Hst by done. simpl negb. cbv iota.
    rewrite Ht. unfold recv_file. rewrite Hs. eapply runs_pure; [apply runs_ret|]. cbn [negb]. rewrite Hs.
    apply (runs_bind _ _ _ _ (zlen b) _ [_] []); [by apply runs_fwrite|]. apply runs_ret. }
  induction bodies as [|b bodies IH]; intros d Ht Hs H200; unfold responses; cbn [map app run_callbacks].
  - apply (runs_bind _ _ _ _ (set_h_stream StreamClosed h) _ [_] []); [by apply (Hcb d last false)|apply runs_ret].
  - apply (runs_bind _ _ _ _ h _ [_]); [by apply (Hcb d b true)|]. by apply IH.
Qed.

(** The path a file is stored at. *)
Definition stored_at (h : H) (name : bytes) (p : bytes) : Prop :=
  (is_absolute_path name = true /\ p = name) \/
  (is_absolute_path name = false /\ p = fota_file_path_at_index_get name (h_next_boot h) /\ zlen p < 128).

Lemma runs_download_path h name p d : stored_at h name p -> runs E d (download_path h name) (Ret p) [].
Proof.
  intros [[Ha ->]|(Ha & -> & Hl)]; unfold download_path; rewrite Ha; [apply runs_ret|].
  rewrite (proj2 (Z.leb_gt _ _)) by lia. apply runs_ret.
Qed.

(** The first piece opens the file. *)
Lemma runs_file_first (h : H) info name p bodies last d :
  h_recv_type h = FOTA_RECV_TYPE_FILE -> h_stream h = StreamNull -> h_curr_file h = Some info ->
  fi_name info = Some name -> stored_at h name p ->
  runs E d (run_callbacks sha_update h (responses bodies last))
    (Ret (set_h_stream StreamClosed (set_h_status 200 h)))
    (EffTrunc (to_string p) :: map (EffAppend (to_string p)) (bodies ++ [last])).
Proof.
  intros Ht Hs Hc Hn Hp. set (h1 := set_h_stream (StreamOpen (to_string p)) (set_h_status 200 h)).
  assert (Hcb : forall b more, runs E d (fota_http_cb sha_update h (mkResp 200 b more))
      (Ret (if more then h1 else set_h_stream StreamClosed h1)) [EffTrunc (to_string p); EffAppend (to_string p) b]).
  { intros b more. unfold fota_http_cb. cbn [status_code]. simpl negb. cbv iota.
    change (h_recv_type (set_h_status 200 h)) with (h_recv_type h). rewrite Ht. unfold recv_file.
    change (h_stream (set_h_status 200 h)) with (h_stream h). rewrite Hs.
    change (h_curr_file (set_h_status 200 h)) with (h_curr_file h). rewrite Hc.
    apply (runs_bind _ _ _ _ (true, h1) _ [_] [_]).
    - eapply runs_pure; [apply runs_ret|]. rewrite Hn. eapply runs_pure; [apply runs_ret|].
      eapply runs_pure; [apply runs_download_path; exact Hp|].
      apply (runs_bind _ _ _ _ true _ [_] []); [by apply runs_fopen_w|apply runs_ret].
    - cbn [negb]. unfold h1 at 1. simpl h_stream.
      apply (runs_bind _ _ _ _ (zlen b) _ [_] []); [by apply runs_fwrite|]. by destruct more; apply runs_ret. }
  destruct bodies as [|b bodies]; unfold responses; cbn [map app run_callbacks].
  - apply (runs_bind _ _ _ _ (set_h_stream StreamClosed h1) _ [_; _] []); [by apply (Hcb last false)|].
    unfold h1. apply runs_ret.
  - apply (runs_bind _ _ _ _ h1 _ [_; _]); [by apply (Hcb b true)|].
    exact (runs_file_open h1 (to_string p) bodies last _ Ht eq_refl eq_refl).
Qed.

(** A plain-text server that serves [bodies] for the file's path. *)
Record serves (net : http_env) (f : fota_files_info) (name host uri : bytes) (bodies : list bytes) (last : bytes)
  : Prop := {
  sv_name : fi_name f = Some name;
  sv_plain : fi_secured f = 0;
  sv_url : nonempty (fi_url f) = false;
  sv_host : fi_host_name f = Some host;
  sv_uri : fi_uri f = Some uri /\ uri <> [];
  sv_open : he_open net host (fi_port f) 0 = true;
  sv_get : exists ret, 0 <= ret /\ he_get net uri = (responses bodies last, ret);
}.

Lemma runs_connect net f name host uri bodies last (h : H) d :
  serves net f name host uri bodies last ->
  runs E d (fota_http_connect net h f) (Ret (FOTA_ERROR_NONE, set_h_conn true h)) [].
Proof.
  intros [_ Hp Hu Hh _ Ho _]. unfold fota_http_connect. rewrite Hp. cbn [Z.eqb orb].
  eapply runs_pure; [apply runs_ret|]. rewrite Hu. cbn [negb andb].
  eapply runs_pure; [rewrite Hh; eapply runs_pure; [apply runs_ret|apply runs_ret]|].
  destruct (Z.eqb_spec (fi_port f) 0) as [E0|E0]; [rewrite E0 in Ho|]; rewrite Ho; apply runs_ret.
Qed.

Lemma runs_file_download net f name host uri bodies last p (h : H) d :
  serves net f name host uri bodies last -> h_stream h = StreamNull -> stored_at h name p ->
  exists h', runs E d (fota_file_download sha_update net h f) (Ret (FOTA_ERROR_NONE, h'))
      (EffTrunc (to_string p) :: map (EffAppend (to_string p)) (bodies ++ [last])) /\
    h_stream h' = StreamClosed.
Proof.
  intros Hsv Hs Hp. pose proof (runs_connect net f name host uri bodies last h d Hsv) as Hc.
  destruct Hsv as [Hn Hpl Hu Hh [Huri Hne] Ho (ret & Hret & Hget)].
  set (h0 := set_h_error_cb 0 (set_h_curr_file (Some f) (set_h_recv_type FOTA_RECV_TYPE_FILE (set_h_conn true h)))).
  assert (Hcb := runs_file_first h0 f name p bodies last d eq_refl Hs eq_refl Hn Hp).
  set (h1 := set_h_stream StreamClosed (set_h_status 200 h0)) in *.
  eexists. split.
  - eapply runs_pure; [exact Hc|]. cbn [Z.eqb negb FOTA_ERROR_NONE].
    rewrite <- (app_nil_r (_ :: _)).
    apply (runs_bind _ _ _ _ (FOTA_ERROR_NONE, set_h_recv_type FOTA_RECV_TYPE_NONE h1)).
    + cbn [negb Z.eqb]. eapply runs_pure; [unfold download_uri; rewrite Hu; apply runs_ret|].
      rewrite <- (app_nil_r (_ :: _)).
      apply (runs_bind _ _ _ _ (ret, h1)).
      * unfold http_get. change (h_conn h0) with true. rewrite Huri. destruct uri as [|u uri]; [done|].
        rewrite Hget. rewrite <- (app_nil_r (_ :: _)). eapply runs_bind; [exact Hcb|apply runs_ret].
      * rewrite (proj2 (Z.ltb_ge _ _)) by lia. apply runs_ret.
    + eapply runs_pure; [apply runs_ret|]. apply runs_ret.
  - done.
Qed.

(** A second download on the same handle writes to the closed stream. *)
Lemma closed_stream_undefined (h : H) resp w :
  h_recv_type h = FOTA_RECV_TYPE_FILE -> h_stream h = StreamClosed -> status_code resp = 200 ->
  fota_http_cb sha_update h resp E w = (Undefined, w).
Proof.
  intros Ht Hs Hst. unfold fota_http_cb. rewrite Hst. simpl negb. cbv iota.
  change (h_recv_type (set_h_status 200 h)) with (h_recv_type h). rewrite Ht. unfold recv_file.
  change (h_stream (set_h_status 200 h)) with (h_stream h). rewrite Hs. unfold m_bind, m_ret. cbn [negb].
  change (h_stream (set_h_status 200 h)) with (h_stream h). by rewrite Hs.
Qed.
End FileDownload.

(** A file of a package, served in any number of pieces, ends up with
    exactly the concatenation of the pieces as its content, at its own path if
    that starts with "/root" and else in the directory of the image being
    updated; the download reports success and touches no other file. *)
Theorem file_download_stores {S Ctx : Type} `{!SectorStore S} (sha_update : Ctx -> bytes -> Ctx) (E : env)
    (net : http_env) (f : fota_files_info) (name host uri : bytes) (bodies : list bytes) (last p : bytes)
    (h : fota_handle (S := S) (Ctx := Ctx)) (d : disk) :
  env_good E -> serves net f name host uri bodies last -> h_stream h = StreamNull -> stored_at h name p ->
  exists h' l, runs E d (fota_file_download sha_update net h f) (Ret (FOTA_ERROR_NONE, h')) l /\
    replay d l = <[to_string p := concat (bodies ++ [last])]> d.
Proof.
  intros HE Hsv Hs Hp. destruct (runs_file_download sha_update E HE net f name host uri bodies last p h d Hsv Hs Hp)
    as (h' & Hr & _). eexists h', _. split; [exact Hr|]. apply replay_download.
Qed.

(** The stream is closed but never reset, so the next file received with
    the same handle is written to a closed stream: after a successful download
    every callback of a further one is undefined. *)
Theorem second_file_undefined {S Ctx : Type} `{!SectorStore S} (sha_update : Ctx -> bytes -> Ctx) (E : env)
    (net : http_env) (f f2 : fota_files_info) (name host uri : bytes) (bodies : list bytes) (last p : bytes)
    (h : fota_handle (S := S) (Ctx := Ctx)) (d : disk) :
  env_good E -> serves net f name host uri bodies last -> h_stream h = StreamNull -> stored_at h name p ->
  exists h' l, runs E d (fota_file_download sha_update net h f) (Ret (FOTA_ERROR_NONE, h')) l /\
    forall resp w, status_code resp = 200 ->
      fota_http_cb sha_update (set_h_curr_file (Some f2) (set_h_recv_type FOTA_RECV_TYPE_FILE h')) resp E w
      = (Undefined, w).
Proof.
  intros HE Hsv Hs Hp. destruct (runs_file_download sha_update E HE net f name host uri bodies last p h d Hsv Hs Hp)
    as (h' & Hr & Hcl). eexists h', _. split; [exact Hr|]. intros resp w Hst.
  by apply closed_stream_undefined.
Qed.

(** ** Updating firmware by pieces *)

Section FwUpdate.
Context {S Ctx : Type} `{!SectorStore S} (sha_update : Ctx -> bytes -> Ctx) (sha_final : Ctx -> bytes).
Context (json_loads : bytes -> option json).

(** The first piece selects the area and keeps the version it was read with. *)
Lemma fw_update_selects (h h' : fota_handle (S := S) (Ctx := Ctx)) E d part app info hash data more rc l :
  h_json_part h = Some part -> fw_sector (h_fw h) = 0 ->
  runs E d (select_image (Some part) app) (Ret (Some info)) [] ->
  runs E d (fota_fw_update sha_update sha_final json_loads h app hash data more) (Ret (rc, h')) l ->
  h_images h' = info :: h_images h /\ h_next_boot h' = ii_index info.
Proof.
  intros Hp Hs Hsel Hrun. specialize (Hrun []). specialize (Hsel []). revert Hrun.
  unfold fota_fw_update. rewrite Hp. unfold m_bind at 1, m_ret at 1.
  cbn [set_h_json_part h_fw]. rewrite Hs. cbn [Z.eqb negb]. unfold m_bind at 1. unfold m_bind at 1.
  rewrite Hsel. unfold m_ret at 1. unfold m_bind at 1. unfold fresh_sector at 1.
  repeat match goal with
  | |- context [match ?x with _ => _ end] =>
      lazymatch x with
      | hash_matches _ _ _ _ => fail
      | _ => destruct x eqn:?; try done
      end
  end; unfold m_ret, m_bind; try (intros [=]; subst; done).
  all: destruct (hash_matches _ _ _ _) as [[b| | |] ?]; [|done..]; intros [=]; subst; done.
Qed.
End FwUpdate.

(** An application that feeds an image through [fota_fw_update] and commits
    never changes the versions in part.json: the entry chosen by the first piece
    is written back with the version it was read with.  The next update then
    chooses the same area again, which is the one the device boots from by
    then. *)
Theorem fw_update_same_area {S Ctx : Type} `{!SectorStore S} (sha_update : Ctx -> bytes -> Ctx)
    (sha_final : Ctx -> bytes) (json_loads : bytes -> option json)
    (h h' : fota_handle (S := S) (Ctx := Ctx)) (E : env) (d : disk) (ms : list (bytes * json)) (arr : list json)
    (app : bytes) (i0 i1 : fota_image_info) (ma na mb nb : Z) (hash : option bytes) (data : bytes) (more : bool)
    (rc : Z) (l : list fs_eff) :
  env_good E -> h_json_part h = Some (JObject ms) -> fw_sector (h_fw h) = 0 -> h_images h = [] ->
  assoc_get (str "image") ms = Some (JArray arr) -> Forall named arr ->
  images_of app arr 0 = [i0; i1] -> is_version (ii_version i0) ma na -> is_version (ii_version i1) mb nb ->
  runs E d (fota_fw_update sha_update sha_final json_loads h app hash data more) (Ret (rc, h')) l ->
  set_versions (JObject ms) (h_images h') = JObject ms /\
  exists low, h_next_boot h' = ii_index low /\
    forall d2, runs E d2 (select_image (Some (set_versions (JObject ms) (h_images h'))) app) (Ret (Some low)) [].
Proof.
  intros HE Hp Hs Him Hms Hn Hi Hv0 Hv1 Hrun.
  pose proof (fun d2 => runs_select E d2 ms arr app i0 i1 ma na mb nb HE Hms Hn Hi Hv0 Hv1) as Hsel.
  destruct (fw_update_selects _ _ _ h h' E d _ app _ hash data more rc l Hp Hs (Hsel d) Hrun) as [Himg Hnb].
  set (low := if version_lt (mb, nb) (ma, na) then i1 else i0) in *.
  assert (Hlow : low ∈ images_of app arr 0) by (rewrite Hi; unfold low; case_match; set_solver).
  assert (Hver : exists v, ii_version low = Some v).
  { unfold low. destruct Hv0 as (a & b & Ha & _), Hv1 as (a' & b' & Ha' & _). case_match; eauto. }
  destruct Hver as [v Hver].
  assert (Hsame : set_versions (JObject ms) (h_images h') = JObject ms)
    by (rewrite Himg, Him; by eapply set_versions_same).
  split; [done|]. exists low. split; [done|]. rewrite Hsame. exact Hsel.
Qed.

(** ** Examples *)

#[local] Existing Instance zero_clock_store.

Definition ex_net (bodies : list bytes) (last : bytes) : http_env :=
  mkHttp (fun _ _ _ => true) (fun _ => (responses bodies last, 0)).

Definition ex_file : fota_files_info :=
  mkFile (Some (str "file")) (Some (str "ca.pem")) None None (Some (str "h")) 80 0 None (Some (str "/c")) None None.

Definition blank_handle : fota_handle (S := SC nor_flash) (Ctx := bytes) :=
  mkHandle (Some (mkConfig (Some (str "1.0")) [])) None [] false FOTA_RECV_TYPE_NONE 0 0 1 None
    (Some (JObject sample_part)) None None StreamNull (mkFw None 0 0 one_zero []).

Lemma ex_serves : serves (ex_net [[1; 2]] [3]) ex_file (str "ca.pem") (str "h") (str "/c") [[1; 2]] [3].
Proof. split; try done. by exists 0. Qed.

Lemma ex_stored : stored_at blank_handle (str "ca.pem") (str "/root/p1/ca.pem").
Proof. right. split; [done|]. split; by vm_compute. Qed.

Lemma perform_check_never_downloads_witness :
  fota_perform (fun h b => h ++ b) id (fun _ => None) (ex_net [] []) blank_handle 1 0 good_env (mkWorld ∅ []) =
  (r <-- fota_update_check_internal (fun h b => h ++ b) (fun _ => None) (ex_net [] []) blank_handle ;;
   let '(ret, _, h') := r in m_ret (ret, h')) good_env (mkWorld ∅ []).
Proof. apply (perform_check_never_downloads (fun h b => h ++ b) id (fun _ => None) (ex_net [] []) blank_handle 1 0). lia. Defined.

Lemma perform_stops_after_file_witness :
  exists h' w',
  perform_files (fun h b => h ++ b) id (fun _ => None) (ex_net [[1; 2]] [3]) 0 blank_handle [ex_file; ex_file]
    good_env (mkWorld ∅ []) = (Ret (0, h'), w').
Proof.
  destruct (runs_file_download (fun h b => h ++ b) good_env good_env_good _ _ _ _ _ _ _ _ blank_handle ∅
    ex_serves eq_refl ex_stored) as (h' & Hr & _).
  eexists h', _.
  apply (perform_stops_after_file (fun h b => h ++ b) id (fun _ => None) (ex_net [[1; 2]] [3]) blank_handle h' 0
    ex_file [ex_file] good_env (mkWorld ∅ []) _).
  - reflexivity.
  - exact (Hr []).
Defined.

Lemma file_download_stores_witness :
  exists h' l, runs good_env ∅ (fota_file_download (fun h b => h ++ b) (ex_net [[1; 2]] [3]) blank_handle ex_file)
      (Ret (FOTA_ERROR_NONE, h')) l /\
    replay ∅ l = <[to_string (str "/root/p1/ca.pem") := concat ([[1; 2]] ++ [[3]])]> ∅.
Proof.
  apply (file_download_stores (fun h b => h ++ b) good_env (ex_net [[1; 2]] [3]) ex_file (str "ca.pem") (str "h") (str "/c")
    [[1; 2]] [3] (str "/root/p1/ca.pem") blank_handle ∅).
  - apply good_env_good.
  - apply ex_serves.
  - reflexivity.
  - apply ex_stored.
Defined.

Lemma second_file_undefined_witness :
  exists h' l, runs good_env ∅ (fota_file_download (fun h b => h ++ b) (ex_net [[1; 2]] [3]) blank_handle ex_file)
      (Ret (FOTA_ERROR_NONE, h')) l /\
    forall resp w, status_code resp = 200 ->
      fota_http_cb (fun h b => h ++ b) (set_h_curr_file (Some ex_file) (set_h_recv_type FOTA_RECV_TYPE_FILE h')) resp
        good_env w = (Undefined, w).
Proof.
  apply (second_file_undefined (fun h b => h ++ b) good_env (ex_net [[1; 2]] [3]) ex_file ex_file (str "ca.pem") (str "h")
    (str "/c") [[1; 2]] [3] (str "/root/p1/ca.pem") blank_handle ∅).
  - apply good_env_good.
  - apply ex_serves.
  - reflexivity.
  - apply ex_stored.
Defined.

Lemma ex_fw_run :
  exists h', runs good_env ∅ (fota_fw_update (fun h b => h ++ b) id (fun _ => None) blank_handle (str "app") None [1; 2] true)
    (Ret (0, h')) [].
Proof.
  eexists. unfold fota_fw_update. eapply runs_pure; [apply runs_ret|].
  assert (Hsel : runs good_env ∅ (select_image (Some (JObject sample_part)) (str "app"))
    (Ret (Some (mkImage (Some (str "1.9")) 320 1))) []).
  { apply (runs_select good_env ∅ sample_part sample_areas (str "app") (mkImage (Some (str "1.10")) 64 0)
      (mkImage (Some (str "1.9")) 320 1) 1 10 1 9); try apply sample_versions; try done; apply good_env_good || apply sample_named. }
  eapply runs_pure; [eapply runs_pure; [exact Hsel|apply runs_ret]|].
  eapply runs_pure; [apply (runs_env good_env ∅ (fun E => if env_alloc E FOTA_MAX_RECV_BUFF_SIZE
    then Some (replicate (Z.to_nat SECTORSIZE) (u8 (env_uninit E))) else None))|].
  cbn [good_env env_alloc]. cbn [recv_buff].
  rewrite recv_short by done. apply runs_ret.
Qed.

Lemma fw_update_same_area_witness :
  exists h', set_versions (JObject sample_part) (h_images h') = JObject sample_part /\
  exists low, h_next_boot (S := SC nor_flash) (Ctx := bytes) h' = ii_index low /\
    forall d2, runs good_env d2 (select_image (Some (set_versions (JObject sample_part) (h_images h'))) (str "app"))
      (Ret (Some low)) [].
Proof.
  destruct ex_fw_run as [h' Hrun]. exists h'.
  apply (fw_update_same_area (fun h b => h ++ b) id (fun _ => None) blank_handle h' good_env ∅ sample_part sample_areas
    (str "app") (mkImage (Some (str "1.10")) 64 0) (mkImage (Some (str "1.9")) 320 1) 1 10 1 9 None [1; 2] true 0 []).
  - apply good_env_good.
  - reflexivity.
  - reflexivity.
  - reflexivity.
  - reflexivity.
  - apply sample_named.
  - vm_compute; reflexivity.
  - apply sample_versions.
  - apply sample_versions.
  - exact Hrun.
Defined.
