(* ===== verification/Update.v ===== *)
(** * Committing an update and recovering from a crash

    [fota_commit] replaces fota_config.json, part.json and boot.json one after
    the other.  This file gives the exact sequence of its effects on the file
    system and combines it with the loader's recovery (Recovery.v): from any
    power failure during the commit, and any number of power failures during
    the following boots, the device settles on one of the four states in which
    the files up to some point of the commit's order are new and the others old. *)

From S2P Require Import Prelude Fletcher Flash SectorCache FileSys FsUtils BasicJson CString Jansson HttpClient Ssbl Recovery FotaFlash Fota.

(** The effects of a commit that writes the contents [x]. *)
Definition stage_effs (i : file_id) (c : bytes) : list fs_eff :=
  EffTrunc DIRTY_BIT_FILE_PATH :: copy_effs (p_file (paths i)) (p_sum (paths i)) c.

Definition commit_effs (x : contents) : list fs_eff :=
  EffTrunc FOTA_IN_PROGRESS_FILE_PATH ::
  stage_effs Cfg (x Cfg) ++ stage_effs Part (x Part) ++ stage_effs Boot (x Boot) ++
  [EffUnlink FOTA_IN_PROGRESS_FILE_PATH].

Section Commit.
Context {S Ctx : Type} (json_loads : bytes -> option json) (json_dumps : json -> bytes).
Context (E : env) (HE : env_good E).

Lemma runs_stage {A} i c d (k : Z -> M A) o l :
  small_content c ->
  runs E (replay d (stage_effs i c)) (k 0) o l ->
  runs E d (utils_file_touch DIRTY_BIT_FILE_PATH ;;;
            rval <-- utils_file_store (p_file (paths i)) c ;;
            utils_create_checksum_file (p_file (paths i)) (p_sum (paths i)) ;;;
            k rval) o (stage_effs i c ++ l).
Proof.
  intros Hc Hk. unfold stage_effs, copy_effs. cbn [app].
  apply (runs_bind _ _ _ _ 0 _ [EffTrunc DIRTY_BIT_FILE_PATH]); [by apply runs_touch|].
  rewrite <- app_assoc. eapply runs_bind; [by apply runs_store|]. fold (store_effs (p_file (paths i)) c).
  eapply runs_bind; [apply runs_create_checksum; [done| |done]|].
  - rewrite replay_store. apply lookup_insert_eq.
  - fold (store_effs (p_sum (paths i)) (hex8 (fl_of c))). rewrite <- !replay_app. exact Hk.
Qed.

Lemma runs_json_init d p c :
  d !! p = Some c -> 0 < zlen c -> runs E d (fota_json_init_file json_loads p) (Ret (json_loads (cstr c))) [].
Proof.
  intros Hp Hc. eapply runs_pure; [apply runs_fopen_r|]. rewrite Hp.
  eapply runs_pure; [eapply runs_pure; [apply runs_fopen_r|apply runs_ret]|]. rewrite Hp.
  rewrite (proj2 (Z.leb_gt _ _)) by lia.
  eapply runs_pure; [by apply runs_alloc|]. simpl negb. cbv iota.
  eapply runs_pure; [by apply runs_fread|]. rewrite Z.eqb_refl. apply runs_ret.
Qed.

(** The contents a commit writes: the remote configuration, the partition
    file with the new versions, and the boot file with the new index. *)
Definition commit_contents (remote part boot : json) (images : list fota_image_info) (next : Z) : contents := fun i =>
  match i with
  | Cfg => json_dumps remote
  | Part => json_dumps (set_versions part images)
  | Boot => match snd (fota_json_object_update (Some boot) "image" (json_integer (s32 next))) with
            | Some b => json_dumps b
            | None => []
            end
  end.

Lemma update_object ms key v :
  utf8_check_string (str key) = true ->
  fota_json_object_update (Some (JObject ms)) key (Some v) = (0, Some (JObject (update_member ms (str key, v)))).
Proof. intros Hk. unfold fota_json_object_update, json_object_set_new. by rewrite Hk. Qed.

Lemma runs_stage_ret i c d :
  small_content c ->
  runs E d (utils_file_touch DIRTY_BIT_FILE_PATH ;;;
            rval <-- utils_file_store (p_file (paths i)) c ;;
            utils_create_checksum_file (p_file (paths i)) (p_sum (paths i)) ;;;
            m_ret rval) (Ret 0) (stage_effs i c).
Proof. intros Hc. rewrite <- (app_nil_r (stage_effs i c)). apply (runs_stage i c d m_ret); auto with t2. Qed.

Lemma stage_other i c d p :
  p ∉ plist (paths i) -> p <> DIRTY_BIT_FILE_PATH -> replay d (stage_effs i c) !! p = d !! p.
Proof.
  intros Hp Hd. unfold stage_effs. change (EffTrunc ?q :: ?l) with ([EffTrunc q] ++ l).
  rewrite replay_app, replay_copy. unfold plist in Hp. rewrite !not_elem_of_cons in Hp.
  destruct Hp as (H1 & H2 & _). rewrite !lookup_insert_ne by done. simpl. by rewrite lookup_insert_ne.
Qed.

(** The run of a commit when every call succeeds. *)
Lemma runs_commit (h : fota_handle (S := S) (Ctx := Ctx)) d remote pms parr bms bc :
  let x := commit_contents remote (JObject pms) (JObject bms) (h_images h) (h_next_boot h) in
  h_json_remote h = Some remote -> h_json_part h = Some (JObject pms) ->
  assoc_get (str "image") pms = Some parr ->
  d !! BOOT_FILE_PATH = Some bc -> 0 < zlen bc -> json_loads (cstr bc) = Some (JObject bms) ->
  (forall i, small_content (x i)) ->
  runs E d (fota_commit json_loads json_dumps h 1) Reset (commit_effs x).
Proof.
  intros x Hr Hp Hpa Hb Hbl Hload Hs. unfold fota_commit, commit_effs.
  apply (runs_bind _ _ _ _ 0 _ [EffTrunc FOTA_IN_PROGRESS_FILE_PATH]); [by apply runs_touch|].
  eapply (runs_bind _ _ _ _ 0).
  { unfold fota_update_config_file. rewrite Hr. apply (runs_stage_ret Cfg), (Hs Cfg). }
  eapply (runs_bind _ _ _ _ 0).
  { unfold fota_update_part_file. rewrite Hp. cbn [json_object_get]. rewrite Hpa.
    rewrite <- (app_nil_r (stage_effs Part _)). apply (runs_stage Part (x Part) _ (fun _ => m_ret 0)); [apply Hs|].
    apply runs_ret. }
  eapply (runs_bind _ _ _ _ 0).
  { unfold fota_set_boot_index. eapply runs_pure.
    - apply runs_json_init; [|exact Hbl].
      rewrite !stage_other by (done || (apply (bool_decide_unpack _); by vm_compute)).
      simpl. rewrite lookup_insert_ne by done. exact Hb.
    - rewrite Hload. unfold json_integer. rewrite update_object by done. simpl Z.ltb. cbv iota.
      eapply runs_pure; [apply runs_ret|].
      apply (runs_stage_ret Boot (x Boot)), (Hs Boot). }
  apply (runs_bind _ _ _ _ tt _ [_] []); [apply runs_do_eff|]. apply runs_end.
Qed.
End Commit.

(** ** Power failures during a commit *)

Lemma in_paths i :
  p_file (paths i) ∈ plist (paths i) /\ p_sum (paths i) ∈ plist (paths i) /\
  p_bfile (paths i) ∈ plist (paths i) /\ p_bsum (paths i) ∈ plist (paths i).
Proof. destruct (paths i). apply in_group. Qed.

Definition order (i : file_id) : nat := match i with Cfg => 0 | Part => 1 | Boot => 2 end.

(** The first [n] files of the commit's order are new. *)
Definition mix (n : nat) (old new : contents) : contents := fun i =>
  if (order i <? n)%nat then new i else old i.

Section Crash.
Context (old new : contents).
Definition two : family := fun i => [old i; new i].
Context (HF : family_ok two).

(** Between two stages: the masters of the first [n] files are new. *)
Definition staged (n : nat) (d : disk) : Prop := forall i,
  good d (p_bfile (paths i)) (p_bsum (paths i)) (old i) /\
  good d (p_file (paths i)) (p_sum (paths i)) (mix n old new i).

Lemma in_two i : old i ∈ two i /\ new i ∈ two i.
Proof. unfold two. set_solver. Qed.

Lemma mix_in n i : mix n old new i ∈ two i.
Proof. unfold mix. case_if; apply in_two. Qed.

Lemma staged_groups n d : staged n d -> groups two (mix n old new) d.
Proof.
  intros Hs i. destruct (Hs i) as [Hb Hm]. pose proof (in_two i) as [Ho Hn].
  pose proof (good_plaus _ _ _ _ _ Ho Hb) as Pb. pose proof (good_plaus _ _ _ _ _ (mix_in n i) Hm) as Pm.
  pose proof (mix_in n i) as Hin. revert Hb Hm Pb Pm. destruct (paths i) as [f fc b bc]. intros.
  apply (pairI_intro _ (proj2 (HF i))); [done|done|done|by right].
Qed.

Lemma staged_other n d p v :
  (forall i, p ∉ plist (paths i)) -> staged n d -> staged n (partial_alter (fun _ => v) p d).
Proof.
  intros Hp Hs i. destruct (Hs i) as [Hb Hm]. specialize (Hp i). unfold plist in Hp. rewrite !not_elem_of_cons in Hp.
  split; [eapply good_frame; [..|exact Hb]|eapply good_frame; [..|exact Hm]]; apply lookup_partial_alter_ne; tauto.
Qed.

Lemma mix_succ n i : order i = n -> mix (S n) old new i = new i.
Proof. intros <-. unfold mix. by rewrite (proj2 (Nat.ltb_lt _ _)) by lia. Qed.

Lemma mix_at n i : order i = n -> mix n old new i = old i.
Proof. intros <-. unfold mix. by rewrite (proj2 (Nat.ltb_ge _ _)) by lia. Qed.

Lemma mix_other n i j : order i = n -> j <> i -> mix (S n) old new j = mix n old new j.
Proof.
  intros Hi Hj. unfold mix. assert (order j <> n) by (intros He; destruct i, j; simpl in *; congruence).
  destruct (Nat.ltb_spec (order j) (S n)), (Nat.ltb_spec (order j) n); try done; lia.
Qed.

(** One stage: the group being written settles on the old or the new content,
    and at its end on the new one. *)
Lemma stage_crash n i d d' :
  order i = n -> staged n d -> crash_disks d (copy_effs (p_file (paths i)) (p_sum (paths i)) (new i)) d' ->
  (groups two (mix n old new) d' \/ groups two (mix (S n) old new) d') /\ frame (paths i) d d'.
Proof.
  intros Hi Hs Hc. destruct (Hs i) as [Hb Hm]. rewrite (mix_at n i Hi) in Hm.
  assert (Hu : (pairI (two i) (paths i) (old i) d' \/ pairI (two i) (paths i) (new i) d') /\ frame (paths i) d d').
  { pose proof (in_two i) as [Ho Hn]. pose proof (paths_nodup i) as Hnd. revert Hc Hb Hm Hnd.
    destruct (paths i) as [f fc b bc]. intros. by apply (update_master (two i) (proj2 (HF i)) f fc b bc Hnd _ _ d). }
  destruct Hu as [Hp Hf]. split; [|done].
  assert (Hot : forall m, (m = n \/ m = S n) -> pairI (two i) (paths i) (mix m old new i) d' -> groups two (mix m old new) d').
  { intros m Hmn Hpi j. destruct (decide (j = i)) as [->|Hj]; [done|].
    eapply pairI_same; [by eapply frame_apart|].
    pose proof (staged_groups n d Hs j) as H. destruct Hmn as [->| ->]; [done|]. by rewrite (mix_other n i j Hi Hj). }
  destruct Hp as [Hp|Hp]; [left; apply Hot; [by left|]|right; apply Hot; [by right|]].
  - by rewrite (mix_at n i Hi).
  - by rewrite (mix_succ n i Hi).
Qed.

Lemma stage_end n i d :
  order i = n -> staged n d -> staged (S n) (replay d (copy_effs (p_file (paths i)) (p_sum (paths i)) (new i))).
Proof.
  intros Hi Hs j. destruct (Hs j) as [Hb Hm]. pose proof (distinct _ _ _ _ (paths_nodup i)) as (N1 & N2 & N3 & N4 & N5 & N6).
  destruct (decide (j = i)) as [->|Hj].
  - rewrite (mix_succ n i Hi). split; [|by apply good_after_copy].
    eapply good_frame; [..|exact Hb]; rewrite replay_copy; by rewrite !lookup_insert_ne.
  - rewrite (mix_other n i j Hi Hj).
    destruct (in_paths i) as (G1 & G2 & _ & _). destruct (in_paths j) as (J1 & J2 & J3 & J4).
    assert (Hne : forall p q, p ∈ plist (paths i) -> q ∈ plist (paths j) -> p <> q).
    { intros p q Hp Hq ->. by apply (paths_apart j i q Hj Hq). }
    assert (Hx : forall q, q ∈ plist (paths j) ->
      replay d (copy_effs (p_file (paths i)) (p_sum (paths i)) (new i)) !! q = d !! q).
    { intros q Hq. rewrite replay_copy. rewrite !lookup_insert_ne; [done|..]; by apply Hne. }
    split; [eapply good_frame; [..|exact Hb]|eapply good_frame; [..|exact Hm]]; by apply Hx.
Qed.

Lemma staged_trunc n d p :
  (forall i, p ∉ plist (paths i)) -> staged n d -> staged n (<[p := []]> d).
Proof. apply (staged_other n d p (Some [])). Qed.

Lemma dirty_apart i : DIRTY_BIT_FILE_PATH ∉ plist (paths i).
Proof. apply flags_apart. Qed.

Lemma in_progress_apart i : FOTA_IN_PROGRESS_FILE_PATH ∉ plist (paths i).
Proof. apply flags_apart. Qed.

Lemma stage_all n i d :
  order i = n -> staged n d ->
  (forall d', crash_disks d (stage_effs i (new i)) d' ->
     (d' = d \/ dirty d') /\ (groups two (mix n old new) d' \/ groups two (mix (S n) old new) d')) /\
  staged (S n) (replay d (stage_effs i (new i))) /\ dirty (replay d (stage_effs i (new i))).
Proof.
  intros Hi Hs. unfold stage_effs. set (d1 := <[DIRTY_BIT_FILE_PATH := []]> d).
  assert (Hs1 : staged n d1) by (apply staged_trunc; [apply dirty_apart|done]).
  assert (Hd1 : dirty d1) by (unfold dirty, d1; by rewrite lookup_insert_eq).
  change (EffTrunc ?q :: ?l) with ([EffTrunc q] ++ l). rewrite replay_app.
  change (replay d [EffTrunc DIRTY_BIT_FILE_PATH]) with d1.
  assert (Hc : forall d', crash_disks d1 (copy_effs (p_file (paths i)) (p_sum (paths i)) (new i)) d' ->
    dirty d' /\ (groups two (mix n old new) d' \/ groups two (mix (S n) old new) d')).
  { intros d' H. destruct (stage_crash n i d1 d' Hi Hs1 H) as [Hg Hf]. split; [by eapply dirty_frame|done]. }
  split; [|split; [by apply stage_end|apply Hc, crash_all]].
  intros d' H. apply crash_disks_app in H as [H|H].
  - apply crash_one in H as [->| ->]; [|split; [by right|left; by apply staged_groups]|done].
    split; [by left|left; by apply staged_groups].
  - destruct (Hc d' H). split; [by right|done].
Qed.

Lemma stage_recoverable n i d :
  order i = n -> staged n d -> (n = 0%nat \/ dirty d) ->
  forall d', crash_disks d (stage_effs i (new i)) d' -> exists m, (m <= S n)%nat /\ recoverable two (mix m old new) d'.
Proof.
  intros Hi Hs Hz d' Hd'. destruct (stage_all n i d Hi Hs) as (Hk & _ & _).
  destruct (Hk d' Hd') as [Hd Hg].
  assert (Hcase : dirty d' \/ (d' = d /\ n = 0%nat)) by (destruct Hd as [->|Hd]; [destruct Hz; auto|auto]).
  destruct Hcase as [Hdd|[-> ->]].
  - destruct Hg as [Hg|Hg]; [exists n|exists (S n)]; (split; [lia|split; [done|by left]]).
  - exists 0%nat. split; [lia|]. split; [by apply staged_groups|right].
    intros j. destruct (Hs j) as [H1 H2]. by split.
Qed.

(** Every disk a power failure can leave during the commit is recoverable to
    one of the four states. *)
Lemma commit_crash d d' :
  intact_all old d -> crash_disks d (commit_effs new) d' ->
  exists n, (n <= 3)%nat /\ recoverable two (mix n old new) d'.
Proof.
  intros Hd Hc. assert (S0 : staged 0 d) by (intros i; destruct (Hd i) as [H1 H2]; split; [exact H2|exact H1]).
  unfold commit_effs in Hc. change (EffTrunc ?q :: ?l) with ([EffTrunc q] ++ l) in Hc.
  assert (Hsub : forall k e, (k <= 3)%nat -> (exists m, (m <= k)%nat /\ recoverable two (mix m old new) e) ->
    exists n, (n <= 3)%nat /\ recoverable two (mix n old new) e).
  { intros k e Hk (m & Hm & Hr). exists m. split; [lia|done]. }
  assert (S1 : staged 0 (<[FOTA_IN_PROGRESS_FILE_PATH := []]> d)) by (apply staged_trunc; [apply in_progress_apart|done]).
  apply crash_disks_app in Hc as [Hc|Hc].
  { assert (Hst : staged 0 d') by (apply crash_one in Hc as [->| ->]; done).
    exists 0%nat. split; [lia|]. split; [by apply staged_groups|right].
    intros j. destruct (Hst j) as [H1 H2]. by split. }
  change (replay d [EffTrunc FOTA_IN_PROGRESS_FILE_PATH]) with (<[FOTA_IN_PROGRESS_FILE_PATH := []]> d) in Hc.
  apply crash_disks_app in Hc as [Hc|Hc]; [eapply (Hsub 1%nat); [lia|eapply (stage_recoverable 0 Cfg); eauto]|].
  destruct (stage_all 0 Cfg _ eq_refl S1) as (_ & S2 & D2).
  apply crash_disks_app in Hc as [Hc|Hc]; [eapply (Hsub 2%nat); [lia|eapply (stage_recoverable 1 Part); eauto]|].
  destruct (stage_all 1 Part _ eq_refl S2) as (_ & S3 & D3).
  apply crash_disks_app in Hc as [Hc|Hc]; [eapply (Hsub 3%nat); [lia|eapply (stage_recoverable 2 Boot); eauto]|].
  destruct (stage_all 2 Boot _ eq_refl S3) as (_ & S4 & D4).
  exists 3%nat. split; [lia|]. apply crash_one in Hc as [->| ->]; [split; [by apply staged_groups|by left]| |done].
  split; [|left]; simpl.
  - apply staged_groups, (staged_other 3 _ _ None); [apply in_progress_apart|done].
  - unfold dirty in *. by rewrite lookup_delete_ne.
Qed.

(** The disks after the first stage and after the last. *)
Lemma commit_stages d :
  intact_all old d ->
  let d1 := replay d (EffTrunc FOTA_IN_PROGRESS_FILE_PATH :: stage_effs Cfg (new Cfg)) in
  (staged 1 d1 /\ dirty d1) /\
  (staged 3 (replay d (commit_effs new)) /\ dirty (replay d (commit_effs new))).
Proof.
  intros Hd d1. assert (S0 : staged 0 d) by (intros i; destruct (Hd i) as [H1 H2]; split; [exact H2|exact H1]).
  assert (S1 : staged 0 (<[FOTA_IN_PROGRESS_FILE_PATH := []]> d)) by (apply staged_trunc; [apply in_progress_apart|done]).
  destruct (stage_all 0 Cfg _ eq_refl S1) as (_ & S2 & D2).
  destruct (stage_all 1 Part _ eq_refl S2) as (_ & S3 & D3).
  destruct (stage_all 2 Boot _ eq_refl S3) as (_ & S4 & D4).
  unfold d1, commit_effs. change (EffTrunc ?q :: ?l) with ([EffTrunc q] ++ l). rewrite !replay_app.
  change (replay d [EffTrunc FOTA_IN_PROGRESS_FILE_PATH]) with (<[FOTA_IN_PROGRESS_FILE_PATH := []]> d).
  split; [done|]. set (d4 := replay (replay (replay _ _) _) _) in *. cbn [replay fold_left apply_eff]. split.
  - apply (staged_other 3 _ _ None); [apply in_progress_apart|done].
  - unfold dirty in *. by rewrite lookup_delete_ne.
Qed.

Lemma staged_settles n d E :
  staged n d -> dirty d -> boot_env E ->
  exists d3, run_boots E 4 d = Some d3 /\ settled (mix n old new) d3.
Proof.
  intros Hs Hd HE. eapply boots_settle; [exact HF|done| |apply boots_none].
  split; [by apply staged_groups|by left].
Qed.
End Crash.


Lemma settled_ext x y d : (forall i, x i = y i) -> settled x d -> settled y d.
Proof. intros H [Hi Hd]. split; [|done]. intros i. rewrite <- H. apply Hi. Qed.

(** What a commit needs to run: the downloaded configuration, a part.json with
    an image array and a boot.json that parses to an object. *)
Record commit_ready {S Ctx : Type} (json_loads : bytes -> option json) (json_dumps : json -> bytes)
    (h : fota_handle (S := S) (Ctx := Ctx)) (old new : contents) (d : disk) : Prop := {
  cr_intact : intact_all old d;
  cr_family : family_ok (two old new);
  cr_new : exists remote pms parr bms,
    h_json_remote h = Some remote /\ h_json_part h = Some (JObject pms) /\
    assoc_get (str "image") pms = Some parr /\
    0 < zlen (old Boot) /\ json_loads (cstr (old Boot)) = Some (JObject bms) /\
    forall i, new i = commit_contents json_dumps remote (JObject pms) (JObject bms) (h_images h) (h_next_boot h) i;
}.

Lemma commit_effs_ext x y : (forall i, x i = y i) -> commit_effs x = commit_effs y.
Proof. intros H. unfold commit_effs, stage_effs. by rewrite !H. Qed.

Lemma runs_commit_ready {S Ctx : Type} json_loads json_dumps (h : fota_handle (S := S) (Ctx := Ctx)) old new d E :
  env_good E -> commit_ready json_loads json_dumps h old new d ->
  runs E d (fota_commit json_loads json_dumps h 1) Reset (commit_effs new).
Proof.
  intros HE [Hi HF (remote & pms & parr & bms & H1 & H2 & H3 & H4 & H5 & H6)].
  rewrite (commit_effs_ext _ _ H6). eapply runs_commit; try done.
  - apply (Hi Boot).
  - intros i. rewrite <- H6. destruct (HF i) as [Hs _]. unfold two in Hs.
    by apply Forall_cons in Hs as [_ Hs]; apply Forall_cons in Hs as [Hs _].
Qed.

(** C1: a power failure at any point of [fota_commit], also inside a write, and
    any further power failures during the following boots, leave a device that
    boots within four undisturbed boots; the control files are then intact, with
    intact backups, and are new up to some point of the order configuration,
    partition, boot and old after it.  In particular boot.json is new only if
    part.json is, and part.json only if the configuration is.  Shown when, apart
    from the power failures, every allocation and file operation succeeds
    ([env_good]); when no beginning of an old or new control file has the
    Fletcher-32 checksum of the old or new content, itself apart, and the files
    are shorter than 2^31 bytes ([family_ok]); and when the eighth byte of the
    uninitialised stack buffer into which the loader reads a checksum is not a
    hexadecimal digit ([garbage_ok]), without which the loader can take a cut
    checksum for a whole one ([stale_buffer_keeps_cut]).  Before the commit both
    copies of the three files are intact, and part.json and boot.json have the
    form the commit changes. *)
Theorem update_recovers {S Ctx : Type} (json_loads : bytes -> option json) (json_dumps : json -> bytes)
    (h : fota_handle (S := S) (Ctx := Ctx)) (old new : contents) (d d1 d2 : disk) (E E2 : env)
    (o : outcome Z) (l : list fs_eff) :
  env_good E -> commit_ready json_loads json_dumps h old new d ->
  runs E d (fota_commit json_loads json_dumps h 1) o l -> crash_disks d l d1 ->
  after_boots d1 d2 -> boot_env E2 ->
  exists n d3, (n <= 3)%nat /\ run_boots E2 4 d2 = Some d3 /\ settled (mix n old new) d3.
Proof.
  intros HE Hr Hrun Hc Hb HE2. pose proof (runs_commit_ready _ _ _ _ _ _ _ HE Hr) as Hrun'.
  destruct (runs_same _ _ _ _ _ _ _ Hrun Hrun') as [_ ->]. destruct Hr as [Hi HF _].
  destruct (commit_crash old new HF d d1 Hi Hc) as (n & Hn & Hrec).
  destruct (boots_settle _ _ E2 d1 d2 HF HE2 Hrec Hb) as (d3 & H3 & Hs). by exists n, d3.
Qed.

(** A commit that is not interrupted resets the device and the device then
    boots with the three new files in place. *)
Theorem update_completes {S Ctx : Type} (json_loads : bytes -> option json) (json_dumps : json -> bytes)
    (h : fota_handle (S := S) (Ctx := Ctx)) (old new : contents) (d : disk) (E E2 : env) :
  env_good E -> boot_env E2 -> commit_ready json_loads json_dumps h old new d ->
  exists l d3, runs E d (fota_commit json_loads json_dumps h 1) Reset l /\
    run_boots E2 4 (replay d l) = Some d3 /\ settled new d3.
Proof.
  intros HE HE2 Hr. pose proof (runs_commit_ready _ _ _ _ _ _ _ HE Hr) as Hrun. destruct Hr as [Hi HF _].
  destruct (commit_stages old new HF d Hi) as [_ [Hs Hd]].
  destruct (staged_settles old new HF 3 _ E2 Hs Hd HE2) as (d3 & H3 & Hset).
  exists (commit_effs new), d3. split; [done|]. split; [done|].
  eapply settled_ext; [|exact Hset]. by intros [].
Qed.

(** C39: the update is not atomic.  Its comments promise that an unfinished
    update is rolled back, but a power failure between the configuration and
    the partition file leaves, after every repair, the new configuration beside
    the old partition and boot files: the loader backs the new configuration up
    before it looks at the other files, so that there is nothing left to roll
    back to. *)
Theorem update_not_atomic {S Ctx : Type} (json_loads : bytes -> option json) (json_dumps : json -> bytes)
    (h : fota_handle (S := S) (Ctx := Ctx)) (old new : contents) (d : disk) (E E2 : env) :
  env_good E -> boot_env E2 -> commit_ready json_loads json_dumps h old new d ->
  exists l d1 d3, runs E d (fota_commit json_loads json_dumps h 1) Reset l /\ crash_disks d l d1 /\
    run_boots E2 4 d1 = Some d3 /\ ~ dirty d3 /\
    d3 !! FOTA_CFG_FILE_PATH = Some (new Cfg) /\ d3 !! PART_FILE_PATH = Some (old Part) /\
    d3 !! BOOT_FILE_PATH = Some (old Boot).
Proof.
  intros HE HE2 Hr. pose proof (runs_commit_ready _ _ _ _ _ _ _ HE Hr) as Hrun. destruct Hr as [Hi HF _].
  destruct (commit_stages old new HF d Hi) as [[Hs Hd] _].
  destruct (staged_settles old new HF 1 _ E2 Hs Hd HE2) as (d3 & H3 & Hall & Hnd).
  eexists (commit_effs new), _, d3. split; [done|]. split; [apply (crash_between d (commit_effs new) 6)|].
  split; [exact H3|]. split; [done|].
  destruct (Hall Cfg) as [[Hc _] _]. destruct (Hall Part) as [[Hp _] _]. destruct (Hall Boot) as [[Hb _] _]. done.
Qed.

(** ** An example: a package of one application with two image areas *)

Fixpoint print_json (j : json) : bytes :=
  match j with
  | JObject ms =>
      [123] ++ concat (map (fun kv => match kv with (k, v) => [34] ++ k ++ [34; 58] ++ print_json v ++ [44] end) ms) ++ [125]
  | JArray l => [91] ++ concat (map (fun v => print_json v ++ [44]) l) ++ [93]
  | JString s => [34] ++ s ++ [34]
  | JInteger v => str (pretty v)
  | JReal _ => str "0.0"
  | JTrue => str "true"
  | JFalse => str "false"
  | JNull => str "null"
  end.

Definition ex_config (version : string) : json := JObject [(str "package_version", JString (str version))].
Definition ex_image (version : string) (sector : Z) : json :=
  JObject [(str "name", JString (str "app")); (str "version", JString (str version)); (str "start_sector", JInteger sector)].
Definition ex_part (v0 v1 : string) : json := JObject [(str "image", JArray [ex_image v0 64; ex_image v1 320])].
Definition ex_boot (i : Z) : json := JObject [(str "image", JInteger i)].

Definition ex_old : contents := fun i =>
  print_json (match i with Cfg => ex_config "1.1" | Part => ex_part "1.1" "1.0" | Boot => ex_boot 0 end).
Definition ex_new : contents := fun i =>
  print_json (match i with Cfg => ex_config "1.2" | Part => ex_part "1.1" "1.2" | Boot => ex_boot 1 end).

Definition ex_loads (s : bytes) : option json :=
  if bool_decide (s = ex_old Boot) then Some (ex_boot 0) else None.

Definition ex_handle : fota_handle (S := unit) (Ctx := unit) :=
  mkHandle None None [mkImage (Some (str "1.2")) 320 1] false FOTA_RECV_TYPE_NONE 200 0 1 None
    (Some (ex_part "1.1" "1.0")) None (Some (ex_config "1.2")) StreamNull (mkFw None 0 0 tt tt).

Lemma ex_ready : commit_ready ex_loads print_json ex_handle ex_old ex_new (steady_disk ex_old).
Proof.
  split.
  - intros i. destruct i; split; split; by vm_compute.
  - intros i. split; [|apply no_collision_dec; destruct i; by vm_compute].
    apply Forall_cons; split; [|apply Forall_cons; split; [|constructor]];
      (destruct i; (split; [apply (bool_decide_unpack _); by vm_compute|by vm_compute])).
  - eexists (ex_config "1.2"), _, _, _. split; [done|]. split; [done|]. split; [done|]. split; [done|].
    split; [done|]. intros []; by vm_compute.
Qed.

Lemma update_recovers_witness :
  exists n d3, (n <= 3)%nat /\
    run_boots good_env 4 (replay (steady_disk ex_old) (take 7 (commit_effs ex_new))) = Some d3 /\
    settled (mix n ex_old ex_new) d3.
Proof.
  apply (update_recovers ex_loads print_json ex_handle ex_old ex_new (steady_disk ex_old)
    (replay (steady_disk ex_old) (take 7 (commit_effs ex_new))) _ good_env good_env Reset (commit_effs ex_new)).
  - apply good_env_good.
  - apply ex_ready.
  - apply (runs_commit_ready ex_loads print_json ex_handle ex_old ex_new);
      [apply good_env_good|apply ex_ready].
  - apply (crash_between _ _ 7).
  - apply boots_none.
  - apply good_boot_env.
Defined.

Lemma update_completes_witness :
  exists l d3, runs good_env (steady_disk ex_old) (fota_commit ex_loads print_json ex_handle 1) Reset l /\
    run_boots good_env 4 (replay (steady_disk ex_old) l) = Some d3 /\ settled ex_new d3.
Proof.
  apply (update_completes ex_loads print_json ex_handle ex_old ex_new (steady_disk ex_old) good_env good_env).
  - apply good_env_good.
  - apply good_boot_env.
  - apply ex_ready.
Defined.

Lemma update_not_atomic_witness :
  exists l d1 d3, runs good_env (steady_disk ex_old) (fota_commit ex_loads print_json ex_handle 1) Reset l /\
    crash_disks (steady_disk ex_old) l d1 /\
    run_boots good_env 4 d1 = Some d3 /\ ~ dirty d3 /\
    d3 !! FOTA_CFG_FILE_PATH = Some (ex_new Cfg) /\ d3 !! PART_FILE_PATH = Some (ex_old Part) /\
    d3 !! BOOT_FILE_PATH = Some (ex_old Boot).
Proof.
  apply (update_not_atomic ex_loads print_json ex_handle ex_old ex_new (steady_disk ex_old) good_env good_env).
  - apply good_env_good.
  - apply good_boot_env.
  - apply ex_ready.
Defined.
