(* ===== verification/UpdateConfig.v ===== *)
(** * The control files an update leaves are readable

    The commit (Update.v) takes the JSON library as a parameter.  Here it is
    the parser and the printer of the SDK, called as fota.c calls them: after
    a commit the device boots with three files that the client parses back to
    the values it wrote. *)

From S2P Require Import Prelude FileSys FsUtils BasicJson Jansson JsonLoad JsonLoadProps JsonDump JsonRoundTrip Recovery FotaFlash Fota Update.

Section library.
Context (strtod : bytes -> option Z * Z) (print_g : Z -> Z -> bytes).

(** The parser gets the memory it asks for. *)
#[local] Existing Instance plenty.

(** [json_loads(jstr, 0, &error)] and [json_dumps(root, JSON_INDENT(4))]; the
    printer fails on none of the values below. *)
Definition fota_loads (s : bytes) : option json :=
  match json_loads strtod s 0 with Some (j, _, _) => j | None => None end.

Definition fota_dumps (j : json) : bytes := default [] (json_dumps print_g j (JSON_INDENT 4)).

(** What the printer can write and the parser read. *)
Definition storable (j : json) : Prop :=
  container j = true /\ writable j = true /\ Z.of_nat (height j) <= JSON_PARSER_MAX_DEPTH.

Lemma fota_text j : storable j -> 0 < zlen (fota_dumps j) /\ fota_loads (cstr (fota_dumps j)) = Some j.
Proof.
  intros (Hc & Hw & Hh). destruct (dumps_read strtod print_g j (JSON_INDENT 4) Hc Hw) as (t & Hd & Hz & Hr); [by vm_compute|].
  destruct (read_back strtod true j t 0 Hc Hr Hh eq_refl) as (pos & E). unfold fota_dumps. rewrite Hd. change (default [] (Some t)) with t. split.
  - destruct t as [|c t]; [by vm_compute in E|]. rewrite zlen_cons. pose proof (zlen_nonneg t). lia.
  - rewrite cstr_plain by done. unfold fota_loads, json_loads. by rewrite E.
Qed.

Context {S Ctx : Type}.

(** The values a commit writes. *)
Definition commit_value (remote part boot : json) (images : list fota_image_info) (next : Z) (i : file_id) : option json :=
  match i with
  | Cfg => Some remote
  | Part => Some (set_versions part images)
  | Boot => snd (fota_json_object_update (Some boot) "image" (json_integer (s32 next)))
  end.

Lemma commit_text remote part boot images next i j :
  commit_value remote part boot images next i = Some j -> commit_contents fota_dumps remote part boot images next i = fota_dumps j.
Proof. destruct i; cbn [commit_value commit_contents]; [by intros [= ->]..|]. by intros ->. Qed.

End library.

(** ** The example of Update.v with the files the library writes *)

Definition no_real (p v : Z) : bytes := [].

Definition lib_old : contents := fun i =>
  fota_dumps no_real (match i with Cfg => ex_config "1.1" | Part => ex_part "1.1" "1.0" | Boot => ex_boot 0 end).
Definition lib_new : contents := fun i =>
  fota_dumps no_real (match i with Cfg => ex_config "1.2" | Part => ex_part "1.1" "1.2" | Boot => ex_boot 1 end).

Lemma lib_ready : commit_ready (fota_loads zero_strtod) (fota_dumps no_real) ex_handle lib_old lib_new (steady_disk lib_old).
Proof.
  split.
  - intros i. destruct i; split; split; by vm_compute.
  - intros i. split; [|apply no_collision_dec; destruct i; by vm_compute].
    apply Forall_cons; split; [|apply Forall_cons; split; [|constructor]];
      (destruct i; (split; [apply (bool_decide_unpack _); by vm_compute|by vm_compute])).
  - eexists (ex_config "1.2"), _, _, _. split; [done|]. split; [done|]. split; [done|]. split; [by vm_compute|].
    split; [by vm_compute|]. intros []; by vm_compute.
Qed.

