(* ===== verification/MqttPacket.v ===== *)
(** * MQTT packets: the primitives (components/mqtt/src/MQTTPacket.c)

    A packet is written through a pointer into a buffer: the state is the buffer
    and the position, and a write past the end of the buffer has no result
    ([None]).  A packet is read from the bytes that remain of the buffer, with
    the distance to [enddata]; a read past the end of the buffer has no result
    either.  [char] is unsigned, as on the processor of the device. *)

From S2P Require Import Prelude.

(** ** Messages (MQTTPacket.h) *)

Definition MQTTPACKET_BUFFER_TOO_SHORT : Z := -2.
Definition MQTTPACKET_READ_ERROR : Z := -1.

Definition CONNECT : Z := 1.
Definition CONNACK : Z := 2.
Definition PUBLISH : Z := 3.
Definition PUBACK : Z := 4.
Definition PUBREC : Z := 5.
Definition PUBREL : Z := 6.
Definition PUBCOMP : Z := 7.
Definition SUBSCRIBE : Z := 8.
Definition SUBACK : Z := 9.
Definition UNSUBSCRIBE : Z := 10.
Definition UNSUBACK : Z := 11.
Definition PINGREQ : Z := 12.
Definition PINGRESP : Z := 13.
Definition DISCONNECT : Z := 14.

(** The bit fields of the header byte, the least significant first. *)
Definition header_byte (type dup qos retain : Z) : Z :=
  retain mod 2 + 2 * (qos mod 4) + 8 * (dup mod 2) + 16 * (type mod 16).
Definition header_type (b : Z) : Z := b / 16 mod 16.
Definition header_dup (b : Z) : Z := b / 8 mod 2.
Definition header_qos (b : Z) : Z := b / 2 mod 4.
Definition header_retain (b : Z) : Z := b mod 2.

(** A string is a C string or a length with data; [None] is [NULL]. *)
Record MQTTString := mkString { cstring : option bytes; ls_len : Z; ls_data : option bytes }.

Definition MQTTString_initializer : MQTTString := mkString None 0 None.

Definition MQTTstrlen (s : MQTTString) : Z :=
  match cstring s with Some c => zlen c | None => ls_len s end.

(** ** The remaining length *)

(** The [do ... while (length > 0)] loop; five digits are enough for an [int]. *)
Fixpoint encode_loop (fuel : nat) (length : Z) : bytes :=
  match fuel with
  | O => []
  | S fuel' =>
      let d := u8 (Z.rem length 128) in
      let length := Z.quot length 128 in
      if 0 <? length then Z.lor d 128 :: encode_loop fuel' length else [d]
  end.

Definition MQTTPacket_encode (length : Z) : bytes := encode_loop 5 length.

(** A source of bytes: asked for a number of bytes, it answers with its result,
    the bytes it stored and its new state, or reads where it may not. *)
Definition source (T : Type) : Type := Z -> T -> option (Z * bytes * T).

(** The number of rounds, the value and the state of the source; the fifth
    round ends the loop. *)
Fixpoint decode_loop {T} (getcharfn : source T) (fuel : nat) (multiplier value len : Z) (t : T) : option (Z * Z * T) :=
  match fuel with
  | O => None
  | S fuel' =>
      let len := len + 1 in
      if 4 <? len then Some (len, value, t)
      else
        '(rc, cs, t) ← getcharfn 1 t;
        if negb (rc =? 1) then Some (len, value, t)
        else match cs with
             | [] => None
             | c :: _ =>
                 let value := s32 (value + Z.land c 127 * multiplier) in
                 if negb (Z.land c 128 =? 0) then decode_loop getcharfn fuel' (s32 (multiplier * 128)) value len t
                 else Some (len, value, t)
             end
  end.

Definition MQTTPacket_decode {T} (getcharfn : source T) (t : T) : option (Z * Z * T) := decode_loop getcharfn 5 1 0 0 t.

(** The static pointer [bufptr] is the state; the characters are stored at the
    same place, so that the last one stays. *)
Definition _mqtt_bufchar : source bytes := fun count bufptr =>
  if zlen bufptr <? count then None
  else Some (count, drop (Z.to_nat count - 1) (take (Z.to_nat count) bufptr), drop (Z.to_nat count) bufptr).

(** [MQTTPacket_decodeBuf]: the number of bytes, the value and the rest. *)
Definition MQTTPacket_decodeBuf (buf : bytes) : option (Z * Z * bytes) := MQTTPacket_decode _mqtt_bufchar buf.

Definition MQTTPacket_len (rem_len : Z) : Z :=
  let rem_len := rem_len + 1 in
  if rem_len <? 128 then rem_len + 1
  else if rem_len <? 16384 then rem_len + 2
  else if rem_len <? 2097151 then rem_len + 3
  else rem_len + 4.

(** ** Writing *)

Definition wstate : Type := bytes * Z.

Definition _mqtt_writeChar (c : Z) (w : wstate) : option wstate :=
  if w.2 <? zlen w.1 then Some (<[Z.to_nat w.2 := u8 c]> w.1, w.2 + 1) else None.

Definition _mqtt_writeInt (anInt : Z) (w : wstate) : option wstate :=
  w ← _mqtt_writeChar (Z.quot anInt 256) w; _mqtt_writeChar (Z.rem anInt 256) w.

(** [memcpy( *pptr, data, len); *pptr += len] *)
Definition write_mem (data : bytes) (w : wstate) : option wstate :=
  if w.2 + zlen data <=? zlen w.1 then Some (memcpy w.1 w.2 data, w.2 + zlen data) else None.

Definition _mqtt_writeCString (string : bytes) (w : wstate) : option wstate :=
  w ← _mqtt_writeInt (zlen string) w; write_mem string w.

(** [ptr += MQTTPacket_encode(ptr, length)] *)
Definition write_len (length : Z) (w : wstate) : option wstate := write_mem (MQTTPacket_encode length) w.

Definition _mqtt_writeMQTTString (s : MQTTString) (w : wstate) : option wstate :=
  if 0 <? ls_len s then
    w ← _mqtt_writeInt (ls_len s) w;
    match ls_data s with
    | Some data => if ls_len s <=? zlen data then write_mem (take (Z.to_nat (ls_len s)) data) w else None
    | None => None
    end
  else match cstring s with
       | Some c => _mqtt_writeCString c w
       | None => _mqtt_writeInt 0 w
       end.

(** ** Reading *)

(** The bytes from [curdata] on and [enddata - curdata]. *)
Definition rstate : Type := bytes * Z.

Definition _mqtt_readChar (r : rstate) : option (Z * rstate) :=
  match r.1 with [] => None | c :: rest => Some (c, (rest, r.2 - 1)) end.

Definition _mqtt_readInt (r : rstate) : option (Z * rstate) :=
  match r.1 with a :: b :: rest => Some (256 * a + b, (rest, r.2 - 2)) | _ => None end.

(** [Some None] is the result 0. *)
Definition _mqtt_readMQTTLenString (r : rstate) : option (option (MQTTString * rstate)) :=
  if 1 <? r.2 then
    '(len, r) ← _mqtt_readInt r;
    if len <=? r.2 then
      if len <=? zlen r.1
      then Some (Some (mkString None len (Some (take (Z.to_nat len) r.1)), (drop (Z.to_nat len) r.1, r.2 - len)))
      else None
    else Some None
  else Some None.

(** [MQTTPacket_equals] *)
Definition MQTTPacket_equals (a : MQTTString) (b : bytes) : bool :=
  match cstring a with
  | Some c => bool_decide (c = b)
  | None => (ls_len a =? zlen b) && bool_decide (take (Z.to_nat (ls_len a)) (default [] (ls_data a)) = b)
  end.

(** ** The length field *)

Lemma land_127 d : 0 <= d -> Z.land d 127 = d mod 128.
Proof. intros. change 127 with (Z.ones 7). by rewrite Z.land_ones by lia. Qed.

Lemma land_128_small d : 0 <= d < 128 -> Z.land d 128 = 0.
Proof.
  intros Hd. change 128 with (2 ^ 7). apply Z.bits_inj'. intros i Hi. rewrite Z.land_spec, Z.bits_0.
  destruct (decide (i = 7)) as [->|Hne].
  - rewrite (Z.testbit_eqb d 7), Z.div_small by lia. done.
  - rewrite (Z.pow2_bits_false 7 i) by lia. apply andb_false_r.
Qed.

Lemma more_digit d : 0 <= d < 128 -> Z.land (Z.lor d 128) 127 = d /\ Z.land (Z.lor d 128) 128 <> 0.
Proof.
  intros Hd. rewrite !Z.land_lor_distr_l, (land_128_small d), land_127, Z.mod_small by lia.
  change (Z.land 128 127) with 0. change (Z.land 128 128) with 128. rewrite Z.lor_0_r, Z.lor_0_l. by split.
Qed.

(** One digit of the encoding. *)
Lemma encode_step fuel n :
  0 <= n -> encode_loop (S fuel) n = if n <? 128 then [n] else Z.lor (n mod 128) 128 :: encode_loop fuel (n / 128).
Proof.
  intros Hn. cbn [encode_loop]. rewrite Z.rem_mod_nonneg, Z.quot_div_nonneg by lia.
  pose proof (Z.mod_pos_bound n 128). rewrite u8_small by lia.
  destruct (Z.ltb_spec n 128).
  - rewrite Z.div_small, Z.mod_small by lia. done.
  - rewrite (proj2 (Z.ltb_lt _ _)); [done|]. apply Z.div_str_pos. lia.
Qed.

(** A source that delivers the bytes of [l] one by one. *)
Inductive delivers {T} (getcharfn : source T) : T -> bytes -> T -> Prop :=
  | delivers_nil t : delivers getcharfn t [] t
  | delivers_cons t c t1 l t' :
      getcharfn 1 t = Some (1, [c], t1) -> delivers getcharfn t1 l t' -> delivers getcharfn t (c :: l) t'.

Lemma bufchar_delivers l rest : delivers _mqtt_bufchar (l ++ rest) l rest.
Proof.
  induction l as [|c l IH]; [constructor|]. cbn [app]. econstructor; [|exact IH].
  unfold _mqtt_bufchar. rewrite (proj2 (Z.ltb_ge _ _)); [done|].
  rewrite zlen_cons. pose proof (zlen_nonneg (l ++ rest)). lia.
Qed.

(** One round of the loop. *)
Lemma decode_round {T} (g : source T) fuel k value t c t' :
  0 <= k < 4 -> g 1 t = Some (1, [c], t') ->
  0 <= Z.land c 127 < 128 -> 0 <= value < 128 ^ k ->
  decode_loop g (S fuel) (128 ^ k) value k t
  = if negb (Z.land c 128 =? 0) then decode_loop g fuel (128 ^ (k + 1)) (value + Z.land c 127 * 128 ^ k) (k + 1) t'
    else Some (k + 1, value + Z.land c 127 * 128 ^ k, t').
Proof.
  intros Hk Hg Hc Hv. cbn [decode_loop]. rewrite (proj2 (Z.ltb_ge _ _)) by lia. rewrite Hg. cbn [mbind option_bind Z.eqb negb Pos.eqb].
  assert (Hp : 128 ^ k * 128 = 128 ^ (k + 1)) by (rewrite Z.pow_add_r by lia; lia).
  assert (Hp0 : 0 < 128 ^ k) by (apply Z.pow_pos_nonneg; lia).
  assert (Hp4 : 128 ^ (k + 1) <= 128 ^ 4) by (apply Z.pow_le_mono_r; lia).
  change (128 ^ 4) with 268435456 in Hp4. rewrite !s32_small by nia. by rewrite Hp.
Qed.

Lemma decode_encode {T} (g : source T) j : forall fuel fuel' k n value t t',
  (j <= fuel)%nat -> (j <= fuel')%nat ->
  0 <= n < 128 ^ Z.of_nat (S j) -> 0 <= k -> k + Z.of_nat (S j) <= 4 -> 0 <= value < 128 ^ k ->
  delivers g t (encode_loop (S fuel) n) t' ->
  decode_loop g (S fuel') (128 ^ k) value k t = Some (k + zlen (encode_loop (S fuel) n), value + n * 128 ^ k, t').
Proof.
  induction j as [|j IH]; intros fuel fuel' k n value t t' Hf Hf' Hn Hk Hkj Hv; rewrite encode_step by lia.
  all: assert (Hlast : n < 128 -> delivers g t [n] t' ->
         decode_loop g (S fuel') (128 ^ k) value k t = Some (k + 1, value + n * 128 ^ k, t'))
         by (intros Hs Hd; inversion Hd as [|? ? ? ? ? Hg Hnil]; subst; inversion Hnil; subst;
             rewrite (decode_round g fuel' k value t n t') by (rewrite ?land_127, ?Z.mod_small by lia; done || lia);
             by rewrite land_127, Z.mod_small, land_128_small by lia).
  - rewrite (proj2 (Z.ltb_lt _ _)) by (change (128 ^ Z.of_nat 1) with 128 in Hn; lia). apply Hlast.
    change (128 ^ Z.of_nat 1) with 128 in Hn. lia.
  - destruct (Z.ltb_spec n 128); [by apply Hlast|]. intros Hd. inversion Hd as [|? ? t1 ? ? Hg Hd']; subst.
    pose proof (Z.mod_pos_bound n 128 ltac:(lia)) as Hm. pose proof (Z.div_mod n 128 ltac:(lia)) as Hdm.
    destruct (more_digit (n mod 128) Hm) as [E Hb].
    rewrite (decode_round g fuel' k value t _ t1) by (rewrite ?E; done || lia). rewrite E.
    rewrite (proj2 (Z.eqb_neq _ _) Hb). cbn [negb].
    assert (Hp : 128 ^ k * 128 = 128 ^ (k + 1)) by (rewrite Z.pow_add_r by lia; lia).
    assert (Hp0 : 0 < 128 ^ k) by (apply Z.pow_pos_nonneg; lia).
    destruct fuel as [|fuel]; [lia|]. destruct fuel' as [|fuel']; [lia|].
    rewrite (IH fuel fuel' (k + 1) (n / 128) (value + n mod 128 * 128 ^ k) t1 t'); [|lia|lia| |lia|lia|nia|done].
    + rewrite zlen_cons, <- Hp. do 3 f_equal; [lia|]. rewrite Hdm at 3. ring.
    + split; [apply Z.div_pos; lia|]. apply Z.div_lt_upper_bound; [lia|].
      rewrite (Nat2Z.inj_succ (S j)), Z.pow_succ_r in Hn by lia. lia.
Qed.

(** The number of digits. *)
Definition digits_of (n : Z) : Z :=
  if n <? 128 then 1 else if n <? 16384 then 2 else if n <? 2097152 then 3 else 4.

Lemma zlen_encode n : 0 <= n < 268435456 -> zlen (MQTTPacket_encode n) = digits_of n.
Proof.
  intros Hn. unfold MQTTPacket_encode, digits_of.
  assert (Hd : forall m, 0 <= m -> 0 <= m / 128) by (intros m Hm; apply Z.div_pos; lia).
  rewrite encode_step by lia. destruct (Z.ltb_spec n 128) as [H1|H1]; [done|]. rewrite zlen_cons.
  rewrite encode_step by auto with lia. destruct (Z.ltb_spec n 16384) as [H2|H2].
  { rewrite (proj2 (Z.ltb_lt _ _)); [done|]. apply Z.div_lt_upper_bound; lia. }
  rewrite (proj2 (Z.ltb_ge _ _)) by (apply Z.div_le_lower_bound; lia). rewrite zlen_cons, Z.div_div by lia.
  rewrite encode_step by (apply Z.div_pos; lia). destruct (Z.ltb_spec n 2097152) as [H3|H3].
  { rewrite (proj2 (Z.ltb_lt _ _)); [done|]. apply Z.div_lt_upper_bound; lia. }
  rewrite (proj2 (Z.ltb_ge _ _)) by (apply Z.div_le_lower_bound; lia). rewrite zlen_cons, Z.div_div by lia.
  rewrite encode_step by (apply Z.div_pos; lia).
  rewrite (proj2 (Z.ltb_lt _ _)); [done|]. apply Z.div_lt_upper_bound; lia.
Qed.

Lemma decode_delivers {T} (g : source T) n t t' :
  0 <= n < 268435456 -> delivers g t (MQTTPacket_encode n) t' -> MQTTPacket_decode g t = Some (digits_of n, n, t').
Proof.
  intros Hn Hd. unfold MQTTPacket_decode. pose proof (decode_encode g 3 4 4 0 n 0 t t') as H. change (128 ^ 0) with 1 in H.
  rewrite H by (done || (change (128 ^ Z.of_nat 4) with 268435456; lia)). fold (MQTTPacket_encode n).
  by rewrite zlen_encode, Z.mul_1_r, !Z.add_0_l.
Qed.

Lemma decode_len n rest :
  0 <= n < 268435456 -> MQTTPacket_decodeBuf (MQTTPacket_encode n ++ rest) = Some (digits_of n, n, rest).
Proof. intros Hn. apply decode_delivers; [done|apply bufchar_delivers]. Qed.

(** [MQTTPacket_len] counts at least what is written, and at most one more. *)
Lemma packet_len_bounds n :
  0 <= n < 268435456 -> 1 + digits_of n + n <= MQTTPacket_len n <= 2 + digits_of n + n.
Proof.
  intros Hn. unfold MQTTPacket_len, digits_of. repeat case_if; lia.
Qed.

(** ** Writing into a buffer *)

Lemma memcpy_memcpy (buf a b : bytes) p :
  0 <= p -> p + zlen a + zlen b <= zlen buf ->
  memcpy (memcpy buf p a) (p + zlen a) b = memcpy buf p (a ++ b).
Proof.
  intros Hp Hl. pose proof (zlen_nonneg a). pose proof (zlen_nonneg b).
  assert (Hz : zlen (memcpy buf p a) = zlen buf) by (unfold zlen at 1; rewrite length_memcpy by lia; done).
  apply bytes_ext.
  - rewrite !length_memcpy; [done|lia|rewrite zlen_app; lia|lia|lia|lia|lia].
  - intros i Hi. assert (Hi' : 0 <= i) by lia. rewrite !bget_memcpy by (rewrite ?zlen_app; lia).
    rewrite zlen_app.
    destruct (Z.leb_spec p i), (Z.leb_spec (p + zlen a) i), (Z.ltb_spec i (p + zlen a)),
      (Z.ltb_spec i (p + zlen a + zlen b)), (Z.ltb_spec i (p + (zlen a + zlen b))); cbn [andb]; try lia; try done.
    + unfold bget. rewrite app_nth2 by (unfold zlen in *; lia). f_equal. unfold zlen in *. lia.
    + unfold bget. rewrite app_nth1 by (unfold zlen in *; lia). done.
Qed.

(** A computation that writes the bytes [bs] where there is room. *)
Definition writes (m : wstate -> option wstate) (bs : bytes) : Prop :=
  forall buf p, 0 <= p -> p + zlen bs <= zlen buf -> m (buf, p) = Some (memcpy buf p bs, p + zlen bs).

Lemma writes_mem bs : writes (write_mem bs) bs.
Proof. intros buf p Hp Hl. unfold write_mem. cbn [fst snd]. by rewrite (proj2 (Z.leb_le _ _)) by lia. Qed.

Lemma writes_nil : writes Some [].
Proof.
  intros buf p Hp Hl. unfold memcpy. cbn [app length]. rewrite Nat.add_0_r, take_drop.
  change (zlen []) with 0. by rewrite Z.add_0_r.
Qed.

Lemma writes_seq m k a b : writes m a -> writes k b -> writes (fun w => w ← m w; k w) (a ++ b).
Proof.
  intros Hm Hk buf p Hp Hl. rewrite zlen_app in *. pose proof (zlen_nonneg a). pose proof (zlen_nonneg b).
  rewrite Hm by lia. cbn [mbind option_bind]. rewrite Hk; [|lia|].
  - rewrite memcpy_memcpy by lia. do 2 f_equal. lia.
  - unfold zlen at 3. rewrite length_memcpy by lia. fold (zlen buf). lia.
Qed.

Lemma writes_char c : writes (_mqtt_writeChar c) [u8 c].
Proof.
  intros buf p Hp Hl. change (zlen [u8 c]) with 1 in *. unfold _mqtt_writeChar. cbn [fst snd].
  rewrite (proj2 (Z.ltb_lt _ _)) by lia. do 2 f_equal. unfold memcpy. cbn [length].
  rewrite insert_take_drop by (unfold zlen in Hl; lia). by rewrite Nat.add_1_r.
Qed.

Definition int_bytes (n : Z) : bytes := [n / 256; n mod 256].

Lemma writes_int n : 0 <= n < 65536 -> writes (_mqtt_writeInt n) (int_bytes n).
Proof.
  intros Hn. unfold _mqtt_writeInt. rewrite Z.quot_div_nonneg, Z.rem_mod_nonneg by lia.
  pose proof (Z.mod_pos_bound n 256). assert (0 <= n / 256 < 256) by (split; [apply Z.div_pos|apply Z.div_lt_upper_bound]; lia).
  replace (int_bytes n) with ([u8 (n / 256)] ++ [u8 (n mod 256)]) by (unfold int_bytes; by rewrite !u8_small by lia).
  apply writes_seq; apply writes_char.
Qed.

(** The wire form of a string. *)
Definition wire_string (s : bytes) : bytes := int_bytes (zlen s) ++ s.

(** A string given in one of the two ways, with the text [t]. *)
Definition is_string (s : MQTTString) (t : bytes) : Prop :=
  zlen t < 65536 /\ (s = mkString (Some t) 0 None \/ s = mkString None (zlen t) (Some t)).

Lemma string_len s t : is_string s t -> MQTTstrlen s = zlen t.
Proof. intros [_ [->| ->]]; done. Qed.

Lemma writes_string s t : is_string s t -> writes (_mqtt_writeMQTTString s) (wire_string t).
Proof.
  intros [Hl Hs]. pose proof (zlen_nonneg t).
  assert (Hc : writes (_mqtt_writeCString t) (wire_string t)) by (apply writes_seq; [apply writes_int; lia|apply writes_mem]).
  destruct Hs as [->| ->]; [exact Hc|]. intros buf p Hp Hb. rewrite <- (Hc buf p Hp Hb).
  unfold _mqtt_writeMQTTString, _mqtt_writeCString. cbn [ls_len ls_data cstring].
  destruct (Z.ltb_spec 0 (zlen t)) as [H1|H1].
  - destruct (_mqtt_writeInt (zlen t) (buf, p)) as [w|]; [|done]. cbn [mbind option_bind].
    rewrite (proj2 (Z.leb_le _ _)) by lia. unfold zlen. by rewrite Nat2Z.id, firstn_all.
  - assert (t = []) by (destruct t; [done|rewrite zlen_cons in H1; pose proof (zlen_nonneg t); lia]). subst t.
    change (zlen []) with 0. pose proof (writes_int 0 ltac:(lia) buf p Hp) as Hi.
    change (zlen (wire_string [])) with 2 in Hb. rewrite Hi by done. cbn [mbind option_bind].
    symmetry. rewrite (writes_mem []).
    + change (zlen []) with 0. rewrite Z.add_0_r. do 2 f_equal. unfold memcpy at 1. cbn [length app].
      by rewrite Nat.add_0_r, take_drop.
    + change (zlen (int_bytes 0)) with 2. lia.
    + change (zlen []) with 0. change (zlen (int_bytes 0)) with 2. unfold zlen at 1. rewrite length_memcpy; [|done|done].
      fold (zlen buf). lia.
Qed.

(** ** Reading it back *)

Lemma read_int n rest left : 0 <= n < 65536 -> _mqtt_readInt (int_bytes n ++ rest, left) = Some (n, (rest, left - 2)).
Proof.
  intros Hn. cbn. do 2 f_equal. pose proof (Z.div_mod n 256). lia.
Qed.

Lemma zlen_wire t : zlen (wire_string t) = 2 + zlen t.
Proof. unfold wire_string. by rewrite zlen_app. Qed.

Lemma read_string t rest left :
  zlen t < 65536 -> zlen (wire_string t) <= left ->
  _mqtt_readMQTTLenString (wire_string t ++ rest, left)
  = Some (Some (mkString None (zlen t) (Some t), (rest, left - zlen (wire_string t)))).
Proof.
  intros Ht Hl. rewrite zlen_wire in *. pose proof (zlen_nonneg t). unfold _mqtt_readMQTTLenString, wire_string.
  cbn [fst snd]. rewrite (proj2 (Z.ltb_lt _ _)) by lia. rewrite <- app_assoc, read_int by lia.
  cbn [mbind option_bind fst snd]. rewrite (proj2 (Z.leb_le _ _)) by lia.
  rewrite (proj2 (Z.leb_le _ _)) by (rewrite zlen_app; pose proof (zlen_nonneg rest); lia).
  unfold zlen at 1 2 3. rewrite Nat2Z.id, take_app_length, drop_app_length. do 4 f_equal. lia.
Qed.

(** The header byte. *)
Lemma header_fields type dup qos retain :
  0 <= type < 16 -> 0 <= dup < 2 -> 0 <= qos < 4 -> 0 <= retain < 2 ->
  let b := header_byte type dup qos retain in
  0 <= b < 256 /\ header_type b = type /\ header_dup b = dup /\ header_qos b = qos /\ header_retain b = retain.
Proof.
  intros Ht Hd Hq Hr b. unfold b, header_byte, header_type, header_dup, header_qos, header_retain.
  rewrite !(Z.mod_small _ 2), !(Z.mod_small _ 4), !(Z.mod_small _ 16) by (Z.div_mod_to_equations; lia).
  Z.div_mod_to_equations. lia.
Qed.
