(* ===== verification/MqttCodec.v ===== *)
(** * MQTT packets: serialisation (components/mqtt/src)

    The serialisers and deserialisers of the client and of the server side.  A
    serialiser returns its result and the buffer; [buflen] is the size of the
    buffer.  A deserialiser returns its result and what it stored; the results
    on the error paths are those of the code, where [rc] still holds the number
    of length bytes. *)

From S2P Require Import Prelude BasicJson MqttPacket.

(** ** Connect (MQTTConnectClient.c, MQTTConnectServer.c) *)

Record MQTTPacket_willOptions := mkWill {
  w_topicName : MQTTString; w_message : MQTTString; w_retained : Z; w_qos : Z;
}.

Record MQTTPacket_connectData := mkConnect {
  MQTTVersion : Z;
  clientID : MQTTString;
  keepAliveInterval : Z;
  cleansession : Z;
  willFlag : Z;
  will : MQTTPacket_willOptions;
  username : MQTTString;
  password : MQTTString;
}.

Definition MQTTPacket_connectData_initializer : MQTTPacket_connectData :=
  mkConnect 4 MQTTString_initializer 60 1 0 (mkWill MQTTString_initializer MQTTString_initializer 0 0)
    MQTTString_initializer MQTTString_initializer.

Definition is_set (s : MQTTString) : bool :=
  match cstring s, ls_data s with None, None => false | _, _ => true end.

Definition MQTTSerialize_connectLength (o : MQTTPacket_connectData) : Z :=
  (if MQTTVersion o =? 3 then 12 else if MQTTVersion o =? 4 then 10 else 0)
  + (MQTTstrlen (clientID o) + 2)
  + (if negb (willFlag o =? 0)
     then MQTTstrlen (w_topicName (will o)) + 2 + MQTTstrlen (w_message (will o)) + 2 else 0)
  + (if is_set (username o) then MQTTstrlen (username o) + 2 else 0)
  + (if is_set (password o) then MQTTstrlen (password o) + 2 else 0).

(** The bit fields of the flags, the least significant first. *)
Definition connect_flags (cleansession will willQoS willRetain password username : Z) : Z :=
  2 * (cleansession mod 2) + 4 * (will mod 2) + 8 * (willQoS mod 4) + 32 * (willRetain mod 2)
  + 64 * (password mod 2) + 128 * (username mod 2).

Definition b2z (b : bool) : Z := if b then 1 else 0.

Definition flags_of (o : MQTTPacket_connectData) : Z :=
  let w := negb (willFlag o =? 0) in
  connect_flags (cleansession o) (b2z w) (if w then w_qos (will o) else 0) (if w then w_retained (will o) else 0)
    (b2z (is_set (password o))) (b2z (is_set (username o))).

Definition when (b : bool) (m : wstate -> option wstate) (w : wstate) : option wstate := if b then m w else Some w.

(** A serialiser writes from the start of the buffer; the result is the
    distance covered. *)
Definition serialize (buf : bytes) (m : wstate -> option wstate) : option (Z * bytes) :=
  w ← m (buf, 0); Some (w.2, w.1).

Definition MQTTSerialize_connect (buf : bytes) (o : MQTTPacket_connectData) : option (Z * bytes) :=
  let len := MQTTSerialize_connectLength o in
  if zlen buf <? MQTTPacket_len len then Some (MQTTPACKET_BUFFER_TOO_SHORT, buf)
  else
    serialize buf (fun w =>
      w ← _mqtt_writeChar (header_byte CONNECT 0 0 0) w;
      w ← write_len len w;
      w ← (if MQTTVersion o =? 4
           then w ← _mqtt_writeCString (str "MQTT") w; _mqtt_writeChar 4 w
           else w ← _mqtt_writeCString (str "MQIsdp") w; _mqtt_writeChar 3 w);
      w ← _mqtt_writeChar (flags_of o) w;
      w ← _mqtt_writeInt (keepAliveInterval o) w;
      w ← _mqtt_writeMQTTString (clientID o) w;
      w ← when (negb (willFlag o =? 0)) (fun w =>
             w ← _mqtt_writeMQTTString (w_topicName (will o)) w; _mqtt_writeMQTTString (w_message (will o)) w) w;
      w ← when (is_set (username o)) (_mqtt_writeMQTTString (username o)) w;
      when (is_set (password o)) (_mqtt_writeMQTTString (password o)) w).

(** [curdata += MQTTPacket_decodeBuf(curdata, &mylen)], with [enddata] set to
    the end of the packet. *)
Definition read_len (r : rstate) : option (Z * rstate) :=
  '(len, value, _) ← MQTTPacket_decodeBuf r.1;
  Some (len, (drop (Z.to_nat len) r.1, value)).

(** The result, and the session flag and return code when they were stored. *)
Definition MQTTDeserialize_connack (buf : bytes) : option (Z * option (Z * Z)) :=
  '(h, r) ← _mqtt_readChar (buf, 0);
  if negb (header_type h =? CONNACK) then Some (0, None)
  else
    '(rc, r) ← read_len r;
    if r.2 <? 2 then Some (rc, None)
    else
      '(flags, r) ← _mqtt_readChar r;
      '(code, r) ← _mqtt_readChar r;
      Some (1, Some (flags mod 2, code)).

Definition MQTTSerialize_zero (buf : bytes) (packettype : Z) : option (Z * bytes) :=
  if zlen buf <? 2 then Some (MQTTPACKET_BUFFER_TOO_SHORT, buf)
  else
    serialize buf (fun w =>
      w ← _mqtt_writeChar (header_byte packettype 0 0 0) w;
      write_len 0 w).

Definition MQTTSerialize_disconnect (buf : bytes) : option (Z * bytes) := MQTTSerialize_zero buf DISCONNECT.
Definition MQTTSerialize_pingreq (buf : bytes) : option (Z * bytes) := MQTTSerialize_zero buf PINGREQ.

(** [memcmp] of the protocol name, over the shorter of the two lengths. *)
Definition MQTTPacket_checkVersion (protocol : MQTTString) (version : Z) : bool :=
  let is_name name := let n := Z.to_nat (Z.min (zlen name) (ls_len protocol)) in
                      bool_decide (take n (default [] (ls_data protocol)) = take n name) in
  ((version =? 3) && is_name (str "MQIsdp")) || ((version =? 4) && is_name (str "MQTT")).

(** [_mqtt_readMQTTLenString] with [goto exit] on failure. *)
Definition or_exit {A B} (m : option (option A)) (exit_ : B) (k : A -> option B) : option B :=
  match m with
  | None => None
  | Some None => Some exit_
  | Some (Some a) => k a
  end.

(** [MQTTDeserialize_connect]: the result and the data read, where the strings
    that are not present stay those of [data]. *)
Definition MQTTDeserialize_connect (data : MQTTPacket_connectData) (buf : bytes) : option (Z * option MQTTPacket_connectData) :=
  '(h, r) ← _mqtt_readChar (buf, zlen buf);
  if negb (header_type h =? CONNECT) then Some (0, None)
  else
    '(len, _, _) ← MQTTPacket_decodeBuf r.1;
    let r := (drop (Z.to_nat len) r.1, r.2 - len) in
    or_exit (_mqtt_readMQTTLenString r) (0, None) (fun '(protocol, r) =>
    if r.2 <? 0 then Some (0, None) else
    '(version, r) ← _mqtt_readChar r;
    if negb (MQTTPacket_checkVersion protocol version) then Some (0, None)
    else
      '(flags, r) ← _mqtt_readChar r;
      '(keep, r) ← _mqtt_readInt r;
      or_exit (_mqtt_readMQTTLenString r) (0, None) (fun '(cid, r) =>
      let fwill := flags / 4 mod 2 in
      let read_will k : option (Z * option MQTTPacket_connectData) :=
        if negb (fwill =? 0) then
          or_exit (_mqtt_readMQTTLenString r) (0, None) (fun '(topic, r) =>
          or_exit (_mqtt_readMQTTLenString r) (0, None) (fun '(message, r) =>
          k (mkWill topic message (flags / 32 mod 2) (flags / 8 mod 4), r)))
        else k (will data, r) in
      read_will (fun '(wl, r) =>
      let result user pass :=
        Some (1, Some (mkConnect (MQTTVersion data) cid keep (flags / 2 mod 2) fwill wl user pass)) in
      if negb (flags / 128 mod 2 =? 0) then
        if r.2 <? 3 then Some (0, None) else
        or_exit (_mqtt_readMQTTLenString r) (0, None) (fun '(user, r) =>
        if negb (flags / 64 mod 2 =? 0) then
          if r.2 <? 3 then Some (0, None) else
          or_exit (_mqtt_readMQTTLenString r) (0, None) (fun '(pass, r) => result user pass)
        else result user (password data))
      else if negb (flags / 64 mod 2 =? 0) then Some (0, None)
      else result (username data) (password data)))).

Definition MQTTSerialize_connack (buf : bytes) (connack_rc sessionPresent : Z) : option (Z * bytes) :=
  if zlen buf <? 2 then Some (MQTTPACKET_BUFFER_TOO_SHORT, buf)
  else
    serialize buf (fun w =>
      w ← _mqtt_writeChar (header_byte CONNACK 0 0 0) w;
      w ← write_len 2 w;
      w ← _mqtt_writeChar (sessionPresent mod 2) w;
      _mqtt_writeChar connack_rc w).

(** ** Publish and acknowledgements (MQTTSerializePublish.c, MQTTDeserializePublish.c) *)

Definition MQTTSerialize_publishLength (qos : Z) (topicName : MQTTString) (payloadlen : Z) : Z :=
  2 + MQTTstrlen topicName + payloadlen + (if 0 <? qos then 2 else 0).

Definition MQTTSerialize_publish (buf : bytes) (dup qos retained packetid : Z) (topicName : MQTTString) (payload : bytes)
  : option (Z * bytes) :=
  let rem_len := MQTTSerialize_publishLength qos topicName (zlen payload) in
  if zlen buf <? MQTTPacket_len rem_len then Some (MQTTPACKET_BUFFER_TOO_SHORT, buf)
  else
    serialize buf (fun w =>
      w ← _mqtt_writeChar (header_byte PUBLISH dup qos retained) w;
      w ← write_len rem_len w;
      w ← _mqtt_writeMQTTString topicName w;
      w ← when (0 <? qos) (_mqtt_writeInt packetid) w;
      write_mem payload w).

Definition MQTTSerialize_ack (buf : bytes) (packettype dup packetid : Z) : option (Z * bytes) :=
  if zlen buf <? 4 then Some (MQTTPACKET_BUFFER_TOO_SHORT, buf)
  else
    serialize buf (fun w =>
      w ← _mqtt_writeChar (header_byte packettype dup (if packettype =? PUBREL then 1 else 0) 0) w;
      w ← write_len 2 w;
      _mqtt_writeInt packetid w).

Definition MQTTSerialize_puback (buf : bytes) (packetid : Z) : option (Z * bytes) := MQTTSerialize_ack buf PUBACK 0 packetid.
Definition MQTTSerialize_pubrel (buf : bytes) (dup packetid : Z) : option (Z * bytes) := MQTTSerialize_ack buf PUBREL dup packetid.
Definition MQTTSerialize_pubcomp (buf : bytes) (packetid : Z) : option (Z * bytes) := MQTTSerialize_ack buf PUBCOMP 0 packetid.

(** What [MQTTDeserialize_publish] stores: the payload is the memory from its
    first byte on, with [payloadlen], which can be negative. *)
Record publish_out := mkPublish {
  po_dup : Z; po_qos : Z; po_retained : Z;
  po_topic : option MQTTString; po_packetid : option Z; po_payload : option (bytes * Z);
}.

Definition MQTTDeserialize_publish (buf : bytes) : option (Z * option publish_out) :=
  '(h, r) ← _mqtt_readChar (buf, 0);
  if negb (header_type h =? PUBLISH) then Some (0, None)
  else
    let out := mkPublish (header_dup h) (header_qos h) (header_retain h) in
    '(rc, r) ← read_len r;
    or_exit (_mqtt_readMQTTLenString r) (rc, Some (out None None None)) (fun '(topic, r) =>
    if r.2 <? 0 then Some (rc, Some (out (Some topic) None None)) else
    if 0 <? header_qos h then
      '(packetid, r) ← _mqtt_readInt r;
      Some (1, Some (out (Some topic) (Some packetid) (Some r)))
    else Some (1, Some (out (Some topic) None (Some r)))).

(** The result, type, [dup] and the packet identifier when it was stored. *)
Definition MQTTDeserialize_ack (buf : bytes) : option (Z * (Z * Z * option Z)) :=
  '(h, r) ← _mqtt_readChar (buf, 0);
  '(rc, r) ← read_len r;
  if r.2 <? 2 then Some (rc, (header_type h, header_dup h, None))
  else
    '(packetid, r) ← _mqtt_readInt r;
    Some (1, (header_type h, header_dup h, Some packetid)).

(** ** Subscribe (MQTTSubscribeClient.c, MQTTSubscribeServer.c) *)

Fixpoint MQTTSerialize_subscribeLength (topicFilters : list MQTTString) : Z :=
  match topicFilters with [] => 2 | t :: ts => 2 + MQTTstrlen t + 1 + MQTTSerialize_subscribeLength ts end.

Fixpoint write_filters (filters : list (MQTTString * Z)) (w : wstate) : option wstate :=
  match filters with
  | [] => Some w
  | (t, qos) :: fs => w ← _mqtt_writeMQTTString t w; w ← _mqtt_writeChar qos w; write_filters fs w
  end.

Definition MQTTSerialize_subscribe (buf : bytes) (dup packetid : Z) (filters : list (MQTTString * Z)) : option (Z * bytes) :=
  let rem_len := MQTTSerialize_subscribeLength (map fst filters) in
  if zlen buf <? MQTTPacket_len rem_len then Some (MQTTPACKET_BUFFER_TOO_SHORT, buf)
  else
    serialize buf (fun w =>
      w ← _mqtt_writeChar (header_byte SUBSCRIBE dup 1 0) w;
      w ← write_len rem_len w;
      w ← _mqtt_writeInt packetid w;
      write_filters filters w).

(** The loop of [MQTTDeserialize_suback]: the values stored from index [count]
    on, and the result when it is left early. *)
Fixpoint suback_loop (maxcount count left : Z) (rest : bytes) : option (option Z * list Z) :=
  if 0 <? left then
    if maxcount <? count then Some (Some (-1), [])
    else match rest with
         | [] => None
         | c :: rest' => '(rc, qs) ← suback_loop maxcount (count + 1) (left - 1) rest'; Some (rc, c :: qs)
         end
  else Some (None, []).

Definition MQTTDeserialize_suback (buf : bytes) (maxcount : Z) : option (Z * option (Z * list Z)) :=
  '(h, r) ← _mqtt_readChar (buf, 0);
  if negb (header_type h =? SUBACK) then Some (0, None)
  else
    '(rc, r) ← read_len r;
    if r.2 <? 2 then Some (rc, None)
    else
      '(packetid, r) ← _mqtt_readInt r;
      '(early, qs) ← suback_loop maxcount 0 r.2 r.1;
      Some (default 1 early, Some (packetid, qs)).

(** The loop of [MQTTDeserialize_subscribe]: the filters read, and whether the
    loop came to its end. *)
Fixpoint filters_loop (fuel : nat) (r : rstate) : option (bool * list (MQTTString * Z)) :=
  if 0 <? r.2 then
    match fuel with
    | O => None
    | S fuel' =>
        or_exit (_mqtt_readMQTTLenString r) (false, []) (fun '(t, r) =>
        if r.2 <=? 0 then Some (false, [])
        else
          '(qos, r) ← _mqtt_readChar r;
          '(ok, fs) ← filters_loop fuel' r;
          Some (ok, (t, qos) :: fs))
    end
  else Some (true, []).

(** Every round reads three bytes at least. *)
Definition MQTTDeserialize_subscribe (buf : bytes) : option (Z * option (Z * Z * list (MQTTString * Z))) :=
  '(h, r) ← _mqtt_readChar (buf, 0);
  if negb (header_type h =? SUBSCRIBE) then Some (-1, None)
  else
    '(rc, r) ← read_len r;
    '(packetid, r) ← _mqtt_readInt r;
    '(ok, fs) ← filters_loop (length buf) r;
    Some (if ok : bool then 1 else rc, Some (header_dup h, packetid, fs)).

Fixpoint write_chars (cs : list Z) (w : wstate) : option wstate :=
  match cs with [] => Some w | c :: cs' => w ← _mqtt_writeChar c w; write_chars cs' w end.

Definition MQTTSerialize_suback (buf : bytes) (packetid : Z) (grantedQoSs : list Z) : option (Z * bytes) :=
  let count := zlen grantedQoSs in
  if zlen buf <? 2 + count then Some (MQTTPACKET_BUFFER_TOO_SHORT, buf)
  else
    serialize buf (fun w =>
      w ← _mqtt_writeChar (header_byte SUBACK 0 0 0) w;
      w ← write_len (2 + count) w;
      w ← _mqtt_writeInt packetid w;
      write_chars grantedQoSs w).

(** ** Unsubscribe (MQTTUnsubscribeClient.c, MQTTUnsubscribeServer.c) *)

Fixpoint MQTTSerialize_unsubscribeLength (topicFilters : list MQTTString) : Z :=
  match topicFilters with [] => 2 | t :: ts => 2 + MQTTstrlen t + MQTTSerialize_unsubscribeLength ts end.

Fixpoint write_topics (topics : list MQTTString) (w : wstate) : option wstate :=
  match topics with [] => Some w | t :: ts => w ← _mqtt_writeMQTTString t w; write_topics ts w end.

Definition MQTTSerialize_unsubscribe (buf : bytes) (dup packetid : Z) (topics : list MQTTString) : option (Z * bytes) :=
  let rem_len := MQTTSerialize_unsubscribeLength topics in
  if zlen buf <? MQTTPacket_len rem_len then Some (MQTTPACKET_BUFFER_TOO_SHORT, buf)
  else
    serialize buf (fun w =>
      w ← _mqtt_writeChar (header_byte UNSUBSCRIBE dup 1 0) w;
      w ← write_len rem_len w;
      w ← _mqtt_writeInt packetid w;
      write_topics topics w).

Definition MQTTDeserialize_unsuback (buf : bytes) : option (Z * option Z) :=
  '(rc, (type, _, packetid)) ← MQTTDeserialize_ack buf;
  Some (if type =? UNSUBACK then 1 else rc, packetid).

Fixpoint topics_loop (fuel : nat) (r : rstate) : option (bool * list MQTTString) :=
  if 0 <? r.2 then
    match fuel with
    | O => None
    | S fuel' =>
        or_exit (_mqtt_readMQTTLenString r) (false, []) (fun '(t, r) =>
        match topics_loop fuel' r with Some (ok, ts) => Some (ok, t :: ts) | None => None end)
    end
  else Some (true, []).

Definition MQTTDeserialize_unsubscribe (buf : bytes) : option (Z * option (Z * Z * list MQTTString)) :=
  '(h, r) ← _mqtt_readChar (buf, 0);
  if negb (header_type h =? UNSUBSCRIBE) then Some (0, None)
  else
    '(rc, r) ← read_len r;
    '(packetid, r) ← _mqtt_readInt r;
    '(ok, ts) ← topics_loop (length buf) r;
    Some (if ok : bool then 1 else rc, Some (header_dup h, packetid, ts)).

Definition MQTTSerialize_unsuback (buf : bytes) (packetid : Z) : option (Z * bytes) :=
  if zlen buf <? 2 then Some (MQTTPACKET_BUFFER_TOO_SHORT, buf)
  else
    serialize buf (fun w =>
      w ← _mqtt_writeChar (header_byte UNSUBACK 0 0 0) w;
      w ← write_len 2 w;
      _mqtt_writeInt packetid w).
