(* ===== verification/MqttRoundTrip.v ===== *)
(** * MQTT packets read back

    What the serialisers write, the deserialisers of the other side read, and
    the space computed beforehand is enough for what is written. *)

From S2P Require Import Prelude BasicJson MqttPacket MqttCodec.

(** A serialiser that writes [pkt]. *)
Lemma serialize_ok buf m pkt :
  writes m pkt -> zlen pkt <= zlen buf -> serialize buf m = Some (zlen pkt, pkt ++ drop (length pkt) buf).
Proof. intros Hm Hl. unfold serialize. rewrite Hm by lia. done. Qed.

Lemma writes_byte c : 0 <= c < 256 -> writes (_mqtt_writeChar c) [c].
Proof. intros Hc. rewrite <- (u8_small c Hc) at 2. apply writes_char. Qed.

Lemma writes_len n : writes (write_len n) (MQTTPacket_encode n).
Proof. apply writes_mem. Qed.

Lemma writes_when (b : bool) m a : writes m a -> writes (when b m) (if b then a else []).
Proof. intros H. destruct b; [done|apply writes_nil]. Qed.

Lemma writes_cstring t : zlen t < 65536 -> writes (_mqtt_writeCString t) (wire_string t).
Proof. intros. pose proof (zlen_nonneg t). apply writes_seq; [apply writes_int; lia|apply writes_mem]. Qed.

#[export] Hint Resolve writes_byte writes_len writes_mem writes_int writes_string writes_when writes_seq writes_nil
  writes_cstring : t2.

Lemma read_len_ok n rest left : 0 <= n < 268435456 -> read_len (MQTTPacket_encode n ++ rest, left) = Some (digits_of n, (rest, n)).
Proof.
  intros Hn. unfold read_len. cbn [fst]. rewrite decode_len by done. cbn [mbind option_bind]. do 3 f_equal.
  rewrite <- (zlen_encode n Hn). unfold zlen. by rewrite Nat2Z.id, drop_app_length.
Qed.

(** A packet with the remaining length [n]: a header byte and a body. *)
Definition packet (h n : Z) (body : bytes) : bytes := [h] ++ MQTTPacket_encode n ++ body.

Lemma zlen_packet h n body : 0 <= n < 268435456 -> zlen (packet h n body) = 1 + digits_of n + zlen body.
Proof. intros Hn. unfold packet. rewrite !zlen_app, zlen_encode by done. change (zlen [h]) with 1. lia. Qed.

Lemma writes_packet h n body m :
  0 <= h < 256 -> writes m body ->
  writes (fun w => w ← _mqtt_writeChar h w; w ← write_len n w; m w) (packet h n body).
Proof. intros. by repeat (apply writes_seq; [auto with t2|]). Qed.

(** ** Publish *)

Definition publish_body (qos packetid : Z) (t payload : bytes) : bytes :=
  wire_string t ++ (if 0 <? qos then int_bytes packetid else []) ++ payload.

Lemma zlen_publish_body qos packetid topic t payload :
  is_string topic t -> MQTTSerialize_publishLength qos topic (zlen payload) = zlen (publish_body qos packetid t payload).
Proof.
  intros Ht. unfold MQTTSerialize_publishLength, publish_body. rewrite (string_len _ _ Ht), !zlen_app, zlen_wire.
  destruct (0 <? qos); [change (zlen (int_bytes packetid)) with 2|change (zlen []) with 0]; lia.
Qed.

Definition string_of (t : bytes) : MQTTString := mkString None (zlen t) (Some t).

Lemma publish_read h packetid t payload rest :
  header_type h = PUBLISH -> zlen t < 65536 -> 0 <= packetid < 65536 ->
  zlen (publish_body (header_qos h) packetid t payload) < 268435456 ->
  MQTTDeserialize_publish
    (packet h (zlen (publish_body (header_qos h) packetid t payload)) (publish_body (header_qos h) packetid t payload) ++ rest)
  = Some (1, Some (mkPublish (header_dup h) (header_qos h) (header_retain h) (Some (string_of t))
                     (if 0 <? header_qos h then Some packetid else None) (Some (payload ++ rest, zlen payload)))).
Proof.
  intros Ht Hl Hp Hb. set (n := zlen (publish_body _ _ _ _)) in *. unfold packet. rewrite <- !app_assoc.
  unfold MQTTDeserialize_publish. cbn [_mqtt_readChar fst app mbind option_bind]. rewrite Ht. cbn [Z.eqb negb PUBLISH Pos.eqb].
  rewrite read_len_ok by (unfold n; split; [auto with t2|done]). cbn [mbind option_bind].
  unfold publish_body in *. rewrite <- !app_assoc. pose proof (zlen_nonneg payload). pose proof (zlen_nonneg t).
  assert (Hn : n = 2 + zlen t + zlen (if 0 <? header_qos h then int_bytes packetid else []) + zlen payload)
    by (unfold n; rewrite !zlen_app, zlen_wire; lia).
  assert (Hi : 0 <= zlen (if 0 <? header_qos h then int_bytes packetid else [])) by auto with t2.
  rewrite read_string by (rewrite ?zlen_wire; lia). cbn [or_exit fst snd]. rewrite zlen_wire.
  rewrite (proj2 (Z.ltb_ge _ _)) by lia.
  destruct (0 <? header_qos h).
  - rewrite read_int by done. cbn [mbind option_bind]. change (zlen (int_bytes packetid)) with 2 in Hn.
    do 6 f_equal. lia.
  - cbn [app]. change (zlen []) with 0 in Hn. do 6 f_equal. lia.
Qed.

(** The packet of a message. *)
Definition publish_packet (dup qos retained packetid : Z) (t payload : bytes) : bytes :=
  let body := publish_body qos packetid t payload in packet (header_byte PUBLISH dup qos retained) (zlen body) body.

Lemma publish_written buf dup qos retained packetid topic t payload :
  let pkt := publish_packet dup qos retained packetid t payload in
  is_string topic t -> 0 <= dup < 2 -> 0 <= qos < 4 -> 0 <= retained < 2 -> 0 <= packetid < 65536 ->
  MQTTSerialize_publishLength qos topic (zlen payload) < 268435456 ->
  MQTTPacket_len (MQTTSerialize_publishLength qos topic (zlen payload)) <= zlen buf ->
  MQTTSerialize_publish buf dup qos retained packetid topic payload = Some (zlen pkt, pkt ++ drop (length pkt) buf)
  /\ 2 <= zlen pkt <= zlen buf.
Proof.
  intros pkt Ht Hd Hq Hr Hp Hn Hl.
  destruct (header_fields PUBLISH dup qos retained) as (Hh & _); [unfold PUBLISH; lia|done|done|done|].
  rewrite (zlen_publish_body qos packetid topic t payload Ht) in Hn, Hl.
  set (body := publish_body qos packetid t payload) in *.
  assert (Hz : 0 <= zlen body < 268435456) by (split; [auto with t2|done]).
  pose proof (packet_len_bounds _ Hz) as Hb. pose proof (zlen_packet (header_byte PUBLISH dup qos retained) (zlen body) body Hz) as Hzp.
  change (packet _ _ _) with pkt in Hzp.
  assert (1 <= digits_of (zlen body)) by (unfold digits_of; repeat case_if; lia). split; [|lia].
  unfold MQTTSerialize_publish. rewrite (zlen_publish_body qos packetid topic t payload Ht). fold body.
  rewrite (proj2 (Z.ltb_ge _ _)) by done. apply serialize_ok; [|lia]. apply writes_packet; [done|].
  apply writes_seq; [by apply writes_string|]. apply writes_seq; [by apply writes_when, writes_int|apply writes_mem].
Qed.

(** C37: a published message is read back.  When the buffer has the space that
    [MQTTPacket_len] computes and the packet is below the limit of the protocol,
    the packet is written at the start of the buffer and nothing behind it is
    touched; the result is its length, the header byte, the length field and the
    remaining length together; and from exactly these bytes the deserialiser
    returns the flags, the quality of service, the packet identifier (for a
    quality of service above 0), the topic and the payload that were given. *)
Theorem publish_roundtrip buf dup qos retained packetid topic t payload :
  is_string topic t -> 0 <= dup < 2 -> 0 <= qos < 4 -> 0 <= retained < 2 -> 0 <= packetid < 65536 ->
  MQTTSerialize_publishLength qos topic (zlen payload) < 268435456 ->
  MQTTPacket_len (MQTTSerialize_publishLength qos topic (zlen payload)) <= zlen buf ->
  exists len buf',
    MQTTSerialize_publish buf dup qos retained packetid topic payload = Some (len, buf')
    /\ len = 1 + zlen (MQTTPacket_encode (MQTTSerialize_publishLength qos topic (zlen payload))) + MQTTSerialize_publishLength qos topic (zlen payload)
    /\ len <= zlen buf /\ zlen buf' = zlen buf /\ drop (Z.to_nat len) buf' = drop (Z.to_nat len) buf
    /\ MQTTDeserialize_publish (take (Z.to_nat len) buf')
       = Some (1, Some (mkPublish dup qos retained (Some (string_of t)) (if 0 <? qos then Some packetid else None)
                          (Some (payload, zlen payload)))).
Proof.
  intros Ht Hd Hq Hr Hp Hn Hl.
  destruct (header_fields PUBLISH dup qos retained) as (_ & E1 & E2 & E3 & E4); [unfold PUBLISH; lia|done|done|done|].
  destruct (publish_written buf dup qos retained packetid topic t payload Ht Hd Hq Hr Hp Hn Hl) as [Hw Hz].
  rewrite (zlen_publish_body qos packetid topic t payload Ht) in Hn |- *.
  assert (Hlen : zlen (publish_packet dup qos retained packetid t payload)
    = 1 + zlen (MQTTPacket_encode (zlen (publish_body qos packetid t payload))) + zlen (publish_body qos packetid t payload)).
  { unfold publish_packet. rewrite zlen_packet, zlen_encode by (split; [auto with t2|done]). lia. }
  set (pkt := publish_packet dup qos retained packetid t payload) in *.
  exists (zlen pkt), (pkt ++ drop (length pkt) buf). split; [done|]. split; [done|]. split; [lia|].
  replace (Z.to_nat (zlen pkt)) with (length pkt) by (unfold zlen; lia). split; [|split].
  - unfold zlen in *. rewrite length_app, length_drop. lia.
  - by rewrite drop_app_length.
  - rewrite take_app_length. pose proof (publish_read (header_byte PUBLISH dup qos retained) packetid t payload [] E1) as R.
    rewrite E2, E3, E4, !app_nil_r in R. apply R; [by destruct Ht|done|done].
Qed.

Lemma publish_roundtrip_witness :
  exists len buf',
    MQTTSerialize_publish (replicate 32 0) 0 1 0 7 (mkString (Some (str "a/b")) 0 None) [1; 2; 3] = Some (len, buf')
    /\ len = 12 /\ len <= 32 /\ zlen buf' = 32 /\ drop (Z.to_nat len) buf' = drop (Z.to_nat len) (replicate 32 0)
    /\ MQTTDeserialize_publish (take (Z.to_nat len) buf')
       = Some (1, Some (mkPublish 0 1 0 (Some (string_of (str "a/b"))) (Some 7) (Some ([1; 2; 3], 3)))).
Proof.
  apply (publish_roundtrip (replicate 32 0) 0 1 0 7 (mkString (Some (str "a/b")) 0 None) (str "a/b") [1; 2; 3]).
  - split; [by vm_compute|by left].
  - lia.
  - lia.
  - lia.
  - lia.
  - by vm_compute.
  - by vm_compute.
Defined.

(** ** The remaining length *)

(** The remaining length of a packet, up to the limit of the protocol, is
    read back as it was written, whatever follows it, and [MQTTPacket_len] asks
    for at least the space of the whole packet and for at most one byte more. *)
Theorem remaining_length_codec n rest :
  0 <= n < 268435456 ->
  MQTTPacket_decodeBuf (MQTTPacket_encode n ++ rest) = Some (zlen (MQTTPacket_encode n), n, rest)
  /\ 1 <= zlen (MQTTPacket_encode n) <= 4
  /\ 1 + zlen (MQTTPacket_encode n) + n <= MQTTPacket_len n <= 2 + zlen (MQTTPacket_encode n) + n.
Proof.
  intros Hn. rewrite zlen_encode by done. split; [by apply decode_len|]. split; [|by apply packet_len_bounds].
  unfold digits_of. repeat case_if; lia.
Qed.

Lemma remaining_length_codec_witness :
  MQTTPacket_decodeBuf (MQTTPacket_encode 16383 ++ [9]) = Some (2, 16383, [9])
  /\ 1 <= zlen (MQTTPacket_encode 16383) <= 4
  /\ 1 + zlen (MQTTPacket_encode 16383) + 16383 <= MQTTPacket_len 16383 <= 2 + zlen (MQTTPacket_encode 16383) + 16383.
Proof. apply (remaining_length_codec 16383 [9]). lia. Defined.

(** ** Connect *)

(** A connection request: version, client, keep-alive time, clean session, will
    (topic, message, retained, quality of service), user and password. *)
Record conn := mkConn {
  c_version : Z; c_client : bytes; c_keep : Z; c_clean : Z;
  c_will : option (bytes * bytes * Z * Z); c_user : option bytes; c_pass : option bytes;
}.

Definition optional (s : MQTTString) (t : option bytes) : Prop :=
  match t with None => s = MQTTString_initializer | Some u => is_string s u /\ u <> [] end.

(** The options say what [c] says. *)
Record describes (o : MQTTPacket_connectData) (c : conn) : Prop := {
  ds_version : MQTTVersion o = c_version c /\ (c_version c = 3 \/ c_version c = 4);
  ds_client : is_string (clientID o) (c_client c);
  ds_keep : keepAliveInterval o = c_keep c /\ 0 <= c_keep c < 65536;
  ds_clean : cleansession o = c_clean c /\ 0 <= c_clean c < 2;
  ds_will : match c_will c with
            | None => willFlag o = 0
            | Some (t, m, r, q) => willFlag o = 1 /\ is_string (w_topicName (will o)) t /\ is_string (w_message (will o)) m
                                   /\ w_retained (will o) = r /\ 0 <= r < 2 /\ w_qos (will o) = q /\ 0 <= q < 4
            end;
  ds_user : optional (username o) (c_user c);
  ds_pass : optional (password o) (c_pass c) /\ (c_user c = None -> c_pass c = None);
}.

Definition opt_wire (t : option bytes) : bytes := match t with None => [] | Some u => wire_string u end.
Definition will_wire (w : option (bytes * bytes * Z * Z)) : bytes :=
  match w with None => [] | Some (t, m, _, _) => wire_string t ++ wire_string m end.

Definition protocol_wire (version : Z) : bytes :=
  if version =? 4 then wire_string (str "MQTT") ++ [4] else wire_string (str "MQIsdp") ++ [3].

Definition some {A} (o : option A) : bool := match o with None => false | Some _ => true end.

Definition conn_flags (c : conn) : Z :=
  2 * c_clean c + 4 * b2z (some (c_will c)) + 8 * (match c_will c with Some (_, _, _, q) => q | None => 0 end)
  + 32 * (match c_will c with Some (_, _, r, _) => r | None => 0 end)
  + 64 * b2z (some (c_pass c)) + 128 * b2z (some (c_user c)).

Definition connect_body (c : conn) : bytes :=
  protocol_wire (c_version c) ++ [conn_flags c] ++ int_bytes (c_keep c) ++ wire_string (c_client c)
  ++ will_wire (c_will c) ++ opt_wire (c_user c) ++ opt_wire (c_pass c).

Lemma optional_set s t : optional s t -> is_set s = some t.
Proof. destruct t as [u|]; [|by intros ->]. intros [[_ [->| ->]] _]; done. Qed.

Lemma optional_writes s t : optional s t -> writes (when (is_set s) (_mqtt_writeMQTTString s)) (opt_wire t).
Proof.
  intros H. rewrite (optional_set s t H). destruct t as [u|]; [|apply writes_nil].
  destruct H as [H _]. by apply writes_string.
Qed.

Lemma describes_flags o c : describes o c -> flags_of o = conn_flags c /\ 0 <= conn_flags c < 256.
Proof.
  intros D. destruct D as [_ _ _ [Hc Hc'] Hw Hu [Hp _]].
  assert (Hb : forall b, 0 <= b2z b < 2) by (intros []; cbn; lia).
  unfold flags_of, connect_flags, conn_flags. rewrite (optional_set _ _ Hu), (optional_set _ _ Hp), Hc.
  pose proof (Hb (some (c_user c))). pose proof (Hb (some (c_pass c))).
  destruct (c_will c) as [[[[t m] r] q]|].
  - destruct Hw as (-> & _ & _ & -> & Hr & -> & Hq). cbn [Z.eqb negb some b2z].
    rewrite !(Z.mod_small _ 2), !(Z.mod_small _ 4) by lia. lia.
  - rewrite Hw. cbn [Z.eqb negb some b2z]. rewrite !(Z.mod_small _ 2), !(Z.mod_small _ 4) by lia. lia.
Qed.

Lemma connect_writes o c :
  describes o c ->
  writes (fun w =>
      w ← (if MQTTVersion o =? 4
           then w ← _mqtt_writeCString (str "MQTT") w; _mqtt_writeChar 4 w
           else w ← _mqtt_writeCString (str "MQIsdp") w; _mqtt_writeChar 3 w);
      w ← _mqtt_writeChar (flags_of o) w;
      w ← _mqtt_writeInt (keepAliveInterval o) w;
      w ← _mqtt_writeMQTTString (clientID o) w;
      w ← when (negb (willFlag o =? 0)) (fun w =>
             w ← _mqtt_writeMQTTString (w_topicName (will o)) w; _mqtt_writeMQTTString (w_message (will o)) w) w;
      w ← when (is_set (username o)) (_mqtt_writeMQTTString (username o)) w;
      when (is_set (password o)) (_mqtt_writeMQTTString (password o)) w) (connect_body c).
Proof.
  intros D. destruct (describes_flags o c D) as [Hf Hf']. destruct D as [[Hv _] Hc [Hk Hk'] _ Hw Hu [Hp _]].
  unfold connect_body. rewrite Hv, Hf, Hk. apply writes_seq.
  { unfold protocol_wire. destruct (c_version c =? 4); apply writes_seq; auto with t2; try (apply writes_byte; lia);
      apply writes_cstring; by vm_compute. }
  apply writes_seq; [by apply writes_byte|]. apply writes_seq; [by apply writes_int|].
  apply writes_seq; [by apply writes_string|]. apply writes_seq.
  { destruct (c_will c) as [[[[t m] r] q]|].
    - destruct Hw as (-> & Ht & Hm & _). cbn [Z.eqb negb when]. by apply writes_seq; apply writes_string.
    - rewrite Hw. apply writes_nil. }
  apply writes_seq; by apply optional_writes.
Qed.

Lemma zlen_opt_wire s t : optional s t -> zlen (opt_wire t) = if is_set s then MQTTstrlen s + 2 else 0.
Proof.
  intros H. rewrite (optional_set s t H). destruct t as [u|]; [|done]. destruct H as [H _].
  cbn [opt_wire some]. rewrite (string_len _ _ H), zlen_wire. lia.
Qed.

Lemma zlen_connect_body o c : describes o c -> MQTTSerialize_connectLength o = zlen (connect_body c).
Proof.
  intros [[Hv Hv'] Hc _ _ Hw Hu [Hp _]]. unfold MQTTSerialize_connectLength, connect_body.
  rewrite !zlen_app, <- (zlen_opt_wire _ _ Hu), <- (zlen_opt_wire _ _ Hp), Hv, (string_len _ _ Hc), zlen_wire.
  change (zlen [_]) with 1. change (zlen (int_bytes (c_keep c))) with 2.
  assert (Hpr : (if c_version c =? 3 then 12 else if c_version c =? 4 then 10 else 0) = zlen (protocol_wire (c_version c)) + 3)
    by (destruct Hv' as [->| ->]; done).
  rewrite Hpr.
  assert (Hwl : (if negb (willFlag o =? 0) then MQTTstrlen (w_topicName (will o)) + 2 + MQTTstrlen (w_message (will o)) + 2 else 0)
                = zlen (will_wire (c_will c))).
  { destruct (c_will c) as [[[[t m] r] q]|].
    - destruct Hw as (-> & Ht & Hm & _). cbn [Z.eqb negb will_wire].
      rewrite (string_len _ _ Ht), (string_len _ _ Hm), zlen_app, !zlen_wire. lia.
    - by rewrite Hw. }
  lia.
Qed.

(** Reading with [enddata] at the end of the bytes. *)
Definition upto (l : bytes) : rstate := (l, zlen l).

Lemma char_upto c l : _mqtt_readChar (upto (c :: l)) = Some (c, upto l).
Proof. unfold _mqtt_readChar, upto. cbn [fst snd]. rewrite zlen_cons. do 3 f_equal. lia. Qed.

Lemma int_upto n l : 0 <= n < 65536 -> _mqtt_readInt (upto (int_bytes n ++ l)) = Some (n, upto l).
Proof.
  intros Hn. unfold upto. rewrite read_int by done. rewrite zlen_app. change (zlen (int_bytes n)) with 2. do 3 f_equal. lia.
Qed.

Lemma string_upto t l :
  zlen t < 65536 -> _mqtt_readMQTTLenString (upto (wire_string t ++ l)) = Some (Some (string_of t, upto l)).
Proof.
  intros Ht. unfold upto. pose proof (zlen_nonneg l). rewrite read_string; [|done|rewrite zlen_app; lia].
  rewrite zlen_app. do 4 f_equal. lia.
Qed.

(** The fields of the flags. *)
Lemma conn_flags_fields c f :
  f = conn_flags c -> 0 <= c_clean c < 2 ->
  match c_will c with Some (_, _, r, q) => 0 <= r < 2 /\ 0 <= q < 4 | None => True end ->
  f / 2 mod 2 = c_clean c /\ f / 4 mod 2 = b2z (some (c_will c))
  /\ f / 8 mod 4 = match c_will c with Some (_, _, _, q) => q | None => 0 end
  /\ f / 32 mod 2 = match c_will c with Some (_, _, r, _) => r | None => 0 end
  /\ f / 64 mod 2 = b2z (some (c_pass c)) /\ f / 128 mod 2 = b2z (some (c_user c)).
Proof.
  intros -> Hc Hw. unfold conn_flags.
  assert (Hb : forall b, 0 <= b2z b < 2) by (intros []; cbn; lia).
  pose proof (Hb (some (c_user c))). pose proof (Hb (some (c_pass c))).
  destruct (c_will c) as [[[[t m] r] q]|]; cbn [some b2z]; Z.div_mod_to_equations; lia.
Qed.

(** The server's view of [c]: what is not sent stays as it was in [data]. *)
Definition received (data : MQTTPacket_connectData) (c : conn) : MQTTPacket_connectData :=
  mkConnect (MQTTVersion data) (string_of (c_client c)) (c_keep c) (c_clean c) (b2z (some (c_will c)))
    (match c_will c with Some (t, m, r, q) => mkWill (string_of t) (string_of m) r q | None => will data end)
    (match c_user c with Some u => string_of u | None => username data end)
    (match c_pass c with Some p => string_of p | None => password data end).

Lemma optional_size s t : optional s t -> match t with Some u => zlen u < 65536 /\ 1 <= zlen u | None => True end.
Proof.
  destruct t as [[|x u]|]; cbn [optional]; [intros [_ H]; done| |done].
  intros [[Hl _] _]. split; [done|]. rewrite zlen_cons. pose proof (zlen_nonneg u). lia.
Qed.

Lemma too_short_no t l : 1 <= zlen t -> (zlen (wire_string t ++ l) <? 3) = false.
Proof. intros. pose proof (zlen_nonneg l). apply Z.ltb_ge. rewrite zlen_app, zlen_wire. lia. Qed.

(** The user and the password at the end of the packet. *)
Lemma auth_read {B} (user pass : option bytes) (u0 p0 : MQTTString) (e : B) (result : MQTTString -> MQTTString -> option B) :
  match user with Some u => zlen u < 65536 /\ 1 <= zlen u | None => True end ->
  match pass with Some u => zlen u < 65536 /\ 1 <= zlen u | None => True end ->
  (user = None -> pass = None) ->
  let r := upto (opt_wire user ++ opt_wire pass) in
  (if negb (b2z (some user) =? 0) then
     if r.2 <? 3 then Some e else
     or_exit (_mqtt_readMQTTLenString r) e (fun '(user, r) =>
     if negb (b2z (some pass) =? 0) then
       if r.2 <? 3 then Some e else or_exit (_mqtt_readMQTTLenString r) e (fun '(pass, r) => result user pass)
     else result user p0)
   else if negb (b2z (some pass) =? 0) then Some e else result u0 p0)
  = result (match user with Some u => string_of u | None => u0 end) (match pass with Some p => string_of p | None => p0 end).
Proof.
  intros Hu Hp Hup. cbn zeta. destruct user as [u|]; [|by rewrite Hup]. destruct Hu as [Hu Hu1].
  cbn [some b2z Z.eqb negb opt_wire]. cbn [upto snd]. rewrite (too_short_no u) by done.
  fold (upto (wire_string u ++ opt_wire pass)). rewrite string_upto by done. cbn [or_exit].
  destruct pass as [p|]; [|done]. destruct Hp as [Hp Hp1]. cbn [some b2z Z.eqb negb opt_wire].
  rewrite <- (app_nil_r (wire_string p)). cbn [upto snd]. rewrite too_short_no by done.
  fold (upto (wire_string p ++ [])). by rewrite string_upto.
Qed.

Lemma connect_read data o c :
  describes o c -> zlen (connect_body c) < 268435456 ->
  MQTTDeserialize_connect data (packet (header_byte CONNECT 0 0 0) (zlen (connect_body c)) (connect_body c))
  = Some (1, Some (received data c)).
Proof.
  intros D Hn. pose proof (zlen_nonneg (connect_body c)).
  destruct D as [[_ Hv] [Hcl _] [_ Hk] [_ Hcs] Hw Hu [Hp Hup]].
  apply optional_size in Hu, Hp.
  destruct (conn_flags_fields c (conn_flags c) eq_refl Hcs) as (F1 & F2 & F3 & F4 & F5 & F6).
  { destruct (c_will c) as [[[[t m] r] q]|]; [|done]. by destruct Hw as (_ & _ & _ & _ & ? & _ & ?). }
  unfold packet, MQTTDeserialize_connect. set (n := zlen (connect_body c)) in *.
  change ((?l, zlen ?l)) with (upto l) at 1. cbn [app]. rewrite char_upto. cbn [mbind option_bind].
  change (negb (header_type (header_byte CONNECT 0 0 0) =? CONNECT)) with false. cbn iota. cbn [upto fst snd].
  rewrite decode_len by lia. cbn [mbind option_bind].
  rewrite <- zlen_encode, zlen_app by lia. fold n.
  replace (zlen (MQTTPacket_encode n) + n - zlen (MQTTPacket_encode n)) with n by lia.
  unfold zlen. rewrite Nat2Z.id, drop_app_length. fold (zlen (connect_body c)) in n.
  change (connect_body c, n) with (upto (connect_body c)). clear n Hn H.
  unfold connect_body. set (fl := conn_flags c) in *. clearbody fl.
  assert (Hpr : exists name v, protocol_wire (c_version c) = wire_string name ++ [v] /\ zlen name < 65536
                              /\ MQTTPacket_checkVersion (string_of name) v = true).
  { destruct Hv as [->| ->]; [exists (str "MQIsdp"), 3|exists (str "MQTT"), 4]; split; try done; by split. }
  destruct Hpr as (name & v & -> & Hname & Hchk). rewrite <- !app_assoc. cbn [app].
  rewrite string_upto by done. cbn [or_exit]. rewrite (proj2 (Z.ltb_ge _ _)) by (cbn [upto snd]; auto with t2).
  rewrite char_upto. cbn [mbind option_bind]. rewrite Hchk. cbn [negb].
  rewrite char_upto. cbn [mbind option_bind]. rewrite int_upto by done. cbn [mbind option_bind].
  rewrite string_upto by done. cbn [or_exit]. rewrite F1, F2, F3, F4, F5, F6. unfold received.
  pose proof (fun wf wl => auth_read (c_user c) (c_pass c) (username data) (password data) (0, None)
    (fun user pass => Some (1, Some (mkConnect (MQTTVersion data) (string_of (c_client c)) (c_keep c) (c_clean c) wf wl user pass)))
    Hu Hp Hup) as Hauth. cbn zeta in Hauth.
  destruct (c_will c) as [[[[t m] r] q]|]; cbn [some b2z Z.eqb negb will_wire].
  - destruct Hw as (_ & [Ht _] & [Hm _] & _). rewrite <- app_assoc.
    rewrite string_upto by done. cbn [or_exit]. rewrite string_upto by done. cbn [or_exit]. by apply (Hauth 1 (mkWill _ _ _ _)).
  - cbn [app]. by apply (Hauth 0 (will data)).
Qed.

Definition connect_packet (c : conn) : bytes := packet (header_byte CONNECT 0 0 0) (zlen (connect_body c)) (connect_body c).

Lemma connect_written buf o c :
  describes o c ->
  MQTTSerialize_connectLength o < 268435456 -> MQTTPacket_len (MQTTSerialize_connectLength o) <= zlen buf ->
  MQTTSerialize_connect buf o = Some (zlen (connect_packet c), connect_packet c ++ drop (length (connect_packet c)) buf)
  /\ 2 <= zlen (connect_packet c) <= zlen buf.
Proof.
  intros D Hn Hl. pose proof (zlen_connect_body o c D) as Hz. rewrite Hz in Hn, Hl.
  assert (Hb : 0 <= zlen (connect_body c) < 268435456) by (split; [auto with t2|done]).
  pose proof (packet_len_bounds _ Hb) as Hpl.
  pose proof (zlen_packet (header_byte CONNECT 0 0 0) (zlen (connect_body c)) (connect_body c) Hb) as Hzp.
  fold (connect_packet c) in Hzp.
  assert (Hd : 1 <= digits_of (zlen (connect_body c))) by (unfold digits_of; repeat case_if; lia). split; [|lia].
  unfold MQTTSerialize_connect. rewrite Hz, (proj2 (Z.ltb_ge _ _)) by done. apply serialize_ok; [|lia].
  apply writes_packet; [by vm_compute|by apply connect_writes].
Qed.

(** A connection request is read back by the server.  When the buffer has
    the space that [MQTTPacket_len] computes, the request is written inside the
    buffer, and the server reads from it the client identifier, the keep-alive
    time, the clean-session flag, the will with its topic, message, quality of
    service and retained flag, the user and the password, for both versions of
    the protocol; what was not sent keeps its value. *)
Theorem connect_roundtrip buf o c data :
  describes o c ->
  MQTTSerialize_connectLength o < 268435456 -> MQTTPacket_len (MQTTSerialize_connectLength o) <= zlen buf ->
  exists len buf',
    MQTTSerialize_connect buf o = Some (len, buf') /\ zlen buf' = zlen buf /\ 0 < len <= zlen buf
    /\ MQTTDeserialize_connect data (take (Z.to_nat len) buf') = Some (1, Some (received data c)).
Proof.
  intros D Hn Hl. destruct (connect_written buf o c D Hn Hl) as [Hw Hz]. eexists _, _. split; [exact Hw|].
  split; [unfold zlen in *; rewrite length_app, length_drop; lia|]. split; [lia|].
  unfold zlen at 1. rewrite Nat2Z.id, take_app_length. apply (connect_read data o); [done|].
  by rewrite <- (zlen_connect_body o c D).
Qed.

Definition sample_options : MQTTPacket_connectData :=
  mkConnect 4 (mkString (Some (str "cam1")) 0 None) 60 1 1
    (mkWill (mkString (Some (str "gone")) 0 None) (mkString (Some (str "cam1")) 0 None) 0 1)
    (mkString (Some (str "me")) 0 None) (mkString (Some (str "pw")) 0 None).

Definition sample_conn : conn :=
  mkConn 4 (str "cam1") 60 1 (Some (str "gone", str "cam1", 0, 1)) (Some (str "me")) (Some (str "pw")).

Lemma sample_describes : describes sample_options sample_conn.
Proof. split; cbn [c_version c_client c_keep c_clean c_will c_user c_pass sample_options sample_conn]; repeat split; done || (by left) || (by right). Qed.

Lemma connect_roundtrip_witness :
  exists len buf',
    MQTTSerialize_connect (replicate 64 0) sample_options = Some (len, buf')
    /\ zlen buf' = zlen (replicate 64 0) /\ 0 < len <= zlen (replicate 64 0)
    /\ MQTTDeserialize_connect MQTTPacket_connectData_initializer (take (Z.to_nat len) buf')
       = Some (1, Some (mkConnect 4 (string_of (str "cam1")) 60 1 1 (mkWill (string_of (str "gone")) (string_of (str "cam1")) 0 1)
                          (string_of (str "me")) (string_of (str "pw")))).
Proof.
  apply (connect_roundtrip (replicate 64 0) sample_options sample_conn MQTTPacket_connectData_initializer).
  - exact sample_describes.
  - by vm_compute.
  - by vm_compute.
Defined.
