(* ===== verification/MqttRead.v ===== *)
(** * MQTT packets from a stream (components/mqtt/src/MQTTPacket.c)

    [MQTTPacket_read] reads a packet from a blocking source;
    [MQTTPacket_readnb] is a state machine that is called again until the whole
    packet has arrived.  The result of a call is paired with the buffer, the
    transport structure and the source. *)

From S2P Require Import Prelude MqttPacket MqttRoundTrip.

(** [header.byte = buf[0]; rc = header.bits.type] *)
Definition type_of (buf : bytes) : Z := header_type (bget buf 0).

Section Sources.
Context {T : Type} (getfn : source T).

Definition MQTTPacket_read (buf : bytes) (t : T) : option (Z * bytes * T) :=
  '(rc, cs, t) ← getfn 1 t;
  buf ← store buf 0 cs;
  if negb (rc =? 1) then Some (-1, buf, t)
  else
    '(_, rem_len, t) ← MQTTPacket_decode getfn t;
    buf ← store buf 1 (MQTTPacket_encode rem_len);
    let len := 1 + zlen (MQTTPacket_encode rem_len) in
    if zlen buf <? rem_len + len then Some (-1, buf, t)
    else if negb (rem_len =? 0) then
      '(rc, cs, t) ← getfn rem_len t;
      buf ← store buf len cs;
      Some (if negb (rc =? rem_len) then -1 else type_of buf, buf, t)
    else Some (type_of buf, buf, t).

(** [MQTTTransport], less the source, which is the state [T]. *)
Record MQTTTransport := mkTransport { t_multiplier : Z; t_rem_len : Z; t_len : Z; t_state : Z }.

Fixpoint decodenb_loop (fuel : nat) (trp : MQTTTransport) (t : T) : option (Z * MQTTTransport * T) :=
  match fuel with
  | O => None
  | S fuel' =>
      if 4 <=? t_len trp then Some (MQTTPACKET_READ_ERROR, trp, t)
      else
        '(frc, cs, t) ← getfn 1 t;
        if frc =? -1 then Some (MQTTPACKET_READ_ERROR, trp, t)
        else if frc =? 0 then Some (0, trp, t)
        else match cs with
             | [] => None
             | c :: _ =>
                 let trp := mkTransport (s32 (t_multiplier trp * 128))
                              (s32 (t_rem_len trp + Z.land c 127 * t_multiplier trp)) (t_len trp + 1) (t_state trp) in
                 if negb (Z.land c 128 =? 0) then decodenb_loop fuel' trp t else Some (t_len trp, trp, t)
             end
  end.

(** A fifth round finds four length bytes read. *)
Definition MQTTPacket_decodenb (trp : MQTTTransport) (t : T) : option (Z * MQTTTransport * T) :=
  let trp := if t_len trp =? 0 then mkTransport 1 0 (t_len trp) (t_state trp) else trp in
  decodenb_loop 5 trp t.

Definition set_state (trp : MQTTTransport) (s : Z) : MQTTTransport :=
  mkTransport (t_multiplier trp) (t_rem_len trp) (t_len trp) s.

Definition result : Type := Z * bytes * MQTTTransport * T.

(** The label [exit]. *)
Definition leave (rc : Z) (buf : bytes) (trp : MQTTTransport) (t : T) : option result := Some (rc, buf, set_state trp 0, t).

Definition readnb_body (buf : bytes) (trp : MQTTTransport) (t : T) : option result :=
  if negb (t_rem_len trp =? 0) then
    '(frc, cs, t) ← getfn (t_rem_len trp) t;
    buf ← store buf (t_len trp) cs;
    if frc =? -1 then leave (-1) buf trp t
    else if frc =? 0 then Some (0, buf, trp, t)
    else
      let trp := mkTransport (t_multiplier trp) (t_rem_len trp - frc) (t_len trp + frc) (t_state trp) in
      if negb (t_rem_len trp =? 0) then Some (0, buf, trp, t) else leave (type_of buf) buf trp t
  else leave (type_of buf) buf trp t.

Definition readnb_length (buf : bytes) (trp : MQTTTransport) (t : T) : option result :=
  '(frc, trp, t) ← MQTTPacket_decodenb trp t;
  if frc =? MQTTPACKET_READ_ERROR then leave (-1) buf trp t
  else if frc =? 0 then Some (0, buf, trp, t)
  else
    buf ← store buf 1 (MQTTPacket_encode (t_rem_len trp));
    let trp := mkTransport (t_multiplier trp) (t_rem_len trp) (1 + zlen (MQTTPacket_encode (t_rem_len trp))) (t_state trp) in
    if zlen buf <? t_rem_len trp + t_len trp then leave (-1) buf trp t
    else readnb_body buf (set_state trp (t_state trp + 1)) t.

Definition readnb_header (buf : bytes) (trp : MQTTTransport) (t : T) : option result :=
  '(frc, cs, t) ← getfn 1 t;
  buf ← store buf 0 cs;
  if frc =? -1 then leave (-1) buf trp t
  else if frc =? 0 then Some (0, buf, trp, t)
  else readnb_length buf (mkTransport (t_multiplier trp) (t_rem_len trp) 0 (t_state trp + 1)) t.

Definition MQTTPacket_readnb (buf : bytes) (trp : MQTTTransport) (t : T) : option result :=
  if t_state trp =? 1 then readnb_length buf trp t
  else if t_state trp =? 2 then readnb_body buf trp t
  else readnb_header buf (set_state trp 0) t.

(** The caller's loop: call again while the result is 0. *)
Fixpoint readnb_until (fuel : nat) (buf : bytes) (trp : MQTTTransport) (t : T) : option result :=
  match fuel with
  | O => None
  | S fuel' =>
      '(rc, buf, trp, t) ← MQTTPacket_readnb buf trp t;
      if rc =? 0 then readnb_until fuel' buf trp t else Some (rc, buf, trp, t)
  end.

End Sources.

(** ** Sources that deliver in pieces *)

(** The bytes a source has yet to deliver, and how often it can still deliver
    less than it is asked for, or nothing, while it has enough. *)
Class Fragmented (T : Type) (getfn : source T) := {
  pending : T -> bytes;
  patience : T -> nat;
  fragment : forall n t, 0 < n -> exists bs t',
    getfn n t = Some (zlen bs, bs, t') /\ pending t = bs ++ pending t' /\ zlen bs <= n
    /\ (patience t' <= patience t)%nat
    /\ (zlen bs < n -> n <= zlen (pending t) -> (patience t' < patience t)%nat);
}.

(** A socket with the arrivals [ks]: each call finds as many bytes as the next
    number says, and all of them when the numbers are used up. *)
Definition arrivals : Type := bytes * list nat.

Definition socket : source arrivals := fun n t =>
  let k := match t.2 with [] => Z.to_nat n | k :: _ => Nat.min k (Z.to_nat n) end in
  Some (zlen (take k t.1), take k t.1, (drop k t.1, tail t.2)).

#[global, refine] Instance socket_fragmented : Fragmented arrivals socket :=
  { pending := fst; patience := fun t => length t.2 }.
Proof.
  intros n [l ks] Hn. unfold socket. cbn [fst snd]. eexists _, _. split; [done|]. cbn [fst snd].
  split; [by rewrite take_drop|]. split; [|split].
  - unfold zlen. rewrite length_take. destruct ks; lia.
  - destruct ks; cbn; lia.
  - unfold zlen. rewrite length_take. destruct ks; cbn; lia.
Defined.

(** ** A packet read in pieces *)

Section Pieces.
Context {T : Type} (getfn : source T) `{!Fragmented T getfn}.
Context (h : Z) (body rest buf0 : bytes).

Abbreviation n := (zlen body).
Abbreviation pkt := (packet h n body).

Hypothesis Hh : is_byte h.
Hypothesis Htype : header_type h <> 0.
Hypothesis Hn : n < 268435456.
Hypothesis Hroom : zlen pkt <= zlen buf0.

(** What has been read is in the buffer, what has not is in the source. *)
Inductive reading (trp : MQTTTransport) (t : T) : bytes -> Prop :=
  | reading_header : t_state trp = 0 -> pending t = pkt ++ rest -> reading trp t buf0
  | reading_length fuel m :
      t_state trp = 1 -> pending t = encode_loop (S fuel) m ++ body ++ rest ->
      0 <= t_len trp < 4 -> 0 <= m < 128 ^ (4 - t_len trp) -> (3 <= fuel + Z.to_nat (t_len trp))%nat ->
      (t_len trp <> 0 -> t_multiplier trp = 128 ^ t_len trp /\ 0 <= t_rem_len trp < 128 ^ t_len trp
                         /\ n = t_rem_len trp + m * 128 ^ t_len trp) ->
      (t_len trp = 0 -> n = m) ->
      reading trp t (memcpy buf0 0 [h])
  | reading_body b1 b2 :
      t_state trp = 2 -> pending t = b2 ++ rest -> body = b1 ++ b2 ->
      t_rem_len trp = zlen b2 -> t_len trp = 1 + digits_of n + zlen b1 ->
      reading trp t (memcpy buf0 0 ([h] ++ MQTTPacket_encode n ++ b1)).

(** The result of a call: the packet, or 0 with some patience used up. *)
Definition progress (p : nat) (r : option (result (T := T))) : Prop :=
  match r with
  | Some (rc, buf, trp, t) =>
      (rc = header_type h /\ buf = memcpy buf0 0 pkt /\ t_state trp = 0 /\ pending t = rest)
      \/ (rc = 0 /\ reading trp t buf /\ (patience t < p)%nat)
  | None => False
  end.

Lemma progress_mono p q r : (p <= q)%nat -> progress p r -> progress q r.
Proof.
  intros Hpq. unfold progress. destruct r as [[[[rc buf] trp] t]|]; [|done].
  intros [H|(H1 & H2 & H3)]; [by left|right]. split_and!; [done|done|lia].
Qed.

Lemma store_next pre cs :
  zlen (pre ++ cs) <= zlen buf0 -> store (memcpy buf0 0 pre) (zlen pre) cs = Some (memcpy buf0 0 (pre ++ cs)).
Proof.
  intros Hl. rewrite zlen_app in Hl. pose proof (zlen_nonneg pre). pose proof (zlen_nonneg cs). unfold store.
  assert (Hz : zlen (memcpy buf0 0 pre) = zlen buf0) by (apply zlen_memcpy; lia).
  rewrite (proj2 (Z.leb_le _ _)) by lia. rewrite (proj2 (Z.leb_le _ _)) by lia. cbn [andb].
  by rewrite <- memcpy_memcpy by lia.
Qed.

Lemma digits_pos : 1 <= digits_of n.
Proof. unfold digits_of. repeat case_if; lia. Qed.

Lemma zlen_pkt : zlen pkt = 1 + digits_of n + n.
Proof. apply zlen_packet. split; [auto with t2|done]. Qed.

Lemma type_of_pkt : type_of (memcpy buf0 0 pkt) = header_type h.
Proof. pose proof zlen_pkt. pose proof (zlen_nonneg body). unfold type_of, memcpy, packet. done. Qed.

Lemma body_progress trp t buf :
  t_state trp = 2 -> reading trp t buf -> progress (patience t) (readnb_body getfn buf trp t).
Proof.
  intros Hs HR. destruct HR as [Hs0|? ? Hs1|b1 b2 _ Hp Hb Hr Hl]; [congruence|congruence|].
  pose proof (zlen_nonneg b1). pose proof (zlen_nonneg b2). pose proof zlen_pkt as Hz.
  assert (Hzb : zlen b1 + zlen b2 = n) by (rewrite Hb, zlen_app; lia).
  unfold readnb_body. rewrite Hr. destruct (Z.eqb_spec (zlen b2) 0) as [E|E]; cbn [negb].
  { apply zlen_0_nil in E as ->.
    rewrite app_nil_r in Hb. subst b1. change ([h] ++ MQTTPacket_encode n ++ body) with pkt. rewrite type_of_pkt. by left. }
  destruct (fragment (zlen b2) t ltac:(lia)) as (bs & t' & -> & Hpt & Hle & Hpa & Hlt). cbn [mbind option_bind].
  pose proof (zlen_nonneg bs). pose proof (zlen_nonneg rest). rewrite Hp in Hpt.
  destruct (app_prefix _ _ _ _ Hpt Hle) as (b3 & -> & Hp'). rewrite zlen_app in *. pose proof (zlen_nonneg b3).
  assert (Hlen : t_len trp = zlen ([h] ++ MQTTPacket_encode n ++ b1))
    by (rewrite Hl, !zlen_app, zlen_encode by lia; change (zlen [h]) with 1; lia).
  assert (Hfit : zlen (([h] ++ MQTTPacket_encode n ++ b1) ++ bs) <= zlen buf0) by (rewrite zlen_app, <- Hlen; lia).
  rewrite Hlen, store_next, <- !app_assoc by done. cbn [mbind option_bind].
  rewrite (proj2 (Z.eqb_neq _ _)) by lia.
  assert (Hshort : zlen bs < zlen bs + zlen b3 -> (patience t' < patience t)%nat)
    by (intros; apply Hlt; rewrite ?Hp, ?zlen_app; lia).
  destruct (Z.eqb_spec (zlen bs) 0) as [E0|E0].
  - apply zlen_0_nil in E0 as ->. pose proof (@zlen_nil Z) as Hnil.
    right. split_and!; [done| |apply Hshort; lia]. rewrite app_nil_r.
    eapply reading_body; [done|exact Hp'|done|cbn [app] in Hr; rewrite Hr; lia|done].
  - rewrite <- Hlen. cbn [t_rem_len]. replace (zlen bs + zlen b3 - zlen bs) with (zlen b3) by lia.
    destruct (Z.eqb_spec (zlen b3) 0) as [E3|E3]; cbn [negb].
    + apply zlen_0_nil in E3 as ->.
      rewrite app_nil_r in Hb. assert (Hpk : [h] ++ MQTTPacket_encode n ++ b1 ++ bs = pkt) by (unfold packet; by rewrite <- Hb).
      rewrite Hpk, type_of_pkt. by left.
    + right. split_and!; [done| |apply Hshort; lia].
      eapply reading_body; [done|exact Hp'|by rewrite <- app_assoc|done|cbn [t_len]; rewrite zlen_app; lia].
Qed.

(** The length digits that are still to come. *)
Definition digits_left (trp : MQTTTransport) (t : T) : Prop :=
  exists fuel m,
    pending t = encode_loop (S fuel) m ++ body ++ rest /\ 0 <= t_len trp < 4 /\ 0 <= m < 128 ^ (4 - t_len trp)
    /\ (3 <= fuel + Z.to_nat (t_len trp))%nat
    /\ t_multiplier trp = 128 ^ t_len trp /\ 0 <= t_rem_len trp < 128 ^ t_len trp
    /\ n = t_rem_len trp + m * 128 ^ t_len trp.

Lemma digits_left_reading trp t : t_state trp = 1 -> digits_left trp t -> reading trp t (memcpy buf0 0 [h]).
Proof.
  intros Hs (fuel & m & Hp & Hl & Hm & Hf & Hmu & Hr & Hn'). apply (reading_length _ _ fuel m); try done.
  intros E. rewrite E in Hr, Hn'. change (128 ^ 0) with 1 in *. lia.
Qed.

(** One byte asked for: nothing, or the first byte pending. *)
Lemma one_byte t c l :
  pending t = c :: l ->
  exists bs t', getfn 1 t = Some (zlen bs, bs, t')
    /\ ((bs = [] /\ pending t' = c :: l /\ (patience t' < patience t)%nat)
        \/ (bs = [c] /\ pending t' = l /\ (patience t' <= patience t)%nat)).
Proof.
  intros Hp. destruct (fragment 1 t ltac:(lia)) as (bs & t' & -> & Hpt & Hle & Hpa & Hlt).
  exists bs, t'. split; [done|]. rewrite Hp in Hpt, Hlt. rewrite zlen_cons in Hlt. pose proof (zlen_nonneg l).
  destruct bs as [|b bs].
  - left. pose proof (@zlen_nil Z). split_and!; [done|done|apply Hlt; lia].
  - rewrite zlen_cons in Hle. pose proof (zlen_nonneg bs). assert (bs = []) as -> by (apply zlen_0_nil; lia).
    cbn [app] in Hpt. injection Hpt as -> <-. by right.
Qed.

Lemma length_loop fuel : forall trp t,
  digits_left trp t -> (4 <= fuel + Z.to_nat (t_len trp))%nat ->
  exists frc trp' t', decodenb_loop getfn fuel trp t = Some (frc, trp', t') /\ t_state trp' = t_state trp
    /\ ((frc = 0 /\ digits_left trp' t' /\ (patience t' < patience t)%nat)
        \/ (1 <= frc /\ t_rem_len trp' = n /\ pending t' = body ++ rest /\ (patience t' <= patience t)%nat)).
Proof.
  induction fuel as [|fuel IH]; intros trp t (f & m & Hp & Hl & Hm & Hf & Hmu & Hr & Hn') Hfuel; [lia|].
  cbn [decodenb_loop]. rewrite (proj2 (Z.leb_gt _ _)) by lia. rewrite encode_step in Hp by lia.
  set (k := t_len trp) in *.
  assert (Hpk : 128 ^ k * 128 = 128 ^ (k + 1)) by (rewrite Z.pow_add_r by lia; lia).
  assert (Hp0 : 0 < 128 ^ k) by (apply Z.pow_pos_nonneg; lia).
  assert (Hp4 : 128 ^ (k + 1) <= 128 ^ 4) by (apply Z.pow_le_mono_r; lia). change (128 ^ 4) with 268435456 in Hp4.
  set (c := if m <? 128 then m else Z.lor (m mod 128) 128).
  set (l := (if m <? 128 then [] else encode_loop f (m / 128)) ++ body ++ rest).
  destruct (one_byte t c l) as (bs & t' & -> & [(-> & Hp' & Hpa)|(-> & Hp' & Hpa)]).
  { rewrite Hp. unfold c, l. by destruct (m <? 128). }
  { exists 0, trp, t'. split_and!; [done|done|]. left. split_and!; [done| |done].
    exists f, m. split; [|done]. rewrite Hp'. unfold c, l. rewrite encode_step by lia. by destruct (m <? 128). }
  change (zlen [c]) with 1. cbn [mbind option_bind Z.eqb]. pose proof (Z.mod_pos_bound m 128 ltac:(lia)) as Hmm.
  destruct (Z.ltb_spec m 128) as [Hs|Hs]; unfold c, l in *; clear c l.
  - rewrite land_127, Z.mod_small, land_128_small by lia. cbn [Z.eqb negb].
    eexists _, _, _. split; [done|]. split; [done|]. right. cbn [t_len t_rem_len]. rewrite Hmu.
    rewrite s32_small by nia. split_and!; [lia|lia|done|done].
  - destruct (more_digit (m mod 128) Hmm) as [-> Hb]. rewrite (proj2 (Z.eqb_neq _ _) Hb). cbn [negb].
    pose proof (Z.div_mod m 128 ltac:(lia)) as Hdm. rewrite Hmu. rewrite !s32_small by nia. rewrite Hpk.
    assert (Hk3 : k <= 2).
    { assert (k = 3 -> False); [|lia]. intros E. rewrite E in Hm. change (128 ^ (4 - 3)) with 128 in Hm. lia. }
    destruct f as [|f]; [lia|].
    destruct (IH (mkTransport (128 ^ (k + 1)) (t_rem_len trp + m mod 128 * 128 ^ k) (k + 1) (t_state trp)) t')
      as (frc & trp' & t'' & E & Hst & Hcase).
    + exists f, (m / 128). cbn [t_len t_multiplier t_rem_len]. split_and!; try done; try lia; try nia.
      apply Z.div_lt_upper_bound; [lia|]. replace (4 - k) with (Z.succ (4 - (k + 1))) in Hm by lia.
      rewrite Z.pow_succ_r in Hm by lia. lia.
    + cbn [t_len]. lia.
    + exists frc, trp', t''. split; [exact E|]. split; [done|].
      destruct Hcase as [(H1 & H2 & H3)|(H1 & H2 & H3 & H4)]; [left|right]; split_and!; try done; lia.
Qed.

Lemma length_progress trp t buf :
  t_state trp = 1 -> reading trp t buf -> progress (patience t) (readnb_length getfn buf trp t).
Proof.
  intros Hs HR. destruct HR as [Hs0|fuel m _ Hp Hl Hm Hf Hnz Hz|? ? Hs2]; [congruence| |congruence].
  pose proof zlen_pkt as Hzp. pose proof digits_pos. pose proof (zlen_nonneg body).
  set (trp0 := if t_len trp =? 0 then mkTransport 1 0 (t_len trp) (t_state trp) else trp).
  assert (Hs' : t_state trp0 = 1 /\ t_len trp0 = t_len trp) by (unfold trp0; by destruct (t_len trp =? 0)).
  assert (Hd : digits_left trp0 t).
  { exists fuel, m. destruct Hs' as [_ ->]. split_and!; try done; try lia; unfold trp0.
    all: destruct (Z.eqb_spec (t_len trp) 0) as [E|E]; [|destruct (Hnz E) as (? & ? & ?); lia]; cbn [t_rem_len t_multiplier];
      rewrite ?E; change (128 ^ 0) with 1; lia. }
  unfold readnb_length, MQTTPacket_decodenb. fold trp0.
  destruct (length_loop 5 trp0 t Hd ltac:(lia)) as (frc & trp' & t' & -> & Hst & Hcase). cbn [mbind option_bind].
  destruct Hs' as [Hs1 _]. destruct Hcase as [(-> & Hd' & Hpa)|(H1 & H2 & H3 & H4)].
  { cbn [Z.eqb MQTTPACKET_READ_ERROR]. right. split_and!; [done| |done]. apply digits_left_reading; [congruence|done]. }
  unfold MQTTPACKET_READ_ERROR. rewrite (proj2 (Z.eqb_neq _ _)), (proj2 (Z.eqb_neq _ _)), H2 by lia.
  change 1 with (zlen [h]) at 1. rewrite store_next by (rewrite zlen_app, zlen_encode by lia; change (zlen [h]) with 1; lia).
  cbn [mbind option_bind t_rem_len t_len].
  rewrite (proj2 (Z.ltb_ge _ _)); [|rewrite zlen_memcpy; rewrite ?zlen_app, ?zlen_encode by lia; change (zlen [h]) with 1; lia].
  eapply progress_mono; [exact H4|]. apply body_progress; [cbn; lia|].
  replace ([h] ++ MQTTPacket_encode n) with ([h] ++ MQTTPacket_encode n ++ []) by (by rewrite app_nil_r).
  apply (reading_body _ _ [] body); [cbn; lia|done|done|done|]. cbn [t_len set_state].
  rewrite zlen_encode by lia. change (zlen []) with 0. lia.
Qed.

Lemma readnb_progress trp t buf :
  reading trp t buf -> progress (patience t) (MQTTPacket_readnb getfn buf trp t).
Proof.
  intros HR. unfold MQTTPacket_readnb. pose proof zlen_pkt as Hzp. pose proof digits_pos. pose proof (zlen_nonneg body).
  destruct (Z.eqb_spec (t_state trp) 1) as [E1|E1]; [by apply length_progress|].
  destruct (Z.eqb_spec (t_state trp) 2) as [E2|E2]; [by apply body_progress|].
  destruct HR as [Hs Hp| |]; [|congruence|congruence]. unfold readnb_header.
  destruct (one_byte t h (MQTTPacket_encode n ++ body ++ rest)) as (bs & t' & -> & Hcase).
  { rewrite Hp. unfold packet. by rewrite <- !app_assoc. }
  assert (Hst : store buf0 0 bs = Some (memcpy buf0 0 bs)).
  { unfold store. rewrite (proj2 (Z.leb_le _ _)) by done. rewrite (proj2 (Z.leb_le _ _)); [done|].
    destruct Hcase as [(-> & _)|(-> & _)]; [change (zlen []) with 0|change (zlen [h]) with 1]; lia. }
  cbn [mbind option_bind]. rewrite Hst. cbn [mbind option_bind].
  destruct Hcase as [(-> & Hp' & Hpa)|(-> & Hp' & Hpa)].
  - right. split_and!; [done| |done]. replace (memcpy buf0 0 []) with buf0 by done.
    apply reading_header; [done|]. rewrite Hp'. unfold packet. by rewrite <- !app_assoc.
  - change (zlen [h]) with 1. cbn [Z.eqb]. eapply progress_mono; [exact Hpa|]. apply length_progress; [cbn; lia|].
    apply (reading_length _ _ 4 n); cbn [t_state t_len set_state]; try done; lia.
Qed.

Lemma readnb_until_packet fuel : forall trp t buf,
  reading trp t buf -> (patience t < fuel)%nat ->
  exists trp' t', readnb_until getfn fuel buf trp t = Some (header_type h, memcpy buf0 0 pkt, trp', t')
    /\ t_state trp' = 0 /\ pending t' = rest.
Proof.
  induction fuel as [|fuel IH]; intros trp t buf HR Hf; [lia|]. pose proof (readnb_progress trp t buf HR) as Hp.
  cbn [readnb_until]. destruct (MQTTPacket_readnb getfn buf trp t) as [[[[rc buf'] trp'] t']|]; [|done].
  cbn [mbind option_bind]. destruct Hp as [(-> & -> & Hs & Hp)|(-> & HR' & Hpa)].
  - rewrite (proj2 (Z.eqb_neq _ _)) by done. by exists trp', t'.
  - cbn [Z.eqb]. apply IH; [done|lia].
Qed.

End Pieces.

(** A socket with everything there. *)
Lemma socket_all n l rest : n = zlen l -> socket n (l ++ rest, []) = Some (n, l, (rest, [])).
Proof.
  intros ->. unfold socket. cbn [fst snd tail]. unfold zlen. by rewrite Nat2Z.id, take_app_length, drop_app_length.
Qed.

Lemma socket_delivers l rest : delivers socket (l ++ rest, []) l (rest, []).
Proof.
  induction l as [|c l IH]; [constructor|]. econstructor; [|exact IH]. by apply (socket_all 1 [c] (l ++ rest)).
Qed.

Lemma store_front (buf pre cs : bytes) :
  zlen (pre ++ cs) <= zlen buf -> store (memcpy buf 0 pre) (zlen pre) cs = Some (memcpy buf 0 (pre ++ cs)).
Proof. apply store_next. Qed.

Lemma read_blocking h body rest buf :
  zlen body < 268435456 -> zlen (packet h (zlen body) body) <= zlen buf ->
  MQTTPacket_read socket buf (packet h (zlen body) body ++ rest, [])
  = Some (header_type h, memcpy buf 0 (packet h (zlen body) body), (rest, [])).
Proof.
  intros Hn Hr. pose proof (zlen_nonneg body). set (n := zlen body) in *.
  assert (Hz : zlen (packet h n body) = 1 + digits_of n + n) by (apply zlen_packet; lia).
  assert (Hd : 1 <= digits_of n) by (unfold digits_of; repeat case_if; lia).
  assert (Hhd : forall cs, type_of (memcpy buf 0 ([h] ++ cs)) = header_type h) by done.
  unfold packet. rewrite <- !app_assoc. unfold MQTTPacket_read.
  rewrite (socket_all 1 [h]) by done. cbn [mbind option_bind].
  replace (store buf 0 [h]) with (Some (memcpy buf 0 [h]))
    by (unfold store; change (zlen [h]) with 1; rewrite (proj2 (Z.leb_le 0 0)), (proj2 (Z.leb_le (0 + 1) _)) by lia; done).
  cbn [mbind option_bind Z.eqb negb Pos.eqb].
  rewrite (decode_delivers socket n _ (body ++ rest, [])) by (lia || apply socket_delivers). cbn [mbind option_bind].
  assert (He : zlen ([h] ++ MQTTPacket_encode n) = 1 + digits_of n) by (rewrite zlen_app, zlen_encode by lia; done).
  change 1 with (zlen [h]) at 1. rewrite store_front by (rewrite He; lia). cbn [mbind option_bind].
  change (zlen [h]) with 1. rewrite zlen_memcpy, zlen_encode, (proj2 (Z.ltb_ge _ _)) by (rewrite ?He; lia).
  destruct (Z.eqb_spec n 0) as [E|E]; cbn [negb].
  - assert (body = []) as -> by (by apply zlen_0_nil). by rewrite app_nil_r, Hhd.
  - rewrite (socket_all n body rest) by done. cbn [mbind option_bind]. rewrite <- He, store_front.
    + cbn [mbind option_bind]. rewrite Z.eqb_refl, <- app_assoc. cbn [negb]. by rewrite Hhd.
    + rewrite zlen_app, He. fold n. lia.
Qed.

(** C15: the packet reader of the event loops puts a packet together however it
    arrives.  Whatever pieces the transport delivers, and however often it has
    nothing to deliver, the calls end with the type of the packet, the whole
    packet at the start of the buffer and nothing else in it changed, the state
    machine ready for the next packet and the bytes after the packet still in
    the transport: the result of the blocking reader on the same bytes.  The
    number of calls is bounded by the number of short answers plus one. *)
Theorem readnb_reassembles {T} (getfn : source T) `{!Fragmented T getfn} h body rest buf trp t :
  header_type h <> 0 -> zlen body < 268435456 ->
  zlen (packet h (zlen body) body) <= zlen buf ->
  t_state trp = 0 -> pending t = packet h (zlen body) body ++ rest ->
  exists buf' trp' t',
    readnb_until getfn (S (patience t)) buf trp t = Some (header_type h, buf', trp', t')
    /\ MQTTPacket_read socket buf (pending t, []) = Some (header_type h, buf', (pending t', []))
    /\ buf' = packet h (zlen body) body ++ drop (length (packet h (zlen body) body)) buf
    /\ t_state trp' = 0 /\ pending t' = rest.
Proof.
  intros Ht Hn Hr Hs Hp.
  destruct (readnb_until_packet getfn h body rest buf Ht Hn Hr (S (patience t)) trp t buf) as (trp' & t' & E & Hs' & Hp').
  - by apply reading_header.
  - lia.
  - exists (memcpy buf 0 (packet h (zlen body) body)), trp', t'. split_and!; [done| |done|done|done].
    rewrite Hp, Hp'. by apply read_blocking.
Qed.

Lemma readnb_reassembles_witness :
  exists buf' trp' t',
    readnb_until socket 6 (replicate 8 0) (mkTransport 0 0 0 0) ([64; 2; 1; 7; 99], [0; 1; 0; 1; 1]%nat) = Some (PUBACK, buf', trp', t')
    /\ MQTTPacket_read socket (replicate 8 0) ([64; 2; 1; 7; 99], []) = Some (PUBACK, buf', (pending t', []))
    /\ buf' = [64; 2; 1; 7; 0; 0; 0; 0] /\ t_state trp' = 0 /\ pending t' = [99].
Proof.
  destruct (readnb_reassembles socket 64 [1; 7] [99] (replicate 8 0) (mkTransport 0 0 0 0)
              ([64; 2; 1; 7; 99], [0; 1; 0; 1; 1]%nat)) as (buf' & trp' & t' & E1 & E2 & E3 & E4 & E5).
  - by vm_compute.
  - by vm_compute.
  - by vm_compute.
  - done.
  - done.
  - exists buf', trp', t'. split; [exact E1|]. split; [exact E2|]. split; [rewrite E3; by vm_compute|]. by split.
Defined.
