(* ===== verification/MqttClient.v ===== *)
(** * The MQTT client (components/mqtt/src/MQTTClient.c)

    The client over an abstract platform: the clock ([os_systime]) and the two
    function pointers of [MQTTNetwork], which the sockets, TLS and WebSocket
    back ends set.  A step of the client changes the client, the platform and
    the list of the calls of message handlers; a handler is known by its name
    and does not change the client.  [None] is undefined behaviour (an access
    outside of a buffer) or a loop that used up its [rounds].  The code is
    compiled without [MQTT_TASK]. *)

From S2P Require Import Prelude BasicJson MqttPacket MqttCodec MqttRead.

(** ** Data (MQTTClient.h, mqtt_platform.h) *)

Definition MAX_PACKET_ID : Z := 65535.
Definition MAX_MESSAGE_HANDLERS : nat := 5.

Definition QOS0 : Z := 0.
Definition QOS1 : Z := 1.
Definition QOS2 : Z := 2.
Definition SUBFAIL : Z := 128.

Definition BUFFER_OVERFLOW : Z := -2.
Definition FAILURE : Z := -1.
Definition SUCCESS : Z := 0.

(** [m_id] is [None] while the field is not set; [m_payload] is the memory from
    the payload on. *)
Record MQTTMessage := mkMessage {
  m_qos : Z; m_retained : Z; m_dup : Z; m_id : option Z; m_payload : bytes; m_payloadlen : Z;
}.

Definition handler : Type := Z.

Record MessageHandler := mkHandler { topicFilter : option bytes; fp : option handler }.

Definition MQTTTimer : Type := Z.

Record MQTTClient := mkClient {
  next_packetid : Z;
  command_timeout_ms : Z;
  c_buf : bytes;
  readbuf : bytes;
  c_keepAlive : Z;
  ping_outstanding : Z;
  isconnected : Z;
  c_cleansession : Z;
  messageHandlers : list MessageHandler;
  defaultMessageHandler : option handler;
  last_sent : MQTTTimer;
  last_received : MQTTTimer;
}.

(** ** The platform *)

Class Platform (W : Type) := {
  os_systime : W -> Z * W;
  (** the number of bytes asked for and the time-out *)
  mqttread : Z -> Z -> W -> Z * bytes * W;
  (** the bytes to send and the time-out *)
  mqttwrite : bytes -> Z -> W -> Z * W;
}.

Record mstate (W : Type) := mkState {
  cl : MQTTClient;
  net : W;
  calls : list (handler * MQTTString * MQTTMessage);
}.
Arguments mkState {W} _ _ _.
Arguments cl {W} _.
Arguments net {W} _.
Arguments calls {W} _.

(** ** The monad *)

Definition C (W A : Type) : Type := mstate W -> option (A * mstate W).

Definition c_ret {W A} (a : A) : C W A := fun s => Some (a, s).
Definition c_bind {W A B} (m : C W A) (f : A -> C W B) : C W B := fun s =>
  match m s with Some (a, s') => f a s' | None => None end.
Definition c_get {W} : C W MQTTClient := fun s => Some (cl s, s).
Definition c_put {W} (c : MQTTClient) : C W unit := fun s => Some (tt, mkState c (net s) (calls s)).
Definition c_undefined {W A} : C W A := fun _ => None.
Definition c_some {W A} (o : option A) : C W A := fun s => match o with Some a => Some (a, s) | None => None end.
Definition c_net {W A} (f : W -> A * W) : C W A := fun s =>
  let '(a, w) := f (net s) in Some (a, mkState (cl s) w (calls s)).
Definition c_call {W} (h : handler) (topic : MQTTString) (m : MQTTMessage) : C W unit := fun s =>
  Some (tt, mkState (cl s) (net s) (calls s ++ [(h, topic, m)])).

Declare Scope mqtt_scope.
Delimit Scope mqtt_scope with mqtt.
Notation "'let*' x := m 'in' k" := (c_bind m (fun x => k))
  (at level 10, x pattern, m at level 200, k at level 200) : mqtt_scope.
Notation "'do*' m 'in' k" := (c_bind m (fun _ => k)) (at level 10, m at level 200, k at level 200) : mqtt_scope.
Open Scope mqtt_scope.

(** ** Fields *)

Definition set_next_packetid (v : Z) (c : MQTTClient) : MQTTClient :=
  mkClient v (command_timeout_ms c) (c_buf c) (readbuf c) (c_keepAlive c) (ping_outstanding c) (isconnected c)
    (c_cleansession c) (messageHandlers c) (defaultMessageHandler c) (last_sent c) (last_received c).
Definition set_buf (v : bytes) (c : MQTTClient) : MQTTClient :=
  mkClient (next_packetid c) (command_timeout_ms c) v (readbuf c) (c_keepAlive c) (ping_outstanding c) (isconnected c)
    (c_cleansession c) (messageHandlers c) (defaultMessageHandler c) (last_sent c) (last_received c).
Definition set_readbuf (v : bytes) (c : MQTTClient) : MQTTClient :=
  mkClient (next_packetid c) (command_timeout_ms c) (c_buf c) v (c_keepAlive c) (ping_outstanding c) (isconnected c)
    (c_cleansession c) (messageHandlers c) (defaultMessageHandler c) (last_sent c) (last_received c).
Definition set_session (keep clean : Z) (c : MQTTClient) : MQTTClient :=
  mkClient (next_packetid c) (command_timeout_ms c) (c_buf c) (readbuf c) keep (ping_outstanding c) (isconnected c)
    clean (messageHandlers c) (defaultMessageHandler c) (last_sent c) (last_received c).
Definition set_ping (v : Z) (c : MQTTClient) : MQTTClient :=
  mkClient (next_packetid c) (command_timeout_ms c) (c_buf c) (readbuf c) (c_keepAlive c) v (isconnected c)
    (c_cleansession c) (messageHandlers c) (defaultMessageHandler c) (last_sent c) (last_received c).
Definition set_connected (v : Z) (c : MQTTClient) : MQTTClient :=
  mkClient (next_packetid c) (command_timeout_ms c) (c_buf c) (readbuf c) (c_keepAlive c) (ping_outstanding c) v
    (c_cleansession c) (messageHandlers c) (defaultMessageHandler c) (last_sent c) (last_received c).
Definition set_handlers (v : list MessageHandler) (c : MQTTClient) : MQTTClient :=
  mkClient (next_packetid c) (command_timeout_ms c) (c_buf c) (readbuf c) (c_keepAlive c) (ping_outstanding c) (isconnected c)
    (c_cleansession c) v (defaultMessageHandler c) (last_sent c) (last_received c).
Definition set_last_sent (v : MQTTTimer) (c : MQTTClient) : MQTTClient :=
  mkClient (next_packetid c) (command_timeout_ms c) (c_buf c) (readbuf c) (c_keepAlive c) (ping_outstanding c) (isconnected c)
    (c_cleansession c) (messageHandlers c) (defaultMessageHandler c) v (last_received c).
Definition set_last_received (v : MQTTTimer) (c : MQTTClient) : MQTTClient :=
  mkClient (next_packetid c) (command_timeout_ms c) (c_buf c) (readbuf c) (c_keepAlive c) (ping_outstanding c) (isconnected c)
    (c_cleansession c) (messageHandlers c) (defaultMessageHandler c) (last_sent c) v.

Definition modify {W} (f : MQTTClient -> MQTTClient) : C W unit := fun s => Some (tt, mkState (f (cl s)) (net s) (calls s)).

(** ** Topics *)

Definition SLASH : Z := 47.
Definition PLUS : Z := 43.
Definition HASH : Z := 35.

(** From [nextpos] to the next separator or the end of the name. *)
Fixpoint next_level (name : bytes) : bytes :=
  match name with [] => [] | c :: cs => if c =? SLASH then name else next_level cs end.

Fixpoint match_loop (curf curn : bytes) : bool :=
  match curf, curn with
  | [], [] => true
  | [], _ :: _ => false
  | _ :: _, [] => false
  | f :: fs, c :: cs =>
      if (c =? SLASH) && negb (f =? SLASH) then false
      else if negb (f =? PLUS) && negb (f =? HASH) && negb (f =? c) then false
      else if f =? PLUS then match_loop fs (next_level cs)
      else if f =? HASH then match_loop fs []
      else match_loop fs cs
  end.

Definition isTopicMatched (filter : bytes) (topicName : MQTTString) : bool :=
  match_loop filter (take (Z.to_nat (ls_len topicName)) (default [] (ls_data topicName))).

(** ** Timers (mqtt_platform.c) *)

Definition time_after_eq (a b : Z) : bool := 0 <=? s32 (u32 (a - b)).

Section Client.
Context {W : Type} `{Platform W}.
Context (rounds : nat).

Definition _mqtt_timer_init : MQTTTimer := 0.

Definition _mqtt_timer_countdown_ms (timeout_ms : Z) : C W MQTTTimer :=
  let* now := c_net os_systime in c_ret (u32 (now + u32 (timeout_ms * 1000))).

Definition _mqtt_timer_countdown (timeout : Z) : C W MQTTTimer :=
  let* now := c_net os_systime in c_ret (u32 (now + u32 (timeout * 1000000))).

Definition _mqtt_timer_left_ms (timer : MQTTTimer) : C W Z :=
  let* now := c_net os_systime in
  c_ret (if timer <=? now then 0 else s32 (u32 (timer - now) / 1000)).

Definition _mqtt_timer_is_expired (timer : MQTTTimer) : C W bool :=
  let* now := c_net os_systime in c_ret (time_after_eq now timer).

(** ** Packets out and in *)

Definition getNextPacketId : C W Z :=
  let* c := c_get in
  let id := if next_packetid c =? MAX_PACKET_ID then 1 else u32 (next_packetid c + 1) in
  do* modify (set_next_packetid id) in c_ret id.

(** Each write is offered [length] bytes from [buf + sent] on. *)
Fixpoint send_loop (fuel : nat) (length sent : Z) (timer : MQTTTimer) : C W Z :=
  match fuel with
  | O => c_undefined
  | S fuel' =>
      if sent <? length then
        let* expired := _mqtt_timer_is_expired timer in
        if expired : bool then c_ret sent
        else
          let* c := c_get in
          let* ms := _mqtt_timer_left_ms timer in
          if zlen (c_buf c) <? sent + length then c_undefined
          else
            let* rc := c_net (mqttwrite (take (Z.to_nat length) (drop (Z.to_nat sent) (c_buf c))) ms) in
            if rc <? 0 then c_ret sent else send_loop fuel' length (sent + rc) timer
      else c_ret sent
  end.

Definition sendPacket (length : Z) (timer : MQTTTimer) : C W Z :=
  let* sent := send_loop rounds length 0 timer in
  if sent =? length then
    let* c := c_get in
    let* t := _mqtt_timer_countdown (c_keepAlive c) in
    do* modify (set_last_sent t) in c_ret SUCCESS
  else c_ret FAILURE.

(** The source of [decodePacket]. *)
Definition netchar (timeout : Z) : source W := fun n w => Some (mqttread n timeout w).

(** The value; the loop is that of [MQTTPacket_decode]. *)
Definition decodePacket (timeout : Z) : C W Z := fun s =>
  match decode_loop (netchar timeout) 5 1 0 0 (net s) with
  | Some (len, value, w) => Some (value, mkState (cl s) w (calls s))
  | None => None
  end.

(** [mqttread(ipstack, readbuf + off, n, timeout)] *)
Definition read_into (off n timeout : Z) : C W Z :=
  let* (rc, cs) := c_net (fun w => let '(rc, cs, w) := mqttread n timeout w in ((rc, cs), w)) in
  let* c := c_get in
  let* b := c_some (store (readbuf c) off cs) in
  do* modify (set_readbuf b) in c_ret rc.

Definition readPacket (timer : MQTTTimer) : C W Z :=
  let* ms := _mqtt_timer_left_ms timer in
  let* rc := read_into 0 1 ms in
  if negb (rc =? 1) then c_ret rc
  else
    let* ms := _mqtt_timer_left_ms timer in
    let* rem_len := decodePacket ms in
    let* c := c_get in
    let* b := c_some (store (readbuf c) 1 (MQTTPacket_encode rem_len)) in
    do* modify (set_readbuf b) in
    let len := 1 + zlen (MQTTPacket_encode rem_len) in
    if u32 (zlen b - len) <? u32 rem_len then c_ret BUFFER_OVERFLOW
    else
      let received :=
        let* c := c_get in
        do* (if 0 <? c_keepAlive c
             then let* t := _mqtt_timer_countdown (c_keepAlive c) in modify (set_last_received t)
             else c_ret tt) in
        c_ret (header_type (bget (readbuf c) 0)) in
      if 0 <? rem_len then
        let* ms := _mqtt_timer_left_ms timer in
        let* got := read_into len rem_len ms in
        if negb (got =? rem_len) then c_ret 0 else received
      else received.

(** ** Delivery *)

Definition filter_matches (mh : MessageHandler) (topicName : MQTTString) : bool :=
  match topicFilter mh with
  | None => false
  | Some f => MQTTPacket_equals topicName f || isTopicMatched f topicName
  end.

Fixpoint deliver_loop (mhs : list MessageHandler) (topicName : MQTTString) (message : MQTTMessage) (rc : Z) : C W Z :=
  match mhs with
  | [] => c_ret rc
  | mh :: mhs' =>
      if filter_matches mh topicName then
        match fp mh with
        | Some h => do* c_call h topicName message in deliver_loop mhs' topicName message SUCCESS
        | None => deliver_loop mhs' topicName message rc
        end
      else deliver_loop mhs' topicName message rc
  end.

Definition _mqtt_deliverMessage (topicName : MQTTString) (message : MQTTMessage) : C W Z :=
  let* c := c_get in
  let* rc := deliver_loop (messageHandlers c) topicName message FAILURE in
  match defaultMessageHandler c with
  | Some h => if rc =? FAILURE then do* c_call h topicName message in c_ret SUCCESS else c_ret rc
  | None => c_ret rc
  end.

(** A serialiser on the send buffer. *)
Definition into_buf (f : bytes -> option (Z * bytes)) : C W Z :=
  let* c := c_get in
  let* (len, b) := c_some (f (c_buf c)) in
  do* modify (set_buf b) in c_ret len.

Definition _mqtt_keepalive : C W Z :=
  let* c := c_get in
  if c_keepAlive c =? 0 then c_ret SUCCESS
  else
    let* expired := _mqtt_timer_is_expired (last_sent c) in
    if expired : bool then
      let* timer := _mqtt_timer_countdown_ms 1000 in
      let* len := into_buf MQTTSerialize_pingreq in
      if 0 <? len then
        let* rc := sendPacket len timer in
        if rc =? SUCCESS then do* modify (set_ping 1) in c_ret rc else c_ret rc
      else c_ret SUCCESS
    else c_ret SUCCESS.

Definition MQTTCleanSession : C W unit :=
  modify (fun c => set_handlers (map (fun mh => mkHandler None (fp mh)) (messageHandlers c)) c).

Definition MQTTCloseSession : C W unit :=
  do* modify (set_ping 0) in
  do* modify (set_connected 0) in
  let* c := c_get in
  if negb (c_cleansession c =? 0) then MQTTCleanSession else c_ret tt.

(** ** One round of the client *)

(** An incoming [PUBLISH]: the result and whether the switch was left through
    [exit]. *)
Definition cycle_publish (timer : MQTTTimer) : C W (Z * bool) :=
  let* c := c_get in
  let* (rc, out) := c_some (MQTTDeserialize_publish (readbuf c)) in
  if negb (rc =? 1) then c_ret (SUCCESS, true)
  else
    match out with
    | Some (mkPublish dup qos retained (Some topic) id (Some (payload, len))) =>
        do* _mqtt_deliverMessage topic (mkMessage qos retained dup id payload (u32 len)) in
        if qos =? QOS0 then c_ret (SUCCESS, false)
        else
          let* len :=
            (if qos =? QOS1 then into_buf (fun b => MQTTSerialize_ack b PUBACK 0 (default 0 id))
             else if qos =? QOS2 then into_buf (fun b => MQTTSerialize_ack b PUBREC 0 (default 0 id))
             else c_ret 0) in
          let* rc := (if len <=? 0 then c_ret FAILURE else sendPacket len timer) in
          c_ret (rc, rc =? FAILURE)
    | _ => c_undefined
    end.

(** An incoming [PUBREC] or [PUBREL]. *)
Definition cycle_release (packet_type : Z) (timer : MQTTTimer) : C W (Z * bool) :=
  let* c := c_get in
  let* (rc, (_, _, id)) := c_some (MQTTDeserialize_ack (readbuf c)) in
  let* rc :=
    (if negb (rc =? 1) then c_ret FAILURE
     else
       match id with
       | None => c_undefined
       | Some id =>
           let* len := into_buf (fun b => MQTTSerialize_ack b (if packet_type =? PUBREC then PUBREL else PUBCOMP) 0 id) in
           if len <=? 0 then c_ret FAILURE
           else let* rc := sendPacket len timer in c_ret (if negb (rc =? SUCCESS) then FAILURE else rc)
       end) in
  c_ret (rc, rc =? FAILURE).

(** The [switch] of [_mqtt_cycle]. *)
Definition cycle_switch (packet_type : Z) (timer : MQTTTimer) : C W (Z * bool) :=
  if (packet_type =? 0) || (packet_type =? CONNACK) || (packet_type =? PUBACK) || (packet_type =? SUBACK)
     || (packet_type =? UNSUBACK) || (packet_type =? PUBCOMP) then c_ret (SUCCESS, false)
  else if packet_type =? PUBLISH then cycle_publish timer
  else if (packet_type =? PUBREC) || (packet_type =? PUBREL) then cycle_release packet_type timer
  else if packet_type =? PINGRESP then do* modify (set_ping 0) in c_ret (SUCCESS, false)
  else c_ret (packet_type, true).

Definition _mqtt_cycle (timer : MQTTTimer) : C W Z :=
  let* packet_type := readPacket timer in
  let* (rc, leaves) := cycle_switch packet_type timer in
  let* rc :=
    (if leaves : bool then c_ret rc
     else let* k := _mqtt_keepalive in c_ret (if negb (k =? SUCCESS) then FAILURE else rc)) in
  if rc =? SUCCESS then c_ret packet_type
  else
    let* c := c_get in
    do* (if negb (isconnected c =? 0) then MQTTCloseSession else c_ret tt) in
    c_ret rc.

Fixpoint yield_loop (fuel : nat) (timer : MQTTTimer) : C W Z :=
  match fuel with
  | O => c_undefined
  | S fuel' =>
      let* rc := _mqtt_cycle timer in
      if rc <? 0 then c_ret FAILURE
      else
        let* expired := _mqtt_timer_is_expired timer in
        if expired : bool then c_ret SUCCESS else yield_loop fuel' timer
  end.

Definition MQTTYield (timeout_ms : Z) : C W Z :=
  let* timer := _mqtt_timer_countdown_ms timeout_ms in
  yield_loop rounds timer.

(** [rc] is the result so far. *)
Fixpoint waitfor_loop (fuel : nat) (packet_type : Z) (timer : MQTTTimer) (rc : Z) : C W Z :=
  match fuel with
  | O => c_undefined
  | S fuel' =>
      let* expired := _mqtt_timer_is_expired timer in
      if expired : bool then c_ret rc
      else
        let* rc := _mqtt_cycle timer in
        if negb (rc =? packet_type) && (0 <=? rc) then waitfor_loop fuel' packet_type timer rc else c_ret rc
  end.

Definition _mqtt_waitfor (packet_type : Z) (timer : MQTTTimer) : C W Z := waitfor_loop rounds packet_type timer FAILURE.

(** ** The calls of the application *)

(** The fields that are not mentioned keep their values. *)
Definition MQTTClientInit (timeout_ms : Z) (sendbuf rbuf : bytes) : C W unit :=
  modify (fun c =>
    mkClient 1 timeout_ms sendbuf rbuf (c_keepAlive c) 0 0 0
      (map (fun mh => mkHandler None (fp mh)) (messageHandlers c)) None _mqtt_timer_init _mqtt_timer_init).

(** The result, and the return code and session flag when they were stored. *)
Definition MQTTConnectWithResults (options : option MQTTPacket_connectData) : C W (Z * option (Z * Z)) :=
  let* c := c_get in
  if negb (isconnected c =? 0) then c_ret (FAILURE, None)
  else
    let* timer := _mqtt_timer_countdown_ms (command_timeout_ms c) in
    let options := default MQTTPacket_connectData_initializer options in
    do* modify (set_session (keepAliveInterval options) (cleansession options)) in
    let* t := _mqtt_timer_countdown (keepAliveInterval options) in
    do* modify (set_last_received t) in
    let* len := into_buf (fun b => MQTTSerialize_connect b options) in
    let* (rc, data) :=
      (if len <=? 0 then c_ret (FAILURE, None)
       else
         let* rc := sendPacket len timer in
         if negb (rc =? SUCCESS) then c_ret (rc, None)
         else
           let* got := _mqtt_waitfor CONNACK timer in
           if got =? CONNACK then
             let* c := c_get in
             let* (r, out) := c_some (MQTTDeserialize_connack (readbuf c)) in
             let '(session, code) := default (0, 0) out in
             c_ret (if r =? 1 then code else FAILURE, Some (code, session))
           else c_ret (FAILURE, None)) in
    do* (if rc =? SUCCESS then do* modify (set_connected 1) in modify (set_ping 0) else c_ret tt) in
    c_ret (rc, data).

Definition MQTTConnect (options : option MQTTPacket_connectData) : C W Z :=
  let* (rc, _) := MQTTConnectWithResults options in c_ret rc.

End Client.

(** The first slot that [p] accepts. *)
Fixpoint find_slot (p : MessageHandler -> bool) (mhs : list MessageHandler) : option nat :=
  match mhs with
  | [] => None
  | mh :: mhs' => if p mh then Some O else option_map S (find_slot p mhs')
  end.

Definition has_filter (f : bytes) (mh : MessageHandler) : bool :=
  match topicFilter mh with Some g => bool_decide (g = f) | None => false end.

Definition is_free (mh : MessageHandler) : bool := match topicFilter mh with None => true | Some _ => false end.

Definition MQTTSetMessageHandler (mhs : list MessageHandler) (filter : bytes) (messageHandler : option handler)
  : Z * list MessageHandler :=
  match find_slot (has_filter filter) mhs, messageHandler with
  | Some i, None => (SUCCESS, <[i := mkHandler None None]> mhs)
  | Some i, Some h => (SUCCESS, <[i := mkHandler (Some filter) (Some h)]> mhs)
  | None, None => (FAILURE, mhs)
  | None, Some h =>
      match find_slot is_free mhs with
      | Some i => (SUCCESS, <[i := mkHandler (Some filter) (Some h)]> mhs)
      | None => (FAILURE, mhs)
      end
  end.

Section Calls.
Context {W : Type} `{Platform W}.
Context (rounds : nat).

Definition set_message_handler (filter : bytes) (h : option handler) : C W Z :=
  let* c := c_get in
  let '(rc, mhs) := MQTTSetMessageHandler (messageHandlers c) filter h in
  do* modify (set_handlers mhs) in c_ret rc.

Definition cstr (s : bytes) : MQTTString := mkString (Some s) 0 None.

(** The label [exit] of the calls below. *)
Definition close_on_failure (rc : Z) : C W unit := if rc =? FAILURE then MQTTCloseSession else c_ret tt.

(** The result and the quality of service granted when it was stored; a second
    value stored would be outside of [data]. *)
Definition MQTTSubscribeWithResults (filter : bytes) (qos : Z) (messageHandler : option handler) : C W (Z * option Z) :=
  let* c := c_get in
  let* (rc, data) :=
    (if isconnected c =? 0 then c_ret (FAILURE, None)
     else
       let* timer := _mqtt_timer_countdown_ms (command_timeout_ms c) in
       let* id := getNextPacketId in
       let* len := into_buf (fun b => MQTTSerialize_subscribe b 0 (u16 id) [(cstr filter, qos)]) in
       if len <=? 0 then c_ret (FAILURE, None)
       else
         let* rc := sendPacket rounds len timer in
         if negb (rc =? SUCCESS) then c_ret (rc, None)
         else
           let* got := _mqtt_waitfor rounds SUBACK timer in
           if got =? SUBACK then
             let* c := c_get in
             let* (r, out) := c_some (MQTTDeserialize_suback (readbuf c) 1) in
             let qs := match out with Some (_, qs) => qs | None => [] end in
             if 1 <? zlen qs then c_undefined
             else
               let granted := nth 0 qs QOS0 in
               if (r =? 1) && negb (granted =? SUBFAIL)
               then let* rc := set_message_handler filter messageHandler in c_ret (rc, Some granted)
               else c_ret (rc, Some granted)
           else c_ret (FAILURE, None)) in
  do* close_on_failure rc in
  c_ret (rc, data).

Definition MQTTSubscribe (filter : bytes) (qos : Z) (messageHandler : option handler) : C W Z :=
  let* (rc, _) := MQTTSubscribeWithResults filter qos messageHandler in c_ret rc.

Definition MQTTUnsubscribe (filter : bytes) : C W Z :=
  let* c := c_get in
  let* rc :=
    (if isconnected c =? 0 then c_ret FAILURE
     else
       let* timer := _mqtt_timer_countdown_ms (command_timeout_ms c) in
       let* id := getNextPacketId in
       let* len := into_buf (fun b => MQTTSerialize_unsubscribe b 0 (u16 id) [cstr filter]) in
       if len <=? 0 then c_ret FAILURE
       else
         let* rc := sendPacket rounds len timer in
         if negb (rc =? SUCCESS) then c_ret rc
         else
           let* got := _mqtt_waitfor rounds UNSUBACK timer in
           if got =? UNSUBACK then
             let* c := c_get in
             let* (r, _) := c_some (MQTTDeserialize_unsuback (readbuf c)) in
             do* (if r =? 1 then set_message_handler filter None else c_ret 0) in
             c_ret rc
           else c_ret FAILURE) in
  do* close_on_failure rc in
  c_ret rc.

(** The acknowledgement of [MQTTPublish]. *)
Definition wait_ack (packet_type : Z) (timer : MQTTTimer) (rc : Z) : C W Z :=
  let* got := _mqtt_waitfor rounds packet_type timer in
  if got =? packet_type then
    let* c := c_get in
    let* (r, _) := c_some (MQTTDeserialize_ack (readbuf c)) in
    c_ret (if negb (r =? 1) then FAILURE else rc)
  else c_ret FAILURE.

(** The result and the message, whose identifier is set. *)
Definition MQTTPublish (topicName : bytes) (message : MQTTMessage) : C W (Z * MQTTMessage) :=
  let* c := c_get in
  let* (rc, message) :=
    (if isconnected c =? 0 then c_ret (FAILURE, message)
     else
       let* timer := _mqtt_timer_countdown_ms (command_timeout_ms c) in
       let* message :=
         (if (m_qos message =? QOS1) || (m_qos message =? QOS2) then
            let* id := getNextPacketId in
            c_ret (mkMessage (m_qos message) (m_retained message) (m_dup message) (Some (u16 id)) (m_payload message) (m_payloadlen message))
          else c_ret message) in
       let* len := into_buf (fun b =>
         if zlen (m_payload message) <? m_payloadlen message then None
         else MQTTSerialize_publish b 0 (m_qos message) (m_retained message) (default 0 (m_id message)) (cstr topicName)
                (take (Z.to_nat (m_payloadlen message)) (m_payload message))) in
       if len <=? 0 then c_ret (FAILURE, message)
       else
         let* rc := sendPacket rounds len timer in
         if negb (rc =? SUCCESS) then c_ret (rc, message)
         else if m_qos message =? QOS1 then let* rc := wait_ack PUBACK timer rc in c_ret (rc, message)
         else if m_qos message =? QOS2 then let* rc := wait_ack PUBCOMP timer rc in c_ret (rc, message)
         else c_ret (rc, message)) in
  do* close_on_failure rc in
  c_ret (rc, message).

Definition MQTTDisconnect : C W Z :=
  let* c := c_get in
  let* timer := _mqtt_timer_countdown_ms (command_timeout_ms c) in
  let* len := into_buf MQTTSerialize_disconnect in
  let* rc := (if 0 <? len then sendPacket rounds len timer else c_ret FAILURE) in
  do* MQTTCloseSession in
  c_ret rc.

End Calls.
