(* ===== verification/MqttTopics.v ===== *)
(** * Subscriptions of the MQTT client

    The matching of topic filters by characters agrees with a matching by
    levels, and the table of message handlers is a finite map of limited size
    from filters to handlers. *)

From S2P Require Import Prelude BasicJson MqttPacket MqttCodec MqttRoundTrip MqttRead MqttClient.

(** ** Topic levels *)

(** The levels of a topic, which are separated by slashes. *)
Fixpoint levels (s : bytes) : list bytes :=
  match s with
  | [] => [[]]
  | c :: cs =>
      if c =? SLASH then [] :: levels cs
      else match levels cs with l :: ls => (c :: l) :: ls | [] => [[c]] end
  end.

(** [+] stands for one level and [#] for the rest of the levels, of which the
    first is not empty. *)
Fixpoint levels_match (fs ns : list bytes) : bool :=
  match fs, ns with
  | [], [] => true
  | f :: fs', n :: ns' =>
      if bool_decide (f = [HASH]) then negb (bool_decide (n = []))
      else if bool_decide (f = [PLUS]) then negb (bool_decide (n = [])) && levels_match fs' ns'
      else bool_decide (f = n) && levels_match fs' ns'
  | _, _ => false
  end.

Definition plain (l : bytes) : Prop := Forall (fun c => c <> SLASH /\ c <> PLUS /\ c <> HASH) l.

#[global] Instance plain_dec l : Decision (plain l).
Proof. unfold plain. apply _. Defined.

(** A filter in the format the code assumes: a wildcard is a level of its own,
    and [#] is the last level. *)
Fixpoint wf_filter (fs : list bytes) : Prop :=
  match fs with
  | [] => True
  | f :: fs' => (plain f \/ f = [PLUS] \/ (f = [HASH] /\ fs' = [])) /\ wf_filter fs'
  end.

(** What follows the first level. *)
Fixpoint tails (ls : list bytes) : bytes :=
  match ls with [] => [] | l :: ls' => SLASH :: l ++ tails ls' end.

Definition no_slash (l : bytes) : Prop := Forall (fun c => c <> SLASH) l.

Lemma levels_join s : exists l ls, levels s = l :: ls /\ s = l ++ tails ls /\ Forall no_slash (l :: ls).
Proof.
  induction s as [|c cs (l & ls & E & Ej & Hf)]; cbn [levels].
  - exists [], []. repeat split. by repeat constructor.
  - destruct (Z.eqb_spec c SLASH) as [->|Hc].
    + exists [], (levels cs). rewrite E. cbn [tails app]. rewrite <- Ej. repeat split. constructor; [constructor|done].
    + rewrite E. exists (c :: l), ls. cbn [app]. rewrite <- Ej. repeat split.
      inversion Hf; subst. constructor; [by constructor|done].
Qed.

Lemma next_level_skip n ns : no_slash n -> next_level (n ++ tails ns) = tails ns.
Proof.
  induction 1 as [|c n Hc _ IH]; cbn [app].
  - by destruct ns.
  - cbn [next_level]. by rewrite (proj2 (Z.eqb_neq _ _) Hc).
Qed.

(** A level without wildcards against the first level of a name. *)
Lemma match_plain f : forall fs n ns,
  plain f -> no_slash n ->
  match_loop (f ++ tails fs) (n ++ tails ns) = bool_decide (f = n) && match_loop (tails fs) (tails ns).
Proof.
  induction f as [|x f IH]; intros fs n ns Hf Hn.
  - destruct n as [|c n]; [done|]. inversion Hn as [|? ? Hc _]; subst. rewrite bool_decide_false by done. cbn [app andb].
    destruct fs as [|g fs]; [done|]. cbn [tails match_loop]. rewrite (proj2 (Z.eqb_neq c SLASH) Hc). cbn [andb].
    by rewrite (proj2 (Z.eqb_neq SLASH c)) by done.
  - inversion Hf as [|? ? (H1 & H2 & H3) Hf']; subst. cbn [app].
    destruct n as [|c n]; cbn [app].
    + rewrite bool_decide_false by done. cbn [andb]. destruct ns as [|m ns]; [done|]. cbn [tails match_loop].
      by rewrite Z.eqb_refl, (proj2 (Z.eqb_neq x SLASH) H1).
    + inversion Hn as [|? ? Hc Hn']; subst. cbn [match_loop].
      rewrite (proj2 (Z.eqb_neq c SLASH) Hc), (proj2 (Z.eqb_neq x PLUS) H2), (proj2 (Z.eqb_neq x HASH) H3). cbn [andb negb].
      destruct (Z.eqb_spec x c) as [->|Hne]; cbn [negb].
      * rewrite IH by done. f_equal. apply bool_decide_ext. split; [by intros ->|by injection 1].
      * rewrite bool_decide_false by (by injection 1). done.
Qed.

Lemma plain_not_wild f : plain f -> f <> [PLUS] /\ f <> [HASH].
Proof. intros Hp. split; intros ->; inversion Hp as [|? ? (? & ? & ?) _]; subst; done. Qed.

Lemma match_plus fs n ns :
  no_slash n -> match_loop (PLUS :: tails fs) (n ++ tails ns) = negb (bool_decide (n = [])) && match_loop (tails fs) (tails ns).
Proof.
  intros Hn. destruct n as [|c n].
  - by destruct ns.
  - inversion Hn as [|? ? Hc Hn']; subst. rewrite bool_decide_false by done. cbn [app match_loop].
    rewrite (proj2 (Z.eqb_neq c SLASH) Hc). cbn [andb negb Z.eqb PLUS Pos.eqb]. by rewrite next_level_skip.
Qed.

Lemma match_hash n ns : no_slash n -> match_loop [HASH] (n ++ tails ns) = negb (bool_decide (n = [])).
Proof.
  intros Hn. destruct n as [|c n]; [by destruct ns|]. inversion Hn as [|? ? Hc Hn']; subst.
  rewrite bool_decide_false by done. cbn [app match_loop]. by rewrite (proj2 (Z.eqb_neq c SLASH) Hc).
Qed.

Lemma levels_cons f fs n ns :
  levels_match (f :: fs) (n :: ns)
  = if bool_decide (f = [HASH]) then negb (bool_decide (n = []))
    else if bool_decide (f = [PLUS]) then negb (bool_decide (n = [])) && levels_match fs ns
    else bool_decide (f = n) && levels_match fs ns.
Proof. done. Qed.

Lemma match_levels fs : forall f n ns,
  wf_filter (f :: fs) -> Forall no_slash (n :: ns) ->
  match_loop (f ++ tails fs) (n ++ tails ns) = levels_match (f :: fs) (n :: ns).
Proof.
  induction fs as [|g fs IH]; intros f n ns [Hf Hwf] Hns; inversion Hns as [|? ? Hn Hns']; subst; rewrite levels_cons.
  - assert (Hb : match_loop (tails []) (tails ns) = levels_match [] ns) by (by destruct ns).
    destruct Hf as [Hf|[->|[-> _]]].
    + destruct (plain_not_wild f Hf). rewrite (bool_decide_false (f = [HASH])), (bool_decide_false (f = [PLUS])), <- Hb by done.
      by apply match_plain.
    + rewrite (bool_decide_false ([PLUS] = [HASH])), (bool_decide_true ([PLUS] = [PLUS])), <- Hb by done. by apply match_plus.
    + rewrite (bool_decide_true ([HASH] = [HASH])) by done. by apply match_hash.
  - assert (Hb : match_loop (tails (g :: fs)) (tails ns) = levels_match (g :: fs) ns).
    { destruct ns as [|m ms]; [done|]. rewrite <- IH by done. done. }
    destruct Hf as [Hf|[->|[_ Hnil]]]; [| |done].
    + destruct (plain_not_wild f Hf). rewrite (bool_decide_false (f = [HASH])), (bool_decide_false (f = [PLUS])), <- Hb by done.
      by apply match_plain.
    + rewrite (bool_decide_false ([PLUS] = [HASH])), (bool_decide_true ([PLUS] = [PLUS])), <- Hb by done. by apply match_plus.
Qed.

(** C38: the comparison of a topic with a filter, which works character by
    character with two pointers, is the comparison level by level: a level
    without wildcard matches itself, [+] one level that is not empty, and [#] at
    the end all the levels that follow, of which the first is not empty. *)
Theorem topic_matches filter name :
  wf_filter (levels filter) -> isTopicMatched filter (string_of name) = levels_match (levels filter) (levels name).
Proof.
  intros Hwf. unfold isTopicMatched, string_of. cbn [ls_len ls_data default]. unfold zlen. rewrite Nat2Z.id, firstn_all.
  destruct (levels_join filter) as (f & fs & Ef & Ejf & _). destruct (levels_join name) as (n & ns & En & Ejn & Hns).
  rewrite Ef, En in *. rewrite Ejf, Ejn. by apply match_levels.
Qed.

Lemma topic_matches_witness :
  isTopicMatched (str "home/+/temp/#") (string_of (str "home/kitchen/temp/now"))
  = levels_match (levels (str "home/+/temp/#")) (levels (str "home/kitchen/temp/now")).
Proof.
  apply topic_matches.
  repeat split; (by left; apply (bool_decide_unpack _); vm_compute) || (by right; left) || (by right; right).
Defined.

(** ** The table of message handlers *)

Definition entry (mh : MessageHandler) : option (bytes * handler) :=
  match topicFilter mh, fp mh with Some f, Some h => Some (f, h) | _, _ => None end.

Definition entries (mhs : list MessageHandler) : list (bytes * handler) := omap entry mhs.

(** The table as a finite map from filters to handlers. *)
Definition subscriptions (mhs : list MessageHandler) : gmap bytes handler := list_to_map (entries mhs).

(** A slot in use has a handler, and no filter is in two slots. *)
Definition table_ok (mhs : list MessageHandler) : Prop :=
  Forall (fun mh => topicFilter mh <> None -> fp mh <> None) mhs /\ NoDup (entries mhs).*1.

Lemma find_slot_Some p mhs i :
  find_slot p mhs = Some i -> exists l1 mh l2, mhs = l1 ++ mh :: l2 /\ length l1 = i /\ p mh = true.
Proof.
  revert i. induction mhs as [|mh mhs IH]; intros i; cbn [find_slot]; [done|].
  destruct (p mh) eqn:E.
  - intros [= <-]. by exists [], mh, mhs.
  - destruct (find_slot p mhs) as [j|]; [|done]. intros [= <-]. destruct (IH j eq_refl) as (l1 & x & l2 & -> & <- & Hx).
    by exists (mh :: l1), x, l2.
Qed.

Lemma find_slot_None p mhs : find_slot p mhs = None -> Forall (fun mh => p mh = false) mhs.
Proof.
  induction mhs as [|mh mhs IH]; cbn [find_slot]; [constructor|]. destruct (p mh) eqn:E; [done|].
  destruct (find_slot p mhs); [done|]. constructor; auto.
Qed.

Lemma entries_app l1 mh l2 :
  entries (l1 ++ mh :: l2) = entries l1 ++ match entry mh with Some e => e :: entries l2 | None => entries l2 end.
Proof. unfold entries. rewrite omap_app. by cbn [omap list_omap]; destruct (entry mh). Qed.

Lemma entries_cons mh l : entries (mh :: l) = match entry mh with Some e => e :: entries l | None => entries l end.
Proof. apply (entries_app [] mh l). Qed.

Lemma insert_slot {A} (l1 : list A) x y l2 : <[length l1 := y]> (l1 ++ x :: l2) = l1 ++ y :: l2.
Proof. rewrite insert_app_r_alt by lia. by rewrite Nat.sub_diag. Qed.

Lemma middle_map (a b : list (bytes * handler)) f h :
  NoDup (a ++ (f, h) :: b).*1 ->
  list_to_map (a ++ (f, h) :: b) =@{gmap bytes handler} <[f := h]> (list_to_map (a ++ b))
  /\ (list_to_map (a ++ b) : gmap bytes handler) !! f = None /\ NoDup (a ++ b).*1.
Proof.
  intros Hn. assert (Hp : a ++ (f, h) :: b ≡ₚ (f, h) :: a ++ b) by (by rewrite Permutation_middle).
  assert (Hn' : NoDup ((f, h) :: a ++ b).*1) by (by rewrite <- Hp). cbn [fmap list_fmap fst] in Hn'.
  apply NoDup_cons in Hn' as [Hf Hn']. split; [|split; [|done]].
  - by rewrite (list_to_map_proper _ ((f, h) :: a ++ b)).
  - by apply not_elem_of_list_to_map_1.
Qed.

(** The same keys around another value. *)
Lemma middle_keys (a b : list (bytes * handler)) f h h' : NoDup (a ++ (f, h) :: b).*1 -> NoDup (a ++ (f, h') :: b).*1.
Proof. by rewrite !fmap_app, !fmap_cons. Qed.

Lemma entries_length mhs : table_ok mhs -> Forall (fun mh => is_free mh = false) mhs -> length (entries mhs) = length mhs.
Proof.
  intros [Hok _] Hf. induction mhs as [|mh mhs IH]; [done|].
  inversion Hok as [|? ? H1 H2]; inversion Hf as [|? ? H3 H4]; subst. rewrite entries_cons.
  unfold entry. unfold is_free in H3. destruct (topicFilter mh); [|done]. destruct (fp mh); [|by exfalso; apply H1].
  cbn [length]. by rewrite IH.
Qed.

Lemma entries_le mhs : (length (entries mhs) <= length mhs)%nat.
Proof. induction mhs as [|mh mhs IH]; [done|]. rewrite entries_cons. destruct (entry mh); cbn [length]; lia. Qed.

Lemma size_subscriptions mhs : table_ok mhs -> size (subscriptions mhs) = length (entries mhs).
Proof.
  intros [_ Hn]. unfold subscriptions. rewrite <- length_map_to_list. apply Permutation_length. by apply map_to_list_to_map.
Qed.

Lemma unused_filter f mhs :
  Forall (fun mh => has_filter f mh = false) mhs -> f ∉ (entries mhs).*1.
Proof.
  intros H Hin. apply list_elem_of_fmap in Hin as ([g h] & -> & Hin). unfold entries in Hin.
  apply list_elem_of_omap in Hin as (mh & Hmh & E). rewrite Forall_forall in H. specialize (H _ Hmh).
  unfold entry in E. unfold has_filter in H. destruct (topicFilter mh), (fp mh); try done. injection E as -> ->.
  cbn in H. by rewrite bool_decide_true in H.
Qed.

Lemma slot_of_filter f mhs i :
  table_ok mhs -> find_slot (has_filter f) mhs = Some i ->
  exists l1 h mh l2, mhs = l1 ++ mh :: l2 /\ length l1 = i /\ entry mh = Some (f, h).
Proof.
  intros [Hok _] Hi. apply find_slot_Some in Hi as (l1 & mh & l2 & -> & <- & Hp).
  apply Forall_app in Hok as [_ Hok]. inversion Hok as [|? ? Hmh _]; subst.
  unfold has_filter in Hp. unfold entry. destruct mh as [[g|] [h|]]; cbn in *; [|by exfalso; apply Hmh|done|done].
  apply bool_decide_eq_true in Hp as ->. by exists l1, h, (mkHandler (Some f) (Some h)), l2.
Qed.

Lemma table_ok_at l1 mh l2 x :
  table_ok (l1 ++ mh :: l2) -> (topicFilter x <> None -> fp x <> None) -> NoDup (entries (l1 ++ x :: l2)).*1 ->
  table_ok (l1 ++ x :: l2).
Proof.
  intros [Hok _] Hx Hn. split; [|done]. apply Forall_app in Hok as [H1 H2]. inversion H2; subst.
  apply Forall_app. split; [done|]. by constructor.
Qed.

(** The table of message handlers is a finite map from topic filters to
    handlers with as many places as the table has slots.  Setting a handler
    adds or replaces the entry of its filter and nothing else, and fails without
    an effect only when the filter is new and the table full; setting no handler
    removes the entry, and fails only when there is none.  The result is again
    a table without duplicates. *)
Theorem message_handlers_map mhs f mh :
  table_ok mhs ->
  let '(rc, mhs') := MQTTSetMessageHandler mhs f mh in
  table_ok mhs' /\ length mhs' = length mhs
  /\ match mh with
     | Some h =>
         if decide (is_Some (subscriptions mhs !! f) \/ (size (subscriptions mhs) < length mhs)%nat)
         then rc = SUCCESS /\ subscriptions mhs' = <[f := h]> (subscriptions mhs)
         else rc = FAILURE /\ mhs' = mhs
     | None =>
         subscriptions mhs' = delete f (subscriptions mhs)
         /\ rc = (if decide (is_Some (subscriptions mhs !! f)) then SUCCESS else FAILURE)
     end.
Proof.
  intros Hok. rewrite size_subscriptions by done. unfold MQTTSetMessageHandler.
  destruct (find_slot (has_filter f) mhs) as [i|] eqn:Ei.
  - destruct (slot_of_filter f mhs i Hok Ei) as (l1 & h0 & m0 & l2 & -> & <- & E0).
    assert (Hent : entries (l1 ++ m0 :: l2) = entries l1 ++ (f, h0) :: entries l2) by (by rewrite entries_app, E0).
    pose proof (proj2 Hok) as Hn. rewrite Hent in Hn. destruct (middle_map _ _ _ _ Hn) as (Hm & Hnone & Hn').
    assert (Hold : subscriptions (l1 ++ m0 :: l2) = <[f := h0]> (list_to_map (entries l1 ++ entries l2)))
      by (unfold subscriptions; by rewrite Hent).
    assert (Hin : is_Some (subscriptions (l1 ++ m0 :: l2) !! f)) by (rewrite Hold, lookup_insert_eq; by eexists).
    destruct mh as [h|]; rewrite insert_slot; rewrite !length_app; (split; [|split; [done|]]).
    + apply (table_ok_at _ m0); [done|done|]. rewrite entries_app. cbn. by apply (middle_keys _ _ _ h0).
    + rewrite decide_True by (by left). split; [done|]. rewrite Hold, insert_insert_eq. unfold subscriptions.
      rewrite entries_app. apply middle_map. by apply (middle_keys _ _ _ h0).
    + apply (table_ok_at _ m0); [done|done|]. rewrite entries_app. done.
    + rewrite decide_True by done. split; [|done]. rewrite Hold, delete_insert_id by done. unfold subscriptions.
      by rewrite entries_app.
  - apply find_slot_None, unused_filter in Ei. assert (Hnone : subscriptions mhs !! f = None) by (by apply not_elem_of_list_to_map_1).
    destruct mh as [h|]; [|split; [done|]; split; [done|]; rewrite decide_False by (rewrite Hnone; by intros [? ?]);
      split; [by rewrite delete_id|done]].
    destruct (find_slot is_free mhs) as [i|] eqn:Ef.
    + apply find_slot_Some in Ef as (l1 & m0 & l2 & -> & <- & Hp).
      assert (E0 : entry m0 = None) by (unfold entry; unfold is_free in Hp; by destruct (topicFilter m0)).
      rewrite entries_app, E0 in Ei. assert (Hn : NoDup (entries l1 ++ (f, h) :: entries l2).*1).
      { pose proof (proj2 Hok) as Hn. rewrite entries_app, E0 in Hn. rewrite <- Permutation_middle. cbn. by constructor. }
      rewrite insert_slot. split; [|split; [by rewrite !length_app|]].
      * apply (table_ok_at _ m0); [done|done|]. by rewrite entries_app.
      * rewrite decide_True by (right; rewrite entries_app, E0, !length_app; cbn [length];
          pose proof (entries_le l1); pose proof (entries_le l2); lia).
        split; [done|]. unfold subscriptions. rewrite !entries_app, E0. by apply middle_map.
    + apply find_slot_None in Ef. split; [done|]. split; [done|].
      rewrite decide_False; [done|]. rewrite Hnone, entries_length by done. intros [[? ?]|?]; [done|lia].
Qed.

Definition free_slot : MessageHandler := mkHandler None None.

Lemma message_handlers_map_witness :
  let mhs := mkHandler (Some (str "a")) (Some 1) :: replicate 4 free_slot in
  let '(rc, mhs') := MQTTSetMessageHandler mhs (str "b") (Some 2) in
  table_ok mhs' /\ length mhs' = length mhs
  /\ if decide (is_Some (subscriptions mhs !! str "b") \/ (size (subscriptions mhs) < length mhs)%nat)
     then rc = SUCCESS /\ subscriptions mhs' = <[str "b" := 2]> (subscriptions mhs)
     else rc = FAILURE /\ mhs' = mhs.
Proof.
  apply (message_handlers_map (mkHandler (Some (str "a")) (Some 1) :: replicate 4 free_slot) (str "b") (Some 2)).
  split.
  - repeat constructor; done.
  - apply (bool_decide_unpack _). by vm_compute.
Defined.
