(* ===== verification/MqttSession.v ===== *)
(** * Sessions of the MQTT client

    The client over a link that delivers: messages that arrive reach the
    handlers whose filters match and are acknowledged, and a request of the
    application that is answered has its effect. *)

From S2P Require Import Prelude BasicJson MqttPacket MqttCodec MqttRoundTrip MqttRead MqttClient MqttTopics.

(** ** A link that delivers *)

(** The bytes that have arrived and those sent.  While [good] holds, the clock
    is less than a second after [T0], what has arrived is there to be read, and
    what is written is accepted as a whole. *)
Class Link (W : Type) `{Platform W} (T0 : Z) := {
  incoming : W -> bytes;
  sent : W -> bytes;
  good : W -> Prop;
  link_time : forall w, good w -> exists d w',
    os_systime w = (u32 (T0 + d), w') /\ 0 <= d < 1000000 /\ good w' /\ incoming w' = incoming w /\ sent w' = sent w;
  link_read : forall n ms w, good w -> 0 < n <= zlen (incoming w) -> exists w',
    mqttread n ms w = (n, take (Z.to_nat n) (incoming w), w') /\ good w'
    /\ incoming w' = drop (Z.to_nat n) (incoming w) /\ sent w' = sent w;
  link_write : forall bs ms w, good w -> exists w',
    mqttwrite bs ms w = (zlen bs, w') /\ good w' /\ incoming w' = incoming w /\ sent w' = sent w ++ bs;
}.

(** A link that exists: a clock that stands still and two queues. *)
Record wire := mkWire { w_time : Z; w_in : bytes; w_out : bytes }.

#[global] Instance wire_platform : Platform wire := {
  os_systime w := (w_time w, w);
  mqttread n _ w := let bs := take (Z.to_nat n) (w_in w) in (zlen bs, bs, mkWire (w_time w) (drop (Z.to_nat n) (w_in w)) (w_out w));
  mqttwrite bs _ w := (zlen bs, mkWire (w_time w) (w_in w) (w_out w ++ bs));
}.

#[global, refine] Instance wire_link T0 : Link wire T0 :=
  { incoming := w_in; sent := w_out; good w := w_time w = u32 T0 }.
Proof.
  - intros w Hw. exists 0, w. cbn. rewrite Z.add_0_r, Hw. split_and!; done || lia.
  - intros n ms [t i o] Hw Hn. cbn in *. eexists. rewrite zlen_take by lia. split; [done|]. by cbn.
  - intros bs ms [t i o] Hw. eexists. split; [done|]. by cbn.
Defined.

(** ** Timers *)

Lemma s32_u32 x : s32 (u32 x) = s32 x.
Proof. unfold s32, u32. by rewrite Zplus_mod_idemp_l. Qed.

Lemma u32_sub a b : u32 (u32 a - u32 b) = u32 (a - b).
Proof. unfold u32. symmetry. apply Zminus_mod. Qed.

(** A timer that is [e] after [T0] has not expired [d] after [T0]. *)
Lemma not_expired T0 d e : 0 <= d < 1000000 -> 1000000 <= e < 2 ^ 31 -> time_after_eq (u32 (T0 + d)) (u32 (T0 + e)) = false.
Proof.
  intros Hd He. unfold time_after_eq. rewrite u32_sub, s32_u32.
  replace (T0 + d - (T0 + e)) with (d - e) by lia. rewrite s32_small by lia. apply Z.leb_gt. lia.
Qed.

(** ** Rules for the steps of the client *)

(** [m] ends in [s] with a result and a state that [Q] accepts. *)
Definition wp {W A} (m : C W A) (s : mstate W) (Q : A -> mstate W -> Prop) : Prop :=
  match m s with Some (a, s') => Q a s' | None => False end.

Lemma wp_bind {W A B} (m : C W A) (f : A -> C W B) s Q : wp m s (fun a s' => wp (f a) s' Q) -> wp (c_bind m f) s Q.
Proof. unfold wp, c_bind. by destruct (m s) as [[a s']|]. Qed.

Lemma wp_mono {W A} (m : C W A) s (P Q : A -> mstate W -> Prop) : wp m s P -> (forall a s', P a s' -> Q a s') -> wp m s Q.
Proof. unfold wp. destruct (m s) as [[a s']|]; [|done]. auto. Qed.

Lemma wp_elim {W A} (m : C W A) s Q : wp m s Q -> exists a s', m s = Some (a, s') /\ Q a s'.
Proof. unfold wp. destruct (m s) as [[a s']|]; [|done]. by exists a, s'. Qed.

(** The parts of the client that receiving and sending do not change. *)
Definition kept (c c' : MQTTClient) : Prop :=
  (next_packetid c', command_timeout_ms c', c_keepAlive c', isconnected c', c_cleansession c', messageHandlers c',
   defaultMessageHandler c', zlen (c_buf c'), zlen (readbuf c'))
  = (next_packetid c, command_timeout_ms c, c_keepAlive c, isconnected c, c_cleansession c, messageHandlers c,
     defaultMessageHandler c, zlen (c_buf c), zlen (readbuf c)).

Ltac fields :=
  cbn [next_packetid command_timeout_ms c_keepAlive isconnected c_cleansession messageHandlers defaultMessageHandler
       c_buf readbuf ping_outstanding last_sent last_received set_next_packetid set_buf set_readbuf set_session set_ping
       set_connected set_handlers set_last_sent set_last_received].

#[global] Instance kept_preorder : PreOrder kept.
Proof. split; [by intros c|]. unfold kept. intros a b c -> ->. done. Qed.

Lemma kept_handlers c c' : kept c c' -> messageHandlers c' = messageHandlers c /\ defaultMessageHandler c' = defaultMessageHandler c.
Proof. by intros [=]. Qed.

Lemma kept_buf c c' : kept c c' -> zlen (c_buf c') = zlen (c_buf c).
Proof. by intros [=]. Qed.

Lemma kept_readbuf c c' : kept c c' -> zlen (readbuf c') = zlen (readbuf c).
Proof. by intros [=]. Qed.

(** The packets of the acknowledgements and of the ping. *)
Definition ack_packet (type id : Z) : bytes := packet (header_byte type 0 (if type =? PUBREL then 1 else 0) 0) 2 (int_bytes id).
Definition ping_packet : bytes := packet (header_byte PINGREQ 0 0 0) 0 [].

Lemma front {A} (p l : list A) : take (Z.to_nat (zlen p)) (p ++ l) = p.
Proof. unfold zlen. by rewrite Nat2Z.id, take_app_length. Qed.

Lemma zlen_refill (p buf : bytes) : zlen p <= zlen buf -> zlen (p ++ drop (length p) buf) = zlen buf.
Proof. intros H. unfold zlen in *. rewrite length_app, length_drop. lia. Qed.

Lemma ack_written type id buf :
  0 <= type < 16 -> 0 <= id < 65536 -> 4 <= zlen buf ->
  MQTTSerialize_ack buf type 0 id = Some (zlen (ack_packet type id), ack_packet type id ++ drop (length (ack_packet type id)) buf).
Proof.
  intros Ht Hid Hb. unfold MQTTSerialize_ack. rewrite (proj2 (Z.ltb_ge _ _)) by done. apply serialize_ok; [|done].
  apply writes_packet; [|by apply writes_int]. apply header_fields; [done|lia|destruct (type =? PUBREL); lia|lia].
Qed.

Lemma ping_written buf :
  2 <= zlen buf -> MQTTSerialize_pingreq buf = Some (zlen ping_packet, ping_packet ++ drop (length ping_packet) buf).
Proof.
  intros Hb. unfold MQTTSerialize_pingreq, MQTTSerialize_zero. rewrite (proj2 (Z.ltb_ge _ _)) by done.
  apply serialize_ok; [|done]. unfold ping_packet, packet. rewrite app_nil_r.
  apply writes_seq; [by apply writes_byte|apply writes_len].
Qed.

(** The handlers a message goes to. *)
Definition matched (mhs : list MessageHandler) (topic : MQTTString) : list handler :=
  omap (fun mh => if filter_matches mh topic then fp mh else None) mhs.

Definition receivers (c : MQTTClient) (topic : MQTTString) : list handler :=
  match matched (messageHandlers c) topic with
  | [] => match defaultMessageHandler c with Some h => [h] | None => [] end
  | hs => hs
  end.

Definition deliveries (c : MQTTClient) (topic : MQTTString) (m : MQTTMessage) : list (handler * MQTTString * MQTTMessage) :=
  map (fun h => (h, topic, m)) (receivers c topic).

Section Session.
Context {W : Type} `{!Platform W} {T0 : Z} `{!Link W T0}.
Context (rounds : nat).

(** The client, what has arrived, what was sent and the calls made. *)
Definition st (c : MQTTClient) (i o : bytes) (k : list (handler * MQTTString * MQTTMessage)) (s : mstate W) : Prop :=
  cl s = c /\ good (net s) /\ incoming (net s) = i /\ sent (net s) = o /\ calls s = k.

(** A timer at least a second after [T0]. *)
Definition ahead (t : MQTTTimer) : Prop := exists e, t = u32 (T0 + e) /\ 1000000 <= e < 2 ^ 31.

Lemma wp_time c i o k s (Q : Z -> mstate W -> Prop) :
  st c i o k s -> (forall d s', 0 <= d < 1000000 -> st c i o k s' -> Q (u32 (T0 + d)) s') -> wp (c_net os_systime) s Q.
Proof.
  intros (Hc & Hg & Hi & Ho & Hk) HQ. destruct (link_time (net s) Hg) as (d & w' & E & Hd & Hg' & Hi' & Ho').
  unfold wp, c_net. rewrite E. apply HQ; [done|]. unfold st. cbn. split_and!; congruence.
Qed.

Lemma wp_left t c i o k s (Q : Z -> mstate W -> Prop) :
  st c i o k s -> (forall ms s', st c i o k s' -> Q ms s') -> wp (_mqtt_timer_left_ms t) s Q.
Proof. intros Hs HQ. apply wp_bind. eapply wp_time; [done|]. intros d s' _ Hs'. by apply HQ. Qed.

Lemma wp_expired t c i o k s (Q : bool -> mstate W -> Prop) :
  st c i o k s -> (forall b s', (ahead t -> b = false) -> st c i o k s' -> Q b s') -> wp (_mqtt_timer_is_expired t) s Q.
Proof.
  intros Hs HQ. apply wp_bind. eapply wp_time; [done|]. intros d s' Hd Hs'. apply HQ; [|done].
  intros (e & -> & He). by apply not_expired.
Qed.

Lemma wp_countdown n c i o k s (Q : MQTTTimer -> mstate W -> Prop) :
  st c i o k s -> (forall t s', st c i o k s' -> Q t s') -> wp (_mqtt_timer_countdown n) s Q.
Proof. intros Hs HQ. apply wp_bind. eapply wp_time; [done|]. intros d s' _ Hs'. by apply HQ. Qed.

Lemma wp_countdown_ms n c i o k s (Q : MQTTTimer -> mstate W -> Prop) :
  1000 <= n <= 2000000 -> st c i o k s -> (forall t s', ahead t -> st c i o k s' -> Q t s') ->
  wp (_mqtt_timer_countdown_ms n) s Q.
Proof.
  intros Hn Hs HQ. apply wp_bind. eapply wp_time; [done|]. intros d s' Hd Hs'. apply HQ; [|done].
  exists (d + n * 1000). rewrite u32_add_l, (u32_small (n * 1000)) by lia. split; [f_equal; lia|lia].
Qed.

Lemma wp_modify f c i o k s (Q : unit -> mstate W -> Prop) :
  st c i o k s -> (forall s', st (f c) i o k s' -> Q tt s') -> wp (modify f) s Q.
Proof. intros (<- & H) HQ. apply HQ. done. Qed.

Lemma wp_get {A} (f : MQTTClient -> C W A) c i o k s Q : st c i o k s -> wp (f c) s Q -> wp (c_bind c_get f) s Q.
Proof. intros (<- & _) H. done. Qed.

Lemma wp_call h t m c i o k s (Q : unit -> mstate W -> Prop) :
  st c i o k s -> (forall s', st c i o (k ++ [(h, t, m)]) s' -> Q tt s') -> wp (c_call h t m) s Q.
Proof. intros (Hc & Hg & Hi & Ho & <-) HQ. apply HQ. done. Qed.

Lemma wp_into_buf f len b c i o k s (Q : Z -> mstate W -> Prop) :
  st c i o k s -> f (c_buf c) = Some (len, b) -> (forall s', st (set_buf b c) i o k s' -> Q len s') -> wp (into_buf f) s Q.
Proof.
  intros Hs E HQ. unfold into_buf. eapply wp_get; [done|]. unfold c_some. rewrite E. destruct Hs as (<- & H). by apply HQ.
Qed.

(** A packet sent. *)
Lemma wp_send len timer c i o k s (Q : Z -> mstate W -> Prop) :
  (2 <= rounds)%nat -> ahead timer -> 0 < len <= zlen (c_buf c) -> st c i o k s ->
  (forall t s', st (set_last_sent t c) i (o ++ take (Z.to_nat len) (c_buf c)) k s' -> Q SUCCESS s') ->
  wp (sendPacket rounds len timer) s Q.
Proof.
  intros Hr Ht Hl Hs HQ. destruct rounds as [|[|r]]; [lia|lia|]. unfold sendPacket. apply wp_bind.
  cbn [send_loop]. rewrite (proj2 (Z.ltb_lt 0 len)) by lia. apply wp_bind. eapply wp_expired; [done|].
  intros b s1 Hb Hs1. rewrite (Hb Ht). eapply wp_get; [done|]. apply wp_bind. eapply wp_left; [done|].
  intros ms s2 Hs2. rewrite (proj2 (Z.ltb_ge _ _)) by lia. change (drop (Z.to_nat 0) (c_buf c)) with (c_buf c).
  destruct Hs2 as (Hc & Hg & Hi & Ho & Hk).
  destruct (link_write (take (Z.to_nat len) (c_buf c)) ms (net s2) Hg) as (w' & E & Hg' & Hi' & Ho').
  apply wp_bind. unfold wp at 1, c_net. rewrite E. rewrite zlen_take by lia. rewrite (proj2 (Z.ltb_ge len 0)) by lia.
  rewrite Z.add_0_l, Z.ltb_irrefl. unfold wp at 1, c_ret. rewrite Z.eqb_refl.
  set (s3 := mkState _ _ _). assert (Hs3 : st c i (o ++ take (Z.to_nat len) (c_buf c)) k s3)
    by (unfold st, s3; cbn; split_and!; congruence).
  eapply wp_get; [exact Hs3|]. apply wp_bind. eapply wp_countdown; [exact Hs3|]. intros t s4 Hs4.
  apply wp_bind. eapply wp_modify; [done|]. intros s5 Hs5. by apply (HQ t).
Qed.

(** ** A packet received *)

Lemma link_delivers ms l : forall w rest,
  good w -> incoming w = l ++ rest ->
  exists w', delivers (netchar ms) w l w' /\ good w' /\ incoming w' = rest /\ sent w' = sent w.
Proof.
  induction l as [|x l IH]; intros w rest Hg Hi; [exists w; split_and!; [constructor|done..]|].
  destruct (link_read 1 ms w Hg) as (w1 & E & Hg1 & Hi1 & Ho1).
  { rewrite Hi. cbn [app]. rewrite zlen_cons. pose proof (zlen_nonneg (l ++ rest)). lia. }
  rewrite Hi in Hi1, E. change (take (Z.to_nat 1) ((x :: l) ++ rest)) with [x] in E.
  change (drop (Z.to_nat 1) ((x :: l) ++ rest)) with (l ++ rest) in Hi1.
  destruct (IH w1 rest Hg1 Hi1) as (w' & Hd & Hg' & Hi' & Ho'). exists w'. split_and!; [|done|done|congruence].
  econstructor; [|exact Hd]. unfold netchar. by rewrite E.
Qed.

Lemma wp_decode n ms c i o k s (Q : Z -> mstate W -> Prop) :
  0 <= n < 268435456 -> st c (MQTTPacket_encode n ++ i) o k s -> (forall s', st c i o k s' -> Q n s') ->
  wp (decodePacket ms) s Q.
Proof.
  intros Hn (Hc & Hg & Hi & Ho & Hk) HQ. destruct (link_delivers ms _ _ _ Hg Hi) as (w' & Hd & Hg' & Hi' & Ho').
  unfold wp, decodePacket. pose proof (decode_delivers (netchar ms) n _ _ Hn Hd) as E. unfold MQTTPacket_decode in E.
  rewrite E. apply HQ. unfold st. cbn. split_and!; congruence.
Qed.

Lemma wp_read_into off l b ms c i o k s (Q : Z -> mstate W -> Prop) :
  l <> [] -> store (readbuf c) off l = Some b -> st c (l ++ i) o k s ->
  (forall s', st (set_readbuf b c) i o k s' -> Q (zlen l) s') -> wp (read_into off (zlen l) ms) s Q.
Proof.
  intros Hl Hb (Hc & Hg & Hi & Ho & Hk) HQ.
  assert (Hz : 0 < zlen l <= zlen (incoming (net s))).
  { rewrite Hi, zlen_app. pose proof (zlen_nonneg i). destruct l; [done|]. rewrite zlen_cons. pose proof (zlen_nonneg l). lia. }
  destruct (link_read (zlen l) ms (net s) Hg Hz) as (w' & E & Hg' & Hi' & Ho').
  assert (Hlen : Z.to_nat (zlen l) = length l) by (unfold zlen; lia).
  rewrite Hi, Hlen in E, Hi'. rewrite take_app_length in E. rewrite drop_app_length in Hi'.
  unfold read_into, wp, c_bind, c_net, c_get, c_some, modify, c_ret. rewrite E. cbn [cl]. rewrite Hc, Hb.
  cbn [cl net calls]. apply HQ. unfold st. cbn [cl net calls]. split_and!; congruence.
Qed.

(** The client with a packet in its read buffer. *)
Definition holds (pkt : bytes) (c c' : MQTTClient) : Prop :=
  exists t, c' = set_last_received t (set_readbuf (memcpy (readbuf c) 0 pkt) c).

Lemma wp_received h body i o k s c timer (Q : Z -> mstate W -> Prop) :
  let pkt := packet h (zlen body) body in
  zlen body < 268435456 -> zlen pkt <= zlen (readbuf c) < 2 ^ 32 ->
  st c (pkt ++ i) o k s ->
  (forall c' s', holds pkt c c' -> st c' i o k s' -> Q (header_type h) s') ->
  wp (readPacket timer) s Q.
Proof.
  intros pkt Hn Hr Hs HQ. pose proof (zlen_nonneg body). set (n := zlen body) in *.
  assert (Hz : zlen pkt = 1 + digits_of n + n) by (apply zlen_packet; lia).
  assert (Hd : 1 <= digits_of n) by (unfold digits_of; repeat case_if; lia).
  assert (He : zlen ([h] ++ MQTTPacket_encode n) = 1 + digits_of n) by (rewrite zlen_app, zlen_encode by lia; done).
  unfold pkt, packet in Hs. rewrite <- !app_assoc in Hs.
  unfold readPacket. apply wp_bind. eapply wp_left; [done|]. intros ms s1 Hs1.
  apply wp_bind. eapply (wp_read_into 0 [h] (memcpy (readbuf c) 0 [h])); [done| |done|].
  { unfold store. change (zlen [h]) with 1. rewrite (proj2 (Z.leb_le 0 0)), (proj2 (Z.leb_le (0 + 1) _)) by lia. done. }
  intros s2 Hs2. change (zlen [h]) with 1. cbn [Z.eqb negb Pos.eqb].
  apply wp_bind. eapply wp_left; [done|]. intros ms2 s3 Hs3. apply wp_bind. eapply (wp_decode n); [lia|done|]. intros s4 Hs4.
  eapply wp_get; [done|]. cbn [readbuf set_readbuf]. apply wp_bind. unfold c_some, wp at 1.
  change 1 with (zlen [h]) at 1. rewrite store_front by (rewrite He; lia). apply wp_bind. eapply wp_modify; [done|].
  intros s5 Hs5. change (zlen [h]) with 1. rewrite zlen_memcpy by (rewrite ?He; lia). rewrite zlen_encode by lia. rewrite !u32_small by lia.
  rewrite (proj2 (Z.ltb_ge _ _)) by lia.
  assert (Hfin : forall s, st (set_readbuf (memcpy (readbuf c) 0 pkt) c) i o k s ->
    wp (let* c := c_get in
        do* (if 0 <? c_keepAlive c
             then let* t := _mqtt_timer_countdown (c_keepAlive c) in modify (set_last_received t) else c_ret tt) in
        c_ret (header_type (bget (readbuf c) 0))) s Q).
  { intros s6 Hs6. eapply wp_get; [done|]. cbn [c_keepAlive readbuf set_readbuf]. apply wp_bind.
    destruct (0 <? c_keepAlive c).
    - apply wp_bind. eapply wp_countdown; [done|]. intros t s7 Hs7. eapply wp_modify; [done|]. intros s8 Hs8.
      apply (HQ _ s8 (ex_intro _ t eq_refl) Hs8).
    - apply (HQ (set_readbuf (memcpy (readbuf c) 0 pkt) c)); [|done]. exists (last_received c). by destruct c. }
  destruct (Z.ltb_spec 0 n) as [Hpos|Hpos].
  - apply wp_bind. eapply wp_left; [done|]. intros ms6 s6 Hs6. apply wp_bind.
    eapply (wp_read_into _ body (memcpy (readbuf c) 0 pkt)); [| |done|].
    + intros ->. unfold n in Hpos. change (zlen []) with 0 in Hpos. lia.
    + cbn [readbuf set_readbuf]. rewrite <- He, store_front; [by rewrite <- app_assoc|].
      rewrite zlen_app, He. fold n. lia.
    + intros s7 Hs7. fold n. rewrite Z.eqb_refl. cbn [negb]. by apply Hfin.
  - assert (body = []) as Hb by (apply zlen_0_nil; fold n; lia). apply Hfin. unfold pkt, packet.
    rewrite Hb, app_nil_r. rewrite Hb in Hs5. by destruct Hs5 as (H1 & H2).
Qed.

Lemma holds_kept pkt c c' : zlen pkt <= zlen (readbuf c) -> holds pkt c c' -> kept c c'.
Proof.
  intros Hp [t ->]. unfold kept. cbn. f_equal. apply zlen_memcpy; lia.
Qed.

(** ** One round *)

Lemma wp_keepalive c i o k s (Q : Z -> mstate W -> Prop) :
  (2 <= rounds)%nat -> 2 <= zlen (c_buf c) -> st c i o k s ->
  (forall c' p s', kept c c' -> readbuf c' = readbuf c -> p = [] \/ p = ping_packet -> st c' i (o ++ p) k s' -> Q SUCCESS s') ->
  wp (_mqtt_keepalive rounds) s Q.
Proof.
  intros Hr Hb Hs HQ.
  assert (Hsame : forall s', st c i o k s' -> Q SUCCESS s').
  { intros s' Hs'. apply (HQ c []); [done|done|by left|by rewrite app_nil_r]. }
  unfold _mqtt_keepalive. eapply wp_get; [done|]. destruct (c_keepAlive c =? 0); [by apply Hsame|].
  apply wp_bind. eapply wp_expired; [done|]. intros [] s1 _ Hs1; [|by apply Hsame].
  apply wp_bind. eapply wp_countdown_ms; [lia|done|]. intros t s2 Ht Hs2.
  apply wp_bind. eapply wp_into_buf; [done|by apply ping_written|]. intros s3 Hs3.
  change (0 <? zlen ping_packet) with true. cbn iota. apply wp_bind.
  assert (Hp : zlen ping_packet <= zlen (c_buf c)) by (change (zlen ping_packet) with 2; lia).
  eapply wp_send; [done|done| |done|]; cbn [c_buf set_buf].
  { rewrite zlen_refill by done. change (zlen ping_packet) with 2. lia. }
  intros t' s4 Hs4. rewrite front in Hs4. change (SUCCESS =? SUCCESS) with true. cbn iota. apply wp_bind.
  eapply wp_modify; [done|]. intros s5 Hs5. eapply HQ; [| | |exact Hs5]; [|done|by right].
  unfold kept. fields. by rewrite zlen_refill.
Qed.

Lemma wp_deliver_loop topic m mhs : forall rc c i o k s (Q : Z -> mstate W -> Prop),
  st c i o k s ->
  (forall s', st c i o (k ++ map (fun h => (h, topic, m)) (matched mhs topic)) s' ->
              Q (match matched mhs topic with [] => rc | _ => SUCCESS end) s') ->
  wp (deliver_loop mhs topic m rc) s Q.
Proof.
  induction mhs as [|mh mhs IH]; intros rc c i o k s Q Hs HQ.
  - apply HQ. cbn. by rewrite app_nil_r.
  - cbn [deliver_loop]. unfold matched in HQ. cbn [omap list_omap] in HQ. fold (matched mhs topic) in HQ.
    destruct (filter_matches mh topic); [|by eapply IH].
    destruct (fp mh) as [h|]; [|by eapply IH].
    apply wp_bind. eapply wp_call; [done|]. intros s1 Hs1. eapply IH; [done|]. intros s2 Hs2.
    rewrite <- app_assoc in Hs2. specialize (HQ s2 Hs2). by destruct (matched mhs topic).
Qed.

Lemma wp_deliver topic m c i o k s (Q : Z -> mstate W -> Prop) :
  st c i o k s -> (forall rc s', st c i o (k ++ deliveries c topic m) s' -> Q rc s') ->
  wp (_mqtt_deliverMessage topic m) s Q.
Proof.
  intros Hs HQ. unfold _mqtt_deliverMessage. eapply wp_get; [done|]. apply wp_bind. eapply wp_deliver_loop; [done|].
  intros s1 Hs1. unfold deliveries, receivers in HQ.
  destruct (matched (messageHandlers c) topic) as [|h hs], (defaultMessageHandler c) as [d|]; cbn [map] in *.
  - change (FAILURE =? FAILURE) with true. cbn iota. apply wp_bind. rewrite app_nil_r in Hs1. eapply wp_call; [done|].
    intros s2 Hs2. by apply HQ.
  - by apply HQ.
  - change (SUCCESS =? FAILURE) with false. by apply HQ.
  - by apply HQ.
Qed.

(** The end of a round without an error. *)
Definition quiet_round (packet_type : Z) (c : MQTTClient) (i o : bytes) k (Q : Z -> mstate W -> Prop) : Prop :=
  forall c' p s', kept c c' -> readbuf c' = readbuf c -> p = [] \/ p = ping_packet -> st c' i (o ++ p) k s' -> Q packet_type s'.

Lemma wp_cycle packet_type timer c i o k s (Q : Z -> mstate W -> Prop) :
  (2 <= rounds)%nat ->
  wp (readPacket timer) s (fun ty s1 => ty = packet_type /\
    wp (cycle_switch rounds ty timer) s1 (fun r s2 => r = (SUCCESS, false) /\ st c i o k s2)) ->
  2 <= zlen (c_buf c) -> quiet_round packet_type c i o k Q ->
  wp (_mqtt_cycle rounds timer) s Q.
Proof.
  intros Hr Hm Hb HQ. unfold _mqtt_cycle. apply wp_bind. eapply wp_mono; [exact Hm|]. intros ty s1 [-> Hs1]. apply wp_bind.
  eapply wp_mono; [exact Hs1|]. intros r s2 [-> Hs2]. apply wp_bind. apply wp_bind. eapply wp_keepalive; [done|done|done|].
  intros c' p s3 Hk Hrb Hp Hs3. change (SUCCESS =? SUCCESS) with true. by eapply HQ.
Qed.

(** The acknowledgement of a message. *)
Definition ack_of (qos id : Z) : bytes :=
  if qos =? QOS1 then ack_packet PUBACK id else if qos =? QOS2 then ack_packet PUBREC id else [].

Definition message_of (qos retained dup id : Z) (payload tail : bytes) : MQTTMessage :=
  mkMessage qos retained dup (if 0 <? qos then Some id else None) (payload ++ tail) (zlen payload).

(** A packet put into the buffer and sent. *)
Lemma wp_written f pkt timer c i o k s (Q : Z -> mstate W -> Prop) :
  (2 <= rounds)%nat -> ahead timer -> f (c_buf c) = Some (zlen pkt, pkt ++ drop (length pkt) (c_buf c)) ->
  0 < zlen pkt <= zlen (c_buf c) -> st c i o k s ->
  (forall c' s', kept c c' -> readbuf c' = readbuf c -> st c' i (o ++ pkt) k s' -> Q SUCCESS s') ->
  wp (into_buf f) s (fun len s1 => (len <=? 0) = false /\ wp (sendPacket rounds len timer) s1 Q).
Proof.
  intros Hr Ht Hf Hz Hs HQ. eapply wp_into_buf; [done|exact Hf|]. intros s1 Hs1. split; [apply Z.leb_gt; lia|].
  eapply wp_send; [done|done| |done|]; fields.
  { rewrite zlen_refill; lia. }
  intros t s2 Hs2. rewrite front in Hs2. eapply HQ; [| |exact Hs2]; [|done]. unfold kept. fields. by rewrite zlen_refill by lia.
Qed.

Lemma wp_ack type id timer c i o k s (Q : Z -> mstate W -> Prop) :
  (2 <= rounds)%nat -> ahead timer -> 0 <= type < 16 -> 0 <= id < 65536 -> 4 <= zlen (c_buf c) -> st c i o k s ->
  (forall c' s', kept c c' -> readbuf c' = readbuf c -> st c' i (o ++ ack_packet type id) k s' -> Q SUCCESS s') ->
  wp (into_buf (fun b => MQTTSerialize_ack b type 0 id)) s (fun len s1 =>
    (len <=? 0) = false /\ wp (sendPacket rounds len timer) s1 Q).
Proof.
  intros Hr Ht Hty Hid Hb Hs HQ. eapply wp_written; [done|done|by apply ack_written| |done|done].
  change (zlen (ack_packet type id)) with 4. lia.
Qed.

Lemma wp_answer type id timer c i o k s (Q : Z * bool -> mstate W -> Prop) :
  (2 <= rounds)%nat -> ahead timer -> 0 <= type < 16 -> 0 <= id < 65536 -> 4 <= zlen (c_buf c) -> st c i o k s ->
  (forall c' s', kept c c' -> readbuf c' = readbuf c -> st c' i (o ++ ack_packet type id) k s' -> Q (SUCCESS, false) s') ->
  wp (let* len := into_buf (fun b => MQTTSerialize_ack b type 0 id) in
      let* rc := (if len <=? 0 then c_ret FAILURE else sendPacket rounds len timer) in c_ret (rc, rc =? FAILURE)) s Q.
Proof.
  intros Hr Ht Hty Hid Hb Hs HQ. apply wp_bind. eapply wp_mono.
  - eapply (wp_ack type id timer c i o k s (fun rc s' => rc = SUCCESS /\ Q (SUCCESS, false) s')); try done.
    intros c' s' H1 H2 H3. split; [done|]. by eapply HQ.
  - intros len s2 [Hlen Hw]. rewrite Hlen. apply wp_bind. eapply wp_mono; [exact Hw|]. by intros a s3 [-> Hs3].
Qed.

Lemma wp_publish_in timer dup qos retained id t payload tail c i o k s (Q : Z * bool -> mstate W -> Prop) :
  let h := header_byte PUBLISH dup qos retained in
  let body := publish_body qos id t payload in
  (2 <= rounds)%nat -> ahead timer -> 0 <= dup < 2 -> 0 <= qos < 3 -> 0 <= retained < 2 -> 0 <= id < 65536 ->
  zlen t < 65536 -> zlen body < 268435456 -> 4 <= zlen (c_buf c) ->
  readbuf c = packet h (zlen body) body ++ tail -> st c i o k s ->
  (forall c' s', kept c c' ->
     st c' i (o ++ ack_of qos id) (k ++ deliveries c (string_of t) (message_of qos retained dup id payload tail)) s' ->
     Q (SUCCESS, false) s') ->
  wp (cycle_publish rounds timer) s Q.
Proof.
  intros h body Hr Ht Hd Hq Hre Hid Hlt Hlb Hb Hrb Hs HQ.
  destruct (header_fields PUBLISH dup qos retained) as (Hh & E1 & E2 & E3 & E4); [unfold PUBLISH; lia|lia|lia|lia|].
  fold h in Hh, E1, E2, E3, E4.
  unfold cycle_publish. eapply wp_get; [done|]. apply wp_bind. unfold c_some, wp at 1. rewrite Hrb.
  pose proof (publish_read h id t payload tail E1) as R. rewrite E3 in R. unfold body. rewrite R by done. rewrite E2, E4. cbn [Z.eqb negb Pos.eqb].
  apply wp_bind.
  assert (Hpl : u32 (zlen payload) = zlen payload).
  { apply u32_small. pose proof (zlen_nonneg payload). pose proof (zlen_nonneg t). unfold body, publish_body in Hlb.
    rewrite !zlen_app in Hlb. pose proof (zlen_nonneg (wire_string t)).
    pose proof (zlen_nonneg (if 0 <? qos then int_bytes id else [])). lia. }
  eapply wp_deliver; [done|]. intros rc s1 Hs1. rewrite Hpl in Hs1. fold (message_of qos retained dup id payload tail) in Hs1.
  destruct (Z.eqb_spec qos QOS0) as [->|Hq0].
  { apply (HQ c); [done|]. by rewrite app_nil_r. }
  rewrite (proj2 (Z.ltb_lt 0 qos)) in * by (unfold QOS0 in Hq0; lia). cbn [default].
  unfold ack_of in HQ. destruct (Z.eqb_spec qos QOS1) as [->|Hq1]; [|destruct (Z.eqb_spec qos QOS2) as [->|Hq2]; [|unfold QOS0, QOS1, QOS2 in *; lia]].
  all: by eapply wp_answer; [done|done|by vm_compute|done|done|done|]; intros c' s' Hk _ Hs'; eapply HQ.
Qed.

End Session.

(** ** A message arrives *)

(** C14: one round of the client with a message waiting.  Over a link that
    delivers within the time-out, the message is handed exactly once, with its
    topic, flags, identifier and payload, to each handler whose filter matches
    the topic, in the order of the table, or to the default handler when none
    does; it is acknowledged with its identifier by [PUBACK] for quality of
    service 1 and by [PUBREC] for 2, and by nothing for 0; a ping may follow.
    The result is the type of the packet, what follows the packet stays to be
    read, and the session stays as it was. *)
Theorem message_delivered {W} `{!Platform W} {T0} `{!Link W T0} rounds timer (s : mstate W)
    dup qos retained id t payload rest :
  let h := header_byte PUBLISH dup qos retained in
  let body := publish_body qos id t payload in
  let pkt := packet h (zlen body) body in
  (2 <= rounds)%nat -> ahead (T0 := T0) timer -> good (net s) ->
  0 <= dup < 2 -> 0 <= qos < 3 -> 0 <= retained < 2 -> 0 <= id < 65536 -> zlen t < 65536 -> zlen body < 268435456 ->
  zlen pkt <= zlen (readbuf (cl s)) < 2 ^ 32 -> 4 <= zlen (c_buf (cl s)) ->
  incoming (net s) = pkt ++ rest ->
  exists s' ping,
    _mqtt_cycle rounds timer s = Some (PUBLISH, s')
    /\ calls s' = calls s ++ deliveries (cl s) (string_of t)
                               (message_of qos retained dup id payload (drop (length pkt) (readbuf (cl s))))
    /\ sent (net s') = sent (net s) ++ ack_of qos id ++ ping /\ (ping = [] \/ ping = ping_packet)
    /\ incoming (net s') = rest /\ good (net s') /\ kept (cl s) (cl s').
Proof.
  intros h body pkt Hr Ht Hg Hd Hq Hre Hid Hlt Hlb Hrb Hb Hi.
  destruct (header_fields PUBLISH dup qos retained) as (Hh & E1 & _); [unfold PUBLISH; lia|lia|lia|lia|]. fold h in Hh, E1.
  assert (Hs : st (cl s) (pkt ++ rest) (sent (net s)) (calls s) s) by (split_and!; done).
  assert (Hwp : wp (_mqtt_cycle rounds timer) s (fun r s' => r = PUBLISH /\ exists c' p, kept (cl s) c' /\ (p = [] \/ p = ping_packet) /\
    st c' rest ((sent (net s) ++ ack_of qos id) ++ p)
      (calls s ++ deliveries (cl s) (string_of t) (message_of qos retained dup id payload (drop (length pkt) (readbuf (cl s))))) s')).
  { unfold _mqtt_cycle. apply wp_bind. eapply wp_received; [exact Hlb|exact Hrb|exact Hs|].
    intros c1 s1 Hc1 Hs1. rewrite E1. pose proof (holds_kept pkt (cl s) c1 (proj1 Hrb) Hc1) as Hk1. apply wp_bind.
    change (cycle_switch rounds PUBLISH timer) with (cycle_publish (W := W) rounds timer).
    eapply (wp_publish_in rounds timer dup qos retained id t payload (drop (length pkt) (readbuf (cl s))) c1); try done.
    - by rewrite (kept_buf _ _ Hk1).
    - by destruct Hc1 as [t' ->].
    - intros c2 s2 Hk2 Hs2. apply wp_bind, wp_bind. eapply wp_keepalive; [done| |done|].
      { rewrite (kept_buf _ _ Hk2), (kept_buf _ _ Hk1). lia. }
      intros c3 p s3 Hk3 _ Hp Hs3. split; [done|]. exists c3, p. split; [by etransitivity; [|etransitivity]|]. split; [done|].
      replace (deliveries (cl s)) with (deliveries c1); [done|].
      unfold deliveries, receivers. by destruct (kept_handlers _ _ Hk1) as [-> ->]. }
  apply wp_elim in Hwp as (r & s' & E & -> & c' & p & Hk & Hp & (<- & Hg' & Hi' & Ho & Hc)).
  exists s', p. rewrite <- app_assoc in Ho. split_and!; done.
Qed.

Definition sample_client : MQTTClient :=
  mkClient 1 5000 (replicate 64 0) (replicate 64 0) 60 0 1 1
    (mkHandler (Some (str "a/+")) (Some 7) :: replicate 4 free_slot) None 0 0.

Definition sample_state (i : bytes) : mstate wire := mkState sample_client (mkWire 0 i []) [].

Lemma message_delivered_witness :
  let pkt := packet (header_byte PUBLISH 0 1 0) 8 (publish_body 1 9 (str "a/b") [1]) in
  exists s' ping,
    _mqtt_cycle 2 5000000 (sample_state pkt) = Some (PUBLISH, s')
    /\ calls s' = [(7, string_of (str "a/b"), message_of 1 0 0 9 [1] (replicate 54 0))]
    /\ w_out (net s') = [] ++ ack_of 1 9 ++ ping /\ (ping = [] \/ ping = ping_packet)
    /\ w_in (net s') = [] /\ w_time (net s') = u32 0 /\ kept sample_client (cl s').
Proof.
  intros pkt.
  destruct (message_delivered (T0 := 0) 2 5000000 (sample_state pkt) 0 1 0 9 (str "a/b") [1] [])
    as (s' & ping & E & Ec & Eo & Ep & Ei & Eg & Ek).
  - lia.
  - exists 5000000. split; [done|lia].
  - done.
  - lia.
  - lia.
  - lia.
  - lia.
  - by vm_compute.
  - by vm_compute.
  - split; by vm_compute.
  - by vm_compute.
  - done.
  - exists s', ping. split; [exact E|]. split; [rewrite Ec; by vm_compute|]. exact (conj Eo (conj Ep (conj Ei (conj Eg Ek)))).
Defined.

(** ** Writes in part *)

(** A link that accepts at most [cap] bytes at a time. *)
Record narrow := mkNarrow { n_cap : Z; n_out : bytes }.

#[global] Instance narrow_platform : Platform narrow := {
  os_systime w := (0, w);
  mqttread _ _ w := (0, [], w);
  mqttwrite bs _ w := let n := Z.min (n_cap w) (zlen bs) in (n, mkNarrow (n_cap w) (n_out w ++ take (Z.to_nat n) bs));
}.

(** A packet of four bytes over a link that accepts three bytes at a time: the
    second write is offered four bytes again instead of the one that is left, so
    that two bytes too many are sent and the call fails. *)
Theorem partial_write_fails c :
  c_buf c = ack_packet PUBACK 9 ++ replicate 8 0 ->
  exists c', sendPacket 4 4 1000000 (mkState c (mkNarrow 3 []) [])
             = Some (FAILURE, mkState c' (mkNarrow 3 (ack_packet PUBACK 9 ++ [0; 0])) []).
Proof.
  destruct c as [a b buf d e f g h i j k l]. cbn [c_buf]. intros ->. eexists. by vm_compute.
Qed.
