(* ===== verification/MqttCalls.v ===== *)
(** * The calls of the MQTT application

    A request of the application over a link that delivers: the packet sent,
    the answer waited for and its effect on the client. *)

From S2P Require Import Prelude BasicJson MqttPacket MqttCodec MqttRoundTrip MqttRead MqttClient MqttTopics MqttSession.

Section Calls.
Context {W : Type} `{!Platform W} {T0 : Z} `{!Link W T0}.
Context (rounds : nat).

(** The answers that a round only reports. *)
Definition reported (ty : Z) : Prop :=
  ty = CONNACK \/ ty = PUBACK \/ ty = SUBACK \/ ty = UNSUBACK \/ ty = PUBCOMP.

Lemma reported_switch ty timer : reported ty -> cycle_switch (W := W) rounds ty timer = c_ret (SUCCESS, false).
Proof. by intros [->|[->|[->|[->| ->]]]]. Qed.

(** A round that reads the packet of an answer. *)
Lemma wp_cycle_answer h body timer c i o k (s : mstate W) (Q : Z -> mstate W -> Prop) :
  let pkt := packet h (zlen body) body in
  (2 <= rounds)%nat -> reported (header_type h) -> zlen body < 268435456 ->
  zlen pkt <= zlen (readbuf c) < 2 ^ 32 -> 2 <= zlen (c_buf c) -> st (T0 := T0) c (pkt ++ i) o k s ->
  (forall c' p s', kept c c' -> readbuf c' = memcpy (readbuf c) 0 pkt -> p = [] \/ p = ping_packet ->
     st (T0 := T0) c' i (o ++ p) k s' -> Q (header_type h) s') ->
  wp (_mqtt_cycle rounds timer) s Q.
Proof.
  intros pkt Hr Ht Hb Hrb Hbuf Hs HQ. unfold _mqtt_cycle. apply wp_bind. eapply wp_received; [exact Hb|exact Hrb|exact Hs|].
  intros c1 s1 Hc1 Hs1. pose proof (holds_kept pkt c c1 (proj1 Hrb) Hc1) as Hk1.
  apply wp_bind. rewrite reported_switch by done. unfold wp at 1, c_ret. apply wp_bind, wp_bind.
  eapply wp_keepalive; [done| |done|]; [by rewrite (kept_buf _ _ Hk1)|].
  intros c2 p s2 Hk2 Hr2 Hp Hs2. change (SUCCESS =? SUCCESS) with true. eapply HQ; [by etransitivity| |done|done].
  rewrite Hr2. by destruct Hc1 as [t ->].
Qed.

Lemma wp_wait_last fuel h body timer rc c i o k (s : mstate W) (Q : Z -> mstate W -> Prop) :
  let pkt := packet h (zlen body) body in
  (2 <= rounds)%nat -> ahead (T0 := T0) timer -> reported (header_type h) -> zlen body < 268435456 ->
  zlen pkt <= zlen (readbuf c) < 2 ^ 32 -> 2 <= zlen (c_buf c) -> st (T0 := T0) c (pkt ++ i) o k s ->
  (forall c' p s', kept c c' -> readbuf c' = memcpy (readbuf c) 0 pkt -> p = [] \/ p = ping_packet ->
     st (T0 := T0) c' i (o ++ p) k s' -> Q (header_type h) s') ->
  wp (waitfor_loop rounds (S fuel) (header_type h) timer rc) s Q.
Proof.
  intros pkt Hr Ht Hty Hb Hrb Hbuf Hs HQ. cbn [waitfor_loop]. apply wp_bind. eapply wp_expired; [done|].
  intros b s1 Hexp Hs1. rewrite (Hexp Ht). apply wp_bind. eapply (wp_cycle_answer h body); [done|done|done|done|done|done|].
  intros c' p s2 Hk Hrd Hp Hs2. rewrite Z.eqb_refl. cbn [negb andb]. by eapply HQ.
Qed.

Lemma wp_waitfor h body timer c i o k (s : mstate W) (Q : Z -> mstate W -> Prop) :
  let pkt := packet h (zlen body) body in
  (2 <= rounds)%nat -> ahead (T0 := T0) timer -> reported (header_type h) -> zlen body < 268435456 ->
  zlen pkt <= zlen (readbuf c) < 2 ^ 32 -> 2 <= zlen (c_buf c) -> st (T0 := T0) c (pkt ++ i) o k s ->
  (forall c' p s', kept c c' -> readbuf c' = memcpy (readbuf c) 0 pkt -> p = [] \/ p = ping_packet ->
     st (T0 := T0) c' i (o ++ p) k s' -> Q (header_type h) s') ->
  wp (_mqtt_waitfor rounds (header_type h) timer) s Q.
Proof.
  intros pkt Hr. unfold _mqtt_waitfor. destruct rounds as [|r] eqn:Er; [lia|]. rewrite <- Er in *. rewrite Er at 2.
  by apply wp_wait_last.
Qed.

(** ** The release of a message of quality of service 2 *)

Lemma ack_read h id rest :
  0 <= id < 65536 -> MQTTDeserialize_ack (packet h 2 (int_bytes id) ++ rest) = Some (1, (header_type h, header_dup h, Some id)).
Proof.
  intros Hid. unfold packet, MQTTDeserialize_ack. rewrite <- !app_assoc. cbn [app _mqtt_readChar fst mbind option_bind].
  rewrite read_len_ok by lia. cbn [mbind option_bind snd]. change (2 <? 2) with false. cbn iota. by rewrite read_int.
Qed.

(** [PUBREC] is answered by [PUBREL]. *)
Lemma wp_cycle_pubrec id timer c i o k (s : mstate W) (Q : Z -> mstate W -> Prop) :
  (2 <= rounds)%nat -> ahead (T0 := T0) timer -> 0 <= id < 65536 ->
  4 <= zlen (readbuf c) < 2 ^ 32 -> 4 <= zlen (c_buf c) -> st (T0 := T0) c (ack_packet PUBREC id ++ i) o k s ->
  (forall c' p s', kept c c' -> p = [] \/ p = ping_packet ->
     st (T0 := T0) c' i ((o ++ ack_packet PUBREL id) ++ p) k s' -> Q PUBREC s') ->
  wp (_mqtt_cycle rounds timer) s Q.
Proof.
  intros Hr Ht Hid Hrb Hbuf Hs HQ. unfold _mqtt_cycle. apply wp_bind.
  eapply (wp_received (header_byte PUBREC 0 0 0) (int_bytes id)); [by vm_compute|exact Hrb|exact Hs|].
  intros c1 s1 Hc1 Hs1. pose proof (holds_kept (packet (header_byte PUBREC 0 0 0) 2 (int_bytes id)) c c1 (proj1 Hrb) Hc1) as Hk1.
  change (header_type (header_byte PUBREC 0 0 0)) with PUBREC. apply wp_bind.
  change (cycle_switch rounds PUBREC timer) with (cycle_release (W := W) rounds PUBREC timer). unfold cycle_release.
  eapply wp_get; [done|]. apply wp_bind. unfold c_some at 1, wp at 1.
  replace (readbuf c1) with (packet (header_byte PUBREC 0 0 0) 2 (int_bytes id) ++ drop 4 (readbuf c)) by (by destruct Hc1 as [t ->]).
  rewrite ack_read by done. change (negb (1 =? 1)) with false. change (PUBREC =? PUBREC) with true. cbn iota. apply wp_bind, wp_bind.
  eapply wp_mono; [eapply (wp_ack rounds PUBREL id timer c1 i o k s1 (fun rc s' => rc = SUCCESS /\ exists c2, kept c1 c2
    /\ st (T0 := T0) c2 i (o ++ ack_packet PUBREL id) k s')); try done; [by rewrite (kept_buf _ _ Hk1)|]|].
  { intros c2 s2 Hk2 _ Hs2. split; [done|]. by exists c2. }
  intros len s2 [Hlen Hw]. rewrite Hlen. apply wp_bind. eapply wp_mono; [exact Hw|]. intros rc s3 [-> (c2 & Hk2 & Hs3)].
  change (negb (SUCCESS =? SUCCESS)) with false. cbn iota. unfold wp at 1, c_ret. change (SUCCESS =? FAILURE) with false.
  apply wp_bind, wp_bind. eapply wp_keepalive; [done| |done|]; [rewrite (kept_buf _ _ Hk2), (kept_buf _ _ Hk1); lia|].
  intros c3 p s4 Hk3 _ Hp Hs4. change (SUCCESS =? SUCCESS) with true.
  eapply HQ; [by etransitivity; [|etransitivity]|done|done].
Qed.

(** A packet sent and its answer received. *)
Lemma wp_request {A} f pkt h body (fail : C W A) (fail' : Z -> C W A) (K : Z -> Z -> C W A) timer c i o k (s : mstate W) Q :
  let answer := packet h (zlen body) body in
  (2 <= rounds)%nat -> ahead (T0 := T0) timer -> f (c_buf c) = Some (zlen pkt, pkt ++ drop (length pkt) (c_buf c)) ->
  2 <= zlen pkt <= zlen (c_buf c) -> reported (header_type h) -> zlen body < 268435456 ->
  zlen answer <= zlen (readbuf c) < 2 ^ 32 -> st (T0 := T0) c (answer ++ i) o k s ->
  (forall c' p s', kept c c' -> readbuf c' = answer ++ drop (length answer) (readbuf c) -> p = [] \/ p = ping_packet ->
     st (T0 := T0) c' i ((o ++ pkt) ++ p) k s' -> wp (K SUCCESS (header_type h)) s' Q) ->
  wp (let* len := into_buf f in
      if len <=? 0 then fail
      else
        let* rc := sendPacket rounds len timer in
        if negb (rc =? SUCCESS) then fail' rc
        else let* got := _mqtt_waitfor rounds (header_type h) timer in K rc got) s Q.
Proof.
  intros answer Hr Ht Hf Hlen Hty Hb Hrb Hs HQ. apply wp_bind. eapply wp_mono.
  { eapply (wp_written rounds f pkt timer c _ o k s (fun rc s' => rc = SUCCESS /\ exists c', kept c c' /\ readbuf c' = readbuf c
      /\ st (T0 := T0) c' (answer ++ i) (o ++ pkt) k s')); [done|done|done|lia|done|].
    intros c' s' H1 H2 H3. split; [done|]. by exists c'. }
  intros len s1 [El Hw]. rewrite El. apply wp_bind. eapply wp_mono; [exact Hw|]. intros rc s2 [-> (c' & Hk & Hrd & Hs2)].
  change (negb (SUCCESS =? SUCCESS)) with false. cbn iota. apply wp_bind.
  eapply (wp_waitfor h body); [done|done|done|done| | |done|]; [by rewrite Hrd|rewrite (kept_buf _ _ Hk); lia|].
  intros c2 p s3 Hk2 Hrd2 Hp Hs3. eapply HQ; [by etransitivity|by rewrite Hrd2, Hrd|done|done].
Qed.

(** ** Subscribe *)

Definition subscribe_packet (id : Z) (filter : bytes) (qos : Z) : bytes :=
  let body := int_bytes id ++ wire_string filter ++ [qos] in packet (header_byte SUBSCRIBE 0 1 0) (zlen body) body.

Lemma subscribe_written id filter qos buf :
  0 <= id < 65536 -> zlen filter < 65536 -> 0 <= qos < 256 -> MQTTPacket_len (5 + zlen filter) <= zlen buf ->
  MQTTSerialize_subscribe buf 0 id [(cstr filter, qos)]
  = Some (zlen (subscribe_packet id filter qos), subscribe_packet id filter qos ++ drop (length (subscribe_packet id filter qos)) buf)
  /\ 2 <= zlen (subscribe_packet id filter qos) <= zlen buf.
Proof.
  intros Hid Hf Hq Hb. pose proof (zlen_nonneg filter). set (body := int_bytes id ++ wire_string filter ++ [qos]).
  assert (Hn : zlen body = 5 + zlen filter)
    by (unfold body; rewrite !zlen_app, zlen_wire; change (zlen (int_bytes id)) with 2; change (zlen [qos]) with 1; lia).
  pose proof (packet_len_bounds (zlen body) ltac:(lia)) as Hp. rewrite Hn in Hp.
  assert (Hz : zlen (subscribe_packet id filter qos) = 1 + digits_of (zlen body) + zlen body) by (apply zlen_packet; lia).
  assert (Hd : 1 <= digits_of (zlen body)) by (unfold digits_of; repeat case_if; lia). rewrite Hn in Hz, Hd.
  split; [|lia]. unfold MQTTSerialize_subscribe. cbn [map fst MQTTSerialize_subscribeLength].
  change (MQTTstrlen (cstr filter)) with (zlen filter). replace (2 + zlen filter + 1 + 2) with (zlen body) by lia.
  rewrite (proj2 (Z.ltb_ge _ _)) by (rewrite Hn; lia). apply serialize_ok; [|lia].
  apply writes_packet; [by vm_compute|]. apply writes_seq; [by apply writes_int|]. cbn [write_filters].
  apply writes_seq; [apply writes_string; split; [done|by left]|].
  rewrite <- (app_nil_r [qos]). apply writes_seq; [by apply writes_byte|apply writes_nil].
Qed.

(** The answer: one granted quality of service. *)
Definition suback_packet (id granted : Z) : bytes := packet (header_byte SUBACK 0 0 0) 3 (int_bytes id ++ [granted]).

Lemma suback_read id granted rest :
  0 <= id < 65536 -> MQTTDeserialize_suback (suback_packet id granted ++ rest) 1 = Some (1, Some (id, [granted])).
Proof.
  intros Hid. unfold suback_packet, packet, MQTTDeserialize_suback. rewrite <- !app_assoc. cbn [app _mqtt_readChar fst mbind option_bind].
  change (negb (header_type (header_byte SUBACK 0 0 0) =? SUBACK)) with false. cbn iota.
  rewrite read_len_ok by lia. cbn [mbind option_bind snd]. change (3 <? 2) with false. cbn iota.
  rewrite read_int by done. by destruct rest.
Qed.

(** The identifier after [n]: 1 to 65535 in turn. *)
Definition next_id (n : Z) : Z := if n =? MAX_PACKET_ID then 1 else n + 1.

Lemma next_id_range n : 0 <= n <= MAX_PACKET_ID -> 1 <= next_id n <= MAX_PACKET_ID.
Proof. unfold next_id, MAX_PACKET_ID. intros. case_if; lia. Qed.

Lemma wp_next_id c i o k (s : mstate W) (Q : Z -> mstate W -> Prop) :
  0 <= next_packetid c <= MAX_PACKET_ID -> st (T0 := T0) c i o k s ->
  (forall s', st (T0 := T0) (set_next_packetid (next_id (next_packetid c)) c) i o k s' -> Q (next_id (next_packetid c)) s') ->
  wp getNextPacketId s Q.
Proof.
  intros Hn Hs HQ. unfold getNextPacketId. eapply wp_get; [done|].
  assert (E : (if next_packetid c =? MAX_PACKET_ID then 1 else u32 (next_packetid c + 1)) = next_id (next_packetid c)).
  { unfold next_id. case_if; [done|]. apply u32_small. unfold MAX_PACKET_ID in *. lia. }
  rewrite E. apply wp_bind. eapply wp_modify; [done|]. exact HQ.
Qed.

(** The client after its session was closed. *)
Definition closed (c : MQTTClient) : MQTTClient :=
  set_handlers (if c_cleansession c =? 0 then messageHandlers c else map (fun mh => mkHandler None (fp mh)) (messageHandlers c))
    (set_connected 0 (set_ping 0 c)).

Lemma wp_close rc c i o k (s : mstate W) (Q : unit -> mstate W -> Prop) :
  st (T0 := T0) c i o k s -> (forall s', st (T0 := T0) (if rc =? FAILURE then closed c else c) i o k s' -> Q tt s') ->
  wp (close_on_failure rc) s Q.
Proof.
  intros Hs HQ. unfold close_on_failure. destruct (rc =? FAILURE); [|by apply HQ].
  unfold MQTTCloseSession. apply wp_bind. eapply wp_modify; [done|]. intros s1 Hs1. apply wp_bind. eapply wp_modify; [done|].
  intros s2 Hs2. eapply wp_get; [done|]. cbn [c_cleansession set_connected set_ping].
  destruct (c_cleansession c =? 0) eqn:E; cbn [negb].
  - apply HQ. unfold closed. rewrite E. by destruct c.
  - unfold MQTTCleanSession. eapply wp_modify; [done|]. intros s3 Hs3. apply HQ. unfold closed. by rewrite E.
Qed.

End Calls.

(** A subscription that the server answers.  The client sends a
    [SUBSCRIBE] packet with the next identifier, the filter and the quality of
    service; when the answer grants it, the handler is entered in the table,
    and when the answer refuses it, the table stays as it is, in both cases with
    the granted value reported.  The call fails only when the table has no room,
    and then closes the session. *)
Theorem subscribe_answered {W} `{!Platform W} {T0} `{!Link W T0} rounds (s : mstate W) filter qos mh id granted rest :
  let c := cl s in
  let '(rc, mhs) := if granted =? SUBFAIL then (SUCCESS, messageHandlers c) else MQTTSetMessageHandler (messageHandlers c) filter mh in
  (2 <= rounds)%nat -> good (net s) -> isconnected c <> 0 -> 1000 <= command_timeout_ms c <= 2000000 ->
  0 <= next_packetid c <= MAX_PACKET_ID -> zlen filter < 65536 -> 0 <= qos < 256 -> 0 <= id < 65536 ->
  MQTTPacket_len (5 + zlen filter) <= zlen (c_buf c) -> 5 <= zlen (readbuf c) < 2 ^ 32 ->
  incoming (net s) = suback_packet id granted ++ rest ->
  exists s' ping,
    MQTTSubscribeWithResults rounds filter qos mh s = Some ((rc, Some granted), s')
    /\ sent (net s') = sent (net s) ++ subscribe_packet (next_id (next_packetid c)) filter qos ++ ping
    /\ (ping = [] \/ ping = ping_packet) /\ incoming (net s') = rest /\ calls s' = calls s
    /\ next_packetid (cl s') = next_id (next_packetid c)
    /\ (if rc =? FAILURE then isconnected (cl s') = 0
        else isconnected (cl s') = isconnected c /\ messageHandlers (cl s') = mhs).
Proof.
  intros c. destruct (if granted =? SUBFAIL then _ else _) as [rc mhs] eqn:Eset.
  intros Hr Hg Hconn Hto Hnp Hf Hq Hid Hbuf Hrb Hi. pose proof (zlen_nonneg filter).
  pose proof (next_id_range _ Hnp) as Hid'. set (id' := next_id (next_packetid c)) in *. unfold MAX_PACKET_ID in Hid'.
  assert (Hs : st c (suback_packet id granted ++ rest) (sent (net s)) (calls s) s) by (split_and!; done).
  destruct (subscribe_written id' filter qos (c_buf c)) as [Hwr Hlen]; [lia|done|done|done|].
  assert (Hb2 : 2 <= zlen (c_buf c)) by lia.
  assert (Hwp : wp (MQTTSubscribeWithResults rounds filter qos mh) s (fun r s' => r = (rc, Some granted) /\ exists c' p,
    (p = [] \/ p = ping_packet) /\ st c' rest ((sent (net s) ++ subscribe_packet id' filter qos) ++ p) (calls s) s'
    /\ next_packetid c' = id'
    /\ (if rc =? FAILURE then isconnected c' = 0 else isconnected c' = isconnected c /\ messageHandlers c' = mhs))).
  2: { apply wp_elim in Hwp as (r & s' & E & -> & c' & p & Hp & (<- & Hg' & Hi' & Ho & Hk) & H1 & H2).
       exists s', p. rewrite <- app_assoc in Ho. split_and!; done. }
  unfold MQTTSubscribeWithResults. eapply wp_get; [done|]. apply wp_bind.
  rewrite (proj2 (Z.eqb_neq _ _) Hconn). apply wp_bind. eapply wp_countdown_ms; [done|done|]. intros timer s1 Ht Hs1.
  apply wp_bind. eapply wp_next_id; [done|done|]. intros s2 Hs2. fold id' in Hs2 |- *. rewrite u16_small by lia.
  eapply (wp_request rounds _ _ (header_byte SUBACK 0 0 0) (int_bytes id ++ [granted])
            _ _ (fun rc got => if got =? SUBACK then _ else _) timer (set_next_packetid id' c)); [done|done|exact Hwr|exact Hlen| |by vm_compute|fields; done|done|].
  { unfold reported. by right; right; left. }
  intros c4 p s4 Hk4 Hrd4 Hp Hs4. change (header_type (header_byte SUBACK 0 0 0) =? SUBACK) with true. cbn iota.
  eapply wp_get; [done|]. apply wp_bind. unfold c_some at 1, wp at 1. rewrite Hrd4. fields.
  change (packet (header_byte SUBACK 0 0 0) (zlen (int_bytes id ++ [granted])) (int_bytes id ++ [granted])) with (suback_packet id granted).
  rewrite suback_read by done. change (1 <? zlen [granted]) with false. cbn iota.
  assert (Hend : forall c5 s5, st c5 rest ((sent (net s) ++ subscribe_packet id' filter qos) ++ p) (calls s) s5 ->
      next_packetid c5 = id' -> isconnected c5 = isconnected c -> messageHandlers c5 = mhs ->
      wp (do* close_on_failure rc in c_ret (rc, Some granted)) s5 (fun r s' => r = (rc, Some granted) /\ exists c' p,
        (p = [] \/ p = ping_packet) /\ st c' rest ((sent (net s) ++ subscribe_packet id' filter qos) ++ p) (calls s) s'
        /\ next_packetid c' = id'
        /\ (if rc =? FAILURE then isconnected c' = 0 else isconnected c' = isconnected c /\ messageHandlers c' = mhs))).
  { intros c5 s5 Hs5 H1 H2 H3. apply wp_bind. eapply wp_close; [done|]. intros s6 Hs6. split; [done|].
    eexists _, p. split; [done|]. split; [exact Hs6|]. by destruct (rc =? FAILURE). }
  injection Hk4 as H1 _ _ H4 _ H6 _ _ _. destruct (Z.eqb_spec granted SUBFAIL) as [->|Hgr].
  - injection Eset as <- <-. by apply (Hend c4).
  - cbn [nth]. rewrite (proj2 (Z.eqb_neq _ _) Hgr). cbn [negb andb Z.eqb Pos.eqb]. apply wp_bind. unfold set_message_handler.
    eapply wp_get; [done|]. rewrite H6. fields. rewrite Eset. apply wp_bind. eapply wp_modify; [done|]. intros s5 Hs5.
    by apply (Hend (set_handlers mhs c4)).
Qed.

Lemma subscribe_answered_witness :
  exists s' ping,
    MQTTSubscribeWithResults 2 (str "x/#") 1 (Some 3) (sample_state (suback_packet 2 1)) = Some ((SUCCESS, Some 1), s')
    /\ w_out (net s') = [] ++ subscribe_packet 2 (str "x/#") 1 ++ ping
    /\ (ping = [] \/ ping = ping_packet) /\ w_in (net s') = [] /\ calls s' = []
    /\ next_packetid (cl s') = 2
    /\ isconnected (cl s') = 1
    /\ messageHandlers (cl s')
       = [mkHandler (Some (str "a/+")) (Some 7); mkHandler (Some (str "x/#")) (Some 3); free_slot; free_slot; free_slot].
Proof.
  destruct (subscribe_answered (T0 := 0) 2 (sample_state (suback_packet 2 1)) (str "x/#") 1 (Some 3) 2 1 [])
    as (s' & ping & E & Eo & Ep & Ei & Ec & En & Eh).
  - lia.
  - done.
  - done.
  - cbn. lia.
  - cbn. unfold MAX_PACKET_ID. lia.
  - by vm_compute.
  - lia.
  - lia.
  - by vm_compute.
  - split; by vm_compute.
  - done.
  - exists s', ping. exact (conj E (conj Eo (conj Ep (conj Ei (conj Ec (conj En Eh)))))).
Defined.

(** ** Publish *)

(** The identifier of a message, the server's answers and the release. *)
Definition numbered (qos : Z) : bool := (qos =? QOS1) || (qos =? QOS2).

Definition message_id (c : MQTTClient) (m : MQTTMessage) : option Z :=
  if numbered (m_qos m) then Some (next_id (next_packetid c)) else m_id m.

Definition answers (qos id1 id2 : Z) : bytes :=
  if qos =? QOS1 then ack_packet PUBACK id1 else if qos =? QOS2 then ack_packet PUBREC id1 ++ ack_packet PUBCOMP id2 else [].

Definition release (qos id1 : Z) : bytes := if qos =? QOS2 then ack_packet PUBREL id1 else [].

Definition payload_of (m : MQTTMessage) : bytes := take (Z.to_nat (m_payloadlen m)) (m_payload m).

Section Publish.
Context {W : Type} `{!Platform W} {T0 : Z} `{!Link W T0}.
Context (rounds : nat).

Definition pings (n : nat) : bytes := concat (replicate n ping_packet).

Lemma pings_of p : p = [] \/ p = ping_packet -> exists n, p = pings n /\ (n <= 1)%nat.
Proof. intros [->| ->]; [exists 0%nat|exists 1%nat]; split; done || lia. Qed.

Lemma pings_app n m : pings n ++ pings m = pings (n + m).
Proof. unfold pings. by rewrite replicate_add, concat_app. Qed.

(** The acknowledgement that ends a publication. *)
Lemma wp_wait_ack type id timer c i o k (s : mstate W) (Q : Z -> mstate W -> Prop) :
  (2 <= rounds)%nat -> ahead (T0 := T0) timer -> type = PUBACK \/ type = PUBCOMP -> 0 <= id < 65536 ->
  4 <= zlen (readbuf c) < 2 ^ 32 -> 2 <= zlen (c_buf c) -> st (T0 := T0) c (ack_packet type id ++ i) o k s ->
  (forall c' n s', kept c c' -> (n <= 1)%nat -> st (T0 := T0) c' i (o ++ pings n) k s' -> Q SUCCESS s') ->
  wp (wait_ack rounds type timer SUCCESS) s Q.
Proof.
  intros Hr Ht Hty Hid Hrb Hb Hs HQ.
  assert (Eh : header_type (header_byte type 0 0 0) = type /\ ack_packet type id = packet (header_byte type 0 0 0) 2 (int_bytes id))
    by (by destruct Hty as [->| ->]).
  destruct Eh as [Eh Ea]. rewrite Ea in Hs. unfold wait_ack. apply wp_bind. rewrite <- Eh.
  eapply (wp_waitfor rounds (header_byte type 0 0 0) (int_bytes id)); [done|done| |by vm_compute|done|done|done|].
  { rewrite Eh. unfold reported. destruct Hty as [->| ->]; tauto. }
  intros c' p s' Hk Hrd Hp Hs'. rewrite Z.eqb_refl. eapply wp_get; [done|]. apply wp_bind. unfold c_some at 1, wp at 1.
  change (memcpy (readbuf c) 0 (packet (header_byte type 0 0 0) (zlen (int_bytes id)) (int_bytes id)))
    with (packet (header_byte type 0 0 0) 2 (int_bytes id) ++ drop (length (packet (header_byte type 0 0 0) 2 (int_bytes id))) (readbuf c)) in Hrd.
  rewrite Hrd, ack_read by done. change (negb (1 =? 1)) with false. cbn iota.
  destruct (pings_of p Hp) as (n & -> & Hn). by eapply HQ.
Qed.

(** The two acknowledgements of quality of service 2. *)
Lemma wp_wait_release id1 id2 timer c i o k (s : mstate W) (Q : Z -> mstate W -> Prop) :
  (2 <= rounds)%nat -> ahead (T0 := T0) timer -> 0 <= id1 < 65536 -> 0 <= id2 < 65536 ->
  4 <= zlen (readbuf c) < 2 ^ 32 -> 4 <= zlen (c_buf c) ->
  st (T0 := T0) c (ack_packet PUBREC id1 ++ ack_packet PUBCOMP id2 ++ i) o k s ->
  (forall c' n s', kept c c' -> (n <= 2)%nat ->
     st (T0 := T0) c' i ((o ++ ack_packet PUBREL id1) ++ pings n) k s' -> Q SUCCESS s') ->
  wp (wait_ack rounds PUBCOMP timer SUCCESS) s Q.
Proof.
  intros Hr Ht Hid1 Hid2 Hrb Hb Hs HQ. destruct rounds as [|[|r]] eqn:Er; [lia|lia|]. rewrite <- Er in *.
  unfold wait_ack. apply wp_bind. unfold _mqtt_waitfor. rewrite Er at 2. cbn [waitfor_loop].
  apply wp_bind. eapply wp_expired; [done|]. intros b s1 Hexp Hs1. rewrite (Hexp Ht). apply wp_bind.
  eapply (wp_cycle_pubrec rounds id1); [done|done|done|done|done|done|]. intros c1 p1 s2 Hk1 Hp1 Hs2.
  change (negb (PUBREC =? PUBCOMP) && (0 <=? PUBREC)) with true. cbn iota.
  eapply (wp_wait_last rounds r (header_byte PUBCOMP 0 0 0) (int_bytes id2)); [done|done| |by vm_compute| | |exact Hs2|].
  { unfold reported. tauto. }
  { by rewrite (kept_readbuf _ _ Hk1). }
  { rewrite (kept_buf _ _ Hk1). lia. }
  intros c2 p2 s3 Hk2 Hrd Hp2 Hs3. change (header_type (header_byte PUBCOMP 0 0 0) =? PUBCOMP) with true. cbn iota.
  eapply wp_get; [done|]. apply wp_bind. unfold c_some at 1, wp at 1. rewrite Hrd.
  change (memcpy (readbuf c1) 0 (packet (header_byte PUBCOMP 0 0 0) (zlen (int_bytes id2)) (int_bytes id2)))
    with (packet (header_byte PUBCOMP 0 0 0) 2 (int_bytes id2) ++ drop (length (packet (header_byte PUBCOMP 0 0 0) 2 (int_bytes id2))) (readbuf c1)).
  rewrite ack_read by done. change (negb (1 =? 1)) with false. cbn iota.
  destruct (pings_of p1 Hp1) as (n1 & -> & Hn1), (pings_of p2 Hp2) as (n2 & -> & Hn2).
  rewrite <- (app_assoc _ (pings n1)), pings_app in Hs3. eapply (HQ c2 (n1 + n2)%nat); [by etransitivity|lia|done].
Qed.

(** The wait for the answers. *)
Lemma wp_acknowledged {A} (f : Z -> A) qos id1 id2 timer c i o k (s : mstate W) Q :
  (2 <= rounds)%nat -> ahead (T0 := T0) timer -> 0 <= id1 < 65536 -> 0 <= id2 < 65536 ->
  4 <= zlen (readbuf c) < 2 ^ 32 -> 4 <= zlen (c_buf c) -> st (T0 := T0) c (answers qos id1 id2 ++ i) o k s ->
  (forall c' n s', kept c c' -> (n <= 2)%nat -> st (T0 := T0) c' i ((o ++ release qos id1) ++ pings n) k s' -> Q (f SUCCESS) s') ->
  wp (if qos =? QOS1 then let* rc := wait_ack rounds PUBACK timer SUCCESS in c_ret (f rc)
      else if qos =? QOS2 then let* rc := wait_ack rounds PUBCOMP timer SUCCESS in c_ret (f rc)
      else c_ret (f SUCCESS)) s Q.
Proof.
  intros Hr Ht Hid1 Hid2 Hrb Hb Hs HQ. unfold answers, release in *. destruct (Z.eqb_spec qos QOS1) as [->|H1].
  - change (QOS1 =? QOS2) with false in HQ. cbn iota in HQ. apply wp_bind.
    eapply (wp_wait_ack PUBACK id1); [done|done|by left|done|done|lia|done|].
    intros c' n s' Hk Hn Hs'. eapply (HQ c' n); [done|lia|]. by rewrite app_nil_r.
  - destruct (Z.eqb_spec qos QOS2) as [->|H2].
    + apply wp_bind. rewrite <- app_assoc in Hs. eapply (wp_wait_release id1 id2); [done..|]. exact HQ.
    + apply (HQ c 0%nat); [done|lia|]. by rewrite !app_nil_r.
Qed.

End Publish.

(** C16: a publication that the server answers succeeds, for each quality of
    service: the client sends one [PUBLISH] packet with the topic, the payload,
    the flags and, above quality of service 0, the next identifier, which is
    also stored in the message; it waits for [PUBACK], or for [PUBREC], which it
    answers by [PUBREL] with the same identifier, and [PUBCOMP].  The session
    stays as it was. *)
Theorem publish_completed {W} `{!Platform W} {T0} `{!Link W T0} rounds (s : mstate W) topic m id1 id2 rest :
  let c := cl s in
  (2 <= rounds)%nat -> good (net s) -> isconnected c <> 0 -> 1000 <= command_timeout_ms c <= 2000000 ->
  0 <= next_packetid c <= MAX_PACKET_ID -> zlen topic < 65536 ->
  0 <= m_qos m < 3 -> 0 <= m_retained m < 2 -> 0 <= default 0 (m_id m) < 65536 -> 0 <= m_payloadlen m <= zlen (m_payload m) ->
  0 <= id1 < 65536 -> 0 <= id2 < 65536 ->
  MQTTSerialize_publishLength (m_qos m) (cstr topic) (m_payloadlen m) < 268435456 ->
  MQTTPacket_len (MQTTSerialize_publishLength (m_qos m) (cstr topic) (m_payloadlen m)) <= zlen (c_buf c) ->
  4 <= zlen (c_buf c) -> 4 <= zlen (readbuf c) < 2 ^ 32 ->
  incoming (net s) = answers (m_qos m) id1 id2 ++ rest ->
  exists s' n,
    MQTTPublish rounds topic m s
    = Some ((SUCCESS, mkMessage (m_qos m) (m_retained m) (m_dup m) (message_id c m) (m_payload m) (m_payloadlen m)), s')
    /\ sent (net s') = sent (net s)
         ++ publish_packet 0 (m_qos m) (m_retained m) (default 0 (message_id c m)) topic (payload_of m)
         ++ release (m_qos m) id1 ++ pings n
    /\ (n <= 2)%nat /\ incoming (net s') = rest /\ calls s' = calls s
    /\ isconnected (cl s') = isconnected c /\ messageHandlers (cl s') = messageHandlers c
    /\ next_packetid (cl s') = if numbered (m_qos m) then next_id (next_packetid c) else next_packetid c.
Proof.
  intros c Hr Hg Hconn Hto Hnp Htl Hq Hre Hmid Hpl Hid1 Hid2 Hsz Hbuf Hb4 Hrb Hi.
  set (m' := mkMessage (m_qos m) (m_retained m) (m_dup m) (message_id c m) (m_payload m) (m_payloadlen m)).
  set (c1 := if numbered (m_qos m) then set_next_packetid (next_id (next_packetid c)) c else c).
  pose proof (next_id_range _ Hnp) as Hid'. unfold MAX_PACKET_ID in Hid'.
  assert (Hid : 0 <= default 0 (m_id m') < 65536) by (cbn; unfold message_id; destruct (numbered (m_qos m)); cbn; lia).
  assert (Hzp : zlen (payload_of m) = m_payloadlen m) by (by apply zlen_take).
  assert (Hc1 : c_buf c1 = c_buf c /\ readbuf c1 = readbuf c /\ isconnected c1 = isconnected c
    /\ messageHandlers c1 = messageHandlers c
    /\ next_packetid c1 = if numbered (m_qos m) then next_id (next_packetid c) else next_packetid c)
    by (unfold c1; by destruct (numbered (m_qos m))).
  destruct Hc1 as (Eb & Er & Ec & Em & En).
  destruct (publish_written (c_buf c1) 0 (m_qos m) (m_retained m) (default 0 (m_id m')) (cstr topic) topic (payload_of m)) as [Hw Hz];
    [by split; [|left]|lia|lia|lia|done|by rewrite Hzp|by rewrite Hzp, Eb|].
  set (pkt := publish_packet _ _ _ _ _ _) in *.
  assert (Hs : st c (answers (m_qos m) id1 id2 ++ rest) (sent (net s)) (calls s) s) by (split_and!; done).
  assert (Hwp : wp (MQTTPublish rounds topic m) s (fun r s' => r = (SUCCESS, m') /\ exists c' n, kept c1 c' /\ (n <= 2)%nat
    /\ st c' rest ((sent (net s) ++ pkt ++ release (m_qos m) id1) ++ pings n) (calls s) s')).
  2: { apply wp_elim in Hwp as (r & s' & E & -> & c' & n & Hk & Hn & (<- & Hg' & Hi' & Ho & Hcl)).
       exists s', n. injection Hk as K1 _ _ K4 _ K6 _ _ _. rewrite <- !app_assoc in Ho. split_and!; congruence || done. }
  unfold MQTTPublish. eapply wp_get; [done|]. apply wp_bind. rewrite (proj2 (Z.eqb_neq _ _) Hconn).
  apply wp_bind. eapply wp_countdown_ms; [done|done|]. intros timer s1 Ht Hs1. apply wp_bind.
  eapply (wp_mono _ _ (fun m1 s2 => m1 = m' /\ st c1 (answers (m_qos m) id1 id2 ++ rest) (sent (net s)) (calls s) s2)).
  { unfold m', message_id, c1, numbered. destruct ((m_qos m =? QOS1) || (m_qos m =? QOS2)).
    - apply wp_bind. eapply wp_next_id; [done|done|]. intros s2 Hs2. rewrite u16_small by lia. by split.
    - split; [by destruct m|done]. }
  intros m1 s2 [-> Hs2]. apply wp_bind. eapply wp_mono.
  { eapply (wp_written rounds _ pkt timer c1 _ _ _ s2 (fun rc s' => rc = SUCCESS /\ exists c2, kept c1 c2 /\ readbuf c2 = readbuf c1
      /\ st (T0 := T0) c2 (answers (m_qos m) id1 id2 ++ rest) (sent (net s) ++ pkt) (calls s) s')); [done|done| |lia|done|].
    - cbn [m_payload m_payloadlen m_qos m_retained m']. rewrite (proj2 (Z.ltb_ge _ _)) by lia. exact Hw.
    - intros c2 s3 K1 K2 K3. split; [done|]. by exists c2. }
  intros len s3 [El Hsend]. rewrite El. apply wp_bind. eapply wp_mono; [exact Hsend|]. intros rc s4 [-> (c2 & Hk & Hrd & Hs4)].
  change (negb (SUCCESS =? SUCCESS)) with false. cbn iota.
  eapply (wp_acknowledged rounds (fun rc => (rc, m')) (m_qos m) id1 id2 timer c2); [done|done|done|done| | |done|].
  - by rewrite Hrd, Er.
  - by rewrite (kept_buf _ _ Hk), Eb.
  - intros c3 n s5 Hk3 Hn Hs5. apply wp_bind. eapply wp_close; [done|]. intros s6 Hs6. split; [done|]. exists c3, n.
    split; [by etransitivity|]. split; [done|]. by rewrite <- (app_assoc (sent (net s))) in Hs6.
Qed.

Definition sample_message : MQTTMessage := mkMessage 2 0 0 None [5; 6] 2.

Lemma publish_completed_witness :
  exists s' n,
    MQTTPublish 2 (str "t") sample_message (sample_state (ack_packet PUBREC 2 ++ ack_packet PUBCOMP 2))
    = Some ((SUCCESS, mkMessage 2 0 0 (Some 2) [5; 6] 2), s')
    /\ w_out (net s') = [] ++ publish_packet 0 2 0 2 (str "t") [5; 6] ++ ack_packet PUBREL 2 ++ pings n
    /\ (n <= 2)%nat /\ w_in (net s') = [] /\ calls s' = []
    /\ isconnected (cl s') = 1 /\ messageHandlers (cl s') = messageHandlers sample_client /\ next_packetid (cl s') = 2.
Proof.
  destruct (publish_completed (T0 := 0) 2 (sample_state (ack_packet PUBREC 2 ++ ack_packet PUBCOMP 2)) (str "t") sample_message 2 2 [])
    as (s' & n & E & Eo & En & Ei & Ec & E1 & E2 & E3).
  - lia.
  - done.
  - done.
  - cbn. lia.
  - cbn. unfold MAX_PACKET_ID. lia.
  - by vm_compute.
  - cbn. lia.
  - cbn. lia.
  - cbn. lia.
  - split; by vm_compute.
  - lia.
  - lia.
  - by vm_compute.
  - by vm_compute.
  - by vm_compute.
  - split; by vm_compute.
  - done.
  - exists s', n. exact (conj E (conj Eo (conj En (conj Ei (conj Ec (conj E1 (conj E2 E3))))))).
Defined.

(** ** Connect *)

Definition connack_packet (session code : Z) : bytes := packet (header_byte CONNACK 0 0 0) 2 [session; code].

Lemma connack_read session code buf :
  0 <= session < 2 ->
  MQTTDeserialize_connack (memcpy buf 0 (connack_packet session code)) = Some (1, Some (session, code)).
Proof.
  intros H. change (memcpy buf 0 (connack_packet session code))
    with ([header_byte CONNACK 0 0 0] ++ MQTTPacket_encode 2 ++ [session; code] ++ drop 4 buf).
  unfold MQTTDeserialize_connack. cbn [app _mqtt_readChar fst mbind option_bind].
  change (negb (header_type (header_byte CONNACK 0 0 0) =? CONNACK)) with false. cbn iota.
  rewrite read_len_ok by lia. cbn [mbind option_bind fst snd _mqtt_readChar]. change (2 <? 2) with false. cbn iota.
  by rewrite Z.mod_small.
Qed.

(** The exchange of the two packets. *)
Lemma connect_exchange {W} `{!Platform W} {T0} `{!Link W T0} rounds (s : mstate W) o cn session code rest :
  let c := cl s in
  (2 <= rounds)%nat -> good (net s) -> isconnected c = 0 -> 1000 <= command_timeout_ms c <= 2000000 ->
  describes o cn -> MQTTSerialize_connectLength o < 268435456 ->
  MQTTPacket_len (MQTTSerialize_connectLength o) <= zlen (c_buf c) -> 4 <= zlen (readbuf c) < 2 ^ 32 ->
  0 <= session < 2 -> 0 <= code < 256 ->
  incoming (net s) = connack_packet session code ++ rest ->
  exists s' ping,
    MQTTConnectWithResults rounds (Some o) s = Some ((code, Some (code, session)), s')
    /\ sent (net s') = sent (net s) ++ connect_packet cn ++ ping /\ (ping = [] \/ ping = ping_packet)
    /\ good (net s') /\ incoming (net s') = rest /\ calls s' = calls s
    /\ isconnected (cl s') = (if code =? 0 then 1 else 0) /\ messageHandlers (cl s') = messageHandlers c
    /\ c_keepAlive (cl s') = keepAliveInterval o /\ c_cleansession (cl s') = cleansession o.
Proof.
  intros c Hr Hg Hconn Hto D Hsz Hbuf Hrb Hse Hco Hi.
  assert (Hs : st c (connack_packet session code ++ rest) (sent (net s)) (calls s) s) by (split_and!; done).
  assert (Hwp : wp (MQTTConnectWithResults rounds (Some o)) s (fun r s' => r = (code, Some (code, session)) /\ exists c' p,
    (p = [] \/ p = ping_packet) /\ st c' rest ((sent (net s) ++ connect_packet cn) ++ p) (calls s) s'
    /\ isconnected c' = (if code =? 0 then 1 else 0) /\ messageHandlers c' = messageHandlers c
    /\ c_keepAlive c' = keepAliveInterval o /\ c_cleansession c' = cleansession o)).
  2: { apply wp_elim in Hwp as (r & s' & E & -> & c' & p & Hp & (<- & Hg' & Hi' & Ho & Hk) & H1 & H2 & H3 & H4).
       exists s', p. rewrite <- app_assoc in Ho. split_and!; done. }
  unfold MQTTConnectWithResults. eapply wp_get; [done|]. rewrite Hconn. change (negb (0 =? 0)) with false. cbn iota.
  apply wp_bind. eapply wp_countdown_ms; [done|done|]. intros timer s1 Ht Hs1. cbn [default].
  apply wp_bind. eapply wp_modify; [done|]. intros s2 Hs2. apply wp_bind. eapply wp_countdown; [done|]. intros t s3 Hs3.
  apply wp_bind. eapply wp_modify; [done|]. intros s4 Hs4. set (c4 := set_last_received _ _) in Hs4.
  destruct (connect_written (c_buf c4) o cn D Hsz Hbuf) as [Hw Hz].
  apply wp_bind. eapply wp_mono.
  { eapply (wp_written rounds _ (connect_packet cn) timer c4 _ _ _ s4 (fun rc s' => rc = SUCCESS /\ exists c', kept c4 c' /\ readbuf c' = readbuf c4
      /\ st (T0 := T0) c' (connack_packet session code ++ rest) (sent (net s) ++ connect_packet cn) (calls s) s'));
      [done|done|exact Hw|lia|done|].
    intros c' s' K1 K2 K3. split; [done|]. by exists c'. }
  intros len s5 [El Hsend]. rewrite El. apply wp_bind, wp_bind. eapply wp_mono; [exact Hsend|].
  intros rc s6 [-> (c5 & Hk5 & Hrd5 & Hs6)]. change (negb (SUCCESS =? SUCCESS)) with false. cbn iota. apply wp_bind.
  change CONNACK with (header_type (header_byte CONNACK 0 0 0)) at 1.
  eapply (wp_waitfor rounds (header_byte CONNACK 0 0 0) [session; code]); [done|done|by left|by vm_compute| | |done|].
  { rewrite Hrd5. exact Hrb. }
  { rewrite (kept_buf _ _ Hk5). lia. }
  intros c6 p s7 Hk6 Hrd6 Hp Hs7. change (header_type (header_byte CONNACK 0 0 0) =? CONNACK) with true. cbn iota.
  eapply wp_get; [done|]. apply wp_bind. unfold c_some at 1, wp at 1. rewrite Hrd6.
  replace (MQTTDeserialize_connack (memcpy (readbuf c5) 0 (packet (header_byte CONNACK 0 0 0) (zlen [session; code]) [session; code])))
    with (Some (1, Some (session, code))) by (symmetry; apply connack_read; lia).
  cbn [default Z.eqb Pos.eqb]. unfold wp at 1, c_ret at 1.
  injection Hk5 as _ _ A3 A4 A5 A6 _ _ _. injection Hk6 as _ _ B3 B4 B5 B6 _ _ _.
  assert (HE : isconnected c6 = 0 /\ messageHandlers c6 = messageHandlers c /\ c_keepAlive c6 = keepAliveInterval o
               /\ c_cleansession c6 = cleansession o) by (split_and!; congruence).
  destruct HE as (E1 & E2 & E3 & E4). apply wp_bind. unfold SUCCESS. destruct (code =? 0).
  - apply wp_bind. eapply wp_modify; [done|]. intros s8 Hs8. eapply wp_modify; [done|]. intros s9 Hs9. split; [done|].
    eexists _, p. split; [done|]. split; [exact Hs9|]. by fields.
  - split; [done|]. exists c6, p. by split_and!.
Qed.

(** A connection request that the server answers.  The client sends the
    request that says what the options say, for both versions of the protocol,
    and returns the code and the session flag of the answer; it takes over the
    keep-alive time and the clean-session flag, and is connected afterwards
    exactly when the code is 0. *)
Theorem connect_answered {W} `{!Platform W} {T0} `{!Link W T0} rounds (s : mstate W) o cn session code rest :
  let c := cl s in
  (2 <= rounds)%nat -> good (net s) -> isconnected c = 0 -> 1000 <= command_timeout_ms c <= 2000000 ->
  describes o cn -> MQTTSerialize_connectLength o < 268435456 ->
  MQTTPacket_len (MQTTSerialize_connectLength o) <= zlen (c_buf c) -> 4 <= zlen (readbuf c) < 2 ^ 32 ->
  0 <= session < 2 -> 0 <= code < 256 ->
  incoming (net s) = connack_packet session code ++ rest ->
  exists s' ping,
    MQTTConnectWithResults rounds (Some o) s = Some ((code, Some (code, session)), s')
    /\ sent (net s') = sent (net s) ++ connect_packet cn ++ ping /\ (ping = [] \/ ping = ping_packet)
    /\ incoming (net s') = rest /\ calls s' = calls s
    /\ isconnected (cl s') = (if code =? 0 then 1 else 0) /\ messageHandlers (cl s') = messageHandlers c
    /\ c_keepAlive (cl s') = keepAliveInterval o /\ c_cleansession (cl s') = cleansession o.
Proof.
  intros c Hr Hg Hconn Hto D Hsz Hbuf Hrb Hse Hco Hi.
  destruct (connect_exchange rounds s o cn session code rest Hr Hg Hconn Hto D Hsz Hbuf Hrb Hse Hco Hi)
    as (s' & p & E & Ho & Hp & _ & H). by exists s', p.
Qed.

Definition sample_offline (i : bytes) : mstate wire := mkState (set_connected 0 sample_client) (mkWire 0 i []) [].

Lemma connect_answered_witness :
  exists s' ping,
    MQTTConnectWithResults 2 (Some sample_options) (sample_offline (connack_packet 1 0)) = Some ((0, Some (0, 1)), s')
    /\ w_out (net s') = [] ++ connect_packet sample_conn ++ ping /\ (ping = [] \/ ping = ping_packet)
    /\ w_in (net s') = [] /\ calls s' = []
    /\ isconnected (cl s') = 1 /\ messageHandlers (cl s') = messageHandlers sample_client
    /\ c_keepAlive (cl s') = 60 /\ c_cleansession (cl s') = 1.
Proof.
  destruct (connect_answered (T0 := 0) 2 (sample_offline (connack_packet 1 0)) sample_options sample_conn 1 0 [])
    as (s' & p & E & Eo & Ep & Ei & Ec & E1 & E2 & E3 & E4).
  - lia.
  - done.
  - done.
  - cbn. lia.
  - exact sample_describes.
  - by vm_compute.
  - by vm_compute.
  - split; by vm_compute.
  - lia.
  - lia.
  - done.
  - exists s', p. exact (conj E (conj Eo (conj Ep (conj Ei (conj Ec (conj E1 (conj E2 (conj E3 E4)))))))).
Defined.
