(* ===== verification/WebSock.v ===== *)
(** * The WebSocket client (components/websocket/src/websock.c)

    Sending a message in masked frames and receiving frames with a state
    machine that can stop between any two reads.  The sockets (lwIP and the TLS
    wrapper), the random numbers and the allocator are the class [WsSystem].  An
    access outside of a buffer and a loop without end are [None]. *)

From S2P Require Import Prelude.

Definition WS_HDR_FIN_BIT : Z := 128.
Definition WS_HDR_MASK_BIT : Z := 128.
Definition WS_HDR_OPCODE_MASK : Z := 15.
Definition WS_MAX_FRAME_SIZE : Z := 1460.
Definition WS_MAX_HEADERLEN : Z := 8.
Definition WS_MAX_FRAME_PAYLOAD : Z := 1452.
Definition WS_MIN_HDR_LEN : Z := 2.

Definition WS_OPCODE_CONTINUE : Z := 0.
Definition WS_OPCODE_TEXT : Z := 1.
Definition WS_OPCODE_BINARY : Z := 2.
Definition WS_OPCODE_CLOSE : Z := 8.
Definition WS_OPCODE_PING : Z := 9.
Definition WS_OPCODE_PONG : Z := 10.

Inductive ws_state := WS_STATE_HDR_RECEIVING | WS_STATE_EXND_PL_LEN_RECEIVING | WS_STATE_PAYLOAD_RECEIVING.

Record websock_msg_hdr_t := mkHdr { fin : Z; opcode : Z; hdr_payload_len : Z }.

(** The fields of a connection that sending and receiving use; [h_buf] is
    [None] until it is allocated. *)
Record ws_handle := mkWs {
  sock_fd : Z;
  secured : bool;
  h_buf : option bytes;
  h_state : ws_state;
  payload_unread_len : Z;
  frame_hdr : bytes;
  hdr_index : Z;
  hdr_unread_len : Z;
  h_payload_len : Z;
  msg_hdr : websock_msg_hdr_t;
}.

(** The results and, for a read, the bytes stored. *)
Class WsSystem (W : Type) := {
  get_random_bytes : Z -> W -> bytes * W;
  os_alloc : Z -> W -> option bytes * W;
  ssl_wrap_write : bytes -> W -> Z * W;
  send : bytes -> W -> Z * W;
  ssl_wrap_read_timeout : Z -> Z -> W -> Z * bytes * W;
  select : Z -> W -> Z * W;
  recv : Z -> W -> Z * bytes * W;
}.

(** ** Byte order *)

(** The value of bytes in the order of the network and of the processor. *)
Definition be (l : bytes) : Z := fold_left (fun a b => 256 * a + b) l 0.
Definition le (l : bytes) : Z := be (rev l).

(** [ntohl] and [ws_ntohll] of a number in memory. *)
Definition word_bytes (n : Z) : bytes := [n mod 256; n / 256 mod 256; n / 65536 mod 256; n / 16777216 mod 256].
Definition ntohl (n : Z) : Z := be (word_bytes n).

(** The two words of the 64-bit argument, the low one first in memory. *)
Definition ws_ntohll (n_num : Z) : Z :=
  ntohl (n_num mod 2 ^ 32) * 2 ^ 32 + ntohl (n_num / 2 ^ 32 mod 2 ^ 32).

Section WebSock.
Context {W : Type} `{WsSystem W}.

Definition ws_socket_send (h : ws_handle) (buf : bytes) (w : W) : Z * W :=
  if secured h then ssl_wrap_write buf w else send buf w.

Definition ws_socket_recv (h : ws_handle) (len timeout_sec : Z) (w : W) : Z * bytes * W :=
  if secured h then ssl_wrap_read_timeout len (u32 (timeout_sec * 1000)) w
  else
    let '(ret, w) := select timeout_sec w in
    if 0 <? ret then recv len w else (0, [], w).

(** ** Sending *)

(** [*((unsigned int * )p) ^= mask] for [n] words from [p] on; a masked payload
    ends inside the 1460 bytes of the buffer. *)
Fixpoint mask_loop (n : nat) (buf : bytes) (p : Z) (mask : bytes) : bytes :=
  match n with
  | O => buf
  | S n' =>
      let x j := Z.lxor (bget buf (p + j)) (bget mask j) in
      mask_loop n' (memcpy buf p [x 0; x 1; x 2; x 3]) (p + 4) mask
  end.

(** The header of a frame at the start of the buffer, and its length, which is
    not set for a payload of 65535 bytes or more. *)
Definition encode_header (buf : bytes) (payload_len len opcode : Z) (mask : bytes) : option (bytes * Z) :=
  let buf := memcpy buf 0 (replicate 8 0) in
  let buf := memcpy buf 0 [u8 (if len =? 0 then opcode + WS_HDR_FIN_BIT else opcode)] in
  if payload_len <? 126 then
    let buf := memcpy buf 1 [u8 (u8 payload_len + WS_HDR_MASK_BIT)] in
    Some (memcpy buf 2 mask, 6)
  else if payload_len <? 65535 then
    let buf := memcpy buf 1 [u8 (126 + WS_HDR_MASK_BIT)] in
    let buf := memcpy buf 2 [payload_len / 256; payload_len mod 256] in
    Some (memcpy buf 4 mask, 8)
  else None.

(** The [do ... while (len)] loop; [buf] is the caller's buffer from the pointer
    on, [None] for [NULL].  The result, the frame buffer and the system. *)
Fixpoint send_loop (fuel : nat) (h : ws_handle) (hbuf : bytes) (buf : option bytes) (len opcode : Z) (continuation_frame : bool)
    (mask : bytes) (in_len : Z) (w : W) : option (Z * bytes * W) :=
  match fuel with
  | O => None
  | S fuel' =>
      let opcode := if continuation_frame then WS_OPCODE_CONTINUE else opcode in
      let payload_len := if WS_MAX_FRAME_PAYLOAD <? len then WS_MAX_FRAME_PAYLOAD else len in
      let len := len - payload_len in
      '(hbuf, header_len) ← encode_header hbuf payload_len len opcode mask;
      match buf with
      | None =>
          let '(_, w) := ws_socket_send h (take (Z.to_nat header_len) hbuf) w in
          Some (in_len, hbuf, w)
      | Some data =>
          if (payload_len <? 0) || (zlen data <? payload_len) then None
          else
            let hbuf := memcpy hbuf header_len (take (Z.to_nat payload_len) data) in
            let word_align_adjust :=
              if negb (Z.land payload_len 3 =? 0) then 4 - Z.land payload_len 3 else 0 in
            let hbuf := mask_loop (Z.to_nat ((payload_len + word_align_adjust) / 4)) hbuf header_len mask in
            let '(rval, w) := ws_socket_send h (take (Z.to_nat (payload_len + header_len)) hbuf) w in
            if rval <? 0 then Some (rval, hbuf, w)
            else if negb (len =? 0)
                 then send_loop fuel' h hbuf (Some (drop (Z.to_nat payload_len) data)) len opcode true mask in_len w
                 else Some (in_len, hbuf, w)
      end
  end.

Definition set_h_buf (h : ws_handle) (b : bytes) : ws_handle :=
  mkWs (sock_fd h) (secured h) (Some b) (h_state h) (payload_unread_len h) (frame_hdr h) (hdr_index h) (hdr_unread_len h)
    (h_payload_len h) (msg_hdr h).

(** Every frame but the last carries 1452 bytes. *)
Definition ws_send_internal (h : ws_handle) (buf : option bytes) (len opcode : Z) (w : W) : option (Z * ws_handle * W) :=
  let '(mask, w) := get_random_bytes 4 w in
  let '(b, w) := match h_buf h with Some b => (Some b, w) | None => os_alloc WS_MAX_FRAME_SIZE w end in
  match b with
  | None => Some (-1, h, w)
  | Some hbuf =>
      '(r, hbuf, w) ← send_loop (Z.to_nat len + 1) h hbuf buf len opcode false mask len w;
      Some (r, set_h_buf h hbuf, w)
  end.

Definition websock_send_text (h : ws_handle) (payload : option bytes) (len : Z) := ws_send_internal h payload len WS_OPCODE_TEXT.
Definition websock_send_binary (h : ws_handle) (payload : option bytes) (len : Z) := ws_send_internal h payload len WS_OPCODE_BINARY.
Definition websock_send_ping (h : ws_handle) (payload : option bytes) (len : Z) := ws_send_internal h payload len WS_OPCODE_PING.
Definition websock_send_pong (h : ws_handle) (payload : option bytes) (len : Z) := ws_send_internal h payload len WS_OPCODE_PONG.

(** ** Receiving *)

Definition ws_set_recv_state_to_frame_hdr_receiving (h : ws_handle) : ws_handle :=
  mkWs (sock_fd h) (secured h) (h_buf h) WS_STATE_HDR_RECEIVING (payload_unread_len h) (frame_hdr h) 0 WS_MIN_HDR_LEN
    (h_payload_len h) (msg_hdr h).

Definition invalid_hdr : websock_msg_hdr_t := mkHdr (-1) (-1) 0.

(** What a call stores: the result, the caller's header, buffer and length. *)
Record received := mkReceived { r_rval : Z; r_hdr : websock_msg_hdr_t; r_buf : bytes; r_len : Z }.

(** A phase either returns or goes on with the last number of bytes read, the
    buffer and the length. *)
Inductive phase :=
  | Return_ (r : received) (h : ws_handle) (w : W)
  | Go_on (nread : Z) (buf : bytes) (len : Z) (h : ws_handle) (w : W).

(** [ws_socket_recv(h, &h->frame_hdr[h->hdr_index], h->hdr_unread_len, timeout)] *)
Definition recv_hdr (h : ws_handle) (timeout : Z) (w : W) : option (Z * bytes * W) :=
  let '(nread, cs, w) := ws_socket_recv h (hdr_unread_len h) timeout w in
  b ← store (frame_hdr h) (hdr_index h) cs;
  Some (nread, b, w).

Definition set_frame (h : ws_handle) (b : bytes) (index unread : Z) : ws_handle :=
  mkWs (sock_fd h) (secured h) (h_buf h) (h_state h) (payload_unread_len h) b index unread (h_payload_len h) (msg_hdr h).

Definition header_phase (h : ws_handle) (buf : bytes) (len timeout : Z) (w : W) : option phase :=
  let h := if hdr_unread_len h =? 0 then set_frame h (frame_hdr h) (hdr_index h) WS_MIN_HDR_LEN else h in
  '(nread, b, w) ← recv_hdr h timeout w;
  let h := set_frame h b (hdr_index h) (hdr_unread_len h) in
  if nread <=? 0 then Some (Return_ (mkReceived nread invalid_hdr buf 0) h w)
  else if nread <? hdr_unread_len h then
    Some (Return_ (mkReceived 0 invalid_hdr buf 0) (set_frame h b (hdr_index h + nread) (hdr_unread_len h - nread)) w)
  else
    let index := hdr_index h + nread in
    let f := if negb (Z.land (bget b 0) WS_HDR_FIN_BIT =? 0) then 1 else 0 in
    let op := Z.land (bget b 0) WS_HDR_OPCODE_MASK in
    let payload_len := Z.land (bget b 1) 127 in
    if 125 <? payload_len then
      Some (Go_on nread buf len
        (mkWs (sock_fd h) (secured h) (h_buf h) WS_STATE_EXND_PL_LEN_RECEIVING (payload_unread_len h) b index
           (if payload_len =? 126 then 2 else 8) payload_len (mkHdr f op (hdr_payload_len (msg_hdr h)))) w)
    else
      let h := mkWs (sock_fd h) (secured h) (h_buf h) WS_STATE_PAYLOAD_RECEIVING payload_len b index
                 (hdr_unread_len h) (h_payload_len h) (mkHdr f op payload_len) in
      if payload_len =? 0 then Some (Go_on nread buf 0 (ws_set_recv_state_to_frame_hdr_receiving h) w)
      else Some (Go_on nread buf len h w).

(** The index is not advanced when only a part of the length arrives; the
    length is cut to an [int] before its bytes are put in order. *)
Definition length_phase (h : ws_handle) (buf : bytes) (len timeout : Z) (w : W) : option phase :=
  '(nread, b, w) ← recv_hdr h timeout w;
  let h := set_frame h b (hdr_index h) (hdr_unread_len h) in
  if nread <=? 0 then Some (Return_ (mkReceived nread invalid_hdr buf 0) h w)
  else if nread <? hdr_unread_len h then
    Some (Return_ (mkReceived 0 invalid_hdr buf 0) (set_frame h b (hdr_index h) (hdr_unread_len h - nread)) w)
  else
    let payload_len :=
      if h_payload_len h =? 126 then be [bget b 2; bget b 3]
      else s32 (u32 (ws_ntohll (s32 (le [bget b 2; bget b 3; bget b 4; bget b 5])))) in
    Some (Go_on nread buf len
      (mkWs (sock_fd h) (secured h) (h_buf h) WS_STATE_PAYLOAD_RECEIVING payload_len b (hdr_index h) (hdr_unread_len h)
         (h_payload_len h) (mkHdr (fin (msg_hdr h)) (opcode (msg_hdr h)) payload_len)) w).

Definition set_unread (h : ws_handle) (n : Z) : ws_handle :=
  mkWs (sock_fd h) (secured h) (h_buf h) (h_state h) n (frame_hdr h) (hdr_index h) (hdr_unread_len h) (h_payload_len h) (msg_hdr h).

(** The label [exhaust_ping_payload]; each round is taken to have read all it
    asked for. *)
Fixpoint payload_phase (fuel : nat) (h : ws_handle) (buf : bytes) (len timeout : Z) (w : W) : option phase :=
  match fuel with
  | O => None
  | S fuel' =>
      let recv_len := if len <? payload_unread_len h then len else payload_unread_len h in
      let '(nread, cs, w) := ws_socket_recv h recv_len timeout w in
      buf ← store buf 0 cs;
      if nread <=? 0 then Some (Return_ (mkReceived nread invalid_hdr buf 0) h w)
      else
        let h := set_unread h (payload_unread_len h - recv_len) in
        if (Z.land (bget (frame_hdr h) 0) WS_HDR_OPCODE_MASK =? WS_OPCODE_PING) && negb (payload_unread_len h =? 0)
        then payload_phase fuel' h buf len timeout w
        else
          let h := if payload_unread_len h =? 0 then ws_set_recv_state_to_frame_hdr_receiving h else h in
          Some (Go_on nread buf recv_len h w)
  end.

(** Code that runs when the state is [s]. *)
Definition in_state (s : ws_state) (p : phase) (k : ws_handle -> bytes -> Z -> W -> option phase) : option phase :=
  match p with
  | Return_ _ _ _ => Some p
  | Go_on nread buf len h w =>
      match s, h_state h with
      | WS_STATE_EXND_PL_LEN_RECEIVING, WS_STATE_EXND_PL_LEN_RECEIVING
      | WS_STATE_PAYLOAD_RECEIVING, WS_STATE_PAYLOAD_RECEIVING
      | WS_STATE_HDR_RECEIVING, WS_STATE_HDR_RECEIVING => k h buf len w
      | _, _ => Some p
      end
  end.

(** [rounds] bounds the rounds of both labels. *)
Fixpoint recv_loop (rounds fuel : nat) (h : ws_handle) (buf : bytes) (len in_buf_len timeout : Z) (w : W)
  : option (received * ws_handle * W) :=
  match fuel with
  | O => None
  | S fuel' =>
      p ← in_state WS_STATE_HDR_RECEIVING (Go_on 0 buf len h w) (fun h buf len w => header_phase h buf len timeout w);
      p ← in_state WS_STATE_EXND_PL_LEN_RECEIVING p (fun h buf len w => length_phase h buf len timeout w);
      p ← in_state WS_STATE_PAYLOAD_RECEIVING p (fun h buf len w => payload_phase rounds h buf len timeout w);
      match p with
      | Return_ r h w => Some (r, h, w)
      | Go_on nread buf len h w =>
          if opcode (msg_hdr h) =? WS_OPCODE_PING then
            '(_, h, w) ← ws_send_internal h None 0 WS_OPCODE_PONG w;
            recv_loop rounds fuel' h buf in_buf_len in_buf_len timeout w
          else Some (mkReceived nread (msg_hdr h) buf len, h, w)
      end
  end.

Definition ws_recv_internal (rounds : nat) (h : ws_handle) (buf : bytes) (len timeout : Z) (w : W)
  : option (received * ws_handle * W) := recv_loop rounds rounds h buf len len timeout w.

Definition websock_recv := ws_recv_internal.

End WebSock.
