(* ===== verification/WebSockProps.v ===== *)
(** * Messages of the WebSocket client

    What the client sends is, for a decoder that follows the format of the
    frames, the message cut into masked frames; what it receives over a link
    that delivers is the payload of the frame sent, with the pings before it
    answered. *)

From S2P Require Import Prelude WebSock.

(** ** A reference decoder *)

Record frame := mkFrame { f_fin : bool; f_op : Z; f_payload : bytes }.

(** Octet [i] with octet [i mod 4] of the key. *)
Definition xor_mask (mask l : bytes) : bytes := imap (fun i b => Z.lxor b (nth (i mod 4) mask 0)) l.

(** The length: 7 bits, or the 2 or 8 bytes that follow. *)
Definition decode_length (n : Z) (l : bytes) : option (Z * bytes) :=
  if n <? 126 then Some (n, l)
  else
    let k := if n =? 126 then 2%nat else 8%nat in
    if (length l <? k)%nat then None else Some (be (take k l), drop k l).

Definition decode_frame (l : bytes) : option (frame * bytes) :=
  match l with
  | b0 :: b1 :: l =>
      '(n, l) ← decode_length (b1 mod 128) l;
      let k := if 128 <=? b1 then 4%nat else 0%nat in
      if (length l <? k)%nat || (zlen (drop k l) <? n) then None
      else
        let payload := take (Z.to_nat n) (drop k l) in
        Some (mkFrame (128 <=? b0) (b0 mod 16) (if 128 <=? b1 then xor_mask (take 4 l) payload else payload),
              drop (Z.to_nat n) (drop k l))
  | _ => None
  end.

Fixpoint decode_frames (fuel : nat) (l : bytes) : option (list frame) :=
  match l with
  | [] => Some []
  | _ =>
      match fuel with
      | O => None
      | S fuel' => '(f, l) ← decode_frame l; fs ← decode_frames fuel' l; Some (f :: fs)
      end
  end.

(** ** A link that delivers *)

Class WsLink (W : Type) `{WsSystem W} := {
  arrived : W -> bytes;
  gone : W -> bytes;
  link_random : forall w, exists m w',
    get_random_bytes 4 w = (m, w') /\ zlen m = 4 /\ is_bytes m /\ arrived w' = arrived w /\ gone w' = gone w;
  link_alloc : forall w, exists b w',
    os_alloc WS_MAX_FRAME_SIZE w = (Some b, w') /\ zlen b = WS_MAX_FRAME_SIZE /\ arrived w' = arrived w /\ gone w' = gone w;
  link_ssl_write : forall bs w, exists w',
    ssl_wrap_write bs w = (zlen bs, w') /\ arrived w' = arrived w /\ gone w' = gone w ++ bs;
  link_send : forall bs w, exists w', send bs w = (zlen bs, w') /\ arrived w' = arrived w /\ gone w' = gone w ++ bs;
  link_ssl_read : forall n ms w, 0 < n <= zlen (arrived w) -> exists w',
    ssl_wrap_read_timeout n ms w = (n, take (Z.to_nat n) (arrived w), w')
    /\ arrived w' = drop (Z.to_nat n) (arrived w) /\ gone w' = gone w;
  link_select : forall t w, arrived w <> [] -> exists w', select t w = (1, w') /\ arrived w' = arrived w /\ gone w' = gone w;
  link_recv : forall n w, 0 < n <= zlen (arrived w) -> exists w',
    recv n w = (n, take (Z.to_nat n) (arrived w), w') /\ arrived w' = drop (Z.to_nat n) (arrived w) /\ gone w' = gone w;
}.

(** A link that exists: two queues. *)
Record pipe := mkPipe { p_in : bytes; p_out : bytes }.

#[global] Instance pipe_system : WsSystem pipe := {
  get_random_bytes n w := ([18; 52; 86; 120], w);
  os_alloc n w := (Some (replicate (Z.to_nat n) 0), w);
  ssl_wrap_write bs w := (zlen bs, mkPipe (p_in w) (p_out w ++ bs));
  send bs w := (zlen bs, mkPipe (p_in w) (p_out w ++ bs));
  ssl_wrap_read_timeout n _ w := (zlen (take (Z.to_nat n) (p_in w)), take (Z.to_nat n) (p_in w), mkPipe (drop (Z.to_nat n) (p_in w)) (p_out w));
  select _ w := (match p_in w with [] => 0 | _ => 1 end, w);
  recv n w := (zlen (take (Z.to_nat n) (p_in w)), take (Z.to_nat n) (p_in w), mkPipe (drop (Z.to_nat n) (p_in w)) (p_out w));
}.

#[global, refine] Instance pipe_link : WsLink pipe := { arrived := p_in; gone := p_out }.
Proof.
  - intros w. exists [18; 52; 86; 120], w. split_and!; try done. by repeat constructor.
  - intros w. by eexists _, w.
  - intros bs w. by eexists.
  - intros bs w. by eexists.
  - intros n ms w Hn. eexists. cbn. by rewrite zlen_take by lia.
  - intros t [i o] Hi. eexists. split; [|done]. by destruct i.
  - intros n w Hn. eexists. cbn. by rewrite zlen_take by lia.
Defined.

(** ** Masking *)

Lemma length_xor_mask m l : length (xor_mask m l) = length l.
Proof. apply length_imap. Qed.

Lemma bget_xor_mask m l i : 0 <= i < zlen l -> bget (xor_mask m l) i = Z.lxor (bget l i) (bget m (i mod 4)).
Proof.
  intros Hi. unfold zlen in Hi. unfold bget.
  rewrite (nth_lookup_Some (xor_mask m l) (Z.to_nat i) 0 (Z.lxor (nth (Z.to_nat i) l 0) (nth (Z.to_nat i mod 4) m 0))).
  - do 2 f_equal. rewrite Z2Nat.inj_mod by lia. done.
  - unfold xor_mask. rewrite list_lookup_imap. destruct (l !! Z.to_nat i) as [x|] eqn:E.
    + cbn. by rewrite (nth_lookup_Some _ _ _ _ E).
    + apply lookup_ge_None in E. lia.
Qed.

Lemma xor_mask_twice m l : xor_mask m (xor_mask m l) = l.
Proof.
  apply bytes_ext; [by rewrite !length_xor_mask|]. unfold zlen. rewrite !length_xor_mask. intros i Hi.
  rewrite !bget_xor_mask by (unfold zlen; rewrite ?length_xor_mask; lia).
  by rewrite Z.lxor_assoc, Z.lxor_nilpotent, Z.lxor_0_r.
Qed.

Lemma mask_loop_spec mask n : forall buf p,
  0 <= p -> p + 4 * Z.of_nat n <= zlen buf ->
  zlen (mask_loop n buf p mask) = zlen buf
  /\ forall i, 0 <= i -> bget (mask_loop n buf p mask) i
     = if (p <=? i) && (i <? p + 4 * Z.of_nat n) then Z.lxor (bget buf i) (bget mask ((i - p) mod 4)) else bget buf i.
Proof.
  induction n as [|n IH]; intros buf p Hp Hl.
  - split; [done|]. intros i Hi. cbn [mask_loop]. case_if; [lia|done].
  - cbn [mask_loop]. set (w4 := [_; _; _; _]). assert (Hz : zlen w4 = 4) by done.
    destruct (IH (memcpy buf p w4) (p + 4)) as [H1 H2]; [lia|rewrite zlen_memcpy; lia|].
    split; [by rewrite H1, zlen_memcpy by lia|]. intros i Hi. rewrite H2, bget_memcpy, Hz by lia.
    assert (Hm : p + 4 <= i -> (i - (p + 4)) mod 4 = (i - p) mod 4).
    { intros _. replace (i - p) with (i - (p + 4) + 1 * 4) by lia. by rewrite Z.mod_add by lia. }
    destruct (Z.leb_spec (p + 4) i), (Z.ltb_spec i (p + 4 + 4 * Z.of_nat n)), (Z.leb_spec p i),
      (Z.ltb_spec i (p + 4 * Z.of_nat (S n))), (Z.ltb_spec i (p + 4)); cbn [andb]; try lia; try done.
    + by rewrite Hm.
    + assert (Hc : i - p = 0 \/ i - p = 1 \/ i - p = 2 \/ i - p = 3) by lia. unfold w4.
      replace (bget buf i) with (bget buf (p + (i - p))) by (f_equal; lia).
      destruct Hc as [->|[->|[->| ->]]]; done.
Qed.

(** ** Frames sent *)

Definition head (final : bool) (op n : Z) (mask : bytes) : bytes :=
  [op + (if final then 128 else 0)] ++ (if n <? 126 then [n + 128] else [254; n / 256; n mod 256]) ++ mask.

Definition wire (mask : bytes) (f : frame) : bytes :=
  head (f_fin f) (f_op f) (zlen (f_payload f)) mask ++ xor_mask mask (f_payload f).

Lemma four (m : bytes) : zlen m = 4 -> exists a b c d, m = [a; b; c; d].
Proof. destruct m as [|a [|b [|c [|d [|e m]]]]]; try done; [by eauto|]. rewrite !zlen_cons. pose proof (zlen_nonneg m). lia. Qed.

Lemma zlen_head final op n mask : zlen mask = 4 -> zlen (head final op n mask) = if n <? 126 then 6 else 8.
Proof. intros Hm. unfold head. rewrite !zlen_app, Hm. by destruct (n <? 126). Qed.

Lemma encode_header_spec buf n len op mask :
  zlen buf = WS_MAX_FRAME_SIZE -> zlen mask = 4 -> 0 <= op < 16 -> 0 <= n <= WS_MAX_FRAME_PAYLOAD ->
  exists tail, encode_header buf n len op mask
               = Some (head (len =? 0) op n mask ++ tail, zlen (head (len =? 0) op n mask))
  /\ zlen (head (len =? 0) op n mask ++ tail) = WS_MAX_FRAME_SIZE.
Proof.
  unfold WS_MAX_FRAME_SIZE, WS_MAX_FRAME_PAYLOAD. intros Hb Hm Hop Hn. destruct (four mask Hm) as (a & b & c & d & ->).
  do 8 (destruct buf as [|? buf]; [done|]). rewrite !zlen_cons in Hb. unfold encode_header, WS_HDR_FIN_BIT, WS_HDR_MASK_BIT.
  assert (E0 : u8 (if len =? 0 then op + 128 else op) = op + (if len =? 0 then 128 else 0))
    by (destruct (len =? 0); rewrite u8_small; lia). rewrite E0.
  unfold head. destruct (Z.ltb_spec n 126) as [Hs|Hs].
  - rewrite (u8_small n), u8_small by lia. exists (0 :: 0 :: buf). split; [done|]. cbn [app]. rewrite !zlen_cons. lia.
  - rewrite (proj2 (Z.ltb_lt n 65535)) by lia. exists buf. split; [done|]. cbn [app]. rewrite !zlen_cons. lia.
Qed.

(** The words that are masked cover the payload and end inside the buffer. *)
Definition words (n : Z) : nat := Z.to_nat ((n + (if negb (Z.land n 3 =? 0) then 4 - Z.land n 3 else 0)) / 4).

Lemma words_cover n : 0 <= n -> n <= 4 * Z.of_nat (words n) <= n + 3.
Proof.
  intros Hn. unfold words. assert (Hm : Z.land n 3 = n mod 4) by (apply (Z.land_ones n 2); lia). rewrite Hm.
  pose proof (Z.mod_pos_bound n 4 ltac:(lia)).
  destruct (Z.eqb_spec (n mod 4) 0) as [E|E]; cbn [negb]; rewrite Z2Nat.id by (apply Z.div_pos; lia); Z.div_mod_to_equations; lia.
Qed.

Lemma masked_frame hd tail mask p :
  zlen mask = 4 -> zlen hd + zlen p <= zlen (hd ++ tail) -> zlen hd + 4 * Z.of_nat (words (zlen p)) <= zlen (hd ++ tail) ->
  let buf := mask_loop (words (zlen p)) (memcpy (hd ++ tail) (zlen hd) p) (zlen hd) mask in
  take (Z.to_nat (zlen p + zlen hd)) buf = hd ++ xor_mask mask p /\ zlen buf = zlen (hd ++ tail).
Proof.
  intros Hm Hl Hw buf. pose proof (zlen_nonneg hd). pose proof (zlen_nonneg p). pose proof (words_cover (zlen p) ltac:(lia)) as Hc.
  destruct (mask_loop_spec mask (words (zlen p)) (memcpy (hd ++ tail) (zlen hd) p) (zlen hd)) as [Hz Hget];
    [lia|by rewrite zlen_memcpy by lia|]. fold buf in Hz, Hget. rewrite zlen_memcpy in Hz by lia. split; [|done].
  apply bytes_ext.
  - rewrite length_take, length_app, length_xor_mask. unfold zlen in *. lia.
  - rewrite zlen_take by lia. intros i Hi. rewrite bget_take, Hget, bget_memcpy by lia.
    destruct (Z.leb_spec (zlen hd) i) as [Hge|Hlt]; cbn [andb].
    + rewrite (proj2 (Z.ltb_lt _ _)) by lia. rewrite (proj2 (Z.ltb_lt _ _)) by lia.
      rewrite <- bget_xor_mask by lia. unfold bget. rewrite app_nth2 by (unfold zlen in *; lia). f_equal. unfold zlen in *. lia.
    + unfold bget. rewrite !app_nth1 by (unfold zlen in *; lia). done.
Qed.

(** A frame is decoded. *)
Lemma be_two a b : be [a; b] = 256 * a + b.
Proof. unfold be. cbn. lia. Qed.

Lemma decode_wire mask f rest :
  zlen mask = 4 -> 0 <= f_op f < 16 -> zlen (f_payload f) <= WS_MAX_FRAME_PAYLOAD ->
  decode_frame (wire mask f ++ rest) = Some (f, rest).
Proof.
  unfold WS_MAX_FRAME_PAYLOAD. destruct f as [fn op p]. cbn [f_op f_payload f_fin]. intros Hm Hop Hp. pose proof (zlen_nonneg p).
  destruct (four mask Hm) as (a & b & c & d & E). unfold wire, head. cbn [f_op f_payload f_fin]. set (n := zlen p) in *.
  assert (Hx : zlen (xor_mask mask p) = n) by (unfold zlen; by rewrite length_xor_mask).
  assert (Hlen : Z.to_nat n = length (xor_mask mask p)) by (unfold zlen in Hx; lia).
  assert (Hend : forall l, l = [a; b; c; d] ++ xor_mask mask p ++ rest ->
    (if (length l <? 4)%nat || (zlen (drop 4 l) <? n) then None
     else Some (mkFrame fn op (xor_mask (take 4 l) (take (Z.to_nat n) (drop 4 l))), drop (Z.to_nat n) (drop 4 l)))
    = Some (mkFrame fn op p, rest)).
  { intros l ->. rewrite (proj2 (Nat.ltb_ge _ _)) by (rewrite length_app; cbn [length]; lia). cbn [orb].
    change (drop 4 ([a; b; c; d] ++ xor_mask mask p ++ rest)) with (xor_mask mask p ++ rest).
    change (take 4 ([a; b; c; d] ++ xor_mask mask p ++ rest)) with [a; b; c; d].
    rewrite (proj2 (Z.ltb_ge _ _)) by (rewrite zlen_app, Hx; pose proof (zlen_nonneg rest); lia).
    rewrite Hlen, take_app_length, drop_app_length, <- E. by rewrite xor_mask_twice. }
  assert (Hb0 : (128 <=? op + (if fn then 128 else 0)) = fn /\ (op + (if fn then 128 else 0)) mod 16 = op).
  { destruct fn; split; [apply Z.leb_le; lia| |apply Z.leb_gt; lia|]; Z.div_mod_to_equations; lia. }
  destruct Hb0 as [Hf Ho]. subst mask. destruct (Z.ltb_spec n 126) as [Hs|Hs]; cbn [app decode_frame]; rewrite Hf, Ho.
  - replace ((n + 128) mod 128) with n by (Z.div_mod_to_equations; lia). unfold decode_length.
    rewrite (proj2 (Z.ltb_lt n 126)) by done. cbn [mbind option_bind]. rewrite (proj2 (Z.leb_le 128 (n + 128))) by lia. by apply Hend.
  - change (254 mod 128) with 126. change (128 <=? 254) with true. unfold decode_length. cbn [Z.ltb Z.eqb Z.compare Pos.compare Pos.compare_cont Pos.eqb length].
    cbn [Nat.ltb Nat.leb take drop]. rewrite be_two. replace (256 * (n / 256) + n mod 256) with n by (Z.div_mod_to_equations; lia).
    cbn [mbind option_bind]. by apply Hend.
Qed.

(** The frames of a message. *)
Fixpoint fragments (fuel : nat) (op : Z) (data : bytes) : list frame :=
  match fuel with
  | O => []
  | S fuel' =>
      if zlen data <=? WS_MAX_FRAME_PAYLOAD then [mkFrame true op data]
      else mkFrame false op (take (Z.to_nat WS_MAX_FRAME_PAYLOAD) data)
             :: fragments fuel' WS_OPCODE_CONTINUE (drop (Z.to_nat WS_MAX_FRAME_PAYLOAD) data)
  end.

Definition wires (mask : bytes) (fs : list frame) : bytes := concat (map (wire mask) fs).

Definition frame_ok (f : frame) : Prop := 0 <= f_op f < 16 /\ zlen (f_payload f) <= WS_MAX_FRAME_PAYLOAD.

Lemma decode_wires mask fs : forall fuel,
  zlen mask = 4 -> Forall frame_ok fs -> (length fs <= fuel)%nat -> decode_frames fuel (wires mask fs) = Some fs.
Proof.
  induction fs as [|f fs IH]; intros fuel Hm Hok Hf; [by destruct fuel|].
  inversion Hok as [|? ? [Hop Hp] Hok']; subst. destruct fuel as [|fuel]; [cbn in Hf; lia|].
  change (wires mask (f :: fs)) with (wire mask f ++ wires mask fs).
  assert (E : decode_frames (S fuel) (wire mask f ++ wires mask fs)
              = ('(f, l) ← decode_frame (wire mask f ++ wires mask fs); fs ← decode_frames fuel l; Some (f :: fs))) by done.
  rewrite E, decode_wire by done. cbn [mbind option_bind]. rewrite IH; [done|done|done|cbn in Hf; lia].
Qed.

Lemma fragments_shape fuel : forall op data,
  (Z.to_nat (zlen data) < fuel)%nat -> 0 <= op < 16 ->
  let fs := fragments fuel op data in
  Forall frame_ok fs /\ concat (map f_payload fs) = data
  /\ exists k, map f_fin fs = replicate k false ++ [true] /\ map f_op fs = op :: replicate k WS_OPCODE_CONTINUE.
Proof.
  induction fuel as [|fuel IH]; intros op data Hf Hop; [lia|]. cbn [fragments]. cbn zeta.
  destruct (Z.leb_spec (zlen data) WS_MAX_FRAME_PAYLOAD) as [Hs|Hs].
  - cbn. rewrite app_nil_r. split; [constructor; [by split|constructor]|]. split; [done|]. by exists 0%nat.
  - unfold WS_MAX_FRAME_PAYLOAD in *.
    destruct (IH WS_OPCODE_CONTINUE (drop (Z.to_nat 1452) data)) as (H1 & H2 & k & H3 & H4).
    { rewrite zlen_drop by lia. lia. }
    { unfold WS_OPCODE_CONTINUE. lia. }
    cbn [map concat f_payload f_fin f_op]. rewrite H2, H3, H4, take_drop. split_and!; [|done|by exists (S k)].
    constructor; [|done]. split; [done|]. cbn [f_payload]. rewrite zlen_take; unfold WS_MAX_FRAME_PAYLOAD; lia.
Qed.

Section Link.
Context {W : Type} `{!WsSystem W} `{!WsLink W}.

Lemma socket_sent h bs (w : W) :
  exists w', ws_socket_send h bs w = (zlen bs, w') /\ arrived w' = arrived w /\ gone w' = gone w ++ bs.
Proof. unfold ws_socket_send. destruct (secured h); [apply link_ssl_write|apply link_send]. Qed.

(** One frame put together in the buffer. *)
Lemma frame_built hbuf n len op mask data :
  zlen hbuf = WS_MAX_FRAME_SIZE -> zlen mask = 4 -> 0 <= op < 16 -> 0 <= n <= WS_MAX_FRAME_PAYLOAD -> n <= zlen data ->
  let p := take (Z.to_nat n) data in
  exists hbuf1 hl, encode_header hbuf n len op mask = Some (hbuf1, hl)
  /\ let b := mask_loop (words n) (memcpy hbuf1 hl p) hl mask in
     take (Z.to_nat (n + hl)) b = wire mask (mkFrame (len =? 0) op p) /\ zlen b = WS_MAX_FRAME_SIZE.
Proof.
  intros Hb Hm Hop Hn Hd p. destruct (encode_header_spec hbuf n len op mask Hb Hm Hop Hn) as (tail & E & Hz).
  assert (Hp : zlen p = n) by (apply zlen_take; lia). eexists _, _. split; [exact E|].
  pose proof (words_cover n ltac:(lia)) as Hc. pose proof (zlen_head (len =? 0) op n mask Hm) as Hh.
  unfold WS_MAX_FRAME_SIZE, WS_MAX_FRAME_PAYLOAD in *.
  destruct (masked_frame (head (len =? 0) op n mask) tail mask p Hm) as [H1 H2].
  - rewrite Hz, Hp, Hh. destruct (n <? 126); lia.
  - rewrite Hz, Hp, Hh. destruct (Z.ltb_spec n 126); lia.
  - rewrite Hp in H1, H2. cbn zeta. rewrite H1, H2. split; [|done]. unfold wire. cbn [f_fin f_op f_payload]. by rewrite Hp.
Qed.

Lemma send_loop_frames h mask in_len fuel : forall hbuf data len op cont (w : W),
  zlen mask = 4 -> zlen hbuf = WS_MAX_FRAME_SIZE -> 0 <= len <= zlen data -> 0 <= op < 16 -> (Z.to_nat len < fuel)%nat ->
  exists hbuf' w', send_loop fuel h hbuf (Some data) len op cont mask in_len w = Some (in_len, hbuf', w')
  /\ zlen hbuf' = WS_MAX_FRAME_SIZE /\ arrived w' = arrived w
  /\ gone w' = gone w ++ wires mask (fragments fuel (if cont then WS_OPCODE_CONTINUE else op) (take (Z.to_nat len) data)).
Proof.
  induction fuel as [|fuel IH]; intros hbuf data len op cont w Hm Hb Hl Hop Hf; [lia|]. cbn [send_loop fragments].
  set (op' := if cont then WS_OPCODE_CONTINUE else op).
  assert (Hop' : 0 <= op' < 16) by (unfold op', WS_OPCODE_CONTINUE; destruct cont; lia).
  set (n := if WS_MAX_FRAME_PAYLOAD <? len then WS_MAX_FRAME_PAYLOAD else len).
  assert (Hn : 0 <= n <= WS_MAX_FRAME_PAYLOAD /\ n <= len) by (unfold n; case_if; unfold WS_MAX_FRAME_PAYLOAD in *; lia).
  destruct (frame_built hbuf n (len - n) op' mask data) as (hbuf1 & hl & E & Hfr & Hz1); [done|done|done|lia|lia|].
  rewrite E. cbn [mbind option_bind]. rewrite (proj2 (Z.ltb_ge n 0)), (proj2 (Z.ltb_ge (zlen data) n)) by lia. cbn [orb].
  fold (words n). rewrite Hfr.
  destruct (socket_sent h (wire mask (mkFrame (len - n =? 0) op' (take (Z.to_nat n) data))) w) as (w1 & -> & Ha & Hg).
  rewrite (proj2 (Z.ltb_ge _ 0)) by auto with t2. rewrite (zlen_take data len) by lia.
  destruct (Z.ltb_spec WS_MAX_FRAME_PAYLOAD len) as [Hbig|Hsmall].
  - rewrite (proj2 (Z.eqb_neq _ _)) by lia. cbn [negb].
    destruct (IH (mask_loop (words n) (memcpy hbuf1 hl (take (Z.to_nat n) data)) hl mask) (drop (Z.to_nat n) data) (len - n) op' true w1)
      as (hb2 & w2 & E2 & Hz2 & Ha2 & Hg2); [done|done|rewrite zlen_drop by lia; lia|done| |].
    { unfold n, WS_MAX_FRAME_PAYLOAD in *. lia. }
    exists hb2, w2. split; [exact E2|]. split; [done|]. split; [congruence|].
    rewrite (proj2 (Z.leb_gt _ _)) by lia. rewrite Hg2, Hg, <- app_assoc. f_equal.
    change (wires mask (?f :: ?fs)) with (wire mask f ++ wires mask fs). unfold n.
    rewrite (proj2 (Z.eqb_neq _ _)) by lia. rewrite take_take, Nat.min_l by lia. do 3 f_equal.
    rewrite skipn_firstn_comm. f_equal. unfold WS_MAX_FRAME_PAYLOAD in *. lia.
  - eexists _, _. assert (En : len - n = 0) by (unfold n; lia). rewrite En in *. cbn [Z.eqb negb] in *.
    split; [done|]. split; [done|]. split; [done|]. rewrite (proj2 (Z.leb_le _ _)) by lia.
    replace n with len in Hg by lia. unfold wires. cbn [map concat]. by rewrite app_nil_r.
Qed.

End Link.

(** A connection whose frame buffer, if it has one, has its size. *)
Definition buf_ok (h : ws_handle) : Prop := forall b, h_buf h = Some b -> zlen b = WS_MAX_FRAME_SIZE.

Lemma send_starts {W} `{!WsSystem W} `{!WsLink W} (h : ws_handle) buf len op (w : W) :
  buf_ok h -> exists mask hbuf w1, zlen mask = 4 /\ zlen hbuf = WS_MAX_FRAME_SIZE /\ arrived w1 = arrived w /\ gone w1 = gone w
  /\ ws_send_internal h buf len op w
     = ('(r, hbuf, w) ← send_loop (Z.to_nat len + 1) h hbuf buf len op false mask len w1; Some (r, set_h_buf h hbuf, w)).
Proof.
  intros Hb. unfold ws_send_internal. destruct (link_random w) as (m & w1 & -> & Hm & _ & Ha & Hg).
  destruct (h_buf h) as [b|] eqn:E.
  - exists m, b, w1. split_and!; try done. by apply Hb.
  - destruct (link_alloc w1) as (b & w2 & -> & Hz & Ha2 & Hg2). exists m, b, w2. split_and!; try done; congruence.
Qed.

(** A message sent. *)
Lemma message_sent {W} `{!WsSystem W} `{!WsLink W} (h : ws_handle) data len op (w : W) :
  buf_ok h -> 0 <= len <= zlen data -> 0 <= op < 16 ->
  exists h' w' out fs k,
    ws_send_internal h (Some data) len op w = Some (len, h', w') /\ buf_ok h'
    /\ (exists b, h' = set_h_buf h b /\ zlen b = WS_MAX_FRAME_SIZE) /\ arrived w' = arrived w /\ gone w' = gone w ++ out /\ decode_frames (length fs) out = Some fs
    /\ concat (map f_payload fs) = take (Z.to_nat len) data
    /\ map f_op fs = op :: replicate k WS_OPCODE_CONTINUE /\ map f_fin fs = replicate k false ++ [true]
    /\ Forall (fun f => zlen (f_payload f) <= WS_MAX_FRAME_PAYLOAD) fs.
Proof.
  intros Hb Hl Hop. destruct (send_starts h (Some data) len op w Hb) as (mask & hbuf & w1 & Hm & Hz & Ha & Hg & E).
  destruct (send_loop_frames h mask len (Z.to_nat len + 1) hbuf data len op false w1) as (hb2 & w2 & E2 & Hz2 & Ha2 & Hg2);
    [done|done|done|done|lia|].
  destruct (fragments_shape (Z.to_nat len + 1) op (take (Z.to_nat len) data)) as (H1 & H2 & k & H3 & H4);
    [rewrite zlen_take by lia; lia|done|].
  set (fs := fragments _ _ _) in *.
  exists (set_h_buf h hb2), w2, (wires mask fs), fs, k. rewrite E, E2. cbn [mbind option_bind].
  split; [done|]. split; [by intros b [= <-]|]. split; [by exists hb2|]. split; [congruence|]. split; [by rewrite Hg2, Hg|]. split; [by apply decode_wires|].
  split; [done|]. split; [done|]. split; [done|]. eapply Forall_impl; [exact H1|]. by intros f [_ Hp].
Qed.

(** C28: a message is sent as frames that a decoder of the frame format takes
    back to the message.  Over a link that accepts what is written, the call
    returns the length, and the bytes sent decode to frames of at most 1452
    bytes whose payloads, unmasked with the key of each frame, are the message;
    the first frame has the opcode of the call and the others continue it, and
    only the last one is final. *)
Theorem message_frames {W} `{!WsSystem W} `{!WsLink W} (h : ws_handle) data len op (w : W) :
  buf_ok h -> 0 <= len <= zlen data -> 0 <= op < 16 ->
  exists h' w' out fs k,
    ws_send_internal h (Some data) len op w = Some (len, h', w') /\ buf_ok h'
    /\ gone w' = gone w ++ out /\ decode_frames (length fs) out = Some fs
    /\ concat (map f_payload fs) = take (Z.to_nat len) data
    /\ map f_op fs = op :: replicate k WS_OPCODE_CONTINUE /\ map f_fin fs = replicate k false ++ [true]
    /\ Forall (fun f => zlen (f_payload f) <= WS_MAX_FRAME_PAYLOAD) fs.
Proof.
  intros Hb Hl Hop. destruct (message_sent h data len op w Hb Hl Hop) as (h' & w' & out & fs & k & E & Hb' & _ & _ & H).
  by exists h', w', out, fs, k.
Qed.

Definition sample_ws : ws_handle :=
  mkWs 3 false None WS_STATE_HDR_RECEIVING 0 (replicate 16 0) 0 2 0 invalid_hdr.

Lemma message_frames_witness :
  exists h' w' out fs k,
    ws_send_internal sample_ws (Some [104; 105]) 2 1 (mkPipe [] []) = Some (2, h', w') /\ buf_ok h'
    /\ p_out w' = [] ++ out /\ decode_frames (length fs) out = Some fs
    /\ concat (map f_payload fs) = [104; 105]
    /\ map f_op fs = 1 :: replicate k WS_OPCODE_CONTINUE /\ map f_fin fs = replicate k false ++ [true]
    /\ Forall (fun f => zlen (f_payload f) <= WS_MAX_FRAME_PAYLOAD) fs.
Proof.
  destruct (message_frames sample_ws [104; 105] 2 1 (mkPipe [] [])) as (h' & w' & out & fs & k & E & Hb & Eo & Ed & Ep & Ek).
  - done.
  - split; [done|by vm_compute].
  - lia.
  - exists h', w', out, fs, k. exact (conj E (conj Hb (conj Eo (conj Ed (conj Ep Ek))))).
Defined.

(** ** Frames received *)

(** A frame as a server sends it, without a mask. *)
Definition server_frame (f : frame) : bytes :=
  [f_op f + (if f_fin f then 128 else 0)]
  ++ (if zlen (f_payload f) <? 126 then [zlen (f_payload f)]
      else [126; zlen (f_payload f) / 256; zlen (f_payload f) mod 256])
  ++ f_payload f.

(** The header that is reported. *)
Definition hdr_of (f : frame) : websock_msg_hdr_t := mkHdr (if f_fin f then 1 else 0) (f_op f) (zlen (f_payload f)).

(** The connection between two frames. *)
Definition between (h : ws_handle) : Prop :=
  h_state h = WS_STATE_HDR_RECEIVING /\ hdr_index h = 0 /\ (hdr_unread_len h = 2 \/ hdr_unread_len h = 0)
  /\ zlen (frame_hdr h) = 16 /\ buf_ok h.

Section Receive.
Context {W : Type} `{!WsSystem W} `{!WsLink W}.

Lemma socket_received h l rest timeout (w : W) :
  l <> [] -> arrived w = l ++ rest ->
  exists w', ws_socket_recv h (zlen l) timeout w = (zlen l, l, w') /\ arrived w' = rest /\ gone w' = gone w.
Proof.
  intros Hl Ha. assert (Hz : 0 < zlen l) by (destruct l; [done|rewrite zlen_cons; pose proof (zlen_nonneg l); lia]).
  assert (Hn : 0 < zlen l <= zlen (arrived w)) by (rewrite Ha, zlen_app; pose proof (zlen_nonneg rest); lia).
  assert (Hlen : Z.to_nat (zlen l) = length l) by (unfold zlen; lia).
  unfold ws_socket_recv. destruct (secured h).
  - destruct (link_ssl_read (zlen l) (u32 (timeout * 1000)) w Hn) as (w' & E & Ha' & Hg'). exists w'.
    rewrite E. rewrite Ha, Hlen, take_app_length in *. rewrite drop_app_length in Ha'. done.
  - destruct (link_select timeout w) as (w1 & -> & Ha1 & Hg1); [rewrite Ha; by destruct l|]. change (0 <? 1) with true. cbn iota.
    rewrite <- Ha1 in Hn. destruct (link_recv (zlen l) w1 Hn) as (w' & E & Ha' & Hg'). exists w'.
    rewrite E. rewrite Ha1, Ha, Hlen, take_app_length in *. rewrite drop_app_length in Ha'. split_and!; congruence || done.
Qed.

(** The first byte of a frame. *)
Lemma first_byte (fn : bool) op :
  0 <= op < 16 ->
  let b := op + (if fn then 128 else 0) in
  (if negb (Z.land b WS_HDR_FIN_BIT =? 0) then 1 else 0) = (if fn then 1 else 0) /\ Z.land b WS_HDR_OPCODE_MASK = op.
Proof.
  intros Hop. assert (Hc : In op (seqZ 0 16)) by (apply list_elem_of_In, elem_of_seqZ; lia).
  cbn in Hc. repeat (destruct Hc as [<-|Hc]; [by destruct fn|]). done.
Qed.

Lemma land_length n : 0 <= n < 128 -> Z.land n 127 = n.
Proof. intros Hn. change 127 with (Z.ones 7). rewrite Z.land_ones by lia. by apply Z.mod_small. Qed.

(** Bytes of the header received at [hdr_index]. *)
Lemma hdr_received h l rest timeout (w : W) :
  l <> [] -> hdr_unread_len h = zlen l -> 0 <= hdr_index h -> hdr_index h + zlen l <= zlen (frame_hdr h) ->
  arrived w = l ++ rest ->
  exists w', recv_hdr h timeout w = Some (zlen l, memcpy (frame_hdr h) (hdr_index h) l, w')
    /\ arrived w' = rest /\ gone w' = gone w.
Proof.
  intros Hl Hu Hi Hfit Ha. unfold recv_hdr. rewrite Hu. destruct (socket_received h l rest timeout w Hl Ha) as (w' & -> & Ha' & Hg).
  exists w'. split; [|done]. unfold store. rewrite (proj2 (Z.leb_le 0 _)), (proj2 (Z.leb_le _ _)) by lia. done.
Qed.

(** A connection that has read the header of [f]. *)
Definition opened (f : frame) (h : ws_handle) : Prop :=
  msg_hdr h = hdr_of f /\ zlen (frame_hdr h) = 16 /\ Z.land (bget (frame_hdr h) 0) WS_HDR_OPCODE_MASK = f_op f /\ buf_ok h
  /\ if zlen (f_payload f) =? 0 then between h
     else h_state h = WS_STATE_PAYLOAD_RECEIVING /\ payload_unread_len h = zlen (f_payload f).

Lemma in_state_same st n buf len h (w : W) k : h_state h = st -> in_state st (Go_on n buf len h w) k = k h buf len w.
Proof. intros <-. unfold in_state. by destruct (h_state h). Qed.

(** The two phases that read the header. *)
Definition start (h : ws_handle) (buf : bytes) (len timeout : Z) (w : W) : option phase :=
  p ← in_state WS_STATE_HDR_RECEIVING (Go_on 0 buf len h w) (fun h buf len w => header_phase h buf len timeout w);
  in_state WS_STATE_EXND_PL_LEN_RECEIVING p (fun h buf len w => length_phase h buf len timeout w).

Lemma frame_opened h f rest buf len timeout (w : W) :
  between h -> 0 <= f_op f < 16 -> zlen (f_payload f) < 65536 -> arrived w = server_frame f ++ rest ->
  exists nread h' w',
    start h buf len timeout w = Some (Go_on nread buf (if zlen (f_payload f) =? 0 then 0 else len) h' w')
    /\ 0 < nread /\ opened f h' /\ arrived w' = f_payload f ++ rest /\ gone w' = gone w.
Proof.
  intros (Hs & Hi & Hu & Hz & Hb) Hop Hn Ha. unfold start. rewrite in_state_same by done.
  unfold header_phase. set (h1 := if hdr_unread_len h =? 0 then _ else h).
  assert (H1 : h_state h1 = WS_STATE_HDR_RECEIVING /\ hdr_index h1 = 0 /\ hdr_unread_len h1 = 2 /\ frame_hdr h1 = frame_hdr h
               /\ h_buf h1 = h_buf h)
    by (unfold h1; destruct Hu as [E|E]; rewrite E; done).
  destruct H1 as (_ & H1i & H1u & H1f & H1b). clearbody h1. pose proof (zlen_nonneg (f_payload f)).
  set (n := zlen (f_payload f)) in *. destruct (first_byte (f_fin f) (f_op f) Hop) as [Hfin Hopc].
  set (b0 := f_op f + (if f_fin f then 128 else 0)) in *.
  set (b1 := if n <? 126 then n else 126). set (ext := if n <? 126 then [] else [n / 256; n mod 256]).
  assert (Ha' : arrived w = [b0; b1] ++ ext ++ f_payload f ++ rest).
  { rewrite Ha. unfold server_frame, b1, ext. fold n b0. by destruct (n <? 126). }
  destruct (hdr_received h1 [b0; b1] (ext ++ f_payload f ++ rest) timeout w) as (w1 & -> & Ha1 & Hg1);
    [done|done|lia|rewrite H1i, H1f, Hz; change (zlen [b0; b1]) with 2; lia|done|].
  cbn [mbind option_bind]. rewrite H1i, H1f. change (zlen [b0; b1]) with 2. change (2 <=? 0) with false. cbn iota.
  cbn [hdr_unread_len set_frame hdr_index]. rewrite H1u. change (2 <? 2) with false. cbn iota.
  set (fb := memcpy (frame_hdr h) 0 [b0; b1]).
  assert (Hfb : bget fb 0 = b0 /\ bget fb 1 = b1 /\ zlen fb = 16).
  { unfold fb. rewrite !bget_memcpy, zlen_memcpy by (change (zlen [b0; b1]) with 2; lia). done. }
  destruct Hfb as (Hf0 & Hf1 & Hfz). rewrite Hf0, Hf1, Hfin, Hopc.
  assert (Hb1 : Z.land b1 127 = b1) by (apply land_length; unfold b1; destruct (Z.ltb_spec n 126); lia). rewrite Hb1.
  unfold b1, ext in *. destruct (Z.ltb_spec n 126) as [Hsm|Hbig].
  - rewrite (proj2 (Z.ltb_ge 125 n)) by lia. destruct (Z.eqb_spec n 0) as [E0|E0].
    + eexists _, _, w1. split; [done|]. split; [lia|]. split; [|done]. unfold opened, between, hdr_of, buf_ok. fold n.
      cbn. rewrite Hf0, H1b, E0. split_and!; try done. change (0 =? 0) with true. split_and!; try done. by left.
    + eexists _, _, w1. split; [done|]. split; [lia|]. split; [|done]. unfold opened, hdr_of, buf_ok. fold n.
      rewrite (proj2 (Z.eqb_neq n 0) E0). cbn. rewrite Hf0, H1b. done.
  - change (125 <? 126) with true. cbn iota. cbn [in_state h_state mbind option_bind].
    unfold length_phase. set (h2 := mkWs _ _ _ _ _ _ _ _ _ _).
    destruct (hdr_received h2 [n / 256; n mod 256] (f_payload f ++ rest) timeout w1) as (w2 & -> & Ha2 & Hg2);
      [done|done|done|cbn; rewrite Hfz; change (zlen [n / 256; n mod 256]) with 2; lia|done|].
    cbn [mbind option_bind]. change (zlen [n / 256; n mod 256]) with 2. change (2 <=? 0) with false. cbn iota.
    cbn [hdr_unread_len set_frame h2 hdr_index h_payload_len]. change (2 <? (if 126 =? 126 then 2 else 8)) with false.
    change (126 =? 126) with true. cbn iota. change (frame_hdr h2) with fb. set (fb2 := memcpy fb (0 + 2) [n / 256; n mod 256]).
    assert (Hfb : bget fb2 0 = b0 /\ bget fb2 2 = n / 256 /\ bget fb2 3 = n mod 256 /\ zlen fb2 = 16).
    { unfold fb2. rewrite !bget_memcpy, zlen_memcpy, Hf0 by (change (zlen [n / 256; n mod 256]) with 2; lia). done. }
    destruct Hfb as (G0 & G2 & G3 & Gz). rewrite G2, G3, be_two.
    replace (256 * (n / 256) + n mod 256) with n by (Z.div_mod_to_equations; lia).
    rewrite (proj2 (Z.eqb_neq n 0)) by lia. eexists _, _, w2. split; [done|]. split; [lia|].
    split; [|split; [done|congruence]]. unfold opened, hdr_of, buf_ok. fold n. rewrite (proj2 (Z.eqb_neq n 0)) by lia.
    cbn. by rewrite G0, H1b.
Qed.

(** A connection with [n] bytes of a payload to come. *)
Definition amid (h : ws_handle) (n : Z) : Prop :=
  h_state h = WS_STATE_PAYLOAD_RECEIVING /\ payload_unread_len h = n /\ zlen (frame_hdr h) = 16 /\ buf_ok h.

(** One read of a payload. *)
Lemma payload_step fuel h p rest buf len timeout (w : W) :
  amid h (zlen p) -> p <> [] -> 1 <= len <= zlen buf -> arrived w = p ++ rest ->
  let k := Z.min len (zlen p) in
  let h1 := set_unread h (zlen p - k) in
  exists w', arrived w' = drop (Z.to_nat k) p ++ rest /\ gone w' = gone w
  /\ payload_phase (S fuel) h buf len timeout w
     = if (Z.land (bget (frame_hdr h) 0) WS_HDR_OPCODE_MASK =? WS_OPCODE_PING) && negb (zlen p - k =? 0)
       then payload_phase fuel h1 (memcpy buf 0 (take (Z.to_nat k) p)) len timeout w'
       else Some (Go_on k (memcpy buf 0 (take (Z.to_nat k) p)) k
                    (if zlen p - k =? 0 then ws_set_recv_state_to_frame_hdr_receiving h1 else h1) w').
Proof.
  intros (Hs & Hu & _) Hp Hb Ha k h1.
  assert (Hz : 0 < zlen p) by (destruct p; [done|rewrite zlen_cons; pose proof (zlen_nonneg p); lia]).
  assert (Hk0 : 0 < k <= zlen buf /\ k <= zlen p) by (unfold k; lia).
  assert (Hk : zlen (take (Z.to_nat k) p) = k) by (apply zlen_take; lia).
  destruct (socket_received h (take (Z.to_nat k) p) (drop (Z.to_nat k) p ++ rest) timeout w) as (w' & E & Ha' & Hg).
  { intros E. rewrite E in Hk. change (zlen []) with 0 in Hk. lia. }
  { by rewrite app_assoc, take_drop. }
  exists w'. split; [done|]. split; [done|]. cbn [payload_phase]. rewrite Hu.
  replace (if len <? zlen p then len else zlen p) with k by (unfold k; case_if; lia).
  rewrite Hk in E. rewrite E. unfold store. rewrite Hk. rewrite (proj2 (Z.leb_le 0 0)) by lia. rewrite (proj2 (Z.leb_le (0 + k) (zlen buf))) by lia.
  cbn [andb mbind option_bind]. rewrite (proj2 (Z.leb_gt k 0)) by lia. done.
Qed.

(** The payload of a ping is read to its end. *)
Lemma ping_exhausted timeout len h0 fuel : forall h p rest buf (w : W),
  amid h (zlen p) -> p <> [] -> 1 <= len <= zlen buf -> arrived w = p ++ rest -> (length p <= fuel)%nat ->
  frame_hdr h = frame_hdr h0 -> Z.land (bget (frame_hdr h0) 0) WS_HDR_OPCODE_MASK = WS_OPCODE_PING -> msg_hdr h = msg_hdr h0 ->
  exists k buf' h' w', payload_phase fuel h buf len timeout w = Some (Go_on k buf' k h' w')
  /\ zlen buf' = zlen buf /\ between h' /\ msg_hdr h' = msg_hdr h0 /\ arrived w' = rest /\ gone w' = gone w.
Proof.
  induction fuel as [|fuel IH]; intros h p rest buf w Ham Hp Hb Ha Hf Hfr Hop Hmsg.
  { destruct p; [done|cbn in Hf; lia]. }
  destruct (payload_step fuel h p rest buf len timeout w Ham Hp Hb Ha) as (w1 & Ha1 & Hg1 & ->).
  set (k := Z.min len (zlen p)) in *. pose proof (zlen_nonneg p).
  assert (Hz : 0 < zlen p) by (destruct p; [done|rewrite zlen_cons; pose proof (zlen_nonneg p); lia]).
  assert (Hm : zlen (memcpy buf 0 (take (Z.to_nat k) p)) = zlen buf) by (apply zlen_memcpy; rewrite ?zlen_take; lia).
  rewrite Hfr, Hop, Z.eqb_refl. cbn [andb]. destruct Ham as (Hs & Hu & Hzf & Hbo).
  destruct (Z.eqb_spec (zlen p - k) 0) as [E|E]; cbn [negb].
  - eexists _, _, _, w1. split; [done|]. split; [done|]. split; [|split; [done|split; [|done]]].
    + unfold between. cbn. split_and!; try done. by left.
    + rewrite Ha1, drop_ge by (unfold zlen in *; lia). done.
  - destruct (IH (set_unread h (zlen p - k)) (drop (Z.to_nat k) p) rest (memcpy buf 0 (take (Z.to_nat k) p)) w1)
      as (k' & buf' & h' & w' & E' & Hz' & Hbt & Hms & Ha' & Hg'); try done.
    + unfold amid. rewrite zlen_drop by lia. by cbn.
    + intros En. apply (f_equal zlen) in En. rewrite zlen_drop in En by lia. change (zlen []) with 0 in En. lia.
    + by rewrite Hm.
    + rewrite length_drop. lia.
    + exists k', buf', h', w'. split; [exact E'|]. split_and!; try done; congruence.
Qed.

(** The pong. *)
Lemma pong_sent h (w : W) :
  buf_ok h -> exists h' w' mask, ws_send_internal h None 0 WS_OPCODE_PONG w = Some (0, h', w')
  /\ zlen mask = 4 /\ (exists b, h' = set_h_buf h b /\ zlen b = WS_MAX_FRAME_SIZE)
  /\ arrived w' = arrived w /\ gone w' = gone w ++ wire mask (mkFrame true WS_OPCODE_PONG []).
Proof.
  intros Hb. destruct (send_starts h None 0 WS_OPCODE_PONG w Hb) as (mask & hbuf & w1 & Hm & Hz & Ha & Hg & ->).
  destruct (encode_header_spec hbuf 0 0 WS_OPCODE_PONG mask Hz Hm) as (tail & E & Hz2);
    [unfold WS_OPCODE_PONG; lia|unfold WS_MAX_FRAME_PAYLOAD; lia|].
  change (Z.to_nat 0 + 1)%nat with 1%nat. cbn [send_loop]. change (if WS_MAX_FRAME_PAYLOAD <? 0 then WS_MAX_FRAME_PAYLOAD else 0) with 0.
  change (0 - 0) with 0. rewrite E. cbn [mbind option_bind]. change (0 =? 0) with true in *.
  assert (Ht : take (Z.to_nat (zlen (head true WS_OPCODE_PONG 0 mask))) (head true WS_OPCODE_PONG 0 mask ++ tail)
               = wire mask (mkFrame true WS_OPCODE_PONG [])).
  { unfold zlen at 1. rewrite Nat2Z.id, take_app_length. unfold wire. cbn [f_payload f_op f_fin]. change (zlen []) with 0.
    change (xor_mask mask []) with (@nil Z). by rewrite app_nil_r. }
  rewrite Ht. destruct (socket_sent h (wire mask (mkFrame true WS_OPCODE_PONG [])) w1) as (w2 & -> & Ha2 & Hg2).
  cbn [mbind option_bind]. eexists _, w2, mask. split; [done|]. split; [done|]. split; [by eexists|]. split; congruence.
Qed.

Lemma between_buf h b : between h -> zlen b = WS_MAX_FRAME_SIZE -> between (set_h_buf h b).
Proof. intros (H1 & H2 & H3 & H4 & _) Hb. unfold between, buf_ok. cbn. split_and!; try done. by intros ? [= <-]. Qed.

Lemma receive_unfold rounds fuel h buf len in_len timeout (w : W) :
  recv_loop rounds (S fuel) h buf len in_len timeout w
  = (p ← start h buf len timeout w;
     p ← in_state WS_STATE_PAYLOAD_RECEIVING p (fun h buf len w => payload_phase rounds h buf len timeout w);
     match p with
     | Return_ r h w => Some (r, h, w)
     | Go_on nread buf len h w =>
         if opcode (msg_hdr h) =? WS_OPCODE_PING then
           '(_, h, w) ← ws_send_internal h None 0 WS_OPCODE_PONG w;
           recv_loop rounds fuel h buf in_len in_len timeout w
         else Some (mkReceived nread (msg_hdr h) buf len, h, w)
     end).
Proof. unfold start. cbn [recv_loop]. by destruct (in_state WS_STATE_HDR_RECEIVING _ _). Qed.

Lemma in_state_hdr n buf len h (w : W) k :
  h_state h = WS_STATE_HDR_RECEIVING -> in_state WS_STATE_PAYLOAD_RECEIVING (Go_on n buf len h w) k = Some (Go_on n buf len h w).
Proof. intros E. unfold in_state. by rewrite E. Qed.

Lemma start_amid h buf len timeout (w : W) :
  h_state h = WS_STATE_PAYLOAD_RECEIVING -> start h buf len timeout w = Some (Go_on 0 buf len h w).
Proof. intros E. unfold start, in_state. rewrite E. cbn [mbind option_bind]. by rewrite E. Qed.

(** A ping is answered and the next frame awaited. *)
Lemma ping_answered rounds fuel h fn pl rest buf len timeout (w : W) :
  between h -> zlen pl <= 125 -> (125 <= rounds)%nat -> 1 <= len <= zlen buf ->
  arrived w = server_frame (mkFrame fn WS_OPCODE_PING pl) ++ rest ->
  exists h' buf' w' mask,
    recv_loop rounds (S fuel) h buf len len timeout w
    = recv_loop rounds fuel h' buf' len len timeout w'
    /\ zlen buf' = zlen buf /\ between h' /\ arrived w' = rest /\ zlen mask = 4
    /\ gone w' = gone w ++ wire mask (mkFrame true WS_OPCODE_PONG []).
Proof.
  intros Hbt Hpl Hr Hb Ha. rewrite receive_unfold.
  destruct (frame_opened h (mkFrame fn WS_OPCODE_PING pl) rest buf len timeout w Hbt) as (nr & h1 & w1 & -> & _ & Hop & Ha1 & Hg1);
    [unfold WS_OPCODE_PING; cbn; lia|cbn; lia|done|].
  cbn [mbind option_bind f_payload] in *. destruct Hop as (Hmsg & Hzf & Hopc & Hbo & Hcase). cbn [f_payload f_op] in *.
  assert (Hread : exists n2 len2 buf2 h2 w2,
    in_state WS_STATE_PAYLOAD_RECEIVING (Go_on nr buf (if zlen pl =? 0 then 0 else len) h1 w1)
      (fun h buf len w => payload_phase rounds h buf len timeout w) = Some (Go_on n2 buf2 len2 h2 w2)
    /\ zlen buf2 = zlen buf /\ between h2 /\ msg_hdr h2 = msg_hdr h1 /\ arrived w2 = rest /\ gone w2 = gone w).
  { destruct (Z.eqb_spec (zlen pl) 0) as [E|E].
    - apply zlen_0_nil in E as ->. rewrite in_state_hdr by apply Hcase. exists nr, 0, buf, h1, w1. split_and!; done.
    - destruct Hcase as [Hs Hu]. rewrite in_state_same by done.
      destruct (ping_exhausted timeout len h1 rounds h1 pl rest buf w1) as (k & buf2 & h2 & w2 & E2 & Hz2 & Hbt2 & Hm2 & Ha2 & Hg2); try done.
      + intros ->. done.
      + unfold zlen in Hpl. lia.
      + exists k, k, buf2, h2, w2. split_and!; try done. congruence. }
  destruct Hread as (n2 & len2 & buf2 & h2 & w2 & -> & Hz2 & Hbt2 & Hm2 & Ha2 & Hg2). cbn [mbind option_bind].
  rewrite Hm2, Hmsg. cbn [hdr_of opcode f_op]. rewrite Z.eqb_refl.
  destruct (pong_sent h2 w2) as (h3 & w3 & mask & -> & Hmk & (b & -> & Hzb) & Ha3 & Hg3); [apply Hbt2|].
  cbn [mbind option_bind]. exists (set_h_buf h2 b), buf2, w3, mask.
  split_and!; try done; try congruence. by apply between_buf.
Qed.

(** The connection after a piece of the frame [f], with [n] bytes to come. *)
Definition after (f : frame) (h : ws_handle) (n : Z) : Prop :=
  if n =? 0 then between h
  else amid h n /\ msg_hdr h = hdr_of f /\ Z.land (bget (frame_hdr h) 0) WS_HDR_OPCODE_MASK = f_op f.

(** A piece of a payload. *)
Lemma payload_part rounds nr h f p rest buf len timeout (w : W) :
  f_op f <> WS_OPCODE_PING -> p <> [] -> after f h (zlen p) -> (1 <= rounds)%nat -> 1 <= len <= zlen buf -> arrived w = p ++ rest ->
  let k := Z.min len (zlen p) in
  exists h' w',
    in_state WS_STATE_PAYLOAD_RECEIVING (Go_on nr buf len h w) (fun h buf len w => payload_phase rounds h buf len timeout w)
    = Some (Go_on k (memcpy buf 0 (take (Z.to_nat k) p)) k h' w')
    /\ after f h' (zlen p - k) /\ msg_hdr h' = hdr_of f /\ arrived w' = drop (Z.to_nat k) p ++ rest /\ gone w' = gone w.
Proof.
  intros Hnp Hp Haf Hr Hb Ha k.
  assert (Hz : 0 < zlen p) by (destruct p; [done|rewrite zlen_cons; pose proof (zlen_nonneg p); lia]).
  unfold after in Haf. rewrite (proj2 (Z.eqb_neq _ _)) in Haf by lia. destruct Haf as (Ham & Hmsg & Hopc).
  rewrite in_state_same by apply Ham.
  destruct rounds as [|r]; [lia|]. destruct (payload_step r h p rest buf len timeout w Ham Hp Hb Ha) as (w1 & Ha1 & Hg1 & ->).
  fold k in Ha1 |- *. rewrite Hopc, (proj2 (Z.eqb_neq _ _) Hnp). cbn [andb mbind option_bind].
  set (h1 := if zlen p - k =? 0 then _ else _). exists h1, w1. split; [done|].
  split; [|split; [unfold h1; by destruct (zlen p - k =? 0)|done]].
  unfold after, h1. destruct Ham as (H1 & H2 & H3 & H4). destruct (zlen p - k =? 0); [|by split_and!].
  unfold between. cbn. split_and!; try done. by left.
Qed.

(** A call that continues a frame, and one that starts it. *)
Lemma piece_received rounds fuel h f p rest buf len timeout (w : W) :
  f_op f <> WS_OPCODE_PING -> p <> [] -> after f h (zlen p) -> (1 <= rounds)%nat -> 1 <= len <= zlen buf -> arrived w = p ++ rest ->
  let k := Z.min len (zlen p) in
  exists n h' w',
    recv_loop rounds (S fuel) h buf len len timeout w
    = Some (mkReceived n (hdr_of f) (memcpy buf 0 (take (Z.to_nat k) p)) k, h', w')
    /\ n = k /\ after f h' (zlen p - k) /\ arrived w' = drop (Z.to_nat k) p ++ rest /\ gone w' = gone w.
Proof.
  intros Hnp Hp Haf Hr Hb Ha k.
  assert (Hs : h_state h = WS_STATE_PAYLOAD_RECEIVING).
  { unfold after in Haf. destruct (Z.eqb_spec (zlen p) 0) as [E|E]; [|apply Haf]. by apply zlen_0_nil in E. }
  rewrite receive_unfold, start_amid by done. cbn [mbind option_bind].
  destruct (payload_part rounds 0 h f p rest buf len timeout w) as (h' & w' & -> & Haf' & Hm & Ha' & Hg); try done.
  cbn [mbind option_bind]. rewrite Hm. cbn [hdr_of opcode]. rewrite (proj2 (Z.eqb_neq _ _) Hnp). by exists k, h', w'.
Qed.

Lemma frame_begun rounds fuel h f rest buf len timeout (w : W) :
  between h -> 0 <= f_op f < 16 -> f_op f <> WS_OPCODE_PING -> zlen (f_payload f) < 65536 -> (1 <= rounds)%nat -> 1 <= len <= zlen buf ->
  arrived w = server_frame f ++ rest ->
  let k := Z.min len (zlen (f_payload f)) in
  exists n h' w',
    recv_loop rounds (S fuel) h buf len len timeout w
    = Some (mkReceived n (hdr_of f) (memcpy buf 0 (take (Z.to_nat k) (f_payload f))) k, h', w')
    /\ 0 < n /\ (f_payload f <> [] -> n = k) /\ after f h' (zlen (f_payload f) - k) /\ arrived w' = drop (Z.to_nat k) (f_payload f) ++ rest /\ gone w' = gone w.
Proof.
  intros Hbt Hop Hnp Hn Hr Hb Ha k. rewrite receive_unfold.
  destruct (frame_opened h f rest buf len timeout w Hbt Hop Hn Ha) as (nr & h1 & w1 & -> & Hnr & Hopen & Ha1 & Hg1).
  cbn [mbind option_bind]. destruct Hopen as (Hmsg & Hzf & Hopc & Hbo & Hcase).
  destruct (Z.eqb_spec (zlen (f_payload f)) 0) as [E|E].
  - rewrite in_state_hdr by apply Hcase. cbn [mbind option_bind]. rewrite Hmsg. cbn [hdr_of opcode].
    rewrite (proj2 (Z.eqb_neq _ _) Hnp). exists nr, h1, w1. assert (Ek : k = 0) by (unfold k; lia). rewrite Ek.
    split; [done|]. split; [done|]. split; [by apply zlen_0_nil in E|]. unfold after. rewrite E. done.
  - destruct (payload_part rounds nr h1 f (f_payload f) rest buf len timeout w1) as (h' & w' & -> & Haf' & Hm & Ha' & Hg); try done.
    { intros En. rewrite En in E. done. }
    { unfold after. rewrite (proj2 (Z.eqb_neq _ _) E). by destruct Hcase. }
    cbn [mbind option_bind]. rewrite Hm. cbn [hdr_of opcode]. rewrite (proj2 (Z.eqb_neq _ _) Hnp).
    exists k, h', w'. pose proof (zlen_nonneg (f_payload f)). split_and!; try done; [unfold k; lia|congruence].
Qed.

End Receive.

(** An application that calls [websock_recv] with the same buffer until it has
    the whole payload of a frame. *)
Fixpoint collect {W} `{WsSystem W} (rounds fuel : nat) (h : ws_handle) (buf : bytes) (timeout : Z) (w : W) (acc : bytes)
  : option (websock_msg_hdr_t * bytes * ws_handle * W) :=
  match fuel with
  | O => None
  | S fuel' =>
      '(r, h, w) ← websock_recv rounds h buf (zlen buf) timeout w;
      let acc := acc ++ take (Z.to_nat (r_len r)) (r_buf r) in
      if hdr_payload_len (r_hdr r) <=? zlen acc then Some (r_hdr r, acc, h, w)
      else collect rounds fuel' h (r_buf r) timeout w acc
  end.

Section Collect.
Context {W : Type} `{!WsSystem W} `{!WsLink W}.

Lemma piece_taken (buf p : bytes) k :
  0 <= k <= zlen p -> k <= zlen buf ->
  take (Z.to_nat k) (memcpy buf 0 (take (Z.to_nat k) p)) = take (Z.to_nat k) p
  /\ zlen (memcpy buf 0 (take (Z.to_nat k) p)) = zlen buf.
Proof.
  intros Hk Hb. assert (Hz : zlen (take (Z.to_nat k) p) = k) by (by apply zlen_take). split; [|apply zlen_memcpy; lia].
  rewrite <- Hz at 1. apply take_memcpy_0.
Qed.

Lemma collect_rest rounds f fuel : forall h buf timeout (w : W) acc p rest,
  f_op f <> WS_OPCODE_PING -> f_payload f = acc ++ p -> p <> [] -> after f h (zlen p) ->
  (1 <= rounds)%nat -> 1 <= zlen buf -> arrived w = p ++ rest -> (length p <= fuel)%nat ->
  exists h' w', collect rounds fuel h buf timeout w acc = Some (hdr_of f, f_payload f, h', w')
    /\ between h' /\ arrived w' = rest /\ gone w' = gone w.
Proof.
  induction fuel as [|fuel IH]; intros h buf timeout w acc p rest Hnp Hf Hp Haf Hr Hb Ha Hfu; [destruct p; [done|cbn in Hfu; lia]|].
  cbn [collect]. unfold websock_recv, ws_recv_internal. destruct rounds as [|r]; [lia|].
  destruct (piece_received (S r) r h f p rest buf (zlen buf) timeout w) as (n & h1 & w1 & -> & _ & Haf1 & Ha1 & Hg1); try done.
  cbn [mbind option_bind r_len r_buf r_hdr]. set (k := Z.min (zlen buf) (zlen p)) in *.
  assert (Hz : 0 < zlen p) by (destruct p; [done|rewrite zlen_cons; pose proof (zlen_nonneg p); lia]).
  assert (Hk : 1 <= k <= zlen p /\ k <= zlen buf) by (unfold k; lia).
  destruct (piece_taken buf p k) as [-> Hzb]; [lia|lia|]. cbn [hdr_of hdr_payload_len].
  rewrite Hf, !zlen_app, zlen_take by lia. unfold after in Haf1.
  destruct (Z.eqb_spec (zlen p - k) 0) as [E|E].
  - rewrite (proj2 (Z.leb_le _ _)) by lia. exists h1, w1. rewrite firstn_all2 by (unfold zlen in *; lia).
    split; [done|]. split; [done|]. split; [|done]. rewrite Ha1, drop_ge by (unfold zlen in *; lia). done.
  - rewrite (proj2 (Z.leb_gt _ _)) by lia.
    destruct (IH h1 (memcpy buf 0 (take (Z.to_nat k) p)) timeout w1 (acc ++ take (Z.to_nat k) p) (drop (Z.to_nat k) p) rest)
      as (h' & w' & E' & Hbt & Ha' & Hg'); try done.
    + by rewrite <- app_assoc, take_drop.
    + intros En. apply (f_equal zlen) in En. rewrite zlen_drop in En by lia. change (zlen []) with 0 in En. lia.
    + unfold after. rewrite zlen_drop by lia. by rewrite (proj2 (Z.eqb_neq _ _) E).
    + by rewrite Hzb.
    + rewrite length_drop. unfold zlen in *. lia.
    + exists h', w'. rewrite <- Hf. split_and!; try done. congruence.
Qed.

Definition pong : frame := mkFrame true WS_OPCODE_PONG [].
Definition ping_frames (pings : list bytes) : bytes := concat (map (fun pl => server_frame (mkFrame true WS_OPCODE_PING pl)) pings).
Definition pongs (masks : list bytes) : bytes := concat (map (fun m => wire m pong) masks).

Lemma decode_pongs masks :
  Forall (fun m => zlen m = 4) masks -> decode_frames (length masks) (pongs masks) = Some (replicate (length masks) pong).
Proof.
  induction 1 as [|m masks Hm _ IH]; [done|]. change (pongs (m :: masks)) with (wire m pong ++ pongs masks).
  assert (E : decode_frames (length (m :: masks)) (wire m pong ++ pongs masks)
              = ('(f, l) ← decode_frame (wire m pong ++ pongs masks); fs ← decode_frames (length masks) l; Some (f :: fs))) by done.
  rewrite E, decode_wire by (done || (cbn; unfold WS_OPCODE_PONG; lia)). cbn [mbind option_bind]. by rewrite IH.
Qed.

Lemma pings_answered rounds timeout len pings : forall fuel h rest buf (w : W),
  between h -> Forall (fun pl => zlen pl <= 125) pings -> (125 <= rounds)%nat -> 1 <= len <= zlen buf -> (length pings <= fuel)%nat ->
  arrived w = ping_frames pings ++ rest ->
  exists h' buf' w' masks,
    recv_loop rounds fuel h buf len len timeout w
    = recv_loop rounds (fuel - length pings) h' buf' len len timeout w'
    /\ zlen buf' = zlen buf /\ between h' /\ arrived w' = rest
    /\ Forall (fun m => zlen m = 4) masks /\ length masks = length pings /\ gone w' = gone w ++ pongs masks.
Proof.
  induction pings as [|pl pings IH]; intros fuel h rest buf w Hbt Hpl Hr Hb Hf Ha.
  - exists h, buf, w, []. rewrite Nat.sub_0_r. split_and!; try done. unfold pongs. cbn. by rewrite app_nil_r.
  - inversion Hpl as [|? ? Hp1 Hp2]; subst. destruct fuel as [|fuel]; [cbn in Hf; lia|].
    destruct (ping_answered rounds fuel h true pl (ping_frames pings ++ rest) buf len timeout w) as
      (h1 & buf1 & w1 & m & -> & Hz1 & Hbt1 & Ha1 & Hm & Hg1); try done.
    { rewrite Ha. unfold ping_frames. cbn [map concat]. by rewrite <- app_assoc. }
    destruct (IH fuel h1 rest buf1 w1) as (h' & buf' & w' & masks & -> & Hz' & Hbt' & Ha' & Hms & Hlen & Hg'); try done.
    { by rewrite Hz1. }
    { cbn in Hf. lia. }
    exists h', buf', w', (m :: masks). cbn [length Nat.sub]. split_and!; try done; try congruence.
    + by constructor.
    + rewrite Hg', Hg1. unfold pongs. cbn [map concat]. by rewrite <- app_assoc.
Qed.

End Collect.

(** A frame is received whole.  Over a link that delivers, an application
    that calls [websock_recv] with a buffer of any size until it has the length
    of the header gets the header (final flag, opcode, length) and the payload
    of the frame, up to 65535 bytes, in both forms of the length field; the
    pings that come before it are answered by one pong each, their payloads are
    dropped, and the connection is ready for the next frame. *)
Theorem frame_received {W} `{!WsSystem W} `{!WsLink W} rounds (h : ws_handle) pings f rest buf timeout (w : W) :
  between h -> Forall (fun pl => zlen pl <= 125) pings -> (125 <= rounds)%nat -> (length pings < rounds)%nat ->
  0 <= f_op f < 16 -> f_op f <> WS_OPCODE_PING -> zlen (f_payload f) < 65536 -> 1 <= zlen buf ->
  arrived w = ping_frames pings ++ server_frame f ++ rest ->
  exists h' w' out,
    collect rounds (S (length (f_payload f))) h buf timeout w [] = Some (hdr_of f, f_payload f, h', w')
    /\ between h' /\ arrived w' = rest
    /\ gone w' = gone w ++ out /\ decode_frames (length pings) out = Some (replicate (length pings) pong).
Proof.
  intros Hbt Hpl Hr Hlt Hop Hnp Hn Hb Ha.
  destruct (pings_answered rounds timeout (zlen buf) pings rounds h (server_frame f ++ rest) buf w) as
    (h1 & buf1 & w1 & masks & E1 & Hz1 & Hbt1 & Ha1 & Hms & Hlen & Hg1); try done; [lia|].
  destruct (rounds - length pings)%nat as [|fu] eqn:Ef; [lia|].
  destruct (frame_begun rounds fu h1 f rest buf1 (zlen buf) timeout w1) as (n & h2 & w2 & E2 & _ & _ & Haf & Ha2 & Hg2); try done; [lia|by rewrite Hz1|].
  set (k := Z.min (zlen buf) (zlen (f_payload f))) in *. pose proof (zlen_nonneg (f_payload f)).
  assert (Hk : 0 <= k <= zlen (f_payload f) /\ k <= zlen buf1) by (rewrite Hz1; unfold k; lia).
  assert (Hd : decode_frames (length pings) (pongs masks) = Some (replicate (length pings) pong))
    by (rewrite <- Hlen; by apply decode_pongs).
  cbn [collect]. unfold websock_recv, ws_recv_internal. rewrite E1, E2. cbn [mbind option_bind r_len r_buf r_hdr app].
  destruct (piece_taken buf1 (f_payload f) k) as [-> Hzb]; [lia|lia|]. cbn [hdr_of hdr_payload_len]. rewrite zlen_take by lia.
  unfold after in Haf. destruct (Z.eqb_spec (zlen (f_payload f) - k) 0) as [E|E].
  - rewrite (proj2 (Z.leb_le _ _)) by lia. exists h2, w2, (pongs masks). rewrite firstn_all2 by (unfold zlen in *; lia).
    split; [done|]. split; [done|]. split; [|split; [congruence|done]].
    rewrite Ha2, drop_ge by (unfold zlen in *; lia). done.
  - rewrite (proj2 (Z.leb_gt _ _)) by lia.
    destruct (collect_rest rounds f (length (f_payload f)) h2 (memcpy buf1 0 (take (Z.to_nat k) (f_payload f))) timeout w2
                (take (Z.to_nat k) (f_payload f)) (drop (Z.to_nat k) (f_payload f)) rest) as (h' & w' & E' & Hbt' & Ha' & Hg'); try done.
    + by rewrite take_drop.
    + intros En. apply (f_equal zlen) in En. rewrite zlen_drop in En by lia. change (zlen []) with 0 in En. lia.
    + unfold after. rewrite zlen_drop by lia. by rewrite (proj2 (Z.eqb_neq _ _) E).
    + lia.
    + rewrite Hzb. lia.
    + rewrite length_drop. lia.
    + exists h', w', (pongs masks). split; [exact E'|]. split; [done|]. split; [done|]. split; [congruence|done].
Qed.

Definition sample_frame : frame := mkFrame true WS_OPCODE_TEXT [1; 2; 3; 4; 5].

Lemma frame_received_witness :
  exists h' w' out,
    collect 200 6 sample_ws [0; 0] 0 (mkPipe (ping_frames [[9]; []] ++ server_frame sample_frame ++ [7]) []) []
    = Some (hdr_of sample_frame, [1; 2; 3; 4; 5], h', w')
    /\ between h' /\ p_in w' = [7] /\ p_out w' = [] ++ out /\ decode_frames 2 out = Some [pong; pong].
Proof.
  destruct (frame_received 200 sample_ws [[9]; []] sample_frame [7] [0; 0] 0
              (mkPipe (ping_frames [[9]; []] ++ server_frame sample_frame ++ [7]) [])) as (h' & w' & out & E & Hb & Ei & Eo & Ed).
  - unfold between. cbn. split_and!; try done. by left.
  - by repeat constructor.
  - lia.
  - cbn. lia.
  - split; by vm_compute.
  - done.
  - by vm_compute.
  - by vm_compute.
  - done.
  - exists h', w', out. exact (conj E (conj Hb (conj Ei (conj Eo Ed)))).
Defined.
