(* ===== verification/WebSockLib.v ===== *)
(** * Connections and the polling thread of the WebSocket client

    The other half of components/websocket/src/websock.c: opening a connection
    over the HTTP client, the list of connections, the event handlers and the
    thread that polls the connections when the timer fires.  The frames are in
    WebSock.v.  The calls of event handlers are a part of the result; a call of
    a handler that was never set, a null connection and a list that is longer
    than the array of descriptors are [None]. *)

From S2P Require Import Prelude FileSys FsUtils BasicJson CString HttpClient HttpRequest HttpResponse WebSock.

Definition WS_MAX_CONNECTIONS : Z := 16.
Definition WS_MAX_RECV_BUF_LEN : Z := 1400.
Definition HTTP_CLIENT_HOST_NAME_LEN_MAX : Z := 255.
Definition HTTP_BUFF_PAD : Z := 4.

Inductive websock_cb_event_t := WEBSOCK_CB_EVENT_DATA | WEBSOCK_CB_EVENT_ERROR.

(** A connection; [c_id] stands for its address, [c_http] for the HTTP handle
    and [c_cb] for the handler and its context. *)
Record ws_conn := mkConn {
  c_id : Z;
  c_http : Z;
  c_ws : ws_handle;
  c_recv_buf : option bytes;
  c_cb : option (Z * Z);
}.

(** The variables of the file: the list, the two [init_done] flags, the
    connection whose timer runs, and the messages the thread has not taken yet.
    [next_id] numbers the connections. *)
Record ws_lib := mkLib {
  ws_handle_list : list ws_conn;
  init_done : bool;
  thread_init_done : bool;
  timer : option Z;
  msgs : nat;
  next_id : Z;
}.

Definition set_list (l : list ws_conn) (g : ws_lib) : ws_lib :=
  mkLib l (init_done g) (thread_init_done g) (timer g) (msgs g) (next_id g).

(** A call of the handler: who is called, and with what. *)
Record ws_call := mkCall {
  k_cb : Z * Z;
  k_event : websock_cb_event_t;
  k_hdr : websock_msg_hdr_t;
  k_payload : option bytes;
  k_len : Z;
}.

(** ** The list *)

Definition ws_list_handle_add (h : ws_conn) (l : list ws_conn) : list ws_conn := h :: l.

Fixpoint ws_list_handle_remove (h : Z) (l : list ws_conn) : list ws_conn :=
  match l with [] => [] | p :: l' => if c_id p =? h then l' else p :: ws_list_handle_remove h l' end.

Fixpoint ws_fd_to_handle (fd : Z) (l : list ws_conn) : option ws_conn :=
  match l with [] => None | p :: l' => if fd =? sock_fd (c_ws p) then Some p else ws_fd_to_handle fd l' end.

(** The fields of a connection in place. *)
Fixpoint ws_update (c : ws_conn) (l : list ws_conn) : list ws_conn :=
  match l with [] => [] | p :: l' => if c_id p =? c_id c then c :: l' else p :: ws_update c l' end.

(** The descriptors in the array of [WS_MAX_CONNECTIONS]. *)
Definition ws_poll_fds_set (l : list ws_conn) : option (list Z) :=
  if WS_MAX_CONNECTIONS <? zlen l then None else Some (map (fun c => sock_fd (c_ws c)) l).

(** What the rest of the system does for the library. *)
Class WsEnv (W : Type) := {
  poll : list Z -> W -> Z * list (bool * bool) * W;   (* [POLLIN] and [POLLERR] of each descriptor *)
  http_client_close : Z -> W -> W;
  connect : bool -> bytes -> Z -> W -> option Z * W;  (* [ssl_wrap_connect] or [http_client_connect]: the socket *)
  set_nonblocking : Z -> W -> W;
}.

(** ** Timer and messages *)

Definition callout_stop (id : Z) (g : ws_lib) : ws_lib :=
  mkLib (ws_handle_list g) (init_done g) (thread_init_done g)
    (match timer g with Some t => if t =? id then None else Some t | None => None end) (msgs g) (next_id g).

(** The timer fires: a message for the thread, and the timer runs again. *)
Definition ws_poll_timeout_cb (g : ws_lib) : ws_lib :=
  mkLib (ws_handle_list g) (init_done g) (thread_init_done g) (timer g) (S (msgs g)) (next_id g).

Definition ws_event_thread_int (id : Z) (g : ws_lib) : ws_lib :=
  if thread_init_done g then g else mkLib (ws_handle_list g) (init_done g) true (Some id) (msgs g) (next_id g).

Definition websock_set_event_handler (c : ws_conn) (cb : Z * Z) (g : ws_lib) : ws_lib :=
  let c := mkConn (c_id c) (c_http c) (c_ws c) (c_recv_buf c) (Some cb) in
  ws_event_thread_int (c_id c) (set_list (ws_update c (ws_handle_list g)) g).

Definition ws_init (g : ws_lib) : ws_lib :=
  if init_done g then g else mkLib [] true (thread_init_done g) (timer g) (msgs g) (next_id g).

Section Lib.
Context {W : Type} `{WsSystem W} `{WsEnv W}.

Definition ws_close_intrnal (c : ws_conn) (g : ws_lib) (w : W) : ws_lib * W :=
  let g := callout_stop (c_id c) g in
  let w := http_client_close (c_http c) w in
  (set_list (ws_list_handle_remove (c_id c) (ws_handle_list g)) g, w).

Definition websock_close := ws_close_intrnal.

(** ** The thread *)

Definition set_conn (c : ws_conn) (h : ws_handle) (b : bytes) : ws_conn := mkConn (c_id c) (c_http c) h (Some b) (c_cb c).

(** [(h->cb)(h->cb_ctx, ...)] *)
Definition call (c : ws_conn) (e : websock_cb_event_t) (r : received) (payload : option bytes) : option (list ws_call) :=
  match c_cb c with Some cb => Some [mkCall cb e (r_hdr r) payload (r_len r)] | None => None end.

(** The [do ... while(rbytes > 0)] loop: [len] is not set again between two
    rounds.  The calls made, and whether the connection is to be closed. *)
Fixpoint drain (rounds fuel : nat) (c : ws_conn) (recv_buf : bytes) (len : Z) (w : W)
  : option (list ws_call * ws_conn * bool * W) :=
  match fuel with
  | O => None
  | S fuel' =>
      '(r, h, w) ← ws_recv_internal rounds (c_ws c) recv_buf len 0 w;
      let c := set_conn c h (r_buf r) in
      if r_rval r <? 0 then
        k ← call c WEBSOCK_CB_EVENT_ERROR r None;
        Some (k, c, true, w)
      else
        k ← (if 0 <=? opcode (r_hdr r) then call c WEBSOCK_CB_EVENT_DATA r (Some (r_buf r)) else Some []);
        if 0 <? r_rval r then
          '(ks, c, closed, w) ← drain rounds fuel' c (r_buf r) (r_len r) w;
          Some (k ++ ks, c, closed, w)
        else Some (k, c, false, w)
  end.

(** The loop over the descriptors; [POLLERR] is only printed. *)
Fixpoint poll_loop (rounds fuel : nat) (fds : list (Z * (bool * bool))) (g : ws_lib) (w : W)
  : option (list ws_call * ws_lib * W) :=
  match fds with
  | [] => Some ([], g, w)
  | (fd, (pollin, _)) :: fds' =>
      if pollin then
        c ← ws_fd_to_handle fd (ws_handle_list g);
        let '(b, w) := match c_recv_buf c with Some b => (Some b, w) | None => os_alloc WS_MAX_RECV_BUF_LEN w end in
        match b with
        | None => poll_loop rounds fuel fds' g w
        | Some b =>
            '(ks, c, closed, w) ← drain rounds fuel c b WS_MAX_RECV_BUF_LEN w;
            let g := set_list (ws_update c (ws_handle_list g)) g in
            let '(g, w) := if closed : bool then ws_close_intrnal c g w else (g, w) in
            '(ks', g, w) ← poll_loop rounds fuel fds' g w;
            Some (ks ++ ks', g, w)
        end
      else poll_loop rounds fuel fds' g w
  end.

(** One message of the timer, taken by [ws_event_thread_entry]. *)
Definition ws_event_round (rounds fuel : nat) (g : ws_lib) (w : W) : option (list ws_call * ws_lib * W) :=
  fds ← ws_poll_fds_set (ws_handle_list g);
  let '(ret, revents, w) := poll fds w in
  if ret =? 0 then Some ([], g, w) else poll_loop rounds fuel (zip fds revents) g w.

End Lib.

(** ** Opening a connection *)

Record websock_config_t := mkCfg {
  cfg_hostname : bytes;
  cfg_port : Z;
  cfg_uri : bytes;
  cfg_secured : bool;
  hndshk_hdrs : list (bytes * bytes);
}.

(** The part of the HTTP handle that the handshake uses. *)
Record http_handle := mkHttp { hh_fd : Z; hh_secured : bool; hh_req : req_state }.

(** [http_resp_status] after the calls of [ws_http_resp_cb]. *)
Definition ws_http_resp_cb (status : Z) (resp : cb_info) : Z := if cb_status resp =? 101 then 1 else 0.

Definition handshake_hdrs (cfg : websock_config_t) : list (bytes * bytes) :=
  [(str "Host", cfg_hostname cfg); (str "Upgrade", str "websocket"); (str "Connection", str "Upgrade");
   (str "Sec-WebSocket-Key", str "dGhlIHNhbXBsZSBub25jZQ=="); (str "Sec-WebSocket-Version", str "13")]
  ++ hndshk_hdrs cfg.

Section Open.
Context {W : Type} `{WsSystem W} `{WsEnv W}.
Context (sizeof_ws_handle_c sizeof_http_clent_handle_c : Z).

Definition alloc_ok (n : Z) (w : W) : bool * W :=
  let '(b, w) := os_alloc n w in (match b with Some _ => true | None => false end, w).

Definition http_client_open (cfg : websock_config_t) (w : W) : option http_handle * W :=
  let host_name_len := zlen (cfg_hostname cfg) in
  if (host_name_len =? 0) || (HTTP_CLIENT_HOST_NAME_LEN_MAX <=? host_name_len) then (None, w)
  else
    let '(ok, w) := alloc_ok sizeof_http_clent_handle_c w in
    if negb ok then (None, w)
    else
      let '(fd, w) := connect (cfg_secured cfg) (cfg_hostname cfg) (cfg_port cfg) w in
      match fd with
      | None => (None, w)
      | Some fd =>
          let '(ok, w) := alloc_ok (host_name_len + 1) w in
          if negb ok then (None, w)
          else (Some (mkHttp fd (cfg_secured cfg) (mkReqState [] false false 0 (cfg_hostname cfg))), w)
      end.

(** [http_client_set_req_hdr] with its allocation. *)
Definition set_req_hdr (rq : req_state) (name val : bytes) (w : W) : req_state * W :=
  if (HTTP_MAX_REQ_HDRS <=? length (rq_hdrs rq))%nat then (rq, w)
  else
    let '(ok, w) := alloc_ok (zlen name + zlen val + 2 + HTTP_BUFF_PAD) w in
    ((http_client_set_req_hdr rq name val ok).2, w).

Fixpoint set_req_hdrs (rq : req_state) (hdrs : list (bytes * bytes)) (w : W) : req_state * W :=
  match hdrs with
  | [] => (rq, w)
  | (name, val) :: hdrs' => let '(rq, w) := set_req_hdr rq name val w in set_req_hdrs rq hdrs' w
  end.

Fixpoint http_client_socket_send (secured : bool) (segs : list bytes) (w : W) : W :=
  match segs with
  | [] => w
  | s :: segs' => http_client_socket_send secured segs' (if secured then ssl_wrap_write s w else send s w).2
  end.

(** [http_client_get] on a new handle, with [http_client_send_recv]; [evs] is
    what the receptions give.  The result and the calls of the callback.  A
    result that is not negative becomes [HTTP_CLIENT_CLOSE_CONNECTION] when the
    server does not keep the connection, which is not negative either. *)
Definition http_client_send_recv (hh : http_handle) (uri : bytes) (evs : list recv_ev) (w : W) : option (Z * list cb_info * W) :=
  if zlen uri =? 0 then Some (-1, [], w)
  else
    let '(rq, w) :=
      if rq_host_present (hh_req hh) then (hh_req hh, w) else set_req_hdr (hh_req hh) (str "Host") (rq_hostname (hh_req hh)) w in
    let '(ok, w) := alloc_ok MAX_SEND_BUF_SIZE w in
    if negb ok then Some (-1, [], w)
    else
      '(segs, rq) ← http_client_req_send rq HTTP_GET uri [];
      let w := http_client_socket_send (hh_secured hh) segs w in
      if negb (rq_body_len rq =? 0) then Some (1, [], w)
      else
        let '(b, w) := os_alloc (MAX_RECV_BUF_SIZE + 1) w in
        match b with
        | None => Some (-1, [], w)
        | Some b => '(cbs, rval) ← http_client_resp_recv (rx_init b false) evs; Some (rval, cbs, w)
        end.

(** The connection as [websock_open] leaves it. *)
Definition new_conn (id : Z) (hh : http_handle) (secured : bool) : ws_conn :=
  mkConn id id (mkWs (hh_fd hh) secured None WS_STATE_HDR_RECEIVING 0 (replicate 16 0) 0 WS_MIN_HDR_LEN 0 (mkHdr 0 0 0)) None None.

(** [None]: undefined; else the connection, or none for [NULL]. *)
Definition websock_open (cfg : websock_config_t) (evs : list recv_ev) (g : ws_lib) (w : W)
  : option (option ws_conn * ws_lib * W) :=
  let g := ws_init g in
  let '(ok, w) := alloc_ok sizeof_ws_handle_c w in
  if negb ok then Some (None, g, w)
  else
    let '(hh, w) := http_client_open cfg w in
    match hh with
    | None => Some (None, g, w)
    | Some hh =>
        let '(rq, w) := set_req_hdrs (hh_req hh) (handshake_hdrs cfg) w in
        '(rval, cbs, w) ← http_client_send_recv (mkHttp (hh_fd hh) (hh_secured hh) rq) (cfg_uri cfg) evs w;
        let http_resp_status := fold_left ws_http_resp_cb cbs 0 in
        if (rval <? 0) || (http_resp_status =? 0) then Some (None, g, w)
        else
          let h := new_conn (next_id g) hh (cfg_secured cfg) in
          let w := set_nonblocking (hh_fd hh) w in
          Some (Some h,
                mkLib (ws_list_handle_add h (ws_handle_list g)) (init_done g) (thread_init_done g) (timer g) (msgs g) (next_id g + 1), w)
    end.

End Open.
