(* ===== verification/WebSockOpen.v ===== *)
(** * The opening handshake of the WebSocket client

    A system on which the client can work, and the connection [websock_open]
    makes over the HTTP client. *)

From S2P Require Import Prelude FileSys FsUtils BasicJson CString HttpClient HttpRequest HttpResponse HttpDelivery.
From S2P Require Import WebSock WebSockProps WebSockLib.

(** ** A system that works *)

(** Memory for every request, a server that can be reached, and a [select] that
    reports nothing when nothing has arrived; the TLS wrapper then gives up
    (ssl_wrap.c, [ssl_wrap_read_timeout]). *)
Class WsWorks (W : Type) `{WsSystem W} `{WsEnv W} `{!WsLink W} := {
  works_alloc : forall n w, 0 <= n -> exists b w',
    os_alloc n w = (Some b, w') /\ zlen b = n /\ arrived w' = arrived w /\ gone w' = gone w;
  works_connect : forall s host port w, exists fd w',
    connect s host port w = (Some fd, w') /\ arrived w' = arrived w /\ gone w' = gone w;
  works_nonblocking : forall fd w, arrived (set_nonblocking fd w) = arrived w /\ gone (set_nonblocking fd w) = gone w;
  works_select : forall t w, arrived w = [] -> exists w', select t w = (0, w') /\ arrived w' = [] /\ gone w' = gone w;
  works_ssl_read : forall n ms w, arrived w = [] -> exists w',
    ssl_wrap_read_timeout n ms w = (-1, [], w') /\ arrived w' = [] /\ gone w' = gone w;
}.

(** The two queues again, with a TLS read that waits for bytes. *)
Record stack := mkNet { n_pipe : pipe; n_ready : list Z; n_closed : list Z }.

Definition with_pipe {A} (f : pipe -> A * pipe) (w : stack) : A * stack :=
  let '(a, p) := f (n_pipe w) in (a, mkNet p (n_ready w) (n_closed w)).

#[global] Instance net_system : WsSystem stack := {
  get_random_bytes n := with_pipe (get_random_bytes n);
  os_alloc n := with_pipe (os_alloc n);
  ssl_wrap_write bs := with_pipe (ssl_wrap_write bs);
  send bs := with_pipe (send bs);
  ssl_wrap_read_timeout n ms w :=
    match p_in (n_pipe w) with [] => (-1, [], w) | _ => with_pipe (ssl_wrap_read_timeout n ms) w end;
  select t := with_pipe (select t);
  recv n := with_pipe (recv n);
}.

#[global] Instance net_env : WsEnv stack := {
  poll fds w := (zlen (n_ready w), map (fun fd => (bool_decide (fd ∈ n_ready w), false)) fds, w);
  http_client_close id w := mkNet (n_pipe w) (n_ready w) (id :: n_closed w);
  connect _ _ _ w := (Some 3, w);
  set_nonblocking _ w := w;
}.

#[global, refine] Instance net_link : WsLink stack := { arrived w := p_in (n_pipe w); gone w := p_out (n_pipe w) }.
Proof.
  - intros w. exists [18; 52; 86; 120], w. destruct w as [[] ? ?]. split_and!; try done. by repeat constructor.
  - intros [[] ? ?]. by eexists _, _.
  - intros bs [[] ? ?]. by eexists.
  - intros bs [[] ? ?]. by eexists.
  - intros n ms [[i o] ? ?] Hn. cbn in *. destruct i as [|c i]; [change (zlen []) with 0 in Hn; lia|].
    eexists. unfold with_pipe. cbn. rewrite zlen_take by lia. done.
  - intros t [[i o] ? ?] Hi. eexists. split; [|done]. by destruct i.
  - intros n [[i o] ? ?] Hn. cbn in *. eexists. unfold with_pipe. cbn. by rewrite zlen_take by lia.
Defined.

#[global] Instance net_works : WsWorks stack.
Proof.
  split.
  - intros n [[] ? ?] Hn. eexists _, _. split; [done|]. split; [|done]. unfold zlen. rewrite length_replicate. lia.
  - intros s host port w. by eexists _, _.
  - done.
  - intros t [[i o] ? ?] Hi. cbn in Hi. subst i. by eexists.
  - intros n ms [[i o] ? ?] Hi. cbn in Hi. subst i. by eexists.
Qed.

(** ** The handshake *)

Definition lines (l : list (bytes * bytes)) : list bytes := map (fun nv => hdr_line nv.1 nv.2) l.

(** Headers whose names no earlier line starts with, and that announce no body. *)
Fixpoint apart (hdrs : list bytes) (l : list (bytes * bytes)) : Prop :=
  match l with
  | [] => True
  | (name, val) :: l' =>
      find_hdr name hdrs = None /\ strcaseeq name (str "Content-Length") = false /\ apart (hdrs ++ [hdr_line name val]) l'
  end.

Section Open.
Context {W : Type} `{!WsSystem W} `{!WsEnv W} `{!WsLink W} `{!WsWorks W}.

Lemma alloc_works n (w : W) : 0 <= n -> exists w', alloc_ok n w = (true, w') /\ arrived w' = arrived w /\ gone w' = gone w.
Proof. intros Hn. unfold alloc_ok. destruct (works_alloc n w Hn) as (b & w' & -> & _ & H). by exists w'. Qed.

Lemma hdr_set rq name val (w : W) :
  (length (rq_hdrs rq) < HTTP_MAX_REQ_HDRS)%nat -> find_hdr name (rq_hdrs rq) = None -> strcaseeq name (str "Content-Length") = false ->
  exists w', set_req_hdr rq name val w
    = (mkReqState (rq_hdrs rq ++ [hdr_line name val]) (rq_host_present rq || strcaseeq name (str "Host")) (rq_clen_present rq)
         (rq_body_len rq) (rq_hostname rq), w')
  /\ arrived w' = arrived w /\ gone w' = gone w.
Proof.
  intros Hl Hf Hc. unfold set_req_hdr. rewrite (proj2 (Nat.leb_gt _ _)) by done.
  destruct (alloc_works (zlen name + zlen val + 2 + HTTP_BUFF_PAD) w) as (w' & -> & Hw).
  { pose proof (zlen_nonneg name). pose proof (zlen_nonneg val). unfold HTTP_BUFF_PAD. lia. }
  exists w'. split; [|done]. unfold http_client_set_req_hdr. rewrite (proj2 (Nat.leb_gt _ _)), Hf, Hc, orb_false_r by done. done.
Qed.

Lemma hdrs_set l : forall rq (w : W),
  apart (rq_hdrs rq) l -> (length (rq_hdrs rq) + length l <= HTTP_MAX_REQ_HDRS)%nat ->
  exists hp w', set_req_hdrs rq l w
    = (mkReqState (rq_hdrs rq ++ lines l) (rq_host_present rq || hp) (rq_clen_present rq) (rq_body_len rq) (rq_hostname rq), w')
  /\ arrived w' = arrived w /\ gone w' = gone w.
Proof.
  induction l as [|[name val] l IH]; intros rq w Ha Hl; cbn [set_req_hdrs lines map].
  - exists false, w. rewrite app_nil_r, orb_false_r. by destruct rq.
  - destruct Ha as (Hf & Hc & Ha). cbn [length] in Hl. destruct (hdr_set rq name val w ltac:(lia) Hf Hc) as (w1 & -> & Ha1 & Hg1).
    set (rq1 := mkReqState _ _ _ _ _). destruct (IH rq1 w1) as (hp & w2 & -> & Ha2 & Hg2); [done|cbn; rewrite length_app; cbn; lia|].
    eexists (_ || hp), w2. cbn. rewrite <- orb_assoc, <- app_assoc. split; [done|]. split; congruence.
Qed.

Lemma segments_sent secured segs : forall w : W, exists w', http_client_socket_send secured segs w = w'
  /\ arrived w' = arrived w /\ gone w' = gone w ++ concat segs.
Proof.
  induction segs as [|s segs IH]; intros w; cbn [http_client_socket_send concat]; [exists w; by rewrite app_nil_r|].
  assert (Hs : exists w1, (if secured then ssl_wrap_write s w else send s w).2 = w1 /\ arrived w1 = arrived w /\ gone w1 = gone w ++ s).
  { destruct secured; [destruct (link_ssl_write s w) as (w1 & -> & H)|destruct (link_send s w) as (w1 & -> & H)]; by exists w1. }
  destruct Hs as (w1 & -> & Ha & Hg). destruct (IH w1) as (w2 & -> & Ha2 & Hg2). exists w2.
  split; [done|]. rewrite Hg2, Hg, <- app_assoc. split; [congruence|done].
Qed.

(** A GET on a handle with a "Host" header: the request goes out, and the
    response is taken in. *)
Lemma get_answered hh uri evs cbs rval (w : W) :
  rq_host_present (hh_req hh) = true -> rq_body_len (hh_req hh) = 0 -> uri <> [] ->
  Forall hdr_fits (rq_hdrs (hh_req hh)) -> zlen (method_line HTTP_GET uri) + 2 < MAX_SEND_BUF_SIZE ->
  (forall b, length b = 1461%nat -> http_client_resp_recv (rx_init b false) evs = Some (cbs, rval)) ->
  exists w', http_client_send_recv hh uri evs w = Some (rval, cbs, w')
  /\ arrived w' = arrived w /\ gone w' = gone w ++ request_text (hh_req hh) HTTP_GET uri.
Proof.
  intros Hh Hb Hu Hfit Hml Hr. unfold http_client_send_recv.
  assert (Hz : (zlen uri =? 0) = false) by (apply Z.eqb_neq; intros E; by apply zlen_0_nil in E). rewrite Hz, Hh.
  destruct (alloc_works MAX_SEND_BUF_SIZE w) as (w1 & -> & Ha1 & Hg1); [done|]. cbn [negb].
  unfold http_client_req_send. destruct (send_request_exact _ _ _ Hfit Hml) as (segs & -> & Hc & _). rewrite Hb.
  cbn [Z.eqb mbind option_bind]. rewrite Hb. cbn [Z.eqb negb]. destruct (segments_sent (hh_secured hh) segs w1) as (w2 & -> & Ha2 & Hg2).
  destruct (works_alloc 1461 w2) as (b & w3 & E & Hzb & Ha3 & Hg3); [done|].
  change (MAX_RECV_BUF_SIZE + 1) with 1461. rewrite E, Hr by (unfold zlen in Hzb; lia). cbn [mbind option_bind].
  exists w3. split; [done|]. rewrite <- Hc. split; congruence.
Qed.

(** A configuration that can be sent: a host name, a path, and at most five
    headers of the application, none of which takes the place of another. *)
Definition cfg_ok (cfg : websock_config_t) : Prop :=
  0 < zlen (cfg_hostname cfg) < HTTP_CLIENT_HOST_NAME_LEN_MAX /\ cfg_uri cfg <> []
  /\ zlen (method_line HTTP_GET (cfg_uri cfg)) + 2 < MAX_SEND_BUF_SIZE
  /\ (length (hndshk_hdrs cfg) <= 5)%nat /\ apart (take 5 (lines (handshake_hdrs cfg))) (hndshk_hdrs cfg)
  /\ Forall hdr_fits (lines (handshake_hdrs cfg)).

Definition upgrade_request (cfg : websock_config_t) : bytes :=
  method_line HTTP_GET (cfg_uri cfg) ++ header_text (lines (handshake_hdrs cfg)) ++ CRLF.

Lemma handshake_apart cfg : apart (take 5 (lines (handshake_hdrs cfg))) (hndshk_hdrs cfg) ->
  apart [hdr_line (str "Host") (cfg_hostname cfg)] (drop 1 (handshake_hdrs cfg)).
Proof. intros Ha. repeat (split; [done|]; split; [done|]). exact Ha. Qed.

(** The new connection and the list it is put in. *)
Definition opened_lib (g : ws_lib) (c : ws_conn) : ws_lib :=
  let g := ws_init g in
  mkLib (c :: ws_handle_list g) true (thread_init_done g) (timer g) (msgs g) (next_id g + 1).

Lemma open_answered s1 s2 cfg evs cbs rval g (w : W) :
  0 <= s1 -> 0 <= s2 -> cfg_ok cfg ->
  (forall b, length b = 1461%nat -> http_client_resp_recv (rx_init b false) evs = Some (cbs, rval)) ->
  exists fd w', websock_open s1 s2 cfg evs g w
    = (if (rval <? 0) || (fold_left ws_http_resp_cb cbs 0 =? 0) then Some (None, ws_init g, w')
       else let c := new_conn (next_id (ws_init g)) (mkHttp fd (cfg_secured cfg) (mkReqState [] false false 0 [])) (cfg_secured cfg) in
            Some (Some c, opened_lib g c, w'))
  /\ arrived w' = arrived w /\ gone w' = gone w ++ upgrade_request cfg.
Proof.
  intros Hs1 Hs2 (Hh & Hu & Hml & Hn & Hap & Hfit) Hr. unfold websock_open, http_client_open.
  destruct (alloc_works s1 w Hs1) as (w1 & -> & Ha1 & Hg1). cbn [negb].
  rewrite (proj2 (Z.eqb_neq _ 0)), (proj2 (Z.leb_gt _ _)) by lia. cbn [orb].
  destruct (alloc_works s2 w1 Hs2) as (w2 & -> & Ha2 & Hg2). cbn [negb].
  destruct (works_connect (cfg_secured cfg) (cfg_hostname cfg) (cfg_port cfg) w2) as (fd & w3 & -> & Ha3 & Hg3).
  destruct (alloc_works (zlen (cfg_hostname cfg) + 1) w3) as (w4 & -> & Ha4 & Hg4); [lia|]. cbn [negb hh_req hh_fd hh_secured].
  change (handshake_hdrs cfg) with ((str "Host", cfg_hostname cfg) :: drop 1 (handshake_hdrs cfg)). cbn [set_req_hdrs].
  set (rq0 := mkReqState [] false false 0 (cfg_hostname cfg)).
  destruct (hdr_set rq0 (str "Host") (cfg_hostname cfg) w4) as (w5 & -> & Ha5 & Hg5); [cbn; unfold HTTP_MAX_REQ_HDRS; lia|done|done|].
  set (rq1 := mkReqState _ _ _ _ _).
  destruct (hdrs_set (drop 1 (handshake_hdrs cfg)) rq1 w5) as (hp & w6 & -> & Ha6 & Hg6);
    [by apply handshake_apart|cbn; unfold HTTP_MAX_REQ_HDRS; lia|].
  set (hh := mkHttp fd (cfg_secured cfg) (mkReqState (_ ++ _) _ _ _ _)).
  destruct (get_answered hh (cfg_uri cfg) evs cbs rval w6) as (w7 & -> & Ha7 & Hg7); try done. cbn [mbind option_bind].
  assert (Ht : gone w7 = gone w ++ upgrade_request cfg).
  { rewrite Hg7, Hg6, Hg5, Hg4, Hg3, Hg2, Hg1. done. }
  assert (Ha : arrived w7 = arrived w) by congruence.
  destruct ((rval <? 0) || (fold_left ws_http_resp_cb cbs 0 =? 0)); [by exists fd, w7|].
  exists fd, (set_nonblocking fd w7). destruct (works_nonblocking fd w7) as [-> ->].
  split; [|done]. unfold opened_lib. do 3 f_equal. unfold ws_init. destruct (init_done g) eqn:E; cbn; by rewrite ?E.
Qed.

End Open.

(** C30: the handshake upgrades the connection.  With memory, a server that can
    be reached and a configuration that fits, [websock_open] sends exactly one
    request, "GET uri HTTP/1.1" with the five headers of the protocol and then
    those of the application, in order; when the server answers with the status
    101 and headers that say nothing of a body, the connection is put at the
    head of the list, ready for its first frame, and secured as configured. *)
Theorem websock_open_upgrades {W} `{!WsSystem W} `{!WsEnv W} `{!WsLink W} `{!WsWorks W} s1 s2 cfg reason hs b0 evs g (w : W) :
  0 <= s1 -> 0 <= s2 -> cfg_ok cfg ->
  is_text reason -> hs <> [] -> Forall plain_header hs -> (length hs <= HTTP_MAX_RESP_HDRS)%nat ->
  zlen (first_piece (str "101") reason hs b0) <= MAX_RECV_BUF_SIZE ->
  exists c w', websock_open s1 s2 cfg (RData (first_piece (str "101") reason hs b0) :: evs) g w = Some (Some c, opened_lib g c, w')
    /\ arrived w' = arrived w /\ gone w' = gone w ++ upgrade_request cfg
    /\ between (c_ws c) /\ secured (c_ws c) = cfg_secured cfg.
Proof.
  intros Hs1 Hs2 Hcfg Hr Hne Hp Hcnt Hfirst.
  destruct (open_answered s1 s2 cfg (RData (first_piece (str "101") reason hs b0) :: evs) [mkCb 101 hs b0 0 false] 0 g w Hs1 Hs2 Hcfg)
    as (fd & w' & -> & Ha & Hg).
  { intros b Hb. apply (bodyless_received b false (str "101")); try done.
    split; [done|]. apply (bool_decide_unpack _); by vm_compute. }
  eexists _, w'. split; [done|]. split; [done|]. split; [done|]. split; [|done].
  unfold between. cbn. split_and!; try done. by left.
Qed.

Definition sample_cfg : websock_config_t := mkCfg (str "echo.io") 80 (str "/chat") false [(str "Origin", str "t2")].

Definition no_lib : ws_lib := mkLib [] false false None 0 0.

Lemma websock_open_upgrades_witness :
  exists c w', websock_open 200 300 sample_cfg
      (RData (first_piece (str "101") (str "Switching Protocols") [str "Upgrade: websocket"] []) :: []) no_lib (mkNet (mkPipe [] []) [] [])
    = Some (Some c, opened_lib no_lib c, w')
    /\ p_in (n_pipe w') = [] /\ p_out (n_pipe w') = [] ++ upgrade_request sample_cfg
    /\ between (c_ws c) /\ secured (c_ws c) = false.
Proof.
  destruct (websock_open_upgrades 200 300 sample_cfg (str "Switching Protocols") [str "Upgrade: websocket"] [] [] no_lib
              (mkNet (mkPipe [] []) [] [])) as (c & w' & E & Ha & Hg & Hb & Hs).
  - lia.
  - lia.
  - unfold cfg_ok. split_and!; try done; [vm_compute; lia|by repeat constructor].
  - apply (bool_decide_unpack _); by vm_compute.
  - done.
  - apply Forall_singleton. split; [split; [done|apply (bool_decide_unpack _); by vm_compute]|done].
  - vm_compute. lia.
  - by vm_compute.
  - exists c, w'. exact (conj E (conj Ha (conj Hg (conj Hb Hs)))).
Defined.

(** When reception fails or ends with another status there is no connection,
    and the list is as it was. *)
Lemma websock_open_refused {W} `{!WsSystem W} `{!WsEnv W} `{!WsLink W} `{!WsWorks W} s1 s2 cfg evs cbs rval g (w : W) :
  0 <= s1 -> 0 <= s2 -> cfg_ok cfg ->
  (forall b, length b = 1461%nat -> http_client_resp_recv (rx_init b false) evs = Some (cbs, rval)) ->
  rval < 0 \/ (exists cbs0 c, cbs = cbs0 ++ [c] /\ cb_status c <> 101) ->
  exists w', websock_open s1 s2 cfg evs g w = Some (None, ws_init g, w')
    /\ arrived w' = arrived w /\ gone w' = gone w ++ upgrade_request cfg.
Proof.
  intros Hs1 Hs2 Hcfg Hr Hno. destruct (open_answered s1 s2 cfg evs cbs rval g w Hs1 Hs2 Hcfg Hr) as (fd & w' & -> & Ha & Hg).
  exists w'. split; [|done]. destruct Hno as [Hneg|(cbs0 & c & -> & Hc)]; [by rewrite (proj2 (Z.ltb_lt _ _) Hneg)|].
  rewrite fold_left_app. cbn. unfold ws_http_resp_cb. rewrite (proj2 (Z.eqb_neq _ _) Hc), orb_true_r. done.
Qed.
