(* ===== verification/WebSockThread.v ===== *)
(** * The connections of the WebSocket client at work

    The delivery of the frames that arrive to the event handler by the polling
    thread, the invariant of the list of connections and its timer, and what
    becomes of the timer when a connection is closed. *)

From S2P Require Import Prelude FileSys FsUtils BasicJson CString HttpClient HttpRequest HttpResponse HttpDelivery.
From S2P Require Import WebSock WebSockProps WebSockLib WebSockOpen.

(** ** What a reception leaves alone *)

Definition same (h h' : ws_handle) : Prop := secured h' = secured h /\ sock_fd h' = sock_fd h.

Definition phase_same {W} (h : ws_handle) (p : @phase W) : Prop :=
  match p with Return_ _ h' _ | Go_on _ _ _ h' _ => same h h' end.

Lemma same_trans h1 h2 h3 : same h1 h2 -> same h2 h3 -> same h1 h3.
Proof. intros [? ?] [? ?]. split; congruence. Qed.

Section Same.
Context {W : Type} `{!WsSystem W}.

Lemma send_same h buf len op (w : W) r h' w' : ws_send_internal h buf len op w = Some (r, h', w') -> same h h'.
Proof.
  unfold ws_send_internal. destruct (get_random_bytes 4 w) as [m w1]. destruct (match h_buf h with Some b => _ | None => _ end) as [[b|] w2].
  - destruct (send_loop _ _ _ _ _ _ _ _ _ _) as [[[r1 b1] w3]|]; [|done]. by intros [= <- <- <-].
  - by intros [= <- <- <-].
Qed.

Lemma header_phase_same h buf len timeout (w : W) p : header_phase h buf len timeout w = Some p -> phase_same h p.
Proof.
  unfold header_phase. set (h1 := if hdr_unread_len h =? 0 then _ else h). assert (Hs : same h h1) by (unfold h1; by destruct (hdr_unread_len h =? 0)).
  destruct (recv_hdr h1 timeout w) as [[[n b] w1]|]; [|done]. cbn. repeat case_match; intros [= <-]; exact Hs.
Qed.

Lemma length_phase_same h buf len timeout (w : W) p : length_phase h buf len timeout w = Some p -> phase_same h p.
Proof. unfold length_phase. destruct (recv_hdr h timeout w) as [[[n b] w1]|]; [|done]. cbn. repeat case_match; by intros [= <-]. Qed.

Lemma payload_phase_same fuel : forall h buf len timeout (w : W) p, payload_phase fuel h buf len timeout w = Some p -> phase_same h p.
Proof.
  induction fuel as [|fuel IH]; intros h buf len timeout w p; [done|]. cbn [payload_phase].
  destruct (ws_socket_recv _ _ _ _) as [[n cs] w1]. destruct (store buf 0 cs) as [b|]; [|done]. cbn.
  destruct (n <=? 0); [by intros [= <-]|]. destruct (_ && _).
  - intros Hp. apply IH in Hp. by destruct p.
  - intros [= <-]. cbn. by destruct (_ =? 0).
Qed.

Lemma in_state_phase_same st h0 p k p' :
  phase_same h0 p -> (forall h buf len (w : W) p', k h buf len w = Some p' -> phase_same h p') -> in_state st p k = Some p' -> phase_same h0 p'.
Proof.
  intros Hp Hk. destruct p as [r h w|n buf len h w]; cbn; [by intros [= <-]|].
  assert (Hgo : k h buf len w = Some p' -> phase_same h0 p').
  { intros E. apply Hk in E. destruct p'; cbn in *; exact (same_trans _ _ _ Hp E). }
  destruct st, (h_state h); try done; by intros [= <-].
Qed.

Lemma recv_loop_same rounds fuel : forall h buf len in_len timeout (w : W) r h' w',
  recv_loop rounds fuel h buf len in_len timeout w = Some (r, h', w') -> same h h'.
Proof.
  induction fuel as [|fuel IH]; intros h buf len in_len timeout w r h' w'; [done|]. cbn [recv_loop].
  destruct (in_state WS_STATE_HDR_RECEIVING _ _) as [p1|] eqn:E1; [|done]. cbn [mbind option_bind].
  assert (H1 : phase_same h p1) by (refine (in_state_phase_same _ _ _ _ _ _ _ E1); [done|intros *; apply header_phase_same]).
  destruct (in_state WS_STATE_EXND_PL_LEN_RECEIVING _ _) as [p2|] eqn:E2; [|done]. cbn [mbind option_bind].
  assert (H2 : phase_same h p2) by (refine (in_state_phase_same _ _ _ _ _ H1 _ E2); intros *; apply length_phase_same).
  destruct (in_state WS_STATE_PAYLOAD_RECEIVING _ _) as [p3|] eqn:E3; [|done]. cbn [mbind option_bind].
  assert (H3 : phase_same h p3) by (refine (in_state_phase_same _ _ _ _ _ H2 _ E3); intros *; apply payload_phase_same).
  destruct p3 as [r3 h3 w3|n3 b3 l3 h3 w3]; cbn in H3; [by intros [= <- <- <-]|].
  destruct (_ =? _); [|by intros [= <- <- <-]].
  destruct (ws_send_internal h3 None 0 WS_OPCODE_PONG w3) as [[[r4 h4] w4]|] eqn:E4; [|done]. cbn. intros E5.
  apply send_same in E4. apply IH in E5. exact (same_trans _ _ _ H3 (same_trans _ _ _ E4 E5)).
Qed.

End Same.

(** ** The thread delivers *)

(** What a handler is given: the bytes of the payload it may look at. *)
Definition seen (k : ws_call) : (Z * Z) * websock_cb_event_t * websock_msg_hdr_t * bytes :=
  (k_cb k, k_event k, k_hdr k, take (Z.to_nat (k_len k)) (default [] (k_payload k))).

(** A frame handed over in the given pieces. *)
Definition handed (cb : Z * Z) (f : frame) (ps : list bytes) := map (fun p => (cb, WEBSOCK_CB_EVENT_DATA, hdr_of f, p)) ps.

(** The same connection, whose reception has gone on. *)
Definition kept (c c' : ws_conn) : Prop :=
  c_id c' = c_id c /\ c_http c' = c_http c /\ c_cb c' = c_cb c /\ same (c_ws c) (c_ws c').

Lemma kept_refl c : kept c c.
Proof. by repeat split. Qed.

Lemma kept_trans c1 c2 c3 : kept c1 c2 -> kept c2 c3 -> kept c1 c3.
Proof. intros (? & ? & ? & Hs) (? & ? & ? & Hs'). split_and!; try congruence. exact (same_trans _ _ _ Hs Hs'). Qed.

Section Thread.
Context {W : Type} `{!WsSystem W} `{!WsEnv W} `{!WsLink W} `{!WsWorks W}.
Context (rounds : nat) (cb : Z * Z).

Definition data_call (f : frame) (b : bytes) (k : Z) : ws_call := mkCall cb WEBSOCK_CB_EVENT_DATA (hdr_of f) (Some b) k.

(** One round of the loop, in which a piece of a frame arrives. *)
Lemma drain_data c buf len (w : W) n f b' k h' w' :
  c_cb c = Some cb -> 0 <= f_op f -> 0 < n ->
  ws_recv_internal rounds (c_ws c) buf len 0 w = Some (mkReceived n (hdr_of f) b' k, h', w') ->
  kept c (set_conn c h' b') /\ forall fuel, drain rounds (S fuel) c buf len w
    = ('(ks, c2, cl, w2) ← drain rounds fuel (set_conn c h' b') b' k w'; Some (data_call f b' k :: ks, c2, cl, w2)).
Proof.
  intros Hcb Hop Hn E. split; [split_and!; try done; by eapply recv_loop_same|]. intros fuel.
  cbn [drain]. rewrite E. cbn [mbind option_bind r_rval r_hdr r_buf r_len]. rewrite (proj2 (Z.ltb_ge n 0)), (proj2 (Z.ltb_lt 0 n)) by lia.
  rewrite (proj2 (Z.leb_le 0 (opcode (hdr_of f)))) by done. unfold call. cbn [c_cb set_conn]. by rewrite Hcb.
Qed.

(** The pieces [ps] of the frame [f] are handed over, and the loop goes on. *)
Definition goes_on (f : frame) (ps : list bytes) (c : ws_conn) (buf : bytes) (len : Z) (w : W) (c' : ws_conn) (buf' : bytes) (len' : Z)
    (w' : W) : Prop :=
  kept c c' /\ between (c_ws c') /\ zlen buf' = zlen buf /\ 1 <= len' <= zlen buf'
  /\ exists calls, map seen calls = handed cb f ps
  /\ forall fuel, drain rounds (length ps + fuel) c buf len w
       = ('(ks, c2, cl, w2) ← drain rounds fuel c' buf' len' w'; Some (calls ++ ks, c2, cl, w2)).

(** One more piece in front. *)
Lemma goes_on_cons f p ps c buf len w n b1 k h1 w1 c' buf' len' w' :
  c_cb c = Some cb -> 0 <= f_op f -> 0 < n -> take (Z.to_nat k) b1 = p -> zlen b1 = zlen buf ->
  ws_recv_internal rounds (c_ws c) buf len 0 w = Some (mkReceived n (hdr_of f) b1 k, h1, w1) ->
  goes_on f ps (set_conn c h1 b1) b1 k w1 c' buf' len' w' -> goes_on f (p :: ps) c buf len w c' buf' len' w'.
Proof.
  intros Hcb Hop Hn Hp Hz E (Hk & Hbt & Hz' & Hl & calls & Hs & Hd).
  destruct (drain_data _ _ _ _ _ _ _ _ _ _ Hcb Hop Hn E) as [Hk1 Hd1].
  split; [exact (kept_trans _ _ _ Hk1 Hk)|]. split; [done|]. split; [congruence|]. split; [done|].
  exists (data_call f b1 k :: calls). split; [cbn; rewrite Hs; unfold seen; cbn; by rewrite Hp|].
  intros fuel. cbn [length Nat.add]. rewrite Hd1, Hd. by destruct (drain rounds fuel c' buf' len' w') as [[[[ks c2] cl] w2]|].
Qed.

Lemma goes_on_nil f c buf len w : between (c_ws c) -> 1 <= len <= zlen buf -> goes_on f [] c buf len w c buf len w.
Proof.
  intros Hb Hl. split; [apply kept_refl|]. split; [done|]. split; [done|]. split; [done|]. exists []. split; [done|]. intros fuel. cbn.
  by destruct (drain rounds fuel c buf len w) as [[[[ks c2] cl] w2]|].
Qed.

(** What is left of a frame. *)
Lemma drain_rest f m : forall c buf len (w : W) p rest,
  c_cb c = Some cb -> 0 <= f_op f -> f_op f <> WS_OPCODE_PING -> (1 <= rounds)%nat -> (length p <= m)%nat -> p <> [] ->
  after f (c_ws c) (zlen p) -> 1 <= len <= zlen buf -> arrived w = p ++ rest ->
  exists ps c' buf' len' w',
    concat ps = p /\ (length ps <= length p)%nat /\ goes_on f ps c buf len w c' buf' len' w' /\ arrived w' = rest /\ gone w' = gone w.
Proof.
  induction m as [|m IH]; intros c buf len w p rest Hcb Hop Hnp Hr Hm Hp Haf Hl Ha; [destruct p; [done|cbn in Hm; lia]|].
  assert (Hz : 0 < zlen p) by (destruct p; [done|rewrite zlen_cons; pose proof (zlen_nonneg p); lia]).
  destruct (piece_received rounds (pred rounds) (c_ws c) f p rest buf len 0 w) as (n & h1 & w1 & E & Hnk & Haf1 & Ha1 & Hg1); try done.
  rewrite Nat.succ_pred in E by lia. set (k := Z.min len (zlen p)) in *.
  assert (Hk : 1 <= k <= zlen p /\ k <= len) by (unfold k; lia). assert (Hn : 0 < n) by lia.
  destruct (piece_taken buf p k) as [Ht Hzb]; [lia|lia|]. set (b1 := memcpy buf 0 (take (Z.to_nat k) p)) in *.
  unfold after in Haf1. destruct (Z.eqb_spec (zlen p - k) 0) as [E0|E0].
  - assert (Hall : take (Z.to_nat k) p = p) by (apply firstn_all2; unfold zlen in *; lia).
    exists [p], (set_conn c h1 b1), b1, k, w1. split; [by cbn; rewrite app_nil_r|]. split; [cbn; unfold zlen in *; lia|].
    split; [|split; [rewrite Ha1, drop_ge by (unfold zlen in *; lia); done|done]].
    apply (goes_on_cons f p [] c buf len w n b1 k h1 w1); try done; [congruence|]. apply goes_on_nil; [done|lia].
  - destruct (IH (set_conn c h1 b1) b1 k w1 (drop (Z.to_nat k) p) rest) as (ps & c' & buf' & len' & w' & Hc & Hlen & Hgo & Ha' & Hg'); try done.
    + rewrite length_drop. unfold zlen in *. lia.
    + intros En. apply (f_equal zlen) in En. rewrite zlen_drop in En by lia. change (zlen []) with 0 in En. lia.
    + unfold after. rewrite zlen_drop by lia. by rewrite (proj2 (Z.eqb_neq _ _) E0).
    + lia.
    + exists (take (Z.to_nat k) p :: ps), c', buf', len', w'. cbn [concat length]. rewrite Hc, take_drop.
      split; [done|]. split; [rewrite length_drop in Hlen; unfold zlen in *; lia|].
      split; [by apply (goes_on_cons f _ ps c buf len w n b1 k h1 w1)|split; [done|congruence]].
Qed.

(** A frame, after the pings before it. *)
Lemma drain_frame f pings c buf len (w : W) rest :
  c_cb c = Some cb -> 0 <= f_op f < 16 -> f_op f <> WS_OPCODE_PING -> 0 < zlen (f_payload f) < 65536 ->
  Forall (fun pl => zlen pl <= 125) pings -> (125 <= rounds)%nat -> (length pings < rounds)%nat ->
  between (c_ws c) -> 1 <= len <= zlen buf -> arrived w = ping_frames pings ++ server_frame f ++ rest ->
  exists ps c' buf' len' w' masks,
    concat ps = f_payload f /\ (length ps <= length (f_payload f))%nat /\ goes_on f ps c buf len w c' buf' len' w'
    /\ arrived w' = rest /\ Forall (fun m => zlen m = 4) masks /\ length masks = length pings /\ gone w' = gone w ++ pongs masks.
Proof.
  intros Hcb Hop Hnp Hpl Hps Hr Hrn Hbt Hl Ha.
  destruct (pings_answered rounds 0 len pings rounds (c_ws c) (server_frame f ++ rest) buf w) as
    (h1 & buf1 & w1 & masks & E1 & Hz1 & Hbt1 & Ha1 & Hms & Hlen & Hg1); try done; [lia|].
  destruct (rounds - length pings)%nat as [|fu] eqn:Ef; [lia|].
  destruct (frame_begun rounds fu h1 f rest buf1 len 0 w1) as (n & h2 & w2 & E2 & Hn & _ & Haf & Ha2 & Hg2); try done; [lia|lia|lia|].
  set (p := f_payload f) in *. set (k := Z.min len (zlen p)) in *.
  assert (Hk : 1 <= k <= zlen p /\ k <= zlen buf1) by (unfold k; lia).
  destruct (piece_taken buf1 p k) as [Ht Hzb]; [lia|lia|]. set (b2 := memcpy buf1 0 (take (Z.to_nat k) p)) in *.
  assert (E : ws_recv_internal rounds (c_ws c) buf len 0 w = Some (mkReceived n (hdr_of f) b2 k, h2, w2))
    by (unfold ws_recv_internal; by rewrite E1, E2).
  unfold after in Haf. destruct (Z.eqb_spec (zlen p - k) 0) as [E0|E0].
  - assert (Hall : take (Z.to_nat k) p = p) by (apply firstn_all2; unfold zlen in *; lia).
    exists [p], (set_conn c h2 b2), b2, k, w2, masks. split; [by cbn; rewrite app_nil_r|]. split; [cbn; unfold zlen in *; lia|].
    split; [apply (goes_on_cons f p [] c buf len w n b2 k h2 w2); try done; [lia|congruence|congruence|apply goes_on_nil; [done|lia]]|].
    split; [rewrite Ha2, drop_ge by (unfold zlen in *; lia); done|]. split_and!; try done. congruence.
  - destruct (drain_rest f (length p) (set_conn c h2 b2) b2 k w2 (drop (Z.to_nat k) p) rest)
      as (ps & c' & buf' & len' & w' & Hc & Hlen' & Hgo & Ha' & Hg'); try done.
    + lia.
    + lia.
    + rewrite length_drop. lia.
    + intros En. apply (f_equal zlen) in En. rewrite zlen_drop in En by lia. change (zlen []) with 0 in En. lia.
    + unfold after. rewrite zlen_drop by lia. by rewrite (proj2 (Z.eqb_neq _ _) E0).
    + lia.
    + exists (take (Z.to_nat k) p :: ps), c', buf', len', w', masks. cbn [concat length]. rewrite Hc, take_drop.
      split; [done|]. split; [rewrite length_drop in Hlen'; unfold zlen in *; lia|].
      split; [apply (goes_on_cons f _ ps c buf len w n b2 k h2 w2); try done; [lia|congruence]|]. split_and!; try done. congruence.
Qed.

(** Nothing more arrives: a plain connection reports no byte, a secured one an
    error. *)
Lemma quiet_received fuel h buf len (w : W) :
  between h -> arrived w = [] ->
  exists h' w', recv_loop rounds (S fuel) h buf len len 0 w
    = Some (mkReceived (if secured h then -1 else 0) invalid_hdr buf 0, h', w')
  /\ between h' /\ arrived w' = [] /\ gone w' = gone w.
Proof.
  intros (Hs & Hi & Hu & Hz & Hb) Ha. rewrite receive_unfold. unfold start. rewrite in_state_same by done. unfold header_phase.
  set (h1 := if hdr_unread_len h =? 0 then _ else h).
  assert (H1 : h_state h1 = WS_STATE_HDR_RECEIVING /\ hdr_index h1 = 0 /\ hdr_unread_len h1 = 2 /\ frame_hdr h1 = frame_hdr h
               /\ h_buf h1 = h_buf h /\ secured h1 = secured h)
    by (unfold h1; destruct Hu as [E|E]; rewrite E; done).
  destruct H1 as (H1s & H1i & H1u & H1f & H1b & H1c). clearbody h1. unfold recv_hdr, ws_socket_recv. rewrite H1c.
  assert (Hq : exists w1, (if secured h then ssl_wrap_read_timeout (hdr_unread_len h1) (u32 (0 * 1000)) w
      else let '(ret, w) := select 0 w in if 0 <? ret then recv (hdr_unread_len h1) w else (0, [], w))
      = (if secured h then -1 else 0, [], w1) /\ arrived w1 = [] /\ gone w1 = gone w).
  { destruct (secured h).
    - destruct (works_ssl_read (hdr_unread_len h1) (u32 (0 * 1000)) w Ha) as (w1 & -> & H). by exists w1.
    - destruct (works_select 0 w Ha) as (w1 & -> & H). by exists w1. }
  destruct Hq as (w1 & -> & Ha1 & Hg1). unfold store. rewrite H1i, H1f, Hz. cbn [mbind option_bind].
  change ((0 <=? 0) && (0 + zlen [] <=? 16)) with true. cbn [mbind option_bind].
  rewrite (proj2 (Z.leb_le (if secured h then -1 else 0) 0)) by (destruct (secured h); lia). cbn.
  eexists _, w1. split; [done|]. split; [|done]. unfold between, buf_ok. cbn. rewrite H1b. split_and!; try done; by left.
Qed.

Definition error_call : ws_call := mkCall cb WEBSOCK_CB_EVENT_ERROR invalid_hdr None 0.

(** The last round of the loop. *)
Lemma drain_end fuel pings c buf len (w : W) :
  c_cb c = Some cb -> between (c_ws c) -> 1 <= len <= zlen buf ->
  Forall (fun pl => zlen pl <= 125) pings -> (125 <= rounds)%nat -> (length pings < rounds)%nat -> arrived w = ping_frames pings ->
  exists c' w' masks, drain rounds (S fuel) c buf len w
      = Some (if secured (c_ws c) then [error_call] else [], c', secured (c_ws c), w')
  /\ kept c c' /\ between (c_ws c') /\ (exists b, c_recv_buf c' = Some b /\ zlen b = zlen buf) /\ arrived w' = []
  /\ Forall (fun m => zlen m = 4) masks /\ length masks = length pings /\ gone w' = gone w ++ pongs masks.
Proof.
  intros Hcb Hbt Hl Hps Hr Hrn Ha.
  destruct (pings_answered rounds 0 len pings rounds (c_ws c) [] buf w) as
    (h1 & buf1 & w1 & masks & E1 & Hz1 & Hbt1 & Ha1 & Hms & Hlen & Hg1); try done; [lia|by rewrite app_nil_r|].
  destruct (rounds - length pings)%nat as [|fu] eqn:Ef; [lia|].
  destruct (quiet_received fu h1 buf1 len w1 Hbt1 Ha1) as (h2 & w2 & E2 & Hbt2 & Ha2 & Hg2). rewrite E2 in E1.
  pose proof (recv_loop_same _ _ _ _ _ _ _ _ _ _ _ E1) as Hsame. pose proof (recv_loop_same _ _ _ _ _ _ _ _ _ _ _ E2) as Hsame2.
  assert (Hsec : secured h1 = secured (c_ws c)) by (destruct Hsame, Hsame2; congruence). rewrite Hsec in E1.
  exists (set_conn c h2 buf1), w2, masks. cbn [drain]. unfold ws_recv_internal. rewrite E1.
  cbn [mbind option_bind r_rval r_hdr r_buf r_len]. split.
  - unfold call, set_conn. cbn [c_cb]. rewrite Hcb. by destruct (secured (c_ws c)).
  - split; [by split_and!|]. split; [done|]. split; [by eexists|]. split_and!; try done. congruence.
Qed.

(** Everything that has arrived. *)
Definition traffic (items : list (list bytes * frame)) (last : list bytes) : bytes :=
  concat (map (fun it => ping_frames it.1 ++ server_frame it.2) items) ++ ping_frames last.

Definition payloads (items : list (list bytes * frame)) : bytes := concat (map (fun it => f_payload it.2) items).

Definition pings_of (items : list (list bytes * frame)) (last : list bytes) : list bytes := concat (map fst items) ++ last.

Definition item_ok (it : list bytes * frame) : Prop :=
  Forall (fun pl => zlen pl <= 125) it.1 /\ (length it.1 < rounds)%nat
  /\ 0 <= f_op it.2 < 16 /\ f_op it.2 <> WS_OPCODE_PING /\ 0 < zlen (f_payload it.2) < 65536.

(** The calls that hand over the frames, in pieces. *)
Definition hands_over (items : list (list bytes * frame)) (calls : list ws_call) : Prop :=
  exists parts, Forall2 (fun it ps => concat ps = f_payload it.2) items parts
  /\ map seen calls = concat (zip_with (fun it ps => handed cb it.2 ps) items parts).

Lemma drain_all items last : forall fuel c buf len (w : W),
  c_cb c = Some cb -> between (c_ws c) -> 1 <= len <= zlen buf -> Forall item_ok items ->
  Forall (fun pl => zlen pl <= 125) last -> (125 <= rounds)%nat -> (length last < rounds)%nat ->
  arrived w = traffic items last -> (length (payloads items) < fuel)%nat ->
  exists calls c' w' masks, drain rounds fuel c buf len w
      = Some (calls ++ (if secured (c_ws c) then [error_call] else []), c', secured (c_ws c), w')
  /\ hands_over items calls
  /\ kept c c' /\ between (c_ws c') /\ (exists b, c_recv_buf c' = Some b /\ zlen b = zlen buf) /\ arrived w' = []
  /\ Forall (fun m => zlen m = 4) masks /\ length masks = length (pings_of items last) /\ gone w' = gone w ++ pongs masks.
Proof.
  induction items as [|[pings f] items IH]; intros fuel c buf len w Hcb Hbt Hl Hok Hlast Hr Hrl Ha Hf.
  - destruct fuel as [|fuel]; [lia|]. destruct (drain_end fuel last c buf len w) as (c' & w' & masks & E & H); try done.
    exists [], c', w', masks. split; [exact E|]. split; [|exact H]. by exists [].
  - inversion Hok as [|? ? (Hps & Hpn & Hop & Hnp & Hpl) Hok']; subst. cbn [fst snd] in *.
    destruct (drain_frame f pings c buf len w (traffic items last)) as
      (ps & c1 & buf1 & len1 & w1 & masks & Hc & Hlen & (Hk & Hbt1 & Hz1 & Hl1 & calls & Hs & Hd) & Ha1 & Hms & Hml & Hg1); try done.
    { rewrite Ha. unfold traffic. cbn [map concat fst snd]. by rewrite <- !app_assoc. }
    assert (Hp : length (payloads ((pings, f) :: items)) = (length (f_payload f) + length (payloads items))%nat)
      by (unfold payloads; cbn [map concat snd]; by rewrite length_app).
    destruct (IH (fuel - length ps)%nat c1 buf1 len1 w1) as (calls2 & c2 & w2 & masks2 & E & (parts & H2 & Hs2) & Hk2 & Hbt2 & (b & Hb & Hzb) & Ha2 & Hms2 & Hml2 & Hg2);
      try done; [destruct Hk as (_ & _ & -> & _); done|lia|].
    assert (Hsec : secured (c_ws c1) = secured (c_ws c)) by apply Hk. rewrite Hsec in E.
    exists (calls ++ calls2), c2, w2, (masks ++ masks2).
    replace fuel with (length ps + (fuel - length ps))%nat at 1 by lia. rewrite Hd, E. cbn [mbind option_bind]. rewrite <- app_assoc.
    split; [done|]. split; [exists (ps :: parts); split; [by constructor|]; cbn [zip_with concat snd]; by rewrite map_app, Hs, Hs2|].
    split; [exact (kept_trans _ _ _ Hk Hk2)|]. split; [done|]. split; [exists b; split; congruence|]. split; [done|].
    split; [by apply Forall_app|]. split; [|rewrite Hg2, Hg1, <- app_assoc; unfold pongs; by rewrite map_app, concat_app].
    unfold pings_of in *. cbn [map concat fst]. rewrite length_app, Hml, Hml2, <- app_assoc, !length_app. lia.
Qed.

End Thread.

(** ** One message of the timer *)

(** Connections with addresses and sockets of their own, as many as the array of
    descriptors holds. *)
Definition list_ok (l : list ws_conn) : Prop :=
  NoDup (map c_id l) /\ NoDup (map (fun c => sock_fd (c_ws c)) l) /\ zlen l <= WS_MAX_CONNECTIONS.

Lemma fd_found l pre c post :
  l = pre ++ c :: post -> NoDup (map (fun c => sock_fd (c_ws c)) l) -> ws_fd_to_handle (sock_fd (c_ws c)) l = Some c.
Proof.
  intros -> Hn. induction pre as [|a pre IH]; cbn; [by rewrite Z.eqb_refl|]. cbn in Hn. apply NoDup_cons in Hn as [Ha Hn].
  destruct (Z.eqb_spec (sock_fd (c_ws c)) (sock_fd (c_ws a))) as [E|E]; [|by apply IH].
  exfalso. apply Ha. rewrite <- E, map_app. set_solver.
Qed.

Lemma update_at pre c c' post : NoDup (map c_id (pre ++ c :: post)) -> c_id c' = c_id c -> ws_update c' (pre ++ c :: post) = pre ++ c' :: post.
Proof.
  intros Hn Hi. induction pre as [|a pre IH]; cbn; [by rewrite Hi, Z.eqb_refl|]. cbn in Hn. apply NoDup_cons in Hn as [Ha Hn].
  destruct (Z.eqb_spec (c_id a) (c_id c')) as [E|E]; [|by rewrite IH]. exfalso. apply Ha. rewrite E, Hi, map_app. set_solver.
Qed.

Lemma remove_at pre c c' post :
  NoDup (map c_id (pre ++ c :: post)) -> c_id c' = c_id c -> ws_list_handle_remove (c_id c') (pre ++ c' :: post) = pre ++ post.
Proof.
  intros Hn Hi. induction pre as [|a pre IH]; cbn; [by rewrite Z.eqb_refl|]. cbn in Hn. apply NoDup_cons in Hn as [Ha Hn].
  destruct (Z.eqb_spec (c_id a) (c_id c')) as [E|E]; [|by rewrite IH]. exfalso. apply Ha. rewrite E, Hi, map_app. set_solver.
Qed.

Section Round.
Context {W : Type} `{!WsSystem W} `{!WsEnv W} `{!WsLink W} `{!WsWorks W}.

Lemma poll_skip rounds fuel fds1 fds2 g (w : W) :
  Forall (fun x => x.2.1 = false) fds1 -> poll_loop rounds fuel (fds1 ++ fds2) g w = poll_loop rounds fuel fds2 g w.
Proof. induction 1 as [|[fd [i e]] fds1 Hi _ IH]; [done|]. cbn in Hi. subst i. exact IH. Qed.

(** [poll] reports that only [c] can be read. *)
Definition only_ready (pre : list ws_conn) (c : ws_conn) (post : list ws_conn) (w : W) : Prop :=
  exists ret ra e rb w1, poll (map (fun c => sock_fd (c_ws c)) (pre ++ c :: post)) w = (ret, ra ++ (true, e) :: rb, w1)
  /\ ret <> 0 /\ length ra = length pre /\ Forall (fun r => r.1 = false) ra /\ Forall (fun r => r.1 = false) rb
  /\ arrived w1 = arrived w /\ gone w1 = gone w.

Lemma not_ready {A} (l : list A) (rs : list (bool * bool)) : Forall (fun r => r.1 = false) rs -> Forall (fun x => x.2.1 = false) (zip l rs).
Proof.
  intros Hr. revert l. induction Hr as [|r rs Hr _ IH]; intros [|a l]; by constructor.
Qed.

Lemma round_delivers rounds fuel cb items last g pre c post (w : W) :
  ws_handle_list g = pre ++ c :: post -> list_ok (ws_handle_list g) -> only_ready pre c post w ->
  c_cb c = Some cb -> between (c_ws c) -> (forall b, c_recv_buf c = Some b -> zlen b = WS_MAX_RECV_BUF_LEN) ->
  Forall (item_ok rounds) items -> Forall (fun pl => zlen pl <= 125) last -> (125 <= rounds)%nat -> (length last < rounds)%nat ->
  arrived w = traffic items last -> (length (payloads items) < fuel)%nat ->
  exists calls c' w' out, ws_event_round rounds fuel g w
    = (if secured (c_ws c)
       then let '(g, w) := ws_close_intrnal c' (set_list (pre ++ c' :: post) g) w' in Some (calls ++ [error_call cb], g, w)
       else Some (calls, set_list (pre ++ c' :: post) g, w'))
  /\ hands_over cb items calls /\ kept c c' /\ between (c_ws c') /\ (forall b, c_recv_buf c' = Some b -> zlen b = WS_MAX_RECV_BUF_LEN)
  /\ arrived w' = [] /\ gone w' = gone w ++ out
  /\ decode_frames (length (pings_of items last)) out = Some (replicate (length (pings_of items last)) pong).
Proof.
  intros Hg (Hid & Hfd & Hn) (ret & ra & e & rb & w1 & Hp & Hret & Hra & Hr1 & Hr2 & Ha1 & Hg1) Hcb Hbt Hb Hok Hl1 Hr Hl2 Ha Hf.
  unfold ws_event_round, ws_poll_fds_set. rewrite (proj2 (Z.ltb_ge _ _)) by done. cbn [mbind option_bind]. rewrite Hg, Hp.
  rewrite (proj2 (Z.eqb_neq _ _) Hret), map_app. cbn [map]. rewrite zip_with_app by (by rewrite length_map).
  rewrite poll_skip by (by apply not_ready). cbn [zip_with poll_loop].
  rewrite (fd_found _ pre c post Hg Hfd). cbn [mbind option_bind].
  assert (Hbuf : exists b w2, (match c_recv_buf c with Some b => (Some b, w1) | None => os_alloc WS_MAX_RECV_BUF_LEN w1 end) = (Some b, w2)
                 /\ zlen b = WS_MAX_RECV_BUF_LEN /\ arrived w2 = arrived w /\ gone w2 = gone w).
  { destruct (c_recv_buf c) as [b|]; [by exists b, w1; split_and!; try done; apply Hb|].
    destruct (works_alloc WS_MAX_RECV_BUF_LEN w1) as (b & w2 & -> & Hz & H1 & H2); [done|]. exists b, w2. split_and!; congruence || done. }
  destruct Hbuf as (b & w2 & -> & Hz & Ha2 & Hg2).
  destruct (drain_all rounds cb items last fuel c b WS_MAX_RECV_BUF_LEN w2) as
    (calls & c' & w3 & masks & -> & Hh & Hk & Hbt3 & (b' & Hb' & Hz') & Ha3 & Hms & Hml & Hg3); try done;
    [unfold WS_MAX_RECV_BUF_LEN in *; lia|congruence|]. cbn [mbind option_bind].
  exists calls, c', w3, (pongs masks). assert (Hi : c_id c' = c_id c) by apply Hk. rewrite Hg in Hid.
  rewrite Hg, (update_at pre c c' post Hid Hi).
  assert (Hrest : forall g (w : W), poll_loop rounds fuel (zip_with pair (map (fun c => sock_fd (c_ws c)) post) rb) g w = Some ([], g, w)).
  { intros g' w'. rewrite <- (app_nil_r (zip_with _ _ _)). rewrite poll_skip by (by apply not_ready). done. }
  split.
  - destruct (secured (c_ws c)); [destruct (ws_close_intrnal _ _ _) as [g4 w4]|]; rewrite Hrest; cbn [mbind option_bind];
      by rewrite !app_nil_r.
  - split; [done|]. split; [done|]. split; [done|]. split; [intros b0 E; congruence|]. split; [done|]. split; [congruence|].
    rewrite <- Hml. by apply decode_pongs.
Qed.

End Round.

(** C27: the polling thread delivers what has arrived.  When [poll] reports one
    of the connections, a plain one with a handler, and frames with payloads of
    1 to 65535 bytes have arrived on it, with pings anywhere between them, the
    round of the thread ends; the handler is called with each frame, in order,
    in pieces that together are its payload, each with the header of its frame,
    and never with an error; the pings are answered by one pong each; all that
    arrived has been read, and the connection is ready for the next frame. *)
Theorem poll_delivers {W} `{!WsSystem W} `{!WsEnv W} `{!WsLink W} `{!WsWorks W} rounds fuel cb items last g pre c post (w : W) :
  ws_handle_list g = pre ++ c :: post -> list_ok (ws_handle_list g) -> only_ready pre c post w ->
  c_cb c = Some cb -> secured (c_ws c) = false -> between (c_ws c) ->
  (forall b, c_recv_buf c = Some b -> zlen b = WS_MAX_RECV_BUF_LEN) ->
  Forall (item_ok rounds) items -> Forall (fun pl => zlen pl <= 125) last -> (125 <= rounds)%nat -> (length last < rounds)%nat ->
  arrived w = traffic items last -> (length (payloads items) < fuel)%nat ->
  exists calls c' w' out, ws_event_round rounds fuel g w = Some (calls, set_list (pre ++ c' :: post) g, w')
  /\ hands_over cb items calls /\ kept c c' /\ between (c_ws c') /\ (forall b, c_recv_buf c' = Some b -> zlen b = WS_MAX_RECV_BUF_LEN)
  /\ arrived w' = [] /\ gone w' = gone w ++ out
  /\ decode_frames (length (pings_of items last)) out = Some (replicate (length (pings_of items last)) pong).
Proof.
  intros Hg Hok Hready Hcb Hsec Hbt Hb Hit Hl1 Hr Hl2 Ha Hf.
  destruct (round_delivers rounds fuel cb items last g pre c post w) as (calls & c' & w' & out & -> & H); try done.
  rewrite Hsec. by exists calls, c', w', out.
Qed.

Definition sample_conn (sec : bool) : ws_conn :=
  mkConn 7 7 (mkWs 3 sec None WS_STATE_HDR_RECEIVING 0 (replicate 16 0) 0 2 0 (mkHdr 0 0 0)) None (Some (1, 2)).

Definition sample_lib (sec : bool) : ws_lib := mkLib [sample_conn sec] true true (Some 7) 0 8.

Definition sample_items : list (list bytes * frame) :=
  [([[9]], mkFrame false WS_OPCODE_TEXT [104; 105]); ([], mkFrame true WS_OPCODE_CONTINUE [1; 2; 3; 4; 5])].

Definition sample_net : stack := mkNet (mkPipe (traffic sample_items [[]]) []) [3] [].

Lemma sample_ready sec : only_ready [] (sample_conn sec) [] sample_net.
Proof. exists 1, [], false, [], sample_net. split; [by destruct sec|]. split; [done|]. by repeat constructor. Qed.

Lemma sample_list_ok sec : list_ok (ws_handle_list (sample_lib sec)).
Proof. split_and!; [apply NoDup_singleton|apply NoDup_singleton|done]. Qed.

Lemma sample_items_ok : Forall (item_ok 200) sample_items.
Proof.
  assert (Hone : forall pings f, Forall (fun pl => zlen pl <= 125) pings -> (length pings < 200)%nat ->
    0 <= f_op f < 16 -> f_op f <> WS_OPCODE_PING -> 0 < zlen (f_payload f) < 65536 -> item_ok 200 (pings, f)) by (by intros).
  constructor; [|constructor; [|constructor]]; apply Hone; try (cbn; unfold WS_OPCODE_TEXT, WS_OPCODE_CONTINUE; lia); try done.
  by repeat constructor.
Qed.

Lemma poll_delivers_witness :
  exists calls c' w' out, ws_event_round 200 10 (sample_lib false) sample_net = Some (calls, set_list ([] ++ c' :: []) (sample_lib false), w')
  /\ hands_over (1, 2) sample_items calls /\ kept (sample_conn false) c' /\ between (c_ws c')
  /\ (forall b, c_recv_buf c' = Some b -> zlen b = WS_MAX_RECV_BUF_LEN)
  /\ p_in (n_pipe w') = [] /\ p_out (n_pipe w') = [] ++ out /\ decode_frames 2 out = Some [pong; pong].
Proof.
  destruct (poll_delivers 200 10 (1, 2) sample_items [[]] (sample_lib false) [] (sample_conn false) [] sample_net)
    as (calls & c' & w' & out & E & H1 & H2 & H3 & H4 & H5 & H6 & H7).
  - done.
  - apply sample_list_ok.
  - apply sample_ready.
  - done.
  - done.
  - unfold between. cbn. split_and!; try done. by left.
  - done.
  - apply sample_items_ok.
  - by repeat constructor.
  - lia.
  - cbn. lia.
  - done.
  - cbn. lia.
  - exists calls, c', w', out. exact (conj E (conj H1 (conj H2 (conj H3 (conj H4 (conj H5 (conj H6 H7))))))).
Defined.

(** A secured connection is closed by the round that delivers its frames: the
    loop reads until nothing is left, which the TLS wrapper reports as an error.
    The handler is told of the error, the connection leaves the list, and when
    its timer was the one that runs, no timer does any more. *)
Lemma secured_poll_closes {W} `{!WsSystem W} `{!WsEnv W} `{!WsLink W} `{!WsWorks W} rounds fuel cb items last g pre c post (w : W) :
  ws_handle_list g = pre ++ c :: post -> list_ok (ws_handle_list g) -> only_ready pre c post w ->
  c_cb c = Some cb -> secured (c_ws c) = true -> between (c_ws c) ->
  (forall b, c_recv_buf c = Some b -> zlen b = WS_MAX_RECV_BUF_LEN) ->
  Forall (item_ok rounds) items -> Forall (fun pl => zlen pl <= 125) last -> (125 <= rounds)%nat -> (length last < rounds)%nat ->
  arrived w = traffic items last -> (length (payloads items) < fuel)%nat ->
  exists calls g' w', ws_event_round rounds fuel g w = Some (calls ++ [error_call cb], g', w')
  /\ hands_over cb items calls /\ ws_handle_list g' = pre ++ post
  /\ timer g' = match timer g with Some t => if t =? c_id c then None else Some t | None => None end.
Proof.
  intros Hg Hok Hready Hcb Hsec Hbt Hb Hit Hl1 Hr Hl2 Ha Hf.
  destruct (round_delivers rounds fuel cb items last g pre c post w) as (calls & c' & w' & out & -> & H & Hk & _); try done.
  rewrite Hsec. unfold ws_close_intrnal. destruct Hok as [Hid _]. rewrite Hg in Hid.
  eexists calls, _, _. split; [done|]. split; [done|]. destruct Hk as [Hi _]. cbn. rewrite (remove_at pre c c' post Hid Hi), Hi. done.
Qed.

(** ** The library as a whole *)

Section Steps.
Context {W : Type} `{!WsSystem W} `{!WsEnv W}.
Context (s1 s2 : Z) (rounds fuel : nat).

Definition set_msgs (n : nat) (g : ws_lib) : ws_lib :=
  mkLib (ws_handle_list g) (init_done g) (thread_init_done g) (timer g) n (next_id g).

(** What the application, the timer and the thread can do, and what is seen of
    it: the address [websock_open] returns or NULL, the connection that is
    closed, given a handler or used, and the calls of handlers. *)
Inductive lib_event :=
  | EvOpen (r : option Z)
  | EvClose (i : Z)
  | EvHandler (i : Z) (cb : Z * Z)
  | EvUse (i : Z)
  | EvFire
  | EvRound (calls : list ws_call).

Inductive lib_step : ws_lib * W -> lib_event -> ws_lib * W -> Prop :=
  | step_open g w cfg evs c g' w' :
      websock_open s1 s2 cfg evs g w = Some (c, g', w') -> lib_step (g, w) (EvOpen (c_id <$> c)) (g', w')
  | step_close g w c :
      c ∈ ws_handle_list g -> lib_step (g, w) (EvClose (c_id c)) (websock_close c g w)
  | step_handler g w c cb :
      c ∈ ws_handle_list g -> lib_step (g, w) (EvHandler (c_id c) cb) (websock_set_event_handler c cb g, w)
  | step_send g w c buf len op r h w' :
      c ∈ ws_handle_list g -> ws_send_internal (c_ws c) buf len op w = Some (r, h, w') ->
      lib_step (g, w) (EvUse (c_id c)) (set_list (ws_update (mkConn (c_id c) (c_http c) h (c_recv_buf c) (c_cb c)) (ws_handle_list g)) g, w')
  | step_recv g w c buf len timeout r h w' :
      c ∈ ws_handle_list g -> websock_recv rounds (c_ws c) buf len timeout w = Some (r, h, w') ->
      lib_step (g, w) (EvUse (c_id c)) (set_list (ws_update (mkConn (c_id c) (c_http c) h (c_recv_buf c) (c_cb c)) (ws_handle_list g)) g, w')
  | step_fire g w t :
      timer g = Some t -> lib_step (g, w) EvFire (ws_poll_timeout_cb g, w)
  | step_thread g w n calls g' w' :
      thread_init_done g = true -> msgs g = S n -> ws_event_round rounds fuel (set_msgs n g) w = Some (calls, g', w') ->
      lib_step (g, w) (EvRound calls) (g', w').

(** A run with what is seen of it. *)
Inductive lib_run : ws_lib * W -> list lib_event -> ws_lib * W -> Prop :=
  | run_nil x : lib_run x [] x
  | run_snoc x tr y e z : lib_run x tr y -> lib_step y e z -> lib_run x (tr ++ [e]) z.

Definition ids (g : ws_lib) : list Z := map c_id (ws_handle_list g).

(** Addresses of their own, and a timer only on a connection that is open. *)
Definition lib_inv (g : ws_lib) : Prop :=
  NoDup (ids g) /\ (forall i, i ∈ ids g -> i < next_id g)
  /\ (forall t, timer g = Some t -> thread_init_done g = true /\ t ∈ ids g)
  /\ (init_done g = false -> ws_handle_list g = []).

Lemma ids_update c l : c_id c ∈ map c_id l -> map c_id (ws_update c l) = map c_id l.
Proof.
  induction l as [|p l IH]; cbn; [done|]. destruct (Z.eqb_spec (c_id p) (c_id c)) as [->|Hne]; [done|].
  intros [E|Hin]%elem_of_cons; [congruence|]. cbn. by rewrite IH.
Qed.

Lemma in_ids c (l : list ws_conn) : c ∈ l -> c_id c ∈ map c_id l.
Proof. intros Hc. apply list_elem_of_fmap. by exists c. Qed.

Lemma update_inv c g : lib_inv g -> c_id c ∈ ids g -> lib_inv (set_list (ws_update c (ws_handle_list g)) g).
Proof.
  intros (H1 & H2 & H3 & H4) Hc. unfold lib_inv, ids in *. cbn. rewrite (ids_update _ _ Hc).
  split_and!; try done. intros E. rewrite (H4 E) in Hc |- *. by apply elem_of_nil in Hc.
Qed.

Lemma ids_remove i l : map c_id (ws_list_handle_remove i l) `sublist_of` map c_id l.
Proof. induction l as [|p l IH]; cbn; [done|]. destruct (c_id p =? i); by constructor. Qed.

Lemma still_there i t l : t <> i -> t ∈ map c_id l -> t ∈ map c_id (ws_list_handle_remove i l).
Proof.
  intros Hne. induction l as [|p l IH]; cbn; [done|]. intros [E|Hin]%elem_of_cons.
  - subst t. destruct (Z.eqb_spec (c_id p) i); [done|]. cbn. apply list_elem_of_here.
  - destruct (c_id p =? i); [done|]. cbn. apply list_elem_of_further. by apply IH.
Qed.

Lemma close_inv c g (w : W) : lib_inv g -> lib_inv (ws_close_intrnal c g w).1.
Proof.
  intros (H1 & H2 & H3 & H4). unfold ws_close_intrnal. cbn. pose proof (ids_remove (c_id c) (ws_handle_list g)) as Hs.
  unfold lib_inv, ids in *. cbn. split; [by eapply sublist_NoDup|]. split; [|split].
  - intros i Hi. apply H2. by eapply elem_of_sublist.
  - intros t. destruct (timer g) as [t0|]; [|done]. destruct (Z.eqb_spec t0 (c_id c)); [done|]. intros [= ->].
    destruct (H3 t eq_refl) as [Hd Ht]. split; [done|]. by apply still_there.
  - intros E. by rewrite (H4 E).
Qed.

Lemma found_in fd l c : ws_fd_to_handle fd l = Some c -> c ∈ l.
Proof.
  induction l as [|p l IH]; cbn; [done|]. destruct (fd =? sock_fd (c_ws p)); [intros [= ->]; apply list_elem_of_here|].
  intros E. by apply list_elem_of_further, IH.
Qed.

(** The calls that report an error. *)
Definition is_error (k : ws_call) : bool := match k_event k with WEBSOCK_CB_EVENT_ERROR => true | WEBSOCK_CB_EVENT_DATA => false end.
Definition errors (ks : list ws_call) : list ws_call := List.filter is_error ks.

(** The connection keeps its address and its handler, and it is to be closed
    exactly when its handler was told of an error, once. *)
Lemma drain_told fuel' : forall c b len (w : W) ks c' cl w', drain rounds fuel' c b len w = Some (ks, c', cl, w') ->
  c_id c' = c_id c /\ c_cb c' = c_cb c /\ if cl : bool then exists k, errors ks = [k] /\ c_cb c = Some (k_cb k) else errors ks = [].
Proof.
  induction fuel' as [|n IH]; intros c b len w ks c' cl w'; [done|]. cbn [drain].
  destruct (ws_recv_internal _ _ _ _ _ _) as [[[r h] w1]|]; [|done]. cbn [mbind option_bind].
  set (c1 := set_conn c h (r_buf r)). assert (Hc1 : c_id c1 = c_id c /\ c_cb c1 = c_cb c) by done. destruct Hc1 as [Hi Hb].
  destruct (r_rval r <? 0).
  - unfold call. rewrite Hb. destruct (c_cb c) as [cb|]; [|done]. intros [= <- <- <- <-]. split; [done|]. split; [done|]. by eexists.
  - destruct (if 0 <=? opcode (r_hdr r) then _ else _) as [k|] eqn:Ek; [|done]. cbn [mbind option_bind].
    assert (Hk : errors k = []).
    { destruct (0 <=? opcode (r_hdr r)); [|by injection Ek as <-]. unfold call in Ek. destruct (c_cb c1); [|done]. by injection Ek as <-. }
    destruct (0 <? r_rval r); [|by intros [= <- <- <- <-]].
    destruct (drain rounds n _ _ _ _) as [[[[ks2 c2] cl2] w2]|] eqn:E; [|done]. intros [= <- <- <- <-].
    apply IH in E as (H1 & H2 & H3). rewrite H1, H2. split; [done|]. split; [done|]. unfold errors in *. rewrite List.filter_app, Hk, <- Hb. done.
Qed.

(** A property of the library that its two updates keep is kept by the thread. *)
Lemma poll_loop_keeps (P : ws_lib -> Prop) :
  (forall c g, P g -> c_id c ∈ ids g -> P (set_list (ws_update c (ws_handle_list g)) g)) ->
  (forall c g w, P g -> P (ws_close_intrnal c g w).1) ->
  forall fds g w ks g' w', P g -> poll_loop rounds fuel fds g w = Some (ks, g', w') -> P g'.
Proof.
  intros Hu Hc. induction fds as [|[fd [pin perr]] fds IH]; intros g w ks g' w' Hg; cbn [poll_loop]; [by intros [= <- <- <-]|].
  destruct pin; [|by apply IH]. destruct (ws_fd_to_handle fd (ws_handle_list g)) as [c|] eqn:Ec; [|done]. cbn [mbind option_bind].
  destruct (match c_recv_buf c with Some b => _ | None => _ end) as [[b|] w1]; [|by apply IH].
  destruct (drain rounds fuel c b _ w1) as [[[[ks1 c1] cl] w2]|] eqn:Ed; [|done]. cbn [mbind option_bind].
  assert (H1 : P (set_list (ws_update c1 (ws_handle_list g)) g)).
  { apply Hu; [done|]. rewrite (proj1 (drain_told _ _ _ _ _ _ _ _ _ Ed)). by eapply in_ids, found_in. }
  set (g1 := set_list _ g) in *. pose proof (Hc c1 g1 w2 H1) as H2.
  destruct (if cl : bool then ws_close_intrnal c1 g1 w2 else (g1, w2)) as [g3 w3] eqn:E3.
  assert (H3 : P g3) by (destruct cl; [by rewrite E3 in H2|by injection E3 as <- <-]).
  destruct (poll_loop rounds fuel fds g3 w3) as [[[ks4 g4] w4]|] eqn:E4; [|done]. intros [= <- <- <-]. by eapply IH.
Qed.

Lemma round_keeps (P : ws_lib -> Prop) :
  (forall c g, P g -> c_id c ∈ ids g -> P (set_list (ws_update c (ws_handle_list g)) g)) ->
  (forall c g w, P g -> P (ws_close_intrnal c g w).1) ->
  forall g w ks g' w', P g -> ws_event_round rounds fuel g w = Some (ks, g', w') -> P g'.
Proof.
  intros Hu Hc g w ks g' w' Hg. unfold ws_event_round. destruct (ws_poll_fds_set _) as [fds|]; [|done]. cbn [mbind option_bind].
  destruct (poll fds w) as [[ret revs] w1]. destruct (ret =? 0); [by intros [= <- <- <-]|]. by apply poll_loop_keeps.
Qed.

Lemma init_inv g : lib_inv g -> lib_inv (ws_init g) /\ init_done (ws_init g) = true.
Proof.
  intros Hi. unfold ws_init. destruct (init_done g) eqn:E; [done|]. destruct Hi as (H1 & H2 & H3 & H4).
  split; [|done]. unfold lib_inv, ids in *. rewrite (H4 E) in *. cbn in *. split_and!; try done.
Qed.

Lemma open_result cfg evs g w c g' w' :
  websock_open s1 s2 cfg evs g w = Some (c, g', w') ->
  c = None /\ g' = ws_init g
  \/ exists c', c = Some c' /\ c_id c' = next_id (ws_init g) /\ c_cb c' = None /\
       g' = mkLib (c' :: ws_handle_list (ws_init g)) (init_done (ws_init g))
              (thread_init_done (ws_init g)) (timer (ws_init g)) (msgs (ws_init g)) (next_id (ws_init g) + 1).
Proof.
  unfold websock_open. destruct (alloc_ok s1 w) as [[] w1]; cbn [negb]; [|intros [= <- <- _]; by left].
  destruct (http_client_open _ _ _) as [[hh|] w2]; [|intros [= <- <- _]; by left].
  destruct (set_req_hdrs _ _ _) as [rq w3]. destruct (http_client_send_recv _ _ _ _) as [[[rval cbs] w4]|]; [|done].
  cbn [mbind option_bind]. destruct (_ || _); intros [= <- <- _]; [by left|right]. by exists (new_conn (next_id (ws_init g)) hh (cfg_secured cfg)).
Qed.

Lemma open_inv cfg evs g w c g' w' : lib_inv g -> websock_open s1 s2 cfg evs g w = Some (c, g', w') -> lib_inv g'.
Proof.
  intros Hg E. destruct (init_inv g Hg) as [(H1 & H2 & H3 & H4) Hd].
  destruct (open_result _ _ _ _ _ _ _ E) as [[_ ->]|(c' & _ & Hc & _ & ->)]; [done|]. unfold lib_inv, ids in *. cbn. rewrite Hc.
  split_and!.
  - constructor; [|done]. intros Hin. apply H2 in Hin. lia.
  - intros i [->|Hi]%elem_of_cons; [lia|]. apply H2 in Hi. lia.
  - intros t Ht. destruct (H3 t Ht). split; [done|]. by apply list_elem_of_further.
  - by rewrite Hd.
Qed.

Lemma step_inv x e y : lib_inv x.1 -> lib_step x e y -> lib_inv y.1.
Proof.
  intros Hi Hs. destruct Hs as [g w cfg evs c g' w' E|g w c Hc|g w c cb Hc|g w c buf len op r h w' Hc E|g w c buf len timeout r h w' Hc E
    |g w t Ht|g w n calls g' w' Ht Hm E]; cbn [fst] in *.
  - by eapply open_inv.
  - by apply close_inv.
  - unfold websock_set_event_handler, ws_event_thread_int. apply in_ids in Hc as Hid. set (c' := mkConn _ _ _ _ (Some cb)).
    pose proof (update_inv c' g Hi Hid) as Hu. destruct (thread_init_done (set_list _ g)); [done|].
    destruct Hu as (H1 & H2 & _ & H4). unfold lib_inv. split_and!; try done. cbn. intros t [= <-]. split; [done|].
    change (c_id c' ∈ map c_id (ws_update c' (ws_handle_list g))). by rewrite (ids_update c' _ Hid).
  - apply update_inv; [done|]. exact (in_ids _ _ Hc).
  - apply update_inv; [done|]. exact (in_ids _ _ Hc).
  - done.
  - apply (round_keeps lib_inv) in E; [done|apply update_inv|apply close_inv|done].
Qed.

(** ** The library as a registry *)

(** What is open, and the handler of each connection. *)
Abbreviation registry := (gmap Z (option (Z * Z))).

Definition reg (l : list ws_conn) : registry := list_to_map ((fun c => (c_id c, c_cb c)) <$> l).

(** A round of the thread closes the connections [gone], each of them because
    its handler was told of an error, and no other. *)
Definition told (m : registry) (ks : list ws_call) (m' : registry) : Prop :=
  exists gone, NoDup gone /\ Forall2 (fun i k => m !! i = Some (Some (k_cb k))) gone (errors ks)
    /\ forall i, m' !! i = if bool_decide (i ∈ gone) then None else m !! i.

Definition reg_step (m : registry) (e : lib_event) (m' : registry) : Prop :=
  match e with
  | EvOpen None => m' = m
  | EvOpen (Some i) => m !! i = None /\ m' = <[i := None]> m
  | EvClose i => is_Some (m !! i) /\ m' = delete i m
  | EvHandler i cb => is_Some (m !! i) /\ m' = <[i := Some cb]> m
  | EvUse i => is_Some (m !! i) /\ m' = m
  | EvFire => m' = m
  | EvRound ks => told m ks m'
  end.

Inductive reg_run : registry -> list lib_event -> registry -> Prop :=
  | reg_nil m : reg_run m [] m
  | reg_snoc m tr m1 e m2 : reg_run m tr m1 -> reg_step m1 e m2 -> reg_run m (tr ++ [e]) m2.

Lemma reg_cons c l : reg (c :: l) = <[c_id c := c_cb c]> (reg l).
Proof. done. Qed.

Lemma reg_none i l : i ∉ map c_id l -> reg l !! i = None.
Proof.
  induction l as [|p l IH]; cbn; [done|]. rewrite not_elem_of_cons. intros [H1 H2]. rewrite lookup_insert_ne by done. by apply IH.
Qed.

Lemma reg_lookup c l : NoDup (map c_id l) -> c ∈ l -> reg l !! c_id c = Some (c_cb c).
Proof.
  induction l as [|p l IH]; cbn; [by intros _ Hc%elem_of_nil|]. intros [Hp Hl]%NoDup_cons. intros [<-|Hc]%elem_of_cons; [by rewrite lookup_insert_eq|].
  rewrite lookup_insert_ne; [by apply IH|]. intros E. apply Hp. rewrite E. by apply in_ids.
Qed.

Lemma reg_update c l : c_id c ∈ map c_id l -> reg (ws_update c l) = <[c_id c := c_cb c]> (reg l).
Proof.
  induction l as [|p l IH]; cbn [ws_update map]; [by intros Hc%elem_of_nil|]. destruct (Z.eqb_spec (c_id p) (c_id c)) as [E|Hne].
  - intros _. by rewrite !reg_cons, E, insert_insert_eq.
  - intros [E|Hin]%elem_of_cons; [congruence|]. rewrite !reg_cons, (IH Hin). by apply insert_insert_ne.
Qed.

(** An update that keeps the handler. *)
Lemma reg_same c c' l : NoDup (map c_id l) -> c ∈ l -> c_id c' = c_id c -> c_cb c' = c_cb c -> reg (ws_update c' l) = reg l.
Proof.
  intros Hn Hc Hi Hb. rewrite reg_update by (rewrite Hi; by apply in_ids). rewrite Hi, Hb. apply insert_id. by apply reg_lookup.
Qed.

Lemma reg_remove i l : NoDup (map c_id l) -> reg (ws_list_handle_remove i l) = delete i (reg l).
Proof.
  induction l as [|p l IH]; cbn [ws_list_handle_remove map]; [intros _; symmetry; apply (delete_empty (M := gmap Z))|]. intros [Hp Hl]%NoDup_cons. destruct (Z.eqb_spec (c_id p) i) as [<-|Hne].
  - rewrite reg_cons, delete_insert_id; [done|]. by apply reg_none.
  - rewrite !reg_cons, (IH Hl). symmetry. by apply delete_insert_ne.
Qed.

Lemma told_nothing m ks : errors ks = [] -> told m ks m.
Proof. intros E. exists []. rewrite E. split; [constructor|]. split; [constructor|]. intros i. by rewrite bool_decide_eq_false_2 by apply not_elem_of_nil. Qed.

Lemma told_one m ks i k : errors ks = [k] -> m !! i = Some (Some (k_cb k)) -> told m ks (delete i m).
Proof.
  intros E Hi. exists [i]. rewrite E. split; [apply NoDup_singleton|]. split; [by repeat constructor|]. intros j. case_bool_decide as Hj.
  - apply list_elem_of_singleton in Hj as ->. apply lookup_delete_eq.
  - apply lookup_delete_ne. intros <-. apply Hj, list_elem_of_here.
Qed.

Lemma told_app m ks m1 ks' m2 : told m ks m1 -> told m1 ks' m2 -> told m (ks ++ ks') m2.
Proof.
  intros (g1 & N1 & F1 & H1) (g2 & N2 & F2 & H2).
  assert (Hold : Forall2 (fun i k => m !! i = Some (Some (k_cb k)) /\ i ∉ g1) g2 (errors ks')).
  { eapply Forall2_impl; [exact F2|]. intros i k E. cbv beta in E. rewrite H1 in E. by case_bool_decide. }
  exists (g1 ++ g2). split; [|split].
  - apply NoDup_app. split_and!; [done| |done]. intros i Hi Hi2. apply Forall2_Forall_l with (Q := fun i => i ∉ g1) in Hold.
    + rewrite Forall_forall in Hold. by apply (Hold i Hi2).
    + apply Forall_forall. intros k _ j Hj. apply Hj.
  - unfold errors. rewrite List.filter_app. apply Forall2_app; [done|]. eapply Forall2_impl; [exact Hold|]. by intros i k [].
  - intros i. rewrite H2, H1. repeat case_bool_decide; try done; set_solver.
Qed.

Lemma poll_loop_told fds : forall g w ks g' w', lib_inv g -> poll_loop rounds fuel fds g w = Some (ks, g', w') ->
  told (reg (ws_handle_list g)) ks (reg (ws_handle_list g')).
Proof.
  induction fds as [|[fd [pin perr]] fds IH]; intros g w ks g' w' Hg; cbn [poll_loop]; [intros [= <- <- <-]; by apply told_nothing|].
  destruct pin; [|by apply IH]. destruct (ws_fd_to_handle fd (ws_handle_list g)) as [c|] eqn:Ec; [|done]. cbn [mbind option_bind].
  apply found_in in Ec as Hc. destruct (match c_recv_buf c with Some b => _ | None => _ end) as [[b|] w1]; [|by apply IH].
  destruct (drain rounds fuel c b _ w1) as [[[[ks1 c1] cl] w2]|] eqn:Ed; [|done]. cbn [mbind option_bind].
  destruct (drain_told _ _ _ _ _ _ _ _ _ Ed) as (Hi & Hb & Hk). pose proof Hg as (Hn & _).
  pose proof (update_inv c1 g Hg ltac:(rewrite Hi; by apply in_ids)) as Hu.
  pose proof (reg_same c c1 (ws_handle_list g) Hn Hc Hi Hb) as Hsame.
  set (g1 := set_list (ws_update c1 (ws_handle_list g)) g) in *. change (ws_update c1 (ws_handle_list g)) with (ws_handle_list g1) in Hsame.
  destruct (if cl : bool then ws_close_intrnal c1 g1 w2 else (g1, w2)) as [g3 w3] eqn:E3.
  assert (H3 : lib_inv g3 /\ told (reg (ws_handle_list g)) ks1 (reg (ws_handle_list g3))).
  { destruct cl.
    - change g3 with (g3, w3).1. rewrite <- E3. split; [by apply close_inv|]. destruct Hk as (k & Hk & Hcb).
      unfold ws_close_intrnal, callout_stop, set_list. cbn [fst ws_handle_list]. rewrite reg_remove by apply Hu. rewrite Hsame, Hi.
      apply (told_one _ _ _ k Hk). rewrite (reg_lookup c) by done. by rewrite Hcb.
    - injection E3 as <- <-. split; [done|]. rewrite Hsame. by apply told_nothing. }
  destruct (poll_loop rounds fuel fds g3 w3) as [[[ks4 g4] w4]|] eqn:E4; [|done]. intros [= <- <- <-].
  eapply told_app; [apply H3|]. eapply IH; [apply H3|exact E4].
Qed.

Lemma round_told g w ks g' w' : lib_inv g -> ws_event_round rounds fuel g w = Some (ks, g', w') ->
  told (reg (ws_handle_list g)) ks (reg (ws_handle_list g')).
Proof.
  intros Hg. unfold ws_event_round. destruct (ws_poll_fds_set _) as [fds|]; [|done]. cbn [mbind option_bind].
  destruct (poll fds w) as [[ret revs] w1]. destruct (ret =? 0); [intros [= <- <- <-]; by apply told_nothing|]. by apply poll_loop_told.
Qed.

Lemma step_reg x e y : lib_inv x.1 -> lib_step x e y -> reg_step (reg (ws_handle_list x.1)) e (reg (ws_handle_list y.1)).
Proof.
  intros Hi Hs. pose proof Hi as (Hn & Hlt & _ & Hd). unfold ids in *.
  assert (Hhas : forall c, c ∈ ws_handle_list x.1 -> is_Some (reg (ws_handle_list x.1) !! c_id c)) by (intros c Hc; rewrite (reg_lookup c) by done; done).
  destruct Hs as [g w cfg evs c g' w' E|g w c Hc|g w c cb Hc|g w c buf len op r h w' Hc E|g w c buf len timeout r h w' Hc E
    |g w t Ht|g w n calls g' w' Ht Hm E]; cbn [fst reg_step] in *.
  - assert (Hl : ws_handle_list (ws_init g) = ws_handle_list g /\ next_id (ws_init g) = next_id g).
    { unfold ws_init. destruct (init_done g) eqn:Ed; [done|]. by rewrite (Hd eq_refl). }
    destruct Hl as [Hl Hx]. destruct (open_result _ _ _ _ _ _ _ E) as [[-> ->]|(c' & -> & Hid & Hcb & ->)]; cbn [fmap option_fmap option_map]; [by rewrite Hl|].
    cbn [ws_handle_list]. rewrite Hl. split; [|cbn; by rewrite Hcb]. apply reg_none. rewrite Hid, Hx. intros Hin. apply Hlt in Hin. lia.
  - split; [by apply Hhas|]. unfold websock_close, ws_close_intrnal, callout_stop, set_list. cbn [fst ws_handle_list]. by apply reg_remove.
  - split; [by apply Hhas|]. unfold websock_set_event_handler, ws_event_thread_int.
    destruct (thread_init_done _); cbn [ws_handle_list set_list]; rewrite reg_update; try done; by apply (in_ids c).
  - split; [by apply Hhas|]. cbn [ws_handle_list set_list]. by apply (reg_same c).
  - split; [by apply Hhas|]. cbn [ws_handle_list set_list]. by apply (reg_same c).
  - done.
  - exact (round_told (set_msgs n g) _ _ _ _ Hi E).
Qed.

Lemma lib_run_refines x tr y : lib_run x tr y -> lib_inv x.1 -> lib_inv y.1 /\ reg_run (reg (ws_handle_list x.1)) tr (reg (ws_handle_list y.1)).
Proof.
  intros Hr Hx. induction Hr as [x|x tr y e z _ IH Hs]; [by split; [|constructor]|]. destruct (IH Hx) as [Hy Hm].
  split; [by eapply step_inv|]. econstructor; [exact Hm|]. by apply step_reg.
Qed.

End Steps.

(** C29: the connections are a registry.  Whatever the application, the timer
    and the thread do, in any order, from the start of the program on, the list
    of connections holds exactly what a finite map from addresses to handlers
    holds that follows what is seen of the run: a connection that [websock_open]
    returns enters it under an address that is not in it, one that the
    application closes leaves it, a handler that is set is the one it has, and a
    round of the thread removes exactly the connections whose handlers it told
    of an error, each told once.  No address is twice in the list, the timer that
    runs is the timer of a connection of the list and the thread exists then, so
    a timer of a connection that was closed never fires.  Calls use a connection
    of the list, and a round in which the code is undefined is no step. *)
Theorem lib_invariant {W} `{!WsSystem W} `{!WsEnv W} s1 s2 rounds fuel (w : W) tr g w' :
  lib_run s1 s2 rounds fuel (no_lib, w) tr (g, w') -> lib_inv g /\ reg_run ∅ tr (reg (ws_handle_list g)).
Proof.
  intros Hr. apply (lib_run_refines _ _ _ _ _ _ _ Hr). split_and!; try done; [constructor|]. intros i Hi. by apply elem_of_nil in Hi.
Qed.

Definition start_net : stack := mkNet (mkPipe [] []) [] [].

Definition sample_open : ws_lib * stack :=
  match websock_open 200 300 sample_cfg [RData (first_piece (str "101") (str "Switching Protocols") [str "Upgrade: websocket"] [])]
          no_lib start_net with
  | Some (_, g, w) => (g, w)
  | None => (no_lib, start_net)
  end.

Definition first_conn (g : ws_lib) : ws_conn := default (sample_conn false) (ws_handle_list g !! 0%nat).

Definition sample_handled : ws_lib := websock_set_event_handler (first_conn sample_open.1) (1, 2) sample_open.1.
Definition sample_fired : ws_lib := ws_poll_timeout_cb sample_handled.

(** A connection is opened, given a handler, the timer fires, and it is closed. *)
Lemma lib_invariant_witness :
  let '(g, w) := websock_close (first_conn sample_fired) sample_fired sample_open.2 in
  timer g = None /\ msgs g = 1%nat /\ reg (ws_handle_list g) = ∅
  /\ lib_inv g /\ reg_run ∅ [EvOpen (Some 0); EvHandler 0 (1, 2); EvFire; EvClose 0] (reg (ws_handle_list g)).
Proof.
  destruct (websock_close (first_conn sample_fired) sample_fired sample_open.2) as [g w] eqn:E.
  assert (Eg : g = (websock_close (first_conn sample_fired) sample_fired sample_open.2).1) by (by rewrite E).
  split; [rewrite Eg; by vm_compute|]. split; [rewrite Eg; by vm_compute|]. split; [rewrite Eg; by vm_compute|].
  apply (lib_invariant 200 300 200 10 start_net _ _ w). rewrite <- E.
  apply (run_snoc _ _ _ _ _ [EvOpen (Some 0); EvHandler 0 (1, 2); EvFire] (sample_fired, sample_open.2)).
  - apply (run_snoc _ _ _ _ _ [EvOpen (Some 0); EvHandler 0 (1, 2)] (sample_handled, sample_open.2)).
    + apply (run_snoc _ _ _ _ _ [EvOpen (Some 0)] (sample_open.1, sample_open.2)).
      * apply (run_snoc _ _ _ _ _ [] (no_lib, start_net)); [apply run_nil|].
        apply (step_open _ _ _ _ _ _ sample_cfg [RData (first_piece (str "101") (str "Switching Protocols") [str "Upgrade: websocket"] [])]
             (Some (first_conn sample_open.1))). vm_compute. reflexivity.
      * apply (step_handler _ _ _ _ sample_open.1 _ (first_conn sample_open.1)). change (ws_handle_list sample_open.1) with [first_conn sample_open.1]. apply list_elem_of_here.
    + apply (step_fire _ _ _ _ _ _ 0). by vm_compute.
  - apply (step_close _ _ _ _ sample_fired _ (first_conn sample_fired)). change (ws_handle_list sample_fired) with [first_conn sample_fired]. apply list_elem_of_here.
Defined.

(** Once the connection whose timer runs is closed, no timer runs again and the
    thread gets no more messages than it had, for all the other connections. *)
Definition silent (n : nat) (g : ws_lib) : Prop := thread_init_done g = true /\ timer g = None /\ (msgs g <= n)%nat.

Lemma polling_ends {W} `{!WsSystem W} `{!WsEnv W} s1 s2 rounds fuel n (x y : ws_lib * W) tr :
  silent n x.1 -> lib_run s1 s2 rounds fuel x tr y -> silent n y.1.
Proof.
  intros Hx Hr. induction Hr as [|x tr y e z _ IH Hs]; [done|]. destruct (IH Hx) as (Hd & Ht & Hm). clear IH Hx.
  destruct Hs as [g w cfg evs c g' w' E|g w c Hc|g w c cb Hc|g w c buf len op r h w' Hc E|g w c buf len timeout r h w' Hc E
    |g w t Ht'|g w m calls g' w' Ht' Hm' E]; cbn [fst] in *.
  - assert (Hi : silent n (ws_init g)) by (unfold ws_init; by destruct (init_done g)).
    destruct (open_result _ _ _ _ _ _ _ _ _ E) as [[_ ->]|(c' & _ & _ & _ & ->)]; exact Hi.
  - unfold silent. cbn. by rewrite Ht.
  - unfold silent, websock_set_event_handler, ws_event_thread_int. cbn. rewrite Hd. done.
  - done.
  - done.
  - congruence.
  - apply (round_keeps rounds fuel (silent n)) in E; [done|done| |].
    + intros c g0 w0 (H1 & H2 & H3). unfold silent. cbn. by rewrite H2.
    + split_and!; try done. cbn. lia.
Qed.

(** ** Rounds that go wrong *)

(** After a frame without a payload the length the loop asks for is 0, so a
    frame that follows in the same round is not read to its end. *)
Example empty_frame_stalls :
  let w := mkNet (mkPipe (traffic [([], mkFrame true WS_OPCODE_TEXT []); ([], mkFrame true WS_OPCODE_TEXT [97; 98])] []) []) [3] [] in
  (fun r => (map seen r.1.1, p_in (n_pipe r.2))) <$> ws_event_round 200 10 (sample_lib false) w
  = Some ([((1, 2), WEBSOCK_CB_EVENT_DATA, mkHdr 1 WS_OPCODE_TEXT 0, [])], [97; 98]).
Proof. vm_compute. reflexivity. Qed.

(** The thread polls every connection, and calls the handler of one that has
    none. *)
Example no_handler_called :
  let c := mkConn 7 7 (c_ws (sample_conn false)) None None in
  ws_event_round 200 10 (mkLib [c] true true (Some 9) 0 8) sample_net = None.
Proof. vm_compute. reflexivity. Qed.
