(* ===== verification/SslWrap.v ===== *)
(** * The TLS wrapper (components/ssl_wrap/src/ssl_wrap.c)

    Connections secured with mbedTLS: the list of handles, the check of the
    server's certificate against a bundle of root certificates, the opening and
    the closing of a connection, and reading with a time-out.  mbedTLS, the
    sockets below it and memory are the classes [Crypto] and [Mbedtls].  [None]
    is undefined behaviour (a read outside of the bundle or the certificate, a
    null handle) or a loop that used up its rounds; the endless loop after a
    failed [fcntl] is [None] too. *)

From S2P Require Import Prelude FileSys FsUtils BasicJson CString.

Definition MBEDTLS_ERR_SSL_WANT_READ : Z := -0x6900.
Definition MBEDTLS_ERR_SSL_WANT_WRITE : Z := -0x6880.
Definition MBEDTLS_SSL_MAX_FRAG_LEN_512 : Z := 1.
Definition MBEDTLS_SSL_MAX_FRAG_LEN_4096 : Z := 4.
Definition MBEDTLS_ERR_X509_FATAL_ERROR : Z := -0x3000.
Definition MBEDTLS_X509_BADCERT_NOT_TRUSTED : Z := 0x08.
Definition MBEDTLS_X509_BADCERT_BAD_MD : Z := 0x4000.

Definition BUNDLE_HEADER_OFFSET : Z := 2.
Definition CRT_HEADER_OFFSET : Z := 4.
Definition SSL_WRAP_MAX_CERTS_IN_BUNDLE : Z := 512.
Definition SSL_WRAP_DEFAULT_PDATA : bytes := str "InnoT2".

(** ** Certificates *)

(** What the callback looks at.  [issuer_raw] is the memory from the name of the
    issuer to the end of the certificate. *)
Record mbedtls_x509_crt := mkCrt {
  issuer_raw : bytes;
  sig_pk : Z; sig_opts : Z; sig_md : Z;
  tbs : bytes;
  sig : bytes;
}.

(** Public keys and message digests of mbedTLS. *)
Class Crypto := {
  pk_context : Type;
  md_info : Type;
  mbedtls_pk_parse_public_key : bytes -> Z * pk_context;
  mbedtls_pk_can_do : pk_context -> Z -> bool;
  mbedtls_md_info_from_type : Z -> option md_info;
  mbedtls_md : option md_info -> bytes -> Z * bytes;
  mbedtls_md_get_size : option md_info -> Z;
  mbedtls_pk_verify_ext : Z -> Z -> pk_context -> Z -> bytes -> Z -> bytes -> Z;
}.

Section Verify.
Context `{Crypto}.

Definition ssl_wrap_verify_certificate (srvr_cert : mbedtls_x509_crt) (pub_key : bytes) : Z :=
  let '(ret, pk) := mbedtls_pk_parse_public_key pub_key in
  if negb (ret =? 0) then ret
  else if negb (mbedtls_pk_can_do pk (sig_pk srvr_cert)) then -1
  else
    let md := mbedtls_md_info_from_type (sig_md srvr_cert) in
    let '(ret, hash) := mbedtls_md md (tbs srvr_cert) in
    if negb (ret =? 0) then ret
    else mbedtls_pk_verify_ext (sig_pk srvr_cert) (sig_opts srvr_cert) pk (sig_md srvr_cert) hash (mbedtls_md_get_size md) (sig srvr_cert).

(** [p[0] << 8 | p[1]]; [char] is unsigned. *)
Definition be16 (p : bytes) : option Z :=
  match p with b0 :: b1 :: _ => Some (Z.lor (Z.shiftl b0 8) b1) | _ => None end.

(** [memcmp(a, b, n) == 0] *)
Definition memeq (a b : bytes) (n : Z) : option bool :=
  if (n <=? zlen a) && (n <=? zlen b) then Some (bool_decide (take (Z.to_nat n) a = take (Z.to_nat n) b)) else None.

(** The loop over the bundle: the key of the first certificate with the name. *)
Fixpoint find_root (num_certs : nat) (issuer ca_bundle : bytes) : option (option bytes) :=
  match num_certs with
  | O => Some None
  | S n =>
      name_len ← be16 ca_bundle;
      key_len ← be16 (drop 2 ca_bundle);
      let name := drop (Z.to_nat CRT_HEADER_OFFSET) ca_bundle in
      let key := drop (Z.to_nat (CRT_HEADER_OFFSET + name_len)) ca_bundle in
      crt_found ← memeq issuer name name_len;
      if (crt_found : bool) then if key_len <=? zlen key then Some (Some (take (Z.to_nat key_len) key)) else None
      else find_root n issuer (drop (Z.to_nat (CRT_HEADER_OFFSET + name_len + key_len)) ca_bundle)
  end.

(** The result and [*flags]. *)
Definition ssl_wrap_crt_verify_callback (ssl_wrap_ca_bundle : option bytes) (srvr_crt : mbedtls_x509_crt) (flags : Z) : option (Z * Z) :=
  let flags_filtered := Z.land flags (u32 (Z.lnot MBEDTLS_X509_BADCERT_BAD_MD)) in
  if negb (flags_filtered =? MBEDTLS_X509_BADCERT_NOT_TRUSTED) then Some (0, flags)
  else
    match ssl_wrap_ca_bundle with
    | None => Some (MBEDTLS_ERR_X509_FATAL_ERROR, flags)
    | Some ca_bundle =>
        num_certs ← be16 ca_bundle;
        if SSL_WRAP_MAX_CERTS_IN_BUNDLE <=? num_certs then Some (MBEDTLS_ERR_X509_FATAL_ERROR, flags)
        else
          found ← find_root (Z.to_nat num_certs) (issuer_raw srvr_crt) (drop (Z.to_nat BUNDLE_HEADER_OFFSET) ca_bundle);
          match found with
          | Some key => if ssl_wrap_verify_certificate srvr_crt key =? 0 then Some (0, 0) else Some (MBEDTLS_ERR_X509_FATAL_ERROR, flags)
          | None => Some (MBEDTLS_ERR_X509_FATAL_ERROR, flags)
          end
    end.

End Verify.

(** ** Handles *)

Record ssl_wrap_cert_t := mkCert { buf : bytes; len : Z }.

Record ssl_wrap_cfg_t := mkSslCfg {
  ca_cert : ssl_wrap_cert_t;
  client_cert : ssl_wrap_cert_t;
  client_key : ssl_wrap_cert_t;
  auth_mode : Z;
  max_frag_len : Z;
  p_data : option bytes;
}.

Definition contents (c : ssl_wrap_cert_t) : bytes := take (Z.to_nat (len c)) (buf c).

(** The trust anchors: an empty certificate, or what was parsed. *)
Inductive ca_chain_t := DummyCrt | CaCert (cert : option bytes).

(** [mbedtls_ssl_config], as far as it is set. *)
Record ssl_config := mkConf {
  authmode : Z;
  ca_chain : ca_chain_t;
  f_vrfy : option (mbedtls_x509_crt -> Z -> option (Z * Z));
  own_cert : option (bytes * bytes);
  frag_len : option Z;
}.

(** [h_id] stands for the address. *)
Record ssl_wrap_handle := mkSsl { h_id : Z; net_fd : Z; conf : ssl_config }.

(** The variables of the file, the handles that are allocated, and the number of
    the next one. *)
Record ssl_lib := mkSslLib {
  handles : list ssl_wrap_handle;
  ssl_wrap_ca_bundle : option bytes;
  allocated : list Z;
  next_handle : Z;
}.

Definition with_handles (l : list ssl_wrap_handle) (g : ssl_lib) : ssl_lib :=
  mkSslLib l (ssl_wrap_ca_bundle g) (allocated g) (next_handle g).

Definition ssl_wrap_list_handle_add (h : ssl_wrap_handle) (g : ssl_lib) : ssl_lib := with_handles (h :: handles g) g.

Fixpoint list_remove (h : Z) (l : list ssl_wrap_handle) : list ssl_wrap_handle :=
  match l with [] => [] | p :: l' => if h_id p =? h then l' else p :: list_remove h l' end.

Definition ssl_wrap_list_handle_remove (h : Z) (g : ssl_lib) : ssl_lib := with_handles (list_remove h (handles g)) g.

Fixpoint fd_search (sock_fd : Z) (l : list ssl_wrap_handle) : option ssl_wrap_handle :=
  match l with [] => None | p :: l' => if sock_fd =? net_fd p then Some p else fd_search sock_fd l' end.

Definition ssl_wrap_fd_to_handle (sock_fd : Z) (g : ssl_lib) : option ssl_wrap_handle := fd_search sock_fd (handles g).

Definition ssl_wrap_sock_fd_get (h : option ssl_wrap_handle) : option Z := net_fd <$> h.

Definition ssl_wrap_crt_bundle_init (ca_bundle : option bytes) (g : ssl_lib) : ssl_lib :=
  mkSslLib (handles g) ca_bundle (allocated g) (next_handle g).

Definition ssl_wrap_crt_bundle_deinit (g : ssl_lib) : ssl_lib := ssl_wrap_crt_bundle_init None g.

(** ** mbedTLS and sockets *)

Definition O_NONBLOCK : Z := 1.

(** The results of the calls, and what they store. *)
Class Mbedtls (W : Type) := {
  tls_alloc : W -> bool * W;
  mbedtls_ctr_drbg_seed : bytes -> W -> Z * W;
  mbedtls_x509_crt_parse : bytes -> W -> Z * W;
  mbedtls_pk_parse_key : bytes -> W -> Z * W;
  mbedtls_net_connect : bytes -> bytes -> W -> Z * Z * W;      (* with the descriptor *)
  mbedtls_ssl_config_defaults : W -> Z * W;
  mbedtls_ssl_conf_own_cert : bytes -> bytes -> W -> Z * W;
  mbedtls_ssl_setup : W -> Z * W;
  mbedtls_ssl_set_hostname : bytes -> W -> Z * W;
  mbedtls_ssl_handshake : ssl_config -> Z -> W -> Z * W;
  mbedtls_ssl_read : Z -> Z -> W -> Z * bytes * W;
  mbedtls_ssl_write : Z -> bytes -> W -> Z * W;
  mbedtls_ssl_close_notify : Z -> W -> W;
  mbedtls_net_free : Z -> W -> W;
  tls_select : Z -> Z * Z -> W -> Z * W;                       (* descriptor, seconds and microseconds *)
  fcntl_getfl : Z -> W -> (Z + Z) * W;                         (* the flags, or [errno] *)
  fcntl_setfl : Z -> Z -> W -> (Z + Z) * W;
}.

Definition EINTR : Z := 4.

Section Tls.
Context {W : Type} `{Mbedtls W} `{Crypto}.

(** [while ((r = f()) == -1 && errno == EINTR);] *)
Fixpoint retry (rounds : nat) (f : W -> (Z + Z) * W) (w : W) : option (Z * W) :=
  match rounds with
  | O => None
  | S rounds => match f w with
                | (inl v, w) => Some (v, w)
                | (inr e, w) => if e =? EINTR then retry rounds f w else None
                end
  end.

Definition ssl_wrap_set_sock_nonblocking (rounds : nat) (fd : Z) (w : W) : option W :=
  '(flags, w) ← retry rounds (fcntl_getfl fd) w;
  '(_, w) ← retry rounds (fcntl_setfl fd (Z.lor flags O_NONBLOCK)) w;
  Some w.

Definition ssl_wrap_set_sock_blocking (rounds : nat) (fd : Z) (w : W) : option W :=
  '(flags, w) ← retry rounds (fcntl_getfl fd) w;
  '(_, w) ← retry rounds (fcntl_setfl fd (Z.land flags (Z.lnot O_NONBLOCK))) w;
  Some w.

Definition ssl_wrap_read (h : option ssl_wrap_handle) (len : Z) (w : W) : option (Z * bytes * W) :=
  h ← h; Some (mbedtls_ssl_read (net_fd h) len w).

Definition ssl_wrap_write (h : option ssl_wrap_handle) (buf : bytes) (w : W) : option (Z * W) :=
  h ← h; Some (mbedtls_ssl_write (net_fd h) buf w).

(** [timeout] keeps its value from round to round. *)
Fixpoint read_rounds (rounds : nat) (fd len timeout_ms : Z) (w : W) : option (Z * bytes * W) :=
  match rounds with
  | O => None
  | S rounds =>
      let '(ret, bs, w) := mbedtls_ssl_read fd len w in
      if negb (ret =? MBEDTLS_ERR_SSL_WANT_READ) && negb (ret =? MBEDTLS_ERR_SSL_WANT_WRITE) then Some (ret, bs, w)
      else
        let timeout := if negb (timeout_ms =? 0) then (Z.quot timeout_ms 1000 + 1, 0) else (0, 0) in
        let '(ret, w) := tls_select fd timeout w in
        if ret <=? 0 then Some (-1, [], w) else read_rounds rounds fd len timeout_ms w
  end.

Definition ssl_wrap_read_timeout (rounds : nat) (h : option ssl_wrap_handle) (len timeout_ms : Z) (w : W)
  : option (Z * bytes * W) :=
  h ← h;
  w ← ssl_wrap_set_sock_nonblocking rounds (net_fd h) w;
  '(rcvd_bytes, bs, w) ← read_rounds rounds (net_fd h) len timeout_ms w;
  w ← ssl_wrap_set_sock_blocking rounds (net_fd h) w;
  Some (rcvd_bytes, bs, w).

(** ** Closing *)

Definition ssl_wrap_resource_free (id fd : Z) (g : ssl_lib) (w : W) : ssl_lib * W :=
  (mkSslLib (handles g) (ssl_wrap_ca_bundle g) (List.filter (fun x => negb (x =? id)) (allocated g)) (next_handle g), mbedtls_net_free fd w).

Definition ssl_wrap_disconnect (h : option ssl_wrap_handle) (g : ssl_lib) (w : W) : ssl_lib * W :=
  match h with
  | None => (g, w)
  | Some h =>
      let g := ssl_wrap_list_handle_remove (h_id h) g in
      let w := mbedtls_ssl_close_notify (net_fd h) w in
      ssl_wrap_resource_free (h_id h) (net_fd h) g w
  end.

(** ** Opening *)

(** The calls of [ssl_wrap_connect] after the allocation: the descriptor of the
    handle runs along, and the inner [None] is [goto exit]. *)
Definition E (A : Type) : Type := Z -> W -> option (option A * Z * W).

Definition e_ret {A} (a : A) : E A := fun fd w => Some (Some a, fd, w).
Definition e_bind {A B} (m : E A) (k : A -> E B) : E B := fun fd w =>
  match m fd w with
  | Some (Some a, fd, w) => k a fd w
  | Some (None, fd, w) => Some (None, fd, w)
  | None => None
  end.
Definition e_exit {A} : E A := fun fd w => Some (None, fd, w).
Definition e_call (f : W -> Z * W) : E Z := fun fd w => let '(ret, w) := f w in Some (Some ret, fd, w).
Definition e_zero (f : W -> Z * W) : E unit := e_bind (e_call f) (fun ret => if ret =? 0 then e_ret tt else e_exit).

End Tls.

Notation "'let!' x := m 'in' k" := (e_bind m (fun x => k))
  (at level 10, x pattern, m at level 200, k at level 200).
Notation "'do!' m 'in' k" := (e_bind m (fun _ => k)) (at level 10, m at level 200, k at level 200).

Section Connect.
Context {W : Type} `{Mbedtls W} `{Crypto}.

Definition parse_crt (c : ssl_wrap_cert_t) : E unit :=
  let! ret := e_call (mbedtls_x509_crt_parse (contents c)) in
  if ret <? 0 then e_exit else e_ret tt.

Definition load_certificates (cfg : ssl_wrap_cfg_t) : E unit :=
  do! (if negb (len (ca_cert cfg) =? 0) then parse_crt (ca_cert cfg) else e_ret tt) in
  if negb (len (client_cert cfg) =? 0) then
    if len (client_key cfg) =? 0 then e_exit
    else
      do! parse_crt (client_cert cfg) in
      e_zero (mbedtls_pk_parse_key (contents (client_key cfg)))
  else e_ret tt.

Definition net_connect (host port_str : bytes) : E unit := fun fd w =>
  let '(ret, fd, w) := mbedtls_net_connect host port_str w in
  Some (if ret =? 0 then Some tt else None, fd, w).

Definition handle_conf (ca_bundle : option bytes) (cfg : ssl_wrap_cfg_t) : ssl_config :=
  mkConf (auth_mode cfg)
    (match ca_bundle with
     | Some _ => DummyCrt
     | None => CaCert (if len (ca_cert cfg) =? 0 then None else Some (contents (ca_cert cfg)))
     end)
    (match ca_bundle with Some _ => Some (ssl_wrap_crt_verify_callback ca_bundle) | None => None end)
    (if negb (len (client_cert cfg) =? 0) then Some (contents (client_cert cfg), contents (client_key cfg)) else None)
    (if negb (max_frag_len cfg =? 0) then Some MBEDTLS_SSL_MAX_FRAG_LEN_4096 else None).

Fixpoint handshake (rounds : nat) (c : ssl_config) : E unit := fun fd w =>
  match rounds with
  | O => None
  | S rounds =>
      let '(ret, w) := mbedtls_ssl_handshake c fd w in
      if ret =? 0 then Some (Some tt, fd, w)
      else if negb (ret =? MBEDTLS_ERR_SSL_WANT_READ) && negb (ret =? MBEDTLS_ERR_SSL_WANT_WRITE) then Some (None, fd, w)
      else handshake rounds c fd w
  end.

Definition connect_body (rounds : nat) (host : bytes) (port : Z) (ca_bundle : option bytes) (cfg : ssl_wrap_cfg_t) (pdata : bytes) : E ssl_config :=
  do! e_zero (mbedtls_ctr_drbg_seed pdata) in
  do! load_certificates cfg in
  do! net_connect host (str (pretty port)) in
  do! e_zero mbedtls_ssl_config_defaults in
  let c := handle_conf ca_bundle cfg in
  do! (match own_cert c with Some (crt, key) => e_zero (mbedtls_ssl_conf_own_cert crt key) | None => e_ret tt end) in
  do! e_zero mbedtls_ssl_setup in
  do! e_zero (mbedtls_ssl_set_hostname host) in
  do! handshake rounds c in
  e_ret c.

Definition default_p_data (cfg : ssl_wrap_cfg_t) : ssl_wrap_cfg_t :=
  mkSslCfg (ca_cert cfg) (client_cert cfg) (client_key cfg) (auth_mode cfg) (max_frag_len cfg)
    (Some (default SSL_WRAP_DEFAULT_PDATA (p_data cfg))).

(** The handle, the configuration, which gets the default of [p_data], and the
    new state.  The result of the verification is only printed. *)
Definition ssl_wrap_connect (rounds : nat) (host_name : bytes) (port : Z) (cfg : ssl_wrap_cfg_t) (g : ssl_lib) (w : W)
  : option (option ssl_wrap_handle * ssl_wrap_cfg_t * ssl_lib * W) :=
  if negb (max_frag_len cfg =? 0)
     && negb ((MBEDTLS_SSL_MAX_FRAG_LEN_512 <=? max_frag_len cfg) && (max_frag_len cfg <=? MBEDTLS_SSL_MAX_FRAG_LEN_4096))
  then Some (None, cfg, g, w)
  else
    let '(ok, w) := tls_alloc w in
    if negb ok then Some (None, cfg, g, w)
    else
      let id := next_handle g in
      let g := mkSslLib (handles g) (ssl_wrap_ca_bundle g) (id :: allocated g) (id + 1) in
      let cfg := default_p_data cfg in
      '(r, fd, w) ← connect_body rounds host_name port (ssl_wrap_ca_bundle g) cfg (default [] (p_data cfg)) (-1) w;
      match r with
      | Some c =>
          let h := mkSsl id fd c in
          Some (Some h, cfg, ssl_wrap_list_handle_add h g, w)
      | None => let '(g, w) := ssl_wrap_resource_free id fd g w in Some (None, cfg, g, w)
      end.

End Connect.

(** ** The bundle *)

Definition u16_bytes (n : Z) : bytes := [n / 256; n mod 256].

Definition root_bytes (r : bytes * bytes) : bytes := u16_bytes (zlen r.1) ++ u16_bytes (zlen r.2) ++ r.1 ++ r.2.

Definition bundle_bytes (roots : list (bytes * bytes)) : bytes := u16_bytes (zlen roots) ++ concat (map root_bytes roots).

Definition root_ok (r : bytes * bytes) : Prop := zlen r.1 < 65536 /\ zlen r.2 < 65536.

(** What the callback compares: the memory from the issuer's name on begins with
    the name of the root. *)
Definition name_begins (c : mbedtls_x509_crt) (r : bytes * bytes) : bool := starts_with r.1 (issuer_raw c).

Lemma be16_u16_bytes n l : 0 <= n < 65536 -> be16 (u16_bytes n ++ l) = Some n.
Proof.
  intros Hn. cbn. f_equal. rewrite lor_shiftl by (Z.div_mod_to_equations; lia). change (2 ^ 8) with 256. Z.div_mod_to_equations. lia.
Qed.

Lemma memeq_prefix a b rest : zlen b <= zlen a -> memeq a (b ++ rest) (zlen b) = Some (starts_with b a).
Proof.
  intros Hl. unfold memeq. rewrite (proj2 (Z.leb_le _ _) Hl), zlen_app, (proj2 (Z.leb_le _ _)) by (pose proof (zlen_nonneg rest); lia).
  cbn [andb]. f_equal. unfold zlen. rewrite (Nat2Z.id (length b)), take_app_length.
  destruct (starts_with b a) eqn:E.
  - apply starts_with_prefix in E as [k ->]. by rewrite take_app_length, bool_decide_eq_true_2.
  - apply bool_decide_eq_false_2. intros Ht. assert (starts_with b a = true); [|congruence].
    apply starts_with_prefix. exists (drop (length b) a). rewrite <- Ht at 1. by rewrite take_drop.
Qed.

Lemma find_root_bundle c roots rest :
  Forall root_ok roots -> Forall (fun r => zlen r.1 <= zlen (issuer_raw c)) roots ->
  find_root (length roots) (issuer_raw c) (concat (map root_bytes roots) ++ rest) = Some (snd <$> List.find (name_begins c) roots).
Proof.
  induction roots as [|[name key] roots IH]; intros Hok Hlen; [done|].
  inversion Hok as [|? ? [Hn Hk] Hok']; subst. inversion Hlen as [|? ? Hl Hlen']; subst. cbn [fst snd] in *.
  pose proof (zlen_nonneg name). pose proof (zlen_nonneg key).
  cbn [map concat length find_root List.find]. set (more := concat (map root_bytes roots) ++ rest) in *.
  assert (Eb : (root_bytes (name, key) ++ concat (map root_bytes roots)) ++ rest
    = u16_bytes (zlen name) ++ u16_bytes (zlen key) ++ name ++ key ++ more) by (unfold root_bytes, more; cbn [fst snd]; by rewrite <- !app_assoc).
  rewrite Eb. rewrite be16_u16_bytes by lia. cbn [mbind option_bind].
  change (drop 2 _) with (u16_bytes (zlen key) ++ name ++ key ++ more). rewrite be16_u16_bytes by lia. cbn [mbind option_bind].
  assert (Hd : forall n l, 0 <= n -> drop (Z.to_nat (CRT_HEADER_OFFSET + n)) (u16_bytes (zlen name) ++ u16_bytes (zlen key) ++ l) = drop (Z.to_nat n) l).
  { intros n l Hn0. unfold CRT_HEADER_OFFSET. replace (Z.to_nat (4 + n)) with (4 + Z.to_nat n)%nat by lia. done. }
  rewrite Hd by lia. rewrite <- Z.add_assoc, Hd by lia.
  change (drop (Z.to_nat CRT_HEADER_OFFSET) _) with (name ++ key ++ more). rewrite memeq_prefix by done. cbn [mbind option_bind].
  replace (drop (Z.to_nat (zlen name)) (name ++ key ++ more)) with (key ++ more) by (unfold zlen; by rewrite Nat2Z.id, drop_app_length).
  unfold name_begins at 1. cbn [fst]. destruct (starts_with name (issuer_raw c)).
  - rewrite (proj2 (Z.leb_le _ _)) by (rewrite zlen_app; pose proof (zlen_nonneg more); lia). unfold zlen. by rewrite Nat2Z.id, take_app_length.
  - replace (drop (Z.to_nat (zlen name + zlen key)) (name ++ key ++ more)) with more; [by apply IH|].
    replace (Z.to_nat (zlen name + zlen key)) with (length name + length key)%nat by (unfold zlen; lia).
    by rewrite <- drop_drop, !drop_app_length.
Qed.

(** The callback on a bundle, as a function of the list of roots. *)
Lemma callback_bundle `{Crypto} c flags roots rest :
  zlen roots < SSL_WRAP_MAX_CERTS_IN_BUNDLE -> Forall root_ok roots -> Forall (fun r => zlen r.1 <= zlen (issuer_raw c)) roots ->
  ssl_wrap_crt_verify_callback (Some (bundle_bytes roots ++ rest)) c flags =
    Some (if negb (Z.land flags (u32 (Z.lnot MBEDTLS_X509_BADCERT_BAD_MD)) =? MBEDTLS_X509_BADCERT_NOT_TRUSTED) then (0, flags)
          else match List.find (name_begins c) roots with
               | Some (_, key) => if ssl_wrap_verify_certificate c key =? 0 then (0, 0) else (MBEDTLS_ERR_X509_FATAL_ERROR, flags)
               | None => (MBEDTLS_ERR_X509_FATAL_ERROR, flags)
               end).
Proof.
  intros Hn Hok Hlen. pose proof (zlen_nonneg roots). unfold SSL_WRAP_MAX_CERTS_IN_BUNDLE in *.
  unfold ssl_wrap_crt_verify_callback. destruct (negb (_ =? MBEDTLS_X509_BADCERT_NOT_TRUSTED)); [done|].
  unfold bundle_bytes. rewrite <- app_assoc, be16_u16_bytes by lia. cbn [mbind option_bind].
  unfold SSL_WRAP_MAX_CERTS_IN_BUNDLE. rewrite (proj2 (Z.leb_gt _ _)) by lia.
  change (drop _ _) with (concat (map root_bytes roots) ++ rest). unfold zlen at 1. rewrite Nat2Z.id, find_root_bundle by done.
  cbn [mbind option_bind]. destruct (List.find (name_begins c) roots) as [[n k]|]; cbn; [|done]. by destruct (_ =? 0).
Qed.

(** The flags the callback looks further at. *)
Lemma filtered_flags flags : 0 <= flags < 2 ^ 32 ->
  Z.land flags (u32 (Z.lnot MBEDTLS_X509_BADCERT_BAD_MD)) = MBEDTLS_X509_BADCERT_NOT_TRUSTED
  <-> flags = MBEDTLS_X509_BADCERT_NOT_TRUSTED \/ flags = MBEDTLS_X509_BADCERT_NOT_TRUSTED + MBEDTLS_X509_BADCERT_BAD_MD.
Proof.
  intros Hf. split; [|by intros [->| ->]]. intros E.
  assert (Hs : flags = Z.land flags 0xffffbfff + Z.land flags 0x4000).
  { pose proof (Z.add_lor_land (Z.land flags 0xffffbfff) (Z.land flags 0x4000)) as Hl.
    rewrite <- Z.land_lor_distr_r in Hl. change (Z.lor 0xffffbfff 0x4000) with (Z.ones 32) in Hl.
    rewrite Z.land_ones, Z.mod_small in Hl by lia.
    replace (Z.land (Z.land flags 0xffffbfff) (Z.land flags 0x4000)) with 0 in Hl; [lia|].
    rewrite Z.land_assoc, (Z.land_comm (Z.land flags _) flags), Z.land_assoc, Z.land_diag, <- Z.land_assoc. by rewrite Z.land_0_r. }
  change (u32 _) with 0xffffbfff in E. rewrite E in Hs. rewrite Hs. change 0x4000 with (2 ^ 14).
  assert (Hb : Z.land flags (2 ^ 14) = 0 \/ Z.land flags (2 ^ 14) = 2 ^ 14).
  { destruct (Z.testbit flags 14) eqn:Eb; [right|left]; apply Z.bits_inj'; intros i Hi;
      rewrite Z.land_spec, Z.pow2_bits_eqb by lia; destruct (Z.eqb_spec 14 i) as [<-|]; rewrite ?Eb, ?Z.bits_0, ?andb_false_r; done. }
  destruct Hb as [-> | ->]; [by left|by right].
Qed.

(** The check against the bundle.  For a bundle of fewer than 512 roots,
    written as counted names and keys, the callback leaves the flags alone unless
    the only thing wrong is that the issuer is not trusted (a weak hash does not
    count); otherwise it looks up the first root whose name the issuer begins
    with, clears the flags when the certificate is signed with the key of that
    root, and reports a fatal error when it is not or there is no such root. *)
Theorem bundle_verified `{Crypto} c flags roots rest :
  zlen roots < SSL_WRAP_MAX_CERTS_IN_BUNDLE -> Forall root_ok roots -> Forall (fun r => zlen r.1 <= zlen (issuer_raw c)) roots ->
  0 <= flags < 2 ^ 32 ->
  ssl_wrap_crt_verify_callback (Some (bundle_bytes roots ++ rest)) c flags =
    Some (if bool_decide (flags = MBEDTLS_X509_BADCERT_NOT_TRUSTED
                          \/ flags = MBEDTLS_X509_BADCERT_NOT_TRUSTED + MBEDTLS_X509_BADCERT_BAD_MD) then
            match List.find (name_begins c) roots with
            | Some (_, key) => if ssl_wrap_verify_certificate c key =? 0 then (0, 0) else (MBEDTLS_ERR_X509_FATAL_ERROR, flags)
            | None => (MBEDTLS_ERR_X509_FATAL_ERROR, flags)
            end
          else (0, flags)).
Proof.
  intros Hn Hok Hlen Hf. rewrite callback_bundle by done. f_equal. pose proof (filtered_flags flags Hf) as E.
  case_bool_decide as Hb.
  - by rewrite (proj2 (Z.eqb_eq _ _) (proj2 E Hb)).
  - rewrite (proj2 (Z.eqb_neq _ _)); [done|]. tauto.
Qed.

(** A toy signature scheme: a key is one byte, a digest the first byte, and a
    signature both. *)
Definition toy_crypto : Crypto := {|
  pk_context := bytes; md_info := unit;
  mbedtls_pk_parse_public_key k := (0, k);
  mbedtls_pk_can_do _ _ := true;
  mbedtls_md_info_from_type t := if t =? 6 then Some tt else None;
  mbedtls_md i d := match i with Some _ => (0, take 1 d) | None => (-0x5100, []) end;
  mbedtls_md_get_size _ := 1;
  mbedtls_pk_verify_ext _ _ k _ h _ s := if bool_decide (s = k ++ h) then 0 else -0x4380;
|}.

Definition toy_roots : list (bytes * bytes) := [([48; 0], [9]); ([48; 1; 5], [7])].
Definition toy_crt : mbedtls_x509_crt := mkCrt [48; 1; 5; 0; 0] 1 0 6 [20; 21] [7; 20].

Lemma bundle_verified_witness :
  @ssl_wrap_crt_verify_callback toy_crypto (Some (bundle_bytes toy_roots ++ [0])) toy_crt MBEDTLS_X509_BADCERT_NOT_TRUSTED = Some (0, 0).
Proof.
  rewrite (@bundle_verified toy_crypto toy_crt MBEDTLS_X509_BADCERT_NOT_TRUSTED toy_roots [0]).
  - vm_compute. reflexivity.
  - by vm_compute.
  - by repeat constructor.
  - by repeat constructor.
  - by vm_compute.
Defined.

(** ** What a connection went through *)

Section Opening.
Context {W : Type} `{Mbedtls W} `{Crypto}.
Implicit Types (g : ssl_lib) (w : W).

Lemma e_bind_some {A B} (m : E A) (k : A -> E B) fd w b fd' w' :
  e_bind m k fd w = Some (Some b, fd', w') -> exists a fd1 w1, m fd w = Some (Some a, fd1, w1) /\ k a fd1 w1 = Some (Some b, fd', w').
Proof. unfold e_bind. destruct (m fd w) as [[[[a|] fd1] w1]|]; try done. intros E. by exists a, fd1, w1. Qed.

Lemma handshake_done rounds c fd w fd' w' :
  handshake rounds c fd w = Some (Some tt, fd', w') -> fd' = fd /\ exists w0, mbedtls_ssl_handshake c fd w0 = (0, w').
Proof.
  revert w. induction rounds as [|rounds IH]; intros w; cbn [handshake]; [done|].
  destruct (mbedtls_ssl_handshake c fd w) as [ret w1] eqn:E. destruct (Z.eqb_spec ret 0) as [->|].
  - intros [= <- <-]. split; [done|]. by exists w.
  - destruct (_ && _); [done|]. apply IH.
Qed.

Lemma connect_body_done rounds host port bundle cfg pdata fd w c fd' w' :
  connect_body rounds host port bundle cfg pdata fd w = Some (Some c, fd', w') ->
  c = handle_conf bundle cfg /\ exists w0, mbedtls_ssl_handshake c fd' w0 = (0, w').
Proof.
  unfold connect_body. intros E.
  do 7 (apply e_bind_some in E as (_ & ? & ? & _ & E)). apply e_bind_some in E as ([] & fd1 & w1 & E1 & E2).
  injection E2 as <- <- <-. split; [done|]. by apply handshake_done in E1 as [-> ?].
Qed.

(** What [ssl_wrap_connect] leaves behind. *)
Lemma connect_cases rounds host port cfg g w r cfg' g' w' :
  ssl_wrap_connect rounds host port cfg g w = Some (r, cfg', g', w') ->
  ssl_wrap_ca_bundle g' = ssl_wrap_ca_bundle g /\
  match r with
  | None => handles g' = handles g
            /\ (next_handle g' = next_handle g /\ allocated g' = allocated g
                \/ next_handle g' = next_handle g + 1
                   /\ allocated g' = List.filter (fun x => negb (x =? next_handle g)) (next_handle g :: allocated g))
  | Some h => h_id h = next_handle g /\ conf h = handle_conf (ssl_wrap_ca_bundle g) cfg /\ handles g' = h :: handles g
              /\ next_handle g' = next_handle g + 1 /\ allocated g' = next_handle g :: allocated g
              /\ exists w0, mbedtls_ssl_handshake (conf h) (net_fd h) w0 = (0, w')
  end.
Proof.
  unfold ssl_wrap_connect. destruct (negb _ && negb _).
  { intros [= <- <- <- <-]. split; [done|]. split; [done|]. by left. }
  destruct (tls_alloc w) as [[] w1]; cbn [negb].
  2:{ intros [= <- <- <- <-]. split; [done|]. split; [done|]. by left. }
  cbn [ssl_wrap_ca_bundle]. destruct (connect_body _ _ _ _ _ _ _ _) as [[[[c|] fd] w2]|] eqn:E; cbn [mbind option_bind]; [| |done].
  - apply connect_body_done in E as (-> & Hh). intros [= <- <- <- <-]. by split_and!.
  - intros [= <- <- <- <-]. split; [done|]. split; [done|]. by right.
Qed.

End Opening.

(** ** The invariant of the handles *)

Definition ssl_inv (g : ssl_lib) : Prop :=
  allocated g = map h_id (handles g) /\ NoDup (allocated g) /\ Forall (fun i => i < next_handle g) (allocated g).

(** The calls of the interface, one after the other. *)
Inductive ssl_step {W} `{Mbedtls W} `{Crypto} : ssl_lib * W -> ssl_lib * W -> Prop :=
  | step_connect rounds host port cfg g w r cfg' g' w' :
      ssl_wrap_connect rounds host port cfg g w = Some (r, cfg', g', w') -> ssl_step (g, w) (g', w')
  | step_disconnect h g w : h ∈ handles g -> ssl_step (g, w) (ssl_wrap_disconnect (Some h) g w)
  | step_disconnect_null g w : ssl_step (g, w) (ssl_wrap_disconnect None g w)
  | step_bundle_init b g w : ssl_step (g, w) (ssl_wrap_crt_bundle_init (Some b) g, w)
  | step_bundle_deinit g w : ssl_step (g, w) (ssl_wrap_crt_bundle_deinit g, w)
  | step_network g w w' : ssl_step (g, w) (g, w').

Lemma filter_absent (i : Z) l : i ∉ l -> List.filter (fun x => negb (x =? i)) l = l.
Proof.
  induction l as [|x l IH]; [done|]. rewrite not_elem_of_cons. intros [Hx Hl]. cbn [List.filter].
  rewrite (proj2 (Z.eqb_neq x i)) by done. cbn [negb]. by rewrite IH.
Qed.

Lemma filter_removed i l : NoDup (map h_id l) ->
  List.filter (fun x => negb (x =? i)) (map h_id l) = map h_id (list_remove i l).
Proof.
  induction l as [|p l IH]; intros Hn; [done|]. inversion Hn as [|? ? Hp Hn']; subst. cbn [map List.filter list_remove].
  destruct (Z.eqb_spec (h_id p) i) as [<-|]; cbn [negb map].
  - by apply filter_absent.
  - by rewrite IH.
Qed.

Lemma removed_sublist i l : sublist (map h_id (list_remove i l)) (map h_id l).
Proof.
  induction l as [|p l IH]; cbn [list_remove map]; [done|].
  destruct (h_id p =? i); [by constructor|]. cbn [map]. by constructor.
Qed.

Lemma ssl_step_inv {W} `{!Mbedtls W} `{!Crypto} (s s' : ssl_lib * W) : ssl_step s s' -> ssl_inv s.1 -> ssl_inv s'.1.
Proof.
  assert (Hfresh : forall g : ssl_lib, ssl_inv g -> next_handle g ∉ allocated g).
  { intros g (_ & _ & Hlt) Hin. rewrite Forall_forall in Hlt. specialize (Hlt _ Hin). lia. }
  intros [rounds host port cfg g w r cfg' g' w' E|h g w Hh|g w|b g w|g w|g w w'] Hi; cbn [fst ssl_wrap_disconnect] in *; try exact Hi.
  - pose proof (Hfresh g Hi) as Hf. destruct Hi as (Ha & Hn & Hl). destruct (connect_cases _ _ _ _ _ _ _ _ _ _ E) as [_ Hc]. destruct r as [h|].
    + destruct Hc as (Hid & _ & Hh & Hnx & Hal & _). unfold ssl_inv. rewrite Hh, Hnx, Hal. split_and!.
      * cbn [map]. by rewrite Hid, Ha.
      * by constructor.
      * constructor; [lia|]. eapply Forall_impl; [exact Hl|]. cbn. lia.
    + destruct Hc as (Hh & [[Hnx Hal]|[Hnx Hal]]); unfold ssl_inv; rewrite Hh, Hnx, Hal; [by split_and!|].
      cbn [List.filter]. rewrite Z.eqb_refl. cbn [negb]. rewrite filter_absent by done. split_and!; try done.
      eapply Forall_impl; [exact Hl|]. cbn. lia.
  - destruct Hi as (Ha & Hn & Hl). unfold ssl_inv. cbn. rewrite Ha in Hn, Hl |- *. rewrite filter_removed by done. split; [done|].
    pose proof (removed_sublist (h_id h) (handles g)) as Hs. split; [by eapply sublist_NoDup|].
    rewrite Forall_forall in Hl |- *. intros i Hi. apply Hl. by eapply elem_of_sublist.
Qed.

Definition no_ssl : ssl_lib := mkSslLib [] None [] 0.

(** No handle is lost.  However the calls of the interface follow each
    other, and whatever mbedTLS returns, the handles that are allocated are those
    of the list, each of them once: a connection that fails to open has given
    its memory back, and a handle found by its descriptor is still allocated. *)
Theorem handles_kept {W} `{!Mbedtls W} `{!Crypto} (w : W) g w' :
  rtc ssl_step (no_ssl, w) (g, w') ->
  allocated g = map h_id (handles g) /\ NoDup (allocated g)
  /\ (forall fd h, ssl_wrap_fd_to_handle fd g = Some h -> h_id h ∈ allocated g /\ net_fd h = fd).
Proof.
  intros Hr. assert (Hi : ssl_inv g).
  { change g with (g, w').1. revert Hr. apply (rtc_ind_r (fun s => ssl_inv s.1)).
    - split_and!; [done|constructor|constructor].
    - intros s s' _ Hs. by apply ssl_step_inv. }
  destruct Hi as (Ha & Hn & _). split; [done|]. split; [done|]. intros fd h. rewrite Ha. unfold ssl_wrap_fd_to_handle. clear.
  induction (handles g) as [|p l IH]; cbn [fd_search map]; [done|]. destruct (Z.eqb_spec fd (net_fd p)) as [->|].
  - intros [= <-]. split; [|done]. apply list_elem_of_here.
  - intros E. apply IH in E as [E1 E2]. split; [|done]. by apply list_elem_of_further.
Qed.

(** ** Authentication *)

Definition SSL_WRAP_VERIFY_REQUIRED : Z := 2.

(** What the documentation of mbedTLS says of a handshake that requires a valid
    certificate: it succeeds only when no flag is left for the last certificate
    the server sent, after the callback if there is one, which must return 0;
    without trust anchors the flag for an unknown issuer is set before. *)
Class TlsVerifies (W : Type) `{Mbedtls W} := {
  peer_crt : Z -> W -> mbedtls_x509_crt;
  found_flags : ca_chain_t -> Z -> W -> Z;
  found_range : forall ch fd w, 0 <= found_flags ch fd w < 2 ^ 32;
  required_verified : forall c fd w w', authmode c = SSL_WRAP_VERIFY_REQUIRED -> mbedtls_ssl_handshake c fd w = (0, w') ->
    match f_vrfy c with
    | Some f => f (peer_crt fd w') (found_flags (ca_chain c) fd w') = Some (0, 0)
    | None => found_flags (ca_chain c) fd w' = 0
    end;
  dummy_untrusted : forall fd w, Z.testbit (found_flags DummyCrt fd w) 3 = true;
}.

(** The signature of the certificate is good for the key: the key is one, it fits
    the algorithm, the signed part has a digest, and [mbedtls_pk_verify_ext]
    accepts the signature of that digest. *)
Definition signed_with `{Crypto} (crt : mbedtls_x509_crt) (key : bytes) : Prop :=
  exists pk hash, let md := mbedtls_md_info_from_type (sig_md crt) in
    mbedtls_pk_parse_public_key key = (0, pk) /\ mbedtls_pk_can_do pk (sig_pk crt) = true
    /\ mbedtls_md md (tbs crt) = (0, hash)
    /\ mbedtls_pk_verify_ext (sig_pk crt) (sig_opts crt) pk (sig_md crt) hash (mbedtls_md_get_size md) (sig crt) = 0.

Lemma verify_signed `{Crypto} crt key : ssl_wrap_verify_certificate crt key = 0 <-> signed_with crt key.
Proof.
  unfold ssl_wrap_verify_certificate, signed_with. destruct (mbedtls_pk_parse_public_key key) as [ret pk].
  destruct (Z.eqb_spec ret 0) as [->|Hr]; cbn [negb]; [|split; [done|by intros (? & ? & [= <- _] & _)]].
  destruct (mbedtls_pk_can_do pk (sig_pk crt)) eqn:Ec; cbn [negb]; [|split; [done|intros (? & ? & [= <-] & Hc & _); congruence]].
  destruct (mbedtls_md _ (tbs crt)) as [ret hash]. destruct (Z.eqb_spec ret 0) as [->|Hr]; cbn [negb].
  - split; [by intros E; exists pk, hash|]. by intros (? & ? & [= <-] & _ & [= <-] & E).
  - split; [done|]. by intros (? & ? & _ & _ & [= <- _] & _).
Qed.

(** The size of the DER element at the start of the memory: an identifier of one
    byte, the length, in one byte or as a number of bytes that follow with the
    highest first, and the contents. *)
Definition der_size (l : bytes) : option Z :=
  match l with
  | _ :: n :: r =>
      if n <? 128 then Some (2 + n)
      else if zlen r <? n - 128 then None else Some (2 + (n - 128) + le_value (rev (take (Z.to_nat (n - 128)) r)))
  | _ => None
  end.

(** A name as a certificate has it is one whole element. *)
Definition der_element (l : bytes) : Prop := der_size l = Some (zlen l).

Lemma der_size_app l r n : der_size l = Some n -> der_size (l ++ r) = Some n.
Proof.
  destruct l as [|t [|k l]]; [done|done|]. cbn [der_size app]. destruct (k <? 128); [done|].
  destruct (Z.ltb_spec (zlen l) (k - 128)); [done|]. rewrite zlen_app, (proj2 (Z.ltb_ge _ _)) by (pose proof (zlen_nonneg r); lia).
  by rewrite take_app_le by (unfold zlen in *; lia).
Qed.

(** No element is a proper beginning of another. *)
Lemma der_prefix a b behind : der_element a -> der_element b -> a `prefix_of` b ++ behind -> a = b.
Proof.
  unfold der_element. intros Ha Hb [k E]. apply (der_size_app _ k) in Ha. apply (der_size_app _ behind) in Hb.
  rewrite <- E, Hb in Ha. injection Ha as Hz. unfold zlen in Hz. apply (f_equal (take (length b))) in E.
  rewrite take_app_length in E. rewrite take_app_length' in E by lia. done.
Qed.

(** C32: a connection opened with a bundle and with the certificate required is
    one to a server whose last certificate is signed with the key of a root of
    the bundle: the key parses, fits the signature algorithm, and
    [mbedtls_pk_verify_ext] accepts the signature of the digest of the
    certificate.  The certificate's memory from its issuer on begins with the name
    of that root, which is all that the code compares; when the issuer and the
    name are whole DER elements, as in a certificate, the name is the issuer.
    The only other thing that may be wrong with the certificate is a weak hash.
    Shown for a bundle that is written as counted names and keys of fewer than
    65536 bytes each, of fewer than 512 roots, with names no longer than the
    memory of the certificate from the issuer on, and for an mbedTLS whose
    handshake does what its documentation says of a required certificate
    ([TlsVerifies]). *)
Theorem connection_authenticated {W} `{!Mbedtls W} `{!Crypto} `{!TlsVerifies W} rounds host port cfg g (w : W) h cfg' g' w' roots rest :
  ssl_wrap_connect rounds host port cfg g w = Some (Some h, cfg', g', w') ->
  auth_mode cfg = SSL_WRAP_VERIFY_REQUIRED -> ssl_wrap_ca_bundle g = Some (bundle_bytes roots ++ rest) ->
  zlen roots < SSL_WRAP_MAX_CERTS_IN_BUNDLE -> Forall root_ok roots ->
  let crt := peer_crt (net_fd h) w' in
  Forall (fun r => zlen r.1 <= zlen (issuer_raw crt)) roots ->
  exists name key, (name, key) ∈ roots /\ name `prefix_of` issuer_raw crt /\ signed_with crt key
    /\ (forall issuer behind, issuer_raw crt = issuer ++ behind -> der_element issuer -> der_element name -> name = issuer)
    /\ Z.land (found_flags DummyCrt (net_fd h) w') (u32 (Z.lnot MBEDTLS_X509_BADCERT_BAD_MD)) = MBEDTLS_X509_BADCERT_NOT_TRUSTED.
Proof.
  intros E Hauth Hb Hn Hok crt Hlen. destruct (connect_cases _ _ _ _ _ _ _ _ _ _ E) as (_ & _ & Hconf & _ & _ & _ & w0 & Hh).
  pose proof (required_verified (conf h) (net_fd h) w0 w') as Hv. rewrite Hconf in Hh, Hv. rewrite Hb in Hh, Hv.
  specialize (Hv Hauth Hh). cbn [handle_conf f_vrfy ca_chain] in Hv. fold crt in Hv. rewrite callback_bundle in Hv by done.
  pose proof (dummy_untrusted (net_fd h) w') as Hd. set (flags := found_flags DummyCrt (net_fd h) w') in *.
  destruct (Z.eqb_spec (Z.land flags (u32 (Z.lnot MBEDTLS_X509_BADCERT_BAD_MD))) MBEDTLS_X509_BADCERT_NOT_TRUSTED) as [Hf|]; cbn [negb] in Hv.
  2:{ injection Hv as Hz. by rewrite Hz in Hd. }
  destruct (List.find (name_begins crt) roots) as [[name key]|] eqn:Ef; [|done].
  destruct (Z.eqb_spec (ssl_wrap_verify_certificate crt key) 0) as [Hs|]; [|done]. apply verify_signed in Hs.
  apply find_some in Ef as [Hin Hp]. apply starts_with_prefix in Hp. cbn [fst] in Hp. exists name, key. split; [by apply list_elem_of_In|].
  split; [done|]. split; [done|]. split; [|done]. intros issuer behind Ei Hi Hm. rewrite Ei in Hp. by apply (der_prefix name issuer behind).
Qed.

(** ** Reading with a time-out *)

(** A connection that works: the descriptor is [fd]; [bursts] more bursts of
    the socket complete the record that the next bytes are in. *)
Class TlsLink (W : Type) `{Mbedtls W} (fd : Z) := {
  tls_in : W -> bytes;
  tls_out : W -> bytes;
  bursts : W -> nat;
  sock_flags : W -> Z;
  tls_read_law : forall n w, 0 < n <= zlen (tls_in w) -> exists w',
    mbedtls_ssl_read fd n w = (if (bursts w =? 0)%nat then (n, take (Z.to_nat n) (tls_in w), w') else (MBEDTLS_ERR_SSL_WANT_READ, [], w'))
    /\ tls_in w' = (if (bursts w =? 0)%nat then drop (Z.to_nat n) (tls_in w) else tls_in w)
    /\ bursts w' = bursts w /\ tls_out w' = tls_out w /\ sock_flags w' = sock_flags w;
  tls_write_law : forall bs w, exists w',
    mbedtls_ssl_write fd bs w = (zlen bs, w')
    /\ tls_in w' = tls_in w /\ bursts w' = bursts w /\ tls_out w' = tls_out w ++ bs /\ sock_flags w' = sock_flags w;
  tls_select_law : forall t w, (0 < bursts w)%nat -> exists w',
    tls_select fd t w = (1, w')
    /\ tls_in w' = tls_in w /\ bursts w' = Nat.pred (bursts w) /\ tls_out w' = tls_out w /\ sock_flags w' = sock_flags w;
  tls_getfl : forall w, fcntl_getfl fd w = (inl (sock_flags w), w);
  tls_setfl : forall v w, exists w', fcntl_setfl fd v w = (inl 0, w')
    /\ sock_flags w' = v /\ tls_in w' = tls_in w /\ bursts w' = bursts w /\ tls_out w' = tls_out w;
}.

Section Reading.
Context {W : Type} `{!Mbedtls W} {fd : Z} `{!TlsLink W fd}.
Implicit Types (w : W).

Lemma set_nonblocking_law rounds w : (0 < rounds)%nat -> exists w',
  ssl_wrap_set_sock_nonblocking rounds fd w = Some w' /\ sock_flags w' = Z.lor (sock_flags w) O_NONBLOCK
  /\ tls_in w' = tls_in w /\ bursts w' = bursts w /\ tls_out w' = tls_out w.
Proof.
  intros Hr. destruct rounds as [|rounds]; [lia|]. unfold ssl_wrap_set_sock_nonblocking. cbn [retry]. rewrite tls_getfl. cbn [mbind option_bind].
  destruct (tls_setfl (Z.lor (sock_flags w) O_NONBLOCK) w) as (w' & -> & H). by exists w'.
Qed.

Lemma set_blocking_law rounds w : (0 < rounds)%nat -> exists w',
  ssl_wrap_set_sock_blocking rounds fd w = Some w' /\ sock_flags w' = Z.land (sock_flags w) (Z.lnot O_NONBLOCK)
  /\ tls_in w' = tls_in w /\ bursts w' = bursts w /\ tls_out w' = tls_out w.
Proof.
  intros Hr. destruct rounds as [|rounds]; [lia|]. unfold ssl_wrap_set_sock_blocking. cbn [retry]. rewrite tls_getfl. cbn [mbind option_bind].
  destruct (tls_setfl (Z.land (sock_flags w) (Z.lnot O_NONBLOCK)) w) as (w' & -> & H). by exists w'.
Qed.

Lemma read_rounds_law rounds n ms w : (bursts w < rounds)%nat -> 0 < n <= zlen (tls_in w) -> exists w',
  read_rounds rounds fd n ms w = Some (n, take (Z.to_nat n) (tls_in w), w')
  /\ tls_in w' = drop (Z.to_nat n) (tls_in w) /\ bursts w' = 0%nat /\ tls_out w' = tls_out w /\ sock_flags w' = sock_flags w.
Proof.
  revert w. induction rounds as [|rounds IH]; intros w Hr Hn; [lia|]. cbn [read_rounds].
  destruct (tls_read_law n w Hn) as (w1 & E & Hi & Hp & Ho & Hs). rewrite E. destruct (Nat.eqb_spec (bursts w) 0) as [H0|H0].
  - assert (Hw : (n =? MBEDTLS_ERR_SSL_WANT_READ) = false /\ (n =? MBEDTLS_ERR_SSL_WANT_WRITE) = false)
      by (unfold MBEDTLS_ERR_SSL_WANT_READ, MBEDTLS_ERR_SSL_WANT_WRITE; split; apply Z.eqb_neq; lia).
    destruct Hw as [-> ->]. cbn [negb andb]. exists w1. split_and!; try done. by rewrite Hp.
  - rewrite Z.eqb_refl. cbn [negb andb]. set (t := if negb (ms =? 0) then _ else _).
    destruct (tls_select_law t w1) as (w2 & E2 & Hi2 & Hp2 & Ho2 & Hs2); [lia|]. rewrite E2. cbn [Z.leb Z.compare].
    destruct (IH w2) as (w3 & E3 & Hi3 & Hp3 & Ho3 & Hs3); [lia|by rewrite Hi2, Hi|]. exists w3. split; [by rewrite E3, Hi2, Hi|].
    by rewrite Hi3, Ho3, Hs3, Hi2, Ho2, Hs2, Hi, Ho, Hs.
Qed.

Lemma read_timeout_law rounds h n ms w : net_fd h = fd -> (bursts w < rounds)%nat -> 0 < n <= zlen (tls_in w) -> exists w',
  ssl_wrap_read_timeout rounds (Some h) n ms w = Some (n, take (Z.to_nat n) (tls_in w), w')
  /\ tls_in w' = drop (Z.to_nat n) (tls_in w) /\ bursts w' = 0%nat /\ tls_out w' = tls_out w /\ Z.testbit (sock_flags w') 0 = false.
Proof.
  intros Hfd Hr Hn. unfold ssl_wrap_read_timeout. cbn [mbind option_bind]. rewrite Hfd.
  destruct (set_nonblocking_law rounds w) as (w1 & -> & _ & Hi1 & Hp1 & Ho1); [lia|]. cbn [mbind option_bind].
  destruct (read_rounds_law rounds n ms w1) as (w2 & -> & Hi2 & Hp2 & Ho2 & _); [lia|by rewrite Hi1|]. cbn [mbind option_bind].
  destruct (set_blocking_law rounds w2) as (w3 & -> & Hs3 & Hi3 & Hp3 & Ho3); [lia|]. cbn [mbind option_bind].
  exists w3. rewrite Hi3, Hp3, Ho3, Hi2, Ho2, Hi1, Ho1, Hs3. split_and!; try done. rewrite Z.land_spec. apply andb_false_r.
Qed.

End Reading.

(** ** A network that exists

    Two queues, the flags of the socket, and the descriptors that were freed.
    The server shows [toy_crt]; descriptor 5 is given to every connection. *)
Record tls_net := mkTls { t_in : bytes; t_out : bytes; t_pending : nat; t_flags : Z; t_freed : list Z }.

Definition with_flags (v : Z) (w : tls_net) : tls_net := mkTls (t_in w) (t_out w) (t_pending w) v (t_freed w).

(** The flags for [toy_crt]. *)
Definition toy_flags (ch : ca_chain_t) : Z := match ch with DummyCrt => MBEDTLS_X509_BADCERT_NOT_TRUSTED | CaCert _ => 0 end.

Definition toy_verified (c : ssl_config) : bool :=
  match f_vrfy c with
  | Some f => bool_decide (f toy_crt (toy_flags (ca_chain c)) = Some (0, 0))
  | None => toy_flags (ca_chain c) =? 0
  end.

#[global] Instance toy_mbedtls : Mbedtls tls_net := {
  tls_alloc w := (true, w);
  mbedtls_ctr_drbg_seed _ w := (0, w);
  mbedtls_x509_crt_parse _ w := (0, w);
  mbedtls_pk_parse_key _ w := (0, w);
  mbedtls_net_connect _ _ w := (0, 5, w);
  mbedtls_ssl_config_defaults w := (0, w);
  mbedtls_ssl_conf_own_cert _ _ w := (0, w);
  mbedtls_ssl_setup w := (0, w);
  mbedtls_ssl_set_hostname _ w := (0, w);
  mbedtls_ssl_handshake c _ w := (if (authmode c =? SSL_WRAP_VERIFY_REQUIRED) && negb (toy_verified c) then -0x2700 else 0, w);
  mbedtls_ssl_read _ n w :=
    if (t_pending w =? 0)%nat then
      let bs := take (Z.to_nat n) (t_in w) in (zlen bs, bs, mkTls (drop (Z.to_nat n) (t_in w)) (t_out w) 0 (t_flags w) (t_freed w))
    else (MBEDTLS_ERR_SSL_WANT_READ, [], w);
  mbedtls_ssl_write _ bs w := (zlen bs, mkTls (t_in w) (t_out w ++ bs) (t_pending w) (t_flags w) (t_freed w));
  mbedtls_ssl_close_notify _ w := w;
  mbedtls_net_free fd w := mkTls (t_in w) (t_out w) (t_pending w) (t_flags w) (fd :: t_freed w);
  tls_select _ _ w := (if (t_pending w =? 0)%nat then 0 else 1, mkTls (t_in w) (t_out w) (Nat.pred (t_pending w)) (t_flags w) (t_freed w));
  fcntl_getfl _ w := (inl (t_flags w), w);
  fcntl_setfl _ v w := (inl 0, with_flags v w);
}.

#[global, refine] Instance toy_verifies : TlsVerifies tls_net :=
  { peer_crt _ _ := toy_crt; found_flags ch _ _ := toy_flags ch }.
Proof.
  - by intros [|c] _ _.
  - intros c fd w w' Hauth. cbn. rewrite (proj2 (Z.eqb_eq _ _) Hauth). cbn [andb]. unfold toy_verified.
    destruct (f_vrfy c) as [f|].
    + case_bool_decide; [done|by cbn; intros [= E _]].
    + destruct (Z.eqb_spec (toy_flags (ca_chain c)) 0); [done|by cbn; intros [= E _]].
  - done.
Defined.

#[global, refine] Instance toy_link fd : TlsLink tls_net fd :=
  { tls_in := t_in; tls_out := t_out; bursts := t_pending; sock_flags := t_flags }.
Proof.
  - intros n w Hn. cbn. destruct (Nat.eqb_spec (t_pending w) 0) as [E|E].
    + eexists. rewrite zlen_take by lia. split; [done|]. by rewrite E.
    + eexists. split; [done|]. done.
  - intros bs w. cbn. eexists. split; [done|]. done.
  - intros t w Hp. cbn. rewrite (proj2 (Nat.eqb_neq _ _)) by lia. eexists. split; [done|]. done.
  - done.
  - intros v w. cbn. eexists. split; [done|]. done.
Defined.

Definition no_cert : ssl_wrap_cert_t := mkCert [] 0.
Definition toy_cfg : ssl_wrap_cfg_t := mkSslCfg no_cert no_cert no_cert SSL_WRAP_VERIFY_REQUIRED 0 None.
Definition toy_net : tls_net := mkTls [] [] 0 0 [].
Definition toy_lib : ssl_lib := mkSslLib [] (Some (bundle_bytes toy_roots)) [] 0.
Definition toy_handle : ssl_wrap_handle := mkSsl 0 5 (@handle_conf toy_crypto (Some (bundle_bytes toy_roots)) toy_cfg).

Lemma toy_connects :
  @ssl_wrap_connect tls_net _ toy_crypto 2 (str "host") 8883 toy_cfg toy_lib toy_net
  = Some (Some toy_handle, default_p_data toy_cfg, mkSslLib [toy_handle] (Some (bundle_bytes toy_roots)) [0] 1, toy_net).
Proof.
  assert (E : toy_verified (@handle_conf toy_crypto (Some (bundle_bytes toy_roots)) toy_cfg) = true) by (vm_compute; reflexivity).
  unfold ssl_wrap_connect, connect_body. cbn -[handle_conf toy_verified bundle_bytes].
  change (handle_conf _ _) with (@handle_conf toy_crypto (Some (bundle_bytes toy_roots)) toy_cfg). rewrite E. reflexivity.
Qed.

Lemma connection_authenticated_witness :
  exists name key, (name, key) ∈ toy_roots /\ name = [48; 1; 5] /\ @signed_with toy_crypto toy_crt key
    /\ Z.land (toy_flags DummyCrt) (u32 (Z.lnot MBEDTLS_X509_BADCERT_BAD_MD)) = MBEDTLS_X509_BADCERT_NOT_TRUSTED.
Proof.
  destruct (@connection_authenticated tls_net toy_mbedtls toy_crypto toy_verifies 2 (str "host") 8883 toy_cfg toy_lib toy_net toy_handle
           (default_p_data toy_cfg) (mkSslLib [toy_handle] (Some (bundle_bytes toy_roots)) [0] 1) toy_net toy_roots []) as (name & key & Hin & Hp & Hs & Hd & Hf).
  - exact toy_connects.
  - done.
  - done.
  - by vm_compute.
  - by repeat constructor.
  - by repeat constructor.
  - exists name, key. split; [exact Hin|]. split; [|by split]. apply (Hd [48; 1; 5] [0; 0]); [done|done|].
    apply elem_of_cons in Hin as [[= -> ->]|Hin]; [done|]. apply list_elem_of_singleton in Hin as [= -> ->]. done.
Defined.

Lemma handles_kept_witness :
  let g := mkSslLib [toy_handle] (Some (bundle_bytes toy_roots)) [0] 1 in
  allocated g = map h_id (handles g) /\ NoDup (allocated g)
  /\ (forall fd h, ssl_wrap_fd_to_handle fd g = Some h -> h_id h ∈ allocated g /\ net_fd h = fd).
Proof.
  apply (@handles_kept tls_net _ toy_crypto toy_net _ toy_net).
  eapply rtc_l; [apply (step_bundle_init (bundle_bytes toy_roots))|].
  eapply rtc_l; [|apply rtc_refl].
  apply (step_connect 2 (str "host") 8883 toy_cfg _ _ (Some toy_handle) (default_p_data toy_cfg)). exact toy_connects.
Defined.

(** The first root whose name the issuer begins with is the only one tried. *)
Example first_prefix_tried :
  @ssl_wrap_crt_verify_callback toy_crypto (Some (bundle_bytes [([48; 1], [8]); ([48; 1; 5], [7])])) toy_crt 8 = Some (MBEDTLS_ERR_X509_FATAL_ERROR, 8).
Proof. vm_compute. reflexivity. Qed.
