(* ===== verification/MqttSock.v ===== *)
(** * Sockets and TLS behind the MQTT client

    components/mqtt/platform/mqtt_nw_tcp.c and mqtt_nw_tls.c: the functions the
    MQTT client reads and writes with over a plain socket and over a connection
    of the TLS wrapper, and how each back end connects.  Both discharge the
    class [Link] the theorems of the client are proved against. *)

From S2P Require Import Prelude FileSys FsUtils BasicJson CString SslWrap.
From S2P Require Import MqttPacket MqttCodec MqttRoundTrip MqttRead MqttClient MqttTopics MqttSession MqttCalls.

(** ** lwIP *)

Record addrinfo := mkAddr { ai_family : Z; ai_socktype : Z; ai_protocol : Z; ai_addr : bytes }.

(** The results of the calls; where a call may fail, [errno] is with them. *)
Class Lwip (W : Type) := {
  lwip_time : W -> Z * W;
  lwip_select : Z -> Z * Z -> W -> Z * W;
  lwip_read : Z -> Z -> W -> Z * bytes * W;
  lwip_write : Z -> bytes -> W -> Z * W;
  lwip_close : Z -> W -> W;
  lwip_getaddrinfo : bytes -> bytes -> W -> Z * list addrinfo * W;
  lwip_socket : addrinfo -> W -> Z * Z * W;
  lwip_connect : Z -> addrinfo -> W -> Z * Z * W;
}.

Definition EHOSTUNREACH : Z := 65.

Section Tcp.
Context {W : Type} `{Lwip W}.

Definition mqtt_socket_read (socket len timeout_ms : Z) (w : W) : Z * bytes * W :=
  let timeout := (Z.quot timeout_ms 1000, Z.rem timeout_ms 1000 * 1000) in
  let '(rval, w) := lwip_select socket timeout w in
  if rval <=? 0 then (rval, [], w) else lwip_read socket len w.

Definition mqtt_socket_write (socket : Z) (buf : bytes) (timeout_ms : Z) (w : W) : Z * W := lwip_write socket buf w.

Definition mqtt_socket_disconnect (socket : Z) (w : W) : W := lwip_close socket w.

(** [n->mqttread] and [n->mqttwrite] after [MQTTNetworkInit]. *)
Definition tcp_platform (socket : Z) : Platform W := {|
  os_systime := lwip_time;
  mqttread := mqtt_socket_read socket;
  mqttwrite := mqtt_socket_write socket;
|}.

(** The loop over the addresses: [s], [e] and the new state. *)
Fixpoint connect_addrs (ai : list addrinfo) (s e : Z) (w : W) : Z * Z * W :=
  match ai with
  | [] => (s, e, w)
  | a :: ai =>
      let '(s, errno, w) := lwip_socket a w in
      if s <? 0 then connect_addrs ai s errno w
      else
        let '(r, errno, w) := lwip_connect s a w in
        if r <? 0 then connect_addrs ai (-1) errno (lwip_close s w) else (s, e, w)
  end.

(** The result and [n->socket]. *)
Definition MQTTNetworkConnect (addr : bytes) (port : Z) (socket : Z) (w : W) : Z * Z * W :=
  let service := take 7 (str (pretty (u32 port))) in
  let '(r, ai, w) := lwip_getaddrinfo addr service w in
  if negb (r =? 0) then (- EHOSTUNREACH, socket, w)
  else
    let '(s, e, w) := connect_addrs ai (-1) EHOSTUNREACH w in
    if s <? 0 then (- e, socket, w) else (0, s, w).

(** The call through [n->disconnect], which [MQTTNetworkInit] set. *)
Definition MQTTNetworkDisconnect (socket : Z) (w : W) : W := mqtt_socket_disconnect socket w.

End Tcp.

(** ** TLS *)

Section Tls.
Context {W : Type} `{Mbedtls W} `{Crypto}.

Definition mqtt_ssl_sock_read (rounds : nat) (socket len timeout_ms : Z) (g : ssl_lib) (w : W) : option (Z * bytes * W) :=
  ssl_wrap_read_timeout rounds (ssl_wrap_fd_to_handle socket g) len timeout_ms w.

Definition mqtt_ssl_sock_write (socket : Z) (buf : bytes) (timeout_ms : Z) (g : ssl_lib) (w : W) : option (Z * W) :=
  ssl_wrap_write (ssl_wrap_fd_to_handle socket g) buf w.

Definition MQTTNetworkDisconnect_Tls (socket : Z) (g : ssl_lib) (w : W) : ssl_lib * W :=
  ssl_wrap_disconnect (ssl_wrap_fd_to_handle socket g) g w.

(** [n->mqttread] and [n->mqttwrite] after [MQTTNetworkInit_Tls]; [None] is a
    state after undefined behaviour. *)
Definition tls_platform (time : W -> Z * W) (rounds : nat) (socket : Z) : Platform (option (ssl_lib * W)) := {|
  os_systime s :=
    match s with Some (g, w) => let '(t, w) := time w in (t, Some (g, w)) | None => (0, None) end;
  mqttread len ms s :=
    match s with
    | Some (g, w) =>
        match mqtt_ssl_sock_read rounds socket len ms g w with Some (n, bs, w) => (n, bs, Some (g, w)) | None => (0, [], None) end
    | None => (0, [], None)
    end;
  mqttwrite bs ms s :=
    match s with
    | Some (g, w) =>
        match mqtt_ssl_sock_write socket bs ms g w with Some (n, w) => (n, Some (g, w)) | None => (0, None) end
    | None => (0, None)
    end;
|}.

(** The result, [n->socket], the configuration and the new state. *)
Definition MQTTNetworkConnect_Tls (rounds : nat) (host : bytes) (port : Z) (cfg : ssl_wrap_cfg_t) (socket : Z) (g : ssl_lib) (w : W)
  : option (Z * Z * ssl_wrap_cfg_t * ssl_lib * W) :=
  '(h, cfg, g, w) ← ssl_wrap_connect rounds host port cfg g w;
  match ssl_wrap_sock_fd_get h with
  | None => Some (-1, socket, cfg, g, w)
  | Some fd => Some (fd, fd, cfg, g, w)
  end.

End Tls.

(** ** Sockets are not lost *)

(** The sockets that are open: a new one was not open before.  A call that fails
    sets [errno]. *)
Class Sockets (W : Type) `{Lwip W} := {
  opened : W -> gset Z;
  socket_law : forall a w s e w', lwip_socket a w = (s, e, w') ->
    if s <? 0 then 0 < e /\ opened w' = opened w else (s ∉ opened w) /\ opened w' = ({[s]} ∪ opened w);
  connect_law : forall s a w r e w', lwip_connect s a w = (r, e, w') -> opened w' = opened w /\ (r < 0 -> 0 < e);
  close_law : forall s w, opened (lwip_close s w) = opened w ∖ {[s]};
  getaddrinfo_law : forall addr sv w r ai w', lwip_getaddrinfo addr sv w = (r, ai, w') -> opened w' = opened w;
}.

Section Lost.
Context {W : Type} `{!Lwip W} `{!Sockets W}.

Lemma connect_addrs_sockets ai : forall s e (w : W) s' e' w',
  s < 0 -> 0 < e -> connect_addrs ai s e w = (s', e', w') ->
  if s' <? 0 then 0 < e' /\ opened w' = opened w
  else (s' ∉ opened w) /\ opened w' = ({[s']} ∪ opened w) /\ exists a r e0 w0, a ∈ ai /\ lwip_connect s' a w0 = (r, e0, w') /\ 0 <= r.
Proof.
  induction ai as [|a ai IH]; intros s e w s' e' w' Hs He E; cbn [connect_addrs] in E.
  { injection E as <- <- <-. by rewrite (proj2 (Z.ltb_lt _ _) Hs). }
  assert (Hmore : forall s1 e1 w1, s1 < 0 -> 0 < e1 -> opened w1 = opened w -> connect_addrs ai s1 e1 w1 = (s', e', w') ->
    if s' <? 0 then 0 < e' /\ opened w' = opened w
    else (s' ∉ opened w) /\ opened w' = ({[s']} ∪ opened w) /\ exists a0 r e0 w0, a0 ∈ a :: ai /\ lwip_connect s' a0 w0 = (r, e0, w') /\ 0 <= r).
  { intros s1 e1 w1 H1 H2 H3 E1. apply IH in E1; [|done|done]. rewrite H3 in E1. destruct (s' <? 0); [done|].
    destruct E1 as (? & ? & a0 & r & e0 & w0 & Hin & Hc). split; [done|]. split; [done|]. exists a0, r, e0, w0. split; [by right|done]. }
  destruct (lwip_socket a w) as [[s1 e1] w1] eqn:E1. pose proof (socket_law _ _ _ _ _ E1) as H1. destruct (Z.ltb_spec s1 0).
  { destruct H1 as [H1 H1']. by apply (Hmore s1 e1 w1). }
  destruct (lwip_connect s1 a w1) as [[r e2] w2] eqn:E2. destruct (connect_law _ _ _ _ _ _ E2) as [H2 H2']. destruct H1 as [Hf H1].
  destruct (Z.ltb_spec r 0).
  - apply (Hmore (-1) e2 (lwip_close s1 w2)); [done|by apply H2'| |done]. rewrite close_law, H2, H1. set_solver.
  - injection E as <- <- <-. rewrite (proj2 (Z.ltb_ge _ _)) by done. rewrite H2. split; [done|]. split; [done|].
    exists a, r, e2, w1. split; [by left|done].
Qed.

(** A plain connection.  [MQTTNetworkConnect] returns 0 exactly when one of
    the addresses of the host was connected; the socket is then the only one
    that was opened and is still open.  Otherwise the result is negative, the
    socket of the client is as before and every socket that was tried is closed
    again. *)
Theorem tcp_connect_sockets addr port socket (w : W) r s w' :
  MQTTNetworkConnect addr port socket w = (r, s, w') ->
  r = 0 /\ (s ∉ opened w) /\ opened w' = ({[s]} ∪ opened w)
    /\ (exists ai w1 a c e w2, lwip_getaddrinfo addr (take 7 (str (pretty (u32 port)))) w = (0, ai, w1)
                               /\ a ∈ ai /\ lwip_connect s a w2 = (c, e, w') /\ 0 <= c)
  \/ r < 0 /\ s = socket /\ opened w' = opened w.
Proof.
  unfold MQTTNetworkConnect. destruct (lwip_getaddrinfo _ _ _) as [[q ai] w1] eqn:Eg. pose proof (getaddrinfo_law _ _ _ _ _ _ Eg) as Hg.
  destruct (Z.eqb_spec q 0) as [->|]; cbn [negb].
  2:{ intros [= <- <- <-]. right. split; [by unfold EHOSTUNREACH|by split]. }
  destruct (connect_addrs ai (-1) EHOSTUNREACH w1) as [[s1 e1] w2] eqn:E. apply connect_addrs_sockets in E; [|done|done].
  rewrite Hg in E. destruct (Z.ltb_spec s1 0); intros [= <- <- <-].
  - right. destruct E as [He Ho]. split; [lia|by split].
  - left. destruct E as (Hn & Ho & a & c & e & w0 & Hin & Hc & Hr). split; [done|]. split; [done|]. split; [done|].
    by exists ai, w1, a, c, e, w0.
Qed.

End Lost.

(** ** The links *)

(** A socket that works, and a clock less than a second after [T0]. *)
Class TcpLink (W : Type) `{Lwip W} (T0 fd : Z) := {
  tcp_in : W -> bytes;
  tcp_out : W -> bytes;
  tcp_time : forall w, exists d w', lwip_time w = (u32 (T0 + d), w') /\ 0 <= d < 1000000 /\ tcp_in w' = tcp_in w /\ tcp_out w' = tcp_out w;
  tcp_select : forall t w, tcp_in w <> [] -> exists w', lwip_select fd t w = (1, w') /\ tcp_in w' = tcp_in w /\ tcp_out w' = tcp_out w;
  tcp_read : forall n w, 0 < n <= zlen (tcp_in w) -> exists w',
    lwip_read fd n w = (n, take (Z.to_nat n) (tcp_in w), w') /\ tcp_in w' = drop (Z.to_nat n) (tcp_in w) /\ tcp_out w' = tcp_out w;
  tcp_write : forall bs w, exists w', lwip_write fd bs w = (zlen bs, w') /\ tcp_in w' = tcp_in w /\ tcp_out w' = tcp_out w ++ bs;
}.

#[refine] Instance tcp_link {W} `{!Lwip W} {T0 fd} `{!TcpLink W T0 fd} : @Link W (tcp_platform fd) T0 :=
  { incoming := tcp_in; sent := tcp_out; good _ := True }.
Proof.
  - intros w _. destruct (tcp_time w) as (d & w' & E & Hd & Hi & Ho). by exists d, w'.
  - intros n ms w _ Hn. cbn. unfold mqtt_socket_read. set (t := (_, _)).
    destruct (tcp_select t w) as (w1 & E1 & Hi1 & Ho1). { intros E. rewrite E in Hn. change (zlen []) with 0 in Hn. lia. }
    rewrite E1. cbn [Z.leb Z.compare]. destruct (tcp_read n w1) as (w2 & E2 & Hi2 & Ho2); [by rewrite Hi1|].
    exists w2. rewrite E2, Hi2, Ho2, Hi1, Ho1. by split_and!.
  - intros bs ms w _. destruct (tcp_write bs w) as (w' & E & Hi & Ho). by exists w'.
Defined.

(** The clock of the TLS connection. *)
Definition tls_clock {W} `{!Mbedtls W} {fd} `{!TlsLink W fd} (T0 : Z) (time : W -> Z * W) : Prop := forall w, exists d w',
  time w = (u32 (T0 + d), w') /\ 0 <= d < 1000000 /\ tls_in w' = tls_in w /\ tls_out w' = tls_out w /\ bursts w' = bursts w.

Section TlsLink.
Context {W : Type} `{!Mbedtls W} {fd : Z} `{!TlsLink W fd}.
Context (T0 : Z) (time : W -> Z * W) (Htime : tls_clock T0 time) (rounds : nat).
Context (g0 : ssl_lib) (h : ssl_wrap_handle) (Hh : ssl_wrap_fd_to_handle fd g0 = Some h) (Hf : net_fd h = fd).

(** The reader has rounds enough. *)
Definition tls_good (s : option (ssl_lib * W)) : Prop :=
  match s with Some (g, w) => g = g0 /\ (bursts w < rounds)%nat | None => False end.

Definition of_tls {A} (f : W -> list A) (s : option (ssl_lib * W)) : list A := match s with Some (_, w) => f w | None => [] end.

#[refine] Instance tls_link : @Link (option (ssl_lib * W)) (tls_platform time rounds fd) T0 :=
  { incoming := of_tls tls_in; sent := of_tls tls_out; good := tls_good }.
Proof.
  - intros [[g w]|]; [|done]. intros [-> Hp]. destruct (Htime w) as (d & w' & E & Hd & Hi & Ho & Hp'). exists d, (Some (g0, w')).
    cbn. rewrite E, Hp', Hi, Ho. split; [done|]. split; [done|]. by split_and!.
  - intros n ms [[g w]|]; [|done]. intros [-> Hp] Hn. cbn in Hn |- *. unfold mqtt_ssl_sock_read. rewrite Hh.
    destruct (read_timeout_law rounds h n ms w) as (w' & E & Hi & Hp' & Ho & _); try done. exists (Some (g0, w')). rewrite E. cbn.
    rewrite Hi, Hp', Ho. split_and!; done || lia.
  - intros bs ms [[g w]|]; [|done]. intros [-> Hp]. cbn. unfold mqtt_ssl_sock_write. rewrite Hh. cbn.
    destruct (tls_write_law bs w) as (w' & E & Hi & Hp' & Ho & _). rewrite Hf, E. exists (Some (g0, w')). cbn. rewrite Hi, Hp', Ho.
    by split_and!.
Defined.

End TlsLink.

(** The same exchange over a plain socket. *)
Theorem mqtt_over_tcp {W} `{!Lwip W} {T0 fd} `{!TcpLink W T0 fd} mr (w : W) (c : MQTTClient) o cn session code rest :
  (2 <= mr)%nat -> tcp_in w = connack_packet session code ++ rest ->
  isconnected c = 0 -> 1000 <= command_timeout_ms c <= 2000000 -> describes o cn -> MQTTSerialize_connectLength o < 268435456 ->
  MQTTPacket_len (MQTTSerialize_connectLength o) <= zlen (c_buf c) -> 4 <= zlen (readbuf c) < 2 ^ 32 ->
  0 <= session < 2 -> 0 <= code < 256 ->
  exists s' ping,
    @MQTTConnectWithResults _ (tcp_platform fd) mr (Some o) (mkState c w []) = Some ((code, Some (code, session)), s')
    /\ isconnected (cl s') = (if code =? 0 then 1 else 0) /\ tcp_in (net s') = rest
    /\ tcp_out (net s') = tcp_out w ++ connect_packet cn ++ ping /\ (ping = [] \/ ping = ping_packet).
Proof.
  intros Hmr Hi Hconn Hto D Hsz Hbuf Hrb Hse Hco.
  destruct (@connect_exchange _ (tcp_platform fd) T0 tcp_link mr (mkState c w []) o cn session code rest)
    as (s' & ping & E2 & Ho & Hping & _ & Hin & _ & Hc & _); try done.
  exists s', ping. by split_and!.
Qed.

(** C31: MQTT over TLS.  When [MQTTNetworkConnect_Tls] gives a socket, its handle
    is found again by the descriptor, and over a TLS connection that works, in
    however many bursts its records arrive, [MQTTConnect] sends the request of
    the client, returns the code and the session flag of the broker's answer and
    is connected exactly when the code is 0. *)
Theorem mqtt_over_tls {W} `{!Mbedtls W} `{!Crypto} rounds host port cfg socket g (w : W) fd cfg' g' w' T0 time `{!TlsLink W fd}
    mr (c : MQTTClient) o cn session code rest :
  MQTTNetworkConnect_Tls rounds host port cfg socket g w = Some (fd, fd, cfg', g', w') -> 0 <= fd ->
  tls_clock T0 time -> (bursts w' < rounds)%nat -> (2 <= mr)%nat -> tls_in w' = connack_packet session code ++ rest ->
  isconnected c = 0 -> 1000 <= command_timeout_ms c <= 2000000 -> describes o cn -> MQTTSerialize_connectLength o < 268435456 ->
  MQTTPacket_len (MQTTSerialize_connectLength o) <= zlen (c_buf c) -> 4 <= zlen (readbuf c) < 2 ^ 32 ->
  0 <= session < 2 -> 0 <= code < 256 ->
  exists s' ping w2,
    @MQTTConnectWithResults _ (tls_platform time rounds fd) mr (Some o) (mkState c (Some (g', w')) [])
      = Some ((code, Some (code, session)), s')
    /\ isconnected (cl s') = (if code =? 0 then 1 else 0) /\ net s' = Some (g', w2) /\ tls_in w2 = rest
    /\ tls_out w2 = tls_out w' ++ connect_packet cn ++ ping /\ (ping = [] \/ ping = ping_packet).
Proof.
  intros E Hfd Ht Hp Hmr Hi Hconn Hto D Hsz Hbuf Hrb Hse Hco.
  assert (Hh : exists h, ssl_wrap_fd_to_handle fd g' = Some h /\ net_fd h = fd).
  { unfold MQTTNetworkConnect_Tls in E. destruct (ssl_wrap_connect rounds host port cfg g w) as [[[[r cfg1] g1] w1]|] eqn:Ec; [|done].
    apply connect_cases in Ec as [_ Ec]. cbn [mbind option_bind] in E. destruct r as [h|]; cbn in E; injection E; intros; subst; [|lia].
    destruct Ec as (_ & _ & Hh & _). exists h. split; [|done]. unfold ssl_wrap_fd_to_handle. rewrite Hh. cbn. by rewrite Z.eqb_refl. }
  destruct Hh as (h & Hh & Hf).
  destruct (@connect_exchange _ (tls_platform time rounds fd) T0 (tls_link T0 time Ht rounds g' h Hh Hf) mr (mkState c (Some (g', w')) []) o cn session code rest)
    as (s' & ping & E2 & Ho & Hping & Hgood & Hin & _ & Hc & _); try done.
  cbn [good tls_link] in Hgood. destruct (net s') as [[g2 w2]|] eqn:En; [|done]. destruct Hgood as [-> _].
  exists s', ping, w2. by split_and!.
Qed.

(** ** Witnesses *)

Lemma toy_clock fd : @tls_clock tls_net _ fd (toy_link fd) 0 (fun w => (0, w)).
Proof. intros w. by exists 0, w. Qed.

Definition answer_tls : tls_net := mkTls (connack_packet 1 0) [] 3 0 [].

Lemma toy_tls_connects : exists cfg' g',
  @MQTTNetworkConnect_Tls tls_net _ toy_crypto 4 (str "host") 8883 (mkSslCfg no_cert no_cert no_cert 0 0 None) (-1) no_ssl answer_tls
  = Some (5, 5, cfg', g', answer_tls).
Proof. eexists _, _. reflexivity. Qed.

Lemma mqtt_over_tls_witness :
  exists g' s' ping w2,
    @MQTTConnectWithResults _ (tls_platform (fun w => (0, w)) 4 5) 2 (Some sample_options)
      (mkState (set_connected 0 sample_client) (Some (g', answer_tls)) []) = Some ((0, Some (0, 1)), s')
    /\ isconnected (cl s') = 1 /\ net s' = Some (g', w2) /\ t_in w2 = []
    /\ t_out w2 = connect_packet MqttRoundTrip.sample_conn ++ ping /\ (ping = [] \/ ping = ping_packet).
Proof.
  destruct toy_tls_connects as (cfg' & g' & Hc).
  destruct (@mqtt_over_tls tls_net _ toy_crypto 4 (str "host") 8883 (mkSslCfg no_cert no_cert no_cert 0 0 None) (-1) no_ssl answer_tls
              5 cfg' g' answer_tls 0 (fun w => (0, w)) (toy_link 5) 2 (set_connected 0 sample_client)
              sample_options MqttRoundTrip.sample_conn 1 0 []) as (s' & ping & w2 & E1 & E2 & E3 & E4 & E5 & E6).
  - exact Hc.
  - lia.
  - apply toy_clock.
  - cbn. lia.
  - lia.
  - done.
  - done.
  - cbn. lia.
  - exact sample_describes.
  - by vm_compute.
  - by vm_compute.
  - split; by vm_compute.
  - lia.
  - lia.
  - exists g', s', ping, w2. exact (conj E1 (conj E2 (conj E3 (conj E4 (conj E5 E6))))).
Defined.

(** A host with two addresses, of which the second accepts connections. *)
Record two_hosts := mkHosts { open_set : gset Z; next_sock : Z }.

Definition host_addr (n : Z) : addrinfo := mkAddr 2 1 6 [10; 0; 0; n].

#[global] Instance hosts_lwip : Lwip two_hosts := {
  lwip_time w := (0, w);
  lwip_select _ _ w := (0, w);
  lwip_read _ _ w := (-1, [], w);
  lwip_write _ _ w := (-1, w);
  lwip_close s w := mkHosts (open_set w ∖ {[s]}) (next_sock w);
  lwip_getaddrinfo _ _ w := (0, [host_addr 1; host_addr 2], w);
  lwip_socket _ w :=
    if bool_decide (next_sock w ∈ open_set w) || (next_sock w <? 0) then (-1, 24, w)
    else (next_sock w, 0, mkHosts ({[next_sock w]} ∪ open_set w) (next_sock w + 1));
  lwip_connect _ a w := (if bool_decide (ai_addr a = [10; 0; 0; 2]) then (0, 0, w) else (-1, 61, w));
}.

#[global, refine] Instance hosts_sockets : Sockets two_hosts := { opened := open_set }.
Proof.
  - intros a w s e w'. cbn. destruct (bool_decide (next_sock w ∈ open_set w)) eqn:Ei; cbn [orb]; [by intros [= <- <- <-]|].
    apply bool_decide_eq_false in Ei. destruct (Z.ltb_spec (next_sock w) 0); [by intros [= <- <- <-]|]. intros [= <- <- <-].
    by rewrite (proj2 (Z.ltb_ge _ _)).
  - intros s a w r e w'. cbn. destruct (bool_decide _); intros [= <- <- <-]; split; done || lia.
  - done.
  - by intros addr sv w r ai w' [= <- <- <-].
Defined.

Lemma tcp_connect_sockets_witness :
  exists w', @MQTTNetworkConnect two_hosts _ (str "host") 1883 (-1) (mkHosts ∅ 3) = (0, 4, w') /\ opened w' = ({[4]} ∪ ∅ : gset Z).
Proof.
  eexists. split; [vm_compute; reflexivity|].
  destruct (tcp_connect_sockets (str "host") 1883 (-1) (mkHosts ∅ 3) 0 4 (@MQTTNetworkConnect two_hosts _ (str "host") 1883 (-1) (mkHosts ∅ 3)).2)
    as [(_ & _ & H & _)|[H _]]; [vm_compute; reflexivity| |lia].
  etransitivity; [|exact H]. vm_compute. reflexivity.
Defined.
