(* ===== verification/MqttNet.v ===== *)
(** * Network back ends of the MQTT client

    components/mqtt/platform/mqtt_nw_websock.c: the two functions the MQTT client
    reads and writes with, over a connection of the WebSocket client.  They are
    an instance of the class [Platform] the client is written against, and, as
    long as the broker puts what it sends in one frame, of the class [Link] its
    theorems are proved against. *)

From S2P Require Import Prelude FileSys FsUtils BasicJson CString HttpClient HttpRequest HttpResponse HttpDelivery.
From S2P Require Import MqttPacket MqttCodec MqttRoundTrip MqttRead MqttClient MqttTopics MqttSession MqttCalls.
From S2P Require Import WebSock WebSockProps WebSockLib WebSockOpen WebSockThread.

(** ** The functions *)

Definition WEBSOCK_MAX_HNDSHK_HDRS : Z := 10.

(** The clock that [os_systime] reads. *)
Class NetClock (W : Type) := systime : W -> Z * W.

Definition with_ws (c : ws_conn) (h : ws_handle) : ws_conn := mkConn (c_id c) (c_http c) h (c_recv_buf c) (c_cb c).

Definition update_conn (c : ws_conn) (g : ws_lib) : ws_lib := set_list (ws_update c (ws_handle_list g)) g.

Section Back.
Context {W : Type} `{WsSystem W}.

(** The result, the bytes stored in the caller's buffer, and the new state.
    What the buffer held before does not matter to the reception; bytes of a
    ping that passed through it are not counted as stored. *)
Definition mqtt_ws_sock_read (rounds : nat) (socket : Z) (len timeout_ms : Z) (g : ws_lib) (w : W)
  : option (Z * bytes * (ws_lib * W)) :=
  let timeout := Z.quot timeout_ms 1000 + 1 in
  c ← ws_fd_to_handle socket (ws_handle_list g);
  '(r, h, w) ← websock_recv rounds (c_ws c) (replicate (Z.to_nat len) 0) len timeout w;
  Some (r_rval r, take (Z.to_nat (Z.min (r_rval r) (r_len r))) (r_buf r), (update_conn (with_ws c h) g, w)).

Definition mqtt_ws_sock_write (socket : Z) (buf : bytes) (g : ws_lib) (w : W) : option (Z * (ws_lib * W)) :=
  c ← ws_fd_to_handle socket (ws_handle_list g);
  '(rval, h, w) ← websock_send_binary (c_ws c) (Some buf) (zlen buf) w;
  Some (rval, (update_conn (with_ws c h) g, w)).

Definition mqtt_ws_sock_disconnect `{WsEnv W} (socket : Z) (g : ws_lib) (w : W) : option (ws_lib * W) :=
  c ← ws_fd_to_handle socket (ws_handle_list g);
  Some (websock_close c g w).

(** [n->mqttread] and [n->mqttwrite] after [MQTTNetworkInit_Ws]; [None] is a
    state after undefined behaviour. *)
Definition ws_platform `{NetClock W} (rounds : nat) (socket : Z) : Platform (option (ws_lib * W)) := {|
  os_systime s :=
    match s with Some (g, w) => let '(t, w) := systime w in (t, Some (g, w)) | None => (0, None) end;
  mqttread len ms s :=
    match s with
    | Some (g, w) =>
        match mqtt_ws_sock_read rounds socket len ms g w with Some (n, bs, s) => (n, bs, Some s) | None => (0, [], None) end
    | None => (0, [], None)
    end;
  mqttwrite bs ms s :=
    match s with
    | Some (g, w) =>
        match mqtt_ws_sock_write socket bs g w with Some (n, s) => (n, Some s) | None => (0, None) end
    | None => (0, None)
    end;
|}.

(** The configuration is the caller's and keeps the header that is added. *)
Definition add_protocol (cfg : websock_config_t) : websock_config_t :=
  mkCfg (cfg_hostname cfg) (cfg_port cfg) (cfg_uri cfg) (cfg_secured cfg)
    (hndshk_hdrs cfg ++ [(str "Sec-WebSocket-Protocol", str "mqtt")]).

(** The result, [n->socket], the configuration and the new state. *)
Definition MQTTNetworkConnect_Ws `{WsEnv W} (s1 s2 : Z) (cfg : websock_config_t) (evs : list recv_ev) (socket : Z) (g : ws_lib) (w : W)
  : option (Z * Z * websock_config_t * ws_lib * W) :=
  if WEBSOCK_MAX_HNDSHK_HDRS <=? zlen (hndshk_hdrs cfg) then Some (-1, socket, cfg, g, w)
  else
    let cfg := add_protocol cfg in
    '(handle, g, w) ← websock_open s1 s2 cfg evs g w;
    match handle with
    | None => Some (-1, socket, cfg, g, w)
    | Some c => Some (sock_fd (c_ws c), sock_fd (c_ws c), cfg, g, w)
    end.

End Back.

(** ** Frames decoded *)

Lemma decode_length_more n l k r b : decode_length n l = Some (k, r) -> decode_length n (l ++ b) = Some (k, r ++ b).
Proof.
  unfold decode_length. destruct (n <? 126); [by intros [= <- <-]|]. set (j := if n =? 126 then 2%nat else 8%nat).
  destruct (Nat.ltb_spec (length l) j) as [|Hl]; [done|]. intros [= <- <-].
  rewrite (proj2 (Nat.ltb_ge _ _)) by (rewrite length_app; lia). by rewrite take_app_le, drop_app_le by lia.
Qed.

Lemma decode_frame_more l f r b : decode_frame l = Some (f, r) -> decode_frame (l ++ b) = Some (f, r ++ b).
Proof.
  destruct l as [|b0 [|b1 l]]; try done. cbn [decode_frame app].
  destruct (decode_length (b1 mod 128) l) as [[n l1]|] eqn:El; [|done]. rewrite (decode_length_more _ _ _ _ _ El). cbn [mbind option_bind].
  assert (Hgo : forall k (g : bytes -> bytes),
    (if (length l1 <? k)%nat || (zlen (drop k l1) <? n) then None
     else Some (mkFrame (128 <=? b0) (b0 mod 16) (g (take (Z.to_nat n) (drop k l1))), drop (Z.to_nat n) (drop k l1))) = Some (f, r) ->
    (if (length (l1 ++ b) <? k)%nat || (zlen (drop k (l1 ++ b)) <? n) then None
     else Some (mkFrame (128 <=? b0) (b0 mod 16) (g (take (Z.to_nat n) (drop k (l1 ++ b)))), drop (Z.to_nat n) (drop k (l1 ++ b))))
    = Some (f, r ++ b) /\ (k <= length l1)%nat).
  { intros k g. destruct (Nat.ltb_spec (length l1) k) as [|Hk]; [done|]. destruct (Z.ltb_spec (zlen (drop k l1)) n) as [|Hn]; [done|].
    cbn [orb]. intros [= <- <-]. rewrite (proj2 (Nat.ltb_ge _ _)) by (rewrite length_app; lia). rewrite drop_app_le by lia.
    rewrite (proj2 (Z.ltb_ge _ _)) by (rewrite zlen_app; pose proof (zlen_nonneg b); lia). cbn [orb].
    assert (Hz : (Z.to_nat n <= length (drop k l1))%nat) by (unfold zlen in Hn; lia).
    by rewrite take_app_le, (drop_app_le _ _ (Z.to_nat n)) by done. }
  destruct (128 <=? b1); intros E.
  - destruct (Hgo 4%nat (xor_mask (take 4 l1))) as [E' Hk]; [exact E|].
    rewrite (take_app_le l1 b 4) by done. exact E'.
  - by destruct (Hgo 0%nat (fun x => x)) as [E' _].
Qed.

Lemma decode_frames_more n l fs m : decode_frames n l = Some fs -> (n <= m)%nat -> decode_frames m l = Some fs.
Proof.
  revert l fs m. induction n as [|n IH]; intros l fs m E Hm; [destruct l; [by destruct m|done]|].
  destruct l as [|x l]; [by destruct m|]. destruct m as [|m]; [lia|]. cbn [decode_frames] in *.
  destruct (decode_frame (x :: l)) as [[f r]|]; [|done]. cbn [mbind option_bind] in *.
  destruct (decode_frames n r) as [fs'|] eqn:E'; [|done]. by rewrite (IH _ _ _ E') by lia.
Qed.

Lemma decode_frames_app n1 n2 a b fs1 fs2 :
  decode_frames n1 a = Some fs1 -> decode_frames n2 b = Some fs2 -> decode_frames (n1 + n2) (a ++ b) = Some (fs1 ++ fs2).
Proof.
  revert a fs1. induction n1 as [|n1 IH]; intros a fs1 E1 E2.
  - destruct a; [|done]. by injection E1 as <-.
  - destruct a as [|x a]; [injection E1 as <-; eapply decode_frames_more; [done|lia]|].
    cbn [decode_frames Nat.add app] in *. destruct (decode_frame (x :: a)) as [[f r]|] eqn:Ef; [|done]. cbn [mbind option_bind] in *.
    apply (decode_frame_more _ _ _ b) in Ef. cbn [app] in Ef. rewrite Ef. cbn [mbind option_bind].
    destruct (decode_frames n1 r) as [fs'|] eqn:E'; [|done]. injection E1 as <-. by rewrite (IH _ _ E' E2).
Qed.

Lemma decode_server f rest :
  0 <= f_op f < 16 -> zlen (f_payload f) < 65536 -> decode_frame (server_frame f ++ rest) = Some (f, rest).
Proof.
  destruct f as [fn op p]. cbn [f_op f_payload]. intros Hop Hp. pose proof (zlen_nonneg p). unfold server_frame. cbn [f_op f_payload f_fin].
  assert (Hb0 : (128 <=? op + (if fn then 128 else 0)) = fn /\ (op + (if fn then 128 else 0)) mod 16 = op).
  { destruct fn; split; [apply Z.leb_le; lia| |apply Z.leb_gt; lia|]; Z.div_mod_to_equations; lia. }
  destruct Hb0 as [Hf Ho]. set (n := zlen p) in *.
  assert (Hend : forall b1, b1 < 128 -> (if (length (p ++ rest) <? 0)%nat || (zlen (drop 0 (p ++ rest)) <? n) then None
    else Some (mkFrame fn op (if 128 <=? b1 then xor_mask (take 4 (p ++ rest)) (take (Z.to_nat n) (drop 0 (p ++ rest)))
                              else take (Z.to_nat n) (drop 0 (p ++ rest))), drop (Z.to_nat n) (drop 0 (p ++ rest)))) = Some (mkFrame fn op p, rest)).
  { intros b1 Hb1. rewrite drop_0, (proj2 (Z.ltb_ge _ _)), (proj2 (Z.leb_gt _ _)) by (rewrite ?zlen_app; pose proof (zlen_nonneg rest); lia).
    unfold n, zlen. rewrite Nat2Z.id, take_app_length, drop_app_length. done. }
  destruct (Z.ltb_spec n 126) as [Hs|Hs]; cbn [app decode_frame]; rewrite Hf, Ho.
  - rewrite (Z.mod_small n 128) by lia. unfold decode_length. rewrite (proj2 (Z.ltb_lt n 126)) by done. cbn [mbind option_bind].
    rewrite (proj2 (Z.leb_gt 128 n)) by lia. specialize (Hend n ltac:(lia)). rewrite (proj2 (Z.leb_gt 128 n)) in Hend by lia. exact Hend.
  - change (126 mod 128) with 126. change (128 <=? 126) with false. unfold decode_length.
    cbn [Z.ltb Z.eqb Z.compare Pos.compare Pos.compare_cont Pos.eqb length]. cbn [Nat.ltb Nat.leb take drop]. rewrite be_two.
    replace (256 * (n / 256) + n mod 256) with n by (Z.div_mod_to_equations; lia). cbn [mbind option_bind]. exact (Hend 126 ltac:(lia)).
Qed.

Lemma server_frame_cons f : exists b0 l, server_frame f = b0 :: l.
Proof. by eexists _, _. Qed.

Lemma decode_one f n rest : 0 <= f_op f < 16 -> zlen (f_payload f) < 65536 ->
  decode_frames (S n) (server_frame f ++ rest) = (fs ← decode_frames n rest; Some (f :: fs)).
Proof.
  intros Hop Hp. pose proof (decode_server f rest Hop Hp) as E. destruct (server_frame_cons f) as (b0 & l & Ef). rewrite Ef in *.
  cbn [app] in *. cbn [decode_frames]. by rewrite E.
Qed.

Definition ping_frame (pl : bytes) : frame := mkFrame true WS_OPCODE_PING pl.

Lemma decode_pings pings : forall n rest, Forall (fun pl => zlen pl <= 125) pings ->
  decode_frames (length pings + n) (ping_frames pings ++ rest) = (fs ← decode_frames n rest; Some (map ping_frame pings ++ fs)).
Proof.
  induction pings as [|pl pings IH]; intros n rest Hp; cbn [length Nat.add map app];
    [change (ping_frames [] ++ rest) with rest; by destruct (decode_frames n rest)|].
  inversion Hp as [|? ? Hpl Hp']; subst. unfold ping_frames. cbn [map concat]. fold (ping_frames pings). rewrite <- app_assoc.
  rewrite decode_one by (cbn; unfold WS_OPCODE_PING; lia). rewrite IH by done. by destruct (decode_frames n rest).
Qed.

(** ** The link *)

(** The clock is less than a second after [T0]. *)
Class ClockLaw (W : Type) `{WsSystem W} `{!WsLink W} `{NetClock W} (T0 : Z) :=
  clock_law : forall w : W, exists d w', systime w = (u32 (T0 + d), w') /\ 0 <= d < 1000000 /\ arrived w' = arrived w /\ gone w' = gone w.

Definition is_data (f : frame) : bool := negb (f_op f =? WS_OPCODE_PING).
Definition data_of (fs : list frame) : bytes := concat (map f_payload (List.filter is_data fs)).

(** What a connection with the bytes [a] to come has for its user. *)
Definition to_come (h : ws_handle) (a : bytes) : bytes :=
  match h_state h with
  | WS_STATE_PAYLOAD_RECEIVING => a
  | _ => match decode_frames (length a) a with Some fs => data_of fs | None => [] end
  end.

(** What has been sent, as its receiver reads it. *)
Definition said (o : bytes) : bytes := match decode_frames (length o) o with Some fs => concat (map f_payload fs) | None => [] end.

Definition data_frame (f : frame) : Prop :=
  0 <= f_op f < 16 /\ f_op f <> WS_OPCODE_PING /\ f_payload f <> [] /\ zlen (f_payload f) < 65536.

(** Nothing, or pings and then at most one frame of data, or the rest of one. *)
Inductive live (rounds : nat) (h : ws_handle) : bytes -> Prop :=
  | live_idle : between h -> live rounds h []
  | live_frame pings f :
      between h -> Forall (fun pl => zlen pl <= 125) pings -> (length pings < rounds)%nat -> data_frame f ->
      live rounds h (ping_frames pings ++ server_frame f)
  | live_rest f p :
      f_op f <> WS_OPCODE_PING -> p <> [] -> after f h (zlen p) -> live rounds h p.

Lemma live_after rounds h f p : f_op f <> WS_OPCODE_PING -> after f h (zlen p) -> live rounds h p /\ to_come h p = p.
Proof.
  intros Hop Haf. destruct p as [|x p].
  - split; [by constructor|]. unfold to_come. by rewrite (proj1 Haf).
  - split; [by apply (live_rest _ _ f)|]. unfold to_come. unfold after in Haf.
    rewrite (proj2 (Z.eqb_neq _ _)) in Haf by (rewrite zlen_cons; pose proof (zlen_nonneg p); lia).
    destruct Haf as ((-> & _) & _). done.
Qed.

Lemma to_come_frame h pings f :
  h_state h = WS_STATE_HDR_RECEIVING -> Forall (fun pl => zlen pl <= 125) pings -> data_frame f ->
  to_come h (ping_frames pings ++ server_frame f) = f_payload f.
Proof.
  intros Hs Hp (Hop & Hnp & _ & Hz). unfold to_come. rewrite Hs.
  assert (Hlen : (length pings + 1 <= length (ping_frames pings ++ server_frame f))%nat).
  { rewrite length_app. assert (length pings <= length (ping_frames pings))%nat.
    { clear. unfold ping_frames. induction pings as [|pl pings IH]; [done|]. cbn [map concat length]. rewrite length_app.
      unfold server_frame at 1. rewrite length_app. cbn [length]. lia. }
    unfold server_frame. cbn [app length]. lia. }
  assert (E : decode_frames (length pings + 1) (ping_frames pings ++ server_frame f) = Some (map ping_frame pings ++ [f])).
  { rewrite decode_pings by done. rewrite <- (app_nil_r (server_frame f)), decode_one by done. done. }
  rewrite (decode_frames_more _ _ _ _ E Hlen). unfold data_of. rewrite List.filter_app, map_app, concat_app. cbn [List.filter].
  unfold is_data at 2. rewrite (proj2 (Z.eqb_neq _ _) Hnp). cbn [negb map concat]. rewrite app_nil_r.
  replace (List.filter is_data (map ping_frame pings)) with (@nil frame); [done|].
  clear. induction pings as [|pl pings IH]; [done|]. exact IH.
Qed.

(** A reception that asks for no more than there is. *)
Lemma live_received {W} `{!WsSystem W} `{!WsLink W} rounds h n timeout (w : W) :
  (125 <= rounds)%nat -> live rounds h (arrived w) -> 0 < n <= zlen (to_come h (arrived w)) ->
  exists hdr b h' w' out, websock_recv rounds h (replicate (Z.to_nat n) 0) n timeout w = Some (mkReceived n hdr b n, h', w')
  /\ take (Z.to_nat n) b = take (Z.to_nat n) (to_come h (arrived w))
  /\ live rounds h' (arrived w') /\ to_come h' (arrived w') = drop (Z.to_nat n) (to_come h (arrived w))
  /\ gone w' = gone w ++ pongs out /\ Forall (fun m => zlen m = 4) out.
Proof.
  intros Hr Hl Hn. set (buf := replicate (Z.to_nat n) 0).
  assert (Hzb : zlen buf = n) by (unfold zlen, buf; rewrite length_replicate; lia).
  inversion Hl as [Hbt Ea|pings f Hbt Hps Hpn Hdf Ea|f p Hop Hp Haf Ea].
  - rewrite <- Ea in Hn. unfold to_come in Hn. rewrite (proj1 Hbt) in Hn. change (zlen _) with 0 in Hn. lia.
  - rewrite <- Ea in Hn. rewrite to_come_frame in Hn |- * by (done || apply Hbt). pose proof Hdf as (Hopf & Hnp & Hne & Hz).
    destruct (pings_answered rounds timeout n pings rounds h (server_frame f) buf w) as
      (h1 & buf1 & w1 & masks & E1 & Hz1 & Hbt1 & Ha1 & Hms & Hlen & Hg1); try done; [lia|lia|].
    destruct (rounds - length pings)%nat as [|fu] eqn:Ef; [lia|].
    destruct (frame_begun rounds fu h1 f [] buf1 n timeout w1) as (n' & h2 & w2 & E2 & _ & Hk & Haf & Ha2 & Hg2); try done;
      [lia|lia|by rewrite app_nil_r|].
    rewrite Z.min_l in * by lia. specialize (Hk Hne). rewrite app_nil_r in Ha2. subst n'.
    destruct (piece_taken buf1 (f_payload f) n) as [Ht _]; [lia|lia|].
    destruct (live_after rounds h2 f (drop (Z.to_nat n) (f_payload f)) Hnp) as [Hl2 Hc2]; [by rewrite zlen_drop by lia|].
    eexists _, _, h2, w2, masks. unfold websock_recv, ws_recv_internal. rewrite E1, E2. split; [done|]. split; [done|].
    rewrite Ha2. split_and!; try done. congruence.
  - subst p. assert (Hc : to_come h (arrived w) = arrived w) by (by apply (live_after rounds h f)). rewrite Hc in *.
    destruct (piece_received rounds (pred rounds) h f (arrived w) [] buf n timeout w) as (n' & h1 & w1 & E & -> & Haf1 & Ha1 & Hg1); try done;
      [lia|lia|by rewrite app_nil_r|].
    rewrite Nat.succ_pred in E by lia. rewrite Z.min_l in * by lia. rewrite app_nil_r in Ha1.
    destruct (piece_taken buf (arrived w) n) as [Ht _]; [lia|lia|].
    destruct (live_after rounds h1 f (drop (Z.to_nat n) (arrived w)) Hop) as [Hl2 Hc2]; [by rewrite zlen_drop by lia|].
    eexists _, _, h1, w1, []. unfold websock_recv, ws_recv_internal. rewrite E. split; [done|]. split; [done|].
    rewrite Ha1. split_and!; try done. unfold pongs. cbn. by rewrite app_nil_r.
Qed.

Lemma live_buf_ok rounds h a : live rounds h a -> buf_ok h.
Proof.
  intros [Hbt|pings f Hbt _ _ _|f p _ _ Haf]; [apply Hbt|apply Hbt|]. unfold after in Haf.
  destruct (zlen p =? 0); [apply Haf|]. by destruct Haf as ((_ & _ & _ & Hb) & _).
Qed.

Lemma live_set_buf rounds h a b : zlen b = WS_MAX_FRAME_SIZE -> live rounds h a -> live rounds (set_h_buf h b) a.
Proof.
  intros Hb [Hbt|pings f Hbt H1 H2 H3|f p H1 H2 Haf].
  - constructor. by apply between_buf.
  - constructor; try done. by apply between_buf.
  - apply (live_rest _ _ f); [done|done|]. unfold after in *. destruct (zlen p =? 0); [by apply between_buf|].
    destruct Haf as ((A1 & A2 & A3 & _) & A5 & A6). split; [|done]. unfold amid. split_and!; try done. by intros ? [= <-].
Qed.

Lemma decode_frame_shorter l f r : decode_frame l = Some (f, r) -> (length r < length l)%nat.
Proof.
  destruct l as [|b0 [|b1 l]]; try done. cbn [decode_frame length]. unfold decode_length.
  destruct (b1 mod 128 <? 126); cbn [mbind option_bind].
  - destruct (_ || _); [done|]. intros [= _ <-]. rewrite !length_drop. lia.
  - destruct (_ <? _)%nat; [done|]. cbn [mbind option_bind]. destruct (_ || _); [done|]. intros [= _ <-]. rewrite !length_drop. lia.
Qed.

Lemma decode_count n : forall l fs, decode_frames n l = Some fs -> (length fs <= length l)%nat.
Proof.
  induction n as [|n IH]; intros [|x l] fs; cbn [decode_frames]; try done; try (intros [= <-]; cbn; lia).
  destruct (decode_frame (x :: l)) as [[f r]|] eqn:Ef; [|done]. cbn [mbind option_bind].
  destruct (decode_frames n r) as [fs'|] eqn:E; [|done]. intros [= <-]. apply IH in E. apply decode_frame_shorter in Ef. cbn [length] in *. lia.
Qed.

(** What was said, and then more. *)
Lemma said_app o out fs1 fs2 :
  decode_frames (length o) o = Some fs1 -> decode_frames (length fs2) out = Some fs2 ->
  decode_frames (length (o ++ out)) (o ++ out) = Some (fs1 ++ fs2) /\ said (o ++ out) = said o ++ concat (map f_payload fs2).
Proof.
  intros E1 E2. pose proof (decode_count _ _ _ E2) as Hl.
  assert (E : decode_frames (length (o ++ out)) (o ++ out) = Some (fs1 ++ fs2)).
  { eapply decode_frames_more; [by eapply decode_frames_app|]. rewrite length_app. lia. }
  split; [done|]. unfold said. by rewrite E, E1, map_app, concat_app.
Qed.

Lemma found_updated sock l c c' :
  NoDup (map c_id l) -> ws_fd_to_handle sock l = Some c -> c_id c' = c_id c -> sock_fd (c_ws c') = sock_fd (c_ws c) ->
  ws_fd_to_handle sock (ws_update c' l) = Some c'.
Proof.
  intros Hn Hf Hi Hs. induction l as [|p l IH]; [done|]. cbn in Hf, Hn |- *. apply NoDup_cons in Hn as [Hp Hn].
  destruct (Z.eqb_spec sock (sock_fd (c_ws p))) as [E|E].
  - injection Hf as ->. rewrite Hi, Z.eqb_refl. cbn. rewrite Hs, E, Z.eqb_refl. done.
  - destruct (Z.eqb_spec (c_id p) (c_id c')) as [Ei|Ei].
    + exfalso. apply Hp. rewrite Ei, Hi. by eapply in_ids, found_in.
    + cbn. rewrite (proj2 (Z.eqb_neq _ _) E). by apply IH.
Qed.

Section WsLink.
Context {W : Type} `{!WsSystem W} `{!WsLink W} `{!NetClock W} {T0 : Z} `{!ClockLaw W T0}.
Context (base : bytes) (rounds : nat) (socket : Z) (Hrounds : (125 <= rounds)%nat).

Definition conn_of (g : ws_lib) : option ws_conn := ws_fd_to_handle socket (ws_handle_list g).

Definition ws_incoming (s : option (ws_lib * W)) : bytes :=
  match s with
  | Some (g, w) => match conn_of g with Some c => to_come (c_ws c) (arrived w) | None => [] end
  | None => []
  end.

(** What was sent after [base], the request of the handshake. *)
Definition ws_sent (s : option (ws_lib * W)) : bytes :=
  match s with Some (_, w) => said (drop (length base) (gone w)) | None => [] end.

(** The connection is open, has no more than one frame of data to come, and has
    sent whole frames. *)
Definition ws_good (s : option (ws_lib * W)) : Prop :=
  match s with
  | Some (g, w) => exists c fs, conn_of g = Some c /\ NoDup (ids g) /\ live rounds (c_ws c) (arrived w)
                     /\ exists o, gone w = base ++ o /\ decode_frames (length o) o = Some fs
  | None => False
  end.

Lemma updated g c h : NoDup (ids g) -> conn_of g = Some c -> same (c_ws c) h ->
  conn_of (update_conn (with_ws c h) g) = Some (with_ws c h) /\ ids (update_conn (with_ws c h) g) = ids g.
Proof.
  intros Hn Hc [_ Hs]. split; [by apply (found_updated _ _ c)|]. apply ids_update.
  exact (in_ids _ _ (found_in _ _ _ Hc)).
Qed.

Lemma ws_read_law n ms (s : option (ws_lib * W)) :
  ws_good s -> 0 < n <= zlen (ws_incoming s) ->
  exists s', @mqttread _ (ws_platform rounds socket) n ms s = (n, take (Z.to_nat n) (ws_incoming s), s') /\ ws_good s'
  /\ ws_incoming s' = drop (Z.to_nat n) (ws_incoming s) /\ ws_sent s' = ws_sent s.
Proof.
  destruct s as [[g w]|]; [|done]. intros (c & fs & Hc & Hid & Hl & o & Hb0 & Hd). cbn [ws_incoming]. rewrite Hc. intros Hn.
  destruct (live_received rounds (c_ws c) n (Z.quot ms 1000 + 1) w Hrounds Hl Hn) as
    (hdr & b & h & w' & masks & E & Ht & Hl' & Hc' & Hg & Hms).
  assert (Hs : same (c_ws c) h) by (by eapply recv_loop_same).
  destruct (updated g c h Hid Hc Hs) as [Hu Hi]. pose proof (decode_pongs masks Hms) as Hp.
  rewrite <- (length_replicate (length masks) pong) in Hp at 1. destruct (said_app _ _ _ _ Hd Hp) as [Hd' Hsaid].
  exists (Some (update_conn (with_ws c h) g, w')). cbn [mqttread ws_platform]. unfold mqtt_ws_sock_read. unfold conn_of in Hc. rewrite Hc.
  cbn [mbind option_bind]. rewrite E. cbn [mbind option_bind r_rval r_len r_buf]. rewrite Z.min_id, Ht. split; [done|].
  cbn [ws_good ws_incoming ws_sent]. rewrite Hu, Hi, Hg, Hb0, <- app_assoc, !drop_app_length.
  split; [eexists _, _; split_and!; try done; by eexists|]. split; [done|]. rewrite Hsaid.
  replace (concat _) with (@nil Z); [by rewrite app_nil_r|]. clear. induction masks as [|m ms IH]; [done|exact IH].
Qed.

Lemma ws_write_law bs ms (s : option (ws_lib * W)) :
  ws_good s ->
  exists s', @mqttwrite _ (ws_platform rounds socket) bs ms s = (zlen bs, s') /\ ws_good s' /\ ws_incoming s' = ws_incoming s
  /\ ws_sent s' = ws_sent s ++ bs.
Proof.
  destruct s as [[g w]|]; [|done]. intros (c & fs & Hc & Hid & Hl & o & Hb0 & Hd).
  destruct (message_sent (c_ws c) bs (zlen bs) WS_OPCODE_BINARY w) as
    (h & w' & out & fs2 & k & E & _ & (b & Hh & Hb) & Ha & Hg & Hd2 & Hp & _); [by eapply live_buf_ok|pose proof (zlen_nonneg bs); lia|done|].
  assert (Hs : same (c_ws c) h) by (by subst h). destruct (updated g c h Hid Hc Hs) as [Hu Hi].
  destruct (said_app _ _ _ _ Hd Hd2) as [Hd' Hsaid].
  exists (Some (update_conn (with_ws c h) g, w')). cbn [mqttwrite ws_platform]. unfold mqtt_ws_sock_write. unfold conn_of in Hc. rewrite Hc.
  cbn [mbind option_bind]. unfold websock_send_binary. rewrite E. cbn [mbind option_bind]. split; [done|].
  cbn [ws_good ws_incoming ws_sent]. unfold conn_of at 3. rewrite Hc, Hu, Hi, Hg, Ha, Hb0, <- app_assoc, !drop_app_length.
  cbn [c_ws with_ws]. rewrite Hsaid, Hp. subst h.
  split; [eexists _, _; split_and!; try done; [by apply live_set_buf|by eexists]|]. split; [done|].
  by rewrite firstn_all2 by (unfold zlen; lia).
Qed.

#[refine] Instance ws_link : @Link (option (ws_lib * W)) (ws_platform rounds socket) T0 :=
  { incoming := ws_incoming; sent := ws_sent; good := ws_good }.
Proof.
  - intros [[g w]|]; [|done]. intros (c & fs & Hc & Hid & Hl & o & Hb0 & Hd). destruct (clock_law w) as (d & w' & E & Hd' & Ha & Hg).
    exists d, (Some (g, w')). cbn. rewrite E, Ha, Hg. split; [done|]. split; [done|]. split; [|done].
    exists c, fs. split_and!; try done. by exists o.
  - apply ws_read_law.
  - intros bs ms s. apply ws_write_law.
Defined.

End WsLink.

(** MQTT over a WebSocket.  [MQTTNetworkConnect_Ws] upgrades an HTTP
    connection, with the header that names the protocol after those of the
    application, and gives its socket; [MQTTConnect] over the functions of that
    back end then sends the request of the client in frames a decoder takes
    back to it, and, when the broker's answer arrives in one frame, with any
    pings before it, returns the code and the session flag of the answer and is
    connected exactly when the code is 0. *)
Theorem mqtt_over_websocket {W} `{!WsSystem W} `{!WsEnv W} `{!WsLink W} `{!WsWorks W} `{!NetClock W} {T0} `{!ClockLaw W T0}
    s1 s2 cfg reason hs b0 evs socket g (w : W) rounds mr (c : MQTTClient) o cn pings fn session code :
  0 <= s1 -> 0 <= s2 -> cfg_ok (add_protocol cfg) -> lib_inv g ->
  is_text reason -> hs <> [] -> Forall plain_header hs -> (length hs <= HTTP_MAX_RESP_HDRS)%nat ->
  zlen (first_piece (str "101") reason hs b0) <= MAX_RECV_BUF_SIZE ->
  (125 <= rounds)%nat -> Forall (fun pl => zlen pl <= 125) pings -> (length pings < rounds)%nat -> (2 <= mr)%nat ->
  arrived w = ping_frames pings ++ server_frame (mkFrame fn WS_OPCODE_BINARY (connack_packet session code)) ->
  isconnected c = 0 -> 1000 <= command_timeout_ms c <= 2000000 -> describes o cn -> MQTTSerialize_connectLength o < 268435456 ->
  MQTTPacket_len (MQTTSerialize_connectLength o) <= zlen (c_buf c) -> 4 <= zlen (readbuf c) < 2 ^ 32 ->
  0 <= session < 2 -> 0 <= code < 256 ->
  exists fd g' w' s' ping out fs g2 w2,
    MQTTNetworkConnect_Ws s1 s2 cfg (RData (first_piece (str "101") reason hs b0) :: evs) socket g w
      = Some (fd, fd, add_protocol cfg, g', w')
    /\ @MQTTConnectWithResults _ (ws_platform rounds fd) mr (Some o) (mkState c (Some (g', w')) [])
       = Some ((code, Some (code, session)), s')
    /\ isconnected (cl s') = (if code =? 0 then 1 else 0)
    /\ net s' = Some (g2, w2) /\ gone w2 = (gone w ++ upgrade_request (add_protocol cfg)) ++ out
    /\ hndshk_hdrs (add_protocol cfg) = hndshk_hdrs cfg ++ [(str "Sec-WebSocket-Protocol", str "mqtt")]
    /\ decode_frames (length out) out = Some fs /\ concat (map f_payload fs) = connect_packet cn ++ ping
    /\ (ping = [] \/ ping = ping_packet).
Proof.
  intros Hs1 Hs2 Hcfg Hg Hr Hne Hp Hcnt Hfirst Hrd Hps Hpn Hmr Ha Hconn Hto D Hsz Hbuf Hrb Hse Hco.
  destruct (open_answered s1 s2 (add_protocol cfg) (RData (first_piece (str "101") reason hs b0) :: evs) [mkCb 101 hs b0 0 false] 0 g w Hs1 Hs2 Hcfg)
    as (fd & w' & E & Ha' & Hg').
  { intros b Hb. apply (bodyless_received b false (str "101")); try done. split; [done|]. apply (bool_decide_unpack _); by vm_compute. }
  set (nc := new_conn _ _ _) in E. set (base := gone w ++ upgrade_request (add_protocol cfg)) in *.
  assert (Hinv : lib_inv (opened_lib g nc)) by exact (open_inv s1 s2 _ _ _ _ (Some nc) _ _ Hg E).
  assert (Hn : (WEBSOCK_MAX_HNDSHK_HDRS <=? zlen (hndshk_hdrs cfg)) = false).
  { destruct Hcfg as (_ & _ & _ & Hn & _). cbn in Hn. rewrite length_app in Hn. apply Z.leb_gt. unfold WEBSOCK_MAX_HNDSHK_HDRS, zlen. cbn in Hn. lia. }
  set (f := mkFrame fn WS_OPCODE_BINARY (connack_packet session code)) in *.
  assert (Hf : data_frame f) by (split_and!; done).
  assert (Hfound : conn_of fd (opened_lib g nc) = Some nc) by (unfold conn_of; cbn; by rewrite Z.eqb_refl).
  assert (Hbt : between (c_ws nc)) by (unfold between; cbn; split_and!; try done; by left).
  pose (L := ws_link (T0 := T0) base rounds fd Hrd).
  assert (Hgood : ws_good base rounds fd (Some (opened_lib g nc, w'))).
  { exists nc, []. split; [done|]. split; [apply Hinv|]. split; [|exists []; by rewrite app_nil_r]. rewrite Ha', Ha. by constructor. }
  destruct (@connect_exchange _ (ws_platform rounds fd) T0 L mr (mkState c (Some (opened_lib g nc, w')) []) o cn session code [])
    as (s' & ping & E2 & Ho & Hping & Hgood' & _ & _ & Hc & _); try done.
  { cbn [net incoming L ws_link ws_incoming]. rewrite Hfound, Ha', Ha, app_nil_r. by apply to_come_frame; [apply Hbt| |]. }
  cbn [good L ws_link] in Hgood'. destruct (net s') as [[g2 w2]|] eqn:En; [|done].
  destruct Hgood' as (c2 & fs & _ & _ & _ & out & Hg2 & Hd).
  exists fd, (opened_lib g nc), w', s', ping, out, fs, g2, w2. split.
  { unfold MQTTNetworkConnect_Ws. rewrite Hn, E. done. }
  split; [exact E2|]. split; [done|]. split; [done|]. split; [done|]. split; [done|]. split; [done|]. split; [|done].
  cbn [sent L ws_link ws_sent net] in Ho. rewrite Hg2, drop_app_length in Ho.
  unfold said in Ho. rewrite Hd in Ho. rewrite Ho, Hg'. rewrite drop_ge by done. done.
Qed.

#[global] Instance stack_clock : NetClock stack := fun w => (0, w).

#[global] Instance stack_clock_law : ClockLaw stack 0.
Proof. intros w. by exists 0, w. Qed.

Definition answer_net (a : bytes) : stack := mkNet (mkPipe a []) [] [].

Definition upgrade_response : bytes := first_piece (str "101") (str "Switching Protocols") [str "Upgrade: websocket"] [].

Lemma mqtt_over_websocket_witness :
  exists fd g' w' s' ping out fs g2 w2,
    MQTTNetworkConnect_Ws 200 300 sample_cfg (RData upgrade_response :: []) (-1) no_lib
      (answer_net (ping_frames [[1]] ++ server_frame (mkFrame true WS_OPCODE_BINARY (connack_packet 1 0))))
      = Some (fd, fd, add_protocol sample_cfg, g', w')
    /\ @MQTTConnectWithResults _ (ws_platform 200 fd) 2 (Some sample_options) (mkState (set_connected 0 sample_client) (Some (g', w')) [])
       = Some ((0, Some (0, 1)), s')
    /\ isconnected (cl s') = 1
    /\ net s' = Some (g2, w2) /\ p_out (n_pipe w2) = ([] ++ upgrade_request (add_protocol sample_cfg)) ++ out
    /\ hndshk_hdrs (add_protocol sample_cfg) = hndshk_hdrs sample_cfg ++ [(str "Sec-WebSocket-Protocol", str "mqtt")]
    /\ decode_frames (length out) out = Some fs /\ concat (map f_payload fs) = connect_packet MqttRoundTrip.sample_conn ++ ping
    /\ (ping = [] \/ ping = ping_packet).
Proof.
  destruct (mqtt_over_websocket (T0 := 0) 200 300 sample_cfg (str "Switching Protocols") [str "Upgrade: websocket"] [] [] (-1) no_lib
              (answer_net (ping_frames [[1]] ++ server_frame (mkFrame true WS_OPCODE_BINARY (connack_packet 1 0))))
              200 2 (set_connected 0 sample_client) sample_options MqttRoundTrip.sample_conn [[1]] true 1 0)
    as (fd & g' & w' & s' & ping & out & fs & g2 & w2 & E1 & E2 & E3 & E4 & E5 & E6 & E7 & E8 & E9).
  - lia.
  - lia.
  - unfold cfg_ok. split_and!; try done; [vm_compute; lia|by repeat constructor].
  - split_and!; try done; [constructor|]. intros i Hi. by apply elem_of_nil in Hi.
  - apply (bool_decide_unpack _); by vm_compute.
  - done.
  - apply Forall_singleton. split; [split; [done|apply (bool_decide_unpack _); by vm_compute]|done].
  - vm_compute. lia.
  - by vm_compute.
  - lia.
  - by repeat constructor.
  - cbn. lia.
  - lia.
  - done.
  - done.
  - cbn. lia.
  - exact sample_describes.
  - by vm_compute.
  - by vm_compute.
  - split; by vm_compute.
  - lia.
  - lia.
  - exists fd, g', w', s', ping, out, fs, g2, w2.
    exact (conj E1 (conj E2 (conj E3 (conj E4 (conj E5 (conj E6 (conj E7 (conj E8 E9)))))))).
Defined.

(** ** Packets and frames *)

Definition idle_lib : ws_lib := mkLib [sample_conn false] true false None 0 8.

(** A client that waits for 30 seconds. *)
Definition slow_client : MQTTClient :=
  mkClient 1 30000 (replicate 64 0) (replicate 64 0) 60 0 0 1 (replicate 5 free_slot) None 0 0.

(** A clock that goes on by a second each time it is read. *)
Definition ticking : NetClock stack := fun w =>
  (1000000 * zlen (n_closed w), mkNet (n_pipe w) (n_ready w) (0 :: n_closed w)).

(** The result of [MQTTConnect] when [a] arrives. *)
Definition connect_over (a : bytes) : option Z :=
  (fun r => r.1.1) <$> @MQTTConnectWithResults _ (@ws_platform _ _ ticking 200 3) 20 (Some sample_options)
                         (mkState slow_client (Some (idle_lib, answer_net a)) []).

Definition binary (bs : bytes) : frame := mkFrame true WS_OPCODE_BINARY bs.

(** An answer whose body is cut between two frames is taken for no answer. *)
Example split_packet_lost :
  connect_over (server_frame (binary (connack_packet 1 0))) = Some 0
  /\ connect_over (server_frame (binary (take 3 (connack_packet 1 0))) ++ server_frame (binary (drop 3 (connack_packet 1 0)))) = Some (-1).
Proof. split; vm_compute; reflexivity. Qed.

(** A frame without data counts as the two bytes of its header, none of which is
    stored. *)
Example empty_frame_counted :
  (fun r => (r.1.1, r.1.2)) <$> mqtt_ws_sock_read 200 3 10 0 idle_lib (answer_net (server_frame (binary []))) = Some (2, []).
Proof. vm_compute. reflexivity. Qed.
