(* ===== verification/Enroll.v ===== *)
(** * Secure-boot enrolment (apps/gordon/src/enroll.c)

    The secret of a device, from its SRAM or from fuses, encrypts the public key
    and the firmware key in the boot sector with the XEX mode of AES, written in
    software over the cipher engine.  The engine, the fuses and the encoder of
    the SRAM fingerprint are parameters.  Arrays of words are kept as the bytes
    they hold; [None] is a loop that leaves its buffer. *)

From S2P Require Import Prelude.

Definition CI_AES_ECBENC_128 : Z := 0x11af.
Definition CI_AES_ECBENC_256 : Z := 0x31bf.
Definition CI_ECB_DEC : Z := 0x8000.

Definition SECURE_BOOT_MODE_MASK : Z := 6.
Definition SECURE_BOOT_MODE_NORMAL : Z := 0.
Definition SECURE_BOOT_MODE_PUF : Z := 2.
Definition SECURE_BOOT_MODE_FUSE : Z := 4.
Definition EEXIST : Z := 17.
Definition ENXIO : Z := 6.

(** The offsets of the fields of [struct secure_boot]. *)
Definition offsetof_ecdsa_pub : Z := 2112.
Definition offsetof_enc_key : Z := 2176.

Record secure_boot := mkSecure { hda : bytes; ecdsa_pub : bytes; enc_key : bytes; fuse_of : bytes }.

(** ** The cipher *)

(** The engine: the control word of the header, the key and the input. *)
Class Engine := engine : Z -> bytes -> bytes -> bytes.

Section Cipher.
Context `{Engine}.

Definition cipher_ecb (key input : bytes) : bytes := engine CI_AES_ECBENC_256 (take 32 key) input.

Definition cipher_ecb_128 (key input : bytes) (inv : bool) : bytes :=
  engine (if inv then Z.lor CI_AES_ECBENC_128 CI_ECB_DEC else CI_AES_ECBENC_128) (take 16 key) input.

(** The loop over [data]: the new bytes and [carry]. *)
Fixpoint double_loop (data : bytes) (carry : Z) : bytes * Z :=
  match data with
  | [] => ([], carry)
  | d :: data =>
      let tmp := 2 * d + carry in
      let '(r, carry) := double_loop data (u8 (Z.shiftr tmp 8)) in
      (u8 tmp :: r, carry)
  end.

Definition cipher_gf2_mul (data : bytes) : bytes :=
  let '(r, carry) := double_loop data 0 in
  if negb (carry =? 0) then match r with d :: r => Z.lxor d 0x87 :: r | [] => [] end else r.

Fixpoint cipher_xor (d1 d2 : bytes) : bytes :=
  match d1, d2 with b1 :: d1, b2 :: d2 => Z.lxor b1 b2 :: cipher_xor d1 d2 | _, _ => [] end.

(** The loop over the blocks of [data]. *)
Fixpoint xex_loop (fuel : nat) (key k data : bytes) (inv : bool) : option bytes :=
  match data with
  | [] => Some []
  | _ =>
      match fuel with
      | O => None
      | S fuel =>
          if (length data <? 16)%nat then None
          else
            let tmp := cipher_ecb_128 key (cipher_xor (take 16 data) k) inv in
            rest ← xex_loop fuel key (cipher_gf2_mul k) (drop 16 data) inv;
            Some (cipher_xor tmp k ++ rest)
      end
  end.

(** [uint32_t k[4] = {sector, 0}] in memory *)
Definition sector_block (sector : Z) : bytes :=
  [u8 sector; u8 (Z.shiftr sector 8); u8 (Z.shiftr sector 16); u8 (Z.shiftr sector 24)] ++ replicate 12 0.

Definition cipher_xex_soft (key : bytes) (sector : Z) (data : bytes) (inv : bool) : option bytes :=
  let k := cipher_ecb_128 (drop 16 key) (sector_block sector) false in
  xex_loop (length data) key k data inv.

End Cipher.

(** ** Enrolment *)

Class Fuses (W : Type) := {
  os_efuse_read : Z -> W -> Z * W;
  os_efuse_write : Z -> Z -> W -> W;
  (** the power cycle of the SRAM and [puf_enroll_encode]: the helper data *)
  puf_encode : bytes -> W -> bytes * W;
}.

Definition EFUSE_SUPPORT : bool := true.

(** [(mode & bit) != 0] *)
Definition has (mode bit : Z) : bool := negb (Z.land mode bit =? 0).

(** Words of the array [fuse]. *)
Definition word_at (l : bytes) (i : Z) : Z :=
  bget l (4 * i) + 256 * bget l (4 * i + 1) + 65536 * bget l (4 * i + 2) + 16777216 * bget l (4 * i + 3).

Section Enroll.
Context {W : Type} `{Fuses W} `{Engine}.

Definition puf_enroll (bb : secure_boot) (secret : bytes) (w : W) : secure_boot * W :=
  let '(h, w) := puf_encode secret w in (mkSecure h (ecdsa_pub bb) (enc_key bb) (fuse_of bb), w).

Definition write_fuses (mode : Z) (fuse : bytes) (w : W) : W :=
  let w := os_efuse_write 0 (word_at fuse 0) w in
  if has mode 2 then
    let w := os_efuse_write 128 (word_at fuse 4) w in
    let w := os_efuse_write 160 (word_at fuse 5) w in
    let w := os_efuse_write 192 (word_at fuse 6) w in
    os_efuse_write 224 (word_at fuse 7) w
  else w.

(** The secret and the fuse words for the mode.  [uninit] is what the array
    [secret32] holds before it is set. *)
Definition choose_secret (uninit : bytes) (bb : secure_boot) (mode : Z) (secret fuse : bytes) (w : W) : bytes * secure_boot * bytes * W :=
  let '(secret32, bb, fuse, w) :=
    if has mode 1 then
      let secret32 := take 36 secret in
      let '(bb, w) := puf_enroll bb secret32 w in
      (secret32, bb, memcpy fuse 0 [SECURE_BOOT_MODE_PUF; 0; 0; 0], w)
    else (uninit, bb, fuse, w) in
  if has mode 2 then
    let s := take 16 secret in
    (memcpy secret32 0 (s ++ s), bb, memcpy (memcpy fuse 16 s) 0 [SECURE_BOOT_MODE_FUSE; 0; 0; 0], w)
  else (secret32, bb, fuse, w).

(** The fuses, in the device or in the boot sector; [false] is the return with
    [-ENXIO]. *)
Definition place_fuses (mode : Z) (fuse : bytes) (bb : secure_boot) (w : W) : bool * secure_boot * W :=
  if has mode 4 then
    let bb := mkSecure (hda bb) (ecdsa_pub bb) (enc_key bb) (replicate 32 0) in
    if has mode 8 then if EFUSE_SUPPORT then (true, bb, write_fuses mode fuse w) else (false, bb, w)
    else (true, bb, w)
  else (true, mkSecure (hda bb) (ecdsa_pub bb) (enc_key bb) fuse, w).

(** The result, the secure part of the boot sector and the new state. *)
Definition enroll (uninit : bytes) (bb : secure_boot) (mode : Z) (secret public_key cipher_key : bytes) (w : W)
  : option (Z * secure_boot * W) :=
  let '(f0, w) := os_efuse_read 0 w in
  let fuse := [u8 f0; u8 (Z.shiftr f0 8); u8 (Z.shiftr f0 16); u8 (Z.shiftr f0 24)] ++ replicate 28 0 in
  if negb (Z.land f0 SECURE_BOOT_MODE_MASK =? SECURE_BOOT_MODE_NORMAL) then Some (- EEXIST, bb, w)
  else
    let '(secret32, bb, fuse, w) := choose_secret uninit bb mode secret fuse w in
    let '(ok, bb, w) := place_fuses mode fuse bb w in
    if negb ok then Some (- ENXIO, bb, w)
    else
      let sb_secret := cipher_ecb secret32 (take 32 secret32) in
      pub ← cipher_xex_soft sb_secret offsetof_ecdsa_pub (take 64 public_key) true;
      key ← cipher_xex_soft sb_secret offsetof_enc_key (take 32 cipher_key) true;
      Some (0, mkSecure (hda bb) pub key (fuse_of bb), w).

End Enroll.

(** ** Doubling in the field of 2^128 elements *)

(** The bytes are the coefficients of a polynomial, the lowest first. *)

Lemma double_loop_value data : forall carry, is_bytes data -> 0 <= carry < 2 ->
  let '(r, c) := double_loop data carry in
  is_bytes r /\ zlen r = zlen data /\ 0 <= c < 2 /\ le_value r + 256 ^ zlen data * c = 2 * le_value data + carry.
Proof.
  induction data as [|d data IH]; intros carry Hb Hc; cbn [double_loop].
  { split_and!; try done; try lia. cbn [le_value]. change (256 ^ zlen _) with 1. lia. }
  inversion Hb as [|? ? Hd Hb']; subst. unfold is_byte in Hd. set (tmp := 2 * d + carry).
  assert (Hsh : Z.shiftr tmp 8 = tmp / 256) by (rewrite Z.shiftr_div_pow2; [done|lia]).
  assert (Hq : 0 <= tmp / 256 < 2) by (unfold tmp; Z.div_mod_to_equations; lia).
  rewrite Hsh, (u8_small (tmp / 256)) by lia. specialize (IH (tmp / 256) Hb' Hq).
  destruct (double_loop data (tmp / 256)) as [r c]. destruct IH as (Hr & Hz & Hc' & E). split_and!; try lia.
  - constructor; [apply u8_byte|done].
  - by rewrite !zlen_cons, Hz.
  - cbn [le_value]. rewrite zlen_cons, Z.pow_add_r by (pose proof (zlen_nonneg data); lia). change (256 ^ 1) with 256.
    unfold u8. change (2 ^ 8) with 256. pose proof (Z.div_mod tmp 256 ltac:(lia)) as Ht. unfold tmp in Ht at 1.
    set (m := tmp mod 256) in *. set (q := tmp / 256) in *. nia.
Qed.

(** Times [x] modulo [x^128 + x^7 + x^2 + x + 1]. *)
Definition gf_double (v : Z) : Z := if Z.testbit v 127 then Z.lxor (2 * v) (2 ^ 128 + 0x87) else 2 * v.

Lemma lxor_byte a b : is_byte a -> is_byte b -> is_byte (Z.lxor a b).
Proof.
  unfold is_byte. intros Ha Hb. rewrite <- (Z.mod_small a 256), <- (Z.mod_small b 256) by lia. change 256 with (2 ^ 8).
  rewrite <- !Z.land_ones by lia. replace (Z.lxor _ _) with (Z.land (Z.lxor a b) (Z.ones 8)).
  - rewrite Z.land_ones by lia. apply Z.mod_pos_bound. lia.
  - apply Z.bits_inj'. intros i Hi. rewrite Z.lxor_spec, !Z.land_spec, Z.lxor_spec. by destruct (Z.testbit a i), (Z.testbit b i), (Z.testbit (Z.ones 8) i).
Qed.

Lemma lxor_low d r : is_byte d -> Z.lxor (d + 256 * r) 0x87 = Z.lxor d 0x87 + 256 * r.
Proof.
  intros Hd.
  pose proof (lxor_byte d 0x87 Hd ltac:(by unfold is_byte)) as Hx. unfold is_byte in Hx, Hd.
  replace (d + 256 * r) with (Z.lor (Z.shiftl r 8) d) by (rewrite lor_shiftl by lia; change (2 ^ 8) with 256; lia).
  replace (Z.lxor d 0x87 + 256 * r) with (Z.lor (Z.shiftl r 8) (Z.lxor d 0x87)) by (rewrite lor_shiftl by lia; change (2 ^ 8) with 256; lia).
  apply Z.bits_inj'. intros i Hi. rewrite Z.lxor_spec, !Z.lor_spec, Z.lxor_spec. destruct (Z.testbit (Z.shiftl r 8) i) eqn:E; [|done].
  cbn [orb]. assert (8 <= i).
  { destruct (Z.le_gt_cases 8 i); [done|]. by rewrite Z.shiftl_spec_low in E. }
  rewrite (Z.bits_above_log2 0x87); [done|lia|cbn; lia].
Qed.

Lemma gf2_mul_value data : is_bytes data -> zlen data = 16 ->
  zlen (cipher_gf2_mul data) = 16 /\ is_bytes (cipher_gf2_mul data) /\ le_value (cipher_gf2_mul data) = gf_double (le_value data).
Proof.
  intros Hb Hz. pose proof (le_value_range data Hb) as Hv. rewrite Hz in Hv. change (256 ^ 16) with (2 ^ 128) in Hv.
  unfold cipher_gf2_mul. pose proof (double_loop_value data 0 Hb ltac:(lia)) as HH. destruct (double_loop data 0) as [r c].
  destruct HH as (Hr & Hzr & Hc & E). pose proof (le_value_range r Hr) as Hvr. rewrite Hzr, Hz in Hvr. rewrite Hz in E.
  change (256 ^ 16) with (2 ^ 128) in *. unfold gf_double.
  assert (Ht : Z.testbit (le_value data) 127 = negb (c =? 0)).
  { rewrite Z.testbit_odd, Z.shiftr_div_pow2 by lia. replace (le_value data / 2 ^ 127) with c; [by assert (c = 0 \/ c = 1) as [-> | ->] by lia|].
    assert (c = 0 \/ c = 1) as [-> | ->] by lia; Z.div_mod_to_equations; lia. }
  rewrite Ht. assert (c = 0 \/ c = 1) as [-> | ->] by lia; cbn [Z.eqb negb].
  - split_and!; [by rewrite Hzr|done|lia].
  - destruct r as [|d r]; [by rewrite Hz in Hzr|]. inversion Hr as [|? ? Hd Hr']; subst. split_and!.
    + by rewrite <- Hz, <- Hzr, !zlen_cons.
    + constructor; [|done]. by apply lxor_byte.
    + cbn [le_value] in *. rewrite <- lxor_low by done.
      replace (2 * le_value data) with (Z.lor (Z.shiftl 1 128) (d + 256 * le_value r)) by (rewrite lor_shiftl; lia).
      replace (2 ^ 128 + 135) with (Z.lor (Z.shiftl 1 128) 135) by done.
      apply Z.bits_inj'. intros i Hi. rewrite !Z.lxor_spec, !Z.lor_spec. destruct (Z.testbit (Z.shiftl 1 128) i) eqn:Es; [|done].
      rewrite Z.shiftl_1_l, Z.pow2_bits_eqb in Es by lia. apply Z.eqb_eq in Es as <-. cbn [orb xorb].
      rewrite <- (Z.mod_small (d + _) (2 ^ 128)), Z.mod_pow2_bits_high by lia. done.
Qed.

(** [cipher_gf2_mul] is the multiplication by [x] in the field of 2^128
    elements of the XEX mode: on sixteen bytes, the lowest first, it doubles the
    number and reduces it by the polynomial 0x87 when the top bit was set. *)
Theorem gf2_mul_doubles data : is_bytes data -> zlen data = 16 ->
  zlen (cipher_gf2_mul data) = 16 /\ is_bytes (cipher_gf2_mul data) /\ le_value (cipher_gf2_mul data) = gf_double (le_value data).
Proof. apply gf2_mul_value. Qed.

Lemma gf2_mul_doubles_witness :
  let data := replicate 15 0 ++ [129] in
  zlen (cipher_gf2_mul data) = 16 /\ is_bytes (cipher_gf2_mul data) /\ le_value (cipher_gf2_mul data) = gf_double (le_value data).
Proof. apply (gf2_mul_doubles (replicate 15 0 ++ [129])); [apply (bool_decide_unpack _); by vm_compute|done]. Defined.

(** ** The XEX mode *)

(** Encryption of one block undoes decryption with the same key, and the other
    way round; blocks stay blocks. *)
Class EngineLaws `{Engine} := {
  block_len : forall key b inv, length b = 16%nat -> length (cipher_ecb_128 key b inv) = 16%nat;
  block_inverse : forall key b inv, length b = 16%nat -> cipher_ecb_128 key (cipher_ecb_128 key b inv) (negb inv) = b;
}.

Lemma length_cipher_xor d1 : forall d2, length d1 = length d2 -> length (cipher_xor d1 d2) = length d1.
Proof. induction d1 as [|b d1 IH]; intros [|c d2] E; try done. cbn in *. f_equal. apply IH. lia. Qed.

Lemma cipher_xor_twice d1 : forall d2, length d1 = length d2 -> cipher_xor (cipher_xor d1 d2) d2 = d1.
Proof.
  induction d1 as [|b d1 IH]; intros [|c d2] E; try done. cbn in *. rewrite IH by lia. f_equal.
  by rewrite Z.lxor_assoc, Z.lxor_nilpotent, Z.lxor_0_r.
Qed.

Lemma length_double_loop data : forall carry, length (double_loop data carry).1 = length data.
Proof.
  induction data as [|d data IH]; intros carry; [done|]. cbn [double_loop].
  pose proof (IH (u8 (Z.shiftr (2 * d + carry) 8))) as E. destruct (double_loop data _) as [r c]. cbn in *. by rewrite E.
Qed.

Lemma length_gf2_mul data : length (cipher_gf2_mul data) = length data.
Proof.
  unfold cipher_gf2_mul. pose proof (length_double_loop data 0) as E. destruct (double_loop data 0) as [r c]. cbn in E. rewrite <- E.
  by destruct (negb _), r.
Qed.

Section Xex.
Context `{!Engine} `{!EngineLaws}.

(** [n] blocks. *)
Lemma xex_inverse n : forall fuel key k data inv, length data = (16 * n)%nat -> (n <= fuel)%nat -> length k = 16%nat ->
  exists out, xex_loop fuel key k data inv = Some out /\ length out = (16 * n)%nat
    /\ forall fuel', (n <= fuel')%nat -> xex_loop fuel' key k out (negb inv) = Some data.
Proof.
  induction n as [|n IH]; intros fuel key k data inv Hd Hf Hk.
  { destruct data; [|cbn in Hd; lia]. exists []. split; [by destruct fuel|]. split; [done|]. by intros []. }
  destruct fuel as [|fuel]; [lia|].
  destruct (IH fuel key (cipher_gf2_mul k) (drop 16 data) inv) as (out & E & Hl & Hinv); [rewrite length_drop; lia|lia|by rewrite length_gf2_mul|].
  assert (Ht : length (take 16 data) = 16%nat) by (rewrite length_take; lia).
  assert (Hx : length (cipher_xor (take 16 data) k) = 16%nat) by (rewrite length_cipher_xor; lia).
  set (tmp := cipher_ecb_128 key (cipher_xor (take 16 data) k) inv).
  assert (Htmp : length tmp = 16%nat) by (by apply block_len).
  assert (Hxt : length (cipher_xor tmp k) = 16%nat) by (rewrite length_cipher_xor; lia).
  exists (cipher_xor tmp k ++ out). split; [|split].
  - cbn [xex_loop]. destruct data as [|x data']; [cbn in Hd; lia|]. rewrite (proj2 (Nat.ltb_ge _ _)) by lia. by rewrite E.
  - rewrite length_app. lia.
  - intros [|fuel'] Hf'; [lia|]. cbn [xex_loop]. destruct (cipher_xor tmp k ++ out) as [|y l] eqn:Ec; [apply (f_equal length) in Ec; rewrite length_app in Ec; cbn in Ec; lia|].
    rewrite <- Ec. rewrite (proj2 (Nat.ltb_ge _ _)) by (rewrite length_app; lia).
    rewrite take_app_le, drop_app_le, take_ge, drop_ge by lia. cbn [app]. rewrite Hinv by lia. cbn [mbind option_bind].
    rewrite cipher_xor_twice by lia. unfold tmp. rewrite block_inverse, cipher_xor_twice by lia. by rewrite take_drop.
Qed.

Lemma xex_soft_inverse key sector data inv n : length data = (16 * n)%nat ->
  exists out, cipher_xex_soft key sector data inv = Some out /\ length out = (16 * n)%nat
    /\ cipher_xex_soft key sector out (negb inv) = Some data.
Proof.
  intros Hd. unfold cipher_xex_soft. set (k := cipher_ecb_128 (drop 16 key) (sector_block sector) false).
  assert (Hk : length k = 16%nat) by (by apply block_len).
  destruct (xex_inverse n (length data) key k data inv) as (out & E & Hl & Hi); [done|lia|done|].
  exists out. split; [done|]. split; [done|]. apply Hi. lia.
Qed.

End Xex.

(** The secret the keys are encrypted with. *)
Definition enrolled_secret `{Engine} (mode : Z) (secret : bytes) : bytes :=
  let s := if has mode 2 then take 16 secret ++ take 16 secret else take 32 secret in cipher_ecb s s.

(** The fuses the boot sector gets when they are emulated. *)
Definition emulated_fuses (mode : Z) (secret : bytes) : bytes :=
  if has mode 2 then [SECURE_BOOT_MODE_FUSE; 0; 0; 0] ++ replicate 12 0 ++ take 16 secret
  else [SECURE_BOOT_MODE_PUF; 0; 0; 0] ++ replicate 28 0.

Lemma choose_secret_spec {W} `{!Fuses W} uninit bb mode secret (f : bytes) (w : W) :
  length f = 4%nat -> length uninit = 36%nat -> length secret = 36%nat -> has mode 1 || has mode 2 = true ->
  let '(helper, w2) := if has mode 1 then puf_encode secret w else (hda bb, w) in
  exists secret32, choose_secret uninit bb mode secret (f ++ replicate 28 0) w
    = (secret32, mkSecure helper (ecdsa_pub bb) (enc_key bb) (fuse_of bb), emulated_fuses mode secret, w2)
  /\ take 32 secret32 = (if has mode 2 then take 16 secret ++ take 16 secret else take 32 secret).
Proof.
  intros Hf Hu Hs Hm. unfold choose_secret, puf_enroll, emulated_fuses. rewrite (take_ge secret 36) by lia.
  destruct f as [|f0 [|f1 [|f2 [|f3 [|]]]]]; try done. destruct bb as [hd ep ek fu].
  destruct (has mode 1); [destruct (puf_encode secret w) as [h w2]|]; (destruct (has mode 2); [|try done]);
    do 36 (destruct secret as [|? secret]; [done|]); (destruct secret; [|done]); do 36 (destruct uninit as [|? uninit]; [done|]);
    eexists; split; reflexivity.
Qed.

(** The fuse words a device is given, the first fuse of a word with its value:
    the mode in word 0 and, when the secret is kept in the fuses, its first
    sixteen bytes as four words, the lowest byte first, from fuse 128 on. *)
Definition fuse_words (mode : Z) (secret : bytes) : list (Z * Z) :=
  if has mode 2 then
    (0, SECURE_BOOT_MODE_FUSE)
      :: map (fun i => (128 + 32 * Z.of_nat i, le_value (take 4 (drop (4 * i) secret)))) (seq 0 4)
  else [(0, SECURE_BOOT_MODE_PUF)].

Definition blow {W} `{!Fuses W} (ws : list (Z * Z)) (w : W) : W := fold_left (fun w aw => os_efuse_write aw.1 aw.2 w) ws w.

Lemma write_fuses_spec {W} `{!Fuses W} mode secret (w : W) : length secret = 36%nat ->
  write_fuses mode (emulated_fuses mode secret) w = blow (fuse_words mode secret) w.
Proof.
  intros Hs. do 36 (destruct secret as [|? secret]; [done|]). destruct secret; [|done].
  unfold write_fuses, emulated_fuses, fuse_words, blow. destruct (has mode 2); cbn; [|done].
  unfold word_at. repeat match goal with |- context [bget ?l ?i] => let v := eval cbv in (bget l i) in change (bget l i) with v end.
  repeat (apply (f_equal3 os_efuse_write); [reflexivity|unfold SECURE_BOOT_MODE_FUSE; lia|]). reflexivity.
Qed.

(** C22: enrolment.  A device whose fuses carry a mode is left as it is.
    Otherwise, with a secret from the SRAM or for the fuses, the boot sector gets
    the two keys in a form from which the XEX encryption with that secret gives
    them back, the helper data of the SRAM if that is used, and the fuse words,
    or zeros when the real fuses are used.  The real fuses are written exactly
    when that is asked for, and then with the mode in word 0 and, when the secret
    is kept in fuses, with its first sixteen bytes in the four words from fuse
    128 on, and nothing else.  The arrays have their sizes (secret 36, keys 64
    and 32 bytes), and one of the two sources of the secret is chosen. *)
Theorem enroll_recovers {W} `{!Fuses W} `{!Engine} `{!EngineLaws} uninit bb mode secret public_key cipher_key (w : W) :
  length uninit = 36%nat -> length secret = 36%nat -> length public_key = 64%nat -> length cipher_key = 32%nat ->
  has mode 1 || has mode 2 = true ->
  let '(f0, w1) := os_efuse_read 0 w in
  let '(helper, w2) := if has mode 1 then puf_encode secret w1 else (hda bb, w1) in
  if Z.land f0 SECURE_BOOT_MODE_MASK =? 0 then
    exists bb', enroll uninit bb mode secret public_key cipher_key w
      = Some (0, bb', if has mode 4 && has mode 8 then blow (fuse_words mode secret) w2 else w2)
    /\ cipher_xex_soft (enrolled_secret mode secret) offsetof_ecdsa_pub (ecdsa_pub bb') false = Some public_key
    /\ cipher_xex_soft (enrolled_secret mode secret) offsetof_enc_key (enc_key bb') false = Some cipher_key
    /\ hda bb' = helper /\ fuse_of bb' = (if has mode 4 then replicate 32 0 else emulated_fuses mode secret)
  else enroll uninit bb mode secret public_key cipher_key w = Some (- EEXIST, bb, w1).
Proof.
  intros Hu Hs Hp Hc Hm. unfold enroll. destruct (os_efuse_read 0 w) as [f0 w1].
  set (f := [u8 f0; u8 (Z.shiftr f0 8); u8 (Z.shiftr f0 16); u8 (Z.shiftr f0 24)]).
  pose proof (choose_secret_spec uninit bb mode secret f w1 eq_refl Hu Hs Hm) as Hch.
  destruct (if has mode 1 then puf_encode secret w1 else (hda bb, w1)) as [helper w2]. destruct Hch as (secret32 & Ech & Esec).
  change SECURE_BOOT_MODE_NORMAL with 0. destruct (Z.land f0 SECURE_BOOT_MODE_MASK =? 0); cbn [negb]; [|done].
  rewrite Ech. clear Ech. set (sb := enrolled_secret mode secret).
  assert (Esb : cipher_ecb secret32 (take 32 secret32) = sb).
  { unfold sb, enrolled_secret, cipher_ecb. rewrite Esec. f_equal. destruct (has mode 2); [|by rewrite take_take].
    symmetry. apply take_ge. rewrite length_app, !length_take. lia. }
  destruct (xex_soft_inverse sb offsetof_ecdsa_pub public_key true 4 Hp) as (pub & Epub & _ & Rpub).
  destruct (xex_soft_inverse sb offsetof_enc_key cipher_key true 2 Hc) as (key & Ekey & _ & Rkey).
  unfold place_fuses. destruct (has mode 4), (has mode 8); cbn [andb EFUSE_SUPPORT negb hda fuse_of ecdsa_pub enc_key];
    rewrite Esb, (take_ge public_key), (take_ge cipher_key), Epub, Ekey by lia; cbn [mbind option_bind];
    (eexists; split; [by rewrite ?write_fuses_spec|]); done.
Qed.

(** An engine that adds the key to the block, and fuses as a list of writes. *)
Definition adder : Engine := fun _ k b => cipher_xor b (take (length b) (map (fun x => u8 (3 * x + 1)) k ++ replicate (length b) 0)).

Lemma adder_laws : @EngineLaws adder.
Proof.
  split; intros key b inv Hb; unfold cipher_ecb_128, engine, adder.
  - rewrite length_cipher_xor; [done|]. rewrite length_take, length_app, length_replicate. lia.
  - rewrite length_cipher_xor, cipher_xor_twice; rewrite ?length_take, ?length_app, ?length_replicate; lia || done.
Qed.

Definition fuse_log : Type := list (Z * Z).

#[global] Instance log_fuses : Fuses fuse_log := {
  os_efuse_read _ w := (0, w);
  os_efuse_write p v w := (p, v) :: w;
  puf_encode s w := (s, w);
}.

Definition blank_secure : secure_boot := mkSecure [] [] [] [].
Definition sample_secret : bytes := replicate 36 7.

Lemma enroll_recovers_witness :
  exists bb', @enroll fuse_log _ adder (replicate 36 0) blank_secure 14 sample_secret (replicate 64 1) (replicate 32 2) []
      = Some (0, bb', [(224, 117901063); (192, 117901063); (160, 117901063); (128, 117901063); (0, 4)])
    /\ @cipher_xex_soft adder (@enrolled_secret adder 14 sample_secret) offsetof_ecdsa_pub (ecdsa_pub bb') false = Some (replicate 64 1)
    /\ @cipher_xex_soft adder (@enrolled_secret adder 14 sample_secret) offsetof_enc_key (enc_key bb') false = Some (replicate 32 2)
    /\ hda bb' = [] /\ fuse_of bb' = replicate 32 0.
Proof. exact (@enroll_recovers fuse_log _ adder adder_laws (replicate 36 0) blank_secure 14 sample_secret (replicate 64 1) (replicate 32 2) [] eq_refl eq_refl eq_refl eq_refl eq_refl). Defined.

(** Without a source for the secret, the keys are encrypted with what the
    uninitialised array holds. *)
Example enroll_uninitialised :
  (fun r => r.1.2) <$> @enroll fuse_log _ adder (replicate 36 0) blank_secure 4 sample_secret (replicate 64 1) (replicate 32 2) []
  <> (fun r => r.1.2) <$> @enroll fuse_log _ adder (replicate 36 9) blank_secure 4 sample_secret (replicate 64 1) (replicate 32 2) [].
Proof. vm_compute. discriminate. Qed.
