(* ===== verification/Gordon.v ===== *)
(** * The flash programmer (apps/gordon/src)

    The program a host uses to fill the flash of a device: gordon.c answers the
    messages of its interface, part.c keeps the partition table, hash.c computes
    a digest, and sector_cache.c is the sector cache of SectorCache.v with one
    more function, [sector_cache_erase_sector].  The requests are the type
    [flash_req]; a handler gives the response and the new state, [None] is
    undefined behaviour or a failed [assert].  The accessors of a partition
    entry and the hash functions of the boot ROM are not in the repository and
    are classes. *)

From S2P Require Import Prelude Flash SectorCache Enroll.

Definition EINVAL : Z := 22.
Definition ENODEV : Z := 19.
Definition ENOENT : Z := 2.

(** ** Data *)

Record media_part := mkPart { entry0 : Z; entry1 : Z }.

Definition PARTITION_TABLE_MAGIC : Z := 0xff7c4170.
Definition PARTITION_TABLE_SIZE : Z := 16.

Record partition_table := mkTable { header : Z; part : list media_part }.

(** Offsets in [struct bootsector]. *)
Definition BOOTSECTOR_ADDRESS : Z := 0.
Definition offsetof_ptable : Z := 2240.
Definition offsetof_hwaddr : Z := 4068.
Definition offsetof_uuid : Z := 4080.
Definition PARTITION_TABLE_ADDRESS : Z := BOOTSECTOR_ADDRESS + offsetof_ptable.

(** The accessors of partition.h. *)
Class MediaPart := {
  media_part_init : media_part -> media_part;
  media_part_get_active : media_part -> bool;
  media_part_is_active : media_part -> bool;
  media_part_get_type : media_part -> Z;
  media_part_get_sector_start : media_part -> Z;
  media_part_get_sector_count : media_part -> Z;
  media_part_set_active : media_part -> bool -> media_part;
  media_part_set_sector_start : media_part -> Z -> media_part;
  media_part_set_sector_count : media_part -> Z -> media_part;
  media_part_set_type : media_part -> Z -> media_part;
}.

(** The table in memory. *)
Definition table_bytes (t : partition_table) : bytes :=
  word_le (header t) ++ concat (map (fun p => word_le (entry0 p) ++ word_le (entry1 p)) (part t)).

Fixpoint parts_of (n : nat) (l : bytes) : list media_part :=
  match n with
  | O => []
  | S n => mkPart (le_value (take 4 l)) (le_value (take 4 (drop 4 l))) :: parts_of n (drop 8 l)
  end.

Definition table_of (l : bytes) : partition_table :=
  mkTable (le_value (take 4 l)) (parts_of (Z.to_nat PARTITION_TABLE_SIZE) (drop 4 l)).

#[global] Arguments table_of : simpl never.

Definition sizeof_partition_table : Z := 132.

(** [struct spi_mem_params] *)
Record spi_mem_params := mkParams { mp_idcode : Z; mp_page_size : Z; mp_page_count : Z; mp_sector_size : Z }.

Definition spi_mem_get_sector_count (dev : spi_mem_params) : Z :=
  let pps := mp_sector_size dev / mp_page_size dev in mp_page_count dev / pps.

(** The variables of the program: those of gordon.c and part.c, and the cache. *)
Record gordon (D : Type) := mkGordon { spi_initialized : bool; ptable : partition_table; scache : SC D }.
Arguments mkGordon {D} _ _ _.
Arguments spi_initialized {D} _.
Arguments ptable {D} _.
Arguments scache {D} _.

(** ** Messages *)

Inductive flash_req :=
  | ReqIdentify
  | ReqRead (address length : Z)
  | ReqWrite (address : Z) (data : bytes)
  | ReqFlush
  | ReqHash (address length : Z)
  | ReqGetHwaddr
  | ReqSetHwaddr (hwaddr : bytes)
  | ReqGetUuid
  | ReqSetUuid (uuid : bytes)
  | ReqLoadTable (revert : Z)
  | ReqSaveTable
  | ReqGetPartition (index : Z)
  | ReqAddPartition (index type sect_start sect_count : Z)
  | ReqDeletePartition (index : Z)
  | ReqEraseSector (address : Z)
  | ReqFile.

(** The fields of a response that the code sets. *)
Inductive flash_rsp :=
  | RspStatus (status : Z)
  | RspIdentify (status page_size sector_size num_pages idcode : Z)
  | RspData (status : Z) (data : bytes)
  | RspPartition (type sect_start sect_count : Z).

(** ** sector_cache.c *)

Section Handlers.
Context {D : Type} `{Flash D} (os_systime : nat -> Z).

Definition erase_entry (address : Z) (c : sector_cache) : sector_cache :=
  if c_address c =? address then
    let state := match c_state c with VALID => EMPTY | DIRTY => EMPTY | s => s end in
    mkEntry 0 (c_lru c) state (c_data c)
  else c.

Definition sector_cache_erase_sector (s : SC D) (address : Z) : SC D :=
  mkSC (spi_sector_erase (sc_dev s) address) (map (erase_entry address) (sc_entries s)) (sc_clock s).

(** ** part.c *)

Section Parts.
Context `{MediaPart}.

(** A table without the magic number is replaced by an empty one. *)
Definition loaded_table (t : partition_table) : partition_table :=
  if negb (header t =? PARTITION_TABLE_MAGIC) then mkTable PARTITION_TABLE_MAGIC (map media_part_init (part t)) else t.

Definition handle_load_partition_table (revert : Z) (t : partition_table) (s : SC D) : option (Z * partition_table * SC D) :=
  if (revert =? 0) && (header t =? PARTITION_TABLE_MAGIC) then Some (0, t, s)
  else
    '(l, s) ← sector_cache_read os_systime s PARTITION_TABLE_ADDRESS sizeof_partition_table;
    Some (0, loaded_table (table_of l), s).

Definition handle_save_partition_table (t : partition_table) (s : SC D) : option (Z * SC D) :=
  s ← sector_cache_write os_systime s PARTITION_TABLE_ADDRESS (table_bytes t);
  Some (0, s).

(** The status, and the fields of the response when it is 0. *)
Definition handle_get_partition (index : Z) (t : partition_table) : option flash_rsp :=
  if negb (header t =? PARTITION_TABLE_MAGIC) then Some (RspStatus EINVAL)
  else if PARTITION_TABLE_SIZE <=? index then Some (RspStatus EINVAL)
  else
    mp ← part t !! Z.to_nat index;
    Some (if negb (media_part_is_active mp) then RspStatus ENOENT
          else RspPartition (media_part_get_type mp) (media_part_get_sector_start mp) (media_part_get_sector_count mp)).

Definition handle_add_partition (index type sect_start sect_count : Z) (t : partition_table) : option (Z * partition_table) :=
  if negb (header t =? PARTITION_TABLE_MAGIC) then Some (EINVAL, t)
  else if PARTITION_TABLE_SIZE <=? index then Some (EINVAL, t)
  else
    mp ← part t !! Z.to_nat index;
    if media_part_is_active mp then Some (EEXIST, t)
    else
      let mp := if negb (media_part_get_active mp) then media_part_init mp else mp in
      let mp := media_part_set_sector_start mp sect_start in
      let mp := media_part_set_sector_count mp sect_count in
      let mp := media_part_set_type mp type in
      Some (0, mkTable (header t) (<[Z.to_nat index := mp]> (part t))).

Definition handle_delete_partition (index : Z) (t : partition_table) : option (Z * partition_table) :=
  if negb (header t =? PARTITION_TABLE_MAGIC) then Some (EINVAL, t)
  else if PARTITION_TABLE_SIZE <=? index then Some (EINVAL, t)
  else
    mp ← part t !! Z.to_nat index;
    Some (0, mkTable (header t) (<[Z.to_nat index := media_part_set_active mp false]> (part t))).

End Parts.

(** ** hash.c *)

Class RomHash := {
  SHA256_CTX : Type;
  boot_sha256_init : SHA256_CTX;
  boot_sha256_update : SHA256_CTX -> bytes -> SHA256_CTX;
  boot_sha256_final : SHA256_CTX -> bytes;
}.

Definition CHUNK : Z := 4096.

(** With a data address of 0: the pieces go through one buffer. *)
Fixpoint spi_mem_read_section `{RomHash} (fuel : nat) (ctx : SHA256_CTX) (flash_addr len : Z) (s : SC D) : option (SHA256_CTX * SC D) :=
  if len =? 0 then Some (ctx, s)
  else match fuel with
       | O => None
       | S fuel =>
           let chunk := if CHUNK <? len then CHUNK else len in
           '(l, s) ← sector_cache_read os_systime s flash_addr chunk;
           spi_mem_read_section fuel (boot_sha256_update ctx l) (u32 (flash_addr + chunk)) (len - chunk) s
       end.

Definition handle_flash_hash `{RomHash} (flash_addr len : Z) (s : SC D) : option (bytes * SC D) :=
  '(ctx, s) ← spi_mem_read_section (Z.to_nat len) boot_sha256_init flash_addr len s;
  Some (boot_sha256_final ctx, s).

(** ** gordon.c *)

Context `{MediaPart} `{RomHash} (spi_dev : option spi_mem_params).
Abbreviation G := (gordon D).

Definition flash_identify (g : G) : flash_rsp * G :=
  let '(status, capacity, idcode) :=
    match spi_dev with
    | None => (ENODEV, 0, 2 ^ 32 - 1)
    | Some dev =>
        if negb (mp_sector_size dev =? SECTORSIZE) then (EINVAL, 0, 2 ^ 32 - 1)
        else if negb (mp_page_size dev =? PAGESIZE) then (EINVAL, 0, 2 ^ 32 - 1)
        else (0, mp_page_count dev, mp_idcode dev)
    end in
  (RspIdentify status PAGESIZE SECTORSIZE capacity idcode, mkGordon (status =? 0) (ptable g) (scache g)).

Definition with_cache (s : SC D) (g : G) : G := mkGordon (spi_initialized g) (ptable g) s.
Definition with_table (t : partition_table) (g : G) : G := mkGordon (spi_initialized g) t (scache g).

(** A handler whose first test is [!spi_initialized]. *)
Definition initialized (g : G) (k : option (flash_rsp * G)) : option (flash_rsp * G) :=
  if negb (spi_initialized g) then Some (RspStatus EINVAL, g) else k.

(** Bytes of the boot sector read and written by the two pairs of handlers. *)
Definition read_field (off len : Z) (g : G) : option (flash_rsp * G) :=
  initialized g ('(l, s) ← sector_cache_read os_systime (scache g) (BOOTSECTOR_ADDRESS + off) len; Some (RspData 0 l, with_cache s g)).

Definition write_field (off : Z) (data : bytes) (g : G) : option (flash_rsp * G) :=
  initialized g (s ← sector_cache_write os_systime (scache g) (BOOTSECTOR_ADDRESS + off) data; Some (RspStatus 0, with_cache s g)).

Definition flash_read (address len : Z) (g : G) : option (flash_rsp * G) :=
  initialized g ('(l, s) ← sector_cache_read os_systime (scache g) address len; Some (RspData 0 l, with_cache s g)).

Definition flash_write (address : Z) (data : bytes) (g : G) : option (flash_rsp * G) :=
  initialized g
    (s ← (if zlen data =? 0 then sector_cache_flush_all (scache g) else sector_cache_write os_systime (scache g) address data);
     Some (RspStatus 0, with_cache s g)).

Definition flash_flush (g : G) : option (flash_rsp * G) :=
  initialized g (s ← sector_cache_flush_all (scache g); Some (RspStatus 0, with_cache s g)).

Definition flash_hash (address len : Z) (g : G) : option (flash_rsp * G) :=
  initialized g ('(h, s) ← handle_flash_hash address len (scache g); Some (RspData 0 h, with_cache s g)).

Definition flash_get_hwaddr (g : G) : option (flash_rsp * G) := read_field offsetof_hwaddr 6 g.
Definition flash_set_hwaddr (hwaddr : bytes) (g : G) : option (flash_rsp * G) := write_field offsetof_hwaddr hwaddr g.
Definition flash_get_uuid (g : G) : option (flash_rsp * G) := read_field offsetof_uuid 16 g.
Definition flash_set_uuid (uuid : bytes) (g : G) : option (flash_rsp * G) := write_field offsetof_uuid uuid g.

Definition flash_load_partition_table (revert : Z) (g : G) : option (flash_rsp * G) :=
  initialized g
    ('(status, t, s) ← handle_load_partition_table revert (ptable g) (scache g); Some (RspStatus status, with_table t (with_cache s g))).

Definition flash_save_partition_table (g : G) : option (flash_rsp * G) :=
  initialized g ('(status, s) ← handle_save_partition_table (ptable g) (scache g); Some (RspStatus status, with_cache s g)).

Definition flash_get_partition (index : Z) (g : G) : option (flash_rsp * G) :=
  initialized g (r ← handle_get_partition index (ptable g); Some (r, g)).

Definition flash_add_partition (index type sect_start sect_count : Z) (g : G) : option (flash_rsp * G) :=
  initialized g ('(status, t) ← handle_add_partition index type sect_start sect_count (ptable g); Some (RspStatus status, with_table t g)).

Definition flash_delete_partition (index : Z) (g : G) : option (flash_rsp * G) :=
  initialized g ('(status, t) ← handle_delete_partition index (ptable g); Some (RspStatus status, with_table t g)).

Definition flash_erase_by_sector (address : Z) (g : G) : option (flash_rsp * G) :=
  initialized g
    (dev ← spi_dev;
     Some (if (spi_mem_get_sector_count dev <? address) || (address =? 0) then (RspStatus EINVAL, g)
           else (RspStatus 0, with_cache (sector_cache_erase_sector (scache g) (u32 (SECTORSIZE * address))) g))).

(** [ReqFile]: the requests for mounting, opening, removing, reading, writing
    and closing files, for directories to be opened and for a boot from RAM,
    whose weak functions are not replaced. *)
Definition flash_file_stub (g : G) : flash_rsp * G := (RspStatus EINVAL, g).

(** The table of handlers; [flash_enroll], below, has a state of its own. *)
Definition flash_api (r : flash_req) (g : G) : option (flash_rsp * G) :=
  match r with
  | ReqIdentify => Some (flash_identify g)
  | ReqRead a n => flash_read a n g
  | ReqWrite a d => flash_write a d g
  | ReqFlush => flash_flush g
  | ReqHash a n => flash_hash a n g
  | ReqGetHwaddr => flash_get_hwaddr g
  | ReqSetHwaddr h => flash_set_hwaddr h g
  | ReqGetUuid => flash_get_uuid g
  | ReqSetUuid u => flash_set_uuid u g
  | ReqLoadTable v => flash_load_partition_table v g
  | ReqSaveTable => flash_save_partition_table g
  | ReqGetPartition i => flash_get_partition i g
  | ReqAddPartition i ty st ct => flash_add_partition i ty st ct g
  | ReqDeletePartition i => flash_delete_partition i g
  | ReqEraseSector a => flash_erase_by_sector a g
  | ReqFile => Some (flash_file_stub g)
  end.

(** A session of the host. *)
Fixpoint flash_session (rs : list flash_req) (g : G) : option (list flash_rsp * G) :=
  match rs with
  | [] => Some ([], g)
  | r :: rs => '(a, g) ← flash_api r g; '(l, g) ← flash_session rs g; Some (a :: l, g)
  end.

(** The boot block in RAM: its secure part and the rest of it. *)
Definition secure_bytes (bb : secure_boot) : bytes := hda bb ++ ecdsa_pub bb ++ enc_key bb ++ fuse_of bb.

Definition flash_enroll {W} `{Fuses W} `{Engine} (uninit : bytes) (mode : Z) (secret ecdsa_key fw_key : bytes) (boot_block : secure_boot * bytes) (g : G) (w : W)
  : option (flash_rsp * (secure_boot * bytes) * G * W) :=
  if negb (spi_initialized g) then Some (RspStatus EINVAL, boot_block, g, w)
  else
    '(status, bb, w) ← enroll uninit boot_block.1 mode secret ecdsa_key fw_key w;
    if negb (status =? 0) then Some (RspStatus status, (bb, boot_block.2), g, w)
    else
      s ← sector_cache_write os_systime (scache g) BOOTSECTOR_ADDRESS (secure_bytes bb ++ boot_block.2);
      s ← sector_cache_flush_all s;
      Some (RspStatus 0, (bb, boot_block.2), with_cache s g, w).

End Handlers.

(** ** Types *)

(** A device gives the bytes asked for. *)
Class FlashTyped (D : Type) `{Flash D} :=
  read_typed : forall (d : D) a n, 0 <= n -> zlen (spi_mem_read d a n) = n /\ is_bytes (spi_mem_read d a n).

#[global] Instance laws_typed {D} `{FlashLaws D} : FlashTyped D.
Proof.
  intros d a n Hn. rewrite read_cells by done. split; [by apply zlen_cells|]. unfold cells. apply Forall_forall.
  intros x Hx. apply list_elem_of_fmap in Hx as (y & -> & _). apply cell_byte.
Qed.

(** The code returns, and its result satisfies [P]. *)
Definition gives {A} (m : option A) (P : A -> Prop) : Prop := exists a, m = Some a /\ P a.

Lemma gives_some {A} (a : A) (P : A -> Prop) : P a -> gives (Some a) P.
Proof. intros H. by exists a. Qed.

Lemma gives_bind {A B} (m : option A) (f : A -> option B) (P : A -> Prop) (Q : B -> Prop) :
  gives m P -> (forall a, P a -> gives (f a) Q) -> gives (m ≫= f) Q.
Proof. intros (a & -> & Ha) Hf. by apply Hf. Qed.

Section Typed.
Context {D : Type} `{!Flash D} `{!FlashTyped D} (os_systime : nat -> Z).

(** An entry holds a sector, from where a sector starts; there is an entry. *)
Definition entry_typed (c : sector_cache) : Prop :=
  Z.land (c_address c) (SECTORSIZE - 1) = 0 /\ zlen (c_data c) = SECTORSIZE /\ is_bytes (c_data c).
Definition cache_typed (s : SC D) : Prop := sc_entries s <> [] /\ Forall entry_typed (sc_entries s).

Lemma flush_typed d c : entry_typed c -> gives (sector_cache_flush d c) (fun r => entry_typed r.2).
Proof.
  intros Hc. unfold sector_cache_flush. destruct (c_state c); [by apply gives_some|by apply gives_some|].
  unfold sector_program. rewrite (proj1 Hc). cbn [Z.leb Z.compare SECTORSIZE negb Z.eqb]. destruct (if _ =? MUST_ERASE then _ else _) as [d1 p]. by apply gives_some.
Qed.

Lemma flush_entries_typed cs : forall d, Forall entry_typed cs ->
  gives (flush_entries d cs) (fun r => Forall entry_typed r.2 /\ length r.2 = length cs).
Proof.
  induction cs as [|c cs IH]; intros d Hcs; cbn [flush_entries]; [by apply gives_some|]. apply Forall_cons in Hcs as [Hc Hcs].
  destruct (flush_typed d c Hc) as ([d1 c1] & -> & Hc1). destruct (IH d1 Hcs) as ([d2 cs2] & -> & H2 & Hl).
  apply gives_some. cbn in *. by rewrite Hl; split; [constructor|].
Qed.

Lemma flush_all_typed s : cache_typed s -> gives (sector_cache_flush_all s) cache_typed.
Proof.
  intros [Hn Hs]. unfold sector_cache_flush_all. destruct (flush_entries_typed _ (sc_dev s) Hs) as ([d cs] & -> & H2 & Hl).
  apply gives_some. split; [|done]. cbn in *. destruct cs, (sc_entries s); done.
Qed.

(** One entry is always found. *)
Lemma find_loop_in cs : forall idx valid dirty n, (idx + length cs = n)%nat -> (cs = [] -> valid <> None \/ dirty <> None) ->
  (forall i c, valid = Some (i, c) -> i < n)%nat -> (forall i c, dirty = Some (i, c) -> i < n)%nat ->
  gives (find_loop cs idx valid dirty) (fun j => j < n)%nat.
Proof.
  induction cs as [|c cs IH]; intros idx valid dirty n Hn Hne Hv Hd; cbn [find_loop].
  - destruct valid as [[i v]|]; [apply gives_some; by eapply Hv|]. destruct dirty as [[i v]|]; [apply gives_some; by eapply Hd|]. by destruct (Hne eq_refl).
  - cbn [length] in Hn. destruct (c_state c); [apply gives_some; lia| |]; (apply IH; [lia| |try done|try done]).
    + intros _. left. destruct valid; [by destruct (older _ _)|done].
    + intros i c0. destruct (older c valid); [intros [= <- _]; lia|apply Hv].
    + intros _. right. destruct dirty; [by destruct (older _ _)|done].
    + intros i c0. destruct (older c dirty); [intros [= <- _]; lia|apply Hd].
Qed.

Lemma load_typed s a : cache_typed s ->
  gives (sector_cache_load s a) (fun r => cache_typed r.2 /\ gives (sc_entries r.2 !! r.1) entry_typed).
Proof.
  intros [Hne Hs]. unfold sector_cache_load. set (a0 := Z.land _ _).
  assert (Ha0 : Z.land a0 (SECTORSIZE - 1) = 0) by (unfold a0; rewrite <- Z.land_assoc; apply Z.land_0_r).
  apply (gives_bind _ _ (fun j => j < length (sc_entries s))%nat); [by apply find_loop_in|]. intros j Hj.
  destruct (lookup_lt_is_Some_2 _ _ Hj) as [c Ej]. rewrite Ej. cbn [mbind option_bind].
  assert (Hc : entry_typed c) by (by eapply Forall_lookup_1).
  apply (gives_bind _ _ (fun r => entry_typed r.2)); [destruct (negb _); [by apply flush_typed|by apply gives_some]|]. intros [d1 c1] Hc1.
  cbn [snd] in Hc1. apply gives_some. set (c2 := if _ || _ then _ else _). cbn [fst snd].
  assert (Hc2 : entry_typed c2) by (unfold c2; destruct (_ || _); [split; [done|]; by apply read_typed|done]).
  split; [split; cbn [sc_entries]|].
  - destruct (sc_entries s); [done|]. by destruct j.
  - by apply Forall_insert.
  - exists c2. split; [|done]. by apply list_lookup_insert_eq.
Qed.

Lemma touch_typed s i c : cache_typed s -> entry_typed c -> cache_typed (touch os_systime s i c).
Proof.
  intros [Hn Hs] Hc. split; [|by apply Forall_insert]. unfold touch. cbn [sc_entries]. destruct (sc_entries s); [done|]. by destruct i.
Qed.

Lemma read_typed_loop fuel : forall s a len, cache_typed s -> 0 <= len <= Z.of_nat fuel ->
  gives (read_loop os_systime fuel s a len) (fun r => cache_typed r.2 /\ zlen r.1 = len /\ is_bytes r.1).
Proof.
  induction fuel as [|fuel IH]; intros s a len Hs Hlen; cbn [read_loop]; destruct (Z.ltb_spec 0 len); try lia;
    try (apply gives_some; cbn [fst snd]; split; [done|]; split; [change (zlen []) with 0; lia|constructor]).
  eapply gives_bind; [by apply load_typed|]. intros [i s1] [Hs1 Hi]. cbn [fst snd] in *. eapply gives_bind; [exact Hi|]. intros c Hc. cbn beta zeta.
  set (n := Z.min _ _). pose proof (Z.mod_pos_bound a SECTORSIZE ltac:(done)) as Hm. assert (Hn : 0 < n <= len) by (unfold n; lia).
  eapply gives_bind; [apply IH; [by apply touch_typed|lia]|]. intros [rest s2] (H1 & H2 & H3). cbn [fst snd] in *.
  apply gives_some. destruct Hc as (_ & Hz & Hb). split; [done|]. cbn [fst snd].
  split; [|apply Forall_app; split; [by apply Forall_take, Forall_drop|done]]. rewrite zlen_app, H2, zlen_take; [lia|].
  rewrite zlen_drop by lia. unfold n. lia.
Qed.

Lemma write_typed_loop fuel : forall s a data, cache_typed s -> is_bytes data -> zlen data <= Z.of_nat fuel ->
  gives (write_loop os_systime fuel s a data) cache_typed.
Proof.
  induction fuel as [|fuel IH]; intros s a data Hs Hd Hf; cbn [write_loop]; destruct (Z.ltb_spec 0 (zlen data)); try lia; try (by apply gives_some).
  eapply gives_bind; [by apply load_typed|]. intros [i s1] [Hs1 Hi]. cbn [fst snd] in *. eapply gives_bind; [exact Hi|]. intros c Hc. cbn beta zeta.
  set (n := Z.min _ _). pose proof (Z.mod_pos_bound a SECTORSIZE ltac:(done)) as Hm. assert (Hn : 0 < n <= zlen data) by (unfold n; lia).
  destruct Hc as (Ha & Hz & Hb). apply IH; [apply touch_typed; [done|]|by apply Forall_drop|rewrite zlen_drop; lia]. split; [done|]. split; cbn [c_data].
  - rewrite zlen_memcpy; [done|lia|]. rewrite zlen_take by lia. unfold n. lia.
  - unfold memcpy, is_bytes. rewrite !Forall_app. split_and!; [by apply Forall_take|by apply Forall_take|by apply Forall_drop].
Qed.

Lemma erase_typed s a : cache_typed s -> cache_typed (sector_cache_erase_sector s a).
Proof.
  intros [Hn Hs]. unfold cache_typed, sector_cache_erase_sector. cbn [sc_entries]. split; [by destruct (sc_entries s)|].
  apply Forall_fmap. eapply Forall_impl; [exact Hs|]. intros c Hc. unfold erase_entry. cbn. destruct (c_address c =? a); [|done].
  destruct Hc as (_ & Hc). by split.
Qed.

Lemma hash_typed `{!RomHash} fuel : forall ctx a len s, cache_typed s -> 0 <= len <= Z.of_nat fuel ->
  gives (spi_mem_read_section os_systime fuel ctx a len s) (fun r => cache_typed r.2).
Proof.
  induction fuel as [|fuel IH]; intros ctx a len s Hs Hlen; cbn [spi_mem_read_section];
    destruct (Z.eqb_spec len 0); try (by apply gives_some); try lia. cbn zeta.
  set (chunk := if CHUNK <? len then CHUNK else len). assert (Hc : 0 < chunk <= len) by (unfold chunk, CHUNK; case_if; lia).
  eapply gives_bind; [apply read_typed_loop; [done|lia]|]. intros [l s1] (Hs1 & _). cbn [fst snd] in *. apply IH; [done|lia].
Qed.

End Typed.

Definition part_typed (p : media_part) : Prop := word (entry0 p) /\ word (entry1 p).

(** The accessors keep the words of an entry words. *)
Class PartTyped `{MediaPart} := {
  init_typed : forall p, part_typed p -> part_typed (media_part_init p);
  set_active_typed : forall p b, part_typed p -> part_typed (media_part_set_active p b);
  set_start_typed : forall p v, part_typed p -> word v -> part_typed (media_part_set_sector_start p v);
  set_count_typed : forall p v, part_typed p -> word v -> part_typed (media_part_set_sector_count p v);
  set_type_typed : forall p v, part_typed p -> word v -> part_typed (media_part_set_type p v);
}.

Definition table_typed (t : partition_table) : Prop :=
  word (header t) /\ zlen (part t) = PARTITION_TABLE_SIZE /\ Forall part_typed (part t).

Lemma le_word l : is_bytes l -> word (le_value (take 4 l)).
Proof.
  intros Hl. pose proof (le_value_range (take 4 l) (Forall_take _ _ _ Hl)) as H. unfold word. split; [lia|].
  eapply Z.lt_le_trans; [apply H|]. change (2 ^ 32) with (256 ^ 4). apply Z.pow_le_mono_r; [lia|]. unfold zlen. rewrite length_take. lia.
Qed.

Lemma parts_typed n : forall l, is_bytes l -> Forall part_typed (parts_of n l) /\ length (parts_of n l) = n.
Proof.
  induction n as [|n IH]; intros l Hl; [done|]. cbn [parts_of length]. destruct (IH (drop 8 l)) as [H1 H2]; [by apply Forall_drop|].
  split; [|by rewrite H2]. constructor; [|done]. split; cbn; apply le_word; [done|by apply Forall_drop].
Qed.

Lemma table_of_typed l : is_bytes l -> table_typed (table_of l).
Proof.
  intros Hl. destruct (parts_typed (Z.to_nat PARTITION_TABLE_SIZE) (drop 4 l)) as [H1 H2]; [by apply Forall_drop|].
  split; [by apply le_word|]. split; [|done]. unfold table_of, zlen. cbn [part]. by rewrite H2.
Qed.

Lemma table_bytes_typed t : is_bytes (table_bytes t).
Proof.
  assert (Hw : forall v, is_bytes (word_le v)) by (intros v; unfold word_le, is_bytes; rewrite !Forall_cons; unfold is_byte; split_and!; try apply Z.mod_pos_bound; done || constructor).
  unfold table_bytes, is_bytes in *. apply Forall_app. split; [apply Hw|]. induction (part t) as [|p ps IH]; [constructor|]. cbn [map concat].
  rewrite !Forall_app. split_and!; apply Hw || done.
Qed.

(** ** Sessions *)

Section Session.
Context {D : Type} `{!Flash D} `{!FlashTyped D} `{!MediaPart} `{!PartTyped} `{!RomHash} (os_systime : nat -> Z) (spi_dev : option spi_mem_params).

Definition gordon_typed (g : gordon D) : Prop :=
  table_typed (ptable g) /\ cache_typed (scache g)
  /\ (spi_initialized g = true -> exists dev, spi_dev = Some dev /\ mp_sector_size dev = SECTORSIZE /\ mp_page_size dev = PAGESIZE).

Definition req_typed (r : flash_req) : Prop :=
  match r with
  | ReqRead a n | ReqHash a n => word a /\ word n
  | ReqWrite a d => word a /\ is_bytes d
  | ReqSetHwaddr h => is_bytes h /\ zlen h = 6
  | ReqSetUuid u => is_bytes u /\ zlen u = 16
  | ReqGetPartition i | ReqDeletePartition i => word i
  | ReqAddPartition i ty st ct => word i /\ word ty /\ word st /\ word ct
  | ReqEraseSector a => word a
  | _ => True
  end.

(** The fields of a response have their sizes. *)
Definition rsp_typed (r : flash_req) (a : flash_rsp) : Prop :=
  match r, a with
  | ReqRead _ n, RspData s l => s = 0 /\ zlen l = n /\ is_bytes l
  | ReqGetHwaddr, RspData s l => s = 0 /\ zlen l = 6 /\ is_bytes l
  | ReqGetUuid, RspData s l => s = 0 /\ zlen l = 16 /\ is_bytes l
  | ReqHash _ _, RspData s _ => s = 0
  | ReqIdentify, RspIdentify _ _ _ _ _ => True
  | ReqGetPartition _, RspPartition _ _ _ => True
  | ReqIdentify, RspStatus _ => False
  | _, RspStatus s => True
  | _, _ => False
  end.

Lemma with_cache_typed g s : gordon_typed g -> cache_typed s -> gordon_typed (with_cache s g).
Proof. intros (Ha & _ & Hc) Hs. by split_and!. Qed.

Lemma with_table_typed g t : gordon_typed g -> table_typed t -> gordon_typed (with_table t g).
Proof. intros (_ & Hb & Hc) Ht. by split_and!. Qed.

Lemma read_cache_typed g a n : gordon_typed g -> 0 <= n ->
  gives (sector_cache_read os_systime (scache g) a n) (fun r => gordon_typed (with_cache r.2 g) /\ zlen r.1 = n /\ is_bytes r.1).
Proof.
  intros Hg Hn. destruct (read_typed_loop os_systime (Z.to_nat n) (scache g) a n) as (r & E & Ha & Hb); [apply Hg|lia|].
  exists r. split; [exact E|]. by split; [apply with_cache_typed|].
Qed.

Lemma write_cache_typed g a d : gordon_typed g -> is_bytes d ->
  gives (sector_cache_write os_systime (scache g) a d) (fun s => gordon_typed (with_cache s g)).
Proof.
  intros Hg Hd. destruct (write_typed_loop os_systime (length d) (scache g) a d) as (s & E & Hs); [apply Hg|done|done|].
  exists s. split; [exact E|]. by apply with_cache_typed.
Qed.

Lemma flush_cache_typed g : gordon_typed g -> gives (sector_cache_flush_all (scache g)) (fun s => gordon_typed (with_cache s g)).
Proof. intros Hg. destruct (flush_all_typed (scache g)) as (s & E & Hs); [apply Hg|]. exists s. split; [done|]. by apply with_cache_typed. Qed.

Lemma loaded_typed t : table_typed t -> table_typed (loaded_table t).
Proof.
  unfold loaded_table. intros (Hh & Hn & Hp). destruct (negb _); [|by split_and!]. split; [done|]. cbn [part].
  split; [rewrite <- Hn; unfold zlen; f_equal; by apply length_fmap|]. apply Forall_fmap. eapply Forall_impl; [exact Hp|]. intros p. apply init_typed.
Qed.

Lemma load_table_typed revert g : gordon_typed g ->
  gives (handle_load_partition_table os_systime revert (ptable g) (scache g)) (fun r => gordon_typed (with_table r.1.2 (with_cache r.2 g))).
Proof.
  intros Hg. unfold handle_load_partition_table. destruct (_ && _); [by apply gives_some; destruct g|].
  eapply gives_bind; [by apply read_cache_typed|]. intros [l s] (Ha & _ & Hb). apply gives_some. cbn [fst snd] in *.
  apply with_table_typed; [done|]. by apply loaded_typed, table_of_typed.
Qed.

Lemma change_part_typed t i p : table_typed t -> part_typed p -> table_typed (mkTable (header t) (<[i := p]> (part t))).
Proof. intros (Hh & Hn & Hp) Hq. split; [done|]. split; [unfold zlen in *; cbn; by rewrite length_insert|by apply Forall_insert]. Qed.

(** An index below the size of the table is the index of an entry. *)
Lemma entry_found t i : table_typed t -> word i -> i < PARTITION_TABLE_SIZE -> gives (part t !! Z.to_nat i) part_typed.
Proof.
  intros (_ & Hn & Hp) Hi Hlt. unfold word in Hi. destruct (lookup_lt_is_Some_2 (part t) (Z.to_nat i)) as [mp E]; [unfold zlen in Hn; lia|].
  exists mp. split; [done|]. by eapply Forall_lookup_1.
Qed.

Lemma get_typed i t : table_typed t -> word i -> gives (handle_get_partition i t) (rsp_typed (ReqGetPartition i)).
Proof.
  intros Ht Hi. unfold handle_get_partition. destruct (negb _); [by apply gives_some|]. destruct (Z.leb_spec PARTITION_TABLE_SIZE i); [by apply gives_some|].
  eapply gives_bind; [by apply entry_found|]. intros mp _. apply gives_some. by destruct (negb _).
Qed.

Lemma add_typed i ty st ct t : table_typed t -> word i -> word ty -> word st -> word ct ->
  gives (handle_add_partition i ty st ct t) (fun r => table_typed r.2).
Proof.
  unfold handle_add_partition. intros Ht Hi Hty Hst Hct. destruct (negb _); [by apply gives_some|].
  destruct (Z.leb_spec PARTITION_TABLE_SIZE i); [by apply gives_some|]. eapply gives_bind; [by apply entry_found|]. intros mp Hmp.
  destruct (media_part_is_active mp); apply gives_some; [done|]. apply change_part_typed; [done|].
  apply set_type_typed, Hty. apply set_count_typed, Hct. apply set_start_typed, Hst. destruct (negb _); [by apply init_typed|done].
Qed.

Lemma delete_typed i t : table_typed t -> word i -> gives (handle_delete_partition i t) (fun r => table_typed r.2).
Proof.
  unfold handle_delete_partition. intros Ht Hi. destruct (negb _); [by apply gives_some|].
  destruct (Z.leb_spec PARTITION_TABLE_SIZE i); [by apply gives_some|]. eapply gives_bind; [by apply entry_found|]. intros mp Hmp.
  apply gives_some. apply change_part_typed; [done|]. by apply set_active_typed.
Qed.

Lemma identify_typed g : gordon_typed g -> gordon_typed (flash_identify spi_dev g).2 /\ rsp_typed ReqIdentify (flash_identify spi_dev g).1.
Proof.
  unfold flash_identify. intros (Ha & Hb & Hc). destruct spi_dev as [dev|] eqn:Ed; [|by split_and!].
  destruct (Z.eqb_spec (mp_sector_size dev) SECTORSIZE) as [E1|E1]; [|by split_and!].
  destruct (Z.eqb_spec (mp_page_size dev) PAGESIZE) as [E2|E2]; [|by split_and!]. cbn [negb]. split; [|done]. split_and!; try done.
  intros _. exists dev. by rewrite Ed.
Qed.

Lemma initialized_gives g k (P : flash_rsp * gordon D -> Prop) :
  P (RspStatus EINVAL, g) -> (spi_initialized g = true -> gives k P) -> gives (initialized g k) P.
Proof. unfold initialized. destruct (spi_initialized g); intros Hs Hk; [by apply Hk|by apply gives_some]. Qed.

Lemma api_typed r g : gordon_typed g -> req_typed r ->
  gives (flash_api os_systime spi_dev r g) (fun x => gordon_typed x.2 /\ rsp_typed r x.1).
Proof.
  intros Hg Hr. destruct r as [|ad n|ad d| |ad n| |h| |u|v| |i|i ty st ct|i|ad|]; cbn [flash_api req_typed] in *.
  { apply gives_some. by apply identify_typed. }
  15:{ by apply gives_some. }
  all: apply initialized_gives; [by split|]; intros Hi.
  - eapply gives_bind; [apply read_cache_typed; [done|apply Hr]|]. intros [l s] (Ha & Hb). by apply gives_some; split; [|split].
  - eapply (gives_bind _ _ (fun s => gordon_typed (with_cache s g))).
    + destruct (zlen d =? 0); [by apply flush_cache_typed|apply write_cache_typed; [done|apply Hr]].
    + intros s Hs. by apply gives_some.
  - eapply gives_bind; [by apply flush_cache_typed|]. intros s Hs. by apply gives_some.
  - unfold handle_flash_hash. destruct (hash_typed os_systime (Z.to_nat n) boot_sha256_init ad n (scache g)) as ([ctx s] & E & Hs); [apply Hg|unfold word in Hr; lia|].
    rewrite E. apply gives_some. split; [by apply with_cache_typed|done].
  - eapply gives_bind; [by apply read_cache_typed|]. intros [l s] (Ha & Hb). by apply gives_some; split; [|split].
  - eapply gives_bind; [apply write_cache_typed; [done|apply Hr]|]. intros s Hs. by apply gives_some.
  - eapply gives_bind; [by apply read_cache_typed|]. intros [l s] (Ha & Hb). by apply gives_some; split; [|split].
  - eapply gives_bind; [apply write_cache_typed; [done|apply Hr]|]. intros s Hs. by apply gives_some.
  - eapply gives_bind; [by apply load_table_typed|]. intros [[st t] s] Ht. by apply gives_some.
  - destruct (write_cache_typed g PARTITION_TABLE_ADDRESS (table_bytes (ptable g)) Hg (table_bytes_typed _)) as (s & E & Hs).
    unfold handle_save_partition_table. rewrite E. by apply gives_some.
  - eapply gives_bind; [apply get_typed; [apply Hg|done]|]. intros r Ha. by apply gives_some.
  - destruct Hr as (Hx & Hty & Hst & Hct). eapply gives_bind; [apply add_typed; [apply Hg|done..]|]. intros [s t] Ht.
    apply gives_some. split; [by apply with_table_typed|done].
  - eapply gives_bind; [apply delete_typed; [apply Hg|done]|]. intros [s t] Ht. apply gives_some. split; [by apply with_table_typed|done].
  - destruct (proj2 (proj2 Hg) Hi) as (dev & Ed & _). rewrite Ed at 1. cbn [mbind option_bind]. apply gives_some.
    destruct (_ || _); [done|]. split; [|done]. apply with_cache_typed; [done|]. apply erase_typed, Hg.
Qed.

End Session.
