(* ===== verification/GordonProps.v ===== *)
(** * What the flash programmer does

    The partition table as a finite map, and its survival of a restart; flash
    contents after a session of writes and erasures, with what is read back and
    its digest. *)

From S2P Require Import Prelude Flash SectorCache Enroll Gordon.

(** The responses of a session, one for each request and of its form and size. *)
Definition responses_typed (rs : list flash_req) (l : list flash_rsp) : Prop := Forall2 rsp_typed rs l.


(** ** The partition table as a map *)

Definition media_part_type_unused : Z := 31.

(** The fields of an entry are independent, as the masks of partition.h lay them
    out; an entry is in use when it is not deleted and has a type. *)
Class MediaLaws `{MediaPart} := {
  start_set : forall p v, 0 <= v < 2 ^ 20 -> media_part_get_sector_start (media_part_set_sector_start p v) = v;
  start_count : forall p v, media_part_get_sector_start (media_part_set_sector_count p v) = media_part_get_sector_start p;
  start_type : forall p v, media_part_get_sector_start (media_part_set_type p v) = media_part_get_sector_start p;
  count_set : forall p v, 0 <= v < 2 ^ 20 -> media_part_get_sector_count (media_part_set_sector_count p v) = v;
  count_type : forall p v, media_part_get_sector_count (media_part_set_type p v) = media_part_get_sector_count p;
  type_set : forall p v, 0 <= v < 32 -> media_part_get_type (media_part_set_type p v) = v;
  active_start : forall p v, media_part_get_active (media_part_set_sector_start p v) = media_part_get_active p;
  active_count : forall p v, media_part_get_active (media_part_set_sector_count p v) = media_part_get_active p;
  active_init : forall p, media_part_get_active (media_part_init p) = true;
  used_type : forall p v, media_part_get_active p = true -> 0 <= v < media_part_type_unused -> media_part_is_active (media_part_set_type p v) = true;
  used_init : forall p, media_part_is_active (media_part_init p) = false;
  used_deleted : forall p, media_part_is_active (media_part_set_active p false) = false;
}.

Inductive part_req :=
  | PGet (index : Z)
  | PAdd (index type sect_start sect_count : Z)
  | PDelete (index : Z).

Definition part_msg (r : part_req) : flash_req :=
  match r with
  | PGet i => ReqGetPartition i
  | PAdd i ty st ct => ReqAddPartition i ty st ct
  | PDelete i => ReqDeletePartition i
  end.

Definition part_req_ok (r : part_req) : Prop :=
  match r with
  | PGet i | PDelete i => 0 <= i
  | PAdd i ty st ct => 0 <= i /\ 0 <= ty < media_part_type_unused /\ 0 <= st < 2 ^ 20 /\ 0 <= ct < 2 ^ 20
  end.

(** The partitions by their index: type, first sector and number of sectors. *)
Abbreviation parts := (gmap Z (Z * Z * Z)).

(** What the interface promises. *)
Definition part_spec (r : part_req) (m : parts) : flash_rsp * parts :=
  match r with
  | PGet i =>
      (if PARTITION_TABLE_SIZE <=? i then RspStatus EINVAL
       else match m !! i with Some (ty, st, ct) => RspPartition ty st ct | None => RspStatus ENOENT end, m)
  | PAdd i ty st ct =>
      if PARTITION_TABLE_SIZE <=? i then (RspStatus EINVAL, m)
      else match m !! i with
           | Some _ => (RspStatus EEXIST, m)
           | None => (RspStatus 0, <[i := (ty, st, ct)]> m)
           end
  | PDelete i => if PARTITION_TABLE_SIZE <=? i then (RspStatus EINVAL, m) else (RspStatus 0, delete i m)
  end.

Fixpoint part_specs (rs : list part_req) (m : parts) : list flash_rsp * parts :=
  match rs with
  | [] => ([], m)
  | r :: rs => let '(a, m) := part_spec r m in let '(l, m) := part_specs rs m in (a :: l, m)
  end.

Section Parts.
Context `{!MediaPart} `{!MediaLaws}.

Definition part_info (p : media_part) : option (Z * Z * Z) :=
  if media_part_is_active p then Some (media_part_get_type p, media_part_get_sector_start p, media_part_get_sector_count p) else None.

(** The table holds the map. *)
Definition holds_parts (t : partition_table) (m : parts) : Prop :=
  header t = PARTITION_TABLE_MAGIC /\ zlen (part t) = PARTITION_TABLE_SIZE
  /\ forall i, 0 <= i -> m !! i = (if PARTITION_TABLE_SIZE <=? i then None else part t !! Z.to_nat i ≫= part_info).

Lemma entry_there t i : zlen (part t) = PARTITION_TABLE_SIZE -> 0 <= i < PARTITION_TABLE_SIZE -> exists p, part t !! Z.to_nat i = Some p.
Proof. intros Hz Hi. apply lookup_lt_is_Some_2. unfold zlen in Hz. lia. Qed.

(** One entry is changed. *)
Lemma holds_changed t m i p (v : option (Z * Z * Z)) :
  holds_parts t m -> 0 <= i < PARTITION_TABLE_SIZE -> part_info p = v ->
  holds_parts (mkTable (header t) (<[Z.to_nat i := p]> (part t))) (partial_alter (fun _ => v) i m).
Proof.
  intros (Hh & Hz & Hm) Hi Hv. split; [done|]. split; [cbn; unfold zlen in *; by rewrite length_insert|]. intros j Hj. cbn [part].
  destruct (decide (j = i)) as [->|Hne].
  - rewrite lookup_partial_alter_eq, (proj2 (Z.leb_gt _ _)) by lia. rewrite list_lookup_insert_eq by (unfold zlen in Hz; lia). done.
  - rewrite lookup_partial_alter_ne by done. rewrite Hm by done. destruct (_ <=? _); [done|]. by rewrite list_lookup_insert_ne by lia.
Qed.

Lemma add_refines t m i ty st ct : holds_parts t m -> part_req_ok (PAdd i ty st ct) ->
  exists s t', handle_add_partition i ty st ct t = Some (s, t') /\ (RspStatus s, (part_spec (PAdd i ty st ct) m).2) = part_spec (PAdd i ty st ct) m
    /\ holds_parts t' (part_spec (PAdd i ty st ct) m).2.
Proof.
  intros HR (Hi & Hty & Hst & Hct). pose proof HR as (Hh & Hz & Hm). unfold handle_add_partition, part_spec. rewrite Hh, Z.eqb_refl. cbn [negb].
  destruct (Z.leb_spec PARTITION_TABLE_SIZE i) as [Hge|Hlt]; [by exists EINVAL, t|].
  destruct (entry_there t i Hz) as [p Ep]; [lia|]. rewrite Hm, (proj2 (Z.leb_gt _ _)), Ep by lia. cbn [mbind option_bind].
  unfold part_info. destruct (media_part_is_active p) eqn:Ea; [by exists EEXIST, t|].
  set (p0 := if negb (media_part_get_active p) then media_part_init p else p).
  assert (Hp0 : media_part_get_active p0 = true) by (unfold p0; destruct (media_part_get_active p) eqn:E; [done|apply active_init]).
  eexists 0, _. split; [done|]. split; [done|]. cbn [snd]. set (p1 := media_part_set_type _ _).
  pose proof (holds_changed t m i p1 (Some (ty, st, ct)) HR ltac:(lia)) as Hc. rewrite Hh in Hc. apply Hc. unfold p1. unfold part_info. rewrite used_type; [|by rewrite active_count, active_start|done].
  by rewrite type_set, start_type, start_count, start_set, count_type, count_set by (unfold media_part_type_unused in *; lia).
Qed.

Lemma delete_refines t m i : holds_parts t m -> 0 <= i ->
  exists s t', handle_delete_partition i t = Some (s, t') /\ (RspStatus s, (part_spec (PDelete i) m).2) = part_spec (PDelete i) m
    /\ holds_parts t' (part_spec (PDelete i) m).2.
Proof.
  intros HR Hi. pose proof HR as (Hh & Hz & Hm). unfold handle_delete_partition, part_spec. rewrite Hh, Z.eqb_refl. cbn [negb].
  destruct (Z.leb_spec PARTITION_TABLE_SIZE i) as [Hge|Hlt]; [by exists EINVAL, t|].
  destruct (entry_there t i Hz) as [p Ep]; [lia|]. rewrite Ep. cbn [mbind option_bind]. eexists 0, _. split; [done|]. split; [done|]. cbn [snd].
  pose proof (holds_changed t m i (media_part_set_active p false) None HR ltac:(lia)) as Hc. rewrite Hh in Hc. apply Hc. unfold part_info. by rewrite used_deleted.
Qed.

Lemma get_refines t m i : holds_parts t m -> 0 <= i -> handle_get_partition i t = Some (part_spec (PGet i) m).1.
Proof.
  intros (Hh & Hz & Hm) Hi. unfold handle_get_partition, part_spec. rewrite Hh, Z.eqb_refl. cbn [negb fst].
  destruct (Z.leb_spec PARTITION_TABLE_SIZE i) as [Hge|Hlt]; [done|].
  destruct (entry_there t i Hz) as [p Ep]; [lia|]. rewrite Hm, (proj2 (Z.leb_gt _ _)), Ep by lia. cbn [mbind option_bind]. unfold part_info.
  by destruct (media_part_is_active p).
Qed.

End Parts.

(** C19: the partition table is a finite map.  On a program that is ready and
    whose table holds a map from indices to partitions, any sequence of requests
    to get, add and delete partitions, in which the partitions to add have a type
    below 31 and a start and a number of sectors below 2^20, the widths of the
    fields ([part_req_ok]), is answered as the map answers it: a partition that is
    there is described and not replaced, one that is not is reported, an index
    beyond the table is refused; and the table then holds the map the requests
    lead to.  The type 31 is left out because it marks an unused entry: such a
    partition is added with success and is not there ([unused_type_lost]). *)
Theorem partitions_refine {D} `{!Flash D} `{!MediaPart} `{!MediaLaws} `{!RomHash} os_systime spi_dev rs (g : gordon D) (m : parts) :
  spi_initialized g = true -> holds_parts (ptable g) m -> Forall part_req_ok rs ->
  exists t, flash_session os_systime spi_dev (map part_msg rs) g = Some ((part_specs rs m).1, with_table t g)
    /\ holds_parts t (part_specs rs m).2.
Proof.
  revert g m. induction rs as [|r rs IH]; intros g m Hi HR Hok; cbn [map flash_session part_specs].
  { exists (ptable g). by destruct g. }
  apply Forall_cons in Hok as [Hr Hok].
  assert (Hstep : exists t, flash_api os_systime spi_dev (part_msg r) g = Some ((part_spec r m).1, with_table t g) /\ holds_parts t (part_spec r m).2).
  { destruct r as [i|i ty st ct|i]; cbn [part_msg flash_api]; unfold flash_get_partition, flash_add_partition, flash_delete_partition, initialized; rewrite Hi; cbn [negb].
    - rewrite (get_refines _ m) by done. exists (ptable g). by destruct g.
    - destruct (add_refines _ m i ty st ct HR Hr) as (s & t & -> & <- & Ht). cbn [mbind option_bind fst snd]. by exists t.
    - destruct (delete_refines _ m i HR Hr) as (s & t & -> & <- & Ht). cbn [mbind option_bind fst snd]. by exists t. }
  destruct Hstep as (t & E & Ht). rewrite E. cbn [mbind option_bind]. destruct (part_spec r m) as [a m1]. cbn [fst snd] in *.
  destruct (IH (with_table t g) m1) as (t2 & E2 & Ht2); [done|done|done|]. rewrite E2. cbn [mbind option_bind].
  exists t2. destruct (part_specs rs m1) as [l m2]. by destruct g.
Qed.

(** ** The table on flash *)

Lemma parts_of_bytes ps : Forall part_typed ps ->
  parts_of (length ps) (concat (map (fun p => word_le (entry0 p) ++ word_le (entry1 p)) ps)) = ps.
Proof.
  induction 1 as [|p ps [H0 H1] _ IH]; [done|]. cbn [map concat length parts_of]. rewrite <- app_assoc, le_word_le by done.
  change (drop 4 (word_le (entry0 p) ++ _)) with (word_le (entry1 p) ++ concat (map (fun p => word_le (entry0 p) ++ word_le (entry1 p)) ps)).
  rewrite le_word_le by done.
  change (drop 8 _) with (concat (map (fun p => word_le (entry0 p) ++ word_le (entry1 p)) ps)). rewrite IH. by destruct p.
Qed.

Lemma table_roundtrip t : table_typed t -> table_of (table_bytes t) = t /\ zlen (table_bytes t) = sizeof_partition_table.
Proof.
  intros (Hh & Hz & Hp). unfold table_of, table_bytes. rewrite le_word_le by done. split.
  - change (drop 4 (word_le (header t) ++ _)) with (concat (map (fun p => word_le (entry0 p) ++ word_le (entry1 p)) (part t))).
    rewrite <- Hz. unfold zlen at 1. rewrite Nat2Z.id, parts_of_bytes by done. by destruct t.
  - rewrite zlen_app. change (zlen (word_le _)) with 4.
    assert (E : zlen (concat (map (fun p => word_le (entry0 p) ++ word_le (entry1 p)) (part t))) = 8 * zlen (part t)).
    { clear. induction (part t) as [|p ps IH]; [done|]. cbn [map concat]. rewrite zlen_app, IH, zlen_cons. change (zlen (_ ++ _)) with 8. lia. }
    rewrite E, Hz. done.
Qed.

(** A program that has just been started. *)
Definition zero_table : partition_table := mkTable 0 (replicate 16 (mkPart 0 0)).
Definition started {D} (s : SC D) : gordon D := mkGordon false zero_table s.

Definition usable (dev : spi_mem_params) : Prop := mp_sector_size dev = SECTORSIZE /\ mp_page_size dev = PAGESIZE.

Lemma identify_ready {D} `{!Flash D} dev (g : gordon D) : usable dev ->
  flash_identify (Some dev) g = (RspIdentify 0 PAGESIZE SECTORSIZE (mp_page_count dev) (mp_idcode dev), mkGordon true (ptable g) (scache g)).
Proof. intros [E1 E2]. unfold flash_identify. by rewrite E1, E2, !Z.eqb_refl. Qed.

Section Stored.
Context {D : Type} `{FlashLaws D} (os_systime : nat -> Z).

Lemma cache_read_one s c a n : wf s c -> 0 <= a -> 0 <= n -> a + n <= 2 ^ 32 ->
  exists s' c', sector_cache_read os_systime s a n = Some (cells (view s) a n, s') /\ wf s' c' /\ forall x, view s' x = view s x.
Proof. intros Hw Ha Hn Hl. apply (read_loop_one os_systime _ s c); try done. lia. Qed.

Lemma cache_write_one s c a data : wf s c -> 0 <= a -> a + zlen data <= 2 ^ 32 -> is_bytes data -> write_storable (view s) a data ->
  exists s' c', sector_cache_write os_systime s a data = Some s' /\ wf s' c' /\ forall x, view s' x = overlay (view s) a data x.
Proof. intros Hw Ha Hn Hb Hs. by apply (write_loop_one os_systime _ s c). Qed.

End Stored.

(** C20: the partition table survives a restart.  After it was saved and the
    cache was flushed, a program started anew on the same flash with a cache of
    one sector finds the device and loads the table it was.  Shown for a program
    that is ready, with a device of the right page and sector size and a cache of
    one sector ([wf]; with two, an old copy of the sector can be read), for a
    table with the magic number, when the boot sector with the table in it is one
    the cache can store ([write_storable]: each page is blank or programmed both
    at an even and at an odd offset). *)
Theorem table_survives {D} `{FlashLaws D} `{!MediaPart} `{!RomHash} os_systime dev (g : gordon D) c :
  usable dev -> spi_initialized g = true -> wf (scache g) c -> table_typed (ptable g) -> header (ptable g) = PARTITION_TABLE_MAGIC ->
  write_storable (view (scache g)) PARTITION_TABLE_ADDRESS (table_bytes (ptable g)) ->
  exists g1, flash_session os_systime (Some dev) [ReqSaveTable; ReqFlush] g = Some ([RspStatus 0; RspStatus 0], g1)
  /\ forall k zalloc s, sector_cache_init (sc_dev (scache g1)) k 1 zalloc = Some s ->
     exists a g2, flash_session os_systime (Some dev) [ReqIdentify; ReqLoadTable 0] (started s) = Some ([a; RspStatus 0], g2)
     /\ ptable g2 = ptable g /\ spi_initialized g2 = true.
Proof.
  intros Hdev Hi Hw Ht Hh Hst. destruct (table_roundtrip _ Ht) as [Hrt Hz].
  destruct (cache_write_one os_systime (scache g) c PARTITION_TABLE_ADDRESS (table_bytes (ptable g))) as (s1 & c1 & E1 & Hw1 & Hv1);
    [done|done|by rewrite Hz|apply table_bytes_typed|done|].
  destruct (flush_all_one s1 c1 Hw1) as (s2 & c2 & E2 & _ & _ & Hf).
  exists (with_cache s2 (with_cache s1 g)). split.
  { cbn [flash_session flash_api]. unfold flash_save_partition_table, handle_save_partition_table, initialized. rewrite Hi. cbn [negb].
    rewrite E1. cbn [mbind option_bind]. unfold flash_flush, initialized. cbn [spi_initialized with_cache scache]. rewrite Hi. cbn [negb]. by rewrite E2. }
  intros k zalloc s Es. cbn [scache with_cache] in Es. destruct (init_one (sc_dev s2) k 1 zalloc s ltac:(lia) Es) as (c3 & Hw3 & Hv3).
  destruct (cache_read_one os_systime s c3 PARTITION_TABLE_ADDRESS sizeof_partition_table Hw3) as (s4 & c4 & E4 & _ & _); [done|done|done|].
  assert (Hcells : cells (view s) PARTITION_TABLE_ADDRESS sizeof_partition_table = table_bytes (ptable g)).
  { rewrite <- (cells_bget (table_bytes (ptable g))), Hz. apply cells_shift. intros i Hi'. rewrite Hv3. destruct (Hf (PARTITION_TABLE_ADDRESS + i)) as [_ ->].
    rewrite Hv1. unfold overlay. rewrite Hz, (proj2 (Z.leb_le _ _)), (proj2 (Z.ltb_lt _ _)) by lia. cbn [andb]. f_equal. lia. }
  rewrite Hcells in E4. cbn [flash_session flash_api]. rewrite identify_ready by done. cbn [mbind option_bind].
  unfold flash_load_partition_table, initialized. cbn [spi_initialized negb]. unfold handle_load_partition_table. cbn [ptable scache started].
  change ((0 =? 0) && (header zero_table =? PARTITION_TABLE_MAGIC)) with false. cbn [mbind option_bind]. rewrite E4. cbn [mbind option_bind].
  rewrite Hrt. unfold loaded_table. rewrite Hh, Z.eqb_refl. cbn [negb]. eexists _, _. by split.
Qed.

(** ** Programming *)

Inductive prog_op := OpWrite (address : Z) (data : bytes) | OpErase (sector : Z).

Definition op_msg (o : prog_op) : flash_req := match o with OpWrite a d => ReqWrite a d | OpErase k => ReqEraseSector k end.

(** The contents of the flash after an operation. *)
Definition op_image (f : Z -> Z) (o : prog_op) : Z -> Z :=
  match o with
  | OpWrite a d => overlay f a d
  | OpErase k => fun x => if (SECTORSIZE * k <=? x) && (x <? SECTORSIZE * k + SECTORSIZE) then 255 else f x
  end.

Definition op_ok (dev : spi_mem_params) (f : Z -> Z) (o : prog_op) : Prop :=
  match o with
  | OpWrite a d => 0 <= a /\ a + zlen d <= 2 ^ 32 /\ is_bytes d /\ write_storable f a d
  | OpErase k => 0 < k < 2 ^ 20 /\ k < spi_mem_get_sector_count dev
  end.

Fixpoint ops_ok (dev : spi_mem_params) (f : Z -> Z) (ops : list prog_op) : Prop :=
  match ops with [] => True | o :: ops => op_ok dev f o /\ ops_ok dev (op_image f o) ops end.

(** The digest does not depend on how the bytes are cut into pieces. *)
Class RomLaws `{RomHash} := {
  update_nil : forall ctx, boot_sha256_update ctx [] = ctx;
  update_app : forall ctx a b, boot_sha256_update (boot_sha256_update ctx a) b = boot_sha256_update ctx (a ++ b);
}.

Definition sha256 `{RomHash} (l : bytes) : bytes := boot_sha256_final (boot_sha256_update boot_sha256_init l).

Lemma write_storable_ext f g a d : (forall x, f x = g x) -> write_storable f a d -> write_storable g a d.
Proof.
  intros E H sb H1 H2 H3. eapply programmable_ext; [|by apply (H sb)]. apply cells_ext. intros x _. by apply overlay_ext.
Qed.

Lemma op_image_ext f g o x : (forall y, f y = g y) -> op_image f o x = op_image g o x.
Proof. intros E. destruct o as [a d|k]; cbn; [by apply overlay_ext|]. by destruct (_ && _). Qed.

Lemma op_ok_ext dev f g o : (forall x, f x = g x) -> op_ok dev f o -> op_ok dev g o.
Proof. intros E. destruct o as [a d|k]; [|done]. intros (Ha & Hl & Hb & Hs). split_and!; try done. by apply (write_storable_ext f). Qed.

Lemma ops_ext dev ops : forall f g, (forall x, f x = g x) -> ops_ok dev f ops ->
  ops_ok dev g ops /\ forall x, fold_left op_image ops f x = fold_left op_image ops g x.
Proof.
  induction ops as [|o ops IH]; intros f g E; [done|]. intros [Ho Hops]. cbn [ops_ok fold_left].
  destruct (IH (op_image f o) (op_image g o)) as [H1 H2]; [intros; by apply op_image_ext|done|]. split; [|done]. split; [by apply (op_ok_ext dev f)|done].
Qed.

Section Program.
Context {D : Type} `{FlashLaws D} (os_systime : nat -> Z).

Lemma erase_cells_view s c k : wf s c -> 0 < k < 2 ^ 20 ->
  exists c', wf (sector_cache_erase_sector s (SECTORSIZE * k)) c'
    /\ forall x, view (sector_cache_erase_sector s (SECTORSIZE * k)) x = op_image (view s) (OpErase k) x.
Proof.
  intros Hw Hk. pose proof Hw as [He Hlen Hb Haddr Hval Hdirty]. set (a := SECTORSIZE * k).
  assert (Ha : a mod SECTORSIZE = 0) by (unfold a; rewrite Z.mul_comm; by apply Z.mod_mul).
  unfold sector_cache_erase_sector. rewrite He. cbn [map]. set (d' := spi_sector_erase (sc_dev s) a).
  assert (Hd : forall x, cell d' x = if (a <=? x) && (x <? a + SECTORSIZE) then 255 else cell (sc_dev s) x) by (intros x; by apply erase_cells).
  assert (Hfar : c_state c <> EMPTY -> c_address c <> a -> forall x, c_address c <= x < c_address c + SECTORSIZE -> (a <=? x) && (x <? a + SECTORSIZE) = false).
  { intros Hs Hne x Hx. destruct (Haddr Hs) as (H1 & H2 & H3). apply andb_false_iff.
    destruct (Z.leb_spec a x); [right|by left]. apply Z.ltb_ge. unfold SECTORSIZE in *. Z.div_mod_to_equations. lia. }
  exists (erase_entry a c). split.
  - unfold erase_entry. destruct (Z.eqb_spec (c_address c) a) as [Ea|Ea].
    + constructor; cbn; try done; destruct (c_state c) eqn:Es; done.
    + constructor; cbn; try done. intros Hs i Hi. rewrite Hval by done. rewrite Hd, Hfar; try done; [by rewrite Hs|lia].
  - intros x. unfold view. rewrite He. cbn [sc_entries sc_dev op_image]. fold a. unfold in_sector, erase_entry.
    destruct (Z.eqb_spec (c_address c) a) as [Ea|Ea]; cbn [c_state c_address c_data].
    + rewrite Hd, Ea. destruct (c_state c) eqn:Es; cbn; try done; destruct ((a <=? x) && (x <? a + SECTORSIZE)) eqn:Ex; done.
    + destruct (bool_decide (c_state c = EMPTY)) eqn:Es; cbn [negb andb]; [apply Hd|]. apply bool_decide_eq_false in Es.
      destruct ((c_address c <=? x) && (x <? c_address c + SECTORSIZE)) eqn:Ex; [|apply Hd].
      apply andb_true_iff in Ex as [Ex1 Ex2]. apply Z.leb_le in Ex1. apply Z.ltb_lt in Ex2. rewrite Hfar; [done|done|done|lia].
Qed.

Lemma hash_section_one `{!RomHash} `{!RomLaws} fuel : forall ctx a n s c, wf s c -> 0 <= a -> 0 <= n -> a + n <= 2 ^ 32 -> n <= Z.of_nat fuel ->
  exists s' c', spi_mem_read_section os_systime fuel ctx a n s = Some (boot_sha256_update ctx (cells (view s) a n), s') /\ wf s' c'
    /\ forall x, view s' x = view s x.
Proof.
  induction fuel as [|fuel IH]; intros ctx a n s c Hw Ha Hn Hl Hf; cbn [spi_mem_read_section]; destruct (Z.eqb_spec n 0) as [->|Hn0].
  1,3: exists s, c; change (cells (view s) a 0) with (@nil Z); by rewrite update_nil.
  { lia. }
  set (chunk := if CHUNK <? n then CHUNK else n). assert (Hc : 0 < chunk <= n) by (unfold chunk, CHUNK; case_if; lia).
  destruct (cache_read_one os_systime s c a chunk Hw) as (s1 & c1 & E1 & Hw1 & Hv1); [lia|lia|lia|]. rewrite E1. cbn [mbind option_bind].
  destruct (Z.eq_dec (n - chunk) 0) as [E0|E0].
  - rewrite E0. exists s1, c1. replace chunk with n by lia. destruct fuel; by split.
  - rewrite u32_small by lia. destruct (IH (boot_sha256_update ctx (cells (view s) a chunk)) (a + chunk) (n - chunk) s1 c1) as (s2 & c2 & E2 & Hw2 & Hv2); try lia; [done|].
    exists s2, c2. split; [|split; [done|intros x; by rewrite Hv2, Hv1]]. rewrite E2, update_app. do 3 f_equal.
    rewrite (cells_ext (view s1) (view s)) by (intros; apply Hv1). rewrite <- cells_app by lia. f_equal. lia.
Qed.

Lemma op_done `{!MediaPart} `{!RomHash} dev (g : gordon D) c o : spi_initialized g = true -> wf (scache g) c -> op_ok dev (view (scache g)) o ->
  exists s' c', flash_api os_systime (Some dev) (op_msg o) g = Some (RspStatus 0, with_cache s' g) /\ wf s' c'
    /\ forall x, view s' x = op_image (view (scache g)) o x.
Proof.
  intros Hi Hw Ho. destruct o as [a d|k]; cbn [op_msg flash_api op_image]; unfold flash_write, flash_erase_by_sector, initialized; rewrite Hi; cbn [negb].
  - destruct Ho as (Ha & Hl & Hb & Hst). destruct (Z.eqb_spec (zlen d) 0) as [E0|E0].
    + destruct (flush_all_one (scache g) c Hw) as (s' & c' & -> & Hw' & _ & Hv). exists s', c'. split; [done|]. split; [done|].
      intros x. destruct (Hv x) as [-> _]. unfold overlay. rewrite E0. case_if; [lia|done].
    + destruct (cache_write_one os_systime (scache g) c a d) as (s' & c' & -> & Hw' & Hv); try done. by exists s', c'.
  - destruct Ho as [Hk Hc]. cbn [mbind option_bind]. rewrite (proj2 (Z.ltb_ge _ _)), (proj2 (Z.eqb_neq _ _)) by lia. cbn [orb].
    rewrite u32_small by (unfold SECTORSIZE; lia). destruct (erase_cells_view (scache g) c k Hw Hk) as (c' & Hw' & Hv). by exists (sector_cache_erase_sector (scache g) (SECTORSIZE * k)), c'.
Qed.

Lemma ops_done `{!MediaPart} `{!RomHash} dev ops : forall (g : gordon D) c, spi_initialized g = true -> wf (scache g) c -> ops_ok dev (view (scache g)) ops ->
  exists s' c', (forall rs, flash_session os_systime (Some dev) (map op_msg ops ++ rs) g
      = ('(l, g') ← flash_session os_systime (Some dev) rs (with_cache s' g); Some (map (fun _ => RspStatus 0) ops ++ l, g')))
    /\ wf s' c' /\ forall x, view s' x = fold_left op_image ops (view (scache g)) x.
Proof.
  induction ops as [|o ops IH]; intros g c Hi Hw Hok.
  - exists (scache g), c. split; [|done]. intros rs. cbn [map app]. destruct g. cbn. by destruct (flash_session _ _ _ _) as [[]|].
  - destruct Hok as [Ho Hops]. destruct (op_done dev g c o Hi Hw Ho) as (s1 & c1 & E1 & Hw1 & Hv1).
    destruct (ops_ext dev ops _ (view s1) (fun x => eq_sym (Hv1 x)) Hops) as [Hops1 Hfold].
    destruct (IH (with_cache s1 g) c1 Hi Hw1 Hops1) as (s2 & c2 & E2 & Hw2 & Hv2). exists s2, c2.
    split; [|split; [done|intros x; by rewrite Hv2, <- Hfold]].
    intros rs. cbn [map app flash_session]. rewrite E1. cbn [mbind option_bind]. rewrite E2. change (with_cache s2 (with_cache s1 g)) with (with_cache s2 g).
    by destruct (flash_session _ _ rs _) as [[]|].
Qed.

End Program.


(** ** Concrete accessors, hash and device *)

(** Bits [lo] to [lo + w - 1] of a word. *)
Definition field (v lo w : Z) : Z := v / 2 ^ lo mod 2 ^ w.
Definition set_field (v lo w x : Z) : Z := v + (x mod 2 ^ w - field v lo w) * 2 ^ lo.

#[global] Instance mask_parts : MediaPart := {
  media_part_init _ := mkPart (2 ^ 32 - 1) (2 ^ 32 - 1);
  media_part_get_active p := field (entry0 p) 31 1 =? 1;
  media_part_is_active p := (field (entry0 p) 31 1 =? 1) && negb (field (entry0 p) 20 5 =? media_part_type_unused);
  media_part_get_type p := field (entry0 p) 20 5;
  media_part_get_sector_start p := field (entry0 p) 0 20;
  media_part_get_sector_count p := field (entry1 p) 0 20;
  media_part_set_active p b := mkPart (set_field (entry0 p) 31 1 (Z.b2z b)) (entry1 p);
  media_part_set_sector_start p v := mkPart (set_field (entry0 p) 0 20 v) (entry1 p);
  media_part_set_sector_count p v := mkPart (entry0 p) (set_field (entry1 p) 0 20 v);
  media_part_set_type p v := mkPart (set_field (entry0 p) 20 5 v) (entry1 p);
}.

Lemma field_set v lo w x : 0 <= lo -> 0 <= w -> field (set_field v lo w x) lo w = x mod 2 ^ w.
Proof.
  intros Hl Hw. assert (0 < 2 ^ lo) by lia. assert (0 < 2 ^ w) by lia. unfold set_field, field.
  rewrite Z.div_add by lia.
  replace (v / 2 ^ lo + (x mod 2 ^ w - (v / 2 ^ lo) mod 2 ^ w)) with (x mod 2 ^ w + (v / 2 ^ lo / 2 ^ w) * 2 ^ w)
    by (pose proof (Z.div_mod (v / 2 ^ lo) (2 ^ w) ltac:(lia)); lia).
  rewrite Z.mod_add by lia. apply Z.mod_mod. lia.
Qed.

(** A field is not changed by setting one that lies above or below it. *)
Lemma field_set_above v lo w x lo' w' : 0 <= lo' -> 0 <= w' -> lo' + w' <= lo -> field (set_field v lo w x) lo' w' = field v lo' w'.
Proof.
  intros Hl Hw Hle. unfold set_field. set (d := x mod 2 ^ w - field v lo w). unfold field.
  replace lo with ((lo - lo' - w') + w' + lo') by lia. rewrite !Z.pow_add_r by lia. rewrite !Z.mul_assoc, Z.div_add by lia. by rewrite Z.mod_add by lia.
Qed.

Lemma field_set_below v lo w x lo' w' : 0 <= lo -> 0 <= w -> lo + w <= lo' -> field (set_field v lo w x) lo' w' = field v lo' w'.
Proof.
  intros Hl Hw Hle. unfold set_field, field. f_equal.
  replace lo' with (lo + w + (lo' - lo - w)) by lia. rewrite !Z.pow_add_r, <- !Z.div_div by lia. f_equal. rewrite Z.div_add by lia.
  set (q := v / 2 ^ lo). pose proof (Z.div_mod q (2 ^ w) ltac:(lia)) as E. pose proof (Z.mod_pos_bound x (2 ^ w) ltac:(lia)).
  replace (q + (x mod 2 ^ w - q mod 2 ^ w)) with (x mod 2 ^ w + (q / 2 ^ w) * 2 ^ w) by lia. rewrite Z.div_add, Z.div_small by lia. lia.
Qed.

#[global] Instance mask_laws : MediaLaws.
Proof.
  split; intros; cbn -[field set_field]; rewrite ?field_set, ?field_set_above, ?field_set_below by lia; try done.
  - by rewrite Z.mod_small.
  - by rewrite Z.mod_small.
  - by rewrite Z.mod_small.
  - unfold media_part_type_unused in *. cbn in H. rewrite H, Z.mod_small, (proj2 (Z.eqb_neq _ _)) by lia. done.
Qed.

Lemma set_field_word v lo w x : word v -> 0 <= lo -> 0 <= w -> lo + w <= 32 -> word (set_field v lo w x).
Proof.
  intros Hv Hl Hw Hle. unfold word, set_field, field in *. set (q := v / 2 ^ lo).
  assert (Hlo : 0 < 2 ^ lo) by lia. assert (Hww : 0 < 2 ^ w) by lia. pose proof (Z.div_mod v (2 ^ lo) ltac:(lia)) as E1. pose proof (Z.mod_pos_bound v (2 ^ lo) ltac:(lia)).
  pose proof (Z.div_mod q (2 ^ w) ltac:(lia)) as E2. pose proof (Z.mod_pos_bound q (2 ^ w) ltac:(lia)). pose proof (Z.mod_pos_bound x (2 ^ w) ltac:(lia)).
  fold q in E1. assert (Hq : q < 2 ^ w * 2 ^ (32 - lo - w)).
  { rewrite <- Z.pow_add_r by lia. apply Z.div_lt_upper_bound; [lia|]. rewrite <- Z.pow_add_r by lia. replace (lo + (w + (32 - lo - w))) with 32 by lia. lia. }
  assert (0 <= q) by (apply Z.div_pos; lia). set (h := q / 2 ^ w) in *.
  assert (Hh : 0 <= h < 2 ^ (32 - lo - w)) by (split; [apply Z.div_pos; lia|apply Z.div_lt_upper_bound; lia]).
  assert (E32 : 2 ^ 32 = 2 ^ lo * (2 ^ w * 2 ^ (32 - lo - w))) by (rewrite <- !Z.pow_add_r by lia; f_equal; lia).
  rewrite E32. set (L := 2 ^ lo) in *. set (Wd := 2 ^ w) in *. set (T := 2 ^ (32 - lo - w)) in *. set (r := v mod L) in *. set (xm := x mod Wd) in *. set (qm := q mod Wd) in *.
  replace (v + (xm - qm) * L) with (r + L * (xm + Wd * h)) by nia.
  assert (0 <= xm + Wd * h < Wd * T) by nia. nia.
Qed.

#[global] Instance mask_typed : PartTyped.
Proof. split; intros p; intros; cbn -[set_field]; repeat match goal with H : part_typed _ |- _ => destruct H end; split; cbn -[set_field]; try done; by apply set_field_word. Qed.

#[global] Instance plain_hash : RomHash := {
  SHA256_CTX := bytes;
  boot_sha256_init := [];
  boot_sha256_update ctx l := ctx ++ l;
  boot_sha256_final ctx := ctx;
}.

#[global] Instance plain_hash_laws : RomLaws.
Proof. split; intros; cbn; [apply app_nil_r|by rewrite app_assoc]. Qed.

Definition small_dev : spi_mem_params := mkParams 0xef4015 256 8192 4096.

Definition blank_table : partition_table := mkTable PARTITION_TABLE_MAGIC (replicate 16 (mkPart (2 ^ 32 - 1) (2 ^ 32 - 1))).
Definition ready : gordon nor_flash := mkGordon true blank_table one_zero.

Lemma blank_entry_wf : wf one_zero blank_entry.
Proof. constructor; try done. apply is_bytes_replicate. unfold is_byte; lia. Qed.

Lemma blank_table_typed : table_typed blank_table.
Proof. split; [by vm_compute|]. split; [done|]. by apply Forall_replicate; vm_compute. Qed.

Lemma ready_typed : gordon_typed (Some small_dev) ready.
Proof.
  split; [apply blank_table_typed|]. split; [|by exists small_dev]. split; [done|]. apply Forall_singleton. split; [done|]. split; [done|]. apply is_bytes_replicate. unfold is_byte; lia.
Qed.

Lemma blank_holds : holds_parts blank_table ∅.
Proof.
  split; [done|]. split; [done|]. intros i Hi. rewrite lookup_empty. destruct (Z.leb_spec PARTITION_TABLE_SIZE i) as [|Hlt]; [done|].
  unfold blank_table. cbn [part]. rewrite lookup_replicate_2 by (unfold PARTITION_TABLE_SIZE in Hlt; lia). vm_compute. reflexivity.
Qed.

Definition sample_parts : list part_req := [PAdd 2 14 16 64; PAdd 2 15 100 8; PGet 2; PDelete 2; PGet 2; PGet 16].

Lemma partitions_refine_witness :
  exists t, flash_session (fun _ => 5) (Some small_dev) (map part_msg sample_parts) ready
    = Some ([RspStatus 0; RspStatus EEXIST; RspPartition 14 16 64; RspStatus 0; RspStatus ENOENT; RspStatus EINVAL], with_table t ready)
  /\ holds_parts t ∅.
Proof.
  destruct (partitions_refine (fun _ => 5) (Some small_dev) sample_parts ready ∅) as (t & E & Ht).
  - done.
  - exact blank_holds.
  - repeat constructor; cbn; unfold media_part_type_unused; lia.
  - exists t. split; [rewrite E; vm_compute; reflexivity|].
    replace (part_specs sample_parts ∅).2 with (∅ : parts) in Ht by (vm_compute; reflexivity). exact Ht.
Defined.


(** On a flash that is all zeros, no page is left without a byte to program. *)
Lemma storable_table d : zlen d = sizeof_partition_table -> write_storable (view one_zero) PARTITION_TABLE_ADDRESS d.
Proof.
  intros Hd sb Hm H1 H2. assert (sb = 0) as -> by (rewrite Hd in H1; unfold PARTITION_TABLE_ADDRESS, BOOTSECTOR_ADDRESS, offsetof_ptable, sizeof_partition_table, SECTORSIZE in *; Z.div_mod_to_equations; lia).
  assert (Hz : forall i, 0 <= i < SECTORSIZE -> i < 2240 \/ 2372 <= i -> bget (cells (overlay (view one_zero) PARTITION_TABLE_ADDRESS d) 0 SECTORSIZE) i <> 255).
  { intros i Hi Ho. rewrite bget_cells by done. unfold overlay. rewrite Hd. unfold PARTITION_TABLE_ADDRESS, BOOTSECTOR_ADDRESS, offsetof_ptable, sizeof_partition_table.
    destruct (Z.leb_spec (0 + 2240) (0 + i)), (Z.ltb_spec (0 + i) (0 + 2240 + 132)); cbn [andb]; try lia; by vm_compute. }
  intros p Hp. change (SECTORSIZE / PAGESIZE) with 16 in Hp. right.
  assert (Hat : forall j, 0 <= j < 256 -> (p = 8 -> j < 192) -> (p = 9 -> 68 <= j) -> nonblank_at (cells (overlay (view one_zero) PARTITION_TABLE_ADDRESS d) 0 SECTORSIZE) p (j mod 2)).
  { intros j Hj H8 H9. exists (256 * p + j). unfold SECTORSIZE, PAGESIZE in *. split; [lia|]. split; [Z.div_mod_to_equations; lia|].
    split; [replace (256 * p + j) with (j + 128 * p * 2) by lia; by rewrite Z.mod_add|]. apply Hz; [lia|].
    destruct (Z.eq_dec p 8), (Z.eq_dec p 9); lia. }
  split; [apply (Hat 128)|apply (Hat 129)]; lia.
Qed.

Lemma table_survives_witness :
  exists g1, flash_session (fun _ => 5) (Some small_dev) [ReqSaveTable; ReqFlush] ready = Some ([RspStatus 0; RspStatus 0], g1)
  /\ forall k zalloc s, sector_cache_init (sc_dev (scache g1)) k 1 zalloc = Some s ->
     exists a g2, flash_session (fun _ => 5) (Some small_dev) [ReqIdentify; ReqLoadTable 0] (started s) = Some ([a; RspStatus 0], g2)
     /\ ptable g2 = blank_table /\ spi_initialized g2 = true.
Proof.
  apply (table_survives (fun _ => 5) small_dev ready blank_entry).
  - done.
  - done.
  - exact blank_entry_wf.
  - exact blank_table_typed.
  - done.
  - apply storable_table. by apply table_roundtrip, blank_table_typed.
Defined.


(** The sector behind the last one of the device is erased without an error. *)
Example erase_past_end :
  spi_mem_get_sector_count small_dev = 512
  /\ (fun r => r.1) <$> flash_api (fun _ => 5) (Some small_dev) (ReqEraseSector 512) ready = Some (RspStatus 0).
Proof. split; vm_compute; reflexivity. Qed.

(** A partition of the type 31 is added with success and is not there. *)
Example unused_type_lost :
  (fun r => r.1) <$> flash_session (fun _ => 5) (Some small_dev) [ReqAddPartition 2 31 16 64; ReqGetPartition 2] ready = Some [RspStatus 0; RspStatus ENOENT].
Proof. vm_compute. reflexivity. Qed.

(** Enrolment writes the whole boot sector: behind the secure part the flash
    then holds what the block in RAM happens to hold, in place of the partition
    table and the device information. *)
Theorem enroll_replaces_sector {D W} `{FlashLaws D} `{!Fuses W} `{!Engine} os_systime uninit mode secret ecdsa_key fw_key
    bb rest (g : gordon D) (w : W) c bb' w' :
  spi_initialized g = true -> wf (scache g) c ->
  enroll uninit bb mode secret ecdsa_key fw_key w = Some (0, bb', w') ->
  is_bytes (secure_bytes bb' ++ rest) -> zlen (secure_bytes bb' ++ rest) = SECTORSIZE ->
  write_storable (view (scache g)) BOOTSECTOR_ADDRESS (secure_bytes bb' ++ rest) ->
  exists s, flash_enroll os_systime uninit mode secret ecdsa_key fw_key (bb, rest) g w = Some (RspStatus 0, (bb', rest), with_cache s g, w')
    /\ cells (cell (sc_dev s)) BOOTSECTOR_ADDRESS SECTORSIZE = secure_bytes bb' ++ rest.
Proof.
  intros Hi Hw Ee Hb Hz Hst.
  destruct (cache_write_one os_systime (scache g) c BOOTSECTOR_ADDRESS (secure_bytes bb' ++ rest)) as (s1 & c1 & E1 & Hw1 & Hv1);
    [done|done|by rewrite Hz|done|done|].
  destruct (flush_all_one s1 c1 Hw1) as (s2 & c2 & E2 & _ & _ & Hf). exists s2. split.
  - unfold flash_enroll. rewrite Hi. cbn [negb fst snd]. rewrite Ee. cbn [mbind option_bind Z.eqb negb]. rewrite E1. cbn [mbind option_bind]. by rewrite E2.
  - rewrite <- (cells_bget (secure_bytes bb' ++ rest)), Hz. apply cells_ext. intros x Hx. rewrite (proj2 (Hf x)), Hv1.
    unfold overlay. unfold BOOTSECTOR_ADDRESS in *. rewrite Hz, (proj2 (Z.leb_le _ _)), (proj2 (Z.ltb_lt _ _)) by lia. cbn [andb]. f_equal. lia.
Qed.
