(* ===== verification/FastBoot.v ===== *)
(** * The fast boot stage (apps/ssbl/fastboot/fastboot.c)

    The first program in flash: it reads boot commands from a fixed offset,
    copies the segments of the second-stage boot loader into RAM, takes its
    arguments and its entry point and jumps to it.  The flash is read through
    the registers of the QSPI controller.  The secure-boot functions of the ROM
    are the class [SecureRom]; the only caller passes no secure context.
    [None] is undefined behaviour, a transfer that does not end, or fuel used
    up. *)

From S2P Require Import Prelude.

Definition BOOT_SYNC : Z := 0x7e.
Definition BOOT_CMD_NOP : Z := 0.
Definition BOOT_CMD_READ : Z := 1.
Definition BOOT_CMD_WRITE : Z := 2.
Definition BOOT_CMD_ENTRY : Z := 3.
Definition BOOT_CMD_SPEED : Z := 4.
Definition BOOT_CMD_ARGS : Z := 7.
Definition BOOT_CMD_SIGN : Z := 8.
Definition BOOT_CMD_FILL : Z := 9.
Definition BOOT_CMD_PUF : Z := 10.

Definition BOOT_FLASH : Z := 1.
Definition BOOT_SECURE : Z := 2.
Definition SPIFLASH_OP_READ_FAST_4 : Z := 0x6b000000.

Definition START_OF_RAM : Z := 0x040000.
Definition END_OF_RAM : Z := 0x0bffff.
Definition is_ram_address (address : Z) : bool := (START_OF_RAM <=? address) && (address <=? END_OF_RAM).

(** [struct boot_cmd] and its eight bytes in flash. *)
Record boot_cmd := mkCmd { sync : Z; op : Z; cmd_len : Z; cmd_addr : Z }.
Definition sizeof_cmd : Z := 8.

Definition cmd_of (l : bytes) : boot_cmd :=
  mkCmd (bget l 0) (bget l 1) (bget l 2 + 256 * bget l 3) (le_value (take 4 (drop 4 l))).

Record boot_args := mkArgs { argc : Z; argv : Z; entry : option Z }.

(** The variables of the program and the RAM.  [C] is the secure context. *)
Record fast (C : Type) := mkFast { args : boot_args; method : Z; ram : Z -> Z; secure : option C; boot_secret : bytes }.
Arguments mkFast {C} _ _ _ _ _.
Arguments args {C} _.
Arguments method {C} _.
Arguments ram {C} _.
Arguments secure {C} _.
Arguments boot_secret {C} _.

(** The secure-boot functions of the ROM. *)
Class SecureRom (C : Type) := {
  secureboot_decrypt : C -> Z -> Z -> (Z -> Z) -> Z -> Z;
  secureboot_hash_add : C -> Z -> Z -> (Z -> Z) -> C;
  secureboot_hash_verify : C -> bool * C;      (* [true]: the signature is wrong *)
  set_signature : C -> bytes -> C;
  secureboot_puf_reconstruct : (Z -> Z) -> bytes;
}.

(** The flash as the controller reads it, by its command word and size register:
    the first byte of the command is the operation, the rest the address. *)
Definition qspi_read (flash : Z -> Z) (cmd data_size : Z) : option bytes :=
  if cmd / 2 ^ 24 =? SPIFLASH_OP_READ_FAST_4 / 2 ^ 24 then Some (cells flash (cmd mod 2 ^ 24) (data_size + 1)) else None.

Section Fast.
Context {C : Type} `{SecureRom C} (flash : Z -> Z).

(** The bytes put at [dst]; the transfer ends when [len] bytes were asked for. *)
Definition fast_boot_read_flash (offset len : Z) : option bytes :=
  let data_size := u16 (len - 1) in
  l ← qspi_read flash (Z.lor SPIFLASH_OP_READ_FAST_4 offset) data_size;
  if zlen l =? len then Some l else None.

Definition with_secure (c : option C) (b : fast C) : fast C := mkFast (args b) (method b) (ram b) c (boot_secret b).
Definition with_ram (m : Z -> Z) (b : fast C) : fast C := mkFast (args b) (method b) m (secure b) (boot_secret b).
Definition with_args (a : boot_args) (b : fast C) : fast C := mkFast a (method b) (ram b) (secure b) (boot_secret b).

Definition hash_add (addr len : Z) (b : fast C) : fast C :=
  match secure b with Some c => with_secure (Some (secureboot_hash_add c addr len (ram b))) b | None => b end.

(** One command: the new state and the offset behind what belongs to it. *)
Definition boot_step (cmd : boot_cmd) (offset : Z) (b : fast C) : option (fast C * Z) :=
  if op cmd =? BOOT_CMD_WRITE then
    let done := Some (b, u32 (offset + cmd_len cmd)) in
    if is_ram_address (cmd_addr cmd) || match secure b with None => true | _ => false end then
      l ← fast_boot_read_flash offset (cmd_len cmd);
      let b := with_ram (overlay (ram b) (cmd_addr cmd) l) b in
      let b :=
        match secure b with
        | Some c => hash_add (cmd_addr cmd) (cmd_len cmd) (with_ram (secureboot_decrypt c (cmd_addr cmd) (cmd_len cmd) (ram b)) b)
        | None => b
        end in
      Some (b, u32 (offset + cmd_len cmd))
    else done
  else if op cmd =? BOOT_CMD_ENTRY then
    let b := with_args (mkArgs (argc (args b)) (argv (args b)) (Some (cmd_addr cmd))) b in
    let b := hash_add (cmd_addr cmd) 0 b in
    Some (match secure b with Some c => with_secure (Some (secureboot_hash_verify c).2) b | None => b end, offset)
  else if op cmd =? BOOT_CMD_ARGS then
    let b := hash_add (cmd_len cmd) 0 (hash_add (cmd_addr cmd) 0 b) in
    Some (with_args (mkArgs (cmd_len cmd) (cmd_addr cmd) (entry (args b))) b, offset)
  else if op cmd =? BOOT_CMD_SIGN then
    c ← secure b;
    l ← fast_boot_read_flash offset 64;
    Some (with_secure (Some (set_signature c l)) b, u32 (offset + cmd_len cmd))
  else if op cmd =? BOOT_CMD_PUF then
    Some (mkFast (args b) (method b) (ram b) (secure b) (secureboot_puf_reconstruct (ram b)), offset)
  else Some (b, offset).

(** With a secure context a wrong [sync] only waits for an event and goes on. *)
Fixpoint fast_boot_flash (fuel : nat) (offset : Z) (b : fast C) : option (fast C) :=
  match fuel with
  | O => None
  | S fuel =>
      l ← fast_boot_read_flash offset sizeof_cmd;
      let cmd := cmd_of l in
      if negb (sync cmd =? BOOT_SYNC) && match secure b with None => true | _ => false end then Some b
      else
        let m := Z.lor (method b) BOOT_FLASH in
        let m := match secure b with Some _ => Z.lor m BOOT_SECURE | None => m end in
        let b := mkFast (args b) m (ram b) (secure b) (boot_secret b) in
        '(b, offset) ← boot_step cmd (u32 (offset + sizeof_cmd)) b;
        if op cmd =? BOOT_CMD_ENTRY then Some b else fast_boot_flash fuel offset b
  end.

(** What [main] jumps to, with which arguments; the variable [args] is zero at
    the start. *)
Definition main (fuel : nat) (m : Z -> Z) : option (boot_args * (Z -> Z)) :=
  b ← fast_boot_flash fuel 0x2000 (mkFast (mkArgs 0 0 None) 0 m None []);
  Some (args b, ram b).

End Fast.

(** ** Images *)

(** What an image is made of; [ISkip] stands for the commands that do nothing. *)
Inductive item := ISkip (op : Z) | IWrite (addr : Z) (data : bytes) | IArgs (argc argv : Z) | IPuf.

Definition header (op len addr : Z) : bytes := [BOOT_SYNC; op; len mod 256; len / 256] ++ word_le addr.

Definition item_bytes (i : item) : bytes :=
  match i with
  | ISkip op => header op 0 0
  | IWrite addr data => header BOOT_CMD_WRITE (zlen data) addr ++ data
  | IArgs argc argv => header BOOT_CMD_ARGS argc argv
  | IPuf => header BOOT_CMD_PUF 0 0
  end.

Definition image_bytes (items : list item) (entry : Z) : bytes := concat (map item_bytes items) ++ header BOOT_CMD_ENTRY 0 entry.

Definition item_ok (i : item) : Prop :=
  match i with
  | ISkip op => op ∈ [BOOT_CMD_NOP; BOOT_CMD_READ; BOOT_CMD_SPEED; BOOT_CMD_FILL]
  | IWrite addr data => word addr /\ 0 < zlen data < 65536
  | IArgs argc argv => 0 <= argc < 65536 /\ word argv
  | IPuf => True
  end.

(** What the items mean: arguments and RAM. *)
Definition item_effect (s : boot_args * (Z -> Z)) (i : item) : boot_args * (Z -> Z) :=
  match i with
  | IWrite addr data => (s.1, overlay s.2 addr data)
  | IArgs n v => (mkArgs n v (entry s.1), s.2)
  | _ => s
  end.

(** [flash] holds [l] from [a] on. *)
Definition in_flash (flash : Z -> Z) (a : Z) (l : bytes) : Prop := cells flash a (zlen l) = l.

Lemma in_flash_app flash a l1 l2 : in_flash flash a (l1 ++ l2) <-> in_flash flash a l1 /\ in_flash flash (a + zlen l1) l2.
Proof.
  unfold in_flash. rewrite zlen_app, cells_app by apply zlen_nonneg. split.
  - intros E. apply app_inj_1 in E; [done|]. rewrite length_cells. unfold zlen. lia.
  - by intros [-> ->].
Qed.

Lemma read_flash flash a l : in_flash flash a l -> 0 <= a < 2 ^ 24 -> 0 < zlen l <= 65536 -> fast_boot_read_flash flash a (zlen l) = Some l.
Proof.
  intros Hf Ha Hl. unfold fast_boot_read_flash, qspi_read.
  replace (Z.lor SPIFLASH_OP_READ_FAST_4 a) with (0x6b * 2 ^ 24 + a) by (rewrite <- (lor_shiftl 0x6b a 24) by lia; done).
  replace ((0x6b * 2 ^ 24 + a) / 2 ^ 24) with 0x6b by (rewrite Z.div_add_l, Z.div_small by lia; lia).
  replace ((0x6b * 2 ^ 24 + a) mod 2 ^ 24) with a by (rewrite Z.add_comm, Z.mod_add, Z.mod_small by lia; lia).
  change (SPIFLASH_OP_READ_FAST_4 / 2 ^ 24) with 0x6b. rewrite Z.eqb_refl, u16_small by (change (2 ^ 16) with 65536; lia). replace (zlen l - 1 + 1) with (zlen l) by lia.
  rewrite Hf. cbn [mbind option_bind]. by rewrite Z.eqb_refl.
Qed.

Lemma cmd_of_header o n a l : 0 <= n < 65536 -> word a -> cmd_of (header o n a ++ l) = mkCmd BOOT_SYNC o n a.
Proof.
  intros Hn Ha. unfold cmd_of.
  change (bget (header o n a ++ l) 0) with BOOT_SYNC. change (bget (header o n a ++ l) 1) with o.
  change (bget (header o n a ++ l) 2) with (n mod 256). change (bget (header o n a ++ l) 3) with (n / 256).
  change (drop 4 (header o n a ++ l)) with (word_le a ++ l). rewrite le_word_le by done.
  replace (n mod 256 + 256 * (n / 256)) with n by (pose proof (Z.div_mod n 256 ltac:(lia)); lia). done.
Qed.

Section Loading.
Context {C : Type} `{!SecureRom C} (flash : Z -> Z).

Lemma item_len i : 8 <= zlen (item_bytes i).
Proof. destruct i as [o|ad d|n v|]; cbn [item_bytes]; rewrite ?zlen_app; unfold zlen; cbn; lia. Qed.

(** One round, without a secure context, up to the command. *)
Lemma round_read fuel a (b : fast C) o n ad : in_flash flash a (header o n ad) -> 0 <= a -> a + 8 < 2 ^ 24 -> 0 <= n < 65536 -> word ad -> secure b = None ->
  let b1 := mkFast (args b) (Z.lor (method b) BOOT_FLASH) (ram b) None (boot_secret b) in
  fast_boot_flash flash (S fuel) a b
  = ('(b, offset) ← boot_step flash (mkCmd BOOT_SYNC o n ad) (a + 8) b1; if o =? BOOT_CMD_ENTRY then Some b else fast_boot_flash flash fuel offset b).
Proof.
  intros Hf Ha Hl Hn Had Hs b1. cbn [fast_boot_flash].
  assert (Er : fast_boot_read_flash flash a sizeof_cmd = Some (header o n ad)) by (apply (read_flash flash a (header o n ad)); [done|lia|done]).
  rewrite Er. cbn [mbind option_bind]. rewrite <- (app_nil_r (header o n ad)), cmd_of_header by done. cbn [sync op]. rewrite Z.eqb_refl, Hs. cbn [negb andb].
  change sizeof_cmd with 8. rewrite u32_small by lia. done.
Qed.

Lemma item_loaded fuel a (b : fast C) i : in_flash flash a (item_bytes i) -> item_ok i -> 0 <= a -> a + zlen (item_bytes i) < 2 ^ 24 -> secure b = None ->
  exists b', fast_boot_flash flash (S fuel) a b = fast_boot_flash flash fuel (a + zlen (item_bytes i)) b'
    /\ (args b', ram b') = item_effect (args b, ram b) i /\ secure b' = None.
Proof.
  intros Hf Hi Ha Hl Hs. pose proof (item_len i) as H8.
  destruct i as [o|ad d|n v|]; cbn [item_bytes item_ok] in *.
  - rewrite (round_read fuel a b o 0 0) by (done || lia). unfold boot_step. cbn [op].
    set (b1 := mkFast _ _ _ _ _). exists b1. split; [|done]. change (zlen (header o 0 0)) with 8.
    repeat (apply elem_of_cons in Hi as [->|Hi]; [done|]). by apply elem_of_nil in Hi.
  - destruct Hi as [Had Hd]. apply in_flash_app in Hf as [Hf Hd']. rewrite zlen_app in Hl |- *. change (zlen (header _ _ _)) with 8 in *.
    rewrite (round_read fuel a b BOOT_CMD_WRITE (zlen d) ad) by (done || lia). unfold boot_step. cbn [op cmd_len cmd_addr secure].
    change (BOOT_CMD_WRITE =? BOOT_CMD_WRITE) with true. cbn iota. rewrite orb_true_r, read_flash by (done || lia). cbn [mbind option_bind].
    rewrite u32_small by lia. rewrite Z.add_assoc. eexists. split; [reflexivity|]. done.
  - destruct Hi as [Hn Hv]. rewrite (round_read fuel a b BOOT_CMD_ARGS n v) by (done || lia). eexists. split; [reflexivity|]. done.
  - rewrite (round_read fuel a b BOOT_CMD_PUF 0 0) by (done || lia). eexists. split; [reflexivity|]. done.
Qed.

(** The rounds of the loop over the items. *)
Lemma items_loaded items : forall fuel a (b : fast C) rest, in_flash flash a (concat (map item_bytes items) ++ rest) -> Forall item_ok items ->
  0 <= a -> a + zlen (concat (map item_bytes items)) < 2 ^ 24 -> secure b = None ->
  exists b', fast_boot_flash flash (length items + fuel) a b = fast_boot_flash flash fuel (a + zlen (concat (map item_bytes items))) b'
    /\ (args b', ram b') = fold_left item_effect items (args b, ram b) /\ secure b' = None.
Proof.
  induction items as [|i items IH]; intros fuel a b rest Hf Hok Ha Hl Hs.
  { exists b. change (zlen (concat (map item_bytes []))) with 0. by rewrite Z.add_0_r. }
  apply Forall_cons in Hok as [Hi Hok]. cbn [map concat length Nat.add fold_left] in *.
  rewrite <- app_assoc in Hf. apply in_flash_app in Hf as [Hfi Hfr]. rewrite zlen_app in Hl |- *. rewrite Z.add_assoc.
  pose proof (item_len i) as H8. pose proof (zlen_nonneg (concat (map item_bytes items))) as Hnn.
  destruct (item_loaded (length items + fuel) a b i) as (b1 & E1 & Heff & Hs1); try done; [lia|].
  destruct (IH fuel (a + zlen (item_bytes i)) b1 rest) as (b2 & E2 & Heff2 & Hs2); try done; [lia|lia|].
  exists b2. rewrite E1, E2. split; [done|]. split; [by rewrite Heff2, Heff|done].
Qed.

End Loading.

(** C17: fast boot.  From an image in flash at 0x2000, made of segments,
    arguments and commands without an effect, in any order, and of the entry
    point at its end, every segment is copied to its address, and the jump goes
    to the entry point with the last arguments. *)
Theorem image_started {C} `{!SecureRom C} flash items start (m : Z -> Z) fuel :
  in_flash flash 0x2000 (image_bytes items start) -> Forall item_ok items -> word start ->
  0x2000 + zlen (image_bytes items start) < 2 ^ 24 -> (length items < fuel)%nat ->
  let '(a, m') := fold_left item_effect items (mkArgs 0 0 None, m) in
  main (C := C) flash fuel m = Some (mkArgs (argc a) (argv a) (Some start), m').
Proof.
  intros Hf Hok Hst Hl Hfuel. unfold image_bytes in *. rewrite zlen_app in Hl. change (zlen (header _ _ _)) with 8 in Hl.
  pose proof (zlen_nonneg (concat (map item_bytes items))) as Hnn. unfold main.
  destruct (items_loaded (C := C) flash items (fuel - length items) 0x2000 (mkFast (mkArgs 0 0 None) 0 m None []) (header BOOT_CMD_ENTRY 0 start))
    as (b & E & Heff & Hs); try done; [lia|]. cbn [args ram] in Heff. replace (length items + (fuel - length items))%nat with fuel in E by lia. rewrite E.
  apply in_flash_app in Hf as [_ Hf]. destruct (fuel - length items)%nat as [|f] eqn:Ef; [lia|].
  rewrite (round_read flash f _ b BOOT_CMD_ENTRY 0 start) by (done || lia). destruct (fold_left item_effect items _) as [a m']. injection Heff as <- <-. done.
Qed.

(** A secure context that refuses every signature. *)
Inductive refusing := Refusing.

#[global] Instance refusing_rom : SecureRom refusing := {
  secureboot_decrypt _ _ _ m := m;
  secureboot_hash_add c _ _ _ := c;
  secureboot_hash_verify c := (true, c);
  set_signature c _ := c;
  secureboot_puf_reconstruct _ := [];
}.

Definition flash_with (l : bytes) : Z -> Z := fun x => bget l (x - 0x2000).

Lemma flash_with_holds l : in_flash (flash_with l) 0x2000 l.
Proof.
  unfold in_flash. transitivity (cells (bget l) 0 (zlen l)); [|apply cells_bget]. apply cells_shift. intros i Hi. unfold flash_with. f_equal. lia.
Qed.

Definition sample_items : list item := [ISkip BOOT_CMD_NOP; IWrite 0x42000 [1; 2; 3]; IArgs 2 0x40000; IWrite 0x42001 [9]].

Lemma image_started_witness :
  let m' := (fold_left item_effect sample_items (mkArgs 0 0 None, fun _ => 0)).2 in
  main (C := refusing) (flash_with (image_bytes sample_items 0x42001)) 5 (fun _ => 0) = Some (mkArgs 2 0x40000 (Some 0x42001), m').
Proof.
  apply (image_started (C := refusing) (flash_with (image_bytes sample_items 0x42001)) sample_items 0x42001 (fun _ => 0) 5).
  - apply flash_with_holds.
  - repeat constructor; cbn; unfold word, zlen; cbn; lia.
  - by vm_compute.
  - by vm_compute.
  - cbn. lia.
Defined.

(** Where the commands end without an entry point, the jump goes to address 0. *)
Example no_entry_jump :
  (fun r => r.1) <$> main (C := refusing) (flash_with (concat (map item_bytes sample_items))) 9 (fun _ => 0) = Some (mkArgs 2 0x40000 None).
Proof. vm_compute. reflexivity. Qed.

(** With a secure context, an image whose signature is refused is entered as well
    when the processor goes on after the wait. *)
Example refused_entered :
  (fun b => entry (args b)) <$> fast_boot_flash (flash_with (image_bytes sample_items 0x42001)) 9 0x2000
                                  (mkFast (mkArgs 0 0 None) 0 (fun _ => 0) (Some Refusing) []) = Some (Some 0x42001).
Proof. vm_compute. reflexivity. Qed.
