(* ===== verification/Storage.v ===== *)
(** * The file interface of the flash programmer (apps/gordon/src/hio_storage.c)

    The messages with which a host reads, writes and lists files.  A message and
    the data of a response are chains of fragments; the file system is the one of
    FileSys.v, and the directory calls of the C library are a class. *)

From S2P Require Import Prelude FileSys FsUtils BasicJson CString.

Definition EIO : Z := 5.
Definition ENOMEM : Z := 12.
Definition EINVAL : Z := 22.
Definition ENOENT : Z := 2.
Definition DTYPE_FILE : Z := 1.
Definition PATH_LEN : Z := 68.

(** Directories; an error is its number. *)
Class DirOps := {
  fs_mkdir : string -> M Z;                       (* 0 or an error *)
  fs_rmdir : string -> M Z;
  fs_rename : string -> string -> M Z;
  fs_stat : string -> M (Z + Z * Z);              (* an error, or mode and size *)
  fs_list : string -> M (option (list (bytes * Z)));  (* names and types *)
  fopen_errno : Z;
}.

(** ** Files *)

(** [ftell] at the end of the file. *)
Definition file_size (path : string) : M Z :=
  fp <-- fopen_r path ;;
  match fp with
  | None => m_ret (- EINVAL)
  | Some content => m_ret (zlen content)
  end.

Definition alloc_path (path fn : bytes) : bytes := path ++ str "/" ++ fn.

(** The result and the bytes put in the buffer. *)
Definition read_file (path : string) (length offset : Z) : M (Z * bytes) :=
  fp <-- fopen_r path ;;
  match fp with
  | None => m_ret (- EINVAL, [])
  | Some content =>
      if s32 offset <? 0 then m_ret (- EINVAL, [])
      else
        l <-- fread path (drop (Z.to_nat offset) content) length ;;
        m_ret (zlen l, l)
  end.

(** The loop over the fragments. *)
Fixpoint write_frags (path : string) (data : list bytes) (result : Z) : M Z :=
  match data with
  | [] => m_ret result
  | pf :: data =>
      n <-- fwrite path pf ;;
      if negb (n =? zlen pf) then m_ret (result + n) else write_frags path data (result + n)
  end.

(** [fopen(path, "ab")]: creates the file if there is none. *)
Definition fopen_a (path : string) : M bool := fun E w =>
  if env_fopen_w E path then (do_eff (EffAppend path []) ;;; m_ret true) E w else (Ret false, w).

Section Storage.
Context `{DirOps}.

(** With an offset the stream is used before it is tested. *)
Definition write_file (path : string) (offset : Z) (data : list bytes) : M Z :=
  if offset =? 0 then
    fp <-- fopen_w path ;;
    if negb fp then m_ret (- fopen_errno) else write_frags path data 0
  else
    fp <-- fopen_a path ;;
    if negb fp then m_end Undefined
    else
      content <-- fopen_r path ;;
      let result := zlen (default [] content) in
      if negb (result =? offset) then m_ret (- EIO) else write_frags path data result.

(** ** Handlers *)

(** The status and the fragment of the response. *)
Definition handle_file_read (offset length : Z) (path : string) : M (Z * bytes) :=
  ok <-- os_alloc length ;;
  if negb ok then m_ret (ENOMEM, [])
  else
    r <-- read_file path length offset ;;
    if 0 <=? r.1 then m_ret (0, r.2) else m_ret (- r.1, []).

(** The status and the length of the response. *)
Definition handle_file_write (offset : Z) (path : string) (data : list bytes) : M (Z * Z) :=
  let length := zlen (concat data) in
  result <-- write_file path offset data ;;
  if result <? 0 then m_ret (result, 0)
  else m_ret (if result =? length then 0 else EIO, result).

Definition handle_file_unlink (path : string) : M Z :=
  fp <-- fopen_r path ;;
  match fp with
  | None => m_ret (- ENOENT)
  | Some _ => unlink path ;;; m_ret 0
  end.

Definition handle_file_mkdir (path : string) : M Z := e <-- fs_mkdir path ;; m_ret (- e).
Definition handle_file_rmdir (path : string) : M Z := e <-- fs_rmdir path ;; m_ret (- e).
Definition handle_file_rename (oldpath newpath : string) : M Z := e <-- fs_rename oldpath newpath ;; m_ret (- e).

(** Status, size and mode. *)
Definition fill_stat (path : string) : M (Z * Z * Z) :=
  st <-- fs_stat path ;;
  match st with
  | inl e => m_ret (- e, 0, 0)
  | inr (mode, size) => m_ret (0, size, mode)
  end.

Definition handle_file_stat (path : string) : M (Z * Z * Z) := fill_stat path.

(** The entries are read one after the other until the index is reached. *)
Fixpoint get_dirent_at_offset (dp : list (bytes * Z)) (offset i : Z) : option (bytes * Z) :=
  match dp with
  | [] => None
  | dent :: dp => if negb (offset =? i) then get_dirent_at_offset dp offset (i + 1) else Some dent
  end.

(** Status, mode and size, and the name. *)
Definition handle_file_dir_read (offset : Z) (path : bytes) : M (Z * Z * Z * bytes) :=
  dp <-- fs_list (to_string path) ;;
  match dp with
  | None => m_ret (- EINVAL, 0, 0, [])
  | Some entries =>
      match get_dirent_at_offset entries offset 0 with
      | None => m_ret (- EIO, 0, 0, [])
      | Some (name, mode) =>
          if mode =? DTYPE_FILE then
            size <-- file_size (to_string (alloc_path path name)) ;;
            m_ret (0, mode, u32 size, name)
          else m_ret (0, mode, 0, name)
      end
  end.

(** ** Messages *)

(** A path of a request: its bytes up to the zero, which must be there. *)
Definition path_of (l : bytes) : option bytes := if bool_decide (0 ∈ take (Z.to_nat PATH_LEN) l) then Some (cstr (take (Z.to_nat PATH_LEN) l)) else None.

Definition with_path {A} (l : bytes) (k : bytes -> M A) : M A := match path_of l with Some p => k p | None => m_end Undefined end.

(** The response of a handler whose request is too short has only a status. *)
Definition sized {A} (size : Z) (msg : list bytes) (k : bytes -> list bytes -> M (Z + A)) : M (Z + A) :=
  match msg with
  | [] => m_end Undefined
  | pf :: frags => if zlen pf <? size then m_ret (inl EIO) else k pf frags
  end.

Definition u32_at (l : bytes) (o : nat) : Z := le_value (take 4 (drop o l)).

Definition storage_file_read (msg : list bytes) : M (Z + Z * bytes) :=
  sized 76 msg (fun req _ => with_path (drop 8 req) (fun p => r <-- handle_file_read (u32_at req 0) (u32_at req 4) (to_string p) ;; m_ret (inr r))).

(** [while(pf != NULL && pfrag_size(pf) == 0) pf = pfrag_next(pf);] *)
Fixpoint skip_empty (frags : list bytes) : list bytes :=
  match frags with [] :: frags => skip_empty frags | _ => frags end.

Definition storage_file_write (msg : list bytes) : M (Z + Z * Z) :=
  sized 76 msg (fun req frags =>
    with_path (drop 8 req) (fun p =>
      r <-- handle_file_write (u32_at req 4) (to_string p) (skip_empty (drop 76 req :: frags)) ;; m_ret (inr r))).

Definition storage_file_unlink (msg : list bytes) : M (Z + Z) :=
  sized 68 msg (fun req _ => with_path req (fun p => r <-- handle_file_unlink (to_string p) ;; m_ret (inr r))).

Definition storage_file_mkdir (msg : list bytes) : M (Z + Z) :=
  sized 68 msg (fun req _ => with_path req (fun p => r <-- handle_file_mkdir (to_string p) ;; m_ret (inr r))).

Definition storage_file_rmdir (msg : list bytes) : M (Z + Z) :=
  sized 68 msg (fun req _ => with_path req (fun p => r <-- handle_file_rmdir (to_string p) ;; m_ret (inr r))).

Definition storage_file_rename (msg : list bytes) : M (Z + Z) :=
  sized 136 msg (fun req _ => with_path req (fun p => with_path (drop 68 req) (fun q => r <-- handle_file_rename (to_string p) (to_string q) ;; m_ret (inr r)))).

Definition storage_file_stat (msg : list bytes) : M (Z + Z * Z * Z) :=
  sized 68 msg (fun req _ => with_path req (fun p => r <-- handle_file_stat (to_string p) ;; m_ret (inr r))).

Definition storage_file_dir_read (msg : list bytes) : M (Z + Z * Z * Z * bytes) :=
  sized 72 msg (fun req _ => with_path (drop 4 req) (fun p => r <-- handle_file_dir_read (u32_at req 0) p ;; m_ret (inr r))).

End Storage.

(** ** What the host sees *)

(** The two requests, as messages of one or more fragments. *)
Definition path_field (path : bytes) : bytes := path ++ replicate (Z.to_nat (PATH_LEN - zlen path)) 0.
Definition write_msg (mode offset : Z) (path : bytes) (frags : list bytes) : list bytes :=
  (word_le mode ++ word_le offset ++ path_field path ++ default [] (head frags)) :: tail frags.
Definition read_msg (offset length : Z) (path : bytes) : list bytes := [word_le offset ++ word_le length ++ path_field path].

Definition path_ok (path : bytes) : Prop := zlen path < PATH_LEN /\ 0 ∉ path.

Lemma cstr_cut p l : 0 ∉ p -> cstr (p ++ 0 :: l) = p.
Proof.
  induction p as [|c p IH]; [done|]. rewrite not_elem_of_cons. intros [Hc Hp]. cbn [app cstr]. rewrite (proj2 (Z.eqb_neq _ _)) by done. by rewrite IH.
Qed.

Lemma zlen_path_field path : path_ok path -> zlen (path_field path) = PATH_LEN.
Proof. intros [Hl _]. unfold path_field. rewrite zlen_app. unfold zlen at 2. rewrite length_replicate. lia. Qed.

Lemma path_of_field path l : path_ok path -> path_of (path_field path ++ l) = Some path.
Proof.
  intros Hp. pose proof (zlen_path_field path Hp) as Hz. destruct Hp as [Hl H0]. unfold path_of. rewrite <- Hz. unfold zlen. rewrite Nat2Z.id, take_app_length.
  unfold path_field. destruct (Z.to_nat (PATH_LEN - zlen path)) as [|n] eqn:En; [lia|]. cbn [replicate]. rewrite cstr_cut by done.
  rewrite bool_decide_eq_true_2; [done|]. rewrite elem_of_app, elem_of_cons. right. by left.
Qed.

Section Host.
Context `{!DirOps} (E : env) (HE : env_good E).

Lemma fwrite_done p l w : fwrite p l E w = (Ret (zlen l), mkWorld (<[p := default [] (w_disk w !! p) ++ l]> (w_disk w)) (w_log w ++ [EffAppend p l])).
Proof.
  unfold fwrite. rewrite (good_fwrite E HE). rewrite Z.min_id, Z.max_r by apply zlen_nonneg. unfold zlen at 1. rewrite Nat2Z.id, firstn_all. done.
Qed.

Lemma frags_written p data : forall result w, exists w', write_frags p data result E w = (Ret (result + zlen (concat data)), w')
  /\ (data = [] /\ w' = w \/ w_disk w' = <[p := default [] (w_disk w !! p) ++ concat data]> (w_disk w)).
Proof.
  induction data as [|l data IH]; intros result w; cbn [write_frags concat].
  { exists w. change (zlen []) with 0. rewrite Z.add_0_r. by split; [|left]. }
  unfold m_bind. rewrite fwrite_done. rewrite Z.eqb_refl. cbn [negb].
  set (w1 := mkWorld _ _). destruct (IH (result + zlen l) w1) as (w' & -> & Hd). exists w'. rewrite zlen_app, Z.add_assoc. split; [done|]. right.
  destruct Hd as [[-> ->]|Hd]; [by cbn [w1 w_disk concat]; rewrite app_nil_r|]. rewrite Hd. unfold w1. cbn [w_disk].
  by rewrite lookup_insert_eq, insert_insert_eq, app_assoc.
Qed.

(** A piece of a file whose beginning, of [offset] bytes, is there. *)
Lemma piece_written p data old w : (zlen old = 0 \/ w_disk w !! p = Some old) -> concat data <> [] ->
  exists w', handle_file_write (zlen old) p data E w
    = (Ret (if zlen old =? 0 then 0 else EIO, zlen old + zlen (concat data)), w')
  /\ w_disk w' = <[p := old ++ concat data]> (w_disk w).
Proof.
  intros Hold Hne. unfold handle_file_write, write_file. pose proof (zlen_nonneg old). pose proof (zlen_nonneg (concat data)).
  assert (Hdne : data <> []) by (by intros ->). destruct (Z.eqb_spec (zlen old) 0) as [E0|E0].
  - apply zlen_0_nil in E0 as ->. unfold m_bind, fopen_w. rewrite (good_fopen_w E HE). unfold do_eff, m_bind, m_ret. cbn [negb].
    set (w1 := mkWorld _ _). destruct (frags_written p data 0 w1) as (w' & -> & [[? _]|Hd]); [done|].
    rewrite (proj2 (Z.ltb_ge _ _)), Z.add_0_l, Z.eqb_refl by lia. exists w'. split; [done|]. rewrite Hd. unfold w1. cbn [w_disk apply_eff].
    by rewrite lookup_insert_eq, insert_insert_eq.
  - destruct Hold as [?|Hold]; [done|]. unfold m_bind, fopen_a. rewrite (good_fopen_w E HE). unfold do_eff, m_bind, m_ret. cbn [negb].
    set (w1 := mkWorld _ _). assert (Hp1 : w_disk w1 !! p = Some old) by (cbn; by rewrite Hold, lookup_insert_eq; cbn; rewrite app_nil_r).
    unfold fopen_r. rewrite Hp1. cbn [default from_option id]. rewrite Z.eqb_refl. cbn [negb].
    destruct (frags_written p data (zlen old) w1) as (w' & -> & [[? _]|Hd]); [done|]. rewrite (proj2 (Z.ltb_ge _ _)) by lia.
    rewrite (proj2 (Z.eqb_neq (zlen old + _) (zlen (concat data)))) by lia. exists w'. split; [done|]. rewrite Hd, Hp1. cbn [default from_option id].
    unfold w1. cbn [w_disk apply_eff]. by rewrite insert_insert_eq.
Qed.

Lemma concat_skip_empty frags : concat (skip_empty frags) = concat frags.
Proof. induction frags as [|[|x l] frags IH]; [done| |done]. cbn [skip_empty concat app]. exact IH. Qed.

Lemma write_msg_handled mode offset path frags w : word mode -> word offset -> path_ok path -> frags <> [] ->
  storage_file_write (write_msg mode offset path frags) E w
  = m_bind (handle_file_write offset (to_string path) (skip_empty frags)) (fun r => m_ret (inr r)) E w.
Proof.
  intros Hm Ho Hp Hf. destruct frags as [|l frags]; [done|]. unfold storage_file_write, sized, write_msg. cbn [head tail default from_option id].
  pose proof (zlen_path_field path Hp) as Hz. set (req := word_le mode ++ word_le offset ++ path_field path ++ l).
  assert (Hreq : zlen req = 76 + zlen l) by (unfold req; rewrite !zlen_app, Hz; change (zlen (word_le _)) with 4; unfold PATH_LEN; lia).
  pose proof (zlen_nonneg l). rewrite (proj2 (Z.ltb_ge _ _)) by lia. unfold with_path. change (drop 8 req) with (path_field path ++ l).
  rewrite path_of_field by done. unfold u32_at. change (drop 4 req) with (word_le offset ++ path_field path ++ l). rewrite le_word_le by done.
  replace (drop 76 req) with l; [done|]. change (drop 76 req) with (drop 68 (path_field path ++ l)).
  rewrite drop_app_le by (unfold zlen, PATH_LEN in Hz; lia). rewrite drop_ge by (unfold zlen, PATH_LEN in Hz; lia). done.
Qed.

Lemma read_msg_handled offset n path w : word offset -> word n -> path_ok path ->
  storage_file_read (read_msg offset n path) E w = m_bind (handle_file_read offset n (to_string path)) (fun r => m_ret (inr r)) E w.
Proof.
  intros Ho Hn Hp. unfold storage_file_read, sized, read_msg. pose proof (zlen_path_field path Hp) as Hz.
  set (req := word_le offset ++ word_le n ++ path_field path).
  assert (Hreq : zlen req = 76) by (unfold req; rewrite !zlen_app, Hz; done). rewrite (proj2 (Z.ltb_ge _ _)) by lia.
  unfold with_path. change (drop 8 req) with (path_field path). rewrite <- (app_nil_r (path_field path)), path_of_field by done.
  unfold u32_at. rewrite drop_0. change (drop 4 req) with (word_le n ++ path_field path). unfold req. by rewrite !le_word_le by done.
Qed.

(** A file sent in pieces, each from the offset where the last one ended. *)
Fixpoint send_pieces (path sent : bytes) (pieces : list (list bytes)) : M (list (Z + Z * Z)) :=
  match pieces with
  | [] => m_ret []
  | p :: pieces =>
      r <-- storage_file_write (write_msg 1 (zlen sent) path p) ;;
      rs <-- send_pieces path (sent ++ concat p) pieces ;;
      m_ret (r :: rs)
  end.

(** The responses: the first piece is reported as a success. *)
Fixpoint piece_answers (sent : bytes) (pieces : list (list bytes)) : list (Z + Z * Z) :=
  match pieces with
  | [] => []
  | p :: pieces => inr (if zlen sent =? 0 then 0 else EIO, zlen sent + zlen (concat p)) :: piece_answers (sent ++ concat p) pieces
  end.

Lemma pieces_sent path pieces : forall sent w, path_ok path -> Forall (fun p => concat p <> []) pieces ->
  zlen sent + zlen (concat (map (@concat Z) pieces)) < 2 ^ 31 -> (zlen sent = 0 \/ w_disk w !! to_string path = Some sent) -> pieces <> [] ->
  exists w', send_pieces path sent pieces E w = (Ret (piece_answers sent pieces), w')
    /\ w_disk w' = <[to_string path := sent ++ concat (map (@concat Z) pieces)]> (w_disk w).
Proof.
  induction pieces as [|p pieces IH]; intros sent w Hp Hne Hl Hd Hnn; [done|]. apply Forall_cons in Hne as [Hn1 Hne]. cbn [map concat] in Hl |- *.
  rewrite zlen_app in Hl. pose proof (zlen_nonneg sent). pose proof (zlen_nonneg (concat p)). pose proof (zlen_nonneg (concat (map (@concat Z) pieces))).
  cbn [send_pieces piece_answers]. unfold m_bind at 1.
  rewrite write_msg_handled by (done || (unfold word; lia) || (by intros ->)). unfold m_bind at 1.
  destruct (piece_written (to_string path) (skip_empty p) sent w Hd) as (w1 & -> & Hw1); [by rewrite concat_skip_empty|].
  rewrite concat_skip_empty in Hw1 |- *. unfold m_ret at 1. destruct (decide (pieces = [])) as [->|Hpn].
  - exists w1. cbn [map concat]. rewrite app_nil_r. by split.
  - destruct (IH (sent ++ concat p) w1) as (w2 & E2 & Hw2); try done; [rewrite zlen_app; lia|right; by rewrite Hw1, lookup_insert_eq|].
    exists w2. unfold m_bind. rewrite E2. split; [done|]. rewrite Hw2, Hw1, insert_insert_eq. by rewrite app_assoc.
Qed.

End Host.

(** C24: a file through the interface of the host.  A file sent in pieces, each
    a chain of fragments from the offset where the last piece ended, is stored
    as their concatenation, whatever was there before, and any range of it is
    read back; every piece but the first is answered with an I/O error, although
    all its bytes were stored and counted. *)
Theorem file_through_host `{!DirOps} E w path pieces o n :
  env_good E -> path_ok path -> pieces <> [] -> Forall (fun p => concat p <> []) pieces -> zlen (concat (map (@concat Z) pieces)) < 2 ^ 31 ->
  0 <= o < 2 ^ 31 -> word n ->
  let content := concat (map (@concat Z) pieces) in
  exists w', send_pieces path [] pieces E w = (Ret (piece_answers [] pieces), w')
    /\ w_disk w' = <[to_string path := content]> (w_disk w)
    /\ storage_file_read (read_msg o n path) E w' = (Ret (inr (0, take (Z.to_nat n) (drop (Z.to_nat o) content))), w').
Proof.
  intros HE Hp Hnn Hne Hl Ho Hn content.
  destruct (pieces_sent E HE path pieces [] w) as (w' & Es & Hd); try done; [by left|]. exists w'. split; [done|]. split; [done|].
  rewrite read_msg_handled by (done || (unfold word; lia)). unfold handle_file_read, m_bind, os_alloc. rewrite (good_alloc E HE). cbn [negb].
  unfold read_file, m_bind, fopen_r. rewrite Hd, lookup_insert_eq. rewrite s32_small by lia. rewrite (proj2 (Z.ltb_ge _ _)) by lia.
  unfold fread. rewrite (good_fread E HE). unfold m_ret. cbn [fst snd]. rewrite (proj2 (Z.leb_le _ _)) by apply zlen_nonneg. done.
Qed.

#[global] Instance no_dirs : DirOps := {
  fs_mkdir _ := m_ret 0; fs_rmdir _ := m_ret 0; fs_rename _ _ := m_ret 0; fs_stat _ := m_ret (inl ENOENT); fs_list _ := m_ret None; fopen_errno := ENOENT;
}.

Definition works : env := mkEnv (fun _ => true) (fun _ => true) (fun _ n => n) (fun _ => true) 0 [].

Lemma file_through_host_witness :
  exists w', send_pieces (str "/a") [] [[[1; 2]; [3]]; [[4; 5]]] works (mkWorld ∅ []) = (Ret [inr (0, 3); inr (EIO, 5)], w')
    /\ w_disk w' = <["/a"%string := [1; 2; 3; 4; 5]]> ∅
    /\ storage_file_read (read_msg 1 3 (str "/a")) works w' = (Ret (inr (0, [2; 3; 4])), w').
Proof.
  apply (file_through_host works (mkWorld ∅ []) (str "/a") [[[1; 2]; [3]]; [[4; 5]]] 1 3).
  - by split.
  - split; [done|]. apply (bool_decide_unpack _). by vm_compute.
  - done.
  - by repeat constructor.
  - by vm_compute.
  - lia.
  - by unfold word.
Defined.
