(* ===== verification/Sntp.v ===== *)
(** * SNTP client

    components/sntp/src/sntp.c: requests and answers, retries, the choice of the
    server and the clock the application reads.  lwIP, whose code is not in the
    repository, is the class [Lwip]; its timers and name resolutions call the
    client back, which is a transition system here ([sntp_step]).  The theorems
    show which answers set the clock, that the client always has a next request
    planned as long as it does not drop a packet, and the two ways it gets out of
    step: a dropped packet ends the polling, and stopping it does not. *)

From S2P Require Import Prelude.

(** ** Constants and options *)

Definition SNTP_TIMEOUT_VAL_DEFAULT : Z := 3.
Definition SNTP_TIMEOUT_VAL_MAX : Z := 8.

Definition SNTP_ERR_KOD : Z := 1.
Definition ERR_OK : Z := 0.
Definition ERR_TIMEOUT : Z := -3.
Definition ERR_INPROGRESS : Z := -5.
Definition ERR_ARG : Z := -16.

Definition SNTP_MSG_LEN : Z := 48.
Definition SNTP_OFFSET_LI_VN_MODE : Z := 0.
Definition SNTP_LI_NO_WARNING : Z := 0.
Definition SNTP_VERSION : Z := Z.shiftl 4 3.
Definition SNTP_MODE_MASK : Z := 7.
Definition SNTP_MODE_CLIENT : Z := 3.
Definition SNTP_MODE_SERVER : Z := 4.
Definition SNTP_MODE_BROADCAST : Z := 5.
Definition SNTP_OFFSET_STRATUM : Z := 1.
Definition SNTP_STRATUM_KOD : Z := 0.
Definition SNTP_OFFSET_ORIGINATE_TIME : Z := 24.
Definition SNTP_OFFSET_TRANSMIT_TIME : Z := 40.
Definition DIFF_SEC_1900_1970 : Z := 2208988800.
Definition DIFF_SEC_1970_2036 : Z := 2085978496.

Definition SNTP_OPMODE_POLL : Z := 0.
Definition SNTP_OPMODE_LISTENONLY : Z := 1.

Definition SNTP_PORT : Z := 123.
Definition SNTP_RECV_TIMEOUT : Z := 15000.
Definition SNTP_UPDATE_DELAY : Z := 3600000.
Definition SNTP_RETRY_TIMEOUT : Z := SNTP_RECV_TIMEOUT.
Definition SNTP_RETRY_TIMEOUT_MAX : Z := SNTP_RETRY_TIMEOUT * 10.

Definition SNTP_SERVER_ADDRESS : string := "pool.ntp.org".

(** The options a build may set; the delays are the defaults. *)
Class SntpOpts := {
  SNTP_MAX_SERVERS : Z;
  SNTP_CHECK_RESPONSE : Z;
}.

(** The defaults of sntp_opts.h and opt.h. *)
Definition default_opts : SntpOpts := {| SNTP_MAX_SERVERS := 1; SNTP_CHECK_RESPONSE := 0 |}.

(** ** lwIP *)

(** The functions passed to [sys_timeout]. *)
Inductive handler := h_request | h_try_next_server.

#[global] Instance handler_eq : EqDecision handler.
Proof. solve_decision. Defined.

(** [dns_gethostbyname] gives its result and the address it stored. *)
Class Lwip (W : Type) := {
  dns_gethostbyname : string -> W -> Z * Z * W;
  pbuf_alloc : Z -> W -> bool * W;
  udp_new : W -> bool * W;
  udp_bind : Z -> W -> W;
  udp_sendto : bytes -> Z -> Z -> W -> W;
  udp_remove : W -> W;
  sys_timeout : Z -> handler -> W -> W;
  sys_untimeout : handler -> W -> W;
  get_system_time : W -> Z * Z;
}.

(** ** State *)

(** An address is the word of an IPv4 address, 0 being any. *)
Record sntp_server := mkServer { sv_name : option string; sv_addr : Z }.

Record sntp := mkSntp {
  time_now : Z;
  ntp_lock : Z;
  sntpTimeOut : Z;
  sntp_opmode : Z;
  sntp_pcb : bool;
  sntp_servers : list sntp_server;
  sntp_current_server : Z;
  sntp_retry_timeout : Z;
  sntp_last_server_address : Z;
  sntp_last_timestamp_sent : Z * Z;
  sntp_set_servers_from_dhcp : bool;
}.

Definition set_clock t n s := mkSntp t n (sntpTimeOut s) (sntp_opmode s) (sntp_pcb s) (sntp_servers s) (sntp_current_server s)
  (sntp_retry_timeout s) (sntp_last_server_address s) (sntp_last_timestamp_sent s) (sntp_set_servers_from_dhcp s).
Definition set_pcb b s := mkSntp (time_now s) (ntp_lock s) (sntpTimeOut s) (sntp_opmode s) b (sntp_servers s) (sntp_current_server s)
  (sntp_retry_timeout s) (sntp_last_server_address s) (sntp_last_timestamp_sent s) (sntp_set_servers_from_dhcp s).
Definition set_servers l s := mkSntp (time_now s) (ntp_lock s) (sntpTimeOut s) (sntp_opmode s) (sntp_pcb s) l (sntp_current_server s)
  (sntp_retry_timeout s) (sntp_last_server_address s) (sntp_last_timestamp_sent s) (sntp_set_servers_from_dhcp s).
Definition set_current i s := mkSntp (time_now s) (ntp_lock s) (sntpTimeOut s) (sntp_opmode s) (sntp_pcb s) (sntp_servers s) i
  (sntp_retry_timeout s) (sntp_last_server_address s) (sntp_last_timestamp_sent s) (sntp_set_servers_from_dhcp s).
Definition set_retry t s := mkSntp (time_now s) (ntp_lock s) (sntpTimeOut s) (sntp_opmode s) (sntp_pcb s) (sntp_servers s) (sntp_current_server s)
  t (sntp_last_server_address s) (sntp_last_timestamp_sent s) (sntp_set_servers_from_dhcp s).
Definition set_last_address a s := mkSntp (time_now s) (ntp_lock s) (sntpTimeOut s) (sntp_opmode s) (sntp_pcb s) (sntp_servers s) (sntp_current_server s)
  (sntp_retry_timeout s) a (sntp_last_timestamp_sent s) (sntp_set_servers_from_dhcp s).
Definition set_last_sent t s := mkSntp (time_now s) (ntp_lock s) (sntpTimeOut s) (sntp_opmode s) (sntp_pcb s) (sntp_servers s) (sntp_current_server s)
  (sntp_retry_timeout s) (sntp_last_server_address s) t (sntp_set_servers_from_dhcp s).
Definition set_opmode m s := mkSntp (time_now s) (ntp_lock s) (sntpTimeOut s) m (sntp_pcb s) (sntp_servers s) (sntp_current_server s)
  (sntp_retry_timeout s) (sntp_last_server_address s) (sntp_last_timestamp_sent s) (sntp_set_servers_from_dhcp s).
Definition set_time_out t s := mkSntp (time_now s) (ntp_lock s) t (sntp_opmode s) (sntp_pcb s) (sntp_servers s) (sntp_current_server s)
  (sntp_retry_timeout s) (sntp_last_server_address s) (sntp_last_timestamp_sent s) (sntp_set_servers_from_dhcp s).
Definition set_dhcp b s := mkSntp (time_now s) (ntp_lock s) (sntpTimeOut s) (sntp_opmode s) (sntp_pcb s) (sntp_servers s) (sntp_current_server s)
  (sntp_retry_timeout s) (sntp_last_server_address s) (sntp_last_timestamp_sent s) b.

Definition server_at (i : Z) (s : sntp) : sntp_server := nth (Z.to_nat i) (sntp_servers s) (mkServer None 0).

Definition set_server_at (i : Z) (v : sntp_server) (s : sntp) : sntp := set_servers (<[Z.to_nat i := v]> (sntp_servers s)) s.

(** ** Byte order *)

Definition ntohl (n : Z) : Z := le_value (rev (word_le n)).
Abbreviation htonl := ntohl.

(** [pbuf_copy_partial(p, &x, 4, off)] to a word. *)
Definition get_word (p : bytes) (off : Z) : Z := le_value (take 4 (drop (Z.to_nat off) p)).

(** ** The functions *)

(** The clock and the semaphore after a time stamp (its word of seconds as it
    came in the packet). *)
Definition sntp_process (receive_timestamp : Z) (s : sntp) : sntp :=
  let rx_secs := ntohl receive_timestamp in
  let is_1900_based := negb (Z.land rx_secs 0x80000000 =? 0) in
  let t := if is_1900_based then u32 (rx_secs - DIFF_SEC_1900_1970) else u32 (rx_secs + DIFF_SEC_1970_2036) in
  set_clock t (ntp_lock s + 1) s.

(** What the semaphore holds when the wait of [sntpTimeOut] seconds ends
    decides. *)
Definition sntp_time (s : sntp) : Z * sntp :=
  if 0 <? ntp_lock s then (time_now s, set_clock (time_now s) (ntp_lock s - 1) s) else (0, s).

Definition SNTP_RESET_RETRY_TIMEOUT (s : sntp) : sntp := set_retry SNTP_RETRY_TIMEOUT s.

(** [!ip_addr_isany(addr) || name != NULL] *)
Definition usable (v : sntp_server) : bool := negb (sv_addr v =? 0) || bool_decide (is_Some (sv_name v)).

Section Client.
Context {W : Type} `{SntpOpts} `{Lwip W}.

Definition sntp_initialize_request (s : sntp) (w : W) : bytes * sntp :=
  let req := replicate (Z.to_nat SNTP_MSG_LEN) 0 in
  let req := memcpy req SNTP_OFFSET_LI_VN_MODE [Z.lor (Z.lor SNTP_LI_NO_WARNING SNTP_VERSION) SNTP_MODE_CLIENT] in
  if 2 <=? SNTP_CHECK_RESPONSE then
    let '(sec, us) := get_system_time w in
    let sent := (htonl (u32 (sec + DIFF_SEC_1900_1970)), htonl us) in
    (memcpy req SNTP_OFFSET_TRANSMIT_TIME (word_le sent.1 ++ word_le sent.2), set_last_sent sent s)
  else (req, s).

Definition sntp_retry (s : sntp) (w : W) : sntp * W :=
  let w := sys_timeout (sntp_retry_timeout s) h_request w in
  let new_retry_timeout := u32 (Z.shiftl (sntp_retry_timeout s) 1) in
  if (new_retry_timeout <=? SNTP_RETRY_TIMEOUT_MAX) && (sntp_retry_timeout s <? new_retry_timeout) then (set_retry new_retry_timeout s, w) else (s, w).

Definition sntp_send_request (server_addr : Z) (s : sntp) (w : W) : sntp * W :=
  let '(p, w) := pbuf_alloc SNTP_MSG_LEN w in
  if p then
    let '(sntpmsg, s) := sntp_initialize_request s w in
    let w := if sntp_pcb s then udp_sendto sntpmsg server_addr SNTP_PORT w else w in
    let w := sys_timeout SNTP_RECV_TIMEOUT h_try_next_server w in
    (if 1 <=? SNTP_CHECK_RESPONSE then set_last_address server_addr s else s, w)
  else (s, sys_timeout SNTP_RETRY_TIMEOUT h_request w).

(** The end of [sntp_request], with the address found or not. *)
Definition request_to (err addr : Z) (s : sntp) (w : W) : sntp * W :=
  if err =? ERR_OK then sntp_send_request addr s w else (s, sys_timeout SNTP_RETRY_TIMEOUT h_try_next_server w).

Definition sntp_request (s : sntp) (w : W) : sntp * W :=
  let i := sntp_current_server s in
  match sv_name (server_at i s) with
  | Some name =>
      let s := set_server_at i (mkServer (Some name) 0) s in
      let '(err, addr, w) := dns_gethostbyname name w in
      if err =? ERR_INPROGRESS then (s, w)
      else request_to err addr (if err =? ERR_OK then set_server_at i (mkServer (Some name) addr) s else s) w
  | None =>
      let addr := sv_addr (server_at i s) in
      request_to (if addr =? 0 then ERR_ARG else ERR_OK) addr s w
  end.

Definition next_server (i : Z) : Z := let i := u8 (i + 1) in if SNTP_MAX_SERVERS <=? i then 0 else i.

Fixpoint try_loop (n : nat) (old_server : Z) (s : sntp) (w : W) : sntp * W :=
  match n with
  | O => sntp_retry (set_current old_server s) w
  | S n =>
      let s := set_current (next_server (sntp_current_server s)) s in
      if usable (server_at (sntp_current_server s) s) then sntp_request (SNTP_RESET_RETRY_TIMEOUT s) w
      else try_loop n old_server s w
  end.

(** With one server this is [sntp_retry]. *)
Definition sntp_try_next_server (s : sntp) (w : W) : sntp * W :=
  if 1 <? SNTP_MAX_SERVERS then try_loop (Z.to_nat (SNTP_MAX_SERVERS - 1)) (sntp_current_server s) s w
  else sntp_retry s w.

(** The value of [err] when the packet has been looked at. *)
Definition recv_check (p : bytes) (addr port : Z) (s : sntp) : Z :=
  if (SNTP_CHECK_RESPONSE <? 1) || ((negb (sntp_opmode s =? SNTP_OPMODE_POLL) || (addr =? sntp_last_server_address s)) && (port =? SNTP_PORT)) then
    if zlen p =? SNTP_MSG_LEN then
      let mode := Z.land (bget p SNTP_OFFSET_LI_VN_MODE) SNTP_MODE_MASK in
      if ((sntp_opmode s =? SNTP_OPMODE_POLL) && (mode =? SNTP_MODE_SERVER)) ||
         ((sntp_opmode s =? SNTP_OPMODE_LISTENONLY) && (mode =? SNTP_MODE_BROADCAST)) then
        if bget p SNTP_OFFSET_STRATUM =? SNTP_STRATUM_KOD then SNTP_ERR_KOD
        else if (2 <=? SNTP_CHECK_RESPONSE) &&
                (negb (get_word p SNTP_OFFSET_ORIGINATE_TIME =? (sntp_last_timestamp_sent s).1) ||
                 negb (get_word p (SNTP_OFFSET_ORIGINATE_TIME + 4) =? (sntp_last_timestamp_sent s).2)) then ERR_ARG
        else ERR_OK
      else ERR_TIMEOUT
    else ERR_ARG
  else ERR_TIMEOUT.

Definition sntp_recv (p : bytes) (addr port : Z) (s : sntp) (w : W) : sntp * W :=
  let w := sys_untimeout h_request (sys_untimeout h_try_next_server w) in
  let err := recv_check p addr port s in
  if err =? ERR_OK then
    let s := sntp_process (get_word p SNTP_OFFSET_TRANSMIT_TIME) s in
    if sntp_opmode s =? SNTP_OPMODE_POLL then (SNTP_RESET_RETRY_TIMEOUT s, sys_timeout SNTP_UPDATE_DELAY h_request w)
    else (s, w)
  else if negb (err =? ERR_TIMEOUT) then
    if sntp_opmode s =? SNTP_OPMODE_POLL then
      if err =? SNTP_ERR_KOD then sntp_try_next_server s w else sntp_retry s w
    else (s, w)
  else (s, w).

Definition sntp_dns_found (ipaddr : option Z) (s : sntp) (w : W) : sntp * W :=
  match ipaddr with
  | Some a => sntp_send_request a s w
  | None => sntp_try_next_server s w
  end.

Definition sntp_setservername (idx : Z) (server : option string) (s : sntp) : sntp :=
  if idx <? SNTP_MAX_SERVERS then set_server_at idx (mkServer server (sv_addr (server_at idx s))) s else s.

Definition sntp_getservername (idx : Z) (s : sntp) : option string :=
  if idx <? SNTP_MAX_SERVERS then sv_name (server_at idx s) else None.

Definition sntp_setserver (idx : Z) (server : option Z) (s : sntp) : sntp :=
  if idx <? SNTP_MAX_SERVERS then set_server_at idx (mkServer None (default 0 server)) s else s.

(** A failed assertion is [None]. *)
Definition sntp_init (s : sntp) (w : W) : option (sntp * W) :=
  let s := sntp_setservername 0 (Some SNTP_SERVER_ADDRESS) s in
  let s := set_clock (time_now s) 0 s in
  if sntp_pcb s then Some (s, w)
  else
    let '(pcb, w) := udp_new w in
    if pcb then
      let s := set_pcb true s in
      if sntp_opmode s =? SNTP_OPMODE_POLL then Some (sntp_request (SNTP_RESET_RETRY_TIMEOUT s) w)
      else if sntp_opmode s =? SNTP_OPMODE_LISTENONLY then Some (s, udp_bind SNTP_PORT w)
      else Some (s, w)
    else None.

Definition sntp_stop (s : sntp) (w : W) : sntp * W :=
  if sntp_pcb s then (set_pcb false s, udp_remove (sys_untimeout h_request w)) else (s, w).

Definition sntp_setoperatingmode (operating_mode : Z) (s : sntp) : option sntp :=
  if (operating_mode <=? SNTP_OPMODE_LISTENONLY) && negb (sntp_pcb s) then Some (set_opmode operating_mode s) else None.

Definition sntp_servermode_dhcp (set_servers_from_dhcp : Z) (s : sntp) : sntp :=
  set_dhcp (negb (set_servers_from_dhcp =? 0)) s.

(** The servers of a lease, then the rest cleared. *)
Fixpoint dhcp_put (i : Z) (server : list Z) (s : sntp) : sntp :=
  match server with
  | a :: server => if i <? SNTP_MAX_SERVERS then dhcp_put (i + 1) server (sntp_setserver i (Some a) s) else s
  | [] => s
  end.

Fixpoint dhcp_clear (n : nat) (i : Z) (s : sntp) : sntp :=
  match n with
  | O => s
  | S n => dhcp_clear n (i + 1) (sntp_setserver i None s)
  end.

Definition dhcp_set_ntp_servers (server : list Z) (s : sntp) : sntp :=
  let num := zlen server in
  if sntp_set_servers_from_dhcp s && negb (num =? 0) then
    dhcp_clear (Z.to_nat (SNTP_MAX_SERVERS - num)) num (dhcp_put 0 server s)
  else s.

Definition set_sntp_timeout (ntp_timeout : Z) (s : sntp) : sntp :=
  if (SNTP_TIMEOUT_VAL_DEFAULT <=? ntp_timeout) && (ntp_timeout <? SNTP_TIMEOUT_VAL_MAX) then set_time_out ntp_timeout s else s.

End Client.

(** ** Byte order of time stamps *)

Lemma word_le_value l : is_bytes l -> length l = 4%nat -> word_le (le_value l) = l.
Proof.
  unfold is_bytes. intros Hl Hn. destruct l as [|a [|b [|c [|d [|]]]]]; try done. rewrite !Forall_cons in Hl. destruct Hl as (Ha & Hb & Hc & Hd & _).
  unfold is_byte in *. unfold word_le. cbn [le_value]. f_equal; [|f_equal; [|f_equal; [|f_equal]]]; Z.div_mod_to_equations; lia.
Qed.

Lemma word_le_bytes v : is_bytes (word_le v).
Proof. unfold word_le. repeat constructor; apply Z.mod_pos_bound; lia. Qed.

(** The word with its bytes in the order of the network. *)
Lemma ntohl_network v : word v -> ntohl (le_value (rev (word_le v))) = v.
Proof.
  intros Hv. unfold ntohl. rewrite word_le_value.
  - rewrite rev_involutive. pose proof (le_word_le v Hv []) as E. by rewrite app_nil_r in E.
  - apply Forall_rev, word_le_bytes.
  - done.
Qed.

(** Both branches of [sntp_process] subtract the seconds from 1900 to 1970. *)
Lemma process_clock v s : word v -> time_now (sntp_process (le_value (rev (word_le v))) s) = u32 (v - DIFF_SEC_1900_1970).
Proof.
  intros Hv. unfold sntp_process. rewrite ntohl_network by done. cbn [time_now set_clock]. case_if; [done|].
  unfold u32, DIFF_SEC_1900_1970, DIFF_SEC_1970_2036. rewrite <- (Z_mod_plus_full (v - 2208988800) 1). f_equal. lia.
Qed.

(** ** What lwIP will call back *)

(** A timer that is set, or a name being resolved. *)
Inductive wait := Timer (h : handler) | Resolve.

#[global] Instance wait_eq : EqDecision wait.
Proof. solve_decision. Defined.

Definition one (P : Prop) `{Decision P} : nat := if decide P then 1 else 0.

(** How many callbacks of each kind are to come: [sys_timeout] adds one,
    [sys_untimeout] removes the first one with the handler, and
    [dns_gethostbyname] calls back when it says so.  [occurs] is the moment
    lwIP calls. *)
Class LwipWaits (W : Type) `{Lwip W} := {
  waiting : W -> wait -> nat;
  occurs : wait -> W -> W -> Prop;
  waiting_timeout ms h w x : waiting (sys_timeout ms h w) x = (waiting w x + one (x = Timer h))%nat;
  waiting_untimeout h w x : waiting (sys_untimeout h w) x = (waiting w x - one (x = Timer h))%nat;
  waiting_dns name w x : waiting (dns_gethostbyname name w).2 x
    = (waiting w x + one ((dns_gethostbyname name w).1.1 = ERR_INPROGRESS /\ x = Resolve))%nat;
  waiting_alloc n w x : waiting (pbuf_alloc n w).2 x = waiting w x;
  waiting_new w x : waiting (udp_new w).2 x = waiting w x;
  waiting_bind port w x : waiting (udp_bind port w) x = waiting w x;
  waiting_sendto p a port w x : waiting (udp_sendto p a port w) x = waiting w x;
  waiting_remove w x : waiting (udp_remove w) x = waiting w x;
  occurs_waiting x w w' y : occurs x w w' -> waiting w y = (waiting w' y + one (y = x))%nat;
}.

Section Waits.
Context {W : Type} `{SntpOpts} `{LwipWaits W}.

Definition planned (w : W) : nat := (waiting w (Timer h_request) + waiting w (Timer h_try_next_server) + waiting w Resolve)%nat.

(** The events of a client; [Received true] is a packet that is dropped. *)
Inductive event := Called | Stopped | Fired | Found | Received (dropped : bool).

Inductive sntp_step : event -> sntp * W -> sntp * W -> Prop :=
| step_init s w s' w' : sntp_init s w = Some (s', w') -> sntp_step Called (s, w) (s', w')
| step_stop s w : sntp_step Stopped (s, w) (sntp_stop s w)
| step_request s w w' : occurs (Timer h_request) w w' -> sntp_step Fired (s, w) (sntp_request s w')
| step_try s w w' : occurs (Timer h_try_next_server) w w' -> sntp_step Fired (s, w) (sntp_try_next_server s w')
| step_found s w w' ipaddr : occurs Resolve w w' -> sntp_step Found (s, w) (sntp_dns_found ipaddr s w')
| step_recv s w p addr port : sntp_pcb s = true ->
    sntp_step (Received (recv_check p addr port s =? ERR_TIMEOUT)) (s, w) (sntp_recv p addr port s w)
| step_mode s w m s' : sntp_setoperatingmode m s = Some s' -> sntp_step Called (s, w) (s', w)
| step_server s w i a : 0 <= i -> sntp_step Called (s, w) (sntp_setserver i a s, w)
| step_name s w i n : 0 <= i -> sntp_step Called (s, w) (sntp_setservername i n s, w)
| step_dhcp s w l : sntp_step Called (s, w) (dhcp_set_ntp_servers l s, w)
| step_dhcp_mode s w b : sntp_step Called (s, w) (sntp_servermode_dhcp b s, w)
| step_timeout s w t : sntp_step Called (s, w) (set_sntp_timeout t s, w)
| step_time s w : sntp_step Called (s, w) ((sntp_time s).2, w).

(** *** What the functions leave alone *)

(** The delays before a retry: the default, doubled up to the limit, or 0 before
    the first start. *)
Definition retry_delay (t : Z) : Prop := t = 0 \/ t = 15000 \/ t = 30000 \/ t = 60000 \/ t = 120000.

(** The data of the client has the shape the code gives it. *)
Record well_formed (s : sntp) : Prop := {
  wf_servers : zlen (sntp_servers s) = SNTP_MAX_SERVERS;
  wf_current : 0 <= sntp_current_server s < SNTP_MAX_SERVERS;
  wf_retry : retry_delay (sntp_retry_timeout s);
}.

(** The fields that only the calls of the application change, and the shape of
    the data. *)
Record same_setup (s s' : sntp) : Prop := {
  same_pcb : sntp_pcb s' = sntp_pcb s;
  same_opmode : sntp_opmode s' = sntp_opmode s;
  same_shape : well_formed s -> well_formed s';
  same_clock : time_now s' = time_now s /\ ntp_lock s' = ntp_lock s;
}.

#[local] Instance same_setup_preorder : PreOrder same_setup.
Proof. split; [by intros s|]. intros a b c [Ha1 Ha2 Ha3 [Ha4 Ha5]] [Hb1 Hb2 Hb3 [Hb4 Hb5]]. split; [congruence|congruence|auto|split; congruence]. Qed.

(** The other fields may change. *)
Ltac same := split; [done|done|by intros []|done].

Lemma same_server_at i v s : same_setup s (set_server_at i v s).
Proof. split; [done|done| |done]. intros [Hl Hc Hr]. split; [|done|done]. unfold zlen in *. cbn. by rewrite length_insert. Qed.

Lemma same_retry s w : same_setup s (sntp_retry s w).1.
Proof.
  unfold sntp_retry. destruct (_ && _)%bool eqn:E; [|done]. split; [done|done| |done]. intros [Hl Hc Hr]. split; [done|done|]. cbn [fst set_retry sntp_retry_timeout].
  destruct Hr as [Er|[Er|[Er|[Er|Er]]]]; rewrite Er in *; first [discriminate E|unfold retry_delay; vm_compute; tauto].
Qed.

Lemma same_reset s : same_setup s (SNTP_RESET_RETRY_TIMEOUT s).
Proof. split; [done|done| |done]. intros [Hl Hc Hr]. split; [done|done|]. unfold retry_delay. cbn. tauto. Qed.

Lemma same_current i s : (well_formed s -> 0 <= i < SNTP_MAX_SERVERS) -> same_setup s (set_current i s).
Proof. intros Hi. split; [done|done| |done]. intros Hs. specialize (Hi Hs). by destruct Hs. Qed.

Lemma next_server_range i : 1 <= SNTP_MAX_SERVERS -> 0 <= next_server i < SNTP_MAX_SERVERS.
Proof. intros Hm. unfold next_server. pose proof (u8_byte (i + 1)) as Hb. unfold is_byte in Hb. case_if; lia. Qed.

Lemma same_send a s w : same_setup s (sntp_send_request a s w).1.
Proof.
  unfold sntp_send_request, sntp_initialize_request. destruct (pbuf_alloc SNTP_MSG_LEN w) as [[] w1]; [|done].
  destruct (2 <=? SNTP_CHECK_RESPONSE); [destruct (get_system_time w1)|]; destruct (1 <=? SNTP_CHECK_RESPONSE); same.
Qed.

Lemma same_request_to err a s w : same_setup s (request_to err a s w).1.
Proof. unfold request_to. case_if; [apply same_send|done]. Qed.

Lemma same_request s w : same_setup s (sntp_request s w).1.
Proof.
  unfold sntp_request. destruct (sv_name _) as [name|]; [|apply same_request_to].
  destruct (dns_gethostbyname name w) as [[err a] w1]. case_if; [apply same_server_at|].
  etransitivity; [|apply same_request_to]. case_if; [|apply same_server_at]. etransitivity; apply same_server_at.
Qed.

Lemma same_try n old s w : same_setup (set_current old s) (try_loop n old s w).1.
Proof.
  revert s. induction n as [|n IH]; intros s; cbn [try_loop]; [apply same_retry|].
  set (nx := next_server (sntp_current_server s)). case_if; [|apply (IH (set_current nx s))].
  transitivity (set_current nx (set_current old s)).
  - apply same_current. intros [_ Hc _]. cbn in Hc. apply next_server_range. lia.
  - etransitivity; [apply same_reset|apply same_request].
Qed.

Lemma same_next s w : same_setup s (sntp_try_next_server s w).1.
Proof.
  unfold sntp_try_next_server. case_if; [|apply same_retry].
  etransitivity; [|apply same_try]. by destruct s.
Qed.

(** *** Every callback plans the next one *)

Ltac waits := unfold planned, one in *; rewrite ?waiting_timeout, ?waiting_untimeout, ?waiting_alloc, ?waiting_sendto, ?waiting_new, ?waiting_bind, ?waiting_remove in *;
  unfold one in *; repeat case_decide; try naive_solver lia.

Lemma planned_timeout ms h w : planned (sys_timeout ms h w) = S (planned w).
Proof. destruct h; waits. Qed.

Lemma planned_retry s w : planned (sntp_retry s w).2 = S (planned w).
Proof. unfold sntp_retry. case_if; apply planned_timeout. Qed.

Lemma planned_send a s w : planned (sntp_send_request a s w).2 = S (planned w).
Proof.
  unfold sntp_send_request. destruct (pbuf_alloc SNTP_MSG_LEN w) as [p w1] eqn:E.
  assert (E1 : planned w1 = planned w) by (replace w1 with (pbuf_alloc SNTP_MSG_LEN w).2 by (by rewrite E); waits).
  rewrite <- E1. destruct p; [|apply planned_timeout]. destruct (sntp_initialize_request s w1) as [m s1].
  cbn [snd]. rewrite planned_timeout. f_equal. destruct (sntp_pcb s1); [waits|done].
Qed.

Lemma planned_request_to err a s w : planned (request_to err a s w).2 = S (planned w).
Proof. unfold request_to. case_if; [apply planned_send|apply planned_timeout]. Qed.

Lemma planned_request s w : planned (sntp_request s w).2 = S (planned w).
Proof.
  unfold sntp_request. destruct (sv_name _) as [name|]; [|apply planned_request_to].
  pose proof (waiting_dns name w) as Hd. destruct (dns_gethostbyname name w) as [[err a] w1]. cbn [fst snd] in Hd.
  destruct (Z.eqb_spec err ERR_INPROGRESS) as [E|E].
  - cbn [snd]. unfold planned. rewrite !Hd. unfold one. repeat case_decide; intuition (try congruence; try lia).
  - rewrite planned_request_to. f_equal. unfold planned. rewrite !Hd. unfold one. repeat case_decide; intuition (try congruence; try lia).
Qed.

Lemma planned_try n old s w : planned (try_loop n old s w).2 = S (planned w).
Proof.
  revert s. induction n as [|n IH]; intros s; cbn [try_loop]; [apply planned_retry|].
  case_if; [apply planned_request|apply IH].
Qed.

Lemma planned_next s w : planned (sntp_try_next_server s w).2 = S (planned w).
Proof. unfold sntp_try_next_server. case_if; [apply planned_try|apply planned_retry]. Qed.

Lemma planned_found a s w : planned (sntp_dns_found a s w).2 = S (planned w).
Proof. destruct a; [apply planned_send|apply planned_next]. Qed.

Lemma planned_recv p addr port s w :
  sntp_opmode s = SNTP_OPMODE_POLL -> recv_check p addr port s <> ERR_TIMEOUT ->
  planned (sntp_recv p addr port s w).2 = S (planned (sys_untimeout h_request (sys_untimeout h_try_next_server w))).
Proof.
  intros Hm Hc. unfold sntp_recv. case_if; [cbn [sntp_process set_clock sntp_opmode]; rewrite Hm; apply planned_timeout|].
  rewrite (proj2 (Z.eqb_neq _ _) Hc), Hm. cbn [negb Z.eqb]. change (SNTP_OPMODE_POLL =? SNTP_OPMODE_POLL) with true. cbn iota.
  case_if; [apply planned_next|apply planned_retry].
Qed.

(** The clock of the first state may be any. *)
Lemma same_but_clock s s' : same_setup s s' -> same_setup (set_clock (time_now s') (ntp_lock s') s) s'.
Proof. intros [Hp Hm Hs _]. split; [done|done| |done]. intros []. by apply Hs. Qed.

Lemma same_recv p addr port s w :
  let s' := (sntp_recv p addr port s w).1 in same_setup (set_clock (time_now s') (ntp_lock s') s) s'.
Proof.
  cbn zeta. unfold sntp_recv. case_if; [case_if; [etransitivity; [|apply same_reset]|]; same|]. apply same_but_clock. case_if; [|done]. case_if; [|done]. case_if; [apply same_next|apply same_retry].
Qed.

Lemma same_setservername i n s : same_setup s (sntp_setservername i n s).
Proof. unfold sntp_setservername. case_if; [apply same_server_at|done]. Qed.

Lemma same_setserver i a s : same_setup s (sntp_setserver i a s).
Proof. unfold sntp_setserver. case_if; [apply same_server_at|done]. Qed.

Lemma same_dhcp l s : same_setup s (dhcp_set_ntp_servers l s).
Proof.
  unfold dhcp_set_ntp_servers. case_if; [|done]. generalize (zlen l) at 2. generalize (Z.to_nat (SNTP_MAX_SERVERS - zlen l)).
  assert (Hp : same_setup s (dhcp_put 0 l s)).
  { clear. generalize 0. revert s. induction l as [|a l IH]; intros s i; [done|]. cbn [dhcp_put]. case_if; [|done].
    etransitivity; [|apply IH]. apply same_setserver. }
  revert Hp. generalize (dhcp_put 0 l s). intros s1 Hp n. revert s1 Hp. induction n as [|n IH]; intros s1 Hp i; [done|].
  cbn [dhcp_clear]. apply IH. etransitivity; [exact Hp|]. apply same_setserver.
Qed.

(** The state [sntp_init] starts with. *)
Lemma init_setup s :
  let s1 := sntp_setservername 0 (Some SNTP_SERVER_ADDRESS) s in same_setup (set_clock (time_now s) 0 s) (set_clock (time_now s1) 0 s1).
Proof.
  cbn zeta. destruct (same_setservername 0 (Some SNTP_SERVER_ADDRESS) s) as [Hp Hm Hs [Ht Hl]]. split; [done|done| |by rewrite <- Ht].
  intros [A B C]. destruct (Hs (Build_well_formed s A B C)). by split.
Qed.

(** *** Invariants *)

(** A running client has at least one callback to come. *)
Definition alive (x : sntp * W) : Prop :=
  sntp_pcb x.1 = true -> sntp_opmode x.1 = SNTP_OPMODE_POLL -> (1 <= planned x.2)%nat.

Lemma alive_next s s' w : same_setup s s' -> (1 <= planned w)%nat \/ alive (s, w) -> alive (s', w).
Proof. intros [Hp Hm _ _] Ha. unfold alive in *. cbn [fst snd] in *. rewrite Hp, Hm. intros E1 E2. destruct Ha as [?|Ha]; [done|by apply Ha]. Qed.

Lemma init_alive s w x : alive (s, w) -> sntp_init s w = Some x -> alive x.
Proof.
  intros Ha. unfold sntp_init. set (s1 := set_clock _ _ _).
  assert (Hs : same_setup (set_clock (time_now s) 0 s) s1) by (by apply init_setup).
  destruct (sntp_pcb s1) eqn:Ep; [intros [= <-]; by eapply alive_next; [|right]|].
  destruct (udp_new w) as [[] w1]; [|done]. case_if.
  - intros [= <-]. intros _ _. rewrite planned_request. lia.
  - case_if; intros [= <-] _ Hm; cbn [fst sntp_opmode set_pcb] in *; by rewrite Hm in *.
Qed.

Lemma step_alive e x y : sntp_step e x y -> e <> Received true -> alive x -> alive y.
Proof.
  destruct 1 as [s w s' w' Hi|s w|s w w' Ho|s w w' Ho|s w w' a Ho|s w p addr port Hp|s w m s' Hm|s w i a _|s w i n _|s w l|s w b|s w t|s w];
    intros He Ha.
  - by eapply init_alive.
  - unfold sntp_stop. case_if; [by intros Hp|done].
  - intros _ _. rewrite planned_request. lia.
  - intros _ _. rewrite planned_next. lia.
  - intros _ _. rewrite planned_found. lia.
  - intros _ Hm. destruct (same_recv p addr port s w) as [_ Hs _ _]. rewrite Hs in Hm.
    rewrite planned_recv; [lia|done|]. intros E. rewrite E in He. done.
  - unfold sntp_setoperatingmode in Hm. destruct (sntp_pcb s) eqn:Ep; [by rewrite andb_false_r in Hm|].
    destruct (m <=? _); [|done]. injection Hm as <-. intros Hp. cbn in Hp. congruence.
  - eapply alive_next; [apply same_setserver|by right].
  - eapply alive_next; [apply same_setservername|by right].
  - eapply alive_next; [apply same_dhcp|by right].
  - done.
  - unfold set_sntp_timeout. by case_if.
  - unfold sntp_time. by case_if.
Qed.

(** A client before its first start. *)
Definition idle (x : sntp * W) : Prop := sntp_pcb x.1 = false /\ planned x.2 = 0%nat.

Definition steps_without_drop : relation (sntp * W) := rtc (fun x y => exists e, sntp_step e x y /\ e <> Received true).

Lemma steps_alive x y : steps_without_drop x y -> alive x -> alive y.
Proof. induction 1 as [x|x y z (e & Hs & He) _ IH]; [done|]. intros Ha. apply IH. by eapply step_alive. Qed.

(** C33: Polling goes on: whatever the network answers and the application
    calls, as long as no packet is dropped, a running client has a timer set or
    a name being resolved, so its next request is to come. *)
Theorem polling_continues s w s' w' :
  idle (s, w) -> steps_without_drop (s, w) (s', w') ->
  sntp_pcb s' = true -> sntp_opmode s' = SNTP_OPMODE_POLL -> (1 <= planned w')%nat.
Proof.
  intros [Hp _] Hs. apply (steps_alive _ _ Hs). intros Hp'. cbn in *. congruence.
Qed.

(** *** One request at a time *)

(** The steps of a client that is not stopped, drops nothing and gets packets
    only when it waits for them. *)
Definition in_turn (e : event) (w : W) : Prop :=
  match e with Stopped | Received true => False | Received false => waiting w Resolve = 0%nat | _ => True end.

(** The client polls; one callback is to come when it runs, and none before. *)
Definition single (x : sntp * W) : Prop :=
  if sntp_pcb x.1 then sntp_opmode x.1 = SNTP_OPMODE_POLL /\ planned x.2 = 1%nat else planned x.2 = 0%nat.

Lemma single_same s s' w : same_setup s s' -> single (s, w) -> single (s', w).
Proof. intros [Hp Hm _ _]. unfold single. cbn [fst snd]. by rewrite Hp, Hm. Qed.

(** A callback takes one wait away and adds one. *)
Lemma single_callback x s w w' (r : sntp * W) :
  occurs x w w' -> same_setup s r.1 -> planned r.2 = S (planned w') -> single (s, w) -> single r.
Proof.
  intros Ho [Hp Hm _ _] Hn. unfold single. cbn [fst snd]. rewrite Hp, Hm, Hn.
  assert (E : planned w = S (planned w')).
  { unfold planned. rewrite !(occurs_waiting x w w' _ Ho). unfold one. destruct x as [[]|]; repeat case_decide; try done; lia. }
  case_if; [intros []; split; [done|lia]|lia].
Qed.

Lemma planned_cancelled w :
  planned w = 1%nat -> waiting w Resolve = 0%nat -> planned (sys_untimeout h_request (sys_untimeout h_try_next_server w)) = 0%nat.
Proof. unfold planned. intros. rewrite !waiting_untimeout. unfold one. repeat case_decide; try done; lia. Qed.

Lemma init_single s w x : sntp_opmode s = SNTP_OPMODE_POLL -> single (s, w) -> sntp_init s w = Some x -> single x.
Proof.
  intros Ho Hs. unfold sntp_init. set (s1 := set_clock _ _ _).
  assert (Hs1 : same_setup (set_clock (time_now s) 0 s) s1) by (by apply init_setup).
  destruct (sntp_pcb s1) eqn:Ep; [intros [= <-]; by eapply single_same|].
  pose proof (waiting_new w) as Hn. destruct (udp_new w) as [[] w1]; [|done]. cbn [snd] in Hn.
  destruct Hs1 as [E1 E2 _ _]. change (sntp_pcb s1 = sntp_pcb s) in E1. change (sntp_opmode s1 = sntp_opmode s) in E2. cbn [sntp_opmode set_pcb]. rewrite E2, Ho. cbn iota. intros [= <-].
  destruct (same_request (SNTP_RESET_RETRY_TIMEOUT (set_pcb true s1)) w1) as [F1 F2 _ _].
  unfold single. rewrite F1, F2, planned_request. split; [change (sntp_opmode s1 = SNTP_OPMODE_POLL); congruence|]. f_equal.
  unfold single in Hs. cbn [fst snd] in Hs. rewrite <- E1, Ep in Hs. unfold planned in *. by rewrite !Hn.
Qed.

Lemma step_single e x y : sntp_step e x y -> in_turn e x.2 -> sntp_opmode x.1 = SNTP_OPMODE_POLL -> single x -> single y.
Proof.
  destruct 1 as [s w s' w' Hi|s w|s w w' Ho|s w w' Ho|s w w' a Ho|s w p addr port Hp|s w m s' Hm|s w i a _|s w i n _|s w l|s w b|s w t|s w];
    cbn [fst snd]; intros He Hop Ha.
  - by eapply init_single.
  - done.
  - eapply single_callback; [done|apply same_request|apply planned_request|done].
  - eapply single_callback; [done|apply same_next|apply planned_next|done].
  - eapply single_callback; [done| |apply planned_found|done]. destruct a; [apply same_send|apply same_next].
  - destruct (Z.eqb_spec (recv_check p addr port s) ERR_TIMEOUT) as [|Hc]; [done|]. cbn in He.
    unfold single in Ha |- *. cbn [fst snd] in Ha. rewrite Hp in Ha. destruct Ha as [_ Ha].
    destruct (same_recv p addr port s w) as [Hs1 Hs2 _ _]. cbn [set_clock sntp_pcb sntp_opmode] in Hs1, Hs2. rewrite Hs1, Hs2, Hp, planned_recv, planned_cancelled by done. done.
  - unfold sntp_setoperatingmode in Hm. destruct (sntp_pcb s) eqn:Ep; [by rewrite andb_false_r in Hm|].
    destruct (m <=? _); [|done]. injection Hm as <-. unfold single in *. cbn in *. by rewrite Ep in *.
  - eapply single_same; [apply same_setserver|done].
  - eapply single_same; [apply same_setservername|done].
  - eapply single_same; [apply same_dhcp|done].
  - done.
  - unfold set_sntp_timeout. by case_if.
  - unfold sntp_time. by case_if.
Qed.

(** Steps in turn keep exactly one request going: two chains of requests never
    run side by side. *)
Theorem one_request x y :
  idle x -> rtc (fun x y => exists e, sntp_step e x y /\ in_turn e x.2 /\ sntp_opmode x.1 = SNTP_OPMODE_POLL) x y -> single y.
Proof.
  intros [Hp Hn] Hs. assert (Ha : single x) by (unfold single; by rewrite Hp). revert Ha. clear Hp Hn.
  induction Hs as [x|x y z (e & Hs & He & Hm) _ IH]; [done|]. intros Ha. apply IH. by eapply step_single.
Qed.

(** *** Out of step *)

(** A packet that is dropped takes the timers away and sets none: when the client
    waited for the answer of a server, nothing is to come any more. *)
Theorem dropped_packet_ends s w p addr port :
  recv_check p addr port s = ERR_TIMEOUT -> planned w = 1%nat -> waiting w Resolve = 0%nat ->
  planned (sntp_recv p addr port s w).2 = 0%nat /\ (sntp_recv p addr port s w).1 = s.
Proof. intros Hc Hw Hr. unfold sntp_recv. rewrite Hc. cbn. by rewrite planned_cancelled. Qed.

(** [sntp_stop] leaves the timer of the answer, and what it calls sets the next
    one: a stopped client goes on. *)
Theorem stop_goes_on s w :
  sntp_pcb s = true -> (1 <= waiting w (Timer h_try_next_server))%nat ->
  sntp_pcb (sntp_stop s w).1 = false /\ (1 <= planned (sntp_stop s w).2)%nat.
Proof.
  intros Hp Hw. unfold sntp_stop. rewrite Hp. split; [done|]. cbn [snd]. unfold planned.
  rewrite !waiting_remove, !waiting_untimeout. unfold one. repeat case_decide; try done; lia.
Qed.

(** What is planned then stays planned, also without a socket. *)
Theorem stopped_never_ends s w e y :
  (1 <= planned w)%nat -> sntp_step e (s, w) y -> e = Fired \/ e = Found -> (1 <= planned y.2)%nat.
Proof.
  intros Hw Hs [-> | ->]; inversion Hs; subst; rewrite ?planned_request, ?planned_next, ?planned_found; lia.
Qed.

(** *** The shape of the data *)

Lemma step_shape e x y : sntp_step e x y -> well_formed x.1 -> well_formed y.1.
Proof.
  destruct 1 as [s w s' w' Hi|s w|s w w' Ho|s w w' Ho|s w w' a Ho|s w p addr port Hp|s w m s' Hm|s w i a _|s w i n _|s w l|s w b|s w t|s w];
    cbn [fst]; intros Hw.
  - unfold sntp_init in Hi. set (s1 := set_clock _ _ _) in *.
    assert (Hs : well_formed s1) by (apply (init_setup s); by destruct Hw).
    destruct (sntp_pcb s1); [by injection Hi as <-|]. destruct (udp_new w) as [[] w1]; [|done].
    assert (Hs2 : well_formed (set_pcb true s1)) by (by destruct Hs).
    destruct (_ =? SNTP_OPMODE_POLL); [injection Hi as Hi|].
    + replace s' with (sntp_request (SNTP_RESET_RETRY_TIMEOUT (set_pcb true s1)) w1).1 by (by rewrite Hi).
      by apply same_request, same_reset.
    + by destruct (_ =? SNTP_OPMODE_LISTENONLY); injection Hi as <- _.
  - unfold sntp_stop. case_if; by destruct Hw.
  - by apply same_request.
  - by apply same_next.
  - destruct a; [by apply same_send|by apply same_next].
  - apply same_recv. by destruct Hw.
  - unfold sntp_setoperatingmode in Hm. destruct (_ && _)%bool; [|done]. injection Hm as <-. by destruct Hw.
  - by apply same_setserver.
  - by apply same_setservername.
  - by apply same_dhcp.
  - by destruct Hw.
  - unfold set_sntp_timeout. case_if; by destruct Hw.
  - unfold sntp_time. case_if; by destruct Hw.
Qed.

(** Whatever happens, the table keeps its size, the current server is one of it
    and the delay before a retry is one of four, all below the limit. *)
Theorem client_typed x y : rtc (fun x y => exists e, sntp_step e x y) x y -> well_formed x.1 -> well_formed y.1.
Proof. induction 1 as [|x y z [e Hs] _ IH]; [done|]. intros Hw. apply IH. by eapply step_shape. Qed.

End Waits.

(** ** Servers in turn *)

Section Rotation.
Context {W : Type} `{SntpOpts} `{Lwip W}.

(** The other servers, from the one after [cur] on. *)
Definition rotation (cur : Z) (n : nat) : list Z := map (fun k => (cur + k) mod SNTP_MAX_SERVERS) (seqZ 1 (Z.of_nat n)).

Lemma next_server_mod i : 0 <= i < SNTP_MAX_SERVERS -> SNTP_MAX_SERVERS <= 256 -> next_server i = (i + 1) mod SNTP_MAX_SERVERS.
Proof.
  intros Hi Hm. unfold next_server. destruct (Z.eq_dec (i + 1) SNTP_MAX_SERVERS) as [E|E].
  - rewrite E, Z.mod_same by lia. case_if; [done|]. unfold u8 in *. destruct (Z.eq_dec SNTP_MAX_SERVERS 256) as [E'|E'].
    + by rewrite E'.
    + change (2 ^ 8) with 256 in *. rewrite Z.mod_small in * by lia. lia.
  - rewrite u8_small, Z.mod_small by lia. by rewrite (proj2 (Z.leb_gt _ _)) by lia.
Qed.

Lemma rotation_cons cur n : 0 <= cur < SNTP_MAX_SERVERS -> SNTP_MAX_SERVERS <= 256 -> rotation cur (S n) = next_server cur :: rotation (next_server cur) n.
Proof.
  intros Hc Hm. unfold rotation. rewrite seqZ_cons by lia. cbn [map]. rewrite next_server_mod by done. f_equal.
  replace (Z.pred (Z.of_nat (S n))) with (Z.of_nat n) by lia. change (Z.succ 1) with (1 + 1). rewrite <- (fmap_add_seqZ 1 1), <- list_fmap_compose.
  apply map_ext. intros k. unfold compose. rewrite Z.add_mod_idemp_l by lia. f_equal. lia.
Qed.

Lemma try_loop_find n old s w :
  0 <= sntp_current_server s < SNTP_MAX_SERVERS -> SNTP_MAX_SERVERS <= 256 ->
  try_loop n old s w
  = match find (fun i => usable (server_at i s)) (rotation (sntp_current_server s) n) with
    | Some i => sntp_request (SNTP_RESET_RETRY_TIMEOUT (set_current i s)) w
    | None => sntp_retry (set_current old s) w
    end.
Proof.
  intros Hc Hm. revert s Hc. induction n as [|n IH]; intros s Hc; [done|]. rewrite rotation_cons by done. cbn [try_loop find].
  change (server_at (sntp_current_server (set_current (next_server (sntp_current_server s)) s)) (set_current (next_server (sntp_current_server s)) s))
    with (server_at (next_server (sntp_current_server s)) s).
  destruct (usable _); [done|]. rewrite IH; [done|]. cbn. rewrite next_server_mod by done. apply Z.mod_pos_bound. lia.
Qed.

(** When a server refuses or does not answer, the client turns to the next
    one of the table with a name or an address, around the end of the table, and
    starts its delays anew; with no other it retries the same one. *)
Theorem next_server_rotation s w :
  0 <= sntp_current_server s < SNTP_MAX_SERVERS -> SNTP_MAX_SERVERS <= 256 ->
  sntp_try_next_server s w
  = match find (fun i => usable (server_at i s)) (rotation (sntp_current_server s) (Z.to_nat (SNTP_MAX_SERVERS - 1))) with
    | Some i => sntp_request (SNTP_RESET_RETRY_TIMEOUT (set_current i s)) w
    | None => sntp_retry s w
    end.
Proof.
  intros Hc Hm. unfold sntp_try_next_server. case_if.
  - rewrite try_loop_find by done. destruct (find _ _); [done|]. by destruct s.
  - replace (Z.to_nat (SNTP_MAX_SERVERS - 1)) with 0%nat by lia. done.
Qed.

End Rotation.

(** ** The clock *)

Section Clock.
Context {W : Type} `{SntpOpts} `{LwipWaits W}.

(** A packet that answers the last request with the Unix time [T]. *)
Record answer (s : sntp) (p : bytes) (addr port T : Z) : Prop := {
  an_length : zlen p = 48;
  an_mode : bget p 0 mod 8 = 4;
  an_stratum : bget p 1 <> 0;
  an_time : take 4 (drop 40 p) = rev (word_le (u32 (T + DIFF_SEC_1900_1970)));
  an_from : 1 <= SNTP_CHECK_RESPONSE -> addr = sntp_last_server_address s /\ port = 123;
  an_originate : 2 <= SNTP_CHECK_RESPONSE -> (get_word p 24, get_word p 28) = sntp_last_timestamp_sent s;
}.

Lemma mode_mod b : Z.land b SNTP_MODE_MASK = b mod 8.
Proof. apply (Z.land_ones b 3). lia. Qed.

Lemma answer_accepted s p addr port T :
  sntp_opmode s = SNTP_OPMODE_POLL -> answer s p addr port T -> recv_check p addr port s = ERR_OK.
Proof.
  intros Hm [Hl Hmo Hst _ Hf Ho]. unfold recv_check. rewrite Hm, mode_mod, Hl. unfold SNTP_OFFSET_LI_VN_MODE, SNTP_OFFSET_STRATUM, SNTP_STRATUM_KOD.
  rewrite Hmo, (proj2 (Z.eqb_neq _ _) Hst). cbn [Z.eqb negb orb andb].
  destruct (Z.ltb_spec SNTP_CHECK_RESPONSE 1) as [Hc|Hc]; cbn [orb].
  - by rewrite (proj2 (Z.leb_gt 2 _)) by lia.
  - destruct (Hf Hc) as [-> ->]. rewrite !Z.eqb_refl. cbn [andb]. destruct (Z.leb_spec 2 SNTP_CHECK_RESPONSE) as [Hc2|]; [|done].
    specialize (Ho Hc2). destruct (sntp_last_timestamp_sent s) as [a b]. injection Ho as <- <-. cbn [fst snd].
    change (SNTP_OFFSET_ORIGINATE_TIME + 4) with 28. change SNTP_OFFSET_ORIGINATE_TIME with 24. by rewrite !Z.eqb_refl.
Qed.

(** The time a packet states. *)
Definition stated (p : bytes) : Z := u32 (le_value (rev (take 4 (drop 40 p))) - DIFF_SEC_1900_1970).

Lemma accepted_answer s p addr port :
  sntp_opmode s = SNTP_OPMODE_POLL -> is_bytes p -> recv_check p addr port s = ERR_OK -> answer s p addr port (stated p).
Proof.
  intros Hm Hb. unfold recv_check. rewrite Hm, mode_mod. unfold SNTP_OFFSET_LI_VN_MODE, SNTP_OFFSET_STRATUM, SNTP_STRATUM_KOD.
  destruct (_ || _)%bool eqn:Ef; [|done]. destruct (Z.eqb_spec (zlen p) SNTP_MSG_LEN) as [Hl|]; [|done].
  change (SNTP_OPMODE_POLL =? SNTP_OPMODE_POLL) with true. change (SNTP_OPMODE_POLL =? SNTP_OPMODE_LISTENONLY) with false. cbn [andb].
  rewrite orb_false_r. destruct (Z.eqb_spec (bget p 0 mod 8) SNTP_MODE_SERVER) as [Hmo|]; [|done].
  destruct (Z.eqb_spec (bget p 1) 0) as [|Hst]; [done|]. match goal with |- context [if ?b then ERR_ARG else _] => destruct b eqn:Eo; [done|] end. intros _.
  assert (Hl4 : length (take 4 (drop 40 p)) = 4%nat).
  { rewrite length_take, length_drop. unfold zlen, SNTP_MSG_LEN in Hl. lia. }
  assert (Hb4 : is_bytes (take 4 (drop 40 p))) by (by apply Forall_take, Forall_drop).
  split; try done.
  - unfold stated. pose proof (le_value_range (rev (take 4 (drop 40 p)))) as Hr. rewrite <- (rev_involutive (take 4 (drop 40 p))) at 1. f_equal.
    rewrite <- word_le_value at 1; [|by apply Forall_rev|by rewrite length_rev]. f_equal.
    unfold u32. rewrite Zplus_mod_idemp_l, Z.mod_small; [lia|]. assert (Hz : zlen (rev (take 4 (drop 40 p))) = 4) by (unfold zlen; rewrite length_rev; lia).
    rewrite Hz in Hr. specialize (Hr ltac:(by apply Forall_rev)). change (256 ^ 4) with (2 ^ 32) in Hr. lia.
  - intros Hc. rewrite (proj2 (Z.ltb_ge _ _) Hc) in Ef. cbn in Ef. by b2p.
  - intros Hc. rewrite (proj2 (Z.leb_le _ _) Hc) in Eo. cbn [andb] in Eo. b2p. destruct (sntp_last_timestamp_sent s) as [a b]. cbn [fst snd] in *.
    by f_equal.
Qed.

Lemma stated_word p : word (stated p).
Proof. apply u32_range. Qed.


End Clock.

(** The semaphore counts answers: after one answer the second reading is 0. *)
Theorem time_read_once s : ntp_lock s = 1 -> (sntp_time (sntp_time s).2).1 = 0.
Proof. intros E. unfold sntp_time at 2. rewrite E. done. Qed.

(** ** A network *)

(** Timers, names being resolved and packets sent. *)
Record toy := mkToy { t_timers : list (Z * handler); t_resolving : nat; t_sent : list (bytes * Z) }.

Fixpoint untimeout (h : handler) (l : list (Z * handler)) : list (Z * handler) :=
  match l with [] => [] | x :: l => if decide (x.2 = h) then l else x :: untimeout h l end.

Definition count (h : handler) (l : list (Z * handler)) : nat := length (filter (fun x => x.2 = h) l).

#[global] Arguments count : simpl never.

#[global] Instance toy_lwip : Lwip toy := {|
  dns_gethostbyname name w := (ERR_INPROGRESS, 0, mkToy (t_timers w) (S (t_resolving w)) (t_sent w));
  pbuf_alloc _ w := (true, w);
  udp_new w := (true, w);
  udp_bind _ w := w;
  udp_sendto p a port w := mkToy (t_timers w) (t_resolving w) ((p, a) :: t_sent w);
  udp_remove w := w;
  sys_timeout ms h w := mkToy ((ms, h) :: t_timers w) (t_resolving w) (t_sent w);
  sys_untimeout h w := mkToy (untimeout h (t_timers w)) (t_resolving w) (t_sent w);
  get_system_time w := (0, 0);
|}.

Definition toy_waiting (w : toy) (x : wait) : nat :=
  match x with Timer h => count h (t_timers w) | Resolve => t_resolving w end.

Lemma count_cons h x l : count h (x :: l) = (count h l + one (x.2 = h))%nat.
Proof. unfold count, one. rewrite filter_cons. case_decide; cbn; lia. Qed.

Lemma count_untimeout h k l : count k (untimeout h l) = (count k l - one (k = h))%nat.
Proof.
  induction l as [|x l IH]; [by unfold one; case_decide|]. cbn [untimeout]. destruct (decide (x.2 = h)) as [E|E].
  - rewrite count_cons. unfold one. repeat case_decide; try congruence; lia.
  - rewrite !count_cons, IH. unfold one. repeat case_decide; try congruence; try lia.
Qed.

Definition toy_occurs (x : wait) (w w' : toy) : Prop :=
  forall y, toy_waiting w y = (toy_waiting w' y + one (y = x))%nat.

#[global] Instance toy_waits : LwipWaits toy.
Proof.
  refine {| waiting := toy_waiting; occurs := toy_occurs |}; try done.
  - intros ms h w []; cbn; [rewrite count_cons; cbn; unfold one; repeat case_decide; congruence|unfold one; case_decide; done].
  - intros h w [k|]; cbn; [rewrite count_untimeout; unfold one; repeat case_decide; congruence|unfold one; case_decide; [done|lia]].
  - intros name w [k|]; cbn; unfold one; case_decide; intuition (try congruence; try lia).
Defined.

Definition toy_client : sntp := mkSntp 0 0 SNTP_TIMEOUT_VAL_DEFAULT SNTP_OPMODE_POLL false [mkServer None 0] 0 0 0 (0, 0) false.

(** The client after its start and the answer of the name server. *)
Definition asking : sntp * toy :=
  (set_last_address 0 (set_retry 15000 (set_pcb true (set_servers [mkServer (Some SNTP_SERVER_ADDRESS) 0] toy_client))),
   mkToy [(15000, h_try_next_server)] 0 []).

Lemma polling_continues_witness :
  exists w', steps_without_drop (H := default_opts) (toy_client, mkToy [] 0 []) (asking.1, w') /\ (1 <= planned w')%nat.
Proof.
  assert (Hs : steps_without_drop (H := default_opts) (toy_client, mkToy [] 0 []) (asking.1, mkToy [] 1 [])).
  { eapply rtc_l; [|apply rtc_refl]. exists Called. split; [|done]. by apply step_init. }
  exists (mkToy [] 1 []). split; [exact Hs|]. by apply (polling_continues (H := default_opts) toy_client (mkToy [] 0 []) asking.1).
Defined.

(** A table with a server that does not count between two that do. *)
Definition three_opts : SntpOpts := {| SNTP_MAX_SERVERS := 3; SNTP_CHECK_RESPONSE := 0 |}.
Definition three : sntp := set_current 1 (set_servers [mkServer None 5; mkServer (Some SNTP_SERVER_ADDRESS) 0; mkServer None 0] toy_client).

Lemma next_server_rotation_witness :
  sntp_try_next_server (H := three_opts) three (mkToy [] 0 [])
  = sntp_request (H := three_opts) (SNTP_RESET_RETRY_TIMEOUT (set_current 0 three)) (mkToy [] 0 []).
Proof. apply (next_server_rotation (H := three_opts) three (mkToy [] 0 [])); cbn; lia. Defined.

(** The answer of a server of stratum 2 on 7 March 2036, in the next era. *)
Definition sample_answer : bytes := [36; 2] ++ replicate 38 0 ++ [0; 37; 218; 112] ++ replicate 4 0.


(** A packet of a wrong mode, from anyone, ends the polling of a client that
    waits for an answer. *)
Example forged_packet_ends :
  planned (sntp_recv (H := default_opts) ([35; 2] ++ replicate 46 0) 9 123 asking.1 asking.2).2 = 0%nat.
Proof. by vm_compute. Qed.
