(* ===== verification/IperfJson.v ===== *)
(** * Looking up the parameters of an iperf3 test

    apps/iperf3/src/iperf3.c, [json_string_next] to [json_find_int]: a search for
    a member of a flat JSON object, on top of the tokenizer of BasicJson.  The
    tokenizer keeps one character back after a number or a word, so the search
    sees its tokens one character late, and at the end of the text the last token
    is never seen: the variable that holds it is not set ([junk] is its value).
    The theorem shows that the search finds what a client sends for every value
    of [junk]. *)

From S2P Require Import Prelude FileSys FsUtils BasicJson CString.

(** ** The search *)

Record json_string := mkJs { js_parser : json_parser; js_lookahead : json_token; js_ptr : bytes }.

(** [t] is what the variable holds; the text has no zero byte. *)
Fixpoint json_string_next (t : json_token) (p : json_parser) (ptr : bytes) : option json_string :=
  match ptr with
  | [] => Some (mkJs p t [])
  | ch :: ptr =>
      '(t, p) ← json_tokenizer p ch;
      if bool_decide (t = JSON_NONE) then json_string_next t p ptr else Some (mkJs p t ptr)
  end.

(** [strtol(s, NULL, 0)], with the limits of a [long]. *)
Definition digit_value (c : Z) : Z := if isdigit c then c - 48 else if (97 <=? c) && (c <=? 122) then c - 87 else if (65 <=? c) && (c <=? 90) then c - 55 else 99.

Fixpoint strtol_digits (base acc : Z) (s : bytes) : Z :=
  match s with
  | c :: s => if digit_value c <? base then strtol_digits base (acc * base + digit_value c) s else acc
  | [] => acc
  end.

Definition strtol_magnitude (s : bytes) : Z :=
  match s with
  | 48 :: c :: d :: s' => if ((c =? 120) || (c =? 88)) && (digit_value d <? 16) then strtol_digits 16 0 (d :: s') else strtol_digits 8 0 s
  | 48 :: _ => strtol_digits 8 0 s
  | _ => strtol_digits 10 0 s
  end.

Definition clamp (v : Z) : Z := Z.max (- 2 ^ 31) (Z.min (2 ^ 31 - 1) v).

Definition strtol (s : bytes) : Z :=
  match skip_space s with
  | 45 :: s' => clamp (- strtol_magnitude s')
  | 43 :: s' => clamp (strtol_magnitude s')
  | s' => clamp (strtol_magnitude s')
  end.

Section Search.
Context (junk : json_token).

Definition json_string_init (input : bytes) : option json_string := json_string_next junk json_init input.

(** [json_match] with the token that is looked ahead at: on to the next one. *)
Definition advance (js : json_string) : option json_string := json_string_next junk (js_parser js) (js_ptr js).

(** [strlcpy(buf, js->parser.token, size)] *)
Definition token_text (js : json_string) (size : Z) : bytes := take (Z.to_nat (size - 1)) (cstr (j_token (js_parser js))).

Definition ahead (js : json_string) (t : json_token) : bool := bool_decide (js_lookahead js = t).

(** The value of a member; another value is left where it is. *)
Definition read_value (size : Z) (js : json_string) (value : option bytes) : option (json_string * option bytes) :=
  match js_lookahead js with
  | JSON_STRING | JSON_NUMBER => js' ← advance js; Some (js', Some (token_text js size))
  | JSON_TRUE => js' ← advance js; Some (js', Some [49])
  | JSON_FALSE => js' ← advance js; Some (js', Some [48])
  | _ => Some (js, value)
  end.

(** The result and the contents of [value], if it was written. *)
Fixpoint find_loop (fuel : nat) (name : bytes) (size : Z) (js : json_string) (value : option bytes) : option (bool * option bytes) :=
  match fuel with
  | O => None
  | S fuel =>
      if ahead js JSON_END_OBJECT then Some (false, value)
      else if negb (ahead js JSON_STRING) then Some (false, value)
      else
        let found := bool_decide (name = token_text js 32) in
        js ← advance js;
        if negb (ahead js JSON_MEMBER_SEPARATOR) then Some (found, value)
        else
          js ← advance js;
          '(js, value) ← read_value size js value;
          if ahead js JSON_END_OBJECT then Some (found, value)
          else if negb (ahead js JSON_VALUE_SEPARATOR) then Some (found, value)
          else
            js ← advance js;
            if found then Some (true, value) else find_loop fuel name size js value
  end.

Definition json_find (input name : bytes) (size : Z) : option (bool * option bytes) :=
  js ← json_string_init input;
  if negb (ahead js JSON_BEGIN_OBJECT) then Some (false, None)
  else js ← advance js; find_loop (S (length input)) name size js None.

(** A value that was not written is undefined behaviour. *)
Definition json_find_int (input name : bytes) (deflt : Z) : option Z :=
  '(found, value) ← json_find input name 12;
  if negb found then Some deflt else v ← value; Some (strtol v).

End Search.

(** ** Tokens, with a character kept back *)

(** Between tokens, with the text [s] to come: the first character of it may be
    the one that is kept back. *)
Definition before (p : json_parser) (ptr s : bytes) : Prop :=
  j_tokenizer p = json_token_start /\ (j_ungetc p = EOF /\ ptr = s \/ exists d, j_ungetc p = d /\ d <> EOF /\ s = d :: ptr).

Lemma next_none t p p' ch ptr : json_tokenizer p ch = Some (JSON_NONE, p') -> json_string_next t p (ch :: ptr) = json_string_next JSON_NONE p' ptr.
Proof. intros E. cbn [json_string_next]. by rewrite E. Qed.

Lemma next_token t p t' p' ch ptr : json_tokenizer p ch = Some (t', p') -> t' <> JSON_NONE -> json_string_next t p (ch :: ptr) = Some (mkJs p' t' ptr).
Proof. intros E Hn. cbn [json_string_next]. rewrite E. cbn. by rewrite bool_decide_false. Qed.

Definition is_punctuation (ch : Z) : Prop := ch = 123 \/ ch = 125 \/ ch = 44 \/ ch = 58.

(** A character of punctuation with more text after it. *)
Lemma punct_next j p ptr ch t c s :
  before p ptr (ch :: c :: s) -> is_punctuation ch -> punctuation ch = Some t -> c <> EOF ->
  exists p' ptr', json_string_next j p ptr = Some (mkJs p' t ptr') /\ before p' ptr' (c :: s).
Proof.
  intros [Ht [[Hu ->]|(d & Hu & Hd & E)]] Hch Hp Hc; destruct p as [tk tok st un]; cbn in Ht, Hu; subst.
  - unfold is_punctuation in Hch. destruct Hch as [->|[->|[->| ->]]]; injection Hp as <-; (eexists _, _; split; [reflexivity|]); (split; [done|]); by left.
  - injection E as <- <-. unfold is_punctuation in Hch.
    assert (Hc' : (c =? EOF) = false) by (by apply Z.eqb_neq).
    destruct Hch as [->|[->|[->| ->]]]; injection Hp as <-; (eexists _, _; split; [cbn; reflexivity|]); (split; [done|]); right; by exists c.
Qed.

(** The end of an object, with no text after it. *)
Lemma end_next j p ptr :
  before p ptr [125] -> exists p' t, json_string_next j p ptr = Some (mkJs p' t []) /\ (t = JSON_END_OBJECT \/ t = j).
Proof.
  intros [Ht [[Hu ->]|(d & Hu & Hd & E)]]; destruct p as [tk tok st un]; cbn in Ht, Hu; subst.
  - eexists _, _. split; [reflexivity|by left].
  - injection E as <- <-. eexists _, _. split; [reflexivity|by right].
Qed.

Lemma string_rest j tok body s :
  Forall plain body ->
  json_string_next j (mkParser json_token_string tok 0 EOF) (body ++ 34 :: s)
  = Some (mkJs (mkParser json_token_start (foldl push tok body) 0 EOF) JSON_STRING s).
Proof.
  intros Hb. revert j tok. induction Hb as [|c body Hc Hb IH]; intros j tok; [by apply next_token|].
  cbn [app foldl]. rewrite (next_none _ _ _ _ _ (string_char tok c Hc)). apply IH.
Qed.

(** A string, also when its first quote is kept back. *)
Lemma string_next j p ptr body s :
  before p ptr (34 :: body ++ 34 :: s) -> Forall plain body ->
  json_string_next j p ptr = Some (mkJs (mkParser json_token_start (foldl push [] body) 0 EOF) JSON_STRING s).
Proof.
  intros [Ht [[Hu ->]|(d & Hu & Hd & E)]] Hb.
  - rewrite (next_none _ _ _ _ _ (quote_opens p (conj Ht Hu))). by apply string_rest.
  - injection E as <- <-. destruct p as [tk tok st un]; cbn in Ht, Hu; subst tk un. destruct Hb as [|c body Hc Hb]; [by apply next_token|].
    cbn [app foldl]. erewrite next_none; [apply string_rest; done|].
    destruct Hc as (H0 & H1 & H2). unfold json_tokenizer. cbn. rewrite (proj2 (Z.eqb_neq c EOF)) by (unfold EOF; lia). cbn.
    unfold run_tokenizer, token_string. cbn. rewrite (proj2 (Z.eqb_neq c EOF)) by (unfold EOF; lia). cbn.
    rewrite (proj2 (Z.eqb_neq c 92)), (proj2 (Z.eqb_neq c 34)) by done. cbn. done.
Qed.

(** ** Values *)

Inductive jvalue := VNumber (ds : bytes) | VString (s : bytes) | VBool (b : bool).

Definition value_text (v : jvalue) : bytes :=
  match v with VNumber ds => ds | VString s => 34 :: s ++ [34] | VBool b => str (if b then "true" else "false") end.

(** What the search stores for a value. *)
Definition value_shown (v : jvalue) : bytes := match v with VNumber ds => ds | VString s => s | VBool b => [if b then 49 else 48] end.

Definition value_ok (v : jvalue) : Prop :=
  match v with
  | VNumber ds => digits ds /\ ds <> [] /\ (length ds < TOKEN_SIZE)%nat
  | VString s => Forall plain s /\ (length s < TOKEN_SIZE)%nat
  | VBool _ => True
  end.

Definition ends_value (d : Z) : Prop := d = 44 \/ d = 125.

Lemma number_rest j d s ds : forall p tok,
  digits ds -> in_number p tok -> ends_value d ->
  exists p', json_string_next j p (ds ++ d :: s) = Some (mkJs p' JSON_NUMBER s) /\ before p' s (d :: s) /\ j_token p' = foldl push tok ds.
Proof.
  revert j. induction ds as [|c ds IH]; intros j p tok Hd Hp He; cbn [app foldl].
  - destruct Hp as (st & -> & [-> | ->]); destruct He as [-> | ->]; (eexists; split; [by apply next_token|]); (split; [|done]); (split; [done|]); right; by eexists.
  - apply Forall_cons in Hd as [Hc Hd]. destruct (digit_next p tok c Hp Hc) as (p1 & E1 & Hp1). rewrite (next_none _ _ _ _ _ E1). by apply IH.
Qed.

Lemma push_all s : (length s < TOKEN_SIZE)%nat -> foldl push [] s = s.
Proof. intros Hl. rewrite fold_push by (cbn; unfold TOKEN_SIZE; lia). cbn [app]. by rewrite take_ge by lia. Qed.

(** What is looked ahead at after a member separator. *)
Lemma value_next j junk p v d s value :
  before p (value_text v ++ d :: s) (value_text v ++ d :: s) -> j_ungetc p = EOF -> value_ok v -> ends_value d ->
  exists js, json_string_next j p (value_text v ++ d :: s) = Some js /\
    exists p' ptr', before p' ptr' (d :: s) /\
      read_value junk 12 js value = (js' ← json_string_next junk p' ptr'; Some (js', Some (take 11 (cstr (value_shown v))))).
Proof.
  intros [Ht _] Hu Hok Hd. destruct v as [ds|body|b]; cbn [value_text value_shown value_ok] in *.
  - destruct Hok as (Hds & Hne & Hl). destruct ds as [|c ds]; [done|]. apply Forall_cons in Hds as [Hc Hds].
    destruct (digit_opens p c (conj Ht Hu) Hc) as (p1 & E1 & Hp1). cbn [app]. rewrite (next_none _ _ _ _ _ E1).
    destruct (number_rest JSON_NONE d s ds p1 [c] Hds Hp1 Hd) as (p' & -> & Hb & Htok). eexists. split; [done|].
    exists p', s. split; [done|]. unfold read_value. cbn [js_lookahead]. unfold advance, token_text. cbn [js_parser js_ptr]. rewrite Htok.
    change (foldl push [c] ds) with (foldl push [] (c :: ds)). by rewrite push_all.
  - destruct Hok as [Hb Hl]. rewrite <- app_comm_cons, <- app_assoc. cbn [app].
    rewrite (string_next j p _ body (d :: s)); [|split; [done|by left]|done]. eexists. split; [done|]. exists (mkParser json_token_start (foldl push [] body) 0 EOF), (d :: s). split; [by split; [|left]|].
    unfold read_value. cbn [js_lookahead]. unfold advance, token_text. cbn [js_parser js_ptr j_token]. by rewrite push_all.
  - set (p' := mkParser json_token_start (str (if b then "true" else "false")) 0 d).
    exists (mkJs p' (if b then JSON_TRUE else JSON_FALSE) s). split.
    + destruct p as [tk tok st un]; cbn in Ht, Hu; subst. by destruct b, Hd as [-> | ->].
    + exists p', s. split; [split; [done|]; right; exists d; destruct Hd as [-> | ->]; done|]. by destruct b.
Qed.

(** ** Objects *)

Definition member_text (m : bytes * jvalue) : bytes := 34 :: m.1 ++ 34 :: 58 :: value_text m.2.

Fixpoint members_rest (ms : list (bytes * jvalue)) : bytes :=
  match ms with [] => [125] | m :: ms => 44 :: member_text m ++ members_rest ms end.

Definition object_text (m : bytes * jvalue) (ms : list (bytes * jvalue)) : bytes := 123 :: member_text m ++ members_rest ms.

Definition member_ok (m : bytes * jvalue) : Prop := Forall plain m.1 /\ (length m.1 < 32)%nat /\ value_ok m.2.

(** The first member of a name. *)
Fixpoint assoc (name : bytes) (ms : list (bytes * jvalue)) : option jvalue :=
  match ms with [] => None | m :: ms => if bool_decide (name = m.1) then Some m.2 else assoc name ms end.

Lemma cstr_plain_chars k : Forall plain k -> cstr k = k.
Proof. intros Hk. apply cstr_plain. eapply Forall_impl; [exact Hk|]. intros c [Hc _]. lia. Qed.

Lemma members_rest_head ms : exists d s, members_rest ms = d :: s /\ ends_value d.
Proof. destruct ms as [|m ms]; [by exists 125, []; split; [|right]|]. eexists 44, _. by split; [|left]. Qed.

Section Find.
Context (junk : json_token) (name : bytes).

(** What the search is to give for a list of members. *)
Definition answer (ms : list (bytes * jvalue)) (r : bool * option bytes) : Prop :=
  match assoc name ms with Some v => r = (true, Some (take 11 (cstr (value_shown v)))) | None => r.1 = false end.

(** The search in front of a member: its name is the token. *)
Definition at_key (m : bytes * jvalue) (ms : list (bytes * jvalue)) : json_string :=
  mkJs (mkParser json_token_start m.1 0 EOF) JSON_STRING (58 :: value_text m.2 ++ members_rest ms).

(** On to the next name, or past the end. *)
Lemma key_next j p ptr m ms :
  before p ptr (member_text m ++ members_rest ms) -> member_ok m -> json_string_next j p ptr = Some (at_key m ms).
Proof.
  intros Hb (Hk & Hl & _). unfold member_text in Hb. cbn [app] in Hb. rewrite <- app_assoc in Hb. cbn [app] in Hb.
  rewrite (string_next _ _ _ _ _ Hb Hk). unfold at_key. rewrite push_all by (unfold TOKEN_SIZE; lia). done.
Qed.

(** A round of the search up to the token after the value. *)
Lemma find_round fuel m ms d s value :
  member_ok m -> members_rest ms = d :: s -> ends_value d ->
  exists p' ptr', before p' ptr' (d :: s) /\
    find_loop junk (S fuel) name 12 (at_key m ms) value
    = (js ← json_string_next junk p' ptr';
       let value := Some (take 11 (cstr (value_shown m.2))) in
       if ahead js JSON_END_OBJECT then Some (bool_decide (name = m.1), value)
       else if negb (ahead js JSON_VALUE_SEPARATOR) then Some (bool_decide (name = m.1), value)
       else js ← advance junk js; if bool_decide (name = m.1) then Some (true, value) else find_loop junk fuel name 12 js value).
Proof.
  intros (Hk & Hl & Hv) Er Hd. set (p := mkParser json_token_start [58] 0 EOF).
  destruct (value_next junk junk p m.2 d s value) as (js & E & p' & ptr' & Hb & Hr); [by split; [|left]|done|done|done|].
  exists p', ptr'. split; [done|]. cbn [find_loop].
  change (ahead (at_key m ms) JSON_END_OBJECT) with false. change (ahead (at_key m ms) JSON_STRING) with true. cbn [negb].
  replace (token_text (at_key m ms) 32) with m.1
    by (unfold token_text; cbn [at_key js_parser j_token]; rewrite cstr_plain_chars by done; rewrite take_ge by lia; done).
  change (advance junk (at_key m ms)) with (Some (mkJs p JSON_MEMBER_SEPARATOR (value_text m.2 ++ members_rest ms))).
  cbn [mbind option_bind]. change (ahead (mkJs p JSON_MEMBER_SEPARATOR _) JSON_MEMBER_SEPARATOR) with true. cbn [negb].
  unfold advance at 1. cbn [js_parser js_ptr]. rewrite Er. unfold advance in *. cbn [js_parser js_ptr]. rewrite E. cbn [mbind option_bind].
  rewrite Hr. by destruct (json_string_next junk p' ptr').
Qed.

Lemma found_answer m ms : assoc name ms = None ->
  answer (m :: ms) (bool_decide (name = m.1), Some (take 11 (cstr (value_shown m.2)))).
Proof. unfold answer. cbn [assoc]. case_bool_decide; [done|]. by intros ->. Qed.

Lemma find_members ms : forall fuel m value,
  (S (length ms) < fuel)%nat -> member_ok m -> Forall member_ok ms ->
  exists r, find_loop junk fuel name 12 (at_key m ms) value = Some r /\ answer (m :: ms) r.
Proof.
  induction ms as [|m' ms IH]; intros fuel m value Hf Hm Hms; (destruct fuel as [|fuel]; [lia|]).
  - destruct (find_round fuel m [] 125 [] value Hm eq_refl) as (p' & ptr' & Hb & ->); [by right|].
    destruct (end_next junk p' ptr' Hb) as (p2 & t & -> & Ht). cbn [mbind option_bind].
    case_if; [eexists; split; [done|]; by apply found_answer|]. case_if; [eexists; split; [done|]; by apply found_answer|].
    cbn [advance js_parser js_ptr json_string_next mbind option_bind]. unfold answer. cbn [assoc].
    case_bool_decide; [by eexists|]. destruct fuel as [|fuel]; [cbn in Hf; lia|]. unfold ahead in E, E0. cbn [js_lookahead] in E, E0.
    apply bool_decide_eq_false in E. apply bool_decide_eq_true in E0. subst t. destruct Ht as [Ht|Ht]; [done|].
    cbn [find_loop]. unfold ahead. cbn [js_lookahead]. rewrite <- Ht. by eexists.
  - apply Forall_cons in Hms as [Hm' Hms].
    destruct (find_round fuel m (m' :: ms) 44 (member_text m' ++ members_rest ms) value Hm eq_refl) as (p' & ptr' & Hb & ->); [by left|].
    destruct (punct_next junk p' ptr' 44 JSON_VALUE_SEPARATOR 34 (m'.1 ++ 34 :: 58 :: value_text m'.2 ++ members_rest ms)) as (p2 & ptr2 & -> & Hb2).
    { revert Hb. unfold member_text. cbn [app]. by rewrite <- app_assoc. }
    { by do 2 right; left. } { done. } { done. }
    cbn [mbind option_bind]. change (ahead (mkJs p2 JSON_VALUE_SEPARATOR ptr2) JSON_END_OBJECT) with false.
    change (ahead (mkJs p2 JSON_VALUE_SEPARATOR ptr2) JSON_VALUE_SEPARATOR) with true. cbn [negb]. unfold advance. cbn [js_parser js_ptr].
    rewrite (key_next junk p2 ptr2 m' ms); [|unfold member_text; cbn [app]; by rewrite <- app_assoc|done]. cbn [mbind option_bind].
    destruct (IH fuel m' (Some (take 11 (cstr (value_shown m.2))))) as (r & Er & Hr); [cbn in Hf; lia|done|done|].
    unfold answer. cbn [assoc]. case_bool_decide; [by eexists|]. by exists r.
Qed.

Lemma json_find_object m ms :
  member_ok m -> Forall member_ok ms -> exists r, json_find junk (object_text m ms) name 12 = Some r /\ answer (m :: ms) r.
Proof.
  intros Hm Hms. unfold json_find, json_string_init, object_text.
  set (x := member_text m ++ members_rest ms).
  change (json_string_next junk json_init (123 :: x)) with (Some (mkJs (mkParser json_token_start [123] 0 EOF) JSON_BEGIN_OBJECT x)).
  cbn [mbind option_bind]. change (ahead (mkJs _ JSON_BEGIN_OBJECT _) JSON_BEGIN_OBJECT) with true. cbn [negb]. unfold advance. cbn [js_parser js_ptr].
  rewrite (key_next junk _ _ m ms) by (done || by split; [|left]). cbn [mbind option_bind]. apply find_members; [|done|done].
  assert (Hl : (length ms <= length (members_rest ms))%nat) by (clear; induction ms; cbn; rewrite ?length_app; lia).
  unfold x, member_text. cbn. rewrite ?length_app. cbn. rewrite ?length_app. lia.
Qed.

End Find.

(** ** Numbers *)

Lemma strtol_digits_value ds acc : digits ds -> strtol_digits 10 acc ds = fold_left (fun a c => a * 10 + (c - 48)) ds acc.
Proof.
  intros Hd. revert acc. induction Hd as [|c ds Hc _ IH]; intros acc; [done|]. cbn [strtol_digits fold_left]. unfold digit_value. rewrite Hc.
  unfold isdigit in Hc. b2p. rewrite (proj2 (Z.ltb_lt _ _)) by lia. apply IH.
Qed.

(** A number as a client prints it: without zeros in front. *)
Definition decimal (ds : bytes) : Prop := digits ds /\ ds <> [] /\ (ds = [48] \/ head ds <> Some 48) /\ (length ds <= 11)%nat.

Lemma strtol_decimal ds : decimal ds -> dec_val ds < 2 ^ 31 -> strtol ds = dec_val ds.
Proof.
  intros (Hd & Hn & [->|Hz] & _) Hv; [done|]. destruct ds as [|c ds]; [done|]. apply Forall_cons in Hd as Hc. destruct Hc as [Hc _].
  unfold isdigit in Hc. b2p. cbn [head] in Hz.
  assert (Hs : skip_space (c :: ds) = c :: ds).
  { cbn [skip_space]. rewrite (proj2 (Z.eqb_neq c 32)), (proj2 (Z.leb_gt c 13)) by lia. by rewrite andb_false_r. }
  assert (Hm : strtol_magnitude (c :: ds) = dec_val (c :: ds)).
  { transitivity (strtol_digits 10 0 (c :: ds)); [|by apply strtol_digits_value].
    assert (Hcc : c = 49 \/ c = 50 \/ c = 51 \/ c = 52 \/ c = 53 \/ c = 54 \/ c = 55 \/ c = 56 \/ c = 57) by (assert (c <> 48) by congruence; lia).
    by repeat (destruct Hcc as [->|Hcc]; [done|]); subst c. }
  assert (Hp : 0 <= dec_val (c :: ds)).
  { apply dec_val_nonneg. eapply Forall_impl; [exact Hd|]. intros x Hx. cbn in Hx. unfold isdigit in Hx. b2p. lia. }
  unfold strtol. rewrite Hs. assert (Hcl : clamp (dec_val (c :: ds)) = dec_val (c :: ds)) by (unfold clamp; lia). rewrite <- Hcl, <- Hm.
  assert (Hcc : c = 48 \/ c = 49 \/ c = 50 \/ c = 51 \/ c = 52 \/ c = 53 \/ c = 54 \/ c = 55 \/ c = 56 \/ c = 57) by lia.
  by repeat (destruct Hcc as [->|Hcc]; [done|]); subst c.
Qed.

(** The values a parameter may have. *)
Definition int_value (v : jvalue) : option Z :=
  match v with VNumber ds => Some (dec_val ds) | VBool b => Some (if b then 1 else 0) | VString _ => None end.

Definition int_ok (v : jvalue) : Prop :=
  match v with VNumber ds => decimal ds /\ dec_val ds < 2 ^ 31 | VBool _ => True | VString _ => False end.

Lemma parameter_find junk m ms name deflt :
  member_ok m -> Forall member_ok ms ->
  match assoc name (m :: ms) with Some v => int_ok v | None => True end ->
  json_find_int junk (object_text m ms) name deflt
  = match assoc name (m :: ms) with Some v => int_value v | None => Some deflt end.
Proof.
  intros Hm Hms Hv. unfold json_find_int. destruct (json_find_object junk name m ms Hm Hms) as ([f val] & -> & Ha). cbn [mbind option_bind].
  unfold answer in Ha. destruct (assoc name (m :: ms)) as [v|]; [|cbn in Ha; by rewrite Ha]. injection Ha as -> ->. cbn [negb mbind option_bind].
  destruct v as [ds|s|b]; [|done|by destruct b]. destruct Hv as [Hd Hv]. cbn [value_shown int_value]. pose proof Hd as (Hdi & _ & _ & Hl).
  rewrite cstr_plain by (eapply Forall_impl; [exact Hdi|]; intros c Hc; cbn in Hc; unfold isdigit in Hc; b2p; lia).
  rewrite take_ge by lia. by rewrite strtol_decimal.
Qed.

(** A parameter of a test is read as the client sent it: in a flat object of
    numbers, strings and truth values, written without spaces, the search gives
    the value of the first member with the name, and the default if there is
    none, whatever the variable that is not set holds. *)
Theorem parameter_read junk m ms name deflt :
  member_ok m -> Forall member_ok ms ->
  match assoc name (m :: ms) with Some v => int_ok v | None => True end ->
  json_find_int junk (object_text m ms) name deflt
  = match assoc name (m :: ms) with Some v => int_value v | None => Some deflt end.
Proof. apply parameter_find. Qed.

(** The parameters of "iperf3 -R -P 4". *)
Definition sample_members : list (bytes * jvalue) :=
  [(str "omit", VNumber (str "0")); (str "time", VNumber (str "10")); (str "parallel", VNumber (str "4"));
   (str "reverse", VBool true); (str "client_version", VString (str "3.9"))].

Lemma parameter_read_witness :
  json_find_int JSON_NONE (object_text (str "tcp", VBool true) sample_members) (str "parallel") 1 = Some 4.
Proof.
  assert (Hp : forall s, bool_decide (Forall (fun c => 0 < c < 256 /\ c <> 34 /\ c <> 92) s) = true -> Forall plain s).
  { intros s Hs. by apply bool_decide_eq_true in Hs. }
  apply (parameter_read JSON_NONE (str "tcp", VBool true) sample_members (str "parallel") 1).
  - split; [by apply Hp; vm_compute|]. split; [by vm_compute; lia|done].
  - repeat (constructor; [split; [by apply Hp; vm_compute|split; [vm_compute; lia|]]|]); [..|constructor]; try done;
      try (split_and!; [repeat constructor|done|vm_compute; lia]). split; [by apply Hp; vm_compute|vm_compute; lia].
  - split; [|by vm_compute]. split_and!; [repeat constructor|done|by right|vm_compute; lia].
Defined.

(** A member with a value that is no number, string or truth value is found with
    the value of the member before it. *)
Example value_of_the_one_before :
  json_find_int JSON_NONE (str "{" ++ [34] ++ str "time" ++ [34] ++ str ":10," ++ [34] ++ str "reverse" ++ [34] ++ str ":null}") (str "reverse") 0 = Some 10.
Proof. reflexivity. Qed.
