(* ===== verification/Iperf3.v ===== *)
(** * The iperf3 server

    apps/iperf3/src/iperf3.c and stringstream.c: the control connection, the
    parameters of a test, the streams with their counters, the events of a running
    test, the result and the session as a whole ([iperf3_test]).  The network, the
    clock, the allocator and the messages of the kernel are the class [IperfOs]. *)

From S2P Require Import Prelude FileSys FsUtils BasicJson CString IperfJson.

(** ** Constants *)

Definition COOKIE_SIZE : Z := 37.
Definition IPERF3_LOW_HEAP_TX_LIMIT : Z := 15000.
Definition ENOMEM : Z := 12.
Definition EIO : Z := 5.

Definition TEST_START : Z := 1.
Definition TEST_RUNNING : Z := 2.
Definition TEST_END : Z := 4.
Definition PARAM_EXCHANGE : Z := 9.
Definition CREATE_STREAMS : Z := 10.
Definition SERVER_TERMINATE : Z := 11.
Definition EXCHANGE_RESULTS : Z := 13.
Definition DISPLAY_RESULTS : Z := 14.

Definition SYSTIME_SEC (n : Z) : Z := n * 1000000.
Definition SYSTIME_MS (n : Z) : Z := n * 1000.

Definition u64 (x : Z) : Z := x mod 2 ^ 64.

(** ** The kernel and the network *)

Inductive netconn_evt := RCVPLUS | SENDPLUS.

#[global] Instance netconn_evt_eq : EqDecision netconn_evt.
Proof. solve_decision. Defined.

Record event_msg := mkEvent { ev_conn : Z; ev_event : netconn_evt; ev_len : Z }.

Record cpu_usage := mkCpu { cpu_user : Z; cpu_irq : Z; cpu_idle : Z }.

(** A connection is its number; a call that fails gives [false] or [None]. *)
Class IperfOs (W : Type) := {
  ctrl_recv : W -> option bytes * W;
  ctrl_write : bytes -> W -> W;
  netconn_accept : W -> option Z * W;
  netconn_new : W -> option Z * W;
  netconn_bind : Z -> W -> bool * W;
  netconn_connect : Z -> W -> bool * W;
  netconn_recv : Z -> W -> option bytes * W;
  netconn_send : Z -> bytes -> W -> bool * W;
  netconn_write_partly : Z -> Z -> W -> bool * Z * W;
  netconn_close : Z -> W -> W;
  netconn_delete : Z -> W -> W;
  netbuf_alloc : Z -> W -> bool * W;
  os_alloc : Z -> W -> bool * W;
  os_avail_heap : W -> Z;
  os_systime64 : W -> Z * W;
  os_systime : W -> Z * W;
  os_get_cpu_usage : W -> cpu_usage * W;
  os_recvmsg : W -> event_msg * W;
  os_sendmsg : event_msg -> W -> W;
  os_request_timeoutmsg : Z -> event_msg -> W -> W;
  drain_msgs : W -> W;
  iperf3_stream_cb : bool -> W -> W;
}.

(** ** State *)

Inductive transfer := tcp_read | udp_read | tcp_write | udp_write.

Record stream := mkStream {
  s_conn : Z;
  s_id : Z;
  s_reverse : bool;
  s_next_pseq : Z;
  s_num_bytes : Z;
  s_num_pkts : Z;
  s_num_err : Z;
  s_transfer : transfer;
}.

Record iperf3 := mkI3 {
  i_mother : Z;
  i_ctrl : Z;
  i_streams : list stream;
  i_next_id : Z;
  i_state : Z;
  i_pos : Z;
  i_inbuf : option bytes;
  i_sendbuf : bool;
  i_num_streams : Z;
  i_bps : Z;
  i_writelen : Z;
  i_send_interval : Z;
  i_reverse : bool;
  i_bidir : bool;
  i_bidir_func : bool;
  i_udp : bool;
  i_tos : Z;
}.

Definition set_input pos b i := mkI3 (i_mother i) (i_ctrl i) (i_streams i) (i_next_id i) (i_state i) pos b (i_sendbuf i) (i_num_streams i) (i_bps i)
  (i_writelen i) (i_send_interval i) (i_reverse i) (i_bidir i) (i_bidir_func i) (i_udp i) (i_tos i).
Definition set_state st i := mkI3 (i_mother i) (i_ctrl i) (i_streams i) (i_next_id i) st (i_pos i) (i_inbuf i) (i_sendbuf i) (i_num_streams i) (i_bps i)
  (i_writelen i) (i_send_interval i) (i_reverse i) (i_bidir i) (i_bidir_func i) (i_udp i) (i_tos i).
Definition set_streams l i := mkI3 (i_mother i) (i_ctrl i) l (i_next_id i) (i_state i) (i_pos i) (i_inbuf i) (i_sendbuf i) (i_num_streams i) (i_bps i)
  (i_writelen i) (i_send_interval i) (i_reverse i) (i_bidir i) (i_bidir_func i) (i_udp i) (i_tos i).
Definition set_next_id n i := mkI3 (i_mother i) (i_ctrl i) (i_streams i) n (i_state i) (i_pos i) (i_inbuf i) (i_sendbuf i) (i_num_streams i) (i_bps i)
  (i_writelen i) (i_send_interval i) (i_reverse i) (i_bidir i) (i_bidir_func i) (i_udp i) (i_tos i).
Definition set_sendbuf b i := mkI3 (i_mother i) (i_ctrl i) (i_streams i) (i_next_id i) (i_state i) (i_pos i) (i_inbuf i) b (i_num_streams i) (i_bps i)
  (i_writelen i) (i_send_interval i) (i_reverse i) (i_bidir i) (i_bidir_func i) (i_udp i) (i_tos i).
Definition set_bidir_func b i := mkI3 (i_mother i) (i_ctrl i) (i_streams i) (i_next_id i) (i_state i) (i_pos i) (i_inbuf i) (i_sendbuf i) (i_num_streams i) (i_bps i)
  (i_writelen i) (i_send_interval i) (i_reverse i) (i_bidir i) b (i_udp i) (i_tos i).
Definition set_params n rev bid udp tos len bps int i := mkI3 (i_mother i) (i_ctrl i) (i_streams i) (i_next_id i) (i_state i) (i_pos i) (i_inbuf i) (i_sendbuf i)
  n bps len int rev bid (i_bidir_func i) udp tos.

Section Server.
Context {W : Type} `{IperfOs W}.
Context (sizeof_stream : Z).

(** The callback of the connections; other events than the two are none. *)
Definition iperf_event_cb (conn : Z) (event : option netconn_evt) (len : Z) (i : iperf3) (w : W) : W :=
  if negb (i_state i =? TEST_RUNNING) then w
  else match event with Some e => os_sendmsg (mkEvent conn e len) w | None => w end.

(** ** The control connection *)

Definition ctrl_avail (i : iperf3) : Z := match i_inbuf i with Some b => zlen b - i_pos i | None => 0 end.

Definition ctrl_fill (i : iperf3) (w : W) : iperf3 * W :=
  let '(buf, w) := ctrl_recv w in
  match buf with
  | None => (i, w)
  | Some b => (set_input (i_pos i) (Some (default [] (i_inbuf i) ++ b)) i, w)
  end.

(** The bytes copied; without a buffer the copy is undefined. *)
Definition ctrl_read (len : Z) (i : iperf3) (w : W) : option (bytes * iperf3 * W) :=
  let '(i, w) := if ctrl_avail i <? len then ctrl_fill i w else (i, w) in
  b ← i_inbuf i;
  let r := take (Z.to_nat len) (drop (Z.to_nat (i_pos i)) b) in
  Some (r, set_input (i_pos i + zlen r) (Some b) i, w).

Definition ctrl_set_state (new_state : Z) (i : iperf3) (w : W) : iperf3 * W := (set_state new_state i, ctrl_write [u8 new_state] w).

(** With nothing read the state is not set. *)
Definition ctrl_get_state (i : iperf3) (w : W) : option (iperf3 * W) :=
  '(r, i, w) ← ctrl_read 1 i w;
  st ← head r;
  Some (set_state st i, w).

Definition be32 (v : Z) : bytes := rev (word_le v).

(** The text, or none; more bytes than were allocated are undefined. *)
Definition ctrl_read_json (i : iperf3) (w : W) : option (option bytes * iperf3 * W) :=
  '(r, i, w) ← ctrl_read 4 i w;
  if negb (zlen r =? 4) then Some (None, i, w)
  else
    let len := le_value (rev r) in
    let '(ok, w) := os_alloc (u32 (len + 1)) w in
    if negb ok then Some (None, i, w)
    else
      '(r, i, w) ← ctrl_read len i w;
      if u32 (len + 1) <? zlen r then None
      else if negb (zlen r =? len) then Some (None, i, w) else Some (Some (cstr r), i, w).

Definition ctrl_write_json (buf : bytes) (w : W) : W := ctrl_write buf (ctrl_write (be32 (zlen buf)) w).

(** ** Streams *)

Definition next_id (n : Z) : Z := let n := u8 (n + 1) in if n =? 2 then u8 (n + 1) else n.

Definition stream_new (conn : Z) (t : transfer) (i : iperf3) (w : W) : option stream * iperf3 * W :=
  let '(ok, w) := os_alloc sizeof_stream w in
  if negb ok then (None, i, w)
  else
    let id := next_id (i_next_id i) in
    (Some (mkStream conn id (i_reverse i || i_bidir_func i) 1 0 0 0 t), set_next_id id i, w).

Fixpoint stream_tcp_read (fuel : nat) (s : stream) (w : W) : option (stream * W) :=
  match fuel with
  | O => None
  | S fuel =>
      let '(buf, w) := netconn_recv (s_conn s) w in
      match buf with
      | None => Some (s, w)
      | Some b =>
          stream_tcp_read fuel (mkStream (s_conn s) (s_id s) (s_reverse s) (s_next_pseq s) (u64 (s_num_bytes s + zlen b)) (s_num_pkts s) (s_num_err s) (s_transfer s)) w
      end
  end.

(** The counters after a packet with the sequence number [pseq]. *)
Definition udp_count (pseq len : Z) (s : stream) : stream :=
  mkStream (s_conn s) (s_id s) (s_reverse s) (u32 (pseq + 1)) (u64 (s_num_bytes s + len)) pseq
    (if s_next_pseq s <? pseq then u32 (s_num_err s + (pseq - s_next_pseq s)) else s_num_err s) (s_transfer s).

Definition packet_pseq (b : bytes) : Z := le_value (rev (take 4 (drop 8 b))).

Fixpoint stream_udp_read (fuel : nat) (s : stream) (w : W) : option (stream * W) :=
  match fuel with
  | O => None
  | S fuel =>
      let '(buf, w) := netconn_recv (s_conn s) w in
      match buf with
      | None => Some (s, w)
      | Some b => if zlen b <? 12 then None else stream_udp_read fuel (udp_count (packet_pseq b) (zlen b) s) w
      end
  end.

Definition count_sent (n : Z) (s : stream) : stream :=
  mkStream (s_conn s) (s_id s) (s_reverse s) (s_next_pseq s) (u64 (s_num_bytes s + n)) (u32 (s_num_pkts s + 1)) (s_num_err s) (s_transfer s).

Fixpoint tcp_write_loop (fuel : nat) (writelen len : Z) (s : stream) (w : W) : option (stream * W) :=
  match fuel with
  | O => None
  | S fuel =>
      let part := Z.min len writelen in
      let '(ok, outlen, w) := netconn_write_partly (s_conn s) part w in
      let len := u32 (len - outlen) in
      let s := count_sent outlen s in
      if ok && (0 <? len) && (outlen =? part) then tcp_write_loop fuel writelen len s w else Some (s, w)
  end.

Definition stream_tcp_write (fuel : nat) (len : Z) (i : iperf3) (s : stream) (w : W) : option (stream * W) :=
  if os_avail_heap w <? IPERF3_LOW_HEAP_TX_LIMIT then Some (s, w)
  else if negb (i_sendbuf i) then Some (s, w)
  else tcp_write_loop fuel (i_writelen i) len s w.

(** The packet is its header and whatever the buffer held; a buffer shorter than
    the header is undefined. *)
Definition stream_udp_write (i : iperf3) (s : stream) (w : W) : option (stream * W) :=
  let '(tx_time, w) := os_systime64 w in
  let '(now, w) := os_systime w in
  let again := os_request_timeoutmsg (u32 (now + i_send_interval i)) (mkEvent (s_conn s) SENDPLUS 65535) in
  if os_avail_heap w <? IPERF3_LOW_HEAP_TX_LIMIT then Some (s, again w)
  else
    let '(ok, w) := netbuf_alloc (i_writelen i) w in
    if negb ok then Some (s, again w)
    else if i_writelen i <? 12 then None
    else
      let hdr := be32 (u32 (tx_time / SYSTIME_SEC 1)) ++ be32 (tx_time mod SYSTIME_SEC 1) ++ be32 (s_next_pseq s) in
      let '(_, w) := netconn_send (s_conn s) (hdr ++ replicate (Z.to_nat (i_writelen i - 12)) 0) w in
      let s := mkStream (s_conn s) (s_id s) (s_reverse s) (u32 (s_next_pseq s + 1)) (s_num_bytes s) (s_num_pkts s) (s_num_err s) (s_transfer s) in
      Some (count_sent (i_writelen i) s, again w).

Definition stream_transfer (fuel : nat) (len : Z) (i : iperf3) (s : stream) (w : W) : option (stream * W) :=
  match s_transfer s with
  | tcp_read => stream_tcp_read fuel s w
  | udp_read => stream_udp_read fuel s w
  | tcp_write => stream_tcp_write fuel len i s w
  | udp_write => stream_udp_write i s w
  end.

Definition writes (i : iperf3) : bool := i_reverse i || i_bidir_func i.

Definition create_tcp_stream (i : iperf3) (w : W) : option stream * iperf3 * W :=
  let '(conn, w) := netconn_accept w in
  match conn with
  | None => (None, i, w)
  | Some conn =>
      let '(buf, w) := netconn_recv conn w in
      match buf with
      | None => (None, i, netconn_delete conn w)
      | Some _ =>
          let '(s, i, w) := stream_new conn (if writes i then tcp_write else tcp_read) i w in
          match s with None => (None, i, netconn_delete conn w) | Some s => (Some s, i, w) end
      end
  end.

Definition create_udp_stream (i : iperf3) (w : W) : option stream * iperf3 * W :=
  let '(conn, w) := netconn_new w in
  match conn with
  | None => (None, i, w)
  | Some conn =>
      let '(ok, w) := netconn_bind conn w in
      if negb ok then (None, i, netconn_delete conn w)
      else
        let '(buf, w) := netconn_recv conn w in
        match buf with
        | None => (None, i, netconn_delete conn w)
        | Some b =>
            let '(s, i, w) := stream_new conn (if writes i then udp_write else udp_read) i w in
            match s with
            | None => (None, i, netconn_delete conn w)
            | Some s =>
                let '(ok, w) := netconn_connect conn w in
                if negb ok then (None, i, netconn_delete conn w)
                else let '(_, w) := netconn_send conn b w in (Some s, i, w)
            end
        end
  end.

Fixpoint lookup_stream (conn : Z) (l : list stream) : option stream :=
  match l with [] => None | s :: l => if s_conn s =? conn then Some s else lookup_stream conn l end.

(** The stream of a connection, with its new counters. *)
Fixpoint update_stream (s : stream) (l : list stream) : list stream :=
  match l with [] => [] | x :: l => if s_conn x =? s_conn s then s :: l else x :: update_stream s l end.

Fixpoint close_streams (udp : bool) (l : list stream) (w : W) : W :=
  match l with
  | [] => w
  | s :: l => close_streams udp l (netconn_delete (s_conn s) (if udp then w else netconn_close (s_conn s) w))
  end.

Definition iperf3_test_cleanup (i : iperf3) (w : W) : W := drain_msgs (close_streams (i_udp i) (i_streams i) w).

(** ** The result *)

(** [buf] up to [pos] and the size of its block. *)
Record stringstream := mkSs { ss_max : Z; ss_text : bytes }.

Definition str_init (w : W) : option (stringstream * W) :=
  let '(ok, w) := os_alloc 128 w in if ok then Some (mkSs 128 [], w) else None.

(** The loop of [str_printf] for a text of [n] characters at [pos]: the new size.
    From 1024 on the buffer does not grow any more. *)
Fixpoint str_grow (fuel : nat) (max pos n : Z) (w : W) : option (Z * W) :=
  match fuel with
  | O => None
  | S fuel =>
      if pos <? max then
        if n <? max - pos then Some (max, w)
        else if max <? 1024 then
          let '(ok, w) := os_alloc (max * 2) w in if ok then str_grow fuel (max * 2) pos n w else None
        else str_grow fuel max pos n w
      else Some (max, w)
  end.

Definition str_printf (fuel : nat) (text : bytes) (ss : stringstream) (w : W) : option (stringstream * W) :=
  '(max, w) ← str_grow fuel (ss_max ss) (zlen (ss_text ss)) (zlen text) w;
  Some (mkSs max (ss_text ss ++ text), w).

Definition num (v : Z) : bytes := str (pretty v).
Definition quoted (s : string) : bytes := 34 :: str s ++ [34].

(** [%06llu] *)
Definition num6 (v : Z) : bytes := replicate (6 - length (num v)) 48 ++ num v.

Definition cpu_text (total user irq : Z) : bytes :=
  str "{" ++ quoted "cpu_util_total" ++ str ": " ++ num total ++ str "," ++ quoted "cpu_util_user" ++ str ": " ++ num user ++ str ","
  ++ quoted "cpu_util_system" ++ str ": " ++ num irq ++ str "," ++ quoted "sender_has_retransmits" ++ str ": -1,"
  ++ quoted "congestion_used" ++ str ": " ++ quoted "cubic" ++ str ",".

Definition stream_text (first : bool) (duration : Z) (s : stream) : bytes :=
  (if first then [] else str ",") ++ str "{" ++ quoted "id" ++ str ":" ++ num (s_id s) ++ str "," ++ quoted "bytes" ++ str ":" ++ num (s_num_bytes s) ++ str ","
  ++ quoted "retransmits" ++ str ":0," ++ quoted "jitter" ++ str ":0," ++ quoted "errors" ++ str ":" ++ num (s_num_err s) ++ str ","
  ++ quoted "packets" ++ str ":" ++ num (s_num_pkts s) ++ str "," ++ quoted "start_time" ++ str ":0," ++ quoted "end_time" ++ str ":"
  ++ num (duration / SYSTIME_SEC 1) ++ str "." ++ num6 (duration mod SYSTIME_MS 1) ++ str "}".

(** Each stream is also printed, with its speed: a division by the seconds. *)
Fixpoint stream_results (fuel : nat) (first : bool) (duration : Z) (l : list stream) (ss : stringstream) (w : W) : option (stringstream * W) :=
  match l with
  | [] => Some (ss, w)
  | s :: l =>
      '(ss, w) ← str_printf fuel (stream_text first duration s) ss w;
      if duration / SYSTIME_SEC 1 =? 0 then None else stream_results fuel false duration l ss w
  end.

Definition json_result (fuel : nat) (i : iperf3) (duration : Z) (cpu : cpu_usage) (w : W) : option (bytes * W) :=
  let cpu_total := u32 (cpu_user cpu + cpu_irq cpu + cpu_idle cpu) in
  if cpu_total =? 0 then None
  else
    let user := u32 (u64 (100 * cpu_user cpu) / cpu_total) in
    let irq := u32 (u64 (100 * cpu_irq cpu) / cpu_total) in
    '(ss, w) ← str_init w;
    '(ss, w) ← str_printf fuel (cpu_text (u32 (user + irq)) user irq) ss w;
    '(ss, w) ← str_printf fuel (quoted "streams" ++ str ": [") ss w;
    '(ss, w) ← stream_results fuel true duration (i_streams i) ss w;
    '(ss, w) ← str_printf fuel (str "]}") ss w;
    Some (ss_text ss, w).

(** ** A test *)

(** The parameters, and the time between two packets: a rate below eight bits per
    second is a division by 0. *)
Definition read_params (junk : json_token) (param : bytes) (i : iperf3) : option iperf3 :=
  let get name deflt := json_find_int junk param (str name) deflt in
  n ← get "parallel" 1;
  rev ← get "reverse" 0;
  bid ← get "bidirectional" 0;
  udp ← get "udp" 0;
  tos ← get "TOS" 0;
  len ← get "len" 1460;
  bps ← get "bandwidth" 1048576;
  let writelen := u32 (Z.min 1460 len) in
  let bps := u32 bps in
  if bps / 8 =? 0 then None
  else Some (set_params (u32 n) (negb (rev =? 0)) (negb (bid =? 0)) (negb (udp =? 0)) (u8 tos) writelen bps (u32 (SYSTIME_SEC 1 * writelen) / (bps / 8)) i).

(** [n] streams from number [k] on; [false] when one could not be made. *)
Fixpoint create_streams (n : nat) (k : Z) (i : iperf3) (w : W) : bool * iperf3 * W :=
  match n with
  | O => (true, i, w)
  | S n =>
      let i := if i_bidir i then set_bidir_func (negb (k mod 2 =? 0)) i else i in
      let '(s, i, w) := if i_udp i then create_udp_stream i w else create_tcp_stream i w in
      match s with
      | None => (false, i, w)
      | Some s =>
          let i := set_streams (i_streams i ++ [s]) i in
          let kick := os_sendmsg (mkEvent (s_conn s) SENDPLUS 65535) in
          if i_reverse i then create_streams n (k + 1) i (kick w)
          else if i_bidir i then create_streams n (k + 1) (set_bidir_func false i) (if i_bidir_func i then kick w else w)
          else create_streams n (k + 1) i w
      end
  end.

(** The loop of a running test: [true] at its end, [false] after an event of an
    unknown connection. *)
Fixpoint run_events (rounds fuel : nat) (i : iperf3) (w : W) : option (bool * iperf3 * W) :=
  match rounds with
  | O => None
  | S rounds =>
      if negb (i_state i =? TEST_RUNNING) then Some (true, i, w)
      else
        let '(ev, w) := os_recvmsg w in
        if ev_conn ev =? i_mother i then run_events rounds fuel i w
        else if ev_conn ev =? i_ctrl i then
          if bool_decide (ev_event ev = RCVPLUS) then '(i, w) ← ctrl_get_state i w; run_events rounds fuel i w
          else run_events rounds fuel i w
        else if (negb (i_reverse i) && negb (i_bidir i)) && bool_decide (ev_event ev = SENDPLUS) then run_events rounds fuel i w
        else if i_reverse i && bool_decide (ev_event ev = RCVPLUS) then run_events rounds fuel i w
        else
          match lookup_stream (ev_conn ev) (i_streams i) with
          | Some s =>
              '(s, w) ← stream_transfer fuel (ev_len ev) i s w;
              run_events rounds fuel (set_streams (update_stream s (i_streams i)) i) w
          | None => Some (false, i, iperf3_test_cleanup i w)
          end
  end.

(** The end of a test whose client said so. *)
Definition exchange_results (fuel : nat) (duration : Z) (cpu : cpu_usage) (i : iperf3) (w : W) : option (iperf3 * W) :=
  let '(i, w) := ctrl_set_state EXCHANGE_RESULTS i w in
  '(_, i, w) ← ctrl_read_json i w;
  '(server_result, w) ← json_result fuel i duration cpu w;
  let w := ctrl_write_json server_result w in
  let '(i, w) := ctrl_set_state DISPLAY_RESULTS i w in
  ctrl_get_state i w.

(** The test once its streams are there. *)
Definition run_test (rounds fuel : nat) (i : iperf3) (w : W) : option (Z * iperf3 * W) :=
  let '(i, w) := ctrl_set_state TEST_START i w in
  let '(i, w) := ctrl_set_state TEST_RUNNING i w in
  let w := iperf3_stream_cb true w in
  let '(start, w) := os_systime64 w in
  let '(u0, w) := os_get_cpu_usage w in
  '(ok, i, w) ← run_events rounds fuel i w;
  if negb ok then Some (EIO, i, w)
  else
    let '(now, w) := os_systime64 w in
    let duration := u64 (now - start) in
    let w := iperf3_stream_cb false w in
    let '(u1, w) := os_get_cpu_usage w in
    let cpu := mkCpu (u64 (cpu_user u1 - cpu_user u0)) (u64 (cpu_irq u1 - cpu_irq u0)) (u64 (cpu_idle u1 - cpu_idle u0)) in
    let w := iperf3_test_cleanup i w in
    if i_state i =? TEST_END then '(i, w) ← exchange_results fuel duration cpu i w; Some (0, i, w)
    else Some (0, i, w).

Definition iperf3_test (junk : json_token) (rounds fuel : nat) (i : iperf3) (w : W) : option (Z * iperf3 * W) :=
  let '(ok, w) := os_alloc COOKIE_SIZE w in
  if negb ok then None
  else
    '(_, i, w) ← ctrl_read COOKIE_SIZE i w;
    let '(i, w) := ctrl_set_state PARAM_EXCHANGE i w in
    '(param, i, w) ← ctrl_read_json i w;
    match param with
    | None => Some (ENOMEM, i, w)
    | Some param =>
        i ← read_params junk param i;
        let '(ok, w) := if (i_reverse i || i_bidir i) && negb (i_udp i) then os_alloc (i_writelen i) w else (true, w) in
        if negb ok then Some (ENOMEM, i, w)
        else
          let i := if (i_reverse i || i_bidir i) && negb (i_udp i) then set_sendbuf true i else i in
          let '(i, w) := ctrl_set_state CREATE_STREAMS i w in
          let '(ok, i, w) := create_streams (Z.to_nat (u32 (i_num_streams i * (if i_bidir i then 2 else 1)))) 0 i w in
          if negb ok then Some (ENOMEM, i, w) else run_test rounds fuel i w
    end.

(** A round of the thread: one client. *)
Definition iperf3_session (junk : json_token) (rounds fuel : nat) (mother ctrl : Z) (w : W) : option W :=
  let i := mkI3 mother ctrl [] 0 0 0 None false 0 0 0 0 false false false false 0 in
  '(rc, i, w) ← iperf3_test junk rounds fuel i w;
  let w := if rc =? 0 then w else (ctrl_set_state SERVER_TERMINATE i w).2 in
  Some (netconn_delete (i_ctrl i) (netconn_close (i_ctrl i) w)).

End Server.
