(* ===== verification/Iperf3Props.v ===== *)
(** * Theorems about the iperf3 server

    The order of the states the server announces, the parameters it takes over,
    the counters of a UDP stream, the messages of the control connection and the
    text of the result: which results fit, and that from nine streams on the
    result is never ready. *)

From S2P Require Import Prelude FileSys FsUtils BasicJson CString IperfJson Iperf3.

(** ** The protocol of a session *)

(** The bytes written to the control connection: only [ctrl_write] adds some. *)
Class IperfTrace (W : Type) `{IperfOs W} := {
  written : W -> bytes;
  written_write b w : written (ctrl_write b w) = written w ++ b;
  written_ctrl_recv w : written (ctrl_recv w).2 = written w;
  written_accept w : written (netconn_accept w).2 = written w;
  written_new w : written (netconn_new w).2 = written w;
  written_bind c w : written (netconn_bind c w).2 = written w;
  written_connect c w : written (netconn_connect c w).2 = written w;
  written_recv c w : written (netconn_recv c w).2 = written w;
  written_send c b w : written (netconn_send c b w).2 = written w;
  written_partly c n w : written (netconn_write_partly c n w).2 = written w;
  written_close c w : written (netconn_close c w) = written w;
  written_delete c w : written (netconn_delete c w) = written w;
  written_netbuf n w : written (netbuf_alloc n w).2 = written w;
  written_alloc n w : written (os_alloc n w).2 = written w;
  written_time64 w : written (os_systime64 w).2 = written w;
  written_time w : written (os_systime w).2 = written w;
  written_cpu w : written (os_get_cpu_usage w).2 = written w;
  written_recvmsg w : written (os_recvmsg w).2 = written w;
  written_sendmsg e w : written (os_sendmsg e w) = written w;
  written_timeout t e w : written (os_request_timeoutmsg t e w) = written w;
  written_drain w : written (drain_msgs w) = written w;
  written_cb b w : written (iperf3_stream_cb b w) = written w;
}.

(** What the client sent and the server has read. *)
Definition consumed (i : iperf3) : bytes := take (Z.to_nat (i_pos i)) (default [] (i_inbuf i)).

(** The cookie (less than its 37 bytes when they do not come in one piece) and
    the parameters with their length. *)
Definition greeting (c : bytes) : Prop :=
  exists cookie l txt, c = cookie ++ l ++ txt /\ zlen cookie <= COOKIE_SIZE /\ zlen l = 4 /\ le_value (rev l) = zlen txt.

(** What the client sent and the server has written in a test that ends with
    the result [rc].  The client may say that the test is running (2) any number
    of times; its first other state decides what happens. *)
Inductive protocol : Z -> bytes -> bytes -> Prop :=
| no_parameters c : protocol ENOMEM c [9]
| no_streams c : greeting c -> protocol ENOMEM c [9; 10]
| lost_event c n : greeting c -> protocol EIO (c ++ replicate n 2) [9; 10; 1; 2]
| terminated c n st : greeting c -> st <> 2 -> st <> 4 -> protocol 0 (c ++ replicate n 2 ++ [st]) [9; 10; 1; 2]
| completed c n m st r : greeting c ->
    protocol 0 (c ++ replicate n 2 ++ [4] ++ m ++ [st]) ([9; 10; 1; 2] ++ [13] ++ be32 (zlen r) ++ r ++ [14]).

Section Session.
Context {W : Type} `{IperfTrace W}.

(** Opens the result of a call of the kernel, keeping what it leaves written. *)
Tactic Notation "call" constr(L) "as" ident(x) ident(w) ident(E) :=
  pose proof L as E; match type of E with written (snd ?c) = _ => destruct c as [x w] end; cbn [snd] in E.

Lemma fill_written i w : written (ctrl_fill i w).2 = written w.
Proof. unfold ctrl_fill. call (written_ctrl_recv w) as x w1 E. by destruct x. Qed.

Lemma read_written n i w r i' w' : ctrl_read n i w = Some (r, i', w') -> written w' = written w.
Proof.
  unfold ctrl_read. destruct (ctrl_avail i <? n).
  - pose proof (fill_written i w) as Ef. destruct (ctrl_fill i w) as [i1 w1]. destruct (i_inbuf i1); [|done]. cbn. by intros [= <- <- <-].
  - destruct (i_inbuf i); [|done]. cbn. by intros [= <- <- <-].
Qed.

Lemma get_state_written i w i' w' : ctrl_get_state i w = Some (i', w') -> written w' = written w.
Proof.
  unfold ctrl_get_state. destruct (ctrl_read 1 i w) as [[[r i1] w1]|] eqn:E; [|done]. cbn [mbind option_bind].
  destruct (head r); [|done]. cbn. intros [= <- <-]. by eapply read_written.
Qed.

Lemma read_json_written i w t i' w' : ctrl_read_json i w = Some (t, i', w') -> written w' = written w.
Proof.
  unfold ctrl_read_json. destruct (ctrl_read 4 i w) as [[[r i1] w1]|] eqn:E1; [|done]. cbn [mbind option_bind]. apply read_written in E1.
  case_if; [intros [= <- <- <-]; done|]. call (written_alloc (u32 (le_value (rev r) + 1)) w1) as ok w0 E2. case_if; [intros [= <- <- <-]; congruence|].
  destruct (ctrl_read _ i1 w0) as [[[r2 i2] w2]|] eqn:E3; [|done]. cbn [mbind option_bind]. apply read_written in E3.
  case_if; [done|]. case_if; intros [= <- <- <-]; congruence.
Qed.

Lemma tcp_read_written fuel : forall s w s' w', stream_tcp_read fuel s w = Some (s', w') -> written w' = written w.
Proof.
  induction fuel as [|fuel IH]; intros s w s' w'; [done|]. cbn [stream_tcp_read]. call (written_recv (s_conn s) w) as x w1 E. destruct x; [|by intros [= <- <-]].
  intros E2. apply IH in E2. congruence.
Qed.

Lemma udp_read_written fuel : forall s w s' w', stream_udp_read fuel s w = Some (s', w') -> written w' = written w.
Proof.
  induction fuel as [|fuel IH]; intros s w s' w'; [done|]. cbn [stream_udp_read]. call (written_recv (s_conn s) w) as x w1 E. destruct x; [|by intros [= <- <-]].
  case_if; [done|]. intros E2. apply IH in E2. congruence.
Qed.

Lemma tcp_write_written fuel n : forall len s w s' w', tcp_write_loop fuel n len s w = Some (s', w') -> written w' = written w.
Proof.
  induction fuel as [|fuel IH]; intros len s w s' w'; [done|]. cbn [tcp_write_loop].
  pose proof (written_partly (s_conn s) (Z.min len n) w) as E. destruct (netconn_write_partly _ _ w) as [[ok out] w1]. cbn [snd] in E.
  case_if; [|intros [= <- <-]; done]. intros E2. apply IH in E2. congruence.
Qed.

Lemma transfer_written fuel len i s w s' w' : stream_transfer fuel len i s w = Some (s', w') -> written w' = written w.
Proof.
  unfold stream_transfer. destruct (s_transfer s); [apply tcp_read_written|apply udp_read_written| |].
  - unfold stream_tcp_write. case_if; [by intros [= <- <-]|]. case_if; [by intros [= <- <-]|apply tcp_write_written].
  - unfold stream_udp_write. call (written_time64 w) as tx w1 E1. call (written_time w1) as now w2 E2.
    case_if; [intros [= <- <-]; rewrite written_timeout; congruence|]. call (written_netbuf (i_writelen i) w2) as ok w3 E3.
    case_if; [intros [= <- <-]; rewrite written_timeout; congruence|]. case_if; [done|].
    match goal with |- context [netconn_send ?c ?b w3] => call (written_send c b w3) as sent w4 Hs end.
    intros [= <- <-]. rewrite written_timeout. congruence.
Qed.

Context (sizeof_stream : Z).

Lemma stream_new_written c t i w : written (stream_new sizeof_stream c t i w).2 = written w.
Proof. unfold stream_new. call (written_alloc sizeof_stream w) as ok w1 Ew. by destruct ok. Qed.

Lemma create_tcp_written i w : written (create_tcp_stream sizeof_stream i w).2 = written w.
Proof.
  unfold create_tcp_stream. call (written_accept w) as c w1 E1. destruct c as [c|]; [|done].
  call (written_recv c w1) as b w2 E2. destruct b; [|cbn; rewrite written_delete; congruence].
  pose proof (stream_new_written c (if writes i then tcp_write else tcp_read) i w2) as E3. destruct (stream_new _ _ _ _ _) as [[[s|] i3] w3]; cbn [snd] in *;
    [congruence|]. rewrite written_delete. congruence.
Qed.

Lemma create_udp_written i w : written (create_udp_stream sizeof_stream i w).2 = written w.
Proof.
  unfold create_udp_stream. call (written_new w) as c w1 E1. destruct c as [c|]; [|done].
  call (written_bind c w1) as ok w2 E2. destruct ok; cbn [negb]; [|cbn; rewrite written_delete; congruence].
  call (written_recv c w2) as b w3 E3. destruct b; [|cbn; rewrite written_delete; congruence].
  pose proof (stream_new_written c (if writes i then udp_write else udp_read) i w3) as E4. destruct (stream_new _ _ _ _ _) as [[[s|] i4] w4]; cbn [snd] in *;
    [|rewrite written_delete; congruence].
  call (written_connect c w4) as ok w5 E5. destruct ok; cbn [negb]; [|cbn; rewrite written_delete; congruence].
  call (written_send c l w5) as sent w6 E6. cbn. congruence.
Qed.

Lemma create_streams_written n : forall k i w, written (create_streams sizeof_stream n k i w).2 = written w.
Proof.
  induction n as [|n IH]; intros k i w; [done|]. cbn [create_streams]. set (i1 := if i_bidir i then _ else i).
  assert (E : written (if i_udp i1 then create_udp_stream sizeof_stream i1 w else create_tcp_stream sizeof_stream i1 w).2 = written w)
    by (case_if; [apply create_udp_written|apply create_tcp_written]).
  destruct (if i_udp i1 then _ else _) as [[[s|] i2] w2]; cbn [snd] in E; [|done].
  case_if; [rewrite IH, written_sendmsg; done|]. case_if; rewrite IH; [case_if; rewrite ?written_sendmsg; done|done].
Qed.

Lemma close_streams_written udp l : forall w, written (close_streams udp l w) = written w.
Proof. induction l as [|s l IH]; intros w; [done|]. cbn [close_streams]. rewrite IH, written_delete. case_if; rewrite ?written_close; done. Qed.

Lemma cleanup_written i w : written (iperf3_test_cleanup i w) = written w.
Proof. unfold iperf3_test_cleanup. by rewrite written_drain, close_streams_written. Qed.

Lemma run_events_written rounds fuel : forall i w ok i' w', run_events rounds fuel i w = Some (ok, i', w') -> written w' = written w.
Proof.
  induction rounds as [|rounds IH]; intros i w ok i' w'; [done|]. cbn [run_events]. case_if; [by intros [= <- <- <-]|].
  call (written_recvmsg w) as ev w1 E1. assert (Hgo : forall i1 w2, written w2 = written w1 -> run_events rounds fuel i1 w2 = Some (ok, i', w') -> written w' = written w).
  { intros i1 w2 Hw E2. apply IH in E2. congruence. }
  case_if; [by apply Hgo|]. case_if.
  { case_if; [|by apply Hgo]. destruct (ctrl_get_state i w1) as [[i2 w2]|] eqn:Eg; [|done]. cbn [mbind option_bind]. apply get_state_written in Eg. by apply Hgo. }
  case_if; [by apply Hgo|]. case_if; [by apply Hgo|]. destruct (lookup_stream _ _) as [s|].
  - destruct (stream_transfer fuel _ i s w1) as [[s2 w2]|] eqn:Et; [|done]. cbn [mbind option_bind]. apply transfer_written in Et. by apply Hgo.
  - intros [= <- <- <-]. by rewrite cleanup_written.
Qed.

Lemma grow_written fuel : forall max pos n w m w', str_grow fuel max pos n w = Some (m, w') -> written w' = written w.
Proof.
  induction fuel as [|fuel IH]; intros max pos n w m w'; [done|]. cbn [str_grow]. case_if; [|by intros [= <- <-]]. case_if; [by intros [= <- <-]|].
  case_if; [|by apply IH]. call (written_alloc (max * 2) w) as ok w1 Ew. destruct ok; [|done]. intros Eg. apply IH in Eg. congruence.
Qed.

Lemma printf_written fuel t ss w ss' w' : str_printf fuel t ss w = Some (ss', w') -> written w' = written w.
Proof. unfold str_printf. destruct (str_grow _ _ _ _ _) as [[m w1]|] eqn:E; [|done]. cbn. intros [= <- <-]. by apply grow_written in E. Qed.

Lemma stream_results_written fuel d l : forall first ss w ss' w', stream_results fuel first d l ss w = Some (ss', w') -> written w' = written w.
Proof.
  induction l as [|s l IH]; intros first ss w ss' w'; cbn [stream_results]; [by intros [= <- <-]|].
  destruct (str_printf _ _ ss w) as [[ss1 w1]|] eqn:E; [|done]. cbn [mbind option_bind]. apply printf_written in E. case_if; [done|]. intros Es. apply IH in Es. congruence.
Qed.

Lemma result_written fuel i d cpu w r w' : json_result fuel i d cpu w = Some (r, w') -> written w' = written w.
Proof.
  unfold json_result, str_init. case_if; [done|]. call (written_alloc 128 w) as ok w1 E1. destruct ok; [|done]. cbn [mbind option_bind].
  destruct (str_printf _ _ _ w1) as [[s2 w2]|] eqn:E2; [|done]. cbn [mbind option_bind]. destruct (str_printf _ _ _ w2) as [[s3 w3]|] eqn:E3; [|done]. cbn [mbind option_bind].
  destruct (stream_results _ _ _ _ _ w3) as [[s4 w4]|] eqn:E4; [|done]. cbn [mbind option_bind]. destruct (str_printf _ _ _ w4) as [[s5 w5]|] eqn:E5; [|done].
  cbn. intros [= <- <-]. apply printf_written in E2, E3, E5. apply stream_results_written in E4. congruence.
Qed.

Lemma exchange_written fuel d cpu i w i' w' :
  exchange_results fuel d cpu i w = Some (i', w') -> exists r, written w' = written w ++ [13] ++ be32 (zlen r) ++ r ++ [14].
Proof.
  unfold exchange_results, ctrl_set_state. destruct (ctrl_read_json _ _) as [[[t i1] w1]|] eqn:E1; [|done]. cbn [mbind option_bind]. apply read_json_written in E1.
  rewrite written_write in E1. destruct (json_result _ _ _ _ w1) as [[r w2]|] eqn:E2; [|done]. cbn [mbind option_bind]. apply result_written in E2.
  intros E3. apply get_state_written in E3. unfold ctrl_write_json in E3. rewrite !written_write, E2, E1 in E3. exists r. rewrite E3. by rewrite <- !app_assoc.
Qed.

(** *** What the server reads *)

Definition in_ok (i : iperf3) : Prop := 0 <= i_pos i <= zlen (default [] (i_inbuf i)).

Definition input (i : iperf3) : Z * option bytes := (i_pos i, i_inbuf i).

Lemma input_consumed i i' : input i' = input i -> in_ok i -> in_ok i' /\ consumed i' = consumed i.
Proof. unfold input, in_ok, consumed. by intros [= -> ->]. Qed.

Lemma read_consumed n i w r i' w' : in_ok i -> ctrl_read n i w = Some (r, i', w') ->
  in_ok i' /\ consumed i' = consumed i ++ r /\ zlen r <= Z.max 0 n /\ i_state i' = i_state i.
Proof.
  intros Hi. unfold ctrl_read.
  assert (G : forall i1 b, i_state i1 = i_state i -> i_inbuf i1 = Some b -> in_ok i1 -> consumed i1 = consumed i ->
    let r := take (Z.to_nat n) (drop (Z.to_nat (i_pos i1)) b) in let i2 := set_input (i_pos i1 + zlen r) (Some b) i1 in
    in_ok i2 /\ consumed i2 = consumed i ++ r /\ zlen r <= Z.max 0 n /\ i_state i2 = i_state i).
  { intros i1 b Est Hb Hok Hc. cbn zeta. unfold in_ok, consumed in *. rewrite Hb in Hok, Hc. cbn [default from_option id] in *. cbn.
    set (r1 := take (Z.to_nat n) (drop (Z.to_nat (i_pos i1)) b)). assert (Hr1 : zlen r1 <= zlen b - i_pos i1 /\ zlen r1 <= Z.max 0 n).
    { unfold r1, zlen in *. rewrite length_take, length_drop. lia. }
    pose proof (zlen_nonneg r1). split_and!; [lia|lia| |lia|done].
    rewrite <- Hc, Z2Nat.inj_add by lia. rewrite <- take_take_drop. f_equal. unfold r1, zlen at 1.
    rewrite Nat2Z.id, length_take. symmetry. destruct (Nat.le_ge_cases (Z.to_nat n) (length (drop (Z.to_nat (i_pos i1)) b))).
    - by rewrite Nat.min_l by done.
    - rewrite Nat.min_r by done. by rewrite !take_ge by lia. }
  destruct (ctrl_avail i <? n).
  - unfold ctrl_fill. destruct (ctrl_recv w) as [[b|] w1].
    + cbn. intros [= <- <- <-]. apply (G (set_input (i_pos i) (Some (default [] (i_inbuf i) ++ b)) i)); [done|done| |].
      * unfold in_ok in *. cbn. rewrite zlen_app. pose proof (zlen_nonneg b). lia.
      * unfold consumed, in_ok in *. cbn. rewrite take_app_le; [done|]. unfold zlen in Hi. lia.
    + destruct (i_inbuf i) as [b|] eqn:Eb; [|done]. cbn. intros [= <- <- <-]. by apply G.
  - destruct (i_inbuf i) as [b|] eqn:Eb; [|done]. cbn. intros [= <- <- <-]. by apply G.
Qed.

Lemma get_state_consumed i w i' w' : in_ok i -> ctrl_get_state i w = Some (i', w') ->
  in_ok i' /\ consumed i' = consumed i ++ [i_state i'].
Proof.
  intros Hi. unfold ctrl_get_state. destruct (ctrl_read 1 i w) as [[[r i1] w1]|] eqn:E; [|done]. cbn [mbind option_bind].
  destruct (read_consumed 1 i w r i1 w1 Hi E) as (Hi1 & Hc & Hl & _). destruct r as [|st r]; [done|]. cbn. intros [= <- <-].
  rewrite zlen_cons in Hl. destruct r; [|rewrite zlen_cons in Hl; pose proof (zlen_nonneg r); lia]. done.
Qed.

Lemma read_json_consumed i w t i' w' : in_ok i -> ctrl_read_json i w = Some (t, i', w') ->
  in_ok i' /\ exists m, consumed i' = consumed i ++ m /\ (is_Some t -> exists l txt, m = l ++ txt /\ zlen l = 4 /\ le_value (rev l) = zlen txt).
Proof.
  intros Hi. unfold ctrl_read_json. destruct (ctrl_read 4 i w) as [[[r i1] w1]|] eqn:E1; [|done]. cbn [mbind option_bind].
  destruct (read_consumed 4 i w r i1 w1 Hi E1) as (Hi1 & Hc1 & Hl1 & _).
  case_if; [intros [= <- <- <-]; split; [done|]; exists r; split; [done|by intros [? ?]]|]. b2p.
  destruct (os_alloc _ w1) as [ok w2]. case_if; [intros [= <- <- <-]; split; [done|]; exists r; split; [done|by intros [? ?]]|].
  destruct (ctrl_read _ i1 w2) as [[[r2 i2] w3]|] eqn:E2; [|done]. cbn [mbind option_bind].
  destruct (read_consumed _ i1 w2 r2 i2 w3 Hi1 E2) as (Hi2 & Hc2 & _ & _).
  case_if; [done|]. case_if; intros [= <- <- <-]; (split; [done|]; exists (r ++ r2); split; [by rewrite Hc2, Hc1, app_assoc|]); [by intros [? ?]|].
  intros _. exists r, r2. by b2p.
Qed.

Lemma create_stream_input i w : input (if i_udp i then create_udp_stream sizeof_stream i w else create_tcp_stream sizeof_stream i w).1.2 = input i.
Proof.
  assert (Hnew : forall c t w1, input (stream_new sizeof_stream c t i w1).1.2 = input i) by (intros; unfold stream_new; destruct (os_alloc _ _) as [[] w1']; done).
  case_if; [unfold create_udp_stream|unfold create_tcp_stream];
  repeat match goal with
  | |- context [stream_new ?z ?c ?t i ?w1] => pose proof (Hnew c t w1); destruct (stream_new z c t i w1) as [[[]] ]; cbn [fst snd] in *
  | |- context [let '(_, _) := ?x in _] => destruct x
  | |- context [match ?x with None => _ | Some _ => _ end] => destruct x
  | |- context [if ?x then _ else _] => destruct x
  end; done.
Qed.

Lemma create_streams_input n : forall k i w, input (create_streams sizeof_stream n k i w).1.2 = input i.
Proof.
  induction n as [|n IH]; intros k i w; [done|]. cbn [create_streams]. set (i1 := if i_bidir i then _ else i).
  assert (E0 : input i1 = input i) by (unfold i1; by case_if). pose proof (create_stream_input i1 w) as E. rewrite E0 in E.
  destruct (if i_udp i1 then _ else _) as [[[s|] i2] w2]; cbn [fst snd] in E; [|done]. repeat case_if; rewrite IH; exact E.
Qed.

Lemma run_events_consumed rounds fuel : forall i w ok i' w', in_ok i -> i_state i = TEST_RUNNING -> run_events rounds fuel i w = Some (ok, i', w') ->
  in_ok i' /\ exists n, consumed i' = consumed i ++ replicate n 2 ++ (if ok then [i_state i'] else []) /\ (ok = true -> i_state i' <> TEST_RUNNING).
Proof.
  induction rounds as [|rounds IH]; intros i w ok i' w' Hi Hst; [done|]. cbn [run_events]. rewrite Hst, Z.eqb_refl. cbn [negb].
  destruct (os_recvmsg w) as [ev w1]. assert (Hgo : forall i1 w2, input i1 = input i -> i_state i1 = TEST_RUNNING -> run_events rounds fuel i1 w2 = Some (ok, i', w') ->
    in_ok i' /\ exists n, consumed i' = consumed i ++ replicate n 2 ++ (if ok then [i_state i'] else []) /\ (ok = true -> i_state i' <> TEST_RUNNING)).
  { intros i1 w2 Hin Hs Er. destruct (input_consumed i i1 Hin Hi) as [Hi1 Hc]. destruct (IH _ _ _ _ _ Hi1 Hs Er) as (Hi' & n & Hc' & Hne).
    split; [done|]. exists n. by rewrite Hc', Hc. }
  case_if; [by apply Hgo|]. case_if.
  { case_if; [|by apply Hgo]. destruct (ctrl_get_state i w1) as [[i2 w2]|] eqn:Eg; [|done]. cbn [mbind option_bind]. destruct (get_state_consumed _ _ _ _ Hi Eg) as [Hi2 Hc2].
    intros Er. destruct (decide (i_state i2 = TEST_RUNNING)) as [Hs2|Hs2].
    - destruct (IH _ _ _ _ _ Hi2 Hs2 Er) as (Hi' & n & Hc' & Hne). split; [done|]. exists (S n). split; [|done]. rewrite Hc', Hc2, Hs2, <- app_assoc. done.
    - destruct rounds as [|rounds]; [done|]. cbn [run_events] in Er. rewrite (proj2 (Z.eqb_neq _ _) Hs2) in Er. cbn [negb] in Er. injection Er as <- <- <-.
      split; [done|]. exists O. split; [by rewrite Hc2|done]. }
  case_if; [by apply Hgo|]. case_if; [by apply Hgo|]. destruct (lookup_stream _ _) as [st|].
  - destruct (stream_transfer fuel _ i st w1) as [[s2 w2]|]; [|done]. cbn [mbind option_bind]. by apply Hgo.
  - intros [= <- <- <-]. split; [done|]. exists O. by rewrite !app_nil_r.
Qed.

Lemma exchange_consumed fuel d cpu i w i' w' : in_ok i -> exchange_results fuel d cpu i w = Some (i', w') ->
  exists m st, consumed i' = consumed i ++ m ++ [st].
Proof.
  intros Hi. unfold exchange_results, ctrl_set_state. destruct (ctrl_read_json _ _) as [[[t i1] w1]|] eqn:E1; [|done]. cbn [mbind option_bind].
  destruct (read_json_consumed (set_state EXCHANGE_RESULTS i) _ _ _ _ Hi E1) as (Hi1 & m & Hc1 & _). destruct (json_result _ _ _ _ w1) as [[r w2]|]; [|done]. cbn [mbind option_bind].
  intros E3. destruct (get_state_consumed (set_state DISPLAY_RESULTS i1) _ _ _ Hi1 E3) as [_ Hc3]. change (consumed (set_state DISPLAY_RESULTS i1)) with (consumed i1) in Hc3.
  change (consumed (set_state EXCHANGE_RESULTS i)) with (consumed i) in Hc1. exists m, (i_state i'). by rewrite Hc3, Hc1, <- app_assoc.
Qed.

Lemma run_test_written rounds fuel i w rc i' w' :
  in_ok i -> greeting (consumed i) -> run_test rounds fuel i w = Some (rc, i', w') ->
  exists t, written w' = written w ++ t /\ protocol rc (consumed i') ([9; 10] ++ t).
Proof.
  intros Hi Hg. unfold run_test, ctrl_set_state. set (w1 := iperf3_stream_cb true _). set (i1 := set_state TEST_RUNNING _).
  assert (E1 : written w1 = written w ++ [1; 2]) by (unfold w1; rewrite written_cb, !written_write, <- app_assoc; done).
  call (written_time64 w1) as start w2 E2. call (written_cpu w2) as u0 w3 E3.
  destruct (run_events _ _ _ w3) as [[[ok i4] w4]|] eqn:E4; [|done]. cbn [mbind option_bind].
  destruct (run_events_consumed _ _ i1 w3 ok i4 w4 Hi eq_refl E4) as (Hi4 & n & Hc4 & Hne). change (consumed i1) with (consumed i) in Hc4. apply run_events_written in E4.
  assert (Ew : written w4 = written w ++ [1; 2]) by congruence. destruct ok; cbn [negb].
  2:{ intros [= <- <- <-]. exists [1; 2]. split; [done|]. rewrite Hc4, app_nil_r. by apply lost_event. }
  call (written_time64 w4) as now w5 E5. set (w6 := iperf3_stream_cb false w5). assert (E6 : written w6 = written w5) by apply written_cb.
  call (written_cpu w6) as u1 w7 E7. assert (E8 : written (iperf3_test_cleanup i4 w7) = written w ++ [1; 2]) by (rewrite cleanup_written; congruence).
  case_if; b2p.
  - destruct (exchange_results _ _ _ _ _) as [[i9 w9]|] eqn:E9; [|done]. cbn. intros [= <- <- <-]. destruct (exchange_consumed _ _ _ _ _ _ _ Hi4 E9) as (m & st & Hm).
    apply exchange_written in E9 as [r Er]. rewrite E8, <- app_assoc in Er. eexists. split; [exact Er|]. rewrite Hm, Hc4, E, <- !app_assoc. by apply completed.
  - intros [= <- <- <-]. exists [1; 2]. split; [done|]. rewrite Hc4. apply terminated; [done|by apply Hne|done].
Qed.

(** C36: the server keeps to the protocol.  In a test that starts with a new control
    connection and returns, the server has announced its states in order
    (parameters, streams, start, running).  The first state the client then sent
    that is not the running state decides: if it is the end of the test, the
    server has sent exactly one result with its length between the announcements
    of the exchange and of the display of results; if it is another one, nothing
    more.  What the client sent is what the server has read: the cookie, the
    parameters with their length, the states, and with the end of the test the
    client's result and its last state. *)
Theorem session_order junk rounds fuel i w rc i' w' :
  i_pos i = 0 -> i_inbuf i = None ->
  iperf3_test sizeof_stream junk rounds fuel i w = Some (rc, i', w') ->
  exists t, written w' = written w ++ t /\ protocol rc (consumed i') t.
Proof.
  intros Hp Hb. assert (Hi : in_ok i) by (unfold in_ok; rewrite Hp, Hb; done). assert (Hc0 : consumed i = []) by (unfold consumed; rewrite Hb; apply take_nil).
  unfold iperf3_test, ctrl_set_state. call (written_alloc COOKIE_SIZE w) as ok w1 E1. destruct ok; [|done]. cbn [negb].
  destruct (ctrl_read COOKIE_SIZE i w1) as [[[r i2] w2]|] eqn:E2; [|done]. cbn [mbind option_bind].
  destruct (read_consumed _ _ _ _ _ _ Hi E2) as (Hi2 & Hc2 & Hl2 & _). rewrite Hc0 in Hc2. apply read_written in E2.
  destruct (ctrl_read_json _ _) as [[[param i3] w3]|] eqn:E3; [|done]. cbn [mbind option_bind].
  destruct (read_json_consumed (set_state PARAM_EXCHANGE i2) _ _ _ _ Hi2 E3) as (Hi3 & m & Hc3 & Hm). change (consumed (set_state PARAM_EXCHANGE i2)) with (consumed i2) in Hc3. apply read_json_written in E3. rewrite written_write in E3.
  assert (Ew3 : written w3 = written w ++ [9]) by (rewrite E3, E2, E1; done).
  destruct param as [param|]; [|intros [= <- <- <-]; exists [9]; split; [done|apply no_parameters]].
  assert (Hg : greeting (consumed i3)).
  { destruct (Hm ltac:(done)) as (l & txt & -> & Hl & Hv). exists r, l, txt. rewrite Hc3, Hc2. split; [done|]. split; [unfold COOKIE_SIZE in *; lia|done]. }
  destruct (read_params junk param i3) as [i4|] eqn:E4; [|done]. assert (Hin4 : input i4 = input i3).
  { unfold read_params in E4. repeat match type of E4 with context [json_find_int ?a ?b ?c ?d] => destruct (json_find_int a b c d); [|done]; cbn [mbind option_bind] in E4 end.
    destruct (_ =? 0); [done|]. by injection E4 as <-. }
  cbn [mbind option_bind]. set (b := (_ || _) && _).
  assert (Ea : written (if b then os_alloc (i_writelen i4) w3 else (true, w3)).2 = written w3) by (destruct b; [apply written_alloc|done]).
  destruct (if b then os_alloc (i_writelen i4) w3 else (true, w3)) as [ok w4]. cbn [snd] in Ea. destruct ok; cbn [negb].
  2:{ intros [= <- <- <-]. exists [9]. split; [congruence|apply no_parameters]. }
  match goal with |- context [create_streams _ ?n ?k ?i5 ?w5] => pose proof (create_streams_written n k i5 w5) as Ec; pose proof (create_streams_input n k i5 w5) as Ein;
    assert (Hin5 : input i5 = input i4) by (by destruct b); destruct (create_streams _ n k i5 w5) as [[ok i6] w6] end.
  cbn [fst snd] in Ec, Ein. rewrite written_write, Ea, Ew3, <- app_assoc in Ec. cbn [app] in Ec. change (u8 CREATE_STREAMS) with 10 in Ec.
  destruct (input_consumed i3 i6 ltac:(congruence) Hi3) as [Hi6 Hc6]. rewrite <- Hc6 in Hg. destruct ok; cbn [negb].
  - intros Er. apply run_test_written in Er as (t & Et & Hpr); [|done|done]. exists ([9; 10] ++ t). rewrite Et, Ec, <- app_assoc. done.
  - intros [= <- <- <-]. exists [9; 10]. split; [done|by apply no_streams].
Qed.

End Session.

(** ** Parameters *)

Section Params.
Context (junk : json_token) (m : bytes * jvalue) (ms : list (bytes * jvalue)).

(** The value the client gave to a parameter, or the default. *)
Definition param (name : string) (deflt : Z) : Z :=
  match assoc (str name) (m :: ms) with Some v => default deflt (int_value v) | None => deflt end.

Definition param_ok (name : string) : Prop := match assoc (str name) (m :: ms) with Some v => int_ok v | None => True end.

(** The test runs with what the client asked for: the number of streams, the
    directions, the transport, the type of service, the block of at most 1460
    bytes and the rate, with the interval between packets that gives the rate. *)
Theorem parameters_agreed i :
  member_ok m -> Forall member_ok ms ->
  Forall param_ok ["parallel"; "reverse"; "bidirectional"; "udp"; "TOS"; "len"; "bandwidth"]%string ->
  8 <= u32 (param "bandwidth" 1048576) ->
  let len := u32 (Z.min 1460 (param "len" 1460)) in
  let bps := u32 (param "bandwidth" 1048576) in
  read_params junk (object_text m ms) i
  = Some (set_params (u32 (param "parallel" 1)) (negb (param "reverse" 0 =? 0)) (negb (param "bidirectional" 0 =? 0)) (negb (param "udp" 0 =? 0))
      (u8 (param "TOS" 0)) len bps (u32 (SYSTIME_SEC 1 * len) / (bps / 8)) i).
Proof.
  intros Hm Hms Hok Hb len bps.
  assert (Hget : forall name d, param_ok name -> json_find_int junk (object_text m ms) (str name) d = Some (param name d)).
  { intros name d Hn. rewrite parameter_find by done. unfold param, param_ok in *. destruct (assoc (str name) (m :: ms)) as [v|]; [|done].
    by destruct v as [ds|s|b]. }
  repeat (apply Forall_cons in Hok as [? Hok]). unfold read_params. rewrite !Hget by done. cbn [mbind option_bind]. fold bps len.
  rewrite (proj2 (Z.eqb_neq (bps / 8) 0)); [done|]. assert (1 <= bps / 8) by (apply Z.div_le_lower_bound; lia). lia.
Qed.

End Params.

(** ** Counters of a UDP stream *)

(** The packets a connection gives until it has none. *)
Inductive delivers {W} `{IperfOs W} (c : Z) : W -> list bytes -> W -> Prop :=
| delivers_none w w' : netconn_recv c w = (None, w') -> delivers c w [] w'
| delivers_some w b w1 bs w' : netconn_recv c w = (Some b, w1) -> delivers c w1 bs w' -> delivers c w (b :: bs) w'.

Definition count_all (s : stream) (bs : list bytes) : stream := foldl (fun s b => udp_count (packet_pseq b) (zlen b) s) s bs.

Lemma udp_read_counts {W} `{IperfOs W} c bs w w' : delivers c w bs w' -> forall s fuel,
  s_conn s = c -> Forall (fun b => 12 <= zlen b) bs -> (length bs < fuel)%nat -> stream_udp_read fuel s w = Some (count_all s bs, w').
Proof.
  induction 1 as [w w' E|w b w1 bs w' E _ IH]; intros s fuel Hc Hl Hf; (destruct fuel as [|fuel]; [lia|]); cbn [stream_udp_read]; rewrite Hc, E; [done|].
  apply Forall_cons in Hl as [Hb Hl]. rewrite (proj2 (Z.ltb_ge _ _)) by done. apply IH; [done|done|cbn in Hf; lia].
Qed.

(** Sequence numbers that only grow, from [n] on. *)
Fixpoint growing (n : Z) (ps : list Z) : Prop := match ps with [] => True | p :: ps => n <= p < 2 ^ 32 - 1 /\ growing (p + 1) ps end.

(** The numbers from [n] up to the last one that are missing. *)
Fixpoint missing (n : Z) (ps : list Z) : Z := match ps with [] => 0 | p :: ps => (p - n) + missing (p + 1) ps end.

Lemma missing_range ps : forall n, 0 <= n -> growing n ps -> 0 <= missing n ps < 2 ^ 32 - n \/ ps = [].
Proof.
  induction ps as [|p ps IH]; intros n Hn Hg; [by right|]. left. cbn [growing missing] in *. destruct Hg as [Hp Hg].
  destruct (IH (p + 1) ltac:(lia) Hg) as [Hm| ->]; [lia|cbn; lia].
Qed.

(** As long as packets arrive in order, a UDP stream counts exactly the packets
    that are missing as lost, all bytes that arrived, and the last number as the
    number of packets. *)
Theorem losses_counted {W} `{IperfOs W} bs w w' s fuel :
  delivers (s_conn s) w bs w' -> Forall (fun b => 12 <= zlen b) bs -> (length bs < fuel)%nat ->
  let ps := map packet_pseq bs in
  0 < s_next_pseq s -> growing (s_next_pseq s) ps -> 0 <= s_num_err s -> s_num_err s + missing (s_next_pseq s) ps < 2 ^ 32 ->
  exists s', stream_udp_read fuel s w = Some (s', w') /\
    s_num_err s' = s_num_err s + missing (s_next_pseq s) ps /\
    s_num_pkts s' = List.last ps (s_num_pkts s) /\
    u64 (s_num_bytes s') = u64 (s_num_bytes s + foldr Z.add 0 (map zlen bs)).
Proof.
  intros Hd Hl Hf ps Hn Hg He Ho. exists (count_all s bs). split; [by apply (udp_read_counts (s_conn s))|]. clear Hd Hl Hf.
  subst ps. revert s Hn Hg He Ho. induction bs as [|b bs IH]; intros s Hn Hg He Ho; cbn [map growing missing foldr] in *.
  { cbn. rewrite !Z.add_0_r. done. }
  destruct Hg as [Hp Hg]. set (p := packet_pseq b) in *. change (count_all s (b :: bs)) with (count_all (udp_count p (zlen b) s) bs).
  assert (Hm : 0 <= missing (p + 1) (map packet_pseq bs)).
  { destruct (missing_range (map packet_pseq bs) (p + 1) ltac:(lia) Hg) as [?| ->]; [lia|done]. }
  assert (E1 : s_next_pseq (udp_count p (zlen b) s) = p + 1) by (cbn; apply u32_small; lia).
  assert (E2 : s_num_err (udp_count p (zlen b) s) = s_num_err s + (p - s_next_pseq s)).
  { cbn. destruct (Z.ltb_spec (s_next_pseq s) p); [apply u32_small|]; lia. }
  specialize (IH (udp_count p (zlen b) s)). rewrite E1, E2 in IH. destruct IH as (H1 & H2 & H3); [lia|done|lia|lia|].
  rewrite H1, H2, H3. split; [lia|]. split.
  - cbn [s_num_pkts udp_count]. destruct (map packet_pseq bs) as [|q qs]; [done|]. cbn [List.last]. clear. revert q. induction qs as [|q' qs IH]; intros q; [done|]. apply IH.
  - cbn [s_num_bytes udp_count]. unfold u64. rewrite Zplus_mod_idemp_l. f_equal. lia.
Qed.

(** A packet that is late is counted as lost once more: the numbers 1, 3, 2, 4
    give two losses. *)
Example late_packet_lost :
  s_num_err (foldl (fun s p => udp_count p 12 s) (mkStream 0 1 false 1 0 0 0 udp_read) [1; 3; 2; 4]) = 2.
Proof. reflexivity. Qed.

(** The numbers of the streams: different for the first 254, and never 2. *)
Definition stream_ids (n : nat) : list Z := map (fun k => Nat.iter k next_id 0) (seq 1 n).

Lemma stream_ids_distinct : NoDup (stream_ids 254) /\ 2 ∉ stream_ids 254.
Proof.
  assert (E : bool_decide (NoDup (stream_ids 254)) && bool_decide (2 ∉ stream_ids 254) = true) by (by vm_compute).
  apply andb_prop in E as [E1 E2]. apply bool_decide_eq_true in E1, E2. done.
Qed.

(** ** The text of the result *)

Section Result.
Context {W : Type} `{IperfOs W}.

Definition ss_size (m : Z) : Prop := m = 128 \/ m = 256 \/ m = 512 \/ m = 1024.

Record ss_ok (ss : stringstream) : Prop := {
  ss_ok_size : ss_size (ss_max ss);
  ss_ok_text : zlen (ss_text ss) < ss_max ss;
}.

Lemma grow_bounds fuel : forall max pos n w m w',
  str_grow fuel max pos n w = Some (m, w') -> ss_size max -> pos < max -> ss_size m /\ pos + n < m.
Proof.
  induction fuel as [|fuel IH]; intros max pos n w m w' E Hs Hp; [done|]. cbn [str_grow] in E. rewrite (proj2 (Z.ltb_lt _ _) Hp) in E.
  destruct (Z.ltb_spec n (max - pos)); [injection E as <- <-; split; [done|lia]|]. destruct (Z.ltb_spec max 1024) as [Hm|]; [|by apply IH in E].
  destruct (os_alloc (max * 2) w) as [[] w1]; [|done]. apply IH in E; [done|unfold ss_size in *; lia..].
Qed.

(** What is printed is in the buffer, which holds 1023 characters at most. *)
Lemma printf_bounds fuel t ss w ss' w' :
  str_printf fuel t ss w = Some (ss', w') -> ss_ok ss -> ss_ok ss' /\ ss_text ss' = ss_text ss ++ t /\ zlen (ss_text ss') < 1024.
Proof.
  unfold str_printf. destruct (str_grow _ _ _ _ _) as [[m w1]|] eqn:E; [|done]. cbn. intros [= <- <-] [Hs Ht]. apply grow_bounds in E as [Hm Hl]; [|done|done].
  assert (Hz : zlen (ss_text ss ++ t) < m) by (rewrite zlen_app; lia). split; [by split|]. split; [done|]. cbn. unfold ss_size in Hm. lia.
Qed.

Lemma printf_fits fuel t ss w :
  (forall n w, (os_alloc n w).1 = true) -> ss_ok ss -> zlen (ss_text ss ++ t) < 1024 -> (4 <= fuel)%nat ->
  exists m w', str_printf fuel t ss w = Some (mkSs m (ss_text ss ++ t), w').
Proof.
  intros Ha [Hs Ht] Hl Hf. rewrite zlen_app in Hl. unfold str_printf.
  assert (Hg : forall k m w, (k <= 3)%nat -> m = 128 * 2 ^ Z.of_nat k -> zlen (ss_text ss) < m ->
    forall f, (4 - k <= f)%nat -> exists m' w', str_grow f m (zlen (ss_text ss)) (zlen t) w = Some (m', w')).
  { clear Hs Ht. intros k. remember (3 - k)%nat as j. revert k Heqj. induction j as [|j IH]; intros k Hj m w0 Hk Em Hp f Hf0; (destruct f as [|f]; [lia|]); cbn [str_grow];
      rewrite (proj2 (Z.ltb_lt _ _) Hp); (destruct (Z.ltb_spec (zlen t) (m - zlen (ss_text ss))); [by eexists _, _|]).
    - assert (k = 3%nat) by lia. subst k. change (128 * 2 ^ Z.of_nat 3) with 1024 in Em. lia.
    - assert (Hm : m < 1024) by (rewrite Em; assert (Hk2 : (k <= 2)%nat) by lia; destruct k as [|[|[|]]]; [..|lia]; cbn; lia).
      rewrite (proj2 (Z.ltb_lt _ _) Hm). specialize (Ha (m * 2) w0). destruct (os_alloc (m * 2) w0) as [ok w1]. cbn in Ha. subst ok.
      apply (IH (S k)); [lia|lia| |lia|lia]. rewrite Nat2Z.inj_succ, Z.pow_succ_r by lia. lia. }
  assert (Hk : exists k, (k <= 3)%nat /\ ss_max ss = 128 * 2 ^ Z.of_nat k).
  { destruct Hs as [->|[->|[->| ->]]]; [by exists 0%nat; split; [lia|]|by exists 1%nat; split; [lia|]|by exists 2%nat; split; [lia|]|by exists 3%nat; split; [lia|]]. }
  destruct Hk as (k & Hk3 & Ek). destruct (Hg k (ss_max ss) w Hk3 Ek Ht fuel ltac:(lia)) as (m & w' & ->). by exists m, w'.
Qed.

Lemma pretty_go_length x : forall s, (String.length s <= String.length (pretty_N_go x s))%nat.
Proof.
  induction (N.lt_wf_0 x) as [x _ IH]; intros s. destruct (decide (x = 0)%N) as [->|Hx]; [by rewrite pretty_N_go_0|].
  rewrite pretty_N_go_step by lia. etrans; [|apply IH, N.div_lt; lia]. cbn. lia.
Qed.

Lemma pretty_length (x : N) : (1 <= String.length (pretty x))%nat.
Proof.
  unfold pretty, pretty_N. case_decide; [cbn; lia|]. rewrite pretty_N_go_step by lia. etrans; [|apply pretty_go_length]. cbn. lia.
Qed.

(** A number has a digit at least. *)
Lemma num_length v : 1 <= zlen (num v).
Proof.
  assert (Hs : forall s, zlen (str s) = Z.of_nat (String.length s)).
  { intros s. unfold zlen, str. rewrite length_map. f_equal. induction s as [|c s IH]; cbn; congruence. }
  unfold num. rewrite Hs. destruct v as [|p|p]; [cbn; lia| |].
  - pose proof (pretty_length (N.pos p)). change (pretty (Z.pos p)) with (pretty (N.pos p)). lia.
  - change (pretty (Z.neg p)) with ("-" +:+ pretty (N.pos p))%string. generalize (pretty (N.pos p)). intros t. change (String.length ("-" +:+ t)%string) with (S (String.length t)). lia.
Qed.

Lemma num6_length v : 6 <= zlen (num6 v).
Proof. unfold num6. rewrite zlen_app. unfold zlen. rewrite length_replicate. lia. Qed.

(** The lengths of the fixed parts of a text. *)
Ltac text_lengths :=
  repeat match goal with
  | |- context [zlen (quoted ?x)] => let v := eval vm_compute in (zlen (quoted x)) in change (zlen (quoted x)) with v
  | |- context [zlen (str ?x)] => let v := eval vm_compute in (zlen (str x)) in change (zlen (str x)) with v
  end.

Lemma stream_text_length (first : bool) d s : 103 + (if first then 0 else 1) <= zlen (stream_text first d s).
Proof.
  unfold stream_text. rewrite !zlen_app. pose proof (num6_length (d mod SYSTIME_MS 1)).
  pose proof (num_length (s_id s)). pose proof (num_length (s_num_bytes s)). pose proof (num_length (s_num_err s)). pose proof (num_length (s_num_pkts s)).
  pose proof (num_length (d / SYSTIME_SEC 1)).
  text_lengths.
  destruct first; [change (zlen (@nil Z)) with 0|change (zlen (str ",")) with 1]; lia.
Qed.

Lemma cpu_text_length t u q : 117 <= zlen (cpu_text t u q).
Proof.
  unfold cpu_text. rewrite !zlen_app. pose proof (num_length t). pose proof (num_length u). pose proof (num_length q). text_lengths. lia.
Qed.

Lemma stream_results_length fuel d l : forall (first : bool) ss w ss' w',
  stream_results fuel first d l ss w = Some (ss', w') -> ss_ok ss ->
  ss_ok ss' /\ zlen (ss_text ss) + 104 * zlen l - (if first then 1 else 0) <= zlen (ss_text ss').
Proof.
  induction l as [|s l IH]; intros first ss w ss' w' E Hs; cbn [stream_results] in E.
  { injection E as <- <-. split; [done|]. zl. destruct first; lia. }
  destruct (str_printf _ _ ss w) as [[ss1 w1]|] eqn:E1; [|done]. cbn [mbind option_bind] in E. apply printf_bounds in E1 as (H1 & Et & _); [|done].
  destruct (_ =? 0); [done|]. apply IH in E as [H2 Hl]; [|done]. split; [done|]. rewrite Et, zlen_app in Hl. pose proof (stream_text_length first d s).
  rewrite zlen_cons. destruct first; lia.
Qed.

(** With nine streams or more the result of a test is never ready: the text no
    longer fits into 1024 bytes, from where the buffer does not grow, and the loop
    that prints it does not end. *)
Theorem nine_streams_hang fuel i d cpu w : 9 <= zlen (i_streams i) -> json_result fuel i d cpu w = None.
Proof.
  intros Hn. destruct (json_result fuel i d cpu w) as [[r w']|] eqn:E; [exfalso|done]. unfold json_result, str_init in E. revert E. case_if; [done|].
  destruct (os_alloc 128 w) as [[] w1]; [|done]. cbn [mbind option_bind].
  assert (H0 : ss_ok (mkSs 128 [])) by (split; [by left|done]).
  destruct (str_printf _ _ _ w1) as [[s2 w2]|] eqn:E2; [|done]. cbn [mbind option_bind]. apply printf_bounds in E2 as (H2 & T2 & _); [|done].
  destruct (str_printf _ _ _ w2) as [[s3 w3]|] eqn:E3; [|done]. cbn [mbind option_bind]. apply printf_bounds in E3 as (H3 & T3 & _); [|done].
  destruct (stream_results _ _ _ _ _ w3) as [[s4 w4]|] eqn:E4; [|done]. cbn [mbind option_bind]. apply stream_results_length in E4 as [H4 L4]; [|done].
  destruct (str_printf _ _ _ w4) as [[s5 w5]|] eqn:E5; [|done]. cbn. intros _. apply printf_bounds in E5 as (_ & T5 & L5); [|done].
  rewrite T5, zlen_app in L5. rewrite T3, T2, !zlen_app in L4. cbn [ss_text] in L4.
  match type of L4 with context [cpu_text ?t ?u ?q] => pose proof (cpu_text_length t u q) end.
  change (zlen (@nil Z)) with 0 in L4. change (zlen (quoted "streams")) with 9 in L4. change (zlen (str ": [")) with 3 in L4.
  change (zlen (str "]}")) with 2 in L5. lia.
Qed.

End Result.

(** ** Messages of the control connection *)

Section Control.
Context {W : Type} `{IperfOs W}.

(** What has arrived and was not read. *)
Definition unread (i : iperf3) : bytes := drop (Z.to_nat (i_pos i)) (default [] (i_inbuf i)).

Record ctrl_ok (i : iperf3) : Prop := {
  ctrl_ok_buf : is_Some (i_inbuf i);
  ctrl_ok_pos : 0 <= i_pos i <= zlen (default [] (i_inbuf i));
}.

Lemma avail_unread i : ctrl_ok i -> ctrl_avail i = zlen (unread i).
Proof. intros [[b Hb] Hp]. unfold ctrl_avail, unread. rewrite Hb in *. cbn [default from_option id] in *. by rewrite zlen_drop. Qed.

(** A read that what is there, or one more piece, satisfies. *)
Lemma read_exact i w r rest w' :
  ctrl_ok i ->
  (unread i = r ++ rest /\ w' = w \/ zlen (unread i) < zlen r /\ exists seg, ctrl_recv w = (Some seg, w') /\ unread i ++ seg = r ++ rest) ->
  exists i', ctrl_read (zlen r) i w = Some (r, i', w') /\ ctrl_ok i' /\ unread i' = rest.
Proof.
  intros Hc Hr. pose proof (avail_unread i Hc) as Ha. pose proof (ctrl_ok_pos _ Hc) as Hp. destruct (ctrl_ok_buf _ Hc) as [b Hb].
  assert (G : forall i1 b1, i_inbuf i1 = Some b1 -> 0 <= i_pos i1 <= zlen b1 -> drop (Z.to_nat (i_pos i1)) b1 = r ++ rest ->
    let i' := set_input (i_pos i1 + zlen r) (Some b1) i1 in ctrl_ok i' /\ unread i' = rest).
  { intros i1 b1 E1 Hp1 Ed. pose proof (zlen_nonneg r). assert (Hl : zlen (r ++ rest) = zlen b1 - i_pos i1) by (by rewrite <- Ed, zlen_drop).
    rewrite zlen_app in Hl. pose proof (zlen_nonneg rest). split; [split; [by eexists|cbn; lia]|]. unfold unread. cbn.
    rewrite Z2Nat.inj_add by lia. rewrite <- drop_drop, Ed. unfold zlen. by rewrite Nat2Z.id, drop_app_length. }
  assert (Ht : take (Z.to_nat (zlen r)) (r ++ rest) = r) by (unfold zlen; rewrite Nat2Z.id; apply take_app_length).
  unfold ctrl_read. rewrite Ha. destruct Hr as [[Hu ->]|(Hlt & seg & Hs & Hu)].
  - rewrite Hu, zlen_app, (proj2 (Z.ltb_ge _ _)) by (pose proof (zlen_nonneg rest); lia). rewrite Hb. cbn [mbind option_bind].
    unfold unread in Hu. rewrite Hb in Hu, Hp. cbn [default from_option id] in Hu, Hp. rewrite Hu, Ht. eexists. split; [done|]. by apply G.
  - rewrite (proj2 (Z.ltb_lt _ _)) by done. unfold ctrl_fill. rewrite Hs, Hb. cbn [default from_option id i_inbuf set_input mbind option_bind i_pos].
    unfold unread in Hu. rewrite Hb in Hu, Hp. cbn [default from_option id] in Hu, Hp.
    assert (Hd : drop (Z.to_nat (i_pos i)) (b ++ seg) = r ++ rest) by (rewrite drop_app_le by (unfold zlen in Hp; lia); done).
    rewrite Hd, Ht. eexists. split; [done|]. apply (G (set_input (i_pos i) (Some (b ++ seg)) i) (b ++ seg)); [done| |done].
    cbn. rewrite zlen_app. pose proof (zlen_nonneg seg). lia.
Qed.

Lemma be32_length v : zlen (be32 v) = 4.
Proof. done. Qed.

(** A JSON message whose length has arrived, and whose text comes with it or in
    one more piece, is read as the other side wrote it. *)
Theorem message_read i w t rest w1 w2 :
  ctrl_ok i -> zlen t + 1 < 2 ^ 32 -> Forall (fun c => c <> 0) t -> os_alloc (zlen t + 1) w = (true, w1) ->
  (unread i = be32 (zlen t) ++ t ++ rest /\ w2 = w1 \/
   exists t1 seg, unread i = be32 (zlen t) ++ t1 /\ zlen t1 < zlen t /\ ctrl_recv w1 = (Some seg, w2) /\ t1 ++ seg = t ++ rest) ->
  exists i', ctrl_read_json i w = Some (Some t, i', w2) /\ unread i' = rest.
Proof.
  intros Hc Hl Hz Ha Hu. pose proof (zlen_nonneg t).
  assert (Hv : le_value (rev (be32 (zlen t))) = zlen t).
  { unfold be32. rewrite rev_involutive. pose proof (le_word_le (zlen t) ltac:(unfold word; lia) []) as E. by rewrite app_nil_r in E. }
  assert (H4 : exists u, unread i = be32 (zlen t) ++ u /\ (u = t ++ rest /\ w2 = w1 \/ zlen u < zlen t /\ exists seg, ctrl_recv w1 = (Some seg, w2) /\ u ++ seg = t ++ rest)).
  { destruct Hu as [[Hu ->]|(t1 & seg & Hu & Ht1 & Hs & E)]; [exists (t ++ rest); auto|]. exists t1. split; [done|]. right. split; [done|]. by exists seg. }
  destruct H4 as (u & Hu4 & Hrest). destruct (read_exact i w (be32 (zlen t)) u w Hc) as (i1 & E1 & Hc1 & Hu1); [by left|].
  unfold ctrl_read_json. replace (ctrl_read 4 i w) with (Some (be32 (zlen t), i1, w)) by (symmetry; exact E1). cbn [mbind option_bind]. rewrite be32_length. cbn [Z.eqb negb Pos.eqb].
  rewrite Hv, u32_small by lia. rewrite Ha. cbn [negb].
  destruct (read_exact i1 w1 t rest w2 Hc1) as (i2 & E2 & _ & Hu2); [by rewrite Hu1|]. rewrite E2. cbn [mbind option_bind].
  rewrite (proj2 (Z.ltb_ge _ _)), Z.eqb_refl by lia. cbn [negb]. rewrite cstr_plain by done. by exists i2.
Qed.

End Control.

(** ** A server for examples *)

(** Pieces to come on the control connection, what was written, the events and the
    time. *)
Record bench := mkBench { be_in : list bytes; be_out : bytes; be_ev : list event_msg; be_time : Z }.

Definition later (w : bench) : bench := mkBench (be_in w) (be_out w) (be_ev w) (be_time w + 1500000).

#[global] Instance bench_os : IperfOs bench := {|
  ctrl_recv w := match be_in w with [] => (None, w) | b :: l => (Some b, mkBench l (be_out w) (be_ev w) (be_time w)) end;
  ctrl_write b w := mkBench (be_in w) (be_out w ++ b) (be_ev w) (be_time w);
  netconn_accept w := (Some 5, w);
  netconn_new w := (Some 6, w);
  netconn_bind c w := (true, w);
  netconn_connect c w := (true, w);
  netconn_recv c w := (Some [0], w);
  netconn_send c b w := (true, w);
  netconn_write_partly c n w := (true, n, w);
  netconn_close c w := w;
  netconn_delete c w := w;
  netbuf_alloc n w := (true, w);
  Iperf3.os_alloc n w := (true, w);
  os_avail_heap w := 100000;
  os_systime64 w := (be_time w, later w);
  os_systime w := (u32 (be_time w), later w);
  os_get_cpu_usage w := (mkCpu (be_time w) 0 0, w);
  os_recvmsg w := match be_ev w with [] => (mkEvent 1 RCVPLUS 0, w) | e :: l => (e, mkBench (be_in w) (be_out w) l (be_time w)) end;
  os_sendmsg e w := mkBench (be_in w) (be_out w) (be_ev w ++ [e]) (be_time w);
  os_request_timeoutmsg t e w := w;
  drain_msgs w := w;
  iperf3_stream_cb b w := w;
|}.

#[global, refine] Instance bench_trace : IperfTrace bench := { written := be_out }.
Proof. all: try done. - intros w. cbn. by destruct (be_in w). - intros w. cbn. by destruct (be_ev w). Defined.

(** A test of one stream that the client ends at once. *)
Definition sample_params : bytes := object_text (str "tcp", VBool true) [(str "parallel", VNumber (str "1"))].

Definition sample_net : bench :=
  mkBench [replicate 37 120 ++ be32 (zlen sample_params) ++ sample_params; [4]; be32 2 ++ str "{}"; [16]] [] [mkEvent 2 RCVPLUS 1] 0.

Definition sample_i3 : iperf3 := mkI3 1 2 [] 0 0 0 None false 0 0 0 0 false false false false 0.

Lemma session_order_witness :
  exists i' w' t, iperf3_test 80 JSON_NONE 5 9 sample_i3 sample_net = Some (0, i', w') /\ written w' = t /\ protocol 0 (consumed i') t /\ (5 < length t)%nat.
Proof.
  assert (Hr : exists i' w', iperf3_test 80 JSON_NONE 5 9 sample_i3 sample_net = Some (0, i', w') /\ (5 < length (be_out w'))%nat).
  { eexists _, _. split; [vm_compute; reflexivity|vm_compute; lia]. }
  destruct Hr as (i' & w' & E & Hl). exists i', w', (be_out w').
  destruct (session_order 80 JSON_NONE 5 9 sample_i3 sample_net 0 i' w' eq_refl eq_refl E) as (t & Et & Hp).
  split; [exact E|]. split; [done|]. split; [|exact Hl]. change (be_out w' = [] ++ t) in Et. by rewrite Et.
Defined.

(** Parameters that arrive in three pieces are not read: the server gives up. *)
Example three_pieces :
  (ctrl_read_json sample_i3 (mkBench [be32 4; str "{}"; str "{}"] [] [] 0)) ≫= (fun r => Some r.1.1) = Some None.
Proof. reflexivity. Qed.

(** A test of less than a second divides by 0. *)
Example short_test_divides :
  json_result 9 (set_streams [mkStream 5 1 false 1 0 0 0 tcp_read] sample_i3) 999999 (mkCpu 1 1 1) sample_net = None.
Proof. reflexivity. Qed.
